(* ===== verification/_CoqProject ===== *)
-Q . S2P
Prelude.v
Bytes.v
Compat.v
BitVector.v
Host.v
BlockCache.v
Device.v
HashTable.v
CacheList.v
Cache.v
CacheIo.v
CacheInv.v
CacheMiss.v
CachePut.v
CacheFill.v
CacheFetch.v
CacheLoop.v
CacheHold.v
CacheLaws.v
CacheFlush.v
CacheInit.v
CacheSpec.v
RamDisk.v
Myfs.v
Io.v
Sample.v
TmpBlocks.v
Bitmap.v
Inode.v
DStream.v
Resize.v
Dir.v
DirSpec.v
SkipList.v
Kernel.v
Links.v
Vnode.v
VnodeLists.v
VnodeInv.v
VnodeStep.v
VnodeTable.v
VnodeSpec.v
VnodeInit.v
VnodeOps.v
Descriptors.v
Paths.v
VnodeRefs.v
Syscalls.v
Mounts.v
Rootfs.v
RootfsTree.v
RootfsSpec.v
RootfsMount.v
RootfsPath.v
RootfsCalls.v
File.v
Mount.v
System.v
Argv.v
Libc.v
Hexdump.v
Shell.v
ShellSpec.v
Programs.v
Session.v
