(* ===== verification/Prelude.v ===== *)
(** * fs-kit: a verification development

    fs-kit is the file system construction kit of "Practical File System
    Design": a small file system, myfs, over a block cache, and a file system
    in memory, rootfs, both under a vnode layer with system calls on top, all
    of it in one process.  This development translates the C code to functions
    of the kernel's logic and proves what they do.

    ** How code is modelled

    C functions run in [M S A] (this file), a state monad with three outcomes:
    [Done], [Hang] (the program spins in [myfs_die] or [panic], or blocks for
    ever) and [Fault] (a memory error, or a call that C leaves undefined, such
    as [strcpy] or [memcpy] between ranges that overlap).  [wp m Q s] is total
    correctness: [m] ends in [Done] and [Q] holds; no theorem about a [wp] can
    be satisfied by code that does not return.  [wpf F m Q s] allows a fault,
    when [F] holds.  Integers are [Z] with
    the wrap-around of Bytes.v ([i32], [u32], [i64], [u64]) where the source
    can overflow; the layout is little-endian LP64.  Pointers are addresses
    into explicit stores, or views of a buffer.  Loops that are not structural
    carry fuel that runs out in [Hang], so a theorem about [wp] is also one
    about termination.

    One thread runs.  A semaphore or lock that would block never comes back,
    which is what stub.c makes of it ([acquire_sem] calls [myfs_die]).

    ** The parts

    - Prelude, Bytes: the monad and its rules; memory images, slices, integers.
    - BitVector (bitvector.c, bitvector.h): bits, ranges, first fit.
    - Host (stub.c, lock.h, and malloc, time and ids of the C library): a
      stream says which allocations fail.  Device (sysdep.c): positioned
      transfers on an open file; a stream says which transfers fail.
    - BlockCache: the interface between the cache and myfs, a class of
      operations and a class of laws over a view of a device (its blocks, the
      blocks held, the changes not yet marked, the lowest cached block).
    - The block cache (cache.c, cache.h): HashTable (hash_insert,
      hash_lookup, hash_delete, growth), CacheList (cache entries and the two
      doubly linked lists), Cache (state, flushing, removal, callbacks, checks)
      and CacheIo (cache_block_io and what is made of it) are the translation.
      CacheInv has the invariant; CacheMiss, CachePut, CacheFill, CacheFetch,
      CacheLoop and CacheHold the effect of each step on it; CacheLaws shows
      that the cache is an instance of the class of laws; CacheFlush and
      CacheInit that flushing and initialisation do their work; CacheSpec has
      the abstract machine and the theorems.
    - RamDisk: a second, trivial instance of the interface, for witnesses.
    - myfs: Myfs (myfs.h: on-disk and in-memory structures), Io (io.c),
      TmpBlocks (util.c), Bitmap (bitmap.c), Inode (inode.c), DStream
      (dstream.c), Dir (dir.c), File (file.c and the rest of dir.c), Mount
      (mount.c, journal.c).  Resize has the theorems about a file that changes
      its size within its last block, DirSpec those about directories as lists
      of entries.  Sample is a small file system for the witnesses.
    - SkipList (sl.c, skiplist.h): the list that finds vnodes; the levels come
      from a stream of results of [rand].
    - The kernel (kernel.c, kprotos.h, fsproto.h): Kernel has its structures
      and statics, Compat what compat.h shares, VnodeOps the table of
      operations of a file system.  Vnode is the vnode layer itself
      (load_vnode, get_vnode, put_vnode, new_vnode, remove_vnode), Descriptors
      the open files and their tables, Paths the resolution of names, Syscalls
      the sys_ calls, Mounts the file systems, mounting and the start.
    - The vnode layer's contract: Links and VnodeLists (doubly linked lists
      threaded through vnodes), VnodeInv (the invariant: lists, skip list,
      table of name spaces), VnodeStep (the class [FileSystems], which says
      what the layer asks of a file system, and the effect of each step),
      VnodeTable (each operation on the table of entries), VnodeSpec (clients
      and their contract), VnodeInit (the initial state and the theorems).
    - The root file system (rootfs.c): Rootfs is the translation, RootfsTree
      the invariant of its tree, RootfsSpec the theorems about it alone;
      RootfsMount makes it an instance of [FileSystems] and has the theorems
      about both: nodes made by one are found through the other.
    - The kernel over the root file system: VnodeRefs (references by address,
      as kernel.c holds them), RootfsPath (where a path leads in the tree, and
      [parse_path] component by component), RootfsCalls (system calls on
      absolute paths).
    - System (initfs.c, myfs_vnops.h): the state of the whole program, both
      tables of operations over it, and [init_fs].
    - The programs: Argv (argv.c, argv.h) splits a command line in place, Libc
      has what they use of the C library, Hexdump (hexdump.c) the memory
      dumper, Shell (fsh.c) the commands of the shell and its loop, Programs
      the [main] functions (fsh.c, makefs.c, mkfile.c, tstfs.c).  ShellSpec
      has the theorem about sessions of the shell, Session puts the programs
      over the cache and the disk of Device and runs an example.

    ** What is shown

    - The cache refines a map from block numbers to bytes
      ([cache_refines_blocks]); it is well formed after every session
      ([cache_well_formed], [get_ents_bounds]); a flush makes
      its contents durable ([flush_makes_durable]); its hash table refines a
      finite map and says what it does when memory runs out
      ([hash_table_refines_map], [hash_insert_outcomes]); requests past the
      end of the device crash ([past_end_crashes]).
    - Files: a write is what a later read returns ([write_then_read]), it
      changes exactly the bytes of its range ([write_in_place_exact]), a read
      returns the contents ([read_returns_contents]); inodes round-trip
      through the inode table and disturb nothing else
      ([read_vnode_after_update], [update_inode_exact]).
    - Directories: the bytes of a directory hold a list of entries, and
      looking up, inserting, deleting and listing are what they are on that
      list ([dir_lookup_exact], [dir_insert_exact], [dir_delete_exact],
      [myfs_readdir_exact]).  Inserting and deleting are shown while the
      directory keeps its last block; deleting is a [Fault] when more bytes
      follow than the entry has, since they are moved with [memcpy].
    - Space: allocating a block keeps map, disk image and count in agreement
      ([allocate_one_exact]); it finds a free block when there is one and the
      map is not marked full ([allocate_one_succeeds]), which it can be wrongly
      ([full_mark_wrong]).  Freeing a run inside one bitmap block is exact but
      for the count ([free_blocks_exact]).  The search for a run ends
      ([block_search_terminates]); the bit vector underneath
      ([first_fit_sound], [single_bit_complete], [clear_range_exact]);
      temporary blocks are lent and come back ([get_tmp_blocks_exact],
      [borrow_return]).
    - The skip list refines a sorted list ([insert_exact], [delete_exact],
      [search_exact]).
    - The vnode layer refines a table of entries with reference counts, for
      every client that keeps to its side ([vnode_layer_refines_table]): what
      getting and putting do ([get_vnode_exact], [put_vnode_exact]), that no
      reference is lost ([references_balance]) and no held vnode taken away
      ([held_vnode_stays]), from the initial state on ([init_vnodes_stand]).
    - The root file system keeps its tree ([do_create_exact]), shows every
      entry of a directory once ([readdir_exact]), gives links back
      ([symlink_round_trip]); under the vnode layer it satisfies the layer's
      contract ([rootfs_refines_table]), walking takes exactly one reference
      ([walk_exact]) and finds what was made ([mkdir_then_walk]).
    - Names: an absolute path leads the kernel where it leads in the tree
      ([absolute_path_resolves]); [sys_mkdir] as a whole makes the directory
      or says why not, and gives every reference back ([sys_mkdir_exact]).
    - Descriptors: the lowest free one is given, and found again
      ([new_fd_lowest], [new_fd_then_get_fd], [new_fd_full]).
    - The programs: a command line without a backslash before its end is split
      as a grammar of words says, and one with it is a [Fault], for the code
      copies it onto itself ([build_argv_splits]); a session of the shell is a
      sequence of rounds that ends, and fails only in a command or on such a
      line ([session_exact]); a dump shows every byte ([hexdump_round_trip]);
      mkfile makes whole blocks of zeros ([mkfile_main_exact]).  Session.v runs
      all parts together on three examples.

    The theorems about myfs are proved against the class of laws, so they hold
    over the cache of cache.c, which satisfies it.  Those about the vnode
    layer are proved against the class [FileSystems], which rootfs.c satisfies.

    ** Bounds and fuel

    - [CacheGeom]: descriptor below 256, blocks of 512 to 65535 bytes (at
      65536 [get_block] takes the path of large transfers and panics; below
      512 read-ahead asks for more than 64 entries and panics), a device of
      less than 4 GB (the comparison of block numbers is cut to an int).
    - [MAX_NODES] = 3 * 2^27 blocks in the hash table, whose sizes are ints: with
      fewer it never has 2^30 chains and can grow.  A device as in [CacheGeom]
      has less than 2^23 blocks ([table_roomy]).
    - [MIN_BLOCKS] = 72 blocks of cache: a full transfer of 64 and the
      [MAX_PINS] = 8 blocks a client may hold.  With fewer the cache may find
      no entry to evict and panics.
    - [list_fuel], [flush_fuel]: bounded by the number of entries; a list is
      walked once per flush of 64 dirty entries, each of which leaves fewer.
    - [read_chunks], [write_chunks]: the number of blocks.  [find_or_steal]
      takes three rounds: the first makes a vnode free, the second takes it.
    - [chain_fuel]: the number of nodes of the root file system and one more;
      the nodes of a list are different ([size_fuel]).  Lists of name spaces
      and of vnodes are walked with the number of those in the same way.
    - [parse_components]: the length of the path, each round of which eats a
      component; [parse_links]: MAX_SYM_LINKS links are followed.
    - [argv_loop] and the loops in it: the length of the buffer.
    - [fsh_loop]: the length of the input, of which a round takes at least a
      byte ([session_exact]).  [each_entry], [copy_out] and
      [write_rand_data] run until a system call says so, and take the number
      of rounds as an argument; [mkfile_loop]: the size of the file.
    - Sizes of files and bit vectors: stated with each theorem.

    ** Not modelled

    - Messages and the listings of debugging routines, in kernel.c what is
      compiled for DEBUG only: pure output.  What the shell's [ls] and
      [rdtest] show is recorded, but for the dates; the clocks with which
      cio and tstfs time themselves are left out, and [get_value] of makefs.c,
      which is never called.
    - That the host refuses the shell a file it makes, or mkfile its own.
    - The wrap-around of the count of references of a vnode, an int that is a
      [Z] here; the callback [freeitem] of the skip list, which both lists of
      the program leave NULL; the address [get_block] returns, which stands for
      its device and block in the interface BlockCache.
    - The block cache, the rest of the program and the root file system take
      memory from streams of their own, as if from separate heaps.
    - Interleaving of threads: the program starts none.
    - Branches for other systems ([__BEOS__], [unix] not defined). *)

From stdpp Require Export base numbers list option gmap.
From Stdlib Require Export ZArith Lia.

#[export] Set Default Goal Selector "!".

Declare Scope fskit_scope.
Delimit Scope fskit_scope with fskit.
Open Scope Z_scope.

(** ** Outcomes of running C code

    [Done] is normal termination.  [Hang] is the fate of [myfs_die] (util.c)
    and [panic] (sysdep.c), which both print a message and then spin in
    [while (1) ;].  [Fault] is a memory error: an access outside an object,
    through a null pointer, or a call that C leaves undefined. *)
Inductive outcome (A : Type) : Type :=
  | Done (a : A)
  | Hang
  | Fault.
Arguments Done {A} a.
Arguments Hang {A}.
Arguments Fault {A}.

(** State-passing code over a state [S]. *)
Definition M (S A : Type) : Type := S -> outcome (A * S).

#[export] Instance M_ret S : MRet (M S) := fun A a s => Done (a, s).
#[export] Instance M_bind S : MBind (M S) := fun A B f m s =>
  match m s with
  | Done (a, s') => f a s'
  | Hang => Hang
  | Fault => Fault
  end.

Definition get {S} : M S S := fun s => Done (s, s).
Definition gets {S A} (f : S -> A) : M S A := fun s => Done (f s, s).
Definition modify {S} (f : S -> S) : M S unit := fun s => Done (tt, f s).
Definition hang {S A} : M S A := fun _ => Hang.
Definition fault {S A} : M S A := fun _ => Fault.

(** [opt o] is the value of a checked memory access: a fault when the
    access is outside the object. *)
Definition opt {S A} (o : option A) : M S A := fun s =>
  match o with Some a => Done (a, s) | None => Fault end.

(** Run code over a component [T] of the state [S]. *)
Definition zoom {S T A} (prj : S -> T) (upd : T -> S -> S) (m : M T A) : M S A :=
  fun s => match m (prj s) with
           | Done (a, t) => Done (a, upd t s)
           | Hang => Hang
           | Fault => Fault
           end.

(** ** Total-correctness predicate transformer

    [wp m Q s]: run from [s], [m] terminates without fault and without
    hanging, in a result and a state that satisfy [Q]. *)
Definition wp {S A} (m : M S A) (Q : A -> S -> Prop) (s : S) : Prop :=
  match m s with Done (a, s') => Q a s' | _ => False end.

Section wp.
Context {S : Type}.

Lemma wp_ret {A} (a : A) (Q : A -> S -> Prop) s : Q a s -> wp (mret a : M S A) Q s.
Proof. done. Qed.

Lemma wp_bind {A B} (m : M S A) (f : A -> M S B) Q s :
  wp m (fun a s' => wp (f a) Q s') s -> wp (m ≫= f) Q s.
Proof. unfold wp, mbind, M_bind. destruct (m s) as [[a s']| |]; done. Qed.

Lemma wp_mono {A} (m : M S A) (Q Q' : A -> S -> Prop) s :
  wp m Q s -> (forall a s', Q a s' -> Q' a s') -> wp m Q' s.
Proof. unfold wp. destruct (m s) as [[a s']| |]; eauto. Qed.

Lemma wp_get (Q : S -> S -> Prop) s : Q s s -> wp get Q s.
Proof. done. Qed.

Lemma wp_gets {A} (f : S -> A) (Q : A -> S -> Prop) s : Q (f s) s -> wp (gets f) Q s.
Proof. done. Qed.

Lemma wp_modify (f : S -> S) (Q : unit -> S -> Prop) s : Q tt (f s) -> wp (modify f) Q s.
Proof. done. Qed.

Lemma wp_opt {A} (a : A) (Q : A -> S -> Prop) s : Q a s -> wp (opt (Some a)) Q s.
Proof. done. Qed.

Lemma wp_zoom {T A} (prj : S -> T) upd (m : M T A) Q s :
  wp m (fun a t => Q a (upd t s)) (prj s) -> wp (zoom prj upd m) Q s.
Proof. unfold wp, zoom. destruct (m (prj s)) as [[a t]| |]; done. Qed.

Lemma wp_if {A} (b : bool) (m1 m2 : M S A) Q s :
  (b = true -> wp m1 Q s) -> (b = false -> wp m2 Q s) ->
  wp (if b then m1 else m2) Q s.
Proof. destruct b; auto. Qed.

(** [wp] is exactly the existence of a normal final state. *)
Lemma wp_done {A} (m : M S A) Q s :
  wp m Q s <-> exists a s', m s = Done (a, s') /\ Q a s'.
Proof.
  unfold wp. destruct (m s) as [[a s']| |]; split.
  - eauto.
  - by intros (?&?&[= <- <-]&?).
  - done.
  - by intros (?&?&[=]&?).
  - done.
  - by intros (?&?&[=]&?).
Qed.

Lemma wp_run {A} (m : M S A) (Q : A -> S -> Prop) s a s' :
  m s = Done (a, s') -> Q a s' -> wp m Q s.
Proof. unfold wp. by intros ->. Qed.
End wp.

(** Partial correctness: what holds of a normal final state, if any. *)
Definition wlp {S A} (m : M S A) (Q : A -> S -> Prop) (s : S) : Prop :=
  match m s with Done (a, s') => Q a s' | _ => True end.

Section wlp.
Context {S : Type}.

Lemma wlp_ret {A} (a : A) (Q : A -> S -> Prop) s : Q a s -> wlp (mret a : M S A) Q s.
Proof. done. Qed.

Lemma wlp_bind {A B} (m : M S A) (f : A -> M S B) Q s :
  wlp m (fun a s' => wlp (f a) Q s') s -> wlp (m ≫= f) Q s.
Proof. unfold wlp, mbind, M_bind. destruct (m s) as [[a s']| |]; done. Qed.

Lemma wlp_any {A} (m : M S A) (Q : A -> S -> Prop) s :
  (forall a s', Q a s') -> wlp m Q s.
Proof. unfold wlp. destruct (m s) as [[a s']| |]; eauto. Qed.

Lemma wlp_get (Q : S -> S -> Prop) s : Q s s -> wlp get Q s.
Proof. done. Qed.

(** A run that terminates normally and its partial-correctness facts. *)
Lemma wp_wlp {A} (m : M S A) (Q Q' : A -> S -> Prop) s :
  wp m Q s -> wlp m Q' s -> wp m (fun a s' => Q a s' /\ Q' a s') s.
Proof. unfold wp, wlp. destruct (m s) as [[a s']| |]; done. Qed.
End wlp.

(** Total correctness up to faults: [m] does not hang, and what holds when it
    faults is [F].  [wp] is the case of a false [F]. *)
Definition wpf {S A} (F : Prop) (m : M S A) (Q : A -> S -> Prop) (s : S) : Prop :=
  match m s with Done (a, s') => Q a s' | Hang => False | Fault => F end.

Section wpf.
Context {S : Type} (F : Prop).

Lemma wpf_ret {A} (a : A) (Q : A -> S -> Prop) s : Q a s -> wpf F (mret a : M S A) Q s.
Proof. done. Qed.

Lemma wpf_fault {A} (Q : A -> S -> Prop) s : F -> wpf F fault Q s.
Proof. done. Qed.

Lemma wpf_bind {A B} (m : M S A) (f : A -> M S B) Q s :
  wpf F m (fun a s' => wpf F (f a) Q s') s -> wpf F (m ≫= f) Q s.
Proof. unfold wpf, mbind, M_bind. destruct (m s) as [[a s']| |]; done. Qed.

Lemma wpf_wp {A} (m : M S A) (Q : A -> S -> Prop) s : wp m Q s -> wpf F m Q s.
Proof. unfold wp, wpf. destruct (m s) as [[a s']| |]; done. Qed.

Lemma wpf_zoom {T A} (prj : S -> T) upd (m : M T A) Q s :
  wpf F m (fun a t => Q a (upd t s)) (prj s) -> wpf F (zoom prj upd m) Q s.
Proof. unfold wpf, zoom. destruct (m (prj s)) as [[a t]| |]; done. Qed.
End wpf.

Create HintDb wp.
#[export] Hint Resolve wp_ret wp_get wp_gets wp_modify wp_opt : wp.

(** One symbolic execution step of a [wp] goal. *)
Ltac wp_step :=
  lazymatch goal with
  | |- wp (mbind _ _) _ _ => apply wp_bind
  | |- wp (mret _) _ _ => apply wp_ret
  | |- wp get _ _ => apply wp_get
  | |- wp (gets _) _ _ => apply wp_gets
  | |- wp (modify _) _ _ => apply wp_modify
  | |- wp (opt (Some _)) _ _ => apply wp_opt
  | |- wp (zoom _ _ _) _ _ => apply wp_zoom
  end; cbn beta iota zeta.
Ltac wp_steps := repeat wp_step.

(** The same for a [wpf] goal. *)
Ltac wpf_step :=
  lazymatch goal with
  | |- wpf _ (mbind _ _) _ _ => apply wpf_bind
  | |- wpf _ (mret _) _ _ => apply wpf_ret
  | |- wpf _ fault _ _ => apply wpf_fault
  | |- wpf _ (zoom _ _ _) _ _ => apply wpf_zoom
  | |- wpf _ _ _ _ => apply wpf_wp; wp_step
  end; cbn beta iota zeta.

(** ** C integers (LP64)

    Integers are [Z]; a conversion to a w-bit type wraps. *)
Definition swrap (w z : Z) : Z := (z + 2 ^ (w - 1)) mod 2 ^ w - 2 ^ (w - 1).
Definition uwrap (w z : Z) : Z := z mod 2 ^ w.

Definition i32 : Z -> Z := swrap 32.
Definition i64 : Z -> Z := swrap 64.
Definition u8 : Z -> Z := uwrap 8.
Definition u32 : Z -> Z := uwrap 32.
Definition u64 : Z -> Z := uwrap 64.

Definition in_i32 (z : Z) : Prop := - 2 ^ 31 <= z < 2 ^ 31.
Definition in_i64 (z : Z) : Prop := - 2 ^ 63 <= z < 2 ^ 63.

Lemma swrap_id w z : 0 < w -> - 2 ^ (w - 1) <= z < 2 ^ (w - 1) -> swrap w z = z.
Proof.
  intros Hw Hz. unfold swrap. rewrite Z.mod_small; [lia|].
  assert (2 ^ w = 2 * 2 ^ (w - 1)) as ->.
  { rewrite <- Z.pow_succ_r by lia. f_equal; lia. }
  lia.
Qed.

Lemma swrap_range w z : 0 < w -> - 2 ^ (w - 1) <= swrap w z < 2 ^ (w - 1).
Proof.
  intros Hw. unfold swrap.
  assert (2 ^ w = 2 * 2 ^ (w - 1)) as E.
  { rewrite <- Z.pow_succ_r by lia. f_equal; lia. }
  pose proof (Z.mod_pos_bound (z + 2 ^ (w - 1)) (2 ^ w)).
  pose proof (Z.pow_pos_nonneg 2 (w - 1)). lia.
Qed.

Lemma i32_id z : in_i32 z -> i32 z = z.
Proof. intros H. apply swrap_id; [lia|]. exact H. Qed.
Lemma i64_id z : in_i64 z -> i64 z = z.
Proof. intros H. apply swrap_id; [lia|]. exact H. Qed.
Lemma i32_range z : in_i32 (i32 z).
Proof. apply (swrap_range 32). lia. Qed.
Lemma i64_range z : in_i64 (i64 z).
Proof. apply (swrap_range 64). lia. Qed.
Lemma u64_id z : 0 <= z < 2 ^ 64 -> u64 z = z.
Proof. apply Z.mod_small. Qed.
Lemma u32_id z : 0 <= z < 2 ^ 32 -> u32 z = z.
Proof. apply Z.mod_small. Qed.
Lemma u8_id z : 0 <= z < 2 ^ 8 -> u8 z = z.
Proof. apply Z.mod_small. Qed.

(** Bits of a wrapped value, below the sign bit and at it. *)
Lemma swrap_testbit w z i : 0 <= i < w -> Z.testbit (swrap w z) i = Z.testbit z i.
Proof.
  intros Hi. unfold swrap.
  assert (forall x y, x mod 2 ^ w = y mod 2 ^ w -> Z.testbit x i = Z.testbit y i) as Hm.
  { intros x y E. rewrite <- (Z.mod_pow2_bits_low x w i), <- (Z.mod_pow2_bits_low y w i) by lia.
    by rewrite E. }
  apply Hm. rewrite Zminus_mod_idemp_l. f_equal. lia.
Qed.

(** Error numbers (errno.h, Linux), as [int] results. *)
Definition EPERM : Z := 1.
Definition ENOENT : Z := 2.
Definition E2BIG : Z := 7.
Definition EBADF : Z := 9.
Definition ENOMEM : Z := 12.
Definition EBUSY : Z := 16.
Definition EEXIST : Z := 17.
Definition ENODEV : Z := 19.
Definition ENOTDIR : Z := 20.
Definition EISDIR : Z := 21.
Definition EINVAL : Z := 22.
Definition EMFILE : Z := 24.
Definition ENOSPC : Z := 28.
Definition ENAMETOOLONG : Z := 36.
Definition ENOTEMPTY : Z := 39.
Definition ELOOP : Z := 40.

(** Case analysis on the integer comparisons a goal or hypothesis tests. *)
Ltac zcases :=
  repeat match goal with
  | H : (_ <? _) = true |- _ => apply Z.ltb_lt in H
  | H : (_ <? _) = false |- _ => apply Z.ltb_ge in H
  | H : (_ <=? _) = true |- _ => apply Z.leb_le in H
  | H : (_ <=? _) = false |- _ => apply Z.leb_gt in H
  | H : (_ >? _) = true |- _ => rewrite Z.gtb_ltb in H
  | H : (_ >? _) = false |- _ => rewrite Z.gtb_ltb in H
  | H : (_ >=? _) = true |- _ => rewrite Z.geb_leb in H
  | H : (_ >=? _) = false |- _ => rewrite Z.geb_leb in H
  | H : (_ =? _) = true |- _ => apply Z.eqb_eq in H
  | H : (_ =? _) = false |- _ => apply Z.eqb_neq in H
  | H : (_ && _)%bool = true |- _ => apply andb_true_iff in H as [??]
  | H : (_ || _)%bool = false |- _ => apply orb_false_iff in H as [??]
  | H : negb _ = true |- _ => apply negb_true_iff in H
  | H : negb _ = false |- _ => apply negb_false_iff in H
  end.

(** Splits the [Forall] hypotheses on concrete lists. *)
Ltac split_Forall :=
  repeat match goal with
  | H : Forall _ (_ :: _) |- _ => apply Forall_cons_1 in H as [? H]
  | H : Forall _ [] |- _ => clear H
  end.

(** Linear arithmetic with quotients and remainders. *)
Ltac dlia := intros; Z.to_euclidean_division_equations; nia.
