(* ===== verification/Bytes.v ===== *)
(** * Bytes: memory contents, little-endian integers, slices and splices

    The C program moves structures and arrays to and from byte buffers with
    [memcpy] and pointer casts.  A buffer is a [list byte]; an access outside
    a buffer is [None].  The byte order is the little-endian one of the LP64
    targets the development fixes. *)

From Stdlib Require Export Init.Byte.
From Stdlib Require Strings.Byte.
From S2P Require Import Prelude.

Abbreviation byte := Byte.byte.

#[export] Instance byte_eq_dec : EqDecision byte := Byte.byte_eq_dec.

(** ** Bytes as integers *)

Definition bZ (b : byte) : Z := Z.of_N (Byte.to_N b).
Definition Zb (z : Z) : byte :=
  match Byte.of_N (Z.to_N (z mod 256)) with Some b => b | None => x00 end.

Lemma bZ_range b : 0 <= bZ b < 256.
Proof. unfold bZ. pose proof (Byte.to_N_bounded b). lia. Qed.

Lemma bZ_Zb z : bZ (Zb z) = z mod 256.
Proof.
  unfold bZ, Zb. pose proof (Z.mod_pos_bound z 256 ltac:(lia)) as Hz.
  destruct (Byte.of_N (Z.to_N (z mod 256))) as [b|] eqn:E.
  - apply Byte.to_of_N in E. rewrite E. lia.
  - apply Byte.of_N_None_iff in E. lia.
Qed.

Lemma Zb_bZ b : Zb (bZ b) = b.
Proof.
  unfold Zb. rewrite Z.mod_small by apply bZ_range.
  unfold bZ. rewrite N2Z.id, Byte.of_to_N. done.
Qed.

Lemma bZ_inj b b' : bZ b = bZ b' -> b = b'.
Proof. intros E. by rewrite <- (Zb_bZ b), E, Zb_bZ. Qed.

(** ** Lengths, slices and splices indexed by [Z] *)

Definition len {A} (l : list A) : Z := Z.of_nat (length l).

Definition slice {A} (off n : Z) (l : list A) : list A :=
  take (Z.to_nat n) (drop (Z.to_nat off) l).

Definition splice {A} (off : Z) (d l : list A) : list A :=
  take (Z.to_nat off) l ++ d ++ drop (Z.to_nat off + length d) l.

(** Checked accesses: the source of a [memcpy] and its destination. *)
Definition read_at {A} (off n : Z) (l : list A) : option (list A) :=
  if (0 <=? off) && (0 <=? n) && (off + n <=? len l)
  then Some (slice off n l) else None.

Definition write_at {A} (off : Z) (d l : list A) : option (list A) :=
  if (0 <=? off) && (off + len d <=? len l)
  then Some (splice off d l) else None.

Lemma len_nonneg {A} (l : list A) : 0 <= len l.
Proof. unfold len. lia. Qed.
#[export] Hint Resolve len_nonneg : core.

Lemma len_app {A} (l1 l2 : list A) : len (l1 ++ l2) = len l1 + len l2.
Proof. unfold len. rewrite length_app. lia. Qed.
Lemma len_nil {A} : len (@nil A) = 0.
Proof. done. Qed.
Lemma len_cons {A} (x : A) l : len (x :: l) = 1 + len l.
Proof. unfold len. cbn [length]. lia. Qed.
Lemma len_replicate {A} n (x : A) : len (replicate n x) = Z.of_nat n.
Proof. unfold len. by rewrite length_replicate. Qed.
Lemma len_fmap {A B} (f : A -> B) l : len (f <$> l) = len l.
Proof. unfold len. by rewrite length_fmap. Qed.

Lemma len_slice {A} off n (l : list A) :
  0 <= off -> 0 <= n -> off + n <= len l -> len (slice off n l) = n.
Proof. unfold len, slice. rewrite length_take, length_drop. lia. Qed.

Lemma len_splice {A} off (d l : list A) :
  0 <= off -> off + len d <= len l -> len (splice off d l) = len l.
Proof.
  unfold len, splice. rewrite !length_app, length_take, length_drop. lia.
Qed.

Create Rewrite HintDb len.
#[export] Hint Rewrite @len_app @len_nil @len_cons @len_replicate @len_fmap : len.
#[export] Hint Rewrite @len_slice @len_splice using lia : len.

Lemma slice_lookup {A} off n (l : list A) i :
  0 <= off -> 0 <= n -> (i < Z.to_nat n)%nat ->
  slice off n l !! i = l !! (Z.to_nat off + i)%nat.
Proof. intros. unfold slice. rewrite lookup_take_lt by lia. by rewrite lookup_drop. Qed.

Lemma slice_lookup_ge {A} off n (l : list A) i :
  (Z.to_nat n <= i)%nat -> slice off n l !! i = None.
Proof. intros. unfold slice. by rewrite lookup_take_ge. Qed.

Lemma splice_lookup_new {A} off (d l : list A) i :
  0 <= off -> off + len d <= len l ->
  (Z.to_nat off <= i < Z.to_nat off + length d)%nat ->
  splice off d l !! i = d !! (i - Z.to_nat off)%nat.
Proof.
  unfold len, splice. intros Ho Hl Hi.
  rewrite lookup_app_r by (rewrite length_take; lia).
  rewrite length_take, Nat.min_l by lia.
  by rewrite lookup_app_l by lia.
Qed.

Lemma splice_lookup_old {A} off (d l : list A) i :
  0 <= off -> off + len d <= len l ->
  (i < Z.to_nat off \/ Z.to_nat off + length d <= i)%nat ->
  splice off d l !! i = l !! i.
Proof.
  unfold len, splice. intros Ho Hl [Hi|Hi].
  - rewrite lookup_app_l by (rewrite length_take; lia).
    by rewrite lookup_take_lt.
  - rewrite lookup_app_r by (rewrite length_take; lia).
    rewrite length_take, Nat.min_l by lia.
    rewrite lookup_app_r by lia. rewrite lookup_drop. f_equal. lia.
Qed.

Lemma slice_all {A} (l : list A) n : n = len l -> slice 0 n l = l.
Proof. intros ->. unfold slice, len. rewrite drop_0. apply take_ge. lia. Qed.

Lemma slice_0 {A} off (l : list A) : slice off 0 l = [].
Proof. done. Qed.

Lemma slice_splice_same {A} off (d l : list A) n :
  0 <= off -> off + len d <= len l -> n = len d -> slice off n (splice off d l) = d.
Proof.
  intros Ho Hl ->. unfold slice, splice.
  rewrite drop_app_ge by (rewrite length_take; lia).
  rewrite length_take. unfold len in *.
  replace (Z.to_nat off - Z.to_nat off `min` length l)%nat with 0%nat by lia.
  rewrite drop_0, take_app_le by lia. apply take_ge. lia.
Qed.

Lemma slice_splice_disjoint {A} off n off' (d l : list A) :
  0 <= off -> 0 <= n -> 0 <= off' -> off' + len d <= len l ->
  (off + n <= off' \/ off' + len d <= off) ->
  slice off n (splice off' d l) = slice off n l.
Proof.
  intros Ho Hn Ho' Hl Hd. apply list_eq. intros i.
  destruct (decide (i < Z.to_nat n)%nat).
  - rewrite !slice_lookup by lia. unfold len in *. apply splice_lookup_old; unfold len; lia.
  - by rewrite !slice_lookup_ge by lia.
Qed.

(** A slice inside the spliced region. *)
Lemma slice_splice_in {A} off n off' (d l : list A) :
  0 <= off' -> off' + len d <= len l -> off' <= off -> 0 <= n -> off + n <= off' + len d ->
  slice off n (splice off' d l) = slice (off - off') n d.
Proof.
  intros Ho' Hl Ho Hn Hd. apply list_eq. intros i.
  destruct (decide (i < Z.to_nat n)%nat).
  - rewrite !slice_lookup by lia. unfold len in *.
    rewrite splice_lookup_new by (unfold len; lia). f_equal. lia.
  - by rewrite !slice_lookup_ge by lia.
Qed.

Lemma slice_slice {A} off n off' n' (l : list A) :
  0 <= off -> 0 <= n -> 0 <= off' -> 0 <= n' -> off' + n' <= n ->
  slice off' n' (slice off n l) = slice (off + off') n' l.
Proof.
  intros. apply list_eq. intros i.
  destruct (decide (i < Z.to_nat n')%nat).
  - rewrite !slice_lookup by lia. f_equal. lia.
  - by rewrite !slice_lookup_ge by lia.
Qed.

Lemma slice_app_split {A} off n m (l : list A) :
  0 <= off -> 0 <= n -> 0 <= m ->
  slice off (n + m) l = slice off n l ++ slice (off + n) m l.
Proof.
  intros. unfold slice.
  rewrite Z2Nat.inj_add, Z2Nat.inj_add by lia.
  rewrite <- drop_drop. by rewrite take_take_drop.
Qed.

Lemma slice_app_l {A} off n (l1 l2 : list A) :
  0 <= off -> 0 <= n -> off + n <= len l1 -> slice off n (l1 ++ l2) = slice off n l1.
Proof.
  unfold slice, len. intros. rewrite drop_app_le by lia. rewrite take_app_le; [done|].
  rewrite length_drop. lia.
Qed.

Lemma slice_app_r {A} off n (l1 l2 : list A) :
  0 <= off -> len l1 <= off -> slice off n (l1 ++ l2) = slice (off - len l1) n l2.
Proof.
  unfold slice, len. intros. rewrite drop_app_ge by lia. do 2 f_equal. lia.
Qed.

Lemma slice_prefix {A} n (l1 l2 : list A) : n = len l1 -> slice 0 n (l1 ++ l2) = l1.
Proof. intros ->. unfold slice, len. rewrite drop_0, take_app_le by lia. apply take_ge. lia. Qed.

Lemma splice_splice_same {A} off (d d' l : list A) :
  0 <= off -> len d = len d' -> off + len d <= len l ->
  splice off d' (splice off d l) = splice off d' l.
Proof.
  intros Ho Hd Hl. unfold len in *. apply list_eq. intros i.
  pose proof (len_splice off d l Ho ltac:(unfold len; lia)) as HL. unfold len in HL.
  destruct (decide (Z.to_nat off <= i < Z.to_nat off + length d)%nat).
  - by rewrite !splice_lookup_new by (unfold len; lia).
  - rewrite !(splice_lookup_old off d') by (unfold len; lia).
    by rewrite splice_lookup_old by (unfold len; lia).
Qed.

Lemma splice_id {A} off n (l : list A) :
  0 <= off -> 0 <= n -> off + n <= len l -> splice off (slice off n l) l = l.
Proof.
  intros Ho Hn Hl. unfold splice, slice, len in *.
  rewrite length_take, length_drop, Nat.min_l by lia.
  rewrite <- drop_drop, take_drop. apply take_drop.
Qed.

Lemma splice_all {A} (d l : list A) : len d = len l -> splice 0 d l = d.
Proof.
  intros E. unfold splice, len in *. change (Z.to_nat 0) with 0%nat.
  cbn [Nat.add]. rewrite take_0, drop_ge by lia. by rewrite app_nil_r.
Qed.

Lemma read_at_Some {A} off n (l : list A) :
  0 <= off -> 0 <= n -> off + n <= len l -> read_at off n l = Some (slice off n l).
Proof.
  intros. unfold read_at.
  rewrite (proj2 (Z.leb_le 0 off)), (proj2 (Z.leb_le 0 n)), (proj2 (Z.leb_le (off + n) (len l))) by lia.
  done.
Qed.

Lemma write_at_Some {A} off (d l : list A) :
  0 <= off -> off + len d <= len l -> write_at off d l = Some (splice off d l).
Proof.
  intros. unfold write_at.
  rewrite (proj2 (Z.leb_le 0 off)), (proj2 (Z.leb_le (off + len d) (len l))) by lia.
  done.
Qed.

(** ** Little-endian integers *)

Fixpoint le_bytes (n : nat) (z : Z) : list byte :=
  match n with
  | O => []
  | Datatypes.S n => Zb z :: le_bytes n (z / 256)
  end.

Fixpoint le_val (l : list byte) : Z :=
  match l with
  | [] => 0
  | b :: l => bZ b + 256 * le_val l
  end.

Lemma length_le_bytes n z : length (le_bytes n z) = n.
Proof. revert z. induction n; cbn; auto. Qed.
Lemma len_le_bytes n z : len (le_bytes n z) = Z.of_nat n.
Proof. unfold len. by rewrite length_le_bytes. Qed.
#[export] Hint Rewrite len_le_bytes : len.

Lemma le_val_bytes n z : le_val (le_bytes n z) = z mod 256 ^ Z.of_nat n.
Proof.
  revert z. induction n as [|n IH]; intros z; cbn [le_bytes le_val].
  - by rewrite Z.mod_1_r.
  - rewrite IH, bZ_Zb, Nat2Z.inj_succ, Z.pow_succ_r by lia.
    rewrite Z.rem_mul_r by lia. lia.
Qed.

Lemma le_val_range l : 0 <= le_val l < 256 ^ len l.
Proof.
  induction l as [|b l IH]; [unfold len; cbn; lia|]. rewrite len_cons. cbn [le_val].
  pose proof (len_nonneg l). rewrite (Z.pow_add_r 256 1 (len l)) by lia.
  pose proof (bZ_range b). change (256 ^ 1) with 256. lia.
Qed.

Lemma le_bytes_val l : le_bytes (length l) (le_val l) = l.
Proof.
  induction l as [|b l IH]; [done|]. cbn [length le_bytes le_val].
  assert (bZ b + 256 * le_val l = bZ b + le_val l * 256) as -> by lia.
  f_equal.
  - apply bZ_inj. rewrite bZ_Zb, Z_mod_plus_full. apply Z.mod_small, bZ_range.
  - rewrite Z.div_add by lia. rewrite Z.div_small by apply bZ_range. by rewrite Z.add_0_l.
Qed.

(** Reading a w-bit field of a buffer; [sle] is the signed reading. *)
Definition sle (l : list byte) : Z := swrap (8 * len l) (le_val l).

Lemma sle_le_bytes n z :
  (0 < n)%nat -> - 2 ^ (8 * Z.of_nat n - 1) <= z < 2 ^ (8 * Z.of_nat n - 1) ->
  sle (le_bytes n z) = z.
Proof.
  intros Hn Hz. unfold sle. rewrite len_le_bytes, le_val_bytes.
  rewrite <- (swrap_id (8 * Z.of_nat n) z) at 2 by lia.
  unfold swrap. replace (256 ^ Z.of_nat n) with (2 ^ (8 * Z.of_nat n)).
  - by rewrite Zplus_mod_idemp_l.
  - rewrite Z.pow_mul_r by lia. done.
Qed.

Lemma sle_i64 z : in_i64 z -> sle (le_bytes 8 z) = z.
Proof. intros H. apply sle_le_bytes; [lia|exact H]. Qed.
Lemma sle_i32 z : in_i32 z -> sle (le_bytes 4 z) = z.
Proof. intros H. apply sle_le_bytes; [lia|exact H]. Qed.
Lemma le_val_u32 z : 0 <= z < 2 ^ 32 -> le_val (le_bytes 4 z) = z.
Proof. intros H. rewrite le_val_bytes. apply Z.mod_small. exact H. Qed.

Lemma le_bytes_sle l : le_bytes (length l) (sle l) = l.
Proof.
  destruct l as [|b l]; [done|]. set (k := b :: l).
  transitivity (le_bytes (length k) (le_val k)); [|apply le_bytes_val].
  assert (forall n x y, x mod 256 ^ Z.of_nat n = y mod 256 ^ Z.of_nat n ->
                        le_bytes n x = le_bytes n y) as Hm.
  { intros n x y E. rewrite <- (le_bytes_val (le_bytes n x)), <- (le_bytes_val (le_bytes n y)).
    by rewrite !length_le_bytes, !le_val_bytes, E. }
  apply Hm. unfold sle, swrap, len.
  replace (2 ^ (8 * Z.of_nat (length k))) with (256 ^ Z.of_nat (length k)).
  - rewrite Zminus_mod_idemp_l. f_equal. lia.
  - rewrite (Z.pow_mul_r 2 8) by lia. done.
Qed.

(** ** Arrays of little-endian words: [int] chunks and [fs_off_t] entries *)

Definition words_bytes (w : nat) (l : list Z) : list byte := mjoin (le_bytes w <$> l).

Fixpoint bytes_words (w n : nat) (l : list byte) : list Z :=
  match n with
  | O => []
  | Datatypes.S n => sle (take w l) :: bytes_words w n (drop w l)
  end.

Lemma length_bytes_words w n l : length (bytes_words w n l) = n.
Proof. revert l. induction n; intros; cbn; auto. Qed.

Lemma words_bytes_cons w z l : words_bytes w (z :: l) = le_bytes w z ++ words_bytes w l.
Proof. done. Qed.

Lemma length_words_bytes w l : length (words_bytes w l) = (w * length l)%nat.
Proof.
  induction l as [|z l IH]; [cbn; lia|].
  rewrite words_bytes_cons, length_app, length_le_bytes, IH. cbn [length]. lia.
Qed.

Lemma bytes_words_bytes w l :
  (0 < w)%nat -> Forall (fun z => - 2 ^ (8 * Z.of_nat w - 1) <= z < 2 ^ (8 * Z.of_nat w - 1)) l ->
  bytes_words w (length l) (words_bytes w l) = l.
Proof.
  intros Hw. induction 1 as [|z l Hz _ IH]; [done|].
  rewrite words_bytes_cons. cbn [length bytes_words].
  rewrite take_app_le by (rewrite length_le_bytes; lia).
  rewrite take_ge by (rewrite length_le_bytes; lia).
  rewrite drop_app_ge by (rewrite length_le_bytes; lia).
  rewrite length_le_bytes, Nat.sub_diag, drop_0, IH. f_equal. apply sle_le_bytes; done.
Qed.

Lemma words_bytes_words w n l :
  length l = (w * n)%nat -> words_bytes w (bytes_words w n l) = l.
Proof.
  revert l. induction n as [|n IH]; intros l Hl.
  - destruct l; [done|]. cbn in Hl. lia.
  - cbn [bytes_words]. rewrite words_bytes_cons, IH by (rewrite length_drop; lia).
    rewrite <- (take_drop w l) at 3. f_equal.
    replace w with (length (take w l)) at 1 by (rewrite length_take; lia).
    apply le_bytes_sle.
Qed.

Lemma words_bytes_app w l l' : words_bytes w (l ++ l') = words_bytes w l ++ words_bytes w l'.
Proof. unfold words_bytes. by rewrite fmap_app, join_app. Qed.

(** C strings: the bytes from [off] up to the first NUL, [None] when the
    buffer ends first. *)
Fixpoint until_nul (l : list byte) : option (list byte) :=
  match l with
  | [] => None
  | b :: l => if decide (b = x00) then Some [] else cons b <$> until_nul l
  end.

Lemma until_nul_app s l : x00 ∉ s -> until_nul (s ++ x00 :: l) = Some s.
Proof.
  induction s as [|b s IH]; intros Hs; cbn.
  - by rewrite decide_True.
  - rewrite decide_False by set_solver. by rewrite IH by set_solver.
Qed.

#[global] Arguments le_bytes : simpl never.
#[global] Arguments le_val : simpl never.
#[global] Arguments slice : simpl never.
#[global] Arguments splice : simpl never.
#[global] Arguments read_at : simpl never.
#[global] Arguments write_at : simpl never.
#[global] Arguments len : simpl never.

(** ** Sequences of blocks of one length *)

Section blocks.
Context {A : Type} (b : Z).
Hypothesis Hb : 0 < b.

Lemma len_join (l : list (list A)) : Forall (fun x => len x = b) l -> len (mjoin l) = len l * b.
Proof.
  induction 1 as [|x l Hx _ IH]; [done|]. change (mjoin (x :: l)) with (x ++ mjoin l).
  rewrite len_app, len_cons, IH, Hx. lia.
Qed.

(** A slice of the sequence that lies in its [k]-th block. *)
Lemma slice_join (l : list (list A)) k x off n :
  Forall (fun x => len x = b) l -> l !! k = Some x -> 0 <= off -> 0 <= n -> off + n <= b ->
  slice (Z.of_nat k * b + off) n (mjoin l) = slice off n x.
Proof.
  intros Hl Hk Ho Hn Hon. rewrite <- (take_drop_middle l k x Hk) at 1.
  pose proof (lookup_lt_Some _ _ _ Hk) as Hlt.
  assert (len (mjoin (take k l)) = Z.of_nat k * b) as Hlen.
  { rewrite len_join by (by apply Forall_take). unfold len. rewrite length_take. lia. }
  assert (len x = b) as Hx by exact (Forall_lookup_1 _ _ _ _ Hl Hk).
  assert (0 <= Z.of_nat k * b) by (apply Z.mul_nonneg_nonneg; lia).
  rewrite join_app, slice_app_r by lia. rewrite Hlen.
  change (mjoin (x :: drop (S k) l)) with (x ++ mjoin (drop (S k) l)).
  replace (Z.of_nat k * b + off - Z.of_nat k * b) with off by lia.
  rewrite slice_app_l by lia. done.
Qed.

Lemma splice_join (l : list (list A)) k x off d :
  Forall (fun x => len x = b) l -> l !! k = Some x -> 0 <= off -> off + len d <= b ->
  splice (Z.of_nat k * b + off) d (mjoin l) = mjoin (<[k := splice off d x]> l).
Proof.
  intros Hl Hk Ho Hon. pose proof (lookup_lt_Some _ _ _ Hk) as Hlt.
  rewrite insert_take_drop by done. rewrite <- (take_drop_middle l k x Hk) at 1.
  assert (len (mjoin (take k l)) = Z.of_nat k * b) as Hlen.
  { rewrite len_join by (by apply Forall_take). unfold len. rewrite length_take. lia. }
  assert (len x = b) as Hx by exact (Forall_lookup_1 _ _ _ _ Hl Hk).
  assert (0 <= Z.of_nat k * b) by (apply Z.mul_nonneg_nonneg; lia).
  rewrite !join_app. change (mjoin (x :: drop (S k) l)) with (x ++ mjoin (drop (S k) l)).
  change (mjoin (?y :: drop (S k) l)) with (y ++ mjoin (drop (S k) l)).
  unfold splice, len in *.
  rewrite take_app_ge by lia. rewrite drop_app_ge by lia. rewrite <- !app_assoc.
  replace (Z.to_nat (Z.of_nat k * b + off) - length (mjoin (take k l)))%nat with (Z.to_nat off) by lia.
  replace (Z.to_nat (Z.of_nat k * b + off) + length d - length (mjoin (take k l)))%nat
    with (Z.to_nat off + length d)%nat by lia.
  rewrite take_app_le by lia. rewrite drop_app_le by lia. done.
Qed.
End blocks.

Lemma splice_nil {A} off (l : list A) : splice off [] l = l.
Proof. unfold splice. cbn. rewrite Nat.add_0_r. apply take_drop. Qed.

(** Two adjacent splices are one. *)
Lemma splice_app {A} off (d1 d2 l : list A) :
  0 <= off -> off + len d1 + len d2 <= len l ->
  splice (off + len d1) d2 (splice off d1 l) = splice off (d1 ++ d2) l.
Proof.
  intros Ho Hl. apply list_eq. intros i.
  pose proof (len_nonneg d1). pose proof (len_nonneg d2).
  assert (len (splice off d1 l) = len l) as HL by (apply len_splice; lia).
  destruct (decide (Z.to_nat off <= i < Z.to_nat off + length (d1 ++ d2))%nat) as [Hi|Hi];
    rewrite length_app in Hi.
  - rewrite (splice_lookup_new _ (d1 ++ d2)); rewrite ?len_app, ?length_app; try lia.
    destruct (decide (i < Z.to_nat off + length d1)%nat).
    + rewrite splice_lookup_old; [|lia|lia|unfold len in *; lia].
      rewrite splice_lookup_new by (unfold len in *; lia).
      by rewrite lookup_app_l by lia.
    + rewrite splice_lookup_new; [|lia|lia|unfold len in *; lia].
      rewrite lookup_app_r by lia. f_equal. unfold len in *. lia.
  - rewrite (splice_lookup_old _ (d1 ++ d2)); rewrite ?len_app, ?length_app; try lia.
    rewrite splice_lookup_old; [|lia|lia|unfold len in *; lia].
    by rewrite splice_lookup_old by (unfold len in *; lia).
Qed.

(** A slice of an array's image at word boundaries. *)
Lemma slice_words w a n (l : list Z) :
  0 <= a -> 0 <= n -> a + n <= len l ->
  slice (Z.of_nat w * a) (Z.of_nat w * n) (words_bytes w l) = words_bytes w (slice a n l).
Proof.
  intros Ha Hn Hl. assert (l = take (Z.to_nat a) l ++ slice a n l ++ drop (Z.to_nat a + Z.to_nat n) l) as E.
  { unfold slice. rewrite <- drop_drop, take_drop, take_drop. done. }
  rewrite E at 1. rewrite !words_bytes_app.
  assert (len (words_bytes w (take (Z.to_nat a) l)) = Z.of_nat w * a) as H1.
  { unfold len in *. rewrite length_words_bytes, length_take. nia. }
  rewrite slice_app_r by nia. rewrite H1, Z.sub_diag. apply slice_prefix.
  unfold len in *. rewrite length_words_bytes.
  pose proof (len_slice a n l Ha Hn ltac:(unfold len; lia)) as H2. unfold len in H2. nia.
Qed.

Lemma len_words_bytes w l : len (words_bytes w l) = Z.of_nat w * len l.
Proof. unfold len. rewrite length_words_bytes. lia. Qed.
