(* ===== verification/Compat.v ===== *)
(** * Compat: the structures compat.h shares between the layers *)

From S2P Require Import Prelude Bytes.
Local Open Scope Z_scope.

(** The longest name of a file, with its NUL. *)
Definition FILE_NAME_LENGTH : Z := 256.

(** The bits of a mode. *)
Definition MY_S_IFMT : Z := 0xF000.
Definition MY_S_IFDIR : Z := 0x4000.
Definition MY_S_IFREG : Z := 0x8000.
Definition MY_S_IFLNK : Z := 0xA000.
Definition MY_S_IUMSK : Z := 0xFFF.
Definition MY_S_ISDIR (m : Z) : bool := Z.land m MY_S_IFMT =? MY_S_IFDIR.
Definition MY_S_ISLNK (m : Z) : bool := Z.land m MY_S_IFMT =? MY_S_IFLNK.

Record my_stat := Stat {
  st_dev : Z; st_ino : Z; st_mode : Z; st_nlink : Z; st_uid : Z; st_gid : Z; st_size : Z;
  st_blksize : Z; st_atime : Z; st_mtime : Z; st_ctime : Z; st_crtime : Z;
}.

(** The fields [wstat] sets (fsproto.h). *)
Definition WSTAT_MODE : Z := 1.
Definition WSTAT_UID : Z := 2.
Definition WSTAT_GID : Z := 4.
Definition WSTAT_SIZE : Z := 8.
Definition WSTAT_ATIME : Z := 16.
Definition WSTAT_MTIME : Z := 32.
Definition WSTAT_CRTIME : Z := 64.

(** An entry of a directory as [readdir] returns it. *)
Record my_dirent := Dirent { d_dev : Z; d_ino : Z; d_reclen : Z; d_name : list byte }.
