(* ===== verification/BitVector.v ===== *)
(** * BitVector: the bit vectors of bitvector.c

    Set, clear and test one bit, clear a range, and the first-fit search
    [GetFreeRangeOfBits] that both the block bitmap and the inode map use.
    The bits are an array of 32-bit [int] chunks, as in the C structure. *)

From S2P Require Import Prelude Bytes.
Local Open Scope Z_scope.

(** bitvector.h: [bits] is [[]] when the C pointer is NULL. *)
Record BitVector := MkBV {
  numbits : Z;
  next_free : Z;
  is_full : Z;
  bits : list Z;
}.

Definition BITS_IN_CHUNK : Z := 32.

Definition set_bits (l : list Z) (bv : BitVector) : BitVector :=
  MkBV (numbits bv) (next_free bv) (is_full bv) l.
Definition set_next_free (z : Z) (bv : BitVector) : BitVector :=
  MkBV (numbits bv) z (is_full bv) (bits bv).
Definition set_is_full (z : Z) (bv : BitVector) : BitVector :=
  MkBV (numbits bv) (next_free bv) z (bits bv).

(** [1 << j] on a 32-bit [int]. *)
Definition mask (j : Z) : Z := i32 (Z.shiftl 1 j).

(** [bits[i]], a fault outside the array. *)
Definition chunk_at (l : list Z) (i : Z) : option Z :=
  if 0 <=? i then l !! Z.to_nat i else None.

Definition set_chunk (l : list Z) (i c : Z) : list Z := <[Z.to_nat i := c]> l.

Definition SetBV (which : Z) : M BitVector Z :=
  bv ← get;
  if (which >=? numbits bv) || (which <? 0) then mret 0 else
  let i := which / BITS_IN_CHUNK in
  let j := which mod BITS_IN_CHUNK in
  c ← opt (chunk_at (bits bv) i);
  _ ← modify (set_bits (set_chunk (bits bv) i (Z.lor c (mask j))));
  mret 1.

Definition UnSetBV (which : Z) : M BitVector Z :=
  bv ← get;
  if (which >=? numbits bv) || (which <? 0) then mret 0 else
  let i := which / BITS_IN_CHUNK in
  let j := which mod BITS_IN_CHUNK in
  c ← opt (chunk_at (bits bv) i);
  _ ← modify (set_bits (set_chunk (bits bv) i (Z.land c (Z.lnot (mask j)))));
  _ ← modify (set_next_free which);
  mret 1.

(** The [for(k=start; k < start+len; k++)] loop of [UnSetRangeBV]. *)
Fixpoint unset_loop (n : nat) (k : Z) (l : list Z) : option (list Z) :=
  match n with
  | O => Some l
  | Datatypes.S n =>
      let i := k / BITS_IN_CHUNK in
      let j := k mod BITS_IN_CHUNK in
      c ← chunk_at l i;
      unset_loop n (k + 1) (set_chunk l i (Z.land c (Z.lnot (mask j))))
  end.

Definition UnSetRangeBV (start len : Z) : M BitVector Z :=
  bv ← get;
  if (start <? 0) || (len <? 0) || (i32 (start + len) >? numbits bv) then mret 0 else
  _ ← modify (set_next_free start);
  l ← opt (unset_loop (Z.to_nat len) start (bits bv));
  _ ← modify (set_bits l);
  mret 1.

Definition IsSetBV (which : Z) : M BitVector Z :=
  bv ← get;
  if (which >=? numbits bv) || (which <? 0) then mret 0 else
  let i := which / BITS_IN_CHUNK in
  let j := which mod BITS_IN_CHUNK in
  c ← opt (chunk_at (bits bv) i);
  mret (Z.land c (mask j)).

(** The [k] loop that measures a free run from bit [bit] of chunk [n]:
    it stops at [k = len], at the end of the vector or at a set bit. *)
Fixpoint scan_range (fuel : nat) (nb : Z) (l : list Z) (len k n bit : Z)
  : option (Z * Z * Z) :=
  match fuel with
  | O => Some (k, n, bit)
  | Datatypes.S fuel =>
      if (k <? len) && (n * BITS_IN_CHUNK + bit <? nb) then
        c ← chunk_at l n;
        if negb (Z.land c (mask bit) =? 0) then Some (k, n, bit)
        else if bit + 1 =? BITS_IN_CHUNK
             then scan_range fuel nb l len (k + 1) (n + 1) 0
             else scan_range fuel nb l len (k + 1) n (bit + 1)
      else Some (k, n, bit)
  end.

(** The loop that goes back and sets the bits of the run it found. *)
Fixpoint mark_range (fuel : nat) (l : list Z) (n bit : Z) : option (list Z * Z * Z) :=
  match fuel with
  | O => Some (l, n, bit)
  | Datatypes.S fuel =>
      c ← chunk_at l n;
      let l := set_chunk l n (Z.lor c (mask bit)) in
      if bit + 1 =? BITS_IN_CHUNK then mark_range fuel l (n + 1) 0
      else mark_range fuel l n (bit + 1)
  end.

(** How the search over the bits of a chunk ends: with a run at bit [j] of
    chunk [begin], or with the loop variables the outer loop goes on with. *)
Inductive search_result : Type :=
  | Found (begin j : Z)
  | NotFound (i non_zero_bits max_free : Z).

(** The [j] loop of [GetFreeRangeOfBits], which moves [begin] and [i] over
    the chunks a too short run spans. *)
Fixpoint search_bits (fuel : nat) (nb : Z) (l : list Z) (len i begin j nz mf : Z)
  : outcome search_result :=
  match fuel with
  | O => Hang
  | Datatypes.S fuel =>
      if j <? BITS_IN_CHUNK then
        match chunk_at l begin with
        | None => Fault
        | Some c =>
            if negb (Z.land c (mask j) =? 0)
            then search_bits fuel nb l len i begin (j + 1) (nz + 1) mf
            else
              match scan_range (Z.to_nat len) nb l len 0 begin j with
              | None => Fault
              | Some (k, n, bit) =>
                  let mf := if k >? mf then k else mf in
                  if (n * BITS_IN_CHUNK + bit >=? nb) && (k <? len) then
                    Done (NotFound (if n >? begin then i + (n - begin) else i + 1) nz mf)
                  else if k <? len then
                    search_bits fuel nb l len (i + (n - begin)) n (bit + 1) nz mf
                  else if begin * BITS_IN_CHUNK + j + len >? nb then Done (NotFound i nz mf)
                  else Done (Found begin j)
              end
        end
      else Done (NotFound i nz mf)
  end.

(** The outer loop over the chunks, starting at [next_free] and wrapping. *)
Fixpoint search_chunks (fuel : nat) (nb : Z) (l : list Z)
    (len count base i real_count nz mf : Z) : outcome search_result :=
  match fuel with
  | O => Hang
  | Datatypes.S fuel =>
      if i <? count then
        if real_count >? count then Hang                    (* panic *)
        else
          let begin := (base + i) mod count in
          match chunk_at l begin with
          | None => Fault
          | Some c =>
              if c =? -1 then
                search_chunks fuel nb l len count base (i + 1) (real_count + 1) (nz + 32) mf
              else
                match search_bits (Z.to_nat (count * 32 + 33)) nb l len i begin 0 nz mf with
                | Done (NotFound i nz mf) =>
                    search_chunks fuel nb l len count base (i + 1) (real_count + 1) nz mf
                | r => r
                end
          end
      else Done (NotFound i nz mf)
  end.

Definition chunk_count (nb : Z) : Z :=
  nb / BITS_IN_CHUNK + (if nb mod BITS_IN_CHUNK =? 0 then 0 else 1).

(** Returns the start of the run, or -1, and the final value of
    [*biggest_free_chunk]. *)
Definition GetFreeRangeOfBits (len : Z) : M BitVector (Z * Z) :=
  bv ← get;
  if (len <=? 0) || (len >? numbits bv) || negb (is_full bv =? 0) then mret (-1, -1) else
  let count := chunk_count (numbits bv) in
  let base := next_free bv / BITS_IN_CHUNK in
  r ← (fun s => match search_chunks (Z.to_nat (count + 1)) (numbits bv) (bits bv)
                          len count base 0 0 0 (-1) with
                | Done r => Done (r, s) | Hang => Hang | Fault => Fault end);
  match r with
  | Found begin j =>
      let start := begin * BITS_IN_CHUNK + j in
      '(l, n, bit) ← opt (mark_range (Z.to_nat len) (bits bv) begin j);
      _ ← modify (set_bits l);
      _ ← (if n <? count then
             c ← opt (chunk_at l n);
             if Z.land c (mask bit) =? 0 then modify (set_next_free (start + len))
             else mret tt
           else mret tt);
      mret (start, -1)
  | NotFound _ nz mf =>
      _ ← (if nz >=? numbits bv then modify (set_is_full 1) else mret tt);
      mret (-1, mf)
  end.

(** Closes [Forall in_i32] on a concrete array. *)
Ltac solve_i32s :=
  repeat first [apply Forall_nil_2 | apply Forall_cons_2; [unfold in_i32; lia|]].

(** ** Bits of a chunk *)

Lemma in_i32_testbit c i : in_i32 c -> 31 <= i -> Z.testbit c i = Z.testbit c 31.
Proof.
  intros Hc Hi. assert (c / 2 ^ 31 = 0 \/ c / 2 ^ 31 = -1) as Hq.
  { unfold in_i32 in Hc. assert (c < 0 \/ 0 <= c) as [|] by lia.
    - right. symmetry. apply (Z.div_unique _ _ _ (c + 2 ^ 31)); lia.
    - left. apply Z.div_small. lia. }
  assert (forall k, 0 <= k -> Z.testbit c (31 + k) = Z.testbit (c / 2 ^ 31) k) as Hs.
  { intros k Hk. rewrite <- (Z.shiftr_div_pow2 c 31) by lia. rewrite Z.shiftr_spec by lia.
    f_equal. lia. }
  replace i with (31 + (i - 31)) by lia. change 31 with (31 + 0) at 3.
  rewrite !Hs by lia. destruct Hq as [-> | ->].
  - by rewrite !Z.bits_0.
  - by rewrite !Z.bits_m1 by lia.
Qed.

Lemma testbit_in_i32 c :
  (forall i, 31 <= i -> Z.testbit c i = Z.testbit c 31) -> in_i32 c.
Proof.
  intros H. assert (c = i32 c) as ->; [|apply i32_range].
  apply Z.bits_inj'. intros i Hi.
  assert (i < 32 \/ 32 <= i) as [|] by lia.
  - unfold i32. by rewrite swrap_testbit by lia.
  - rewrite H by lia. rewrite (in_i32_testbit (i32 c) i) by (apply i32_range || lia).
    unfold i32. by rewrite swrap_testbit by lia.
Qed.

Lemma mask_testbit j i :
  0 <= j < 32 -> 0 <= i < 32 -> Z.testbit (mask j) i = (i =? j).
Proof.
  intros Hj Hi. unfold mask, i32. rewrite swrap_testbit by lia.
  rewrite Z.shiftl_spec by lia. destruct (Z.eqb_spec i j) as [->|].
  - by rewrite Z.sub_diag.
  - assert (i < j \/ j < i) as [|] by lia.
    + by rewrite Z.testbit_neg_r by lia.
    + rewrite Z.bits_above_log2; [done|lia|]. change (Z.log2 1) with 0. lia.
Qed.

Lemma mask_in_i32 j : in_i32 (mask j).
Proof. apply i32_range. Qed.

Lemma lor_in_i32 a b : in_i32 a -> in_i32 b -> in_i32 (Z.lor a b).
Proof.
  intros Ha Hb. apply testbit_in_i32. intros i Hi. rewrite !Z.lor_spec.
  by rewrite (in_i32_testbit a), (in_i32_testbit b).
Qed.

Lemma land_lnot_in_i32 a b : in_i32 a -> in_i32 b -> in_i32 (Z.land a (Z.lnot b)).
Proof.
  intros Ha Hb. apply testbit_in_i32. intros i Hi. rewrite !Z.land_spec, !Z.lnot_spec by lia.
  by rewrite (in_i32_testbit a), (in_i32_testbit b).
Qed.

Lemma land_mask_zero c j :
  in_i32 c -> 0 <= j < 32 -> (Z.land c (mask j) =? 0) = negb (Z.testbit c j).
Proof.
  intros Hc Hj.
  assert (forall i, 0 <= i -> Z.testbit (Z.land c (mask j)) i
                              = Z.testbit c j && Z.testbit (mask j) i) as Hb.
  { intros i Hi. rewrite Z.land_spec. assert (i < 32 \/ 32 <= i) as [|] by lia.
    - rewrite mask_testbit by lia. destruct (Z.eqb_spec i j) as [->|].
      + by rewrite andb_true_r.
      + by rewrite !andb_false_r.
    - rewrite (in_i32_testbit c), (in_i32_testbit (mask j)) by (done || lia || apply mask_in_i32).
      rewrite mask_testbit by lia. destruct (Z.eqb_spec 31 j) as [<-|].
      + done.
      + by rewrite !andb_false_r. }
  destruct (Z.testbit c j) eqn:E; cbn.
  - apply Z.eqb_neq. intros H0. specialize (Hb j ltac:(lia)).
    rewrite H0, Z.bits_0, mask_testbit, Z.eqb_refl in Hb by lia. done.
  - apply Z.eqb_eq. apply Z.bits_inj'. intros i Hi. rewrite Hb by lia. by rewrite Z.bits_0.
Qed.

(** ** Bits of a vector *)

(** Bit [k] of the array, whatever the number of bits in use. *)
Definition bset (l : list Z) (k : Z) : bool :=
  match chunk_at l (k / 32) with Some c => Z.testbit c (k mod 32) | None => false end.

(** A well-formed vector: its array holds all its bits in [int]s. *)
Record wf (bv : BitVector) : Prop := {
  wf_numbits : 0 <= numbits bv;
  wf_chunks : chunk_count (numbits bv) <= len (bits bv);
  wf_next : 0 <= next_free bv;
  wf_i32 : Forall in_i32 (bits bv);
}.

Ltac solve_wf := split; [cbn; lia|vm_compute; discriminate|cbn; lia|cbn; solve_i32s].

Lemma chunk_count_spec nb k : 0 <= k < nb -> 0 <= k / 32 < chunk_count nb.
Proof.
  intros Hk. unfold chunk_count, BITS_IN_CHUNK.
  pose proof (Z.div_mod nb 32). pose proof (Z.mod_pos_bound nb 32).
  pose proof (Z.div_mod k 32). pose proof (Z.mod_pos_bound k 32).
  destruct (Z.eqb_spec (nb mod 32) 0); lia.
Qed.

Lemma chunk_count_bound nb : 0 <= nb -> 0 <= chunk_count nb /\ chunk_count nb * 32 < nb + 32.
Proof.
  intros Hnb. unfold chunk_count, BITS_IN_CHUNK.
  pose proof (Z.div_mod nb 32). pose proof (Z.mod_pos_bound nb 32).
  destruct (Z.eqb_spec (nb mod 32) 0); lia.
Qed.

Lemma chunk_at_Some l i : 0 <= i < len l -> exists c, chunk_at l i = Some c.
Proof.
  intros Hi. unfold chunk_at. rewrite (proj2 (Z.leb_le 0 i)) by lia.
  apply lookup_lt_is_Some_2. unfold len in Hi. lia.
Qed.

Lemma chunk_at_in_i32 l i c : Forall in_i32 l -> chunk_at l i = Some c -> in_i32 c.
Proof.
  unfold chunk_at. destruct (0 <=? i); [|done]. rewrite Forall_lookup. eauto.
Qed.

Lemma chunk_at_set l i j c :
  0 <= i < len l -> 0 <= j ->
  chunk_at (set_chunk l i c) j = if j =? i then Some c else chunk_at l j.
Proof.
  intros Hi Hj. unfold chunk_at, set_chunk, len in *.
  rewrite (proj2 (Z.leb_le 0 j)) by lia. destruct (Z.eqb_spec j i) as [->|].
  - apply list_lookup_insert_eq. lia.
  - apply list_lookup_insert_ne. lia.
Qed.

Lemma len_set_chunk l i c : len (set_chunk l i c) = len l.
Proof. unfold len, set_chunk. by rewrite length_insert. Qed.

Lemma set_chunk_in_i32 l i c : Forall in_i32 l -> in_i32 c -> Forall in_i32 (set_chunk l i c).
Proof. intros. by apply Forall_insert. Qed.

Lemma bset_chunk l n b c :
  chunk_at l n = Some c -> 0 <= n -> 0 <= b < 32 -> bset l (n * 32 + b) = Z.testbit c b.
Proof.
  intros Hc Hn Hb. unfold bset. rewrite Z.div_add_l, Z.div_small, Z.add_0_r, Hc by lia.
  rewrite Z.add_comm, Z_mod_plus_full, Z.mod_small by lia. done.
Qed.

(** Setting one bit, and clearing one bit, of the array. *)
Lemma bset_set l n b c k :
  chunk_at l n = Some c -> 0 <= n < len l -> 0 <= b < 32 -> 0 <= k ->
  bset (set_chunk l n (Z.lor c (mask b))) k = bset l k || (k =? n * 32 + b).
Proof.
  intros Hc Hn Hb Hk. unfold bset.
  pose proof (Z.div_mod k 32). pose proof (Z.mod_pos_bound k 32).
  rewrite chunk_at_set by lia. destruct (Z.eqb_spec (k / 32) n) as [E|].
  - rewrite E, Hc, Z.lor_spec, mask_testbit by lia. f_equal.
    destruct (Z.eqb_spec (k mod 32) b), (Z.eqb_spec k (n * 32 + b)); lia.
  - destruct (Z.eqb_spec k (n * 32 + b)) as [->|]; [|by rewrite orb_false_r].
    exfalso. rewrite Z.div_add_l, Z.div_small in * by lia. lia.
Qed.

Lemma bset_unset l n b c k :
  chunk_at l n = Some c -> 0 <= n < len l -> 0 <= b < 32 -> 0 <= k ->
  bset (set_chunk l n (Z.land c (Z.lnot (mask b)))) k = bset l k && negb (k =? n * 32 + b).
Proof.
  intros Hc Hn Hb Hk. unfold bset.
  pose proof (Z.div_mod k 32). pose proof (Z.mod_pos_bound k 32).
  rewrite chunk_at_set by lia. destruct (Z.eqb_spec (k / 32) n) as [E|].
  - rewrite E, Hc, Z.land_spec, Z.lnot_spec, mask_testbit by lia. f_equal. f_equal.
    destruct (Z.eqb_spec (k mod 32) b), (Z.eqb_spec k (n * 32 + b)); lia.
  - destruct (Z.eqb_spec k (n * 32 + b)) as [->|]; [|by rewrite andb_true_r].
    exfalso. rewrite Z.div_add_l, Z.div_small in * by lia. lia.
Qed.

Create HintDb bits.
#[export] Hint Resolve lor_in_i32 land_lnot_in_i32 mask_in_i32 set_chunk_in_i32 chunk_at_in_i32 : bits.
#[export] Hint Rewrite len_set_chunk : len.

(** The chunk that holds a bit of a well-formed vector. *)
Lemma wf_chunk bv k :
  wf bv -> 0 <= k < numbits bv ->
  exists c, chunk_at (bits bv) (k / 32) = Some c /\ in_i32 c
            /\ 0 <= k / 32 < len (bits bv) /\ 0 <= k mod 32 < 32.
Proof.
  intros [Hn Hc _ Hi] Hk. pose proof (chunk_count_spec (numbits bv) k Hk).
  destruct (chunk_at_Some (bits bv) (k / 32)) as [c E]; [lia|].
  exists c. pose proof (Z.mod_pos_bound k 32). eauto with bits lia.
Qed.

Lemma divmod32 k : k / 32 * 32 + k mod 32 = k.
Proof. pose proof (Z.div_mod k 32). lia. Qed.

(** ** Single bits and ranges *)

(** What a change of the bits keeps of the rest of the structure. *)
Definition same_shape (bv bv' : BitVector) : Prop :=
  numbits bv' = numbits bv /\ is_full bv' = is_full bv /\ len (bits bv') = len (bits bv).

Lemma SetBV_spec bv k :
  wf bv -> 0 <= k < numbits bv ->
  wp (SetBV k) (fun r bv' => r = 1 /\ wf bv' /\ same_shape bv bv' /\
      next_free bv' = next_free bv /\
      forall i, 0 <= i -> bset (bits bv') i = bset (bits bv) i || (i =? k)) bv.
Proof.
  intros Hwf Hk. destruct (wf_chunk bv k Hwf Hk) as (c & Hc & Hi & Hl & Hm).
  unfold SetBV, BITS_IN_CHUNK. wp_step. wp_step.
  rewrite Z.geb_leb, (proj2 (Z.leb_gt _ _)), (proj2 (Z.ltb_ge _ _)) by lia. cbn [orb].
  rewrite Hc. wp_steps. unfold same_shape. destruct Hwf.
  split_and!; cbn; autorewrite with len; try done.
  - split; cbn; autorewrite with len; eauto with bits.
  - intros i Hi'. rewrite (bset_set _ _ _ c), divmod32 by done. done.
Qed.

Lemma UnSetBV_spec bv k :
  wf bv -> 0 <= k < numbits bv ->
  wp (UnSetBV k) (fun r bv' => r = 1 /\ wf bv' /\ same_shape bv bv' /\
      next_free bv' = k /\
      forall i, 0 <= i -> bset (bits bv') i = bset (bits bv) i && negb (i =? k)) bv.
Proof.
  intros Hwf Hk. destruct (wf_chunk bv k Hwf Hk) as (c & Hc & Hi & Hl & Hm).
  unfold UnSetBV, BITS_IN_CHUNK. wp_step. wp_step.
  rewrite Z.geb_leb, (proj2 (Z.leb_gt _ _)), (proj2 (Z.ltb_ge _ _)) by lia. cbn [orb].
  rewrite Hc. wp_steps. unfold same_shape. destruct Hwf.
  split_and!; cbn; autorewrite with len; try done.
  - split; cbn; autorewrite with len; [done|done|lia|eauto with bits].
  - intros i Hi'. rewrite (bset_unset _ _ _ c), divmod32 by done. done.
Qed.

Lemma IsSetBV_spec bv k :
  wf bv -> 0 <= k < numbits bv ->
  wp (IsSetBV k) (fun r bv' => bv' = bv /\ (r =? 0) = negb (bset (bits bv) k)) bv.
Proof.
  intros Hwf Hk. destruct (wf_chunk bv k Hwf Hk) as (c & Hc & Hi & Hl & Hm).
  unfold IsSetBV, BITS_IN_CHUNK. wp_step. wp_step.
  rewrite Z.geb_leb, (proj2 (Z.leb_gt _ _)), (proj2 (Z.ltb_ge _ _)) by lia. cbn [orb].
  rewrite Hc. wp_steps. split; [done|]. rewrite land_mask_zero by done.
  unfold bset. by rewrite Hc.
Qed.

Lemma out_of_range k bv :
  ~ (0 <= k < numbits bv) -> ((k >=? numbits bv) || (k <? 0)) = true.
Proof. intros H. rewrite Z.geb_leb. destruct (Z.leb_spec (numbits bv) k), (Z.ltb_spec k 0); lia. Qed.

Lemma unset_loop_spec n k l :
  Forall in_i32 l -> 0 <= k -> (n = 0%nat \/ (k + Z.of_nat n - 1) / 32 < len l) ->
  exists l', unset_loop n k l = Some l' /\ len l' = len l /\ Forall in_i32 l' /\
    forall i, 0 <= i ->
      bset l' i = bset l i && negb ((k <=? i) && (i <? k + Z.of_nat n)).
Proof.
  revert k l. induction n as [|n IH]; intros k l Hl Hk Hn.
  - exists l. split_and!; try done. intros i Hi.
    replace ((k <=? i) && (i <? k + Z.of_nat 0)) with false; [by rewrite andb_true_r|].
    destruct (Z.leb_spec k i), (Z.ltb_spec i (k + Z.of_nat 0)); lia.
  - destruct Hn as [|Hn]; [done|].
    assert (k / 32 <= (k + Z.of_nat (Datatypes.S n) - 1) / 32) by (apply Z.div_le_mono; lia).
    assert (0 <= k / 32) by (apply Z.div_pos; lia).
    destruct (chunk_at_Some l (k / 32)) as [c Hc]; [lia|]. cbn [unset_loop]. unfold BITS_IN_CHUNK.
    rewrite Hc. cbn [mbind option_bind].
    pose proof (Z.mod_pos_bound k 32).
    destruct (IH (k + 1) (set_chunk l (k / 32) (Z.land c (Z.lnot (mask (k mod 32))))))
      as (l' & E & Hlen & Hi & Hb).
    + eauto with bits.
    + lia.
    + right. autorewrite with len. rewrite Nat2Z.inj_succ in *.
      eapply Z.le_lt_trans; [|exact Hn]. apply Z.div_le_mono; lia.
    + exists l'. autorewrite with len in Hlen. split_and!; try done.
      intros i Hi0. rewrite Hb, (bset_unset _ _ _ c), divmod32 by (done || lia).
      rewrite <- andb_assoc. f_equal.
      destruct (Z.eqb_spec i k), (Z.leb_spec (k + 1) i), (Z.ltb_spec i (k + 1 + Z.of_nat n)),
        (Z.leb_spec k i), (Z.ltb_spec i (k + Z.of_nat (Datatypes.S n))); cbn; try done; lia.
Qed.

Lemma UnSetRangeBV_spec bv start n :
  wf bv -> 0 <= start -> 0 <= n -> start + n <= numbits bv -> numbits bv < 2 ^ 31 ->
  wp (UnSetRangeBV start n) (fun r bv' => r = 1 /\ wf bv' /\ same_shape bv bv' /\
      next_free bv' = start /\
      forall i, 0 <= i -> bset (bits bv') i =
        bset (bits bv) i && negb ((start <=? i) && (i <? start + n))) bv.
Proof.
  intros [Hnb Hc Hnf Hi] Hs Hn Hle Hb. unfold UnSetRangeBV. wp_step. wp_step.
  rewrite (proj2 (Z.ltb_ge start 0)), (proj2 (Z.ltb_ge n 0)) by lia.
  rewrite i32_id by (unfold in_i32; lia).
  rewrite Z.gtb_ltb, (proj2 (Z.ltb_ge (numbits bv) (start + n))) by lia. cbn [orb].
  destruct (unset_loop_spec (Z.to_nat n) start (bits bv)) as (l' & E & Hlen & Hi' & Hb'); try done.
  { destruct (decide (n = 0)) as [->|]; [by left|]. right.
    pose proof (chunk_count_spec (numbits bv) (start + n - 1) ltac:(lia)).
    rewrite Z2Nat.id by lia. lia. }
  wp_steps. cbn [bits set_next_free]. rewrite E. wp_steps. rewrite Z2Nat.id in Hb' by lia.
  unfold same_shape. cbn. split_and!; try done. split; cbn; [done|lia|lia|done].
Qed.

(** ** The first-fit search *)

Definition free_run (l : list Z) (s n : Z) : Prop :=
  forall i, s <= i < s + n -> bset l i = false.

Lemma free_run_nil l s n : n <= 0 -> free_run l s n.
Proof. intros Hn i Hi. lia. Qed.

Lemma free_run_cons l s n : bset l s = false -> free_run l (s + 1) (n - 1) -> free_run l s n.
Proof.
  intros H0 H i Hi. destruct (decide (i = s)) as [->|]; [done|]. apply H. lia.
Qed.

(** The next position of the walks over bits, as chunk and bit. *)
Definition next_pos (n bit : Z) : Z * Z :=
  if bit + 1 =? 32 then (n + 1, 0) else (n, bit + 1).

Lemma next_pos_spec n bit :
  0 <= n -> 0 <= bit < 32 ->
  let p := next_pos n bit in
  p.1 * 32 + p.2 = n * 32 + bit + 1 /\ 0 <= p.1 /\ 0 <= p.2 < 32 /\ n <= p.1.
Proof. intros. unfold next_pos in *. subst p. destruct (Z.eqb_spec (bit + 1) 32); cbn; lia. Qed.

Section search.
Context (nb m : Z) (l : list Z).
Hypothesis Hnb : 0 <= nb.
Hypothesis Hm : 1 <= m.
Hypothesis Hchunks : chunk_count nb <= len l.
Hypothesis Hi32 : Forall in_i32 l.

Lemma chunk_in_use n bit :
  0 <= n -> 0 <= bit < 32 -> n * 32 + bit < nb ->
  exists c, chunk_at l n = Some c /\ in_i32 c /\ bset l (n * 32 + bit) = Z.testbit c bit.
Proof.
  intros Hn Hb Hlt. pose proof (chunk_count_spec nb (n * 32 + bit) ltac:(lia)) as Hc.
  rewrite Z.div_add_l, Z.div_small, Z.add_0_r in Hc by lia.
  destruct (chunk_at_Some l n) as [c E]; [lia|]. exists c.
  eauto using bset_chunk with bits.
Qed.

Lemma scan_range_spec fuel k n bit :
  Z.of_nat fuel = m - k -> 0 <= k -> 0 <= n -> 0 <= bit < 32 ->
  exists k' n' bit', scan_range fuel nb l m k n bit = Some (k', n', bit') /\
    k <= k' <= m /\ n <= n' /\ 0 <= bit' < 32 /\
    n' * 32 + bit' = n * 32 + bit + (k' - k) /\
    free_run l (n * 32 + bit) (k' - k) /\
    (k' = m \/ nb <= n' * 32 + bit' \/ bset l (n' * 32 + bit') = true) /\
    (n * 32 + bit <= nb -> n' * 32 + bit' <= nb) /\ (nb <= n * 32 + bit -> k' = k).
Proof.
  revert k n bit. induction fuel as [|fuel IH]; intros k n bit Hf Hk Hn Hb.
  - exists k, n, bit. split_and!; try done; try lia. apply free_run_nil. lia.
  - cbn [scan_range]. unfold BITS_IN_CHUNK.
    rewrite (proj2 (Z.ltb_lt k m)) by lia. cbn [andb].
    destruct (Z.ltb_spec (n * 32 + bit) nb) as [Hlt|Hge].
    2:{ exists k, n, bit. split_and!; try done; try lia. apply free_run_nil. lia. }
    destruct (chunk_in_use n bit) as (c & Hc & Hci & Hbs); try done.
    rewrite Hc. cbn [mbind option_bind]. rewrite land_mask_zero, negb_involutive by done.
    destruct (Z.testbit c bit) eqn:Et.
    { exists k, n, bit. rewrite Hbs. split_and!; try done; try lia; auto using free_run_nil with lia. }
    pose proof (next_pos_spec n bit Hn Hb) as Hp. unfold next_pos in Hp.
    assert (exists n1 b1, (if bit + 1 =? 32 then scan_range fuel nb l m (k + 1) (n + 1) 0
              else scan_range fuel nb l m (k + 1) n (bit + 1)) = scan_range fuel nb l m (k + 1) n1 b1
            /\ n1 * 32 + b1 = n * 32 + bit + 1 /\ 0 <= n1 /\ 0 <= b1 < 32 /\ n <= n1)
      as (n1 & b1 & -> & E1 & H1 & H2 & H3).
    { destruct (bit + 1 =? 32); eauto. }
    destruct (IH (k + 1) n1 b1) as (k' & n' & b' & -> & R1 & R2 & R3 & R4 & R5 & R6 & R7 & R8); try lia.
    exists k', n', b'. split_and!; try done; try lia.
    apply free_run_cons; [by rewrite Hbs|]. replace (k' - k - 1) with (k' - (k + 1)) by lia.
    by rewrite <- E1.
Qed.

(** What the searches guarantee about the position they report. *)
Definition search_ok (i : Z) (r : outcome search_result) : Prop :=
  match r with
  | Done (NotFound i' _ mf) => i <= i' /\ mf < m
  | Done (Found b j) => 0 <= b /\ 0 <= j < 32 /\ b * 32 + j + m <= nb /\ free_run l (b * 32 + j) m
  | _ => False
  end.

Lemma search_ok_le i i' r : i <= i' -> search_ok i' r -> search_ok i r.
Proof. destruct r as [[]| |]; cbn; lia || done. Qed.

Lemma search_bits_spec fuel i begin j nz mf :
  0 <= begin < chunk_count nb -> 0 <= j <= 32 ->
  chunk_count nb * 32 + 33 - (begin * 32 + j) <= Z.of_nat fuel -> mf < m ->
  search_ok i (search_bits fuel nb l m i begin j nz mf).
Proof.
  revert i begin j nz mf. induction fuel as [|fuel IH]; intros i begin j nz mf Hbg Hj Hf Hmf; [lia|].
  cbn [search_bits]. unfold BITS_IN_CHUNK. destruct (Z.ltb_spec j 32); [|cbn; lia].
  destruct (chunk_at_Some l begin) as [c Hc]; [lia|]. rewrite Hc.
  assert (in_i32 c) by eauto with bits.
  rewrite land_mask_zero, negb_involutive by (done || lia).
  destruct (Z.testbit c j); [apply IH; lia|].
  destruct (scan_range_spec (Z.to_nat m) 0 begin j)
    as (k & n & bit & -> & R1 & R2 & R3 & R4 & R5 & R6 & R7 & R8); try lia.
  rewrite Z.geb_leb, !Z.gtb_ltb.
  destruct (Z.leb_spec nb (n * 32 + bit)), (Z.ltb_spec k m); cbn [andb].
  - destruct (begin <? n) eqn:?, (mf <? k) eqn:?; zcases; cbn; lia.
  - destruct (Z.ltb_spec nb (begin * 32 + j + m)); [exfalso; lia|].
    cbn. split_and!; try lia. by replace m with (k - 0) by lia.
  - assert ((if mf <? k then k else mf) < m) by (destruct (mf <? k); lia).
    destruct (decide (nb = 0)) as [->|]; [cbn in Hbg; lia|].
    apply (search_ok_le _ (i + (n - begin))); [lia|].
    pose proof (chunk_count_spec nb (n * 32 + bit) ltac:(lia)) as Hcc.
    rewrite Z.div_add_l, Z.div_small, Z.add_0_r in Hcc by lia.
    assert (k <> 0 \/ k = 0) as [|] by lia; [apply IH; lia|].
    apply IH; lia.
  - destruct (Z.ltb_spec nb (begin * 32 + j + m)); [exfalso; lia|].
    cbn. split_and!; try lia. by replace m with (k - 0) by lia.
Qed.

Lemma search_chunks_spec fuel base i rc nz mf :
  0 <= base -> 0 < chunk_count nb -> 0 <= rc <= i ->
  Z.max 0 (chunk_count nb - i) < Z.of_nat fuel -> mf < m ->
  search_ok i (search_chunks fuel nb l m (chunk_count nb) base i rc nz mf).
Proof.
  intros Hb Hcc. revert i rc nz mf.
  induction fuel as [|fuel IH]; intros i rc nz mf Hi Hf Hmf.
  - cbn [search_chunks]. exfalso; lia.
  - cbn [search_chunks]. destruct (Z.ltb_spec i (chunk_count nb)); [|cbn; lia].
    rewrite Z.gtb_ltb, (proj2 (Z.ltb_ge _ _)) by lia.
    pose proof (Z.mod_pos_bound (base + i) (chunk_count nb) ltac:(lia)) as Hbg.
    destruct (chunk_at_Some l ((base + i) mod chunk_count nb)) as [c ->]; [lia|].
    destruct (c =? -1).
    + apply (search_ok_le _ (i + 1)); [lia|]. apply IH; lia.
    + pose proof (search_bits_spec (Z.to_nat (chunk_count nb * 32 + 33)) i
        ((base + i) mod chunk_count nb) 0 nz mf ltac:(lia) ltac:(lia) ltac:(lia) Hmf) as Hs.
      destruct (search_bits _ _ _ _ _ _ _ _ _) as [[b j|i' nz' mf']| |]; cbn in Hs; try done.
      apply (search_ok_le _ (i' + 1)); [lia|]. apply IH; lia.
Qed.
End search.

Lemma mark_range_spec fuel l n bit :
  Forall in_i32 l -> 0 <= n -> 0 <= bit < 32 ->
  (fuel = 0%nat \/ (n * 32 + bit + Z.of_nat fuel - 1) / 32 < len l) ->
  exists l' n' bit', mark_range fuel l n bit = Some (l', n', bit') /\
    len l' = len l /\ Forall in_i32 l' /\ 0 <= n' /\ 0 <= bit' < 32 /\
    n' * 32 + bit' = n * 32 + bit + Z.of_nat fuel /\
    forall i, 0 <= i -> bset l' i = bset l i ||
      ((n * 32 + bit <=? i) && (i <? n * 32 + bit + Z.of_nat fuel)).
Proof.
  revert l n bit. induction fuel as [|fuel IH]; intros l n bit Hl Hn Hb Hlen.
  - exists l, n, bit. split_and!; try done; try lia. intros i Hi.
    replace ((n * 32 + bit <=? i) && (i <? n * 32 + bit + Z.of_nat 0)) with false;
      [by rewrite orb_false_r|].
    destruct (Z.leb_spec (n * 32 + bit) i), (Z.ltb_spec i (n * 32 + bit + Z.of_nat 0)); lia.
  - destruct Hlen as [|Hlen]; [done|]. rewrite Nat2Z.inj_succ in *.
    assert ((n * 32 + bit) / 32 = n) as Hdiv.
    { rewrite Z.div_add_l, Z.div_small by lia. lia. }
    assert (n <= (n * 32 + bit + Z.succ (Z.of_nat fuel) - 1) / 32).
    { rewrite <- Hdiv at 1. apply Z.div_le_mono; lia. }
    destruct (chunk_at_Some l n) as [c Hc]; [lia|]. cbn [mark_range].
    rewrite Hc. cbn [mbind option_bind]. unfold BITS_IN_CHUNK.
    set (l1 := set_chunk l n (Z.lor c (mask bit))).
    pose proof (next_pos_spec n bit Hn Hb) as Hp. unfold next_pos in Hp.
    assert (exists n1 b1, (if bit + 1 =? 32 then mark_range fuel l1 (n + 1) 0
              else mark_range fuel l1 n (bit + 1)) = mark_range fuel l1 n1 b1
            /\ n1 * 32 + b1 = n * 32 + bit + 1 /\ 0 <= n1 /\ 0 <= b1 < 32 /\ n <= n1)
      as (n1 & b1 & -> & E1 & H1 & H2 & H3).
    { destruct (bit + 1 =? 32); eauto. }
    destruct (IH l1 n1 b1) as (l' & n' & b' & -> & R1 & R2 & R3 & R4 & R5 & R6); try done.
    { apply set_chunk_in_i32; eauto with bits. }
    { right. unfold l1. autorewrite with len. rewrite E1.
      by replace (n * 32 + bit + 1 + Z.of_nat fuel - 1)
        with (n * 32 + bit + Z.succ (Z.of_nat fuel) - 1) by lia. }
    exists l', n', b'. unfold l1 in *. autorewrite with len in R1.
    split_and!; try done; try lia. intros i Hi. rewrite R6, (bset_set _ _ _ c) by (done || lia).
    rewrite <- orb_assoc. f_equal.
    destruct (Z.eqb_spec i (n * 32 + bit)), (Z.leb_spec (n1 * 32 + b1) i),
      (Z.ltb_spec i (n1 * 32 + b1 + Z.of_nat fuel)), (Z.leb_spec (n * 32 + bit) i),
      (Z.ltb_spec i (n * 32 + bit + Z.succ (Z.of_nat fuel))); cbn; try done; lia.
Qed.

(** The two ways [GetFreeRangeOfBits n] can end from [bv]. *)
Definition no_room (bv bv' : BitVector) : Prop :=
  bits bv' = bits bv /\ next_free bv' = next_free bv /\ numbits bv' = numbits bv.

Definition took_run (bv : BitVector) (n start : Z) (bv' : BitVector) : Prop :=
  1 <= n /\ 0 <= start /\ start + n <= numbits bv /\ is_full bv = 0 /\
  free_run (bits bv) start n /\ same_shape bv bv' /\
  forall i, 0 <= i -> bset (bits bv') i =
    bset (bits bv) i || ((start <=? i) && (i <? start + n)).

Lemma GetFreeRangeOfBits_spec bv n :
  wf bv ->
  wp (GetFreeRangeOfBits n)
     (fun r bv' => wf bv' /\ (r.1 = -1 /\ r.2 < Z.max 0 n /\ no_room bv bv' \/ took_run bv n r.1 bv')) bv.
Proof.
  intros Hwf. destruct (Hwf) as [Hnb Hc Hnf Hi]. unfold GetFreeRangeOfBits. wp_step. wp_step.
  rewrite Z.gtb_ltb.
  destruct (Z.leb_spec n 0) as [|Hn], (Z.ltb_spec (numbits bv) n) as [|Hn'],
    (Z.eqb_spec (is_full bv) 0) as [Hfull|]; cbn [orb negb]; try (wp_steps; split; [done|left; split_and!; [done|cbn; lia|done]]).
  assert (0 < chunk_count (numbits bv)) as Hcc.
  { pose proof (chunk_count_spec (numbits bv) 0 ltac:(lia)). rewrite Z.div_0_l in * by lia. lia. }
  pose proof (search_chunks_spec (numbits bv) n (bits bv) Hnb ltac:(lia) Hc Hi
    (Z.to_nat (chunk_count (numbits bv) + 1)) (next_free bv / BITS_IN_CHUNK) 0 0 0 (-1)
    ltac:(apply Z.div_pos; [done|done]) Hcc ltac:(lia) ltac:(lia) ltac:(lia)) as Hs.
  wp_step. unfold wp at 1.
  destruct (search_chunks _ _ _ _ _ _ _ _ _ _) as [[b j|i nz mf]| |]; cbn in Hs; try done.
  - destruct Hs as (Hb & Hj & Hle & Hrun). unfold BITS_IN_CHUNK.
    destruct (mark_range_spec (Z.to_nat n) (bits bv) b j)
      as (l' & n' & bit' & E & R1 & R2 & R3 & R4 & R5 & R6); try done.
    { right. pose proof (chunk_count_spec (numbits bv) (b * 32 + j + n - 1) ltac:(lia)).
      rewrite Z2Nat.id by lia. lia. }
    rewrite E. wp_steps. rewrite Z2Nat.id in R6 by lia.
    assert (wf (set_bits l' bv)) as Hwf' by (split; cbn; lia || done).
    assert (took_run bv n (b * 32 + j) (set_bits l' bv)) as Ht.
    { unfold took_run, same_shape. cbn. split_and!; try done; lia. }
    destruct (Z.ltb_spec n' (chunk_count (numbits bv))) as [Hlt|]; [|wp_steps; split; [done|by right]].
    destruct (chunk_at_Some l' n') as [c ->]; [lia|]. wp_steps.
    apply wp_if; intros _; wp_steps; [|split; [done|by right]]. split; [|by right].
    destruct Hwf'. split; cbn; try done; lia.
  - destruct (nz >=? numbits bv); wp_steps; (split; [|left; split_and!; [done|cbn; lia|done]]); [|done].
    split; done.
Qed.

(** *** A single bit, when the last chunk is full-width: the search is complete *)

Section single.
Context (nb : Z) (l : list Z).
Hypothesis Hdiv : nb mod 32 = 0.
Hypothesis Hchunks : chunk_count nb <= len l.
Hypothesis Hi32 : Forall in_i32 l.

Lemma chunk_count_div : chunk_count nb * 32 = nb.
Proof.
  unfold chunk_count, BITS_IN_CHUNK. rewrite Hdiv. cbn.
  pose proof (Z.div_mod nb 32). lia.
Qed.

(** A chunk that is not all ones has a clear bit, and the search stops there. *)
Lemma search_bits_single fuel i begin j nz mf c b :
  chunk_at l begin = Some c -> 0 <= begin < chunk_count nb ->
  0 <= j <= b -> b < 32 -> Z.testbit c b = false -> b - j < Z.of_nat fuel ->
  exists j', search_bits fuel nb l 1 i begin j nz mf = Done (Found begin j').
Proof.
  intros Hc Hb. assert (in_i32 c) as Hic by eauto with bits.
  pose proof chunk_count_div as Hccd.
  revert j nz. induction fuel as [|fuel IH]; intros j nz Hj Hb32 Ht Hf; [lia|].
  cbn [search_bits]. unfold BITS_IN_CHUNK. rewrite (proj2 (Z.ltb_lt j 32)), Hc by lia.
  rewrite land_mask_zero, negb_involutive by (done || lia).
  destruct (Z.testbit c j) eqn:E.
  { apply IH; try done; [|lia]. assert (j <> b) by congruence. lia. }
  change (Z.to_nat 1) with 1%nat. cbn [scan_range]. unfold BITS_IN_CHUNK.
  change (0 <? 1) with true. change (0 + 1) with 1.
  rewrite (proj2 (Z.ltb_lt (begin * 32 + j) nb)), Hc by lia. cbn [andb mbind option_bind].
  rewrite land_mask_zero, E by (done || lia). cbn [negb].
  change (1 <? 1) with false.
  destruct (j + 1 =? 32); rewrite andb_false_r; cbn [andb];
    rewrite (Z.gtb_ltb (begin * 32 + j + 1)), (proj2 (Z.ltb_ge nb _)) by lia; eauto.
Qed.

Lemma full_chunk c : in_i32 c -> (forall b, 0 <= b < 32 -> Z.testbit c b = true) -> c = -1.
Proof.
  intros Hc H. apply Z.bits_inj'. intros i Hi. rewrite Z.bits_m1 by lia.
  assert (i < 32 \/ 32 <= i) as [|] by lia; [apply H; lia|].
  rewrite in_i32_testbit by (done || lia). apply H. lia.
Qed.

Lemma not_full_chunk c : in_i32 c -> c <> -1 -> exists b, 0 <= b < 32 /\ Z.testbit c b = false.
Proof.
  intros Hc Hne.
  destruct (decide (Forall (fun b => Z.testbit c b = true) (seqZ 0 32))) as [H|H].
  - exfalso. apply Hne, full_chunk; [done|]. intros b Hb. rewrite Forall_forall in H.
    apply H. apply elem_of_seqZ. lia.
  - apply not_Forall_Exists in H; [|intros ?; apply _]. apply Exists_exists in H as (b & Hb & Ht).
    apply elem_of_seqZ in Hb. exists b. split; [lia|]. by apply not_true_is_false.
Qed.

Lemma search_chunks_single fuel base i rc nz mf s :
  0 <= base -> 0 <= rc <= i -> chunk_count nb - i < Z.of_nat fuel ->
  i <= s < chunk_count nb ->
  (exists c, chunk_at l ((base + s) mod chunk_count nb) = Some c /\ c <> -1) ->
  exists b j, search_chunks fuel nb l 1 (chunk_count nb) base i rc nz mf = Done (Found b j).
Proof.
  intros Hb Hi Hf Hs (c & Hc & Hne). revert i rc nz mf Hi Hf Hs.
  induction fuel as [|fuel IH]; intros i rc nz mf Hi Hf Hs; [lia|].
  cbn [search_chunks]. rewrite (proj2 (Z.ltb_lt i _)) by lia.
  rewrite Z.gtb_ltb, (proj2 (Z.ltb_ge _ _)) by lia.
  pose proof (Z.mod_pos_bound (base + i) (chunk_count nb) ltac:(lia)) as Hbg.
  destruct (chunk_at_Some l ((base + i) mod chunk_count nb)) as [c' Hc']; [lia|]. rewrite Hc'.
  destruct (Z.eqb_spec c' (-1)) as [->|Hne'].
  - apply IH; try lia. assert (i <> s) by (intros ->; congruence). lia.
  - destruct (not_full_chunk c') as (b & Hb32 & Ht); [eauto with bits|done|].
    destruct (search_bits_single (Z.to_nat (chunk_count nb * 32 + 33)) i _ 0 nz mf c' b Hc')
      as [j' ->]; try done; try lia. eauto.
Qed.
End single.

(** When the search finds a run the result is its start, not -1. *)
Lemma GetFreeRangeOfBits_found bv n b j :
  1 <= n <= numbits bv -> is_full bv = 0 ->
  search_chunks (Z.to_nat (chunk_count (numbits bv) + 1)) (numbits bv) (bits bv) n
    (chunk_count (numbits bv)) (next_free bv / 32) 0 0 0 (-1) = Done (Found b j) ->
  0 <= b * 32 + j ->
  wlp (GetFreeRangeOfBits n) (fun r _ => r.1 <> -1) bv.
Proof.
  intros Hn Hf E Hb. unfold GetFreeRangeOfBits, BITS_IN_CHUNK.
  apply wlp_bind, wlp_get. cbn beta iota zeta.
  rewrite Z.gtb_ltb, (proj2 (Z.leb_gt n 0)) by lia.
  rewrite (proj2 (Z.ltb_ge (numbits bv) n)) by lia. rewrite Hf. cbn [orb negb Z.eqb].
  apply wlp_bind. unfold wlp at 1. rewrite E. apply wlp_bind, wlp_any. intros [[l n'] bit] s.
  apply wlp_bind, wlp_any. intros _ s1. apply wlp_bind, wlp_any. intros _ s2.
  apply wlp_ret. cbn. lia.
Qed.

(** ** Arrays with the same bits, and the number of bits set *)

Lemma chunk_ext c c' :
  in_i32 c -> in_i32 c' -> (forall b, 0 <= b < 32 -> Z.testbit c b = Z.testbit c' b) -> c = c'.
Proof.
  intros Hc Hc' H. apply Z.bits_inj'. intros i Hi. destruct (decide (i < 31)); [apply H; lia|].
  rewrite (in_i32_testbit c), (in_i32_testbit c') by (done || lia). apply H. lia.
Qed.

Lemma chunk_of_bset l i c b :
  l !! i = Some c -> 0 <= b < 32 -> bset l (Z.of_nat i * 32 + b) = Z.testbit c b.
Proof.
  intros Hc Hb. apply (bset_chunk l (Z.of_nat i) b c); [|lia|done].
  unfold chunk_at. rewrite (proj2 (Z.leb_le 0 _)) by lia. by rewrite Nat2Z.id.
Qed.

(** Slices of two arrays are equal when their bits are. *)
Lemma slice_bits_ext l l' a n :
  Forall in_i32 l -> Forall in_i32 l' -> len l = len l' -> 0 <= a -> 0 <= n -> a + n <= len l ->
  (forall i, a * 32 <= i < (a + n) * 32 -> bset l i = bset l' i) ->
  slice a n l = slice a n l'.
Proof.
  intros Hl Hl' Hlen Ha Hn Han H. apply list_eq. intros i.
  destruct (decide (i < Z.to_nat n)%nat); [|by rewrite !slice_lookup_ge by lia].
  rewrite !slice_lookup by lia. unfold len in *.
  destruct (lookup_lt_is_Some_2 l (Z.to_nat a + i)) as [c Hc]; [lia|].
  destruct (lookup_lt_is_Some_2 l' (Z.to_nat a + i)) as [c' Hc']; [lia|].
  rewrite Hc, Hc'. f_equal. rewrite Forall_lookup in Hl, Hl'. apply chunk_ext; [by eapply Hl|by eapply Hl'|].
  intros b Hb. rewrite <- (chunk_of_bset l _ c b Hc Hb), <- (chunk_of_bset l' _ c' b Hc' Hb).
  apply H. lia.
Qed.

(** How many of the first [n] bits are set. *)
Fixpoint nset (l : list Z) (n : nat) : Z :=
  match n with
  | O => 0
  | Datatypes.S n => nset l n + (if bset l (Z.of_nat n) then 1 else 0)
  end.

Lemma nset_bounds l n : 0 <= nset l n <= Z.of_nat n.
Proof. induction n; cbn [nset]; [lia|]. destruct (bset l (Z.of_nat n)); lia. Qed.

Lemma nset_ext l l' n : (forall i, 0 <= i < Z.of_nat n -> bset l' i = bset l i) -> nset l' n = nset l n.
Proof. intros H. induction n; cbn [nset]; [done|]. rewrite IHn, H by (intros; try apply H; lia). done. Qed.

Lemma nset_set l l' n a :
  0 <= a < Z.of_nat n -> bset l a = false ->
  (forall i, 0 <= i -> bset l' i = bset l i || (i =? a)) -> nset l' n = nset l n + 1.
Proof.
  intros Ha Hf H. induction n as [|n IH]; [lia|]. cbn [nset]. rewrite H by lia.
  destruct (Z.eqb_spec (Z.of_nat n) a) as [E|E].
  - rewrite E, Hf. cbn. rewrite (nset_ext l l'); [lia|]. intros i Hi. rewrite H by lia.
    rewrite (proj2 (Z.eqb_neq i a)) by lia. by rewrite orb_false_r.
  - rewrite IH by lia. rewrite orb_false_r. lia.
Qed.

Lemma nset_clear_run l l' m a n :
  0 <= a -> 0 <= n -> (forall i, a <= i < a + n -> bset l i = true) ->
  (forall i, 0 <= i -> bset l' i = bset l i && negb ((a <=? i) && (i <? a + n))) ->
  nset l' m = nset l m - Z.max 0 (Z.min (Z.of_nat m - a) n).
Proof.
  intros Ha Hn Hset H. induction m as [|m IH]; cbn [nset]; [lia|]. rewrite IH, H by lia.
  destruct (Z.leb_spec a (Z.of_nat m)), (Z.ltb_spec (Z.of_nat m) (a + n)); cbn [andb negb];
    rewrite ?andb_true_r; try lia.
  rewrite (Hset (Z.of_nat m)) by lia. cbn [andb]. lia.
Qed.

Lemma nset_free_lt l n a : 0 <= a < Z.of_nat n -> bset l a = false -> nset l n < Z.of_nat n.
Proof.
  intros Ha Hf. induction n as [|n IH]; [lia|]. cbn [nset].
  destruct (decide (Z.of_nat n = a)) as [->|].
  - rewrite Hf. pose proof (nset_bounds l n). lia.
  - destruct (bset l (Z.of_nat n)); lia.
Qed.

(** A request for one bit succeeds when a bit is clear. *)
Lemma GetFreeRangeOfBits_single bv k :
  wf bv -> numbits bv mod 32 = 0 -> is_full bv = 0 -> 0 <= k < numbits bv -> bset (bits bv) k = false ->
  wp (GetFreeRangeOfBits 1) (fun r bv' => wf bv' /\ took_run bv 1 r.1 bv') bv.
Proof.
  intros Hwf Hdiv Hfull Hk Hfree.
  pose proof (GetFreeRangeOfBits_spec bv 1 Hwf) as Hspec.
  destruct (Hwf) as [Hnb Hc Hnf Hi]. destruct (wf_chunk bv k Hwf Hk) as (c & Hck & Hci & Hl & Hm).
  pose proof (chunk_count_spec (numbits bv) k Hk) as Hkc.
  set (base := next_free bv / 32). set (cc := chunk_count (numbits bv)) in *.
  assert (0 <= base) by (apply Z.div_pos; lia).
  destruct (search_chunks_single (numbits bv) (bits bv) Hdiv Hc Hi
    (Z.to_nat (cc + 1)) base 0 0 0 (-1) ((k / 32 - base) mod cc)) as (b & j & E); try lia.
  { fold cc. apply Z.mod_pos_bound. lia. }
  { exists c. fold cc. rewrite Zplus_mod_idemp_r. replace (base + (k / 32 - base)) with (k / 32) by lia.
    rewrite Z.mod_small by lia. split; [done|]. intros ->.
    unfold bset in Hfree. rewrite Hck, Z.bits_m1 in Hfree by lia. done. }
  pose proof (search_chunks_spec (numbits bv) 1 (bits bv) Hnb ltac:(lia) Hc Hi
    (Z.to_nat (cc + 1)) base 0 0 0 (-1) ltac:(done) ltac:(lia) ltac:(lia) ltac:(fold cc; lia) ltac:(lia)) as Hs.
  fold cc in E, Hs. rewrite E in Hs. cbn in Hs.
  pose proof (GetFreeRangeOfBits_found bv 1 b j ltac:(lia) Hfull E ltac:(lia)) as Hne.
  eapply wp_mono; [exact (wp_wlp _ _ _ _ Hspec Hne)|]. cbn. intros r bv' [[Hwf' [[H0 _]|H0]] H1]; done.
Qed.

(** A vector that is marked full is not searched. *)
Lemma GetFreeRangeOfBits_full bv n : is_full bv <> 0 -> wp (GetFreeRangeOfBits n) (fun r bv' => bv' = bv /\ r = (-1, -1)) bv.
Proof.
  intros H. unfold GetFreeRangeOfBits. wp_step. wp_step. rewrite (proj2 (Z.eqb_neq _ _)) by done. cbn [negb].
  rewrite orb_true_r. by wp_step.
Qed.

(** The mark can be wrong: when a short run leads from the chunk before the
    first one searched into it, the rest of that chunk is counted twice.  Here
    two bits of 64 are clear, a run of three is asked for, and the vector is
    marked full, after which a request for one bit fails too. *)
Example full_mark_wrong :
  GetFreeRangeOfBits 3 (MkBV 64 32 0 [0x7FFFFFFF; -2]) = Done ((-1, 2), MkBV 64 32 1 [0x7FFFFFFF; -2]) /\
  GetFreeRangeOfBits 1 (MkBV 64 32 1 [0x7FFFFFFF; -2]) = Done ((-1, -1), MkBV 64 32 1 [0x7FFFFFFF; -2]).
Proof. by vm_compute. Qed.

(** C31. [GetFreeRangeOfBits] on a well-formed vector terminates without a
    fault or a panic.  Either it returns -1, leaves the bits alone and reports
    a biggest free run shorter than the request, or it
    returns the start of a run of [n] bits that lies inside the vector, was
    entirely clear, and is now set, with every other bit unchanged. *)
Theorem first_fit_sound (bv : BitVector) (n : Z) (Hwf : wf bv) :
  wp (GetFreeRangeOfBits n)
     (fun r bv' => wf bv' /\ (r.1 = -1 /\ r.2 < Z.max 0 n /\ no_room bv bv' \/ took_run bv n r.1 bv')) bv.
Proof. by apply GetFreeRangeOfBits_spec. Qed.

Lemma first_fit_sound_witness :
  wf (MkBV 96 0 0 [5; 8; 0]) /\
  GetFreeRangeOfBits 34 (MkBV 96 0 0 [5; 8; 0]) = Done ((36, -1), MkBV 96 70 0 [5; -8; 63]) /\
  wp (GetFreeRangeOfBits 34) (fun r bv' => wf bv' /\
    (r.1 = -1 /\ r.2 < 34 /\ no_room (MkBV 96 0 0 [5; 8; 0]) bv' \/
     took_run (MkBV 96 0 0 [5; 8; 0]) 34 r.1 bv')) (MkBV 96 0 0 [5; 8; 0]).
Proof.
  assert (wf (MkBV 96 0 0 [5; 8; 0])) as H.
  { solve_wf. }
  split; [exact H|]. split; [vm_compute; reflexivity|]. apply first_fit_sound. exact H.
Defined.

(** When the number of bits is a multiple of the chunk width, a request
    for one bit succeeds whenever the vector is not marked full and has a
    clear bit: no free bit is missed. *)
Theorem single_bit_complete (bv : BitVector) (k : Z)
  (Hwf : wf bv) (Hdiv : numbits bv mod 32 = 0) (Hfull : is_full bv = 0)
  (Hk : 0 <= k < numbits bv) (Hfree : bset (bits bv) k = false) :
  wp (GetFreeRangeOfBits 1) (fun r bv' => took_run bv 1 r.1 bv') bv.
Proof. eapply wp_mono; [by apply (GetFreeRangeOfBits_single bv k)|]. by intros r bv' [_ ?]. Qed.

Lemma single_bit_complete_witness :
  wf (MkBV 64 32 0 [-2; -1]) /\
  wp (GetFreeRangeOfBits 1) (fun r bv' => took_run (MkBV 64 32 0 [-2; -1]) 1 r.1 bv')
     (MkBV 64 32 0 [-2; -1]).
Proof.
  assert (wf (MkBV 64 32 0 [-2; -1])) as H.
  { solve_wf. }
  split; [exact H|].
  apply (single_bit_complete (MkBV 64 32 0 [-2; -1]) 0 H); try reflexivity; cbn; lia.
Defined.

(** Setting a bit makes exactly that bit test as set, clearing a bit makes
    exactly that bit test as clear: [IsSetBV] after [SetBV] or [UnSetBV]
    answers for every bit of the vector. *)
Theorem set_clear_test (bv : BitVector) (k i : Z)
  (Hwf : wf bv) (Hk : 0 <= k < numbits bv) (Hi : 0 <= i < numbits bv) :
  wp (_ ← SetBV k; IsSetBV i)
     (fun r _ => (r =? 0) = negb (bset (bits bv) i || (i =? k))) bv /\
  wp (_ ← UnSetBV k; IsSetBV i)
     (fun r _ => (r =? 0) = negb (bset (bits bv) i && negb (i =? k))) bv.
Proof.
  split; apply wp_bind.
  - eapply wp_mono; [by apply SetBV_spec|]. intros r bv' (_ & Hwf' & (Hn & _ & _) & _ & Hb).
    eapply wp_mono; [apply IsSetBV_spec; [done|lia]|]. intros r' bv'' [_ ->]. by rewrite Hb by lia.
  - eapply wp_mono; [by apply UnSetBV_spec|]. intros r bv' (_ & Hwf' & (Hn & _ & _) & _ & Hb).
    eapply wp_mono; [apply IsSetBV_spec; [done|lia]|]. intros r' bv'' [_ ->]. by rewrite Hb by lia.
Qed.

Lemma set_clear_test_witness :
  wf (MkBV 40 0 0 [0; 255]) /\
  wp (_ ← SetBV 31; IsSetBV 31)
     (fun r _ => (r =? 0) = negb (bset [0; 255] 31 || (31 =? 31))) (MkBV 40 0 0 [0; 255]).
Proof.
  assert (wf (MkBV 40 0 0 [0; 255])) as H by solve_wf.
  split; [exact H|].
  apply (set_clear_test (MkBV 40 0 0 [0; 255]) 31 31 H); cbn; lia.
Defined.

(** [UnSetRangeBV] clears exactly the bits of the range, leaves the others,
    and moves [next_free] to the start of the range; a range that is not
    inside the vector is refused and nothing changes. *)
Theorem clear_range_exact (bv : BitVector) (start n : Z)
  (Hwf : wf bv) (Hnb : numbits bv < 2 ^ 31) (Hs : in_i32 start) (Hn : in_i32 n)
  (Hov : start + n < 2 ^ 31) :
  wp (UnSetRangeBV start n) (fun r bv' =>
      (r = 1 /\ 0 <= start /\ 0 <= n /\ start + n <= numbits bv /\ wf bv' /\
       same_shape bv bv' /\ next_free bv' = start /\
       forall i, 0 <= i -> bset (bits bv') i =
         bset (bits bv) i && negb ((start <=? i) && (i <? start + n)))
      \/ (r = 0 /\ bv' = bv /\ ~ (0 <= start /\ 0 <= n /\ start + n <= numbits bv))) bv.
Proof.
  destruct (decide (0 <= start /\ 0 <= n /\ start + n <= numbits bv)) as [(?&?&?)|Hout].
  - eapply wp_mono; [by apply UnSetRangeBV_spec|]. intros r bv' (?&?&?&?&?). left. by split_and!.
  - unfold UnSetRangeBV. wp_step. wp_step. unfold in_i32 in *.
    destruct (Z.ltb_spec start 0), (Z.ltb_spec n 0); cbn [orb]; try (wp_steps; right; by auto).
    rewrite i32_id by (unfold in_i32; lia). rewrite Z.gtb_ltb.
    destruct (Z.ltb_spec (numbits bv) (start + n)); [wp_steps; right; by auto|lia].
Qed.

Lemma clear_range_exact_witness :
  wf (MkBV 64 0 1 [-1; -1]) /\
  UnSetRangeBV 30 4 (MkBV 64 0 1 [-1; -1]) = Done (1, MkBV 64 30 1 [1073741823; -4]) /\
  wp (UnSetRangeBV 30 4) (fun r bv' =>
      (r = 1 /\ 0 <= 30 /\ 0 <= 4 /\ 30 + 4 <= 64 /\ wf bv' /\
       same_shape (MkBV 64 0 1 [-1; -1]) bv' /\ next_free bv' = 30 /\
       forall i, 0 <= i -> bset (bits bv') i =
         bset [-1; -1] i && negb ((30 <=? i) && (i <? 30 + 4)))
      \/ (r = 0 /\ bv' = MkBV 64 0 1 [-1; -1] /\ ~ (0 <= 30 /\ 0 <= 4 /\ 30 + 4 <= 64)))
     (MkBV 64 0 1 [-1; -1]).
Proof.
  assert (wf (MkBV 64 0 1 [-1; -1])) as H by solve_wf.
  split; [exact H|]. split; [vm_compute; reflexivity|].
  apply (clear_range_exact (MkBV 64 0 1 [-1; -1]) 30 4 H); unfold in_i32; cbn; lia.
Defined.

(** The search is not complete in general.  When it reaches the end of the
    vector inside the last chunk it advances [i] once more, and the chunk
    after the wrap-around is never looked at: all of bits 0 to 31 are clear
    here, and one bit is not found. *)
Example first_fit_skips_chunk :
  GetFreeRangeOfBits 1 (MkBV 40 32 0 [0; 255]) = Done ((-1, 0), MkBV 40 32 0 [0; 255]) /\
  bset [0; 255] 0 = false.
Proof. split; vm_compute; reflexivity. Qed.
