(* ===== verification/Host.v ===== *)
(** * Host: what the program takes from the C library and from stub.c

    Memory allocation, the clock, user ids, indeterminate stack bytes, and
    the semaphores of stub.c.  The environment is a parameter of a run:
    [h_oom] says which of the next allocations fail ([true] = fails; past the
    end of the list none does), [h_junk] is what an uninitialised buffer
    happens to hold. *)

From S2P Require Import Prelude Bytes.
Local Open Scope Z_scope.

Record host := Host {
  h_time : Z;
  h_uid : Z;
  h_gid : Z;
  h_brk : Z;           (** the next address the allocator hands out *)
  h_oom : list bool;
  h_junk : list byte;
}.

(** [malloc]/[calloc]: [None] is the NULL pointer, otherwise a new address. *)
Definition malloc (n : Z) : M host (option Z) := fun h =>
  match h_oom h with
  | true :: t => Done (None, Host (h_time h) (h_uid h) (h_gid h) (h_brk h) t (h_junk h))
  | oom => Done (Some (h_brk h),
             Host (h_time h) (h_uid h) (h_gid h) (h_brk h + Z.max 1 n) (tail oom) (h_junk h))
  end.

Definition time_null : M host Z := gets h_time.
Definition getuid : M host Z := gets h_uid.
Definition getgid : M host Z := gets h_gid.

(** [n] bytes of an uninitialised buffer. *)
Definition junk (n : Z) : M host (list byte) :=
  gets (fun h => take (Z.to_nat n) (h_junk h ++ replicate (Z.to_nat n) x00)).

(** The allocator never fails from here on. *)
Definition no_oom (h : host) : Prop := h_oom h = [].

(** ** Semaphores (stub.c)

    A [sem_id] is a pointer to the count; it is NULL in a zeroed structure
    and the program stores -1 in it for "no semaphore". *)
Inductive sem_id : Type :=
  | SemNull
  | SemBad
  | Sem (count : Z).

Definition create_sem (count : Z) : M host sem_id :=
  p ← malloc (4 + 1);
  match p with
  | Some _ => mret (Sem count)
  | None => fault
  end.

(** [free] of a pointer: freeing -1 is an error, freeing NULL does nothing. *)
Definition delete_sem (s : sem_id) : M host Z :=
  match s with SemBad => fault | _ => mret 0 end.

(** [sem > 0] on the pointer: true of every pointer but NULL, -1 included. *)
Definition sem_positive (s : sem_id) : bool :=
  match s with SemNull => false | _ => true end.

Definition acquire_sem : M sem_id Z :=
  s ← get;
  match s with
  | Sem c => if c <=? 0 then hang else _ ← modify (fun _ => Sem (c - 1)); mret 0
  | _ => fault
  end.

Definition release_sem : M sem_id Z :=
  s ← get;
  match s with
  | Sem c => _ ← modify (fun _ => Sem (c + 1)); mret 0
  | _ => fault
  end.

(** The variants that move several units; the check is for one unit only. *)
Definition acquire_sem_etc (count : Z) : M sem_id Z :=
  s ← get;
  match s with
  | Sem c => if c <=? 0 then hang else _ ← modify (fun _ => Sem (c - count)); mret 0
  | _ => fault
  end.

Definition release_sem_etc (count : Z) : M sem_id Z :=
  s ← get;
  match s with
  | Sem c => _ ← modify (fun _ => Sem (c + count)); mret 0
  | _ => fault
  end.

(** [snooze] sleeps a second, whatever it is asked. *)
Definition snooze : M host Z :=
  _ ← modify (fun h => Host (h_time h + 1) (h_uid h) (h_gid h) (h_brk h) (h_oom h) (h_junk h));
  mret 1.

(** ** Locks (lock.h, sysdep.c)

    The count of a free lock is 1; a second [LOCK] of a held lock would block
    for ever, which stub.c turns into [myfs_die]. *)
Record lock := Lock { l_c : Z; l_s : sem_id }.

(** stub.c adds to the count and returns the old value as an [int]. *)
Definition atomic_add (v : Z) : M Z Z := old ← get; _ ← modify (fun c => c + v); mret (i32 old).

Definition new_lock : M host (Z * lock) :=
  s ← create_sem 0;
  mret (0, Lock 1 s).

Definition free_lock (l : lock) : M host Z := _ ← delete_sem (l_s l); mret 0.

Definition LOCK : M lock unit :=
  old ← zoom l_c (fun c l => Lock c (l_s l)) (atomic_add (-1));
  if old <=? 0 then _ ← zoom l_s (fun s l => Lock (l_c l) s) acquire_sem; mret tt else mret tt.

Definition UNLOCK : M lock unit :=
  old ← zoom l_c (fun c l => Lock c (l_s l)) (atomic_add 1);
  if old <? 0 then _ ← zoom l_s (fun s l => Lock (l_c l) s) release_sem; mret tt else mret tt.

(** A lock of several units. *)
Record mlock := MLock { ml_s : sem_id }.

Definition new_mlock (c : Z) : M host (Z * mlock) :=
  s ← create_sem c;
  mret (0, MLock s).

Definition free_mlock (l : mlock) : M host Z := _ ← delete_sem (ml_s l); mret 0.

Definition LOCKM (cnt : Z) : M mlock Z := zoom ml_s (fun s _ => MLock s) (acquire_sem_etc cnt).
Definition UNLOCKM (cnt : Z) : M mlock Z := zoom ml_s (fun s _ => MLock s) (release_sem_etc cnt).

Lemma len_junk n h : wp (junk n) (fun d h' => h' = h /\ (0 <= n -> len d = n)) h.
Proof.
  unfold junk. apply wp_gets. split; [done|]. intros Hn. unfold len.
  rewrite length_take, length_app, length_replicate. lia.
Qed.

Lemma malloc_wp n h :
  no_oom h ->
  wp (malloc n) (fun p h' => p = Some (h_brk h) /\ no_oom h' /\ h_time h' = h_time h /\
      h_uid h' = h_uid h /\ h_gid h' = h_gid h /\ h_junk h' = h_junk h) h.
Proof. intros E. unfold wp, malloc, no_oom in *. by rewrite E. Qed.

(** Taking a free lock and giving it back. *)
Lemma LOCK_wp l : l_c l = 1 -> wp LOCK (fun _ l' => l' = Lock 0 (l_s l)) l.
Proof. destruct l as [c sm]. cbn. intros ->. done. Qed.
Lemma UNLOCK_wp l : l_c l = 0 -> wp UNLOCK (fun _ l' => l' = Lock 1 (l_s l)) l.
Proof. destruct l as [c sm]. cbn. intros ->. done. Qed.
