(* ===== verification/BlockCache.v ===== *)
(** * BlockCache: what the file system relies on of the block cache

    myfs reads and writes its device through the block cache (cache.c) and,
    for the super block, through [read_pos] and [write_pos] (sysdep.c).  This
    file states that service as a class: the operations, and laws over an
    abstract view of a device.  Every theorem about myfs is proved against
    the class. *)

From stdpp Require Export gmultiset.
From S2P Require Import Prelude Bytes.
Local Open Scope Z_scope.

(** The pointer [get_block] returns: the data of the cached copy of block
    [p_bnum] of device [p_dev]. *)
Record bptr := BPtr { p_dev : Z; p_bnum : Z }.

(** ** Operations *)
Class BlockCache (C : Type) := {
  get_block : Z -> Z -> Z -> M C (option bptr);
  get_empty_block : Z -> Z -> Z -> M C (option bptr);
  release_block : Z -> Z -> M C Z;
  mark_blocks_dirty : Z -> Z -> Z -> M C Z;
  cached_read : Z -> Z -> Z -> Z -> M C (Z * list byte);
  cached_write : Z -> Z -> list byte -> Z -> Z -> M C Z;
  (** Access to the cached copy through the pointer. *)
  load : bptr -> M C (list byte);
  store : bptr -> list byte -> M C unit;
  init_cache_for_device : Z -> Z -> M C Z;
  remove_cached_device_blocks : Z -> Z -> M C Z;
  (** sysdep.c, below the cache. *)
  read_pos : Z -> Z -> Z -> M C (Z * list byte);
  write_pos : Z -> Z -> list byte -> M C Z;
  (** open(2), close(2) and the [st_size] of fstat(2) on the device. *)
  dev_open : list byte -> M C Z;
  dev_close : Z -> M C Z;
  dev_size : Z -> M C Z;
}.

(** ** The view of a device with blocks of one size

    [v_data]: the contents a reader of the cache sees, per block;
    [v_pins]: the blocks handed out by [get_block] and not yet released;
    [v_unsaved]: blocks changed through a pointer and not yet marked dirty,
    whose change is lost if they are released as they are;
    [v_low]: the lowest block number that can be in the cache, so that a raw
    write below it cannot be shadowed by a stale cached copy. *)
Record bview := BView {
  v_data : gmap Z (list byte);
  v_pins : gmultiset Z;
  v_unsaved : gset Z;
  v_low : Z;
}.

(** The contents of [n] consecutive blocks, and their replacement. *)
Fixpoint blocks_at (data : gmap Z (list byte)) (b : Z) (n : nat) : option (list byte) :=
  match n with
  | O => Some []
  | Datatypes.S n => d ← data !! b; r ← blocks_at data (b + 1) n; Some (d ++ r)
  end.

Fixpoint put_blocks (bsize : Z) (b : Z) (n : nat) (d : list byte)
    (data : gmap Z (list byte)) : gmap Z (list byte) :=
  match n with
  | O => data
  | Datatypes.S n =>
      put_blocks bsize (b + 1) n (drop (Z.to_nat bsize) d)
        (<[b := take (Z.to_nat bsize) d]> data)
  end.

(** How many blocks the program may hold at a time. *)
Definition MAX_PINS : nat := 8.

(** ** Laws

    [cache_ok c dev bsize]: the cache is set up for [dev] with blocks of
    [bsize] bytes and the device answers. *)
Class BlockCacheLaws (C : Type) `{BlockCache C} := {
  cache_ok : C -> Z -> Z -> Prop;
  cview : C -> Z -> Z -> bview;

  cache_block_len c dev bsize b d :
    cache_ok c dev bsize -> v_data (cview c dev bsize) !! b = Some d -> len d = bsize;

  get_block_law c dev bsize b :
    cache_ok c dev bsize -> is_Some (v_data (cview c dev bsize) !! b) ->
    (size (v_pins (cview c dev bsize)) < MAX_PINS)%nat ->
    wp (get_block dev b bsize) (fun r c' => r = Some (BPtr dev b) /\ cache_ok c' dev bsize /\
      let v := cview c dev bsize in let v' := cview c' dev bsize in
      v_data v' = v_data v /\ v_pins v' = v_pins v ⊎ {[+ b +]} /\
      v_unsaved v' ⊆ v_unsaved v /\ Z.min b (v_low v) <= v_low v') c;

  get_empty_block_law c dev bsize b :
    cache_ok c dev bsize -> is_Some (v_data (cview c dev bsize) !! b) ->
    (size (v_pins (cview c dev bsize)) < MAX_PINS)%nat ->
    wp (get_empty_block dev b bsize) (fun r c' => r = Some (BPtr dev b) /\ cache_ok c' dev bsize /\
      let v := cview c dev bsize in let v' := cview c' dev bsize in
      v_data v' = <[b := replicate (Z.to_nat bsize) x00]> (v_data v) /\
      v_pins v' = v_pins v ⊎ {[+ b +]} /\
      v_unsaved v' ⊆ v_unsaved v /\ Z.min b (v_low v) <= v_low v') c;

  release_block_law c dev bsize b :
    cache_ok c dev bsize -> b ∈ v_pins (cview c dev bsize) ->
    b ∉ v_unsaved (cview c dev bsize) ->
    wp (release_block dev b) (fun r c' => r = 0 /\ cache_ok c' dev bsize /\
      let v := cview c dev bsize in let v' := cview c' dev bsize in
      v_data v' = v_data v /\ v_pins v' = v_pins v ∖ {[+ b +]} /\
      v_unsaved v' ⊆ v_unsaved v /\ v_low v <= v_low v') c;

  mark_dirty_law c dev bsize b :
    cache_ok c dev bsize -> b ∈ v_pins (cview c dev bsize) ->
    wp (mark_blocks_dirty dev b 1) (fun r c' => r = 0 /\ cache_ok c' dev bsize /\
      let v := cview c dev bsize in let v' := cview c' dev bsize in
      v_data v' = v_data v /\ v_pins v' = v_pins v /\
      v_unsaved v' ⊆ v_unsaved v ∖ {[b]} /\ v_low v <= v_low v') c;

  load_law c dev bsize b d :
    cache_ok c dev bsize -> b ∈ v_pins (cview c dev bsize) ->
    v_data (cview c dev bsize) !! b = Some d ->
    wp (load (BPtr dev b)) (fun r c' => r = d /\ c' = c) c;

  store_law c dev bsize b d :
    cache_ok c dev bsize -> b ∈ v_pins (cview c dev bsize) -> len d = bsize ->
    wp (store (BPtr dev b) d) (fun _ c' => cache_ok c' dev bsize /\
      let v := cview c dev bsize in let v' := cview c' dev bsize in
      v_data v' = <[b := d]> (v_data v) /\ v_pins v' = v_pins v /\
      v_unsaved v' ⊆ v_unsaved v ∪ {[b]} /\ v_low v <= v_low v') c;

  cached_read_law c dev bsize b n d :
    cache_ok c dev bsize -> 0 < n -> (size (v_pins (cview c dev bsize)) <= MAX_PINS)%nat ->
    blocks_at (v_data (cview c dev bsize)) b (Z.to_nat n) = Some d ->
    wp (cached_read dev b n bsize) (fun r c' => r = (0, d) /\ cache_ok c' dev bsize /\
      let v := cview c dev bsize in let v' := cview c' dev bsize in
      v_data v' = v_data v /\ v_pins v' = v_pins v /\
      v_unsaved v' ⊆ v_unsaved v /\ Z.min b (v_low v) <= v_low v') c;

  cached_write_law c dev bsize b d n :
    cache_ok c dev bsize -> 0 < n -> (size (v_pins (cview c dev bsize)) <= MAX_PINS)%nat ->
    is_Some (blocks_at (v_data (cview c dev bsize)) b (Z.to_nat n)) -> len d = n * bsize ->
    wp (cached_write dev b d n bsize) (fun r c' => r = 0 /\ cache_ok c' dev bsize /\
      let v := cview c dev bsize in let v' := cview c' dev bsize in
      v_data v' = put_blocks bsize b (Z.to_nat n) d (v_data v) /\ v_pins v' = v_pins v /\
      v_unsaved v' ⊆ v_unsaved v /\ Z.min b (v_low v) <= v_low v') c;

  (** A raw write of one block that cannot be in the cache. *)
  write_pos_law c dev bsize b d :
    cache_ok c dev bsize -> 0 <= b < v_low (cview c dev bsize) ->
    is_Some (v_data (cview c dev bsize) !! b) -> len d = bsize ->
    wp (write_pos dev (b * bsize) d) (fun r c' => r = bsize /\ cache_ok c' dev bsize /\
      let v := cview c dev bsize in let v' := cview c' dev bsize in
      v_data v' = <[b := d]> (v_data v) /\ v_pins v' = v_pins v /\
      v_unsaved v' ⊆ v_unsaved v /\ v_low v <= v_low v') c;
}.
