(* ===== verification/Device.v ===== *)
(** * Device: positioned transfers on a device (sysdep.c)

    The system-dependent layer over POSIX files.  An open file is its contents
    and its offset; [os_fail] says which of the next transfers fail ([true] =
    the call answers -1; past the end of the list none does).  A file is a
    regular file: a read stops at its end, a write past its end extends it. *)

From S2P Require Import Prelude Bytes Host.
Local Open Scope Z_scope.

Record ofile := OFile { f_off : Z; f_data : list byte }.

Record os := OS {
  os_files : gmap Z ofile;
  os_fail : list bool;
  os_usec : Z;             (** the clock of [gettimeofday], in microseconds *)
}.

(** ** POSIX calls *)

Definition set_file (fd : Z) (f : ofile) (o : os) : os :=
  OS (<[fd := f]> (os_files o)) (os_fail o) (os_usec o).

Definition lseek_set (fd pos : Z) : M os Z :=
  o ← get;
  match os_files o !! fd with
  | Some f => if pos <? 0 then mret (-1)
              else _ ← modify (set_file fd (OFile pos (f_data f))); mret pos
  | None => mret (-1)
  end.

(** Whether the next transfer fails. *)
Definition transfer_fails : M os bool := fun o =>
  match os_fail o with
  | b :: t => Done (b, OS (os_files o) t (os_usec o))
  | [] => Done (false, o)
  end.

Definition sys_read (fd n : Z) : M os (Z * list byte) :=
  o ← get;
  match os_files o !! fd with
  | None => mret (-1, [])
  | Some f =>
      bad ← transfer_fails;
      if (bad : bool) then mret (-1, []) else
      let d := slice (f_off f) n (f_data f) in
      _ ← modify (set_file fd (OFile (f_off f + len d) (f_data f)));
      mret (len d, d)
  end.

(** The contents after writing [d] at [off]; a gap reads as zeros. *)
Definition file_after (off : Z) (d l : list byte) : list byte :=
  splice off d (l ++ replicate (Z.to_nat (off - len l)) x00).

Definition sys_write (fd : Z) (d : list byte) : M os Z :=
  o ← get;
  match os_files o !! fd with
  | None => mret (-1)
  | Some f =>
      bad ← transfer_fails;
      if (bad : bool) then mret (-1) else
      _ ← modify (set_file fd (OFile (f_off f + len d) (file_after (f_off f) d (f_data f))));
      mret (len d)
  end.

(** ** sysdep.c *)

Definition device_is_read_only (device : list byte) : M os Z := mret 0.
Definition device_is_removeable (fd : Z) : M os Z := mret 0.
Definition lock_removeable_device (fd : Z) (on_or_off : bool) : M os Z := mret 0.

(** The result and the bytes the buffer receives. *)
Definition read_pos (fd pos nbytes : Z) : M os (Z * list byte) :=
  r ← lseek_set fd pos;
  if r <? 0 then mret (EINVAL, []) else
  '(ret, d) ← sys_read fd nbytes;
  if negb (ret =? nbytes) then mret (-1, d) else mret (ret, d).

Definition write_pos (fd pos : Z) (data : list byte) : M os Z :=
  r ← lseek_set fd pos;
  if r <? 0 then mret EINVAL else
  ret ← sys_write fd data;
  if negb (ret =? len data) then mret (-1) else mret ret.

Definition MAX_IOV : Z := 8192.

(** The loops over the vector: [n] of its elements a call.  A failed call
    still adds its -1 to [amt]. *)
Fixpoint readv_loop (fuel : nat) (fd : Z) (lens : list Z) (amt : Z) (acc : list byte)
  : M os (Z * list byte) :=
  match lens, fuel with
  | [], _ => mret (amt, acc)
  | _, O => hang
  | _, S fuel =>
      let n := if MAX_IOV <? len lens then MAX_IOV else len lens in
      '(ret, d) ← sys_read fd (foldr Z.add 0 (take (Z.to_nat n) lens));
      let amt := amt + ret in
      if ret <? 0 then mret (amt, acc ++ d)
      else readv_loop fuel fd (drop (Z.to_nat n) lens) amt (acc ++ d)
  end.

(** The vector is the list of its lengths; the bytes read fill its buffers in
    order. *)
Definition readv_pos (fd pos : Z) (lens : list Z) : M os (Z * list byte) :=
  r ← lseek_set fd pos;
  if r <? 0 then mret (EINVAL, []) else
  readv_loop (length lens) fd lens 0 [].

Fixpoint writev_loop (fuel : nat) (fd : Z) (iov : list (list byte)) (amt : Z) : M os Z :=
  match iov, fuel with
  | [], _ => mret amt
  | _, O => hang
  | _, S fuel =>
      let n := if MAX_IOV <? len iov then MAX_IOV else len iov in
      ret ← sys_write fd (mjoin (take (Z.to_nat n) iov));
      let amt := amt + ret in
      if ret <? 0 then mret amt
      else writev_loop fuel fd (drop (Z.to_nat n) iov) amt
  end.

(** The vector is the list of its buffers' contents. *)
Definition writev_pos (fd pos : Z) (iov : list (list byte)) : M os Z :=
  r ← lseek_set fd pos;
  if r <? 0 then mret EINVAL else
  writev_loop (length iov) fd iov 0.

Definition system_time : M os Z := gets os_usec.

(** ** Transfers within a file that answers *)

Lemma set_file_twice fd f f' o : set_file fd f' (set_file fd f o) = set_file fd f' o.
Proof. unfold set_file. cbn. by rewrite insert_insert_eq. Qed.

Lemma lseek_set_wp fd pos o f :
  os_files o !! fd = Some f -> 0 <= pos ->
  wp (lseek_set fd pos) (fun r o' => r = pos /\ o' = set_file fd (OFile pos (f_data f)) o) o.
Proof.
  intros Hf Hp. unfold lseek_set. wp_step. wp_step. rewrite Hf.
  replace (pos <? 0) with false by (symmetry; apply Z.ltb_ge; lia). by wp_steps.
Qed.

Lemma sys_read_wp fd n o f :
  os_files o !! fd = Some f -> os_fail o = [] ->
  wp (sys_read fd n) (fun r o' => let d := slice (f_off f) n (f_data f) in
    r = (len d, d) /\ o' = set_file fd (OFile (f_off f + len d) (f_data f)) o) o.
Proof.
  intros Hf Hno. unfold sys_read. wp_step. wp_step. rewrite Hf. wp_step.
  unfold wp at 1, transfer_fails. rewrite Hno. by wp_steps.
Qed.

Lemma sys_write_wp fd d o f :
  os_files o !! fd = Some f -> os_fail o = [] ->
  wp (sys_write fd d) (fun r o' => r = len d /\
    o' = set_file fd (OFile (f_off f + len d) (file_after (f_off f) d (f_data f))) o) o.
Proof.
  intros Hf Hno. unfold sys_write. wp_step. wp_step. rewrite Hf. wp_step.
  unfold wp at 1, transfer_fails. rewrite Hno. by wp_steps.
Qed.

Lemma read_pos_wp fd pos n o f :
  os_files o !! fd = Some f -> os_fail o = [] -> 0 <= pos -> 0 <= n -> pos + n <= len (f_data f) ->
  wp (read_pos fd pos n) (fun r o' => r = (n, slice pos n (f_data f)) /\
    exists off, o' = set_file fd (OFile off (f_data f)) o) o.
Proof.
  intros Hf Hno Hp Hn Hl. unfold read_pos. wp_step. eapply wp_mono; [by apply lseek_set_wp|].
  intros r o' [-> ->]. replace (pos <? 0) with false by (symmetry; apply Z.ltb_ge; lia).
  wp_step. eapply wp_mono; [apply sys_read_wp; [apply lookup_insert_eq|done]|].
  intros r o' [-> ->]. cbn [f_off f_data]. rewrite len_slice by lia. rewrite Z.eqb_refl. cbn [negb].
  wp_step. split; [done|]. eexists. apply set_file_twice.
Qed.

Lemma write_pos_wp fd pos d o f :
  os_files o !! fd = Some f -> os_fail o = [] -> 0 <= pos ->
  wp (write_pos fd pos d) (fun r o' => r = len d /\
    exists off, o' = set_file fd (OFile off (file_after pos d (f_data f))) o) o.
Proof.
  intros Hf Hno Hp. unfold write_pos. wp_step. eapply wp_mono; [by apply lseek_set_wp|].
  intros r o' [-> ->]. replace (pos <? 0) with false by (symmetry; apply Z.ltb_ge; lia).
  wp_step. eapply wp_mono; [apply sys_write_wp; [apply lookup_insert_eq|done]|].
  intros r o' [-> ->]. cbn [f_off f_data]. rewrite Z.eqb_refl. cbn [negb].
  wp_step. split; [done|]. eexists. apply set_file_twice.
Qed.

(** Vectors of at most [MAX_IOV] buffers go in one call. *)
Lemma readv_pos_wp fd pos lens o f :
  os_files o !! fd = Some f -> os_fail o = [] -> 0 <= pos -> lens <> [] -> len lens <= MAX_IOV ->
  0 <= foldr Z.add 0 lens -> pos + foldr Z.add 0 lens <= len (f_data f) ->
  wp (readv_pos fd pos lens) (fun r o' =>
    r = (foldr Z.add 0 lens, slice pos (foldr Z.add 0 lens) (f_data f)) /\
    exists off, o' = set_file fd (OFile off (f_data f)) o) o.
Proof.
  intros Hf Hno Hp Hne Hl Hs Hd. unfold readv_pos. wp_step. eapply wp_mono; [by apply lseek_set_wp|].
  intros r o' [-> ->]. replace (pos <? 0) with false by (symmetry; apply Z.ltb_ge; lia).
  destruct lens as [|x lens]; [done|]. cbn [length readv_loop].
  replace (MAX_IOV <? len (x :: lens)) with false by (symmetry; apply Z.ltb_ge; lia).
  rewrite take_ge, drop_ge by (unfold len; lia). wp_step.
  eapply wp_mono; [apply sys_read_wp; [apply lookup_insert_eq|done]|].
  intros r o' [-> ->]. cbn [f_off f_data]. rewrite len_slice by lia.
  replace (foldr Z.add 0 (x :: lens) <? 0) with false by (symmetry; apply Z.ltb_ge; lia).
  unfold readv_loop. destruct (length lens); wp_step; (split; [done|]; eexists; apply set_file_twice).
Qed.

Lemma writev_pos_wp fd pos iov o f :
  os_files o !! fd = Some f -> os_fail o = [] -> 0 <= pos -> iov <> [] -> len iov <= MAX_IOV ->
  wp (writev_pos fd pos iov) (fun r o' => r = len (mjoin iov) /\
    exists off, o' = set_file fd (OFile off (file_after pos (mjoin iov) (f_data f))) o) o.
Proof.
  intros Hf Hno Hp Hne Hl. unfold writev_pos. wp_step. eapply wp_mono; [by apply lseek_set_wp|].
  intros r o' [-> ->]. replace (pos <? 0) with false by (symmetry; apply Z.ltb_ge; lia).
  destruct iov as [|x iov]; [done|]. cbn [length writev_loop].
  replace (MAX_IOV <? len (x :: iov)) with false by (symmetry; apply Z.ltb_ge; lia).
  rewrite take_ge, drop_ge by (unfold len; lia). wp_step.
  eapply wp_mono; [apply sys_write_wp; [apply lookup_insert_eq|done]|].
  intros r o' [-> ->]. cbn [f_off f_data].
  replace (len (mjoin (x :: iov)) <? 0) with false by (symmetry; apply Z.ltb_ge; apply len_nonneg).
  unfold writev_loop. destruct (length iov); wp_step; (split; [done|]; eexists; apply set_file_twice).
Qed.
