(* ===== verification/HashTable.v ===== *)
(** * HashTable: the hash table of the block cache (cache.c)

    Chained buckets, found by the low bits of the hash of a device and a block
    number, that double when they are three quarters full.  The nodes of a
    chain are private to the table and belong to one chain, so a chain is a
    list of nodes.  The data of a node is a pointer to a cache entry. *)

From S2P Require Import Prelude Bytes Host.
Local Open Scope Z_scope.

Record hash_ent := HashEnt {
  he_dev : Z;
  he_bnum : Z;
  he_hash_val : Z;
  he_data : Z;
}.

(** [table] is empty when it is the NULL pointer. *)
Record hash_table := HT {
  table : list (list hash_ent);
  ht_max : Z;
  ht_mask : Z;
  num_elements : Z;
}.

Definition HT_DEFAULT_MAX : Z := 128.

Definition set_table t (h : hash_table) := HT t (ht_max h) (ht_mask h) (num_elements h).
Definition set_num_elements n (h : hash_table) := HT (table h) (ht_max h) (ht_mask h) n.

(** The table and the allocator. *)
Abbreviation HM := (M (hash_table * host)).
Definition the_table : HM hash_table := gets fst.
Definition upd_table (f : hash_table -> hash_table) : HM unit := modify (fun s => (f s.1, s.2)).
Definition ht_malloc (n : Z) : HM (option Z) := zoom snd (fun h s => (s.1, h)) (malloc n).

Definition init_hash_table : HM Z :=
  _ ← upd_table (fun _ => HT [] HT_DEFAULT_MAX (HT_DEFAULT_MAX - 1) 0);
  t ← ht_malloc (HT_DEFAULT_MAX * 8);
  match t with
  | None => mret ENOMEM
  | Some _ => _ ← upd_table (set_table (replicate (Z.to_nat HT_DEFAULT_MAX) [])); mret 0
  end.

(** Frees every node; with no table and [max] positive it reads through NULL. *)
Definition shutdown_hash_table : HM unit :=
  h ← the_table;
  if (0 <? ht_max h) && (len (table h) =? 0) then fault else
  upd_table (set_table []).

Definition HASH (d b : Z) : Z := i64 (Z.lor (Z.shiftl d 58) b).

Definition new_hash_ent (dev bnum data : Z) : HM (option hash_ent) :=
  p ← ht_malloc 40;
  match p with
  | None => mret None
  | Some _ => mret (Some (HashEnt dev bnum (HASH dev bnum) data))
  end.

(** One node pushed on the chain of its hash in the new table. *)
Definition rehash (newmask : Z) (t : list (list hash_ent)) (he : hash_ent) : option (list (list hash_ent)) :=
  let h := Z.to_nat (Z.land (he_hash_val he) newmask) in
  c ← t !! h; Some (<[h := he :: c]> t).

Fixpoint rehash_chain (newmask : Z) (c : list hash_ent) (t : list (list hash_ent))
  : option (list (list hash_ent)) :=
  match c with
  | [] => Some t
  | he :: c => t ← rehash newmask t he; rehash_chain newmask c t
  end.

Fixpoint rehash_table (newmask : Z) (old t : list (list hash_ent)) : option (list (list hash_ent)) :=
  match old with
  | [] => Some t
  | c :: old => t ← rehash_chain newmask c t; rehash_table newmask old t
  end.

(** [calloc] of [n] pointers: a negative [n] is more than a [size_t]
    can count in bytes. *)
Definition ht_calloc (n : Z) : HM (option Z) := if n <? 0 then mret None else ht_malloc (n * 8).

Definition grow_hash_table : HM Z :=
  h ← the_table;
  let newsize := i32 (ht_max h * 2) in
  let newmask := i32 (newsize - 1) in
  t ← ht_calloc newsize;
  match t with
  | None => mret ENOMEM
  | Some _ =>
      t ← opt (rehash_table newmask (table h) (replicate (Z.to_nat newsize) []));
      _ ← upd_table (fun h => HT t newsize newmask (num_elements h));
      mret 0
  end.

Definition he_is (dev bnum : Z) (he : hash_ent) : bool := (he_dev he =? dev) && (he_bnum he =? bnum).

Definition chain_index (h : hash_table) (dev bnum : Z) : nat := Z.to_nat (Z.land (HASH dev bnum) (ht_mask h)).

(** The first node of a chain for the block. *)
Fixpoint find_chain (dev bnum : Z) (c : list hash_ent) : option hash_ent :=
  match c with
  | [] => None
  | he :: c => if he_is dev bnum he then Some he else find_chain dev bnum c
  end.

Definition hash_insert (dev bnum data : Z) : HM Z :=
  h ← the_table;
  let i := chain_index h dev bnum in
  c ← opt (table h !! i);
  match find_chain dev bnum c with
  | Some _ => mret EEXIST
  | None =>
      he ← new_hash_ent dev bnum data;
      match he with
      | None => mret ENOMEM
      | Some he =>
          _ ← upd_table (set_table (<[i := he :: c]> (table h)));
          _ ← upd_table (fun h => set_num_elements (i32 (num_elements h + 1)) h);
          h ← the_table;
          if num_elements h >=? Z.quot (i32 (ht_max h * 3)) 4 then
            r ← grow_hash_table;
            if negb (r =? 0) then mret ENOMEM else mret 0
          else mret 0
      end
  end.

Definition hash_lookup (dev bnum : Z) : M hash_table (option Z) :=
  h ← get;
  c ← opt (table h !! chain_index h dev bnum);
  mret (he_data <$> find_chain dev bnum c).

(** A chain without its first node for the block, and that node. *)
Fixpoint unlink_chain (dev bnum : Z) (c : list hash_ent) : option (hash_ent * list hash_ent) :=
  match c with
  | [] => None
  | he :: c =>
      if he_is dev bnum he then Some (he, c)
      else '(x, c) ← unlink_chain dev bnum c; Some (x, he :: c)
  end.

Definition hash_delete (dev bnum : Z) : M hash_table (option Z) :=
  h ← get;
  let i := chain_index h dev bnum in
  c ← opt (table h !! i);
  match unlink_chain dev bnum c with
  | None => mret None
  | Some (he, c) =>
      _ ← modify (fun h => set_num_elements (i32 (num_elements h - 1)) (set_table (<[i := c]> (table h)) h));
      mret (Some (he_data he))
  end.

(** ** The map a table stands for *)

Definition he_kv (he : hash_ent) : (Z * Z) * Z := ((he_dev he, he_bnum he), he_data he).

(** Each node sits in the chain of its hash, and the nodes are exactly the
    bindings of [m]; the size of the table is a power of two and an [int]. *)
Record ht_ok (h : hash_table) (m : gmap (Z * Z) Z) : Prop := {
  ok_max : exists k, 0 <= k <= 30 /\ ht_max h = 2 ^ k;
  ok_mask : ht_mask h = ht_max h - 1;
  ok_len : len (table h) = ht_max h;
  ok_hash : forall i c he, table h !! i = Some c -> he ∈ c ->
    he_hash_val he = HASH (he_dev he) (he_bnum he) /\ i = Z.to_nat (Z.land (he_hash_val he) (ht_mask h));
  ok_perm : map_to_list m ≡ₚ he_kv <$> mjoin (table h);
  ok_num : num_elements h = i32 (Z.of_nat (size m));
}.

(** Room for one more: the table is below the size that cannot be doubled, and
    will stay so. *)
Definition MAX_NODES : Z := 3 * 2 ^ 27.
Definition roomy (h : hash_table) (m : gmap (Z * Z) Z) : Prop := ht_max h <= 2 ^ 29 /\ Z.of_nat (size m) + 1 < MAX_NODES.

Lemma pow2_int k : 0 <= k <= 30 -> 1 <= 2 ^ k <= 2 ^ 30.
Proof. intros Hk. split; [apply (Z.pow_le_mono_r 2 0 k); lia|apply Z.pow_le_mono_r; lia]. Qed.

Lemma i32_add_l a b : i32 (i32 a + b) = i32 (a + b).
Proof.
  unfold i32, swrap. f_equal. change (2 ^ (32 - 1)) with (2 ^ 31).
  replace ((a + 2 ^ 31) mod 2 ^ 32 - 2 ^ 31 + b + 2 ^ 31) with ((a + 2 ^ 31) mod 2 ^ 32 + b) by lia.
  rewrite Zplus_mod_idemp_l. f_equal. lia.
Qed.

Lemma land_mask_range x k : 0 <= k -> 0 <= Z.land x (2 ^ k - 1) < 2 ^ k.
Proof.
  intros Hk. replace (2 ^ k - 1) with (Z.ones k) by (rewrite Z.ones_equiv; lia).
  rewrite Z.land_ones by done. apply Z.mod_pos_bound. pose proof (Z.pow_pos_nonneg 2 k). lia.
Qed.

Lemma ht_index_lt h m x : ht_ok h m -> (Z.to_nat (Z.land x (ht_mask h)) < length (table h))%nat.
Proof.
  intros [(k & [Hk _] & Em) Ek El _ _ _]. rewrite Ek, Em. rewrite Em in El. unfold len in El.
  pose proof (land_mask_range x k Hk). lia.
Qed.

Lemma ht_chain h m d b : ht_ok h m -> exists c, table h !! chain_index h d b = Some c.
Proof. intros Hok. apply lookup_lt_is_Some_2, (ht_index_lt h m). done. Qed.

Lemma mjoin_lookup_perm {A} (t : list (list A)) i c c' :
  t !! i = Some c ->
  exists r, mjoin t ≡ₚ c ++ r /\ mjoin (<[i := c']> t) ≡ₚ c' ++ r.
Proof.
  revert i. induction t as [|x t IH]; intros [|i] E; try done.
  - cbn in E. injection E as ->. by exists (mjoin t).
  - destruct (IH i E) as (r & E1 & E2). exists (x ++ r). cbn.
    change (mjoin (x :: t)) with (x ++ mjoin t).
    change (mjoin (x :: <[i := c']> t)) with (x ++ mjoin (<[i := c']> t)).
    rewrite E1, E2. split; solve_Permutation.
Qed.

Lemma he_is_spec d b he : he_is d b he = true <-> (he_dev he, he_bnum he) = (d, b).
Proof.
  unfold he_is. rewrite andb_true_iff, !Z.eqb_eq. split; [by intros [-> ->]|by intros [= -> ->]].
Qed.

Lemma find_chain_spec d b c :
  match find_chain d b c with
  | Some he => he ∈ c /\ (he_dev he, he_bnum he) = (d, b)
  | None => forall he, he ∈ c -> (he_dev he, he_bnum he) <> (d, b)
  end.
Proof.
  induction c as [|x c IH]; cbn; [by intros ? ?%elem_of_nil|].
  destruct (he_is d b x) eqn:E.
  - apply he_is_spec in E. split; [apply elem_of_cons; by left|done].
  - assert ((he_dev x, he_bnum x) <> (d, b)) by (rewrite <- he_is_spec; by rewrite E).
    destruct (find_chain d b c) as [he|].
    + destruct IH. split; [apply elem_of_cons; by right|done].
    + intros he [->|?]%elem_of_cons; eauto.
Qed.

Lemma unlink_chain_spec d b c :
  match unlink_chain d b c with
  | Some (he, c') => c ≡ₚ he :: c' /\ (he_dev he, he_bnum he) = (d, b) /\ (forall x, x ∈ c' -> x ∈ c)
  | None => forall he, he ∈ c -> (he_dev he, he_bnum he) <> (d, b)
  end.
Proof.
  induction c as [|x c IH]; cbn; [by intros ? ?%elem_of_nil|].
  destruct (he_is d b x) eqn:E.
  - apply he_is_spec in E. split_and!; [done|done|]. intros y Hy. apply elem_of_cons. by right.
  - assert ((he_dev x, he_bnum x) <> (d, b)) by (rewrite <- he_is_spec; by rewrite E).
    destruct (unlink_chain d b c) as [[he c']|]; cbn.
    + destruct IH as (E1 & E2 & E3). split_and!; [|done|].
      * rewrite E1. constructor.
      * intros y [->|Hy]%elem_of_cons; apply elem_of_cons; auto.
    + intros he [->|?]%elem_of_cons; eauto.
Qed.

(** A binding of the map is a node of the chain its key hashes to. *)
Lemma ht_binding h m d b x c :
  ht_ok h m -> table h !! chain_index h d b = Some c ->
  m !! (d, b) = Some x <-> exists he, he ∈ c /\ (he_dev he, he_bnum he) = (d, b) /\ he_data he = x.
Proof.
  intros Hok Hc. rewrite <- elem_of_map_to_list, (ok_perm h m Hok), list_elem_of_fmap.
  split.
  - intros (he & [= -> -> ->] & (l & Hin & Hl)%list_elem_of_join).
    apply list_elem_of_lookup in Hl as [i Hi]. destruct (ok_hash h m Hok i l he Hi Hin) as [E1 E2].
    rewrite E1 in E2. fold (chain_index h (he_dev he) (he_bnum he)) in E2. subst i.
    assert (l = c) as -> by congruence. by exists he.
  - intros (he & Hin & [= <- <-] & <-). exists he. split; [done|].
    apply list_elem_of_join. exists c. split; [done|]. by apply list_elem_of_lookup_2 in Hc.
Qed.

Lemma ht_find h m d b c :
  ht_ok h m -> table h !! chain_index h d b = Some c ->
  he_data <$> find_chain d b c = m !! (d, b).
Proof.
  intros Hok Hc. pose proof (find_chain_spec d b c) as Hf. destruct (find_chain d b c) as [he|]; cbn.
  - destruct Hf. symmetry. apply (ht_binding h m d b _ c Hok Hc). eauto.
  - symmetry. apply eq_None_not_Some. intros [x (he & Hin & E & _)%(ht_binding h m d b _ c Hok Hc)].
    by apply (Hf he).
Qed.

(** ** Growing *)

(** [t] holds the nodes [l], each in the chain of its hash under [mask]. *)
Definition placed (mask : Z) (t : list (list hash_ent)) (l : list hash_ent) : Prop :=
  mjoin t ≡ₚ l /\
  forall i c he, t !! i = Some c -> he ∈ c -> i = Z.to_nat (Z.land (he_hash_val he) mask).

Lemma rehash_placed k t l he :
  0 <= k -> len t = 2 ^ k -> placed (2 ^ k - 1) t l ->
  exists t', rehash (2 ^ k - 1) t he = Some t' /\ len t' = 2 ^ k /\ placed (2 ^ k - 1) t' (he :: l).
Proof.
  intros Hk Ht [Hp Hi]. unfold rehash. pose proof (land_mask_range (he_hash_val he) k Hk) as Hr.
  set (h := Z.to_nat (Z.land (he_hash_val he) (2 ^ k - 1))) in *.
  destruct (lookup_lt_is_Some_2 t h) as [c Hc]; [unfold len in Ht; lia|].
  cbn. rewrite Hc. cbn. eexists. split; [done|].
  split; [unfold len in *; by rewrite length_insert|]. split.
  - destruct (mjoin_lookup_perm t h c (he :: c) Hc) as (r & E1 & E2). rewrite E2. cbn.
    by rewrite <- Hp, E1.
  - intros i c' x [(<- & <- & _)|[Hne Hl]]%list_lookup_insert_Some Hx; [|by eapply Hi].
    apply elem_of_cons in Hx as [->|Hx]; [done|by eapply Hi].
Qed.

Lemma rehash_chain_placed k c t l :
  0 <= k -> len t = 2 ^ k -> placed (2 ^ k - 1) t l ->
  exists t', rehash_chain (2 ^ k - 1) c t = Some t' /\ len t' = 2 ^ k /\ placed (2 ^ k - 1) t' (c ++ l).
Proof.
  intros Hk. revert t l. induction c as [|he c IH]; intros t l Ht Hp; [by exists t|].
  cbn [rehash_chain]. destruct (rehash_placed k t l he Hk Ht Hp) as (t1 & E & Ht1 & Hp1).
  rewrite E. cbn. destruct (IH t1 (he :: l) Ht1 Hp1) as (t2 & E2 & Ht2 & [Hp2 Hi]).
  exists t2. split; [done|]. split; [done|]. split; [|done]. rewrite Hp2. solve_Permutation.
Qed.

Lemma rehash_table_placed k old t l :
  0 <= k -> len t = 2 ^ k -> placed (2 ^ k - 1) t l ->
  exists t', rehash_table (2 ^ k - 1) old t = Some t' /\ len t' = 2 ^ k /\
    placed (2 ^ k - 1) t' (mjoin old ++ l).
Proof.
  intros Hk. revert t l. induction old as [|c old IH]; intros t l Ht Hp; [by exists t|].
  cbn [rehash_table]. destruct (rehash_chain_placed k c t l Hk Ht Hp) as (t1 & E & Ht1 & Hp1).
  rewrite E. cbn. destruct (IH t1 (c ++ l) Ht1 Hp1) as (t2 & E2 & Ht2 & [Hp2 Hi]).
  exists t2. split; [done|]. split; [done|]. split; [|done]. rewrite Hp2.
  change (mjoin (c :: old)) with (c ++ mjoin old). solve_Permutation.
Qed.

Lemma placed_empty mask n : placed mask (replicate n []) [].
Proof.
  split.
  - induction n as [|n IH]; [done|]. exact IH.
  - intros i c he [-> _]%lookup_replicate_1 ?%elem_of_nil. done.
Qed.

(** ** Operations *)

Lemma init_hash_table_wp s :
  no_oom s.2 -> wp init_hash_table (fun r s' => r = 0 /\ ht_ok s'.1 ∅ /\ ht_max s'.1 = HT_DEFAULT_MAX /\ no_oom s'.2) s.
Proof.
  intros Hh. unfold init_hash_table, ht_malloc, upd_table. wp_steps.
  eapply wp_mono; [by apply malloc_wp|]. intros p h (-> & Hh' & _). wp_steps.
  split; [done|]. split; [|done]. cbn. split; cbn; try done.
  - by exists 7.
  - intros i c he [-> _]%lookup_replicate_1 ?%elem_of_nil. done.
Qed.

(** The nodes of a table, moved to a table of twice the size. *)
Lemma ht_rehash_ok h m :
  ht_ok h m -> ht_max h <= 2 ^ 29 ->
  exists t, rehash_table (ht_max h * 2 - 1) (table h) (replicate (Z.to_nat (ht_max h * 2)) []) = Some t /\
    ht_ok (HT t (ht_max h * 2) (ht_max h * 2 - 1) (num_elements h)) m.
Proof.
  intros Hok Hmax. destruct (ok_max h m Hok) as (k & Hk & Em).
  assert (k <= 29) as Hk29 by (rewrite Em in Hmax; by apply Z.pow_le_mono_r_iff in Hmax).
  replace (ht_max h * 2) with (2 ^ (k + 1)) by (rewrite Em, Z.pow_add_r by lia; lia).
  destruct (rehash_table_placed (k + 1) (table h) (replicate (Z.to_nat (2 ^ (k + 1))) []) [])
    as (t & E & Ht & Hp & Hi); [lia| |apply placed_empty|].
  { rewrite len_replicate. pose proof (Z.pow_pos_nonneg 2 (k + 1)). lia. }
  rewrite app_nil_r in Hp. exists t. split; [done|]. split; cbn; try apply Hok; try done.
  - exists (k + 1). split; [lia|done].
  - intros i c he Hc Hin. split; [|by eapply Hi].
    assert (he ∈ mjoin (table h)) as (l & Hl & Hin')%list_elem_of_join.
    { rewrite <- Hp. apply list_elem_of_join. exists c. split; [done|]. by apply list_elem_of_lookup_2 in Hc. }
    apply list_elem_of_lookup in Hin' as [j Hj]. by destruct (ok_hash h m Hok j l he Hj Hl).
  - rewrite Hp. apply Hok.
Qed.

(** The sizes of a table: it can be doubled, or it is the largest. *)
Lemma ht_sizes h m : ht_ok h m -> 1 <= ht_max h /\ (ht_max h <= 2 ^ 28 \/ ht_max h = 2 ^ 29 \/ ht_max h = 2 ^ 30).
Proof.
  intros Hok. destruct (ok_max h m Hok) as (k & Hk & ->). pose proof (pow2_int k Hk). split; [lia|].
  destruct (decide (k = 30)) as [->|]; [by right; right|]. destruct (decide (k = 29)) as [->|]; [by right; left|].
  left. apply Z.pow_le_mono_r; lia.
Qed.

(** Growing either fails, for lack of memory or for the size, and changes
    nothing, or keeps the map. *)
Lemma grow_wp h m hs :
  ht_ok h m ->
  wp grow_hash_table (fun r s' => (r = ENOMEM /\ s'.1 = h \/ r = 0) /\ ht_ok s'.1 m /\
    (no_oom hs -> no_oom s'.2 /\ (ht_max h <= 2 ^ 29 -> r = 0 /\ ht_max s'.1 = ht_max h * 2)) /\ h_brk hs <= h_brk s'.2) (h, hs).
Proof.
  intros Hok. destruct (ht_sizes h m Hok) as [H1 Hsz]. unfold grow_hash_table, the_table, ht_calloc. wp_step. wp_step. cbn [fst].
  destruct (decide (ht_max h <= 2 ^ 29)) as [Hle|Hgt].
  2: { assert (ht_max h = 2 ^ 30) as -> by lia. change (i32 (2 ^ 30 * 2) <? 0) with true. cbn iota. wp_step. wp_step. wp_step. cbn.
       split; [by left|]. split; [done|]. split; [done|lia]. }
  destruct (ht_rehash_ok h m Hok Hle) as (t & E & Ht).
  rewrite (i32_id (ht_max h * 2)), i32_id by (unfold in_i32; lia). rewrite (proj2 (Z.ltb_ge _ _)) by lia.
  unfold ht_malloc. wp_step. wp_step. unfold wp at 1, malloc; cbn. destruct (h_oom hs) as [|[] oom] eqn:Eo; cbn.
  2: { split; [by left|]. split; [done|]. unfold no_oom. rewrite Eo. split; [done|lia]. }
  all: wp_step; rewrite E; unfold upd_table; wp_steps; split; [by right|]; split; [done|];
    unfold no_oom; cbn; rewrite Eo; split; [done|lia].
Qed.

Lemma ht_insert_ok h m d b x c :
  ht_ok h m -> table h !! chain_index h d b = Some c -> m !! (d, b) = None ->
  ht_ok (set_num_elements (i32 (num_elements h + 1))
          (set_table (<[chain_index h d b := HashEnt d b (HASH d b) x :: c]> (table h)) h))
        (<[(d, b) := x]> m).
Proof.
  intros Hok Hc Hm. split; cbn; try apply Hok.
  - unfold len. rewrite length_insert. apply Hok.
  - intros i c' he [(<- & <- & _)|[Hne Hl]]%list_lookup_insert_Some Hx.
    2: by apply (ok_hash h m Hok i c').
    apply elem_of_cons in Hx as [->|Hx]; [done|]. by apply (ok_hash h m Hok (chain_index h d b) c).
  - rewrite map_to_list_insert by done. rewrite (ok_perm h m Hok).
    destruct (mjoin_lookup_perm (table h) _ c (HashEnt d b (HASH d b) x :: c) Hc) as (r & E1 & E2).
    by rewrite E2, E1.
  - rewrite map_size_insert_None by done. rewrite (ok_num h m Hok), i32_add_l. f_equal. lia.
Qed.

Lemma ht_delete_ok h m d b c he c' :
  ht_ok h m -> table h !! chain_index h d b = Some c -> unlink_chain d b c = Some (he, c') ->
  m !! (d, b) = Some (he_data he) /\
  ht_ok (set_num_elements (i32 (num_elements h - 1)) (set_table (<[chain_index h d b := c']> (table h)) h))
        (delete (d, b) m).
Proof.
  intros Hok Hc Hu. pose proof (unlink_chain_spec d b c) as Hs. rewrite Hu in Hs.
  destruct Hs as (Ep & Ek & Hin).
  assert (m !! (d, b) = Some (he_data he)) as Hm.
  { apply (ht_binding h m d b _ c Hok Hc). exists he. rewrite Ep. split; [apply elem_of_cons; by left|done]. }
  split; [done|]. split; cbn; try apply Hok.
  - unfold len. rewrite length_insert. apply Hok.
  - intros i x y [(<- & <- & _)|[Hne Hl]]%list_lookup_insert_Some Hx.
    + by apply (ok_hash h m Hok (chain_index h d b) c); [|apply Hin].
    + by apply (ok_hash h m Hok i x).
  - apply (Permutation_cons_inv (a := ((d, b), he_data he))).
    rewrite map_to_list_delete by done. rewrite (ok_perm h m Hok).
    destruct (mjoin_lookup_perm (table h) _ c c' Hc) as (r & E1 & E2).
    rewrite E2, E1, Ep. cbn. unfold he_kv at 1. by rewrite Ek.
  - rewrite map_size_delete_Some by (by exists (he_data he)). rewrite (ok_num h m Hok), <- Z.add_opp_r, i32_add_l. f_equal.
    assert (size m <> 0)%nat by (intros E%map_size_empty_inv; by rewrite E, lookup_empty in Hm). lia.
Qed.

Lemma hash_lookup_wp h m d b :
  ht_ok h m -> wp (hash_lookup d b) (fun r h' => r = m !! (d, b) /\ h' = h) h.
Proof.
  intros Hok. destruct (ht_chain h m d b Hok) as [c Hc]. unfold hash_lookup. wp_step. wp_step. wp_step.
  rewrite Hc. wp_steps. split; [by apply (ht_find h m d b)|done].
Qed.

Lemma hash_delete_wp h m d b :
  ht_ok h m -> wp (hash_delete d b) (fun r h' => r = m !! (d, b) /\ ht_ok h' (delete (d, b) m) /\ ht_max h' = ht_max h) h.
Proof.
  intros Hok. destruct (ht_chain h m d b Hok) as [c Hc]. unfold hash_delete. wp_step. wp_step. wp_step.
  rewrite Hc. wp_step. destruct (unlink_chain d b c) as [[he c']|] eqn:E; wp_steps.
  - destruct (ht_delete_ok h m d b c he c' Hok Hc E) as [-> H]. by split_and!.
  - pose proof (unlink_chain_spec d b c) as Hs. rewrite E in Hs.
    assert (m !! (d, b) = None) as Hm.
    { apply eq_None_not_Some. intros [x (he & Hin & Ek & _)%(ht_binding h m d b _ c Hok Hc)]. by apply (Hs he). }
    by rewrite Hm, delete_id by done.
Qed.

(** With memory, and room, an insertion succeeds. *)
Definition inserts (h : hash_table) (hs : host) (m : gmap (Z * Z) Z) (r : Z) (s' : hash_table * host) : Prop :=
  (no_oom hs -> no_oom s'.2 /\ (roomy h m -> r <> ENOMEM /\ ht_max s'.1 <= 2 ^ 29)) /\ h_brk hs <= h_brk s'.2.

(** What is left once the node is in its chain: to grow, or not. *)
Lemma grow_after_wp h h1 m m' hs hs' :
  ht_ok h1 m' -> ht_ok h m -> ht_max h1 = ht_max h -> size m' = S (size m) -> (no_oom hs -> no_oom hs') -> h_brk hs <= h_brk hs' ->
  wp (if num_elements h1 >=? Z.quot (i32 (ht_max h1 * 3)) 4 then
        r ← grow_hash_table; if negb (r =? 0) then mret ENOMEM else mret 0
      else mret 0)
    (fun r s' => (r = 0 \/ r = ENOMEM) /\ ht_ok s'.1 m' /\ inserts h hs m r s') (h1, hs').
Proof.
  intros Hok1 Hok Emax Esz Hh Hbrk. destruct (ht_sizes h m Hok) as [H1 Hs]. apply wp_if; intros Eg.
  - wp_step. eapply wp_mono; [by apply (grow_wp h1 m')|]. intros r s' (Hr & Hok' & Hno & Hbrk').
    assert (roomy h m -> ht_max h1 * 2 <= 2 ^ 29) as Hroom.
    { intros [Hm Hsize]. rewrite (ok_num h1 m' Hok1), Esz, Emax, !i32_id in Eg by (unfold in_i32, MAX_NODES in *; lia). zcases.
      rewrite Emax. destruct (decide (ht_max h = 2 ^ 29)) as [E|]; [|lia]. rewrite E in Eg. change (Z.quot (2 ^ 29 * 3) 4) with MAX_NODES in Eg. lia. }
    assert (roomy h m -> no_oom hs -> r = 0 /\ ht_max s'.1 <= 2 ^ 29) as Hok2.
    { intros Hm Hn. specialize (Hroom Hm). destruct (Hno (Hh Hn)) as [_ H]. destruct H as [-> ->]; [lia|]. done. }
    apply wp_if; intros Er; zcases; wp_step; (split; [auto|]); (split; [done|]); (split; [|lia]).
    all: intros Hn; (split; [by apply Hno, Hh|]); intros Hm; destruct (Hok2 Hm Hn); (split; [|done]); unfold ENOMEM in *; lia.
  - wp_step. split; [by left|]. split; [done|]. split; [|done]. intros Hn. split; [by apply Hh|]. intros [Hm _]. cbn [fst]. rewrite Emax. done.
Qed.

Lemma hash_insert_wp h m d b x hs :
  ht_ok h m ->
  wp (hash_insert d b x) (fun r s' =>
    match m !! (d, b) with
    | Some _ => r = EEXIST /\ s' = (h, hs)
    | None => r = 0 /\ ht_ok s'.1 (<[(d, b) := x]> m) \/
              r = ENOMEM /\ (s'.1 = h \/ ht_ok s'.1 (<[(d, b) := x]> m))
    end /\ inserts h hs m r s') (h, hs).
Proof.
  intros Hok. destruct (ht_chain h m d b Hok) as [c Hc]. unfold hash_insert, the_table, new_hash_ent, ht_malloc.
  wp_step. wp_step. wp_step. cbn [fst]. rewrite Hc. wp_step. pose proof (ht_find h m d b c Hok Hc) as Hf.
  destruct (find_chain d b c) as [he|]; cbn in Hf.
  { rewrite <- Hf. wp_steps. cbn. split; [done|]. split; [|done]. intros Hn. split; [done|]. by intros [? _]. }
  rewrite <- Hf. assert (m !! (d, b) = None) as Hm by congruence. pose proof (ht_insert_ok h m d b x c Hok Hc Hm) as Hins.
  wp_step. wp_step. wp_step. unfold wp at 1, malloc; cbn.
  assert (forall hs', (no_oom hs -> no_oom hs') -> h_brk hs <= h_brk hs' ->
    wp (_ ← upd_table (set_table (<[chain_index h d b := HashEnt d b (HASH d b) x :: c]> (table h)));
        _ ← upd_table (fun h => set_num_elements (i32 (num_elements h + 1)) h);
        h ← gets fst;
        if num_elements h >=? Z.quot (i32 (ht_max h * 3)) 4 then
          r ← grow_hash_table; if negb (r =? 0) then mret ENOMEM else mret 0
        else mret 0)
      (fun r s' => (r = 0 /\ ht_ok s'.1 (<[(d, b) := x]> m) \/
         r = ENOMEM /\ (s'.1 = h \/ ht_ok s'.1 (<[(d, b) := x]> m))) /\ inserts h hs m r s') (h, hs')) as Hrest.
  { intros hs' Hh Hbrk. unfold upd_table. do 6 wp_step.
    eapply wp_mono; [eapply (grow_after_wp h _ m (<[(d, b) := x]> m) hs hs'); [exact Hins|done|done|by apply map_size_insert_None|done|done]|].
    cbn beta. intros r s' ([-> | ->] & Hok' & Hi); (split; [|done]); [by left|right]. split; [done|by right]. }
  destruct (h_oom hs) as [|[] oom] eqn:Eo; cbn.
  - apply Hrest; [done|cbn; lia].
  - split; [by right; split; [|left]|]. split; [|cbn; lia]. unfold no_oom. by rewrite Eo.
  - apply Hrest; [|cbn; lia]. unfold no_oom. by rewrite Eo.
Qed.

(** ** Sequences of operations *)

Inductive ht_op :=
  | HInsert (d b x : Z)
  | HLookup (d b : Z)
  | HDelete (d b : Z).

(** What an operation answers: a code, or the data found. *)
Definition ht_do (o : ht_op) : HM (Z + option Z) :=
  match o with
  | HInsert d b x => r ← hash_insert d b x; mret (inl r)
  | HLookup d b => r ← zoom fst (fun h s => (h, s.2)) (hash_lookup d b); mret (inr r)
  | HDelete d b => r ← zoom fst (fun h s => (h, s.2)) (hash_delete d b); mret (inr r)
  end.
Fixpoint ht_run (l : list ht_op) : HM (list (Z + option Z)) :=
  match l with
  | [] => mret []
  | o :: l => r ← ht_do o; rs ← ht_run l; mret (r :: rs)
  end.

(** The same on a map. *)
Definition map_do (o : ht_op) (m : gmap (Z * Z) Z) : (Z + option Z) * gmap (Z * Z) Z :=
  match o with
  | HInsert d b x => match m !! (d, b) with Some _ => (inl EEXIST, m) | None => (inl 0, <[(d, b) := x]> m) end
  | HLookup d b => (inr (m !! (d, b)), m)
  | HDelete d b => (inr (m !! (d, b)), delete (d, b) m)
  end.
Fixpoint map_run (l : list ht_op) (m : gmap (Z * Z) Z) : list (Z + option Z) * gmap (Z * Z) Z :=
  match l with
  | [] => ([], m)
  | o :: l => let '(r, m) := map_do o m in let '(rs, m) := map_run l m in (r :: rs, m)
  end.

(** No more than [n] blocks at any time. *)
Fixpoint stays_within (n : Z) (l : list ht_op) (m : gmap (Z * Z) Z) : Prop :=
  match l with
  | [] => True
  | o :: l => Z.of_nat (size (map_do o m).2) <= n /\ stays_within n l (map_do o m).2
  end.

Lemma map_do_size o m : (size (map_do o m).2 <= S (size m))%nat.
Proof.
  destruct o as [d b x|d b|d b]; cbn; [|lia|].
  - destruct (m !! (d, b)) eqn:E; cbn; [lia|]. rewrite map_size_insert_None by done. lia.
  - destruct (m !! (d, b)) eqn:E; [rewrite map_size_delete_Some by done; lia|]. rewrite delete_id by done. lia.
Qed.

(** A short sequence does. *)
Lemma short_stays n l m : Z.of_nat (size m) + len l <= n -> stays_within n l m.
Proof.
  revert m. induction l as [|o l IH]; intros m Hn; [done|]. rewrite len_cons in Hn. pose proof (len_nonneg l). pose proof (map_do_size o m).
  cbn [stays_within]. split; [lia|]. apply IH. lia.
Qed.

Lemma ht_do_ok o s m :
  ht_ok s.1 m -> ht_max s.1 <= 2 ^ 29 -> no_oom s.2 -> Z.of_nat (size (map_do o m).2) < MAX_NODES ->
  wp (ht_do o) (fun r s' => r = (map_do o m).1 /\ ht_ok s'.1 (map_do o m).2 /\ ht_max s'.1 <= 2 ^ 29 /\ no_oom s'.2) s.
Proof.
  destruct s as [h hs]. cbn [fst snd]. intros Hok Hmax Hno Hsize. destruct o as [d b x|d b|d b]; cbn [ht_do map_do] in *; wp_step.
  - eapply wp_mono; [by apply hash_insert_wp|]. intros r [h' hs'] (Hr & Hn & _). destruct (Hn Hno) as [Hno' Hroom].
    wp_step. cbn [fst snd] in *. destruct (m !! (d, b)) as [y|] eqn:Em; cbn [fst snd] in *.
    + by destruct Hr as [-> [= -> ->]].
    + rewrite map_size_insert_None in Hsize by done. destruct Hroom as [Hne Hmax']; [by split; [|lia]|]. by destruct Hr as [[-> ?]|[? _]].
  - wp_step. eapply wp_mono; [by apply hash_lookup_wp|]. intros r h' [-> ->]. by wp_step.
  - wp_step. eapply wp_mono; [by apply hash_delete_wp|]. intros r h' (-> & ? & Em). wp_step. cbn. by rewrite Em.
Qed.

Lemma ht_run_ok l s m :
  ht_ok s.1 m -> ht_max s.1 <= 2 ^ 29 -> no_oom s.2 -> stays_within (MAX_NODES - 1) l m ->
  wp (ht_run l) (fun rs s' => rs = (map_run l m).1 /\ ht_ok s'.1 (map_run l m).2 /\ no_oom s'.2) s.
Proof.
  revert s m. induction l as [|o l IH]; intros s m Hok Hmax Hno Hst; cbn [ht_run map_run stays_within] in *; [by wp_step|]. destruct Hst as [Hsize Hst].
  wp_step. eapply wp_mono; [apply (ht_do_ok o s m); [done|done|done|lia]|]. intros r s1 (-> & Hok1 & Hmax1 & Hno1). destruct (map_do o m) as [r m1].
  wp_step. eapply wp_mono; [by apply (IH s1 m1)|]. intros rs s2 (-> & Hok2 & Hno2). wp_step. by destruct (map_run l m1) as [rs m2].
Qed.

(** C27. From [init_hash_table] on, with memory to be had, any sequence of
    insertions, look-ups and deletions that never holds [MAX_NODES], that is
    3 * 2^27, blocks at a time answers as a finite map does; doubling the table
    is never seen.  At that many a table of 2^29 chains would double to the
    largest that an [int] can count, which cannot grow. *)
Theorem hash_table_refines_map l s :
  no_oom s.2 -> stays_within (MAX_NODES - 1) l ∅ ->
  wp (_ ← init_hash_table; ht_run l) (fun rs s' => rs = (map_run l ∅).1 /\ ht_ok s'.1 (map_run l ∅).2) s.
Proof.
  intros Hno Hst. wp_step. eapply wp_mono; [by apply init_hash_table_wp|]. intros r s1 (_ & Hok & Hmax & Hno1).
  eapply wp_mono; [apply (ht_run_ok l s1 ∅); [done|rewrite Hmax; unfold HT_DEFAULT_MAX; lia|done|done]|]. by intros rs s2 (-> & ? & _).
Qed.

(** Two hundred insertions, so that the table doubles. *)
Lemma hash_table_refines_map_witness :
  wp (_ ← init_hash_table; ht_run (((fun b => HInsert 3 b (b + 1000)) <$> seqZ 0 200) ++ [HDelete 3 7; HLookup 3 7; HLookup 3 150]))
    (fun rs s' => drop 200 rs = [inr (Some 1007); inr None; inr (Some 1150)] /\ exists m, ht_ok s'.1 m /\ size m = 199%nat)
    (HT [] 0 0 0, Host 0 0 0 4096 [] []).
Proof.
  eapply wp_mono; [apply hash_table_refines_map; [reflexivity|apply short_stays; vm_compute; discriminate]|]. cbv beta. intros rs s' [-> H].
  split; [vm_compute; reflexivity|]. eexists. split; [exact H|]. vm_compute. reflexivity.
Defined.

(** C29. What [hash_insert] leaves when memory may run out: a block that is in
    the table already is refused and nothing changes; ENOMEM comes either with
    the table as it was, or with the block inserted although the caller is told
    that it was not. *)
Theorem hash_insert_outcomes h hs m d b x :
  ht_ok h m ->
  wp (hash_insert d b x) (fun r s' =>
    match m !! (d, b) with
    | Some _ => r = EEXIST /\ s' = (h, hs)
    | None => r = 0 /\ ht_ok s'.1 (<[(d, b) := x]> m) \/
              r = ENOMEM /\ (s'.1 = h \/ ht_ok s'.1 (<[(d, b) := x]> m))
    end) (h, hs).
Proof. intros Hok. eapply wp_mono; [by apply hash_insert_wp|]. by intros r s' [Hr _]. Qed.

(** With no memory for a node. *)
Lemma hash_insert_outcomes_witness :
  wp (hash_insert 3 9 1009) (fun r s' => r = ENOMEM /\ (s'.1 = HT [[]] 1 0 0 \/ ht_ok s'.1 {[(3, 9) := 1009]}))
    (HT [[]] 1 0 0, Host 0 0 0 4096 [true] []).
Proof.
  assert (ht_ok (HT [[]] 1 0 0) ∅) as Hok.
  { split; [exists 0; split; [lia|reflexivity]|reflexivity|reflexivity| |reflexivity|reflexivity].
    intros [|[|i]] c he Hc; [|discriminate Hc|discriminate Hc]. injection Hc as <-. intros Hin%elem_of_nil. destruct Hin. }
  pose proof (hash_insert_outcomes (HT [[]] 1 0 0) (Host 0 0 0 4096 [true] []) ∅ 3 9 1009 Hok) as H.
  vm_compute in H |- *. destruct H as [[? _]|[E H]]; [discriminate|]. split; [exact E|exact H].
Defined.
