(* ===== verification/CacheList.v ===== *)
(** * CacheList: cache entries and the lists that order them (cache.c)

    A cache entry describes one cached block.  Entries live in a store and
    point to each other by address; each is on at most one of two doubly
    linked lists, from the least to the most recently used. *)

From S2P Require Import Prelude Bytes Host.
Local Open Scope Z_scope.

(** The callback [func] is the address of a function; [data] and [clone] are
    addresses of buffers. *)
Record cache_ent := CE {
  ce_dev : Z;
  ce_block_num : Z;
  ce_bsize : Z;
  ce_flags : Z;
  ce_data : option Z;
  ce_clone : option Z;
  ce_lock : Z;
  ce_func : option Z;
  ce_logged_bnum : Z;
  ce_arg : option Z;
  ce_next : option Z;  (** points toward mru end of list *)
  ce_prev : option Z;  (** points toward lru end of list *)
}.

Definition CE_NORMAL : Z := 0.
Definition CE_DIRTY : Z := 2.
Definition CE_BUSY : Z := 4.

Record cache_ent_list := Cel { lru : option Z; mru : option Z }.

Definition ce_set_dev (x : Z) (e : cache_ent) : cache_ent :=
  CE x (ce_block_num e) (ce_bsize e) (ce_flags e) (ce_data e) (ce_clone e) (ce_lock e) (ce_func e) (ce_logged_bnum e) (ce_arg e) (ce_next e) (ce_prev e).
Definition ce_set_block_num (x : Z) (e : cache_ent) : cache_ent :=
  CE (ce_dev e) x (ce_bsize e) (ce_flags e) (ce_data e) (ce_clone e) (ce_lock e) (ce_func e) (ce_logged_bnum e) (ce_arg e) (ce_next e) (ce_prev e).
Definition ce_set_bsize (x : Z) (e : cache_ent) : cache_ent :=
  CE (ce_dev e) (ce_block_num e) x (ce_flags e) (ce_data e) (ce_clone e) (ce_lock e) (ce_func e) (ce_logged_bnum e) (ce_arg e) (ce_next e) (ce_prev e).
Definition ce_set_flags (x : Z) (e : cache_ent) : cache_ent :=
  CE (ce_dev e) (ce_block_num e) (ce_bsize e) x (ce_data e) (ce_clone e) (ce_lock e) (ce_func e) (ce_logged_bnum e) (ce_arg e) (ce_next e) (ce_prev e).
Definition ce_set_data (x : option Z) (e : cache_ent) : cache_ent :=
  CE (ce_dev e) (ce_block_num e) (ce_bsize e) (ce_flags e) x (ce_clone e) (ce_lock e) (ce_func e) (ce_logged_bnum e) (ce_arg e) (ce_next e) (ce_prev e).
Definition ce_set_clone (x : option Z) (e : cache_ent) : cache_ent :=
  CE (ce_dev e) (ce_block_num e) (ce_bsize e) (ce_flags e) (ce_data e) x (ce_lock e) (ce_func e) (ce_logged_bnum e) (ce_arg e) (ce_next e) (ce_prev e).
Definition ce_set_lock (x : Z) (e : cache_ent) : cache_ent :=
  CE (ce_dev e) (ce_block_num e) (ce_bsize e) (ce_flags e) (ce_data e) (ce_clone e) x (ce_func e) (ce_logged_bnum e) (ce_arg e) (ce_next e) (ce_prev e).
Definition ce_set_func (x : option Z) (e : cache_ent) : cache_ent :=
  CE (ce_dev e) (ce_block_num e) (ce_bsize e) (ce_flags e) (ce_data e) (ce_clone e) (ce_lock e) x (ce_logged_bnum e) (ce_arg e) (ce_next e) (ce_prev e).
Definition ce_set_logged_bnum (x : Z) (e : cache_ent) : cache_ent :=
  CE (ce_dev e) (ce_block_num e) (ce_bsize e) (ce_flags e) (ce_data e) (ce_clone e) (ce_lock e) (ce_func e) x (ce_arg e) (ce_next e) (ce_prev e).
Definition ce_set_arg (x : option Z) (e : cache_ent) : cache_ent :=
  CE (ce_dev e) (ce_block_num e) (ce_bsize e) (ce_flags e) (ce_data e) (ce_clone e) (ce_lock e) (ce_func e) (ce_logged_bnum e) x (ce_next e) (ce_prev e).
Definition ce_set_next (x : option Z) (e : cache_ent) : cache_ent :=
  CE (ce_dev e) (ce_block_num e) (ce_bsize e) (ce_flags e) (ce_data e) (ce_clone e) (ce_lock e) (ce_func e) (ce_logged_bnum e) (ce_arg e) x (ce_prev e).
Definition ce_set_prev (x : option Z) (e : cache_ent) : cache_ent :=
  CE (ce_dev e) (ce_block_num e) (ce_bsize e) (ce_flags e) (ce_data e) (ce_clone e) (ce_lock e) (ce_func e) (ce_logged_bnum e) (ce_arg e) (ce_next e) x.

Definition is_dirty (e : cache_ent) : bool := negb (Z.land (ce_flags e) CE_DIRTY =? 0).
Definition is_busy (e : cache_ent) : bool := negb (Z.land (ce_flags e) CE_BUSY =? 0).
Definition or_flags (f : Z) (e : cache_ent) : cache_ent := ce_set_flags (Z.lor (ce_flags e) f) e.
Definition clear_flags (f : Z) (e : cache_ent) : cache_ent := ce_set_flags (Z.land (ce_flags e) (Z.lnot f)) e.

(** ** List operations

    They run over the store of entries and one list. *)
Abbreviation LM := (M (gmap Z cache_ent * cache_ent_list)).

Definition lm_ent (p : Z) : LM cache_ent := s ← get; opt (s.1 !! p).
Definition lm_upd (p : Z) (f : cache_ent -> cache_ent) : LM unit :=
  e ← lm_ent p; modify (fun s => (<[p := f e]> s.1, s.2)).
Definition lm_cel : LM cache_ent_list := gets snd.
Definition set_lru p : LM unit := modify (fun s => (s.1, Cel p (mru s.2))).
Definition set_mru p : LM unit := modify (fun s => (s.1, Cel (lru s.2) p)).

Definition delete_from_list (ce : Z) : LM unit :=
  e ← lm_ent ce;
  _ ← (match ce_next e with Some n => lm_upd n (ce_set_prev (ce_prev e)) | None => mret tt end);
  e ← lm_ent ce;
  _ ← (match ce_prev e with Some p => lm_upd p (ce_set_next (ce_next e)) | None => mret tt end);
  e ← lm_ent ce;
  cel ← lm_cel;
  _ ← (if decide (lru cel = Some ce) then set_lru (ce_next e) else mret tt);
  _ ← (if decide (mru cel = Some ce) then set_mru (ce_prev e) else mret tt);
  _ ← lm_upd ce (ce_set_next None);
  lm_upd ce (ce_set_prev None).

(** An entry that is linked already makes both functions panic. *)
Definition add_to_head (ce : Z) : LM unit :=
  e ← lm_ent ce;
  if bool_decide (is_Some (ce_next e)) || bool_decide (is_Some (ce_prev e)) then hang else
  cel ← lm_cel;
  _ ← lm_upd ce (ce_set_next None);
  _ ← lm_upd ce (ce_set_prev (mru cel));
  _ ← (match mru cel with Some p => lm_upd p (ce_set_next (Some ce)) | None => mret tt end);
  _ ← set_mru (Some ce);
  match lru cel with None => set_lru (Some ce) | Some _ => mret tt end.

Definition add_to_tail (ce : Z) : LM unit :=
  e ← lm_ent ce;
  if bool_decide (is_Some (ce_next e)) || bool_decide (is_Some (ce_prev e)) then hang else
  cel ← lm_cel;
  _ ← lm_upd ce (ce_set_next (lru cel));
  _ ← lm_upd ce (ce_set_prev None);
  _ ← (match lru cel with Some p => lm_upd p (ce_set_prev (Some ce)) | None => mret tt end);
  _ ← set_lru (Some ce);
  match mru cel with None => set_mru (Some ce) | Some _ => mret tt end.

(** The order of [qsort] on entries: by device, then by block number, whose
    difference is cut to an [int]. *)
Definition cache_ent_cmp (p1 p2 : cache_ent) : Z :=
  if ce_dev p1 =? ce_dev p2 then i32 (i64 (ce_block_num p1 - ce_block_num p2))
  else ce_dev p1 - ce_dev p2.

(** ** The list of entries a doubly linked list stands for *)

(** [linked m p prv nxt]: the entry at [p] has these two links. *)
Definition linked (m : gmap Z cache_ent) (p : Z) (prv nxt : option Z) : Prop :=
  exists e, m !! p = Some e /\ ce_prev e = prv /\ ce_next e = nxt.

(** From [lru] along [next] to [mru]. *)
Record dll (m : gmap Z cache_ent) (c : cache_ent_list) (l : list Z) : Prop := {
  dll_nodup : NoDup l;
  dll_lru : lru c = head l;
  dll_mru : mru c = last l;
  dll_links : forall l1 p l2, l = l1 ++ p :: l2 -> linked m p (last l1) (head l2);
}.

(** An entry without its links. *)
Definition strip (e : cache_ent) : cache_ent := ce_set_prev None (ce_set_next None e).

(** [m'] differs from [m] only in links, and only of the entries in [ps]. *)
Definition relinked (ps : list Z) (m m' : gmap Z cache_ent) : Prop :=
  strip <$> m' = strip <$> m /\ forall q, q ∉ ps -> m' !! q = m !! q.

Lemma strip_alter f q (m : gmap Z cache_ent) :
  (forall e, strip (f e) = strip e) -> strip <$> alter f q m = strip <$> m.
Proof.
  intros Hf. apply map_eq. intros i. rewrite !lookup_fmap.
  destruct (decide (q = i)) as [->|Hne].
  - rewrite lookup_alter_eq. destruct (m !! i); cbn; [by rewrite Hf|done].
  - by rewrite lookup_alter_ne.
Qed.

Lemma strip_next x e : strip (ce_set_next x e) = strip e. Proof. done. Qed.
Lemma strip_prev x e : strip (ce_set_prev x e) = strip e. Proof. done. Qed.

Lemma relinked_refl ps m : relinked ps m m.
Proof. done. Qed.
Lemma relinked_trans ps m1 m2 m3 : relinked ps m1 m2 -> relinked ps m2 m3 -> relinked ps m1 m3.
Proof. intros [E1 H1] [E2 H2]. split; [by rewrite E2|]. intros q Hq. by rewrite H2, H1. Qed.
Lemma relinked_mono ps ps' m m' : (forall q, q ∈ ps -> q ∈ ps') -> relinked ps m m' -> relinked ps' m m'.
Proof. intros Hps [E H]. split; [done|]. intros q Hq. apply H. auto. Qed.
Lemma relinked_next ps m q x : q ∈ ps -> relinked ps m (alter (ce_set_next x) q m).
Proof.
  intros Hq. split; [by apply strip_alter|]. intros i Hi. apply lookup_alter_ne. by intros ->.
Qed.
Lemma relinked_prev ps m q x : q ∈ ps -> relinked ps m (alter (ce_set_prev x) q m).
Proof.
  intros Hq. split; [by apply strip_alter|]. intros i Hi. apply lookup_alter_ne. by intros ->.
Qed.

Lemma linked_ne f q m p a b : q <> p -> linked m p a b -> linked (alter f q m) p a b.
Proof. intros Hne (e & He & Ha). exists e. by rewrite lookup_alter_ne. Qed.
Lemma linked_next x m p a b : linked m p a b -> linked (alter (ce_set_next x) p m) p a x.
Proof. intros (e & He & <- & <-). exists (ce_set_next x e). by rewrite lookup_alter_eq, He. Qed.
Lemma linked_prev x m p a b : linked m p a b -> linked (alter (ce_set_prev x) p m) p x b.
Proof. intros (e & He & <- & <-). exists (ce_set_prev x e). by rewrite lookup_alter_eq, He. Qed.

(** Changing an optional neighbour. *)
Definition alter_opt (f : cache_ent -> cache_ent) (q : option Z) (m : gmap Z cache_ent) : gmap Z cache_ent :=
  match q with Some q => alter f q m | None => m end.

Lemma linked_opt_ne f q m p a b : q <> Some p -> linked m p a b -> linked (alter_opt f q m) p a b.
Proof. destruct q as [q|]; cbn; [|done]. intros Hne. apply linked_ne. congruence. Qed.

Lemma relinked_opt_next ps m q x :
  (forall p, q = Some p -> p ∈ ps) -> relinked ps m (alter_opt (ce_set_next x) q m).
Proof. destruct q as [q|]; cbn; intros H; [apply relinked_next; auto|apply relinked_refl]. Qed.
Lemma relinked_opt_prev ps m q x :
  (forall p, q = Some p -> p ∈ ps) -> relinked ps m (alter_opt (ce_set_prev x) q m).
Proof. destruct q as [q|]; cbn; intros H; [apply relinked_prev; auto|apply relinked_refl]. Qed.

Lemma lm_ent_wp m c p e (Q : _ -> _ -> Prop) : m !! p = Some e -> Q e (m, c) -> wp (lm_ent p) Q (m, c).
Proof. intros He HQ. unfold lm_ent. wp_step. wp_step. cbn [fst]. rewrite He. by wp_step. Qed.

Lemma lm_upd_wp m c p f (Q : unit -> _ -> Prop) :
  is_Some (m !! p) -> Q tt (alter f p m, c) -> wp (lm_upd p f) Q (m, c).
Proof.
  intros [e He] HQ. unfold lm_upd. wp_step. eapply lm_ent_wp; [done|]. wp_step.
  replace (<[p := f e]> (m, c).1) with (alter f p m); [done|].
  cbn. apply map_eq. intros i. destruct (decide (p = i)) as [->|Hne].
  - by rewrite lookup_alter_eq, lookup_insert_eq, He.
  - by rewrite lookup_alter_ne, lookup_insert_ne.
Qed.

Lemma lm_upd_opt_wp m c q f (Q : unit -> _ -> Prop) :
  (forall p, q = Some p -> is_Some (m !! p)) -> Q tt (alter_opt f q m, c) ->
  wp (match q with Some p => lm_upd p f | None => mret tt end) Q (m, c).
Proof. destruct q as [p|]; intros Hq HQ; [apply lm_upd_wp; auto|by wp_step]. Qed.

Lemma linked_some m p a b : linked m p a b -> is_Some (m !! p).
Proof. intros (e & He & _). by exists e. Qed.

(** ** Splitting lists *)

Lemma app_split (l1 l2 a b : list Z) q :
  l1 ++ l2 = a ++ q :: b ->
  (exists b', l1 = a ++ q :: b' /\ b = b' ++ l2) \/ (exists a', l2 = a' ++ q :: b /\ a = l1 ++ a').
Proof.
  revert a. induction l1 as [|x l1 IH]; intros a E; cbn in E.
  - right. by exists a.
  - destruct a as [|y a]; cbn in E; injection E as -> E.
    + left. by exists l1.
    + destruct (IH a E) as [(b' & -> & ->)|(a' & -> & ->)]; [left; by exists b'|right; by exists a'].
Qed.

Lemma last_app_cons {A} (l1 : list A) x l2 : last (l1 ++ x :: l2) = last (x :: l2).
Proof. by rewrite last_app, last_cons; destruct (last l2). Qed.
Lemma head_app_cons {A} (l1 : list A) x l2 : head (l1 ++ x :: l2) = head (l1 ++ [x]).
Proof. by destruct l1. Qed.
Lemma head_elem {A} (l : list A) x : head l = Some x -> exists l', l = x :: l'.
Proof. destruct l as [|y l]; intros [= ->]. by exists l. Qed.
Lemma last_elem {A} (l : list A) x : last l = Some x -> exists l', l = l' ++ [x].
Proof. intros H. apply last_Some in H. done. Qed.

Lemma dll_in m c l p : dll m c l -> p ∈ l -> exists a b, linked m p a b.
Proof. intros Hd (l1 & l2 & E)%list_elem_of_split. eauto using dll_links. Qed.

(** A list is not disturbed by changes elsewhere. *)
Lemma dll_frame m m' c l : dll m c l -> (forall q, q ∈ l -> m' !! q = m !! q) -> dll m' c l.
Proof.
  intros [H1 H2 H3 H4] Hm. split; try done. intros l1 p l2 E.
  destruct (H4 l1 p l2 E) as (e & He & Ha). exists e. rewrite Hm; [done|].
  rewrite E. apply elem_of_app. right. apply elem_of_cons. by left.
Qed.

Lemma NoDup_mid (l1 l2 : list Z) p : NoDup (l1 ++ p :: l2) -> (p ∉ l1) /\ (p ∉ l2) /\ NoDup (l1 ++ l2).
Proof.
  intros H. apply NoDup_app in H as (H1 & H2 & H3). apply NoDup_cons in H3 as [H3 H4].
  split_and!; [|done|].
  - intros Hp. apply (H2 p Hp). apply elem_of_cons. by left.
  - apply NoDup_app. split_and!; try done. intros x Hx Hx'. apply (H2 x Hx). apply elem_of_cons. by right.
Qed.

(** The store after the neighbours of [p] are joined. *)
Definition joined (m : gmap Z cache_ent) (prv nxt : option Z) : gmap Z cache_ent :=
  alter_opt (ce_set_next nxt) prv (alter_opt (ce_set_prev prv) nxt m).

Lemma joined_relinked m l1 p l2 :
  relinked (l1 ++ p :: l2) m (joined m (last l1) (head l2)).
Proof.
  unfold joined. eapply relinked_trans; [apply relinked_opt_prev|apply relinked_opt_next].
  - intros b (l & ->)%head_elem. rewrite elem_of_app, !elem_of_cons. auto.
  - intros a (l & ->)%last_elem. rewrite !elem_of_app, !elem_of_cons. auto.
Qed.

Lemma joined_mid m l1 p l2 :
  NoDup (l1 ++ p :: l2) -> linked m p (last l1) (head l2) ->
  linked (joined m (last l1) (head l2)) p (last l1) (head l2).
Proof.
  intros Hnd Hl. destruct (NoDup_mid l1 l2 p Hnd) as (H1 & H2 & _). unfold joined.
  apply linked_opt_ne; [|apply linked_opt_ne; [|done]].
  - intros (l & ->)%last_elem. apply H1. apply elem_of_app. right. apply elem_of_cons. by left.
  - intros (l & ->)%head_elem. apply H2. apply elem_of_cons. by left.
Qed.

(** Every other element now has the links of the shorter list. *)
Lemma joined_links m l1 p l2 a q b :
  NoDup (l1 ++ p :: l2) ->
  (forall l1' p' l2', l1 ++ (p :: l2) = l1' ++ (p' :: l2') -> linked m p' (last l1') (head l2')) ->
  l1 ++ l2 = a ++ q :: b -> linked (joined m (last l1) (head l2)) q (last a) (head b).
Proof.
  intros Hnd Hl E. destruct (NoDup_mid l1 l2 p Hnd) as (Hp1 & Hp2 & Hnd').
  apply app_split in E as [(b' & -> & ->)|(a' & -> & ->)].
  - assert (linked m q (last a) (head (b' ++ p :: l2))) as Hq.
    { apply (Hl a q (b' ++ p :: l2)). by rewrite <- app_assoc. }
    assert (head l2 <> Some q) as Hne.
    { intros (l & ->)%head_elem. rewrite <- app_assoc in Hnd'. apply NoDup_app in Hnd' as (_ & _ & Hnd').
      cbn in Hnd'. apply NoDup_cons in Hnd' as [Hn _]. apply Hn. apply elem_of_app. right. apply elem_of_cons. by left. }
    unfold joined. destruct b' as [|y b'].
    + rewrite last_app_cons. cbn. eapply linked_next. by apply linked_opt_ne.
    + rewrite last_app_cons. apply linked_opt_ne; [|by apply linked_opt_ne].
      intros (l & E)%last_elem. cbn in Hq.
      destruct l as [|z l]; [done|]. injection E as -> E.
      rewrite E in Hnd'. rewrite <- !app_assoc in Hnd'. apply NoDup_app in Hnd' as (_ & _ & Hnd').
      cbn in Hnd'. apply NoDup_cons in Hnd' as [Hn _]. apply Hn. rewrite !elem_of_app, !elem_of_cons. auto.
  - assert (linked m q (last (l1 ++ p :: a')) (head b)) as Hq.
    { apply (Hl (l1 ++ p :: a') q b). by rewrite <- app_assoc. }
    assert (last l1 <> Some q) as Hne.
    { intros (l & ->)%last_elem. apply NoDup_app in Hnd' as (_ & Hd & _).
      apply (Hd q); rewrite !elem_of_app, !elem_of_cons; auto. }
    unfold joined. apply linked_opt_ne; [done|]. destruct a' as [|y a'].
    + rewrite app_nil_r. cbn. rewrite last_snoc in Hq. eapply linked_prev, Hq.
    + rewrite !last_app_cons in *. rewrite last_cons_cons in Hq. apply linked_opt_ne; [|done].
      cbn. intros [= ->]. apply NoDup_app in Hnd' as (_ & _ & Hnd').
      apply NoDup_cons in Hnd' as [Hn _]. apply Hn. rewrite elem_of_app, elem_of_cons. auto.
Qed.

Lemma head_mid_eq (l1 l2 : list Z) p :
  NoDup (l1 ++ p :: l2) ->
  (if decide (head (l1 ++ p :: l2) = Some p) then head l2 else head (l1 ++ p :: l2)) = head (l1 ++ l2).
Proof.
  intros Hnd. destruct l1 as [|x l1]; cbn; [by rewrite decide_True|].
  rewrite decide_False; [done|]. intros [= ->]. apply NoDup_mid in Hnd as (H & _). apply H.
  apply elem_of_cons. by left.
Qed.

Lemma last_mid_eq (l1 l2 : list Z) p :
  NoDup (l1 ++ p :: l2) ->
  (if decide (last (l1 ++ p :: l2) = Some p) then last l1 else last (l1 ++ p :: l2)) = last (l1 ++ l2).
Proof.
  intros Hnd. rewrite last_app_cons. destruct (decide (last (p :: l2) = Some p)) as [E|E].
  - destruct l2 as [|y l2]; [by rewrite app_nil_r|]. exfalso. rewrite last_cons_cons in E.
    apply last_elem in E as [l E]. rewrite E in Hnd. apply NoDup_mid in Hnd as (_ & H & _). apply H.
    apply elem_of_app. right. apply elem_of_cons. by left.
  - destruct l2 as [|y l2]; [done|]. by rewrite last_cons_cons, last_app_cons.
Qed.

(** [delete_from_list] takes one element out of the list and clears its links. *)
Lemma delete_wp m c l1 p l2 (Q : unit -> _ -> Prop) :
  dll m c (l1 ++ p :: l2) ->
  (forall m' c', dll m' c' (l1 ++ l2) -> linked m' p None None -> relinked (l1 ++ p :: l2) m m' -> Q tt (m', c')) ->
  wp (delete_from_list p) Q (m, c).
Proof.
  intros [Hnd Hlru Hmru Hl] HQ. pose proof (Hl l1 p l2 eq_refl) as Hp.
  destruct (NoDup_mid l1 l2 p Hnd) as (Hp1 & Hp2 & Hnd').
  assert (forall b, head l2 = Some b -> b <> p /\ exists x y, linked m b x y) as Hb.
  { intros b (l & ->)%head_elem. split; [intros ->; apply Hp2, elem_of_cons; by left|].
    exists (last (l1 ++ [p])), (head l). apply (Hl (l1 ++ [p]) b l). by rewrite <- app_assoc. }
  assert (forall a, last l1 = Some a -> a <> p /\ exists x y, linked m a x y) as Ha.
  { intros a (l & ->)%last_elem. split; [intros ->; apply Hp1, elem_of_app; right; apply elem_of_cons; by left|].
    exists (last l), (head (p :: l2)). apply (Hl l a (p :: l2)). by rewrite <- app_assoc. }
  pose proof (joined_mid m l1 p l2 Hnd Hp) as Hmid. pose proof (joined_relinked m l1 p l2) as Hrel.
  assert (forall a q b, l1 ++ l2 = a ++ (q :: b) -> linked (joined m (last l1) (head l2)) q (last a) (head b)) as Hj.
  { intros a q b. by apply (joined_links m l1 p l2). }
  unfold joined in Hmid, Hrel, Hj. set (m1 := alter_opt (ce_set_prev (last l1)) (head l2) m) in *.
  assert (linked m1 p (last l1) (head l2)) as (e1 & He1 & Epr & Enx).
  { apply linked_opt_ne; [|done]. intros E. by destruct (Hb p E). }
  destruct Hp as (e & He & Ep & En). destruct Hmid as (e2 & He2 & Ep2 & En2).
  unfold delete_from_list. wp_step. apply (lm_ent_wp _ _ _ e); [done|]. wp_step. rewrite En, Ep.
  apply lm_upd_opt_wp. { intros b E. destruct (Hb b E) as (_ & x & y & Hx). by eapply linked_some. }
  fold m1. wp_step. apply (lm_ent_wp _ _ _ e1); [done|]. wp_step. rewrite Enx, Epr.
  apply lm_upd_opt_wp.
  { intros a E. destruct (Ha a E) as (_ & x & y & (e3 & He3 & _)). unfold m1, alter_opt.
    destruct (head l2) as [b|]; [|by exists e3]. destruct (decide (b = a)) as [->|Hne].
    - rewrite lookup_alter_eq, He3. by eexists.
    - rewrite lookup_alter_ne by done. by exists e3. }
  set (m2 := alter_opt (ce_set_next (head l2)) (last l1) m1) in *.
  wp_step. apply (lm_ent_wp _ _ _ e2); [done|]. unfold lm_cel, set_lru, set_mru. wp_step. wp_step.
  cbn [snd]. rewrite En2, Ep2.
  set (c' := Cel (head (l1 ++ l2)) (last (l1 ++ l2))).
  assert (dll (alter (ce_set_prev None) p (alter (ce_set_next None) p m2)) c' (l1 ++ l2)) as Hdll.
  { split; [done|done|done|]. intros a q b E.
    assert (p <> q) by (intros ->; assert (q ∈ l1 ++ l2) as Hin by (rewrite E, elem_of_app, elem_of_cons; auto);
                        apply elem_of_app in Hin; tauto).
    apply linked_ne; [done|]. apply linked_ne; [done|]. by apply Hj. }
  specialize (HQ _ c' Hdll).
  assert (forall k : M (gmap Z cache_ent * cache_ent_list) unit,
    wp k Q (m2, c') ->
    wp (_ ← (if decide (lru c = Some p) then modify (fun s => (s.1, Cel (head l2) (mru s.2))) else mret tt);
        _ ← (if decide (mru c = Some p) then modify (fun s => (s.1, Cel (lru s.2) (last l1))) else mret tt); k) Q (m2, c)) as Hk.
  { intros k Hk. destruct c as [lr mr]. cbn in Hlru, Hmru |- *. unfold c' in Hk.
    rewrite <- (head_mid_eq l1 l2 p Hnd), <- (last_mid_eq l1 l2 p Hnd), <- Hlru, <- Hmru in Hk.
    wp_step. destruct (decide (lr = Some p)); wp_step; wp_step; destruct (decide (mr = Some p)); wp_step; exact Hk. }
  apply Hk. wp_step. apply lm_upd_wp; [by exists e2|]. apply lm_upd_wp.
  { rewrite lookup_alter_eq, He2. by eexists. }
  apply HQ.
  - apply (linked_prev None _ p (last l1)). apply (linked_next None _ p _ (head l2)). by exists e2.
  - eapply relinked_trans; [exact Hrel|]. eapply relinked_trans; [apply relinked_next|apply relinked_prev];
      rewrite elem_of_app, elem_of_cons; auto.
Qed.

Lemma last_not_mid (a b : list Z) q y : NoDup (a ++ q :: y :: b) -> last (a ++ q :: y :: b) <> Some q.
Proof.
  intros Hnd. rewrite last_app_cons, last_cons_cons. intros (l & E)%last_elem.
  destruct (NoDup_mid a (y :: b) q Hnd) as (_ & Hn & _). apply Hn. rewrite E, elem_of_app, elem_of_cons. auto.
Qed.

(** An unlinked entry goes to either end. *)
Lemma add_to_head_wp m c l p (Q : unit -> _ -> Prop) :
  dll m c l -> linked m p None None -> p ∉ l ->
  (forall m' c', dll m' c' (l ++ [p]) -> relinked (p :: l) m m' -> Q tt (m', c')) ->
  wp (add_to_head p) Q (m, c).
Proof.
  intros [Hnd Hlru Hmru Hl] Hp Hpl HQ. destruct Hp as (e & He & Ep & En).
  assert (forall a, last l = Some a -> a <> p /\ exists x, linked m a x None) as Ha.
  { intros a (l' & ->)%last_elem. split; [intros ->; apply Hpl, elem_of_app; right; apply elem_of_cons; by left|].
    exists (last l'). by apply (Hl l' a []). }
  set (m1 := alter (ce_set_prev (last l)) p (alter (ce_set_next None) p m)).
  assert (forall q a b, q <> p -> linked m q a b -> linked m1 q a b) as Hne.
  { intros q a b Hq H. unfold m1. apply linked_ne; [done|]. by apply linked_ne. }
  set (m2 := alter_opt (ce_set_next (Some p)) (last l) m1).
  assert (linked m2 p (last l) None) as Hp2.
  { apply linked_opt_ne; [intros E; by destruct (Ha p E)|]. eapply linked_prev, linked_next. by exists e. }
  assert (dll m2 (Cel (head (l ++ [p])) (Some p)) (l ++ [p])) as Hdll.
  { split; cbn; [|done|by rewrite last_snoc|].
    - apply NoDup_app. split_and!; [done| |apply NoDup_singleton]. intros x Hx ->%list_elem_of_singleton. done.
    - intros a q b E. apply app_split in E as [(b' & -> & ->)|(a' & E & ->)].
      + assert (q <> p) by (intros ->; apply Hpl; rewrite elem_of_app, elem_of_cons; auto).
        destruct b' as [|y b'].
        * cbn. unfold m2. rewrite last_snoc. eapply linked_next. apply Hne; [done|]. by apply (Hl a q []).
        * apply linked_opt_ne; [|apply Hne; [done|]; by apply (Hl a q (y :: b'))].
          by apply last_not_mid.
      + destruct a' as [|y a']; [|destruct a'; done]. injection E as <- <-. rewrite app_nil_r. exact Hp2. }
  specialize (HQ m2 _ Hdll).
  unfold add_to_head, lm_cel, set_mru, set_lru. wp_step. apply (lm_ent_wp _ _ _ e); [done|].
  rewrite Ep, En. cbn [orb]. rewrite !bool_decide_false by (by intros [? ?]). cbn [orb].
  wp_step. wp_step. cbn [snd]. rewrite Hmru, Hlru. wp_step. apply lm_upd_wp; [by exists e|]. wp_step.
  apply lm_upd_wp; [rewrite lookup_alter_eq, He; by eexists|]. fold m1. wp_step.
  apply lm_upd_opt_wp. { intros a E. destruct (Ha a E) as (Hap & x & Hx). by eapply linked_some, Hne. }
  fold m2. wp_step. wp_step. cbn [fst snd].
  assert (relinked (p :: l) m m2) as Hrel.
  { eapply relinked_trans; [eapply relinked_trans; [apply relinked_next|apply relinked_prev]; apply elem_of_cons; by left|].
    apply relinked_opt_next. intros a (l' & ->)%last_elem. rewrite elem_of_cons, elem_of_app, elem_of_cons. auto. }
  destruct l as [|y l]; cbn [head] in *; [by wp_step; apply HQ|]. rewrite Hlru. wp_step. by apply HQ.
Qed.

Lemma add_to_tail_wp m c l p (Q : unit -> _ -> Prop) :
  dll m c l -> linked m p None None -> p ∉ l ->
  (forall m' c', dll m' c' (p :: l) -> relinked (p :: l) m m' -> Q tt (m', c')) ->
  wp (add_to_tail p) Q (m, c).
Proof.
  intros [Hnd Hlru Hmru Hl] Hp Hpl HQ. destruct Hp as (e & He & Ep & En).
  assert (forall a, head l = Some a -> a <> p /\ exists x, linked m a None x) as Ha.
  { intros a (l' & ->)%head_elem. split; [intros ->; apply Hpl, elem_of_cons; by left|].
    exists (head l'). by apply (Hl [] a l'). }
  set (m1 := alter (ce_set_prev None) p (alter (ce_set_next (head l)) p m)).
  assert (forall q a b, q <> p -> linked m q a b -> linked m1 q a b) as Hne.
  { intros q a b Hq H. unfold m1. apply linked_ne; [done|]. by apply linked_ne. }
  set (m2 := alter_opt (ce_set_prev (Some p)) (head l) m1).
  assert (linked m2 p None (head l)) as Hp2.
  { apply linked_opt_ne; [intros E; by destruct (Ha p E)|]. eapply linked_prev, linked_next. by exists e. }
  assert (dll m2 (Cel (Some p) (last (p :: l))) (p :: l)) as Hdll.
  { split; cbn [lru mru head]; [by apply NoDup_cons|done|done|].
    intros a q b E. destruct a as [|x a]; cbn in E; injection E as <- E; [by subst|]. subst l.
    assert (q <> p) by (intros ->; apply Hpl; rewrite elem_of_app, elem_of_cons; auto).
    destruct a as [|y a].
    - unfold m2. cbn. eapply linked_prev. apply Hne; [done|]. by apply (Hl [] q b).
    - rewrite last_cons_cons. apply linked_opt_ne; [|apply Hne; [done|]; by apply (Hl (y :: a) q b)].
      cbn. intros [= ->]. apply (NoDup_mid (q :: a) b q) in Hnd as (Hn & _). apply Hn, elem_of_cons. by left. }
  specialize (HQ m2 _ Hdll).
  unfold add_to_tail, lm_cel, set_mru, set_lru. wp_step. apply (lm_ent_wp _ _ _ e); [done|].
  rewrite Ep, En. rewrite !bool_decide_false by (by intros [? ?]). cbn [orb].
  wp_step. wp_step. cbn [snd]. rewrite Hmru, Hlru. wp_step. apply lm_upd_wp; [by exists e|]. wp_step.
  apply lm_upd_wp; [rewrite lookup_alter_eq, He; by eexists|]. fold m1. wp_step.
  apply lm_upd_opt_wp. { intros a E. destruct (Ha a E) as (Hap & x & Hx). by eapply linked_some, Hne. }
  fold m2. wp_step. wp_step. cbn [fst snd].
  assert (relinked (p :: l) m m2) as Hrel.
  { eapply relinked_trans; [eapply relinked_trans; [apply relinked_next|apply relinked_prev]; apply elem_of_cons; by left|].
    apply relinked_opt_prev. intros a (l' & ->)%head_elem. rewrite !elem_of_cons. auto. }
  destruct l as [|y l]; [cbn [last]; wp_step; by apply HQ|].
  rewrite last_cons_cons in HQ. destruct (last (y :: l)) eqn:E; [|by apply last_None in E].
  wp_step. rewrite Hmru. by apply HQ.
Qed.

(** Taking an entry out of a list and adding it at the head, as the cache
    does with every block it is asked for, makes it the most recently used one
    and keeps the order of the others; the list stays well linked in both
    directions, with its ends right, and nothing but links of its entries
    changes. *)
Theorem touch_exact m c l1 p l2 :
  dll m c (l1 ++ p :: l2) ->
  wp (_ ← delete_from_list p; add_to_head p)
    (fun _ s' => dll s'.1 s'.2 ((l1 ++ l2) ++ [p]) /\ relinked (l1 ++ p :: l2) m s'.1) (m, c).
Proof.
  intros Hd. destruct (NoDup_mid l1 l2 p (dll_nodup _ _ _ Hd)) as (H1 & H2 & _).
  wp_step. apply (delete_wp m c l1 p l2); [done|]. intros m1 c1 Hd1 Hl1 Hr1.
  apply (add_to_head_wp m1 c1 (l1 ++ l2)); [done|done|by rewrite elem_of_app; tauto|]. intros m2 c2 Hd2 Hr2. split; [done|].
  eapply relinked_trans; [exact Hr1|]. eapply relinked_mono; [|exact Hr2].
  intros q. rewrite !elem_of_cons, !elem_of_app, elem_of_cons. tauto.
Qed.

(** Entries 1, 2 and 3: after touching 2 they go 1, 3, 2. *)
Definition three_ent (nxt prv : option Z) : cache_ent := CE 0 0 0 0 None None 0 None 0 None nxt prv.
Definition three_ents : gmap Z cache_ent :=
  {[1 := three_ent (Some 2) None; 2 := three_ent (Some 3) (Some 1); 3 := three_ent None (Some 2)]}.

Lemma touch_exact_witness :
  wp (_ ← delete_from_list 2; add_to_head 2) (fun _ s' => dll s'.1 s'.2 [1; 3; 2]) (three_ents, Cel (Some 1) (Some 3)).
Proof.
  assert (dll three_ents (Cel (Some 1) (Some 3)) ([1] ++ 2 :: [3])) as Hd.
  { split; [apply (bool_decide_unpack _); vm_compute; exact I|reflexivity|reflexivity|].
    intros [|x1 [|x2 [|x3 l1]]] p l2 E; cbn in E; [injection E as <- <-|injection E as <- <- <-|injection E as <- <- <- <-|destruct l1; discriminate E].
    all: eexists; split; [vm_compute; reflexivity|split; reflexivity]. }
  eapply wp_mono; [exact (touch_exact _ _ _ _ _ Hd)|]. intros r s' [H _]. exact H.
Defined.
