(* ===== verification/Cache.v ===== *)
(** * Cache: the state of the block cache and its upkeep (cache.c)

    A cache block is an entry of CacheList.v with a buffer; the hash table
    finds it by device and block number, and it is on the normal list, or on
    the locked list while a client holds it.  This file has the transfers of
    whole blocks, flushing, the callbacks of a journal, and everything but the
    block I/O itself, which is CacheIo.v.

    One thread runs: a busy entry stays busy while that thread waits for it. *)

From S2P Require Import Prelude Bytes Host Device HashTable CacheList.
Local Open Scope Z_scope.

Record block_cache := BC {
  bc_lock : lock;
  bc_flags : Z;
  cur_blocks : Z;
  max_blocks : Z;
  bc_ht : hash_table;
  normal : cache_ent_list;  (** "normal" blocks, clean and dirty *)
  locked : cache_ent_list;  (** blocks handed out *)
}.

Definition set_bc_lock (x : lock) (s : block_cache) : block_cache :=
  BC x (bc_flags s) (cur_blocks s) (max_blocks s) (bc_ht s) (normal s) (locked s).
Definition set_bc_flags (x : Z) (s : block_cache) : block_cache :=
  BC (bc_lock s) x (cur_blocks s) (max_blocks s) (bc_ht s) (normal s) (locked s).
Definition set_cur_blocks (x : Z) (s : block_cache) : block_cache :=
  BC (bc_lock s) (bc_flags s) x (max_blocks s) (bc_ht s) (normal s) (locked s).
Definition set_max_blocks (x : Z) (s : block_cache) : block_cache :=
  BC (bc_lock s) (bc_flags s) (cur_blocks s) x (bc_ht s) (normal s) (locked s).
Definition set_bc_ht (x : hash_table) (s : block_cache) : block_cache :=
  BC (bc_lock s) (bc_flags s) (cur_blocks s) (max_blocks s) x (normal s) (locked s).
Definition set_normal (x : cache_ent_list) (s : block_cache) : block_cache :=
  BC (bc_lock s) (bc_flags s) (cur_blocks s) (max_blocks s) (bc_ht s) x (locked s).
Definition set_locked (x : cache_ent_list) (s : block_cache) : block_cache :=
  BC (bc_lock s) (bc_flags s) (cur_blocks s) (max_blocks s) (bc_ht s) (normal s) x.

Record cst := CS {
  bc : block_cache;
  iovec_lock : lock;
  iovec_pool : list (option Z);
  iovec_used : list Z;
  max_device_blocks : list Z;
  last_cache_access : Z;
  ces : gmap Z cache_ent;  (** the entries, by address *)
  bufs : gmap Z (list byte);  (** the buffers, by address *)
  cs_os : os;
  cs_host : host;
  callbacks : list (Z * Z * option Z);  (** the calls of [func], the last one first *)
}.

Definition set_bc (x : block_cache) (s : cst) : cst :=
  CS x (iovec_lock s) (iovec_pool s) (iovec_used s) (max_device_blocks s) (last_cache_access s) (ces s) (bufs s) (cs_os s) (cs_host s) (callbacks s).
Definition set_iovec_lock (x : lock) (s : cst) : cst :=
  CS (bc s) x (iovec_pool s) (iovec_used s) (max_device_blocks s) (last_cache_access s) (ces s) (bufs s) (cs_os s) (cs_host s) (callbacks s).
Definition set_iovec_pool (x : list (option Z)) (s : cst) : cst :=
  CS (bc s) (iovec_lock s) x (iovec_used s) (max_device_blocks s) (last_cache_access s) (ces s) (bufs s) (cs_os s) (cs_host s) (callbacks s).
Definition set_iovec_used (x : list Z) (s : cst) : cst :=
  CS (bc s) (iovec_lock s) (iovec_pool s) x (max_device_blocks s) (last_cache_access s) (ces s) (bufs s) (cs_os s) (cs_host s) (callbacks s).
Definition set_max_device_blocks (x : list Z) (s : cst) : cst :=
  CS (bc s) (iovec_lock s) (iovec_pool s) (iovec_used s) x (last_cache_access s) (ces s) (bufs s) (cs_os s) (cs_host s) (callbacks s).
Definition set_last_cache_access (x : Z) (s : cst) : cst :=
  CS (bc s) (iovec_lock s) (iovec_pool s) (iovec_used s) (max_device_blocks s) x (ces s) (bufs s) (cs_os s) (cs_host s) (callbacks s).
Definition set_ces (x : gmap Z cache_ent) (s : cst) : cst :=
  CS (bc s) (iovec_lock s) (iovec_pool s) (iovec_used s) (max_device_blocks s) (last_cache_access s) x (bufs s) (cs_os s) (cs_host s) (callbacks s).
Definition set_bufs (x : gmap Z (list byte)) (s : cst) : cst :=
  CS (bc s) (iovec_lock s) (iovec_pool s) (iovec_used s) (max_device_blocks s) (last_cache_access s) (ces s) x (cs_os s) (cs_host s) (callbacks s).
Definition set_cs_os (x : os) (s : cst) : cst :=
  CS (bc s) (iovec_lock s) (iovec_pool s) (iovec_used s) (max_device_blocks s) (last_cache_access s) (ces s) (bufs s) x (cs_host s) (callbacks s).
Definition set_cs_host (x : host) (s : cst) : cst :=
  CS (bc s) (iovec_lock s) (iovec_pool s) (iovec_used s) (max_device_blocks s) (last_cache_access s) (ces s) (bufs s) (cs_os s) x (callbacks s).
Definition set_callbacks (x : list (Z * Z * option Z)) (s : cst) : cst :=
  CS (bc s) (iovec_lock s) (iovec_pool s) (iovec_used s) (max_device_blocks s) (last_cache_access s) (ces s) (bufs s) (cs_os s) (cs_host s) x.


Definition MAX_IOVECS : Z := 64.
Definition NUM_FLUSH_BLOCKS : Z := 64.
Definition MAX_DEVICES : Z := 256.
Definition read_ahead_size : Z := 32 * 1024.
Definition ALLOW_WRITES : Z := 1.
Definition NO_WRITES : Z := 0.

Abbreviation CM := (M cst).

(** ** Parts of the state *)

Definition upd_bc (f : block_cache -> block_cache) : CM unit := modify (fun s => set_bc (f (bc s)) s).
Definition in_host {A} (m : M host A) : CM A := zoom cs_host set_cs_host m.
Definition in_os {A} (m : M os A) : CM A := zoom cs_os set_cs_os m.
Definition in_ht {A} (m : M hash_table A) : CM A :=
  zoom (fun s => bc_ht (bc s)) (fun h s => set_bc (set_bc_ht h (bc s)) s) m.
Definition in_ht_host {A} (m : M (hash_table * host) A) : CM A :=
  zoom (fun s => (bc_ht (bc s), cs_host s))
       (fun p s => set_cs_host p.2 (set_bc (set_bc_ht p.1 (bc s)) s)) m.

(** The pointer to one of the two lists. *)
Inductive which := Normal | Locked.
Definition the_cel (w : which) (s : cst) : cache_ent_list :=
  match w with Normal => normal (bc s) | Locked => locked (bc s) end.
Definition set_cel (w : which) (c : cache_ent_list) (s : cst) : cst :=
  match w with Normal => set_bc (set_normal c (bc s)) s | Locked => set_bc (set_locked c (bc s)) s end.
Definition in_list (w : which) {A} (m : M (gmap Z cache_ent * cache_ent_list) A) : CM A :=
  zoom (fun s => (ces s, the_cel w s)) (fun p s => set_ces p.1 (set_cel w p.2 s)) m.

Definition LOCK_bc : CM unit :=
  zoom (fun s => bc_lock (bc s)) (fun l s => set_bc (set_bc_lock l (bc s)) s) LOCK.
Definition UNLOCK_bc : CM unit :=
  zoom (fun s => bc_lock (bc s)) (fun l s => set_bc (set_bc_lock l (bc s)) s) UNLOCK.
Definition LOCK_iovec : CM unit := zoom iovec_lock set_iovec_lock LOCK.
Definition UNLOCK_iovec : CM unit := zoom iovec_lock set_iovec_lock UNLOCK.

(** ** Memory *)

Definition ent (p : Z) : CM cache_ent := s ← get; opt (ces s !! p).
Definition upd_ent (p : Z) (f : cache_ent -> cache_ent) : CM unit :=
  e ← ent p; modify (fun s => set_ces (<[p := f e]> (ces s)) s).
Definition free_ent (p : Z) : CM unit :=
  _ ← ent p; modify (fun s => set_ces (delete p (ces s)) s).

(** A new buffer of [n] indeterminate bytes. *)
Definition malloc_buf (n : Z) : CM (option Z) :=
  p ← in_host (malloc n);
  match p with
  | None => mret None
  | Some a => d ← in_host (junk n); _ ← modify (fun s => set_bufs (<[a := d]> (bufs s)) s); mret (Some a)
  end.

(** The bytes at a pointer and their replacement; NULL is a fault. *)
Definition load_buf (p : option Z) (n : Z) : CM (list byte) :=
  a ← opt p; s ← get; b ← opt (bufs s !! a); opt (read_at 0 n b).
Definition store_buf (p : option Z) (d : list byte) : CM unit :=
  a ← opt p; s ← get; b ← opt (bufs s !! a); b ← opt (write_at 0 d b);
  modify (fun s => set_bufs (<[a := b]> (bufs s)) s).
(** [free]: NULL is allowed. *)
Definition free_buf (p : option Z) : CM unit :=
  match p with
  | None => mret tt
  | Some a => s ← get; _ ← opt (bufs s !! a); modify (fun s => set_bufs (delete a (bufs s)) s)
  end.

(** [ce->func(ce->logged_bnum, 1, ce->arg)] *)
Definition call_func (f bnum : Z) (arg : option Z) : CM unit :=
  modify (fun s => set_callbacks ((f, bnum, arg) :: callbacks s) s).

(** The size of a device, in blocks. *)
Definition dev_blocks (dev : Z) : CM Z :=
  s ← get; if dev <? 0 then fault else opt (max_device_blocks s !! Z.to_nat dev).
Definition set_dev_blocks (dev n : Z) : CM unit :=
  _ ← dev_blocks dev;
  modify (fun s => set_max_device_blocks (<[Z.to_nat dev := n]> (max_device_blocks s)) s).

(** ** Transfers of whole blocks *)

Definition CHUNK : Z := 512 * 1024.

(** The loop over pieces of [CHUNK] bytes: the last [ret], [sum], and the
    bytes read.  [total] bounds the number of rounds. *)
Fixpoint read_chunks (fuel : nat) (fd pos total sum ret : Z) (acc : list byte)
  : M os (Z * Z * list byte) :=
  match fuel with
  | O => hang
  | S fuel =>
      if sum + CHUNK <=? total then
        '(ret, d) ← read_pos fd (pos + sum) CHUNK;
        if negb (ret =? CHUNK) then mret (ret, sum, acc ++ d)
        else read_chunks fuel fd pos total (sum + CHUNK) ret (acc ++ d)
      else mret (ret, sum, acc)
  end.

Definition chunk_fuel (total : Z) : nat := S (Z.to_nat (total / CHUNK)).

Definition read_phys_blocks (fd bnum num_blocks bsize : Z) : M os (Z * list byte) :=
  let total := u32 (num_blocks * bsize) in
  let pos := i64 (bnum * bsize) in
  '(ret, d) ← (if total <? CHUNK then read_pos fd pos total else
    '(ret, sum, d) ← read_chunks (chunk_fuel total) fd pos total 0 0 [];
    if (ret =? CHUNK) && (0 <? total - sum) then
      '(ret, d') ← read_pos fd (pos + sum) (total - sum);
      mret (if ret =? total - sum then total else ret, d ++ d')
    else if ret =? CHUNK then mret (total, d)
    else mret (ret, d));
  mret (if ret =? total then 0 else EBADF, d).

Fixpoint write_chunks (fuel : nat) (fd pos : Z) (data : list byte) (total sum ret : Z) : M os (Z * Z) :=
  match fuel with
  | O => hang
  | S fuel =>
      if sum + CHUNK <=? total then
        ret ← write_pos fd (pos + sum) (slice sum CHUNK data);
        if negb (ret =? CHUNK) then mret (ret, sum)
        else write_chunks fuel fd pos data total (sum + CHUNK) ret
      else mret (ret, sum)
  end.

(** The bytes at [data] are [num_blocks * bsize] of them. *)
Definition write_phys_blocks (fd bnum : Z) (data : list byte) (num_blocks bsize : Z) : M os Z :=
  let total := u32 (num_blocks * bsize) in
  let pos := i64 (bnum * bsize) in
  data ← opt (read_at 0 total data);
  ret ← (if total <? CHUNK then write_pos fd pos data else
    '(ret, sum) ← write_chunks (chunk_fuel total) fd pos data total 0 0;
    if (ret =? CHUNK) && (0 <? total - sum) then
      ret ← write_pos fd (pos + sum) (slice sum (total - sum) data);
      mret (if ret =? total - sum then total else ret)
    else if ret =? CHUNK then mret total
    else mret ret);
  mret (if ret =? total then 0 else EBADF).

(** ** Setting up *)

Definition zero_ht : hash_table := HT [] 0 0 0.
Definition zero_cel : cache_ent_list := Cel None None.
Definition zero_bc : block_cache := BC (Lock 0 SemNull) 0 0 0 zero_ht zero_cel zero_cel.

(** A semaphore is a pointer, so that the tests [s >= 0] are always true. *)
Definition init_err : CM Z :=
  s ← get;
  _ ← in_host (free_lock (bc_lock (bc s)));
  _ ← in_host (free_lock (iovec_lock s));
  _ ← in_ht_host shutdown_hash_table;
  _ ← modify (set_bc zero_bc);
  mret ENOMEM.

Definition init_block_cache (max_blocks flags : Z) : CM Z :=
  _ ← modify (set_bc zero_bc);
  _ ← modify (set_iovec_pool (replicate (Z.to_nat MAX_IOVECS) None));
  _ ← modify (set_iovec_used (replicate (Z.to_nat MAX_IOVECS) 0));
  _ ← modify (set_max_device_blocks (replicate (Z.to_nat MAX_DEVICES) 0));
  r ← in_ht_host init_hash_table;
  if negb (r =? 0) then mret ENOMEM else
  _ ← upd_bc (fun b => set_bc_lock (Lock (l_c (bc_lock b)) SemBad) b);
  _ ← modify (fun s => set_iovec_lock (Lock (l_c (iovec_lock s)) SemBad) s);
  _ ← upd_bc (set_max_blocks max_blocks);
  _ ← upd_bc (set_bc_flags flags);
  '(r, l) ← in_host new_lock;
  _ ← upd_bc (set_bc_lock l);
  if negb (r =? 0) then init_err else
  '(r, l) ← in_host new_lock;
  _ ← modify (set_iovec_lock l);
  if negb (r =? 0) then init_err else
  p ← in_host (malloc (16 * NUM_FLUSH_BLOCKS));
  _ ← modify (fun s => set_iovec_pool (<[0%nat := p]> (iovec_pool s)) s);
  p ← in_host (malloc (16 * NUM_FLUSH_BLOCKS));
  _ ← modify (fun s => set_iovec_pool (<[1%nat := p]> (iovec_pool s)) s);
  mret 0.

Definition init_cache_for_device (fd max_blocks : Z) : CM Z :=
  if fd >=? MAX_DEVICES then mret (-1) else
  _ ← LOCK_bc;
  n ← dev_blocks fd;
  ret ← (if negb (n =? 0) then mret (-1) else _ ← set_dev_blocks fd max_blocks; mret 0);
  _ ← UNLOCK_bc;
  mret ret.

(** ** The pool of iovec arrays *)

(** The index of the first element that satisfies [f]. *)
Fixpoint find_index {A} (f : A -> bool) (l : list A) : option nat :=
  match l with
  | [] => None
  | x :: l => if f x then Some O else S <$> find_index f l
  end.

(** The test for a failed allocation looks at the pool and not at the new
    array, so the result may be NULL. *)
Definition get_iovec_array : CM (option Z) :=
  _ ← LOCK_iovec;
  s ← get;
  match find_index (fun u => u =? 0) (iovec_used s) with
  | None => hang
  | Some i =>
      iov ← opt (iovec_pool s !! i);
      iov ← (match iov with
             | Some a => mret (Some a)
             | None =>
                 p ← in_host (malloc (16 * NUM_FLUSH_BLOCKS));
                 _ ← modify (fun s => set_iovec_pool (<[i := p]> (iovec_pool s)) s);
                 mret p
             end);
      _ ← modify (fun s => set_iovec_used (<[i := 1]> (iovec_used s)) s);
      _ ← UNLOCK_iovec;
      mret iov
  end.

Definition release_iovec_array (iov : option Z) : CM unit :=
  _ ← LOCK_iovec;
  s ← get;
  _ ← (match find_index (fun p => bool_decide (iov = p)) (iovec_pool s) with
       | Some i => modify (fun s => set_iovec_used (<[i := 0]> (iovec_used s)) s)
       | None => mret tt
       end);
  UNLOCK_iovec.

(** ** Walks over the lists *)

Definition list_fuel (s : cst) : nat := S (size (ces s)).

(** The entries from [ce] along [next]. *)
Fixpoint walk (fuel : nat) (ce : option Z) : CM (list Z) :=
  match ce, fuel with
  | None, _ => mret []
  | Some p, O => hang
  | Some p, S fuel => e ← ent p; l ← walk fuel (ce_next e); mret (p :: l)
  end.

Definition walk_list (w : which) : CM (list Z) := s ← get; walk (list_fuel s) (lru (the_cel w s)).

(** The loops that pick entries: along [next] from [ce] while fewer than [max]
    are picked, an entry that passes [test] is marked busy and picked. *)
Fixpoint pick (fuel : nat) (test : cache_ent -> CM bool) (max : Z) (ce : option Z) (ents : list Z)
  : CM (list Z) :=
  match ce, fuel with
  | None, _ => mret ents
  | Some p, O => hang
  | Some p, S fuel =>
      if len ents <? max then
        e ← ent p;
        yes ← test e;
        if (yes : bool) then
          _ ← upd_ent p (or_flags CE_BUSY);
          pick fuel test max (ce_next e) (ents ++ [p])
        else pick fuel test max (ce_next e) ents
      else mret ents
  end.

Definition pick_from (w : which) (test : cache_ent -> CM bool) (max : Z) (ents : list Z) : CM (list Z) :=
  s ← get; pick (list_fuel s) test max (lru (the_cel w s)) ents.

Fixpoint each {A} (f : A -> CM unit) (l : list A) : CM unit :=
  match l with
  | [] => mret tt
  | x :: l => _ ← f x; each f l
  end.

Definition clear_busy (p : Z) : CM unit := upd_ent p (clear_flags CE_BUSY).

(** ** Sorting

    [qsort] with [cache_ent_cmp], as a stable insertion sort. *)
Fixpoint insert_ent (x : Z * cache_ent) (l : list (Z * cache_ent)) : list (Z * cache_ent) :=
  match l with
  | [] => [x]
  | y :: l => if cache_ent_cmp x.2 y.2 <=? 0 then x :: (y :: l) else y :: insert_ent x l
  end.

Definition sort_ents (l : list (Z * cache_ent)) : list (Z * cache_ent) := foldr insert_ent [] l.

Fixpoint load_ents (l : list Z) : CM (list (Z * cache_ent)) :=
  match l with
  | [] => mret []
  | p :: l => e ← ent p; r ← load_ents l; mret ((p, e) :: r)
  end.

Definition qsort_ents (l : list Z) : CM (list Z) :=
  l ← load_ents l; mret (sort_ents l).*1.

(** ** Flushing *)

Definition nothing_to_flush (e : cache_ent) : bool :=
  negb (is_dirty e) && bool_decide (ce_clone e = None).
(** Dirty data of a locked block may not be written yet, a clone may. *)
Definition flush_forbidden (e : cache_ent) : bool :=
  bool_decide (ce_clone e = None) && negb (ce_lock e =? 0).

(** [if (ce->func) { call it; ce->func = NULL; }] *)
Definition run_callback (p : Z) : CM unit :=
  e ← ent p;
  match ce_func e with
  | Some f => _ ← call_func f (ce_logged_bnum e) (ce_arg e); upd_ent p (ce_set_func None)
  | None => mret tt
  end.

(** One round from [restart]: the result, and whether to go round again. *)
Definition flush_once (p : Z) : CM (Z * bool) :=
  e ← ent p;
  d ← load_buf (match ce_clone e with Some c => Some c | None => ce_data e end) (ce_bsize e);
  ret ← in_os (write_phys_blocks (ce_dev e) (ce_block_num e) d 1 (ce_bsize e));
  _ ← run_callback p;
  e ← ent p;
  match ce_clone e with
  | Some c =>
      _ ← free_buf (Some c);
      _ ← upd_ent p (ce_set_clone None);
      mret (ret, (ce_lock e =? 0) && is_dirty e)
  | None => _ ← upd_ent p (clear_flags CE_DIRTY); mret (ret, false)
  end.

(** The second round finds no clone, so there is no third. *)
Definition flush_cache_ent (p : Z) : CM Z :=
  e ← ent p;
  if nothing_to_flush e then mret 0 else
  if flush_forbidden e then mret 0 else
  '(ret, again) ← flush_once p;
  if (again : bool) then '(ret, _) ← flush_once p; mret ret else mret ret.

(** How many entries go out with the first one: [k] are counted so far. *)
Fixpoint run_length (e0 : cache_ent) (k : Z) (l : list Z) : CM Z :=
  match l with
  | [] => mret k
  | q :: l =>
      if negb (k <? NUM_FLUSH_BLOCKS) then mret k else
      e ← ent q;
      if negb (ce_dev e =? ce_dev e0) || negb (ce_block_num e =? ce_block_num e0 + k) then mret k else
      if flush_forbidden e then mret k else
      run_length e0 (k + 1) l
  end.

(** The buffers of a run, [bsize] bytes of each. *)
Fixpoint gather (bsize : Z) (l : list Z) : CM (list (list byte)) :=
  match l with
  | [] => mret []
  | p :: l =>
      e ← ent p;
      d ← load_buf (match ce_clone e with Some c => Some c | None => ce_data e end) bsize;
      r ← gather bsize l;
      mret (d :: r)
  end.

Definition after_write (p : Z) : CM unit :=
  _ ← run_callback p;
  e ← ent p;
  match ce_clone e with
  | Some c => _ ← free_buf (Some c); upd_ent p (ce_set_clone None)
  | None => upd_ent p (clear_flags CE_DIRTY)
  end.

(** The loop over the entries, with the value of [ret] so far. *)
Fixpoint flush_pass (fuel : nat) (l : list Z) (ret : Z) : CM Z :=
  match l, fuel with
  | [], _ => mret ret
  | _, O => hang
  | p :: l', S fuel =>
      e ← ent p;
      if nothing_to_flush e || flush_forbidden e then flush_pass fuel l' ret else
      n ← run_length e 1 l';
      if n =? 1 then
        ret ← flush_cache_ent p;
        if negb (ret =? 0) then mret ret else flush_pass fuel l' ret
      else
        iov ← gather (ce_bsize e) (take (Z.to_nat n) l);
        ret ← in_os (writev_pos (ce_dev e) (i64 (ce_block_num e * ce_bsize e)) iov);
        if negb (ret =? n * ce_bsize e) then mret EINVAL else
        _ ← each after_write (take (Z.to_nat n) l);
        flush_pass fuel (drop (Z.to_nat n) l) 0
  end.

(** Whether some entry is still dirty and not locked. *)
Fixpoint still_dirty (l : list Z) : CM bool :=
  match l with
  | [] => mret false
  | p :: l =>
      e ← ent p;
      if negb (is_dirty e) || negb (ce_lock e =? 0) then still_dirty l else mret true
  end.

Definition flush_ents (ents : list Z) : CM Z :=
  iov ← get_iovec_array;
  match iov with
  | None => mret ENOMEM
  | Some a =>
      ret ← flush_pass (length ents) ents 0;
      again ← still_dirty ents;
      ret ← (if (again : bool) then flush_pass (length ents) ents ret else mret ret);
      _ ← release_iovec_array (Some a);
      mret ret
  end.

(** Sort, flush, and clear the busy bits, as every caller does. *)
Definition flush_sorted (ents : list Z) : CM Z := l ← qsort_ents ents; flush_ents l.

Definition ready_to_flush (e : cache_ent) : bool :=
  is_dirty e || bool_decide (is_Some (ce_clone e)).

Definition cache_flusher : CM unit :=
  now ← in_os system_time;
  s ← get;
  if now - last_cache_access s <? 1000000 then mret tt else
  _ ← LOCK_bc;
  ents ← pick_from Normal (fun e => mret (negb (is_busy e) && ready_to_flush e)) NUM_FLUSH_BLOCKS [];
  ents ← (if len ents <? NUM_FLUSH_BLOCKS
          then pick_from Locked (fun e => mret (negb (is_busy e) && bool_decide (is_Some (ce_clone e))))
                 NUM_FLUSH_BLOCKS ents
          else mret ents);
  _ ← UNLOCK_bc;
  if len ents =? 0 then mret tt else
  ents ← qsort_ents ents;
  _ ← flush_ents ents;
  each clear_busy ents.

Definition force_cache_flush (dev prefer_log_blocks : Z) : CM unit :=
  _ ← LOCK_bc;
  ents ← pick_from Normal
           (fun e => mret ((ce_dev e =? dev) && negb (is_busy e) && ready_to_flush e &&
              (negb (prefer_log_blocks =? 0) && bool_decide (is_Some (ce_func e)) || (prefer_log_blocks =? 0))))
           NUM_FLUSH_BLOCKS [];
  ents ← (if len ents <? NUM_FLUSH_BLOCKS
          then pick_from Locked
                 (fun e => mret ((ce_dev e =? dev) && negb (is_busy e) && bool_decide (is_Some (ce_clone e))))
                 NUM_FLUSH_BLOCKS ents
          else mret ents);
  _ ← UNLOCK_bc;
  if len ents =? 0 then mret tt else
  ents ← qsort_ents ents;
  _ ← flush_ents ents;
  each clear_busy ents.

Definition do_flush (ents : list Z) : CM unit :=
  _ ← each (fun p => upd_ent p (or_flags CE_BUSY)) ents;
  _ ← UNLOCK_bc;
  ents ← qsort_ents ents;
  _ ← flush_ents ents;
  _ ← LOCK_bc;
  each clear_busy ents.

(** One of the two loops of [flush_device]: when 64 entries are gathered they
    are flushed and the walk starts over.  Each round that does not repeat
    the last one for ever writes something or uses up a failure of the device,
    so [flush_fuel] is enough. *)
Fixpoint flush_list (fuel : nat) (w : which) (test : cache_ent -> bool) (dev : Z)
    (ce : option Z) (ents : list Z) : CM (list Z) :=
  match ce, fuel with
  | None, _ => mret ents
  | Some p, O => hang
  | Some p, S fuel =>
      e ← ent p;
      if negb (ce_dev e =? dev) || is_busy e then flush_list fuel w test dev (ce_next e) ents else
      if test e then
        let ents := ents ++ [p] in
        if len ents >=? NUM_FLUSH_BLOCKS then
          _ ← do_flush ents;
          s ← get;
          flush_list fuel w test dev (lru (the_cel w s)) []
        else flush_list fuel w test dev (ce_next e) ents
      else flush_list fuel w test dev (ce_next e) ents
  end.

Definition flush_fuel (s : cst) : nat :=
  S (size (ces s)) * S (2 * size (ces s) + 2 * length (os_fail (cs_os s))).

Definition flush_one_list (w : which) (test : cache_ent -> bool) (dev : Z) : CM unit :=
  s ← get;
  ents ← flush_list (flush_fuel s) w test dev (lru (the_cel w s)) [];
  if negb (len ents =? 0) then do_flush ents else mret tt.

Definition flush_device (dev warn_locked : Z) : CM Z :=
  _ ← LOCK_bc;
  _ ← flush_one_list Normal ready_to_flush dev;
  _ ← flush_one_list Locked (fun e => bool_decide (is_Some (ce_clone e))) dev;
  _ ← UNLOCK_bc;
  mret 0.

(** ** Looking up *)

(** A busy entry is waited for with the lock released; nobody else runs, so
    the wait does not end. *)
Definition block_lookup (dev bnum : Z) : CM (option Z) :=
  r ← in_ht (hash_lookup dev bnum);
  match r with
  | None => mret None
  | Some p => e ← ent p; if is_busy e then hang else mret (Some p)
  end.

(** [bnum != ce->block_num || dev != ce->dev] *)
Definition wrong_block (e : cache_ent) (dev bnum : Z) : bool :=
  negb (bnum =? ce_block_num e) || negb (dev =? ce_dev e).

(** ** Removing *)

(** Frees what an entry owns, takes it out of the hash table, and frees it.
    [die] is whether a wrong hash table entry makes the caller panic. *)
Definition drop_ent (die : bool) (p : Z) : CM unit :=
  e ← ent p;
  _ ← free_buf (ce_clone e);
  _ ← upd_ent p (ce_set_clone None);
  _ ← free_buf (ce_data e);
  _ ← upd_ent p (ce_set_data None);
  junk ← in_ht (hash_delete (ce_dev e) (ce_block_num e));
  _ ← (if die && negb (bool_decide (junk = Some p)) then hang else mret tt);
  _ ← free_ent p;
  upd_bc (fun b => set_cur_blocks (cur_blocks b - 1) b).

Fixpoint delete_ents (fuel : nat) (ce : option Z) : CM unit :=
  match ce, fuel with
  | None, _ => mret tt
  | Some p, O => hang
  | Some p, S fuel =>
      e ← ent p;
      _ ← (if ready_to_flush e then _ ← flush_cache_ent p; mret tt else mret tt);
      _ ← drop_ent false p;
      delete_ents fuel (ce_next e)
  end.

Definition delete_cache_list (w : which) : CM unit :=
  s ← get; delete_ents (list_fuel s) (lru (the_cel w s)).

Definition shutdown_block_cache : CM unit :=
  s ← get;
  _ ← (if sem_positive (l_s (bc_lock (bc s))) then LOCK_bc else mret tt);
  _ ← delete_cache_list Normal;
  _ ← delete_cache_list Locked;
  _ ← modify (set_cel Normal zero_cel);
  _ ← modify (set_cel Locked zero_cel);
  _ ← in_ht_host shutdown_hash_table;
  s ← get;
  _ ← (if sem_positive (l_s (bc_lock (bc s))) then in_host (free_lock (bc_lock (bc s))) else mret 0);
  _ ← upd_bc (fun b => set_bc_lock (Lock (l_c (bc_lock b)) SemBad) b);
  s ← get;
  _ ← in_host (free_lock (iovec_lock s));
  mret tt.

(** Out of its list, without touching its own links. *)
Definition unlink_ent (p : Z) : M (gmap Z cache_ent * cache_ent_list) unit :=
  e ← lm_ent p;
  cel ← lm_cel;
  _ ← (if decide (lru cel = Some p) then set_lru (ce_next e) else mret tt);
  _ ← (if decide (mru cel = Some p) then set_mru (ce_prev e) else mret tt);
  _ ← (match ce_prev e with Some q => lm_upd q (ce_set_next (ce_next e)) | None => mret tt end);
  e ← lm_ent p;
  match ce_next e with Some q => lm_upd q (ce_set_prev (ce_prev e)) | None => mret tt end.

Fixpoint remove_ents (fuel : nat) (dev allow_writes : Z) (w : which) (ce : option Z) : CM unit :=
  match ce, fuel with
  | None, _ => mret tt
  | Some p, O => hang
  | Some p, S fuel =>
      e ← ent p;
      if negb (ce_dev e =? dev) then remove_ents fuel dev allow_writes w (ce_next e) else
      _ ← (if (allow_writes =? ALLOW_WRITES) && ready_to_flush e then
             _ ← upd_ent p (or_flags CE_BUSY);
             _ ← flush_cache_ent p;
             clear_busy p
           else mret tt);
      _ ← in_list w (unlink_ent p);
      _ ← drop_ent true p;
      remove_ents fuel dev allow_writes w (ce_next e)
  end.

Definition real_remove_cached_blocks (dev allow_writes : Z) (w : which) : CM unit :=
  s ← get; remove_ents (list_fuel s) dev allow_writes w (lru (the_cel w s)).

Definition remove_cached_device_blocks (dev allow_writes : Z) : CM Z :=
  _ ← LOCK_bc;
  _ ← real_remove_cached_blocks dev allow_writes Normal;
  _ ← real_remove_cached_blocks dev allow_writes Locked;
  _ ← set_dev_blocks dev 0;
  _ ← UNLOCK_bc;
  mret 0.

(** ** Flushing a range of blocks *)

(** [Some ents]: what is left to flush at the end of the loop. *)
Fixpoint flush_range (n : nat) (dev bnum : Z) (ents : list Z) : CM (list Z) :=
  match n with
  | O => mret ents
  | S n =>
      ce ← block_lookup dev bnum;
      match ce with
      | None => flush_range n dev (bnum + 1) ents
      | Some p =>
          e ← ent p;
          if wrong_block e dev bnum then hang else
          if nothing_to_flush e then flush_range n dev (bnum + 1) ents else
          _ ← upd_ent p (or_flags CE_BUSY);
          let ents := ents ++ [p] in
          if len ents >=? NUM_FLUSH_BLOCKS then
            _ ← UNLOCK_bc;
            ents ← qsort_ents ents;
            _ ← flush_ents ents;
            _ ← LOCK_bc;
            _ ← each clear_busy ents;
            flush_range n dev (bnum + 1) []
          else flush_range n dev (bnum + 1) ents
      end
  end.

Definition flush_blocks (dev bnum nblocks : Z) : CM Z :=
  if nblocks =? 0 then mret 0 else
  _ ← LOCK_bc;
  ents ← flush_range (Z.to_nat nblocks) dev bnum [];
  _ ← UNLOCK_bc;
  if len ents =? 0 then mret 0 else
  ents ← qsort_ents ents;
  _ ← flush_ents ents;
  _ ← each clear_busy ents;
  mret 0.

(** ** Dirty blocks and releasing *)

Fixpoint mark_loop (n : nat) (dev bnum : Z) : CM Z :=
  match n with
  | O => mret 0
  | S n =>
      ce ← block_lookup dev bnum;
      match ce with
      | Some p => _ ← upd_ent p (or_flags CE_DIRTY); mark_loop n dev (bnum + 1)
      | None => mret ENOENT
      end
  end.

Definition mark_blocks_dirty (dev bnum nblocks : Z) : CM Z :=
  _ ← LOCK_bc;
  ret ← mark_loop (Z.to_nat nblocks) dev bnum;
  _ ← UNLOCK_bc;
  mret ret.

(** [ce->lock--], and to the normal list with the last lock. *)
Definition unlock_ent (p : Z) : CM unit :=
  _ ← upd_ent p (fun e => ce_set_lock (ce_lock e - 1) e);
  e ← ent p;
  if ce_lock e =? 0 then
    _ ← in_list Locked (delete_from_list p);
    in_list Normal (add_to_head p)
  else mret tt.

Definition release_block (dev bnum : Z) : CM Z :=
  _ ← LOCK_bc;
  ce ← block_lookup dev bnum;
  match ce with
  | None => hang
  | Some p =>
      e ← ent p;
      if wrong_block e dev bnum then hang else
      _ ← unlock_ent p;
      _ ← UNLOCK_bc;
      mret 0
  end.

(** ** Journal callbacks *)

(** The first loop of [set_blocks_info]: marks the blocks busy and flushes the
    clones that an earlier transaction left. *)
Fixpoint info_mark (dev : Z) (blocks : list Z) (ents : list Z) : CM (list Z) :=
  match blocks with
  | [] => mret ents
  | b :: blocks =>
      ce ← block_lookup dev b;
      match ce with
      | None => hang
      | Some p =>
          e ← ent p;
          if wrong_block e dev b then hang else
          if ce_lock e =? 0 then hang else
          if negb (is_dirty e) then hang else
          _ ← upd_ent p (or_flags CE_BUSY);
          if bool_decide (is_Some (ce_clone e)) && bool_decide (is_Some (ce_func e)) then
            let ents := ents ++ [p] in
            if len ents >=? NUM_FLUSH_BLOCKS then
              _ ← UNLOCK_bc;
              ents ← qsort_ents ents;
              _ ← flush_ents ents;
              _ ← LOCK_bc;
              _ ← each clear_busy ents;
              info_mark dev blocks []
            else info_mark dev blocks ents
          else info_mark dev blocks ents
      end
  end.

(** The second loop: clones each block and sets its callback. *)
Fixpoint info_set (dev : Z) (blocks : list Z) (func : option Z) (arg : option Z) : CM unit :=
  match blocks with
  | [] => mret tt
  | b :: blocks =>
      ce ← in_ht (hash_lookup dev b);
      match ce with
      | None => hang
      | Some p =>
          _ ← upd_ent p (clear_flags (Z.lor CE_DIRTY CE_BUSY));
          e ← ent p;
          if bool_decide (is_Some (ce_func e)) then hang else
          if bool_decide (is_Some (ce_clone e)) then hang else
          c ← malloc_buf (ce_bsize e);
          match c with
          | None => hang
          | Some _ =>
              _ ← upd_ent p (ce_set_clone c);
              d ← load_buf (ce_data e) (ce_bsize e);
              _ ← store_buf c d;
              _ ← upd_ent p (ce_set_func func);
              _ ← upd_ent p (ce_set_arg arg);
              _ ← upd_ent p (ce_set_logged_bnum b);
              _ ← unlock_ent p;
              info_set dev blocks func arg
          end
      end
  end.

Definition set_blocks_info (dev : Z) (blocks : list Z) (func arg : option Z) : CM Z :=
  _ ← LOCK_bc;
  ents ← info_mark dev blocks [];
  _ ← (if negb (len ents =? 0) then
         _ ← UNLOCK_bc;
         ents ← qsort_ents ents;
         _ ← flush_ents ents;
         _ ← LOCK_bc;
         each clear_busy ents
       else mret tt);
  _ ← info_set dev blocks func arg;
  _ ← UNLOCK_bc;
  mret 0.

(** ** Self checks *)

(** [cur_blocks] may exceed the count by up to 16. *)
Definition check_bcache : CM unit :=
  _ ← LOCK_bc;
  l1 ← walk_list Normal;
  l2 ← walk_list Locked;
  s ← get;
  let count := len l1 + len l2 in
  if negb (count =? cur_blocks (bc s)) && (count <? cur_blocks (bc s) - 16) then hang else UNLOCK_bc.

Definition check_one_list (w w' : which) : CM unit :=
  s ← get;
  l ← walk_list w;
  l' ← walk_list w';
  if existsb (fun p => bool_decide (p ∈ l')) l then hang else
  if bool_decide (is_Some (last l)) && negb (bool_decide (last l = mru (the_cel w s))) then hang else mret tt.

Definition check_lists : CM unit :=
  _ ← check_one_list Normal Locked;
  check_one_list Locked Normal.
