(* ===== verification/CacheIo.v ===== *)
(** * CacheIo: reading and writing blocks through the cache (cache.c)

    [cache_block_io] and the operations made of it. *)

From S2P Require Import Prelude Bytes Host Device HashTable CacheList Cache.
Local Open Scope Z_scope.

(** ** Entries for new blocks *)

(** An entry with a buffer that belongs to no block yet.  Its [bsize] is 0. *)
Definition new_cache_ent (bsize : Z) : CM Z :=
  p ← in_host (malloc 88);
  match p with
  | None => hang
  | Some p =>
      _ ← modify (fun s => set_ces (<[p := CE 0 0 0 0 None None 0 None 0 None None None]> (ces s)) s);
      d ← malloc_buf bsize;
      _ ← upd_ent p (ce_set_data d);
      match d with
      | None => _ ← free_ent p; hang
      | Some _ => _ ← upd_ent p (ce_set_dev (-1)); _ ← upd_ent p (ce_set_block_num (-1)); mret p
      end
  end.

(** While the cache is not full, new entries. *)
Fixpoint new_ents (n : nat) (bsize : Z) : CM (list Z) :=
  match n with
  | O => mret []
  | S n =>
      s ← get;
      if cur_blocks (bc s) <? max_blocks (bc s) then
        p ← new_cache_ent bsize;
        _ ← upd_bc (fun b => set_cur_blocks (cur_blocks b + 1) b);
        l ← new_ents n bsize;
        mret (p :: l)
      else mret []
  end.

(** Entries from the LRU end of the normal list; [n] bounds the tries. *)
Fixpoint pluck (n : nat) (num_needed : Z) (ents : list Z) : CM (list Z) :=
  if negb (len ents <? num_needed) then mret ents else
  match n with
  | O => _ ← UNLOCK_bc; hang
  | S n =>
      ents ← pick_from Normal
               (fun e => if negb (ce_lock e =? 0) then hang else mret (negb (is_busy e)))
               num_needed ents;
      if len ents <? num_needed then
        _ ← UNLOCK_bc;
        _ ← in_host snooze;
        _ ← LOCK_bc;
        pluck n num_needed ents
      else pluck n num_needed ents
  end.

Definition get_ents (num_needed max bsize : Z) : CM (list Z) :=
  if num_needed >? max then hang else
  ents ← new_ents (Z.to_nat num_needed) bsize;
  ents ← pluck (Z.to_nat (num_needed * 256)) num_needed ents;
  match last ents with
  | None => mret ents
  | Some p =>
      e ← ent p;
      if (len ents <? max) && ready_to_flush e then
        s ← get;
        pick (list_fuel s)
          (fun e => if is_busy e then mret false else if negb (ce_lock e =? 0) then hang else mret true)
          max (ce_next e) ents
      else mret ents
  end.

(** Fills the buffers of the entries with consecutive bytes. *)
Fixpoint scatter (bsize : Z) (l : list Z) (d : list byte) : CM unit :=
  match l with
  | [] => mret tt
  | p :: l =>
      e ← ent p;
      _ ← store_buf (ce_data e) (take (Z.to_nat bsize) d);
      scatter bsize l (drop (Z.to_nat bsize) d)
  end.

Definition read_into_ents (dev bnum : Z) (ents : list Z) (bsize : Z) : CM Z :=
  iov ← get_iovec_array;
  match iov with
  | None => fault
  | Some a =>
      '(ret, d) ← in_os (readv_pos dev (i64 (bnum * bsize)) (replicate (length ents) bsize));
      _ ← scatter bsize ents d;
      _ ← release_iovec_array (Some a);
      if negb (ret =? len ents * bsize) then mret EINVAL else mret 0
  end.

(** ** The request *)

Definition CACHE_READ : Z := 1.
Definition CACHE_WRITE : Z := 2.
Definition CACHE_NOOP : Z := 4.
Definition CACHE_LOCKED : Z := 8.
Definition CACHE_READ_AHEAD_OK : Z := 16.

Definition has (op f : Z) : bool := negb (Z.land op f =? 0).

(** [memcpy(ce->data, data, bsize)] *)
Definition copy_in (p bsize : Z) (data : option (list byte)) : CM unit :=
  d ← opt data;
  d ← opt (read_at 0 bsize d);
  e ← ent p;
  store_buf (ce_data e) d.

(** ** Large transfers, past the cache *)

(** Cached copies replace what was read from the device. *)
Fixpoint overlay_read (n : nat) (dev bnum bsize : Z) (d : list byte) : CM (list byte) :=
  match n with
  | O => mret []
  | S n =>
      ce ← block_lookup dev bnum;
      b ← (match ce with
           | Some p =>
               e ← ent p;
               if wrong_block e dev bnum then hang else load_buf (ce_data e) bsize
           | None => mret (take (Z.to_nat bsize) d)
           end);
      r ← overlay_read n dev (bnum + 1) bsize (drop (Z.to_nat bsize) d);
      mret (b ++ r)
  end.

(** Cached copies are brought up to date with what is written. *)
Fixpoint overlay_write (n : nat) (dev bnum bsize : Z) (d : list byte) : CM unit :=
  match n with
  | O => mret tt
  | S n =>
      ce ← block_lookup dev bnum;
      _ ← (match ce with
           | Some p =>
               e ← ent p;
               if wrong_block e dev bnum then hang else
               _ ← (if bool_decide (is_Some (ce_clone e)) then _ ← flush_cache_ent p; mret tt else mret tt);
               copy_in p bsize (Some d)
           | None => mret tt
           end);
      overlay_write n dev (bnum + 1) bsize (drop (Z.to_nat bsize) d)
  end.

(** The result and the bytes read. *)
Definition large_io (dev bnum : Z) (data : option (list byte)) (num_blocks bsize op : Z)
  : CM (Z * list byte) :=
  match data with
  | None => hang
  | Some data =>
      if has op CACHE_LOCKED then hang else
      if has op CACHE_READ then
        '(r, d) ← in_os (read_phys_blocks dev bnum (u32 num_blocks) bsize);
        if negb (r =? 0) then mret (EINVAL, d) else
        _ ← LOCK_bc;
        d ← overlay_read (Z.to_nat num_blocks) dev bnum bsize d;
        _ ← UNLOCK_bc;
        mret (0, d)
      else if has op CACHE_WRITE then
        _ ← LOCK_bc;
        _ ← overlay_write (Z.to_nat num_blocks) dev bnum bsize data;
        _ ← UNLOCK_bc;
        r ← in_os (write_phys_blocks dev bnum data (u32 num_blocks) bsize);
        if negb (r =? 0) then mret (EINVAL, []) else mret (0, [])
      else mret (EINVAL, [])
  end.

(** ** A block that is in the cache *)

Definition cel_of (e : cache_ent) : which := if ce_lock e =? 0 then Normal else Locked.

(** What the operation does with the data of an entry: the bytes that go to
    [data], and the new [*dataptr].  [want] is whether [dataptr] is there. *)
Definition hit_data (p : Z) (data : option (list byte)) (bsize op : Z) (want : bool) (dptr : option Z)
  : CM (list byte * option Z) :=
  e ← ent p;
  if has op CACHE_READ then
    match data with
    | Some _ => d ← load_buf (ce_data e) bsize; mret (d, dptr)
    | None => mret ([], if want then ce_data e else dptr)
    end
  else if has op CACHE_WRITE then
    _ ← (match data with Some _ => copy_in p bsize data | None => mret tt end);
    _ ← upd_ent p (or_flags CE_DIRTY);
    mret ([], dptr)
  else if has op CACHE_NOOP then
    _ ← store_buf (ce_data e) (replicate (Z.to_nat bsize) x00);
    _ ← upd_ent p (or_flags CE_DIRTY);
    mret (match data with Some _ => replicate (Z.to_nat bsize) x00 | None => [] end,
          if want then ce_data e else dptr)
  else hang.

(** The entry moves to the head of its list, which may change. *)
Definition io_hit (p dev bnum : Z) (data : option (list byte)) (bsize op : Z) (want : bool) (dptr : option Z)
  : CM (list byte * option Z) :=
  e ← ent p;
  if wrong_block e dev bnum then hang else
  if negb (bsize =? ce_bsize e) then hang else
  _ ← in_list (cel_of e) (delete_from_list p);
  r ← hit_data p data bsize op want dptr;
  _ ← (if has op CACHE_LOCKED then upd_ent p (fun e => ce_set_lock (ce_lock e + 1) e) else mret tt);
  e ← ent p;
  _ ← in_list (cel_of e) (add_to_head p);
  mret r.

(** ** Blocks that are not in the cache *)

(** How many blocks from [bnum] on are wanted and not cached; [k] are known. *)
Fixpoint count_missing (fuel : nat) (dev bnum num_blocks k : Z) : CM Z :=
  match fuel with
  | O => mret k
  | S fuel =>
      if (k <? num_blocks) && (k <? NUM_FLUSH_BLOCKS) then
        r ← in_ht (hash_lookup dev (bnum + k));
        match r with Some _ => mret k | None => count_missing fuel dev bnum num_blocks (k + 1) end
      else mret k
  end.

(** How far read-ahead goes. *)
Fixpoint count_ahead (fuel : nat) (dev bnum limit k : Z) : CM Z :=
  match fuel with
  | O => mret k
  | S fuel =>
      if k <? limit then
        n ← dev_blocks dev;
        if bnum + k >=? n then mret k else
        r ← in_ht (hash_lookup dev (bnum + k));
        match r with Some _ => mret k | None => count_ahead fuel dev bnum limit (k + 1) end
      else mret k
  end.

Definition needed_blocks (dev bnum bsize op cur_nblocks : Z) : CM Z :=
  if has op CACHE_READ && has op CACHE_READ_AHEAD_OK && (cur_nblocks * bsize <? read_ahead_size) then
    let limit := Z.quot read_ahead_size bsize in
    count_ahead (Z.to_nat limit) dev bnum limit cur_nblocks
  else mret cur_nblocks.

(** Marks the entries busy, enters the first [num_needed] of them in the hash
    table under their new block, and takes the used ones off the normal list.
    [bnum] is the new block of the first; the result is how many are dirty. *)
Fixpoint claim_ents (l : list Z) (num_needed dev bnum num_dirty : Z) : CM Z :=
  match l with
  | [] => mret num_dirty
  | p :: l =>
      _ ← upd_ent p (or_flags CE_BUSY);
      _ ← (if 0 <? num_needed then
             r ← in_ht_host (hash_insert dev bnum p);
             if negb (r =? 0) then hang else mret tt
           else mret tt);
      e ← ent p;
      if ce_dev e =? -1 then claim_ents l (num_needed - 1) dev (bnum + 1) num_dirty else
      let num_dirty := if ready_to_flush e then num_dirty + 1 else num_dirty in
      if negb (ce_lock e =? 0) then hang else
      _ ← in_list Normal (delete_from_list p);
      claim_ents l (num_needed - 1) dev (bnum + 1) num_dirty
  end.

(** Buffers of another size are freed, then allocated anew. *)
Definition free_wrong_size (bsize p : Z) : CM unit :=
  e ← ent p;
  if negb (ce_bsize e =? bsize) then
    _ ← free_buf (ce_data e);
    _ ← upd_ent p (ce_set_data None);
    match ce_clone e with
    | Some c => _ ← free_buf (Some c); upd_ent p (ce_set_clone None)
    | None => mret tt
    end
  else mret tt.

Fixpoint alloc_data (bsize : Z) (l : list Z) : CM Z :=
  match l with
  | [] => mret 0
  | p :: l =>
      e ← ent p;
      match ce_data e with
      | Some _ => alloc_data bsize l
      | None =>
          d ← malloc_buf bsize;
          _ ← upd_ent p (ce_set_data d);
          _ ← upd_ent p (ce_set_bsize bsize);
          match d with None => mret ENOMEM | Some _ => alloc_data bsize l end
      end
  end.

(** [handle_err]: undoes the claim of the first [num_needed] entries, which
    are freed; an entry that was new makes the second deletion panic. *)
Fixpoint undo_claim (l : list Z) (dev bnum : Z) : CM unit :=
  match l with
  | [] => mret tt
  | p :: l =>
      r ← in_ht (hash_delete dev bnum);
      if negb (bool_decide (r = Some p)) then hang else
      e ← ent p;
      r ← in_ht (hash_delete (ce_dev e) (ce_block_num e));
      if negb (bool_decide (r = Some p)) then hang else
      _ ← clear_busy p;
      _ ← free_buf (ce_data e);
      _ ← free_ent p;
      _ ← upd_bc (fun b => set_cur_blocks (cur_blocks b - 1) b);
      undo_claim l dev (bnum + 1)
  end.

Definition handle_err (l : list Z) (num_needed dev bnum : Z) : CM Z :=
  _ ← undo_claim (take (Z.to_nat num_needed) l) dev bnum;
  _ ← (match drop (Z.to_nat num_needed) l with
       | [] => mret tt
       | rest =>
           _ ← LOCK_bc;
           _ ← each (fun p => _ ← clear_busy p; in_list Normal (add_to_tail p)) rest;
           UNLOCK_bc
       end);
  mret ENOMEM.

(** The entries leave their old blocks; those past [cur_nblocks], read ahead,
    are complete.  [k] is the index of the first. *)
Fixpoint rename_ents (l : list Z) (k cur_nblocks dev bnum err : Z) : CM unit :=
  match l with
  | [] => mret tt
  | p :: l =>
      e ← ent p;
      _ ← (if negb (ce_dev e =? -1) then
             r ← in_ht (hash_delete (ce_dev e) (ce_block_num e));
             if negb (bool_decide (r = Some p)) then hang else mret tt
           else mret tt);
      _ ← (if (err =? 0) && (k >=? cur_nblocks) then
             _ ← upd_ent p (ce_set_dev dev);
             _ ← upd_ent p (ce_set_block_num (bnum + k));
             _ ← clear_busy p;
             in_list Normal (add_to_head p)
           else mret tt);
      rename_ents l (k + 1) cur_nblocks dev bnum err
  end.

(** The extra entries go back, clean, to the LRU end. *)
Definition put_back (p : Z) : CM unit :=
  _ ← clear_busy p;
  e ← ent p;
  if negb (ce_lock e =? 0) then hang else in_list Normal (add_to_tail p).

(** After a failed read: the entries are freed. *)
Fixpoint discard_ents (l : list Z) (dev bnum : Z) : CM unit :=
  match l with
  | [] => mret tt
  | p :: l =>
      r ← in_ht (hash_delete dev bnum);
      if negb (bool_decide (r = Some p)) then hang else
      _ ← clear_busy p;
      e ← ent p;
      _ ← free_buf (ce_data e);
      _ ← upd_ent p (ce_set_data None);
      _ ← free_ent p;
      _ ← upd_bc (fun b => set_cur_blocks (cur_blocks b - 1) b);
      discard_ents l dev (bnum + 1)
  end.

(** An entry becomes block [bnum], and the operation is done on it. *)
Definition settle_ent (p dev bnum : Z) (data : option (list byte)) (bsize op : Z) (want : bool)
    (dptr : option Z) : CM (list byte * option Z) :=
  e ← ent p;
  _ ← (if negb (ce_dev e =? -1) then
         if bool_decide (is_Some (ce_next e)) || bool_decide (is_Some (ce_prev e)) then hang else
         _ ← free_buf (ce_clone e);
         if bool_decide (ce_data e = None) then hang else mret tt
       else mret tt);
  _ ← upd_ent p (fun e => CE dev bnum bsize CE_NORMAL (ce_data e) None 0 None (ce_logged_bnum e) None None None);
  e ← ent p;
  out ← (if has op CACHE_READ then
           match data with Some _ => load_buf (ce_data e) bsize | None => mret [] end
         else if has op CACHE_WRITE then
           _ ← upd_ent p (or_flags CE_DIRTY);
           _ ← copy_in p bsize data;
           mret []
         else if has op CACHE_NOOP then
           _ ← store_buf (ce_data e) (replicate (Z.to_nat bsize) x00);
           _ ← upd_ent p (or_flags CE_DIRTY);
           mret (match data with Some _ => replicate (Z.to_nat bsize) x00 | None => [] end)
         else mret []);
  _ ← (if has op CACHE_LOCKED then
         _ ← upd_ent p (fun e => ce_set_lock (ce_lock e + 1) e);
         in_list Locked (add_to_head p)
       else in_list Normal (add_to_head p));
  mret (out, if want then ce_data e else dptr).

Definition drop_data (bsize : Z) (data : option (list byte)) : option (list byte) :=
  drop (Z.to_nat bsize) <$> data.

Fixpoint settle_ents (l : list Z) (cur_nblocks dev bnum : Z) (data : option (list byte)) (bsize op : Z)
    (want : bool) (out : list byte) (dptr : option Z) : CM (list byte * option Z) :=
  match l with
  | [] => mret (out, dptr)
  | p :: l =>
      '(o, dptr) ← settle_ent p dev bnum data bsize op want dptr;
      if bool_decide (data = None) && negb (cur_nblocks =? 1) then hang else
      settle_ents l cur_nblocks dev (bnum + 1) (drop_data bsize data) bsize op want (out ++ o) dptr
  end.

(** The error, how many blocks were done, and the results. *)
Definition io_miss (dev bnum : Z) (data : option (list byte)) (num_blocks bsize op : Z) (want : bool)
    (dptr : option Z) : CM (Z * Z * list byte * option Z) :=
  cur_nblocks ← count_missing (Z.to_nat NUM_FLUSH_BLOCKS) dev bnum num_blocks 1;
  num_needed ← needed_blocks dev bnum bsize op cur_nblocks;
  ents ← get_ents num_needed NUM_FLUSH_BLOCKS bsize;
  if len ents <? num_needed then hang else
  ents ← qsort_ents ents;
  num_dirty ← claim_ents ents num_needed dev bnum 0;
  let io := negb (num_dirty =? 0) || has op CACHE_READ in
  _ ← (if io then UNLOCK_bc else mret tt);
  err ← (if negb (num_dirty =? 0) then flush_ents ents else mret 0);
  let mine := take (Z.to_nat num_needed) ents in
  err ← (if negb (err =? 0) then mret err else
         _ ← each (free_wrong_size bsize) mine;
         alloc_data bsize mine);
  if negb (err =? 0) then r ← handle_err ents num_needed dev bnum; mret (r, 0, [], dptr) else
  err ← (if io then
           err ← (if has op CACHE_READ then read_into_ents dev bnum mine bsize else mret 0);
           _ ← LOCK_bc;
           mret err
         else mret 0);
  _ ← rename_ents mine 0 cur_nblocks dev bnum err;
  _ ← each put_back (drop (Z.to_nat num_needed) ents);
  if negb (err =? 0) then
    _ ← discard_ents mine dev bnum;
    _ ← UNLOCK_bc;
    mret (err, 0, [], dptr)
  else
    '(out, dptr) ← settle_ents (take (Z.to_nat cur_nblocks) ents) cur_nblocks dev bnum data bsize op want [] dptr;
    mret (0, cur_nblocks, out, dptr).

(** ** The loop over the request *)

Fixpoint io_loop (fuel : nat) (dev bnum : Z) (data : option (list byte)) (num_blocks bsize op : Z)
    (want : bool) (out : list byte) (dptr : option Z) : CM (Z * list byte * option Z) :=
  if num_blocks =? 0 then _ ← UNLOCK_bc; mret (0, out, dptr) else
  match fuel with
  | O => hang
  | S fuel =>
      ce ← block_lookup dev bnum;
      match ce with
      | Some p =>
          '(o, dptr) ← io_hit p dev bnum data bsize op want dptr;
          io_loop fuel dev (bnum + 1) (drop_data bsize data) (num_blocks - 1) bsize op want (out ++ o) dptr
      | None =>
          '(err, n, o, dptr) ← io_miss dev bnum data num_blocks bsize op want dptr;
          if negb (err =? 0) then mret (err, out ++ o, dptr) else
          io_loop fuel dev (bnum + n) (drop_data (n * bsize) data) (num_blocks - n) bsize op want (out ++ o) dptr
      end
  end.

(** The error, the bytes put at [data], and [*dataptr].  A request past the
    end of the device stores to address 0x3100. *)
Definition cache_block_io (dev bnum : Z) (data : option (list byte)) (num_blocks bsize op : Z) (want : bool)
  : CM (Z * list byte * option Z) :=
  if bsize =? 0 then hang else
  if num_blocks =? 0 then hang else
  if bool_decide (data = None) && negb want then mret (ENOMEM, [], None) else
  if bool_decide (data = None) && (negb (num_blocks =? 1) || has op CACHE_WRITE) then hang else
  max ← dev_blocks dev;
  if bnum + num_blocks >? max then fault else
  now ← in_os system_time;
  _ ← modify (set_last_cache_access now);
  if i64 (num_blocks * bsize) >=? 64 * 1024 then
    '(err, d) ← large_io dev bnum data num_blocks bsize op; mret (err, d, None)
  else
    _ ← LOCK_bc;
    io_loop (Z.to_nat num_blocks) dev bnum data num_blocks bsize op want [] None.

(** ** Operations for clients *)

(** The address of the data, or NULL. *)
Definition get_block (dev bnum bsize : Z) : CM (option Z) :=
  '(r, _, p) ← cache_block_io dev bnum None 1 bsize (CACHE_READ + CACHE_LOCKED + CACHE_READ_AHEAD_OK) true;
  mret (if r =? 0 then p else None).

Definition get_empty_block (dev bnum bsize : Z) : CM (option Z) :=
  '(r, _, p) ← cache_block_io dev bnum None 1 bsize (CACHE_NOOP + CACHE_LOCKED) true;
  mret (if r =? 0 then p else None).

Definition cached_read (dev bnum num_blocks bsize : Z) : CM (Z * list byte) :=
  '(r, d, _) ← cache_block_io dev bnum (Some []) num_blocks bsize (CACHE_READ + CACHE_READ_AHEAD_OK) false;
  mret (r, d).

Definition cached_write (dev bnum : Z) (data : list byte) (num_blocks bsize : Z) : CM Z :=
  '(r, _, _) ← cache_block_io dev bnum (Some data) num_blocks bsize CACHE_WRITE false;
  mret r.

Definition cached_write_locked (dev bnum : Z) (data : list byte) (num_blocks bsize : Z) : CM Z :=
  '(r, _, _) ← cache_block_io dev bnum (Some data) num_blocks bsize (CACHE_WRITE + CACHE_LOCKED) false;
  mret r.
