(* ===== verification/CacheInv.v ===== *)
(** * CacheInv: the invariant of the block cache

    What holds of the state of Cache.v between operations and, with entries
    that are temporarily off the lists, inside them; and the effect of the
    steps that do not move entries: memory, lists, look-ups, flushing. *)

From S2P Require Import Prelude Bytes Host Device HashTable CacheList Cache.
Local Open Scope Z_scope.

(** ** Flags *)

Lemma land_lor_ne f a b : Z.land a b = 0 -> Z.land (Z.lor f a) b = Z.land f b.
Proof. intros E. by rewrite Z.land_lor_distr_l, E, Z.lor_0_r. Qed.
Lemma land_clear_ne f a b : Z.land a b = 0 -> Z.land (Z.land f (Z.lnot a)) b = Z.land f b.
Proof.
  intros E. apply Z.bits_inj'. intros n Hn. rewrite !Z.land_spec, Z.lnot_spec by done.
  assert (Z.testbit (Z.land a b) n = false) as H by (rewrite E; apply Z.bits_0).
  rewrite Z.land_spec in H. destruct (Z.testbit a n), (Z.testbit b n), (Z.testbit f n); done.
Qed.
Lemma land_clear_eq f a : Z.land (Z.land f (Z.lnot a)) a = 0.
Proof.
  apply Z.bits_inj'. intros n Hn. rewrite !Z.land_spec, Z.lnot_spec, Z.bits_0 by done.
  by destruct (Z.testbit a n), (Z.testbit f n).
Qed.

Lemma dirty_or_busy e : is_dirty (or_flags CE_BUSY e) = is_dirty e.
Proof. unfold is_dirty. cbn. by rewrite land_lor_ne. Qed.
Lemma dirty_clear_busy e : is_dirty (clear_flags CE_BUSY e) = is_dirty e.
Proof. unfold is_dirty. cbn. by rewrite land_clear_ne. Qed.
Lemma dirty_clear_dirty e : is_dirty (clear_flags CE_DIRTY e) = false.
Proof. unfold is_dirty. cbn. by rewrite land_clear_eq. Qed.
Lemma busy_clear_dirty e : is_busy (clear_flags CE_DIRTY e) = is_busy e.
Proof. unfold is_busy. cbn. by rewrite land_clear_ne. Qed.
Lemma busy_or_dirty e : is_busy (or_flags CE_DIRTY e) = is_busy e.
Proof. unfold is_busy. cbn. by rewrite land_lor_ne. Qed.
Lemma busy_clear_busy e : is_busy (clear_flags CE_BUSY e) = false.
Proof. unfold is_busy. cbn. by rewrite land_clear_eq. Qed.
Lemma lor_bit_ne f b : b <> 0 -> Z.land b b = b -> Z.land (Z.lor f b) b <> 0.
Proof.
  intros Hb E H. apply Hb. assert (Z.land (Z.lor f b) b = b) as E'; [|congruence].
  rewrite Z.land_comm. apply Z.bits_inj'. intros n Hn. rewrite Z.land_spec, Z.lor_spec.
  by destruct (Z.testbit f n), (Z.testbit b n).
Qed.
Lemma busy_or_busy e : is_busy (or_flags CE_BUSY e) = true.
Proof. unfold is_busy. cbn. apply negb_true_iff, Z.eqb_neq. by apply lor_bit_ne. Qed.
Lemma dirty_or_dirty e : is_dirty (or_flags CE_DIRTY e) = true.
Proof. unfold is_dirty. cbn. apply negb_true_iff, Z.eqb_neq. by apply lor_bit_ne. Qed.

Create Rewrite HintDb flags.
#[export] Hint Rewrite dirty_or_busy dirty_clear_busy dirty_clear_dirty busy_clear_dirty busy_or_dirty
  busy_clear_busy busy_or_busy dirty_or_dirty : flags.

(** Clearing a flag that is not set changes nothing. *)
Lemma clear_dirty_id e : is_dirty e = false -> clear_flags CE_DIRTY e = e.
Proof.
  unfold is_dirty, clear_flags. intros H%negb_false_iff%Z.eqb_eq. destruct e. unfold ce_set_flags. cbn in *. f_equal.
  apply Z.bits_inj'. intros n Hn. rewrite Z.land_spec, Z.lnot_spec by done.
  assert (Z.testbit (Z.land ce_flags CE_DIRTY) n = false) as E by (rewrite H; apply Z.bits_0).
  rewrite Z.land_spec in E. destruct (Z.testbit ce_flags n), (Z.testbit CE_DIRTY n); done.
Qed.

(** ** Transfers of blocks *)

Lemma read_chunks_wp fuel fd pos total sum ret acc o f :
  os_files o !! fd = Some f -> os_fail o = [] -> 0 <= pos -> 0 <= sum <= total ->
  pos + total <= len (f_data f) -> total - sum < Z.of_nat fuel * CHUNK ->
  acc = slice pos sum (f_data f) -> (0 < sum -> ret = CHUNK) -> CHUNK <= total ->
  wp (read_chunks fuel fd pos total sum ret acc) (fun '(ret, sum, acc) o' =>
    ret = CHUNK /\ 0 < sum <= total /\ total < sum + CHUNK /\ acc = slice pos sum (f_data f) /\
    exists off, o' = set_file fd (OFile off (f_data f)) o) o.
Proof.
  intros Hf Hno Hp Hs Hl. revert sum ret acc o f Hf Hno Hs Hl.
  induction fuel as [|fuel IH]; intros sum ret acc o f Hf Hno Hs Hl Hfu Hacc Hret Ht; [lia|].
  cbn [read_chunks]. unfold CHUNK in *. apply wp_if; intros Hc; zcases.
  - wp_step. eapply wp_mono; [apply (read_pos_wp fd _ _ o f); (done || lia)|].
    intros r o' (-> & off & ->). rewrite Z.eqb_refl. cbn [negb].
    eapply wp_mono; [eapply (IH _ _ _ _ (OFile off (f_data f)))|].
    + apply lookup_insert_eq.
    + done.
    + lia.
    + cbn. lia.
    + lia.
    + cbn [f_data]. by rewrite Hacc, slice_app_split by lia.
    + done.
    + done.
    + intros [[r s] a] o' (H1 & H2 & H3 & H4 & off' & ->). cbn [f_data] in *.
      split_and!; try done; try lia. eexists. apply set_file_twice.
  - wp_step. assert (0 < sum) by lia. split_and!; auto; try lia.
    exists (f_off f). unfold set_file. rewrite insert_id; [by destruct o|]. rewrite Hf. by destruct f.
Qed.

Lemma chunk_fuel_enough total : 0 <= total -> total - 0 < Z.of_nat (chunk_fuel total) * CHUNK.
Proof. intros H. unfold chunk_fuel, CHUNK. rewrite Nat2Z.inj_succ, Z2Nat.id by dlia. dlia. Qed.

Lemma read_phys_wp fd b n bs o f :
  os_files o !! fd = Some f -> os_fail o = [] -> 0 <= b -> 0 < n -> 0 < bs -> n * bs < 2 ^ 32 ->
  b * bs < 2 ^ 63 -> b * bs + n * bs <= len (f_data f) ->
  wp (read_phys_blocks fd b n bs) (fun r o' => r = (0, slice (b * bs) (n * bs) (f_data f)) /\
    exists off, o' = set_file fd (OFile off (f_data f)) o) o.
Proof.
  intros Hf Hno Hb Hn Hbs Hu Hi Hl. unfold read_phys_blocks.
  rewrite u32_id by nia. rewrite i64_id by (unfold in_i64; nia). wp_step.
  apply wp_if; intros Hc; zcases.
  - eapply wp_mono; [apply (read_pos_wp fd _ _ o f); (done || nia)|]. intros r o' (-> & Ho).
    rewrite Z.eqb_refl. by wp_step.
  - wp_step. eapply wp_mono.
    { apply (read_chunks_wp _ fd (b * bs) (n * bs) 0 0 [] o f); try done; try nia.
      apply chunk_fuel_enough. nia. }
    intros [[r sum] acc] o' (-> & Hs & Hs' & -> & off & ->). rewrite Z.eqb_refl. cbn [andb].
    apply wp_if; intros Hc'; zcases.
    + wp_step. eapply wp_mono; [eapply read_pos_wp; [apply lookup_insert_eq|done|nia|nia|cbn; nia]|].
      intros r o' (-> & off' & ->). rewrite Z.eqb_refl. wp_step. rewrite Z.eqb_refl. wp_step.
      cbn [f_data]. rewrite <- slice_app_split by nia. split; [|eexists; apply set_file_twice].
      do 2 f_equal. lia.
    + wp_step. rewrite Z.eqb_refl. wp_step. replace sum with (n * bs) by lia. split; [done|by exists off].
Qed.

Lemma file_after_in pos d D : 0 <= pos -> pos + len d <= len D -> file_after pos d D = splice pos d D.
Proof.
  intros Hp Hd. unfold file_after. pose proof (len_nonneg d). replace (Z.to_nat (pos - len D)) with 0%nat by lia.
  cbn. by rewrite app_nil_r.
Qed.

Lemma write_chunks_wp fuel fd pos data total sum ret o f D :
  os_files o !! fd = Some f -> os_fail o = [] -> 0 <= pos -> 0 <= sum <= total -> len data = total ->
  pos + total <= len D -> total - sum < Z.of_nat fuel * CHUNK ->
  f_data f = splice pos (slice 0 sum data) D -> (0 < sum -> ret = CHUNK) -> CHUNK <= total ->
  wp (write_chunks fuel fd pos data total sum ret) (fun '(ret, sum) o' =>
    ret = CHUNK /\ 0 < sum <= total /\ total < sum + CHUNK /\
    exists off, o' = set_file fd (OFile off (splice pos (slice 0 sum data) D)) o) o.
Proof.
  intros Hf Hno Hp Hs Hd Hl. revert sum ret o f Hf Hno Hs.
  induction fuel as [|fuel IH]; intros sum ret o f Hf Hno Hs Hfu HD Hret Ht; [lia|].
  cbn [write_chunks]. unfold CHUNK in *. apply wp_if; intros Hc; zcases.
  - assert (len (slice sum (512 * 1024) data) = 512 * 1024) as Hsl by (apply len_slice; lia).
    assert (len (slice 0 sum data) = sum) as Hs0 by (apply len_slice; lia).
    wp_step. eapply wp_mono; [apply (write_pos_wp fd _ _ o f); (done || lia)|].
    intros r o' (-> & off & ->). rewrite Hsl, Z.eqb_refl. cbn [negb].
    rewrite file_after_in, HD by (rewrite ?HD, ?len_splice; lia).
    replace (pos + sum) with (pos + len (slice 0 sum data)) by lia.
    rewrite splice_app by (rewrite ?Hsl, ?Hs0; lia). rewrite <- slice_app_split by lia.
    eapply wp_mono; [eapply (IH _ _ _ (OFile off _))|].
    + apply lookup_insert_eq.
    + done.
    + lia.
    + lia.
    + done.
    + done.
    + done.
    + intros [r s] o' (H1 & H2 & H3 & off' & ->).
      split_and!; try done; try lia. eexists. apply set_file_twice.
  - wp_step. assert (0 < sum) by lia. split_and!; auto; try lia.
    exists (f_off f). unfold set_file. rewrite insert_id; [by destruct o|]. rewrite Hf. destruct f. cbn in HD. by subst.
Qed.

Lemma write_phys_wp fd b data n bs o f :
  os_files o !! fd = Some f -> os_fail o = [] -> 0 <= b -> 0 < n -> 0 < bs -> n * bs < 2 ^ 32 ->
  b * bs < 2 ^ 63 -> b * bs + n * bs <= len (f_data f) -> len data = n * bs ->
  wp (write_phys_blocks fd b data n bs) (fun r o' => r = 0 /\
    exists off, o' = set_file fd (OFile off (file_after (b * bs) data (f_data f))) o) o.
Proof.
  intros Hf Hno Hb Hn Hbs Hu Hi Hl Hd. unfold write_phys_blocks.
  rewrite u32_id by nia. rewrite i64_id by (unfold in_i64; nia).
  rewrite read_at_Some, slice_all by nia. wp_step. wp_step. wp_step.
  apply wp_if; intros Hc; zcases.
  - eapply wp_mono; [apply (write_pos_wp fd _ _ o f); (done || nia)|]. intros r o' (-> & Ho).
    rewrite Hd, Z.eqb_refl. by wp_step.
  - wp_step. eapply wp_mono.
    { apply (write_chunks_wp _ fd (b * bs) data (n * bs) 0 0 o f (f_data f)); try done; try nia.
      - apply chunk_fuel_enough. nia.
      - rewrite slice_0. by rewrite splice_nil. }
    intros [r sum] o' (-> & Hs & Hs' & off & ->). rewrite Z.eqb_refl. cbn [andb].
    assert (len (slice 0 sum data) = sum) as Hs0 by (apply len_slice; lia).
    rewrite file_after_in by lia.
    apply wp_if; intros Hc'; zcases.
    + assert (len (slice sum (n * bs - sum) data) = n * bs - sum) as Hsl by (apply len_slice; lia).
      wp_step. eapply wp_mono; [eapply write_pos_wp; [apply lookup_insert_eq|done|nia]|].
      intros r o' (-> & off' & ->). rewrite Hsl, Z.eqb_refl. wp_step. rewrite Z.eqb_refl. wp_step.
      split; [done|]. eexists. rewrite set_file_twice. cbn [f_data]. do 2 f_equal.
      rewrite file_after_in by (rewrite ?Hsl, ?len_splice; nia).
      replace (b * bs + sum) with (b * bs + len (slice 0 sum data)) by lia.
      rewrite splice_app by (rewrite ?Hsl, ?Hs0; lia). rewrite <- slice_app_split by lia.
      rewrite slice_all by lia. done.
    + wp_step. rewrite Z.eqb_refl. wp_step. replace sum with (n * bs) by lia.
      rewrite slice_all by done. split; [done|by exists off].
Qed.

(** ** Device blocks *)

#[export] Instance pair_inj (d : Z) : Inj (=) (=) (@pair Z Z d).
Proof. by intros x y [=]. Qed.

(** The device, its block size and its number of blocks.  Blocks of 512 bytes
    are the smallest for which read-ahead asks for no more entries than a
    request may use, and from 64 KB on a single block is past the limit of
    requests that go through the cache. *)
Class CacheGeom (dev bs N : Z) : Prop := {
  cg_dev : 0 <= dev < 256;
  cg_bs : 512 <= bs < 65536;
  cg_N : 0 <= N /\ N * bs < 2 ^ 32;
}.

Section dev.
Context (dev bs N : Z).

(** Block [b] of the contents [D] of a device. *)
Definition blk (D : list byte) (b : Z) : list byte := slice (b * bs) bs D.

Lemma len_blk D b : 0 < bs -> 0 <= b < N -> N * bs <= len D -> len (blk D b) = bs.
Proof. intros Hbs Hb HN. apply len_slice; nia. Qed.

(** The contents of [n] blocks from [b] on, by a function. *)
Definition run_data (L : Z -> list byte) (b : Z) (n : nat) : list (list byte) := L <$> seqZ b (Z.of_nat n).

Lemma run_data_S L b n : run_data L b (S n) = L b :: run_data L (b + 1) n.
Proof. unfold run_data. rewrite Nat2Z.inj_succ, seqZ_cons by lia. cbn. by replace (Z.succ b) with (b + 1) by lia; replace (Z.pred (Z.succ (Z.of_nat n))) with (Z.of_nat n) by lia. Qed.

Lemma run_data_1 L b : mjoin (run_data L b 1) = L b.
Proof. rewrite run_data_S. apply app_nil_r. Qed.

Lemma run_data_ext L L' b n :
  (forall k, b <= k < b + Z.of_nat n -> L k = L' k) -> run_data L b n = run_data L' b n.
Proof. intros H. apply list_fmap_ext. intros i x Hx. apply lookup_seqZ in Hx. apply H. lia. Qed.

Lemma len_run L b n :
  (forall k, b <= k < b + Z.of_nat n -> len (L k) = bs) -> len (mjoin (run_data L b n)) = Z.of_nat n * bs.
Proof.
  revert b. induction n as [|n IH]; intros b HL; [done|]. rewrite run_data_S.
  change (mjoin (L b :: run_data L (b + 1) n)) with (L b ++ mjoin (run_data L (b + 1) n)).
  rewrite len_app, IH, HL by (intros; lia || (apply HL; lia)). lia.
Qed.

Lemma slice_blocks D b n :
  0 < bs -> 0 <= b -> slice (b * bs) (Z.of_nat n * bs) D = mjoin (run_data (blk D) b n).
Proof.
  intros Hbs. revert b. induction n as [|n IH]; intros b Hb; [apply slice_0|]. rewrite run_data_S.
  change (mjoin (blk D b :: run_data (blk D) (b + 1) n)) with (blk D b ++ mjoin (run_data (blk D) (b + 1) n)).
  rewrite <- IH by lia. replace (Z.of_nat (S n) * bs) with (bs + Z.of_nat n * bs) by lia.
  rewrite slice_app_split by lia. by replace ((b + 1) * bs) with (b * bs + bs) by lia.
Qed.

(** Writing a run of blocks. *)
Lemma blk_file_after D L b n k :
  0 < bs -> 0 <= b -> 0 <= k -> (b + Z.of_nat n) * bs <= len D ->
  (forall j, b <= j < b + Z.of_nat n -> len (L j) = bs) ->
  blk (file_after (b * bs) (mjoin (run_data L b n)) D) k =
    if decide (b <= k < b + Z.of_nat n) then L k else blk D k.
Proof.
  intros Hbs Hb Hk HD HL. pose proof (len_run L b n HL) as Hr. unfold file_after, blk.
  replace (Z.to_nat (b * bs - len D)) with 0%nat by nia. cbn [replicate]. rewrite app_nil_r.
  destruct (decide (b <= k < b + Z.of_nat n)) as [Hin|Hout].
  - rewrite slice_splice_in by nia. replace (k * bs - b * bs) with ((k - b) * bs) by lia.
    clear Hr HD. revert b HL Hb Hin. induction n as [|n IH]; intros b HL Hb Hin; [lia|]. rewrite run_data_S.
    change (mjoin (L b :: run_data L (b + 1) n)) with (L b ++ mjoin (run_data L (b + 1) n)).
    destruct (decide (k = b)) as [->|Hne].
    + rewrite Z.sub_diag. apply slice_prefix. symmetry. apply HL. lia.
    + assert (len (L b) = bs) as E by (apply HL; lia).
      rewrite slice_app_r by nia. rewrite <- (IH (b + 1)); [f_equal; nia| |lia|lia].
      intros j Hj. apply HL. lia.
  - rewrite slice_splice_disjoint by nia. done.
Qed.

Lemma len_file_after D d pos : 0 <= pos -> pos + len d <= len D -> len (file_after pos d D) = len D.
Proof.
  intros Hp Hd. unfold file_after. replace (Z.to_nat (pos - len D)) with 0%nat by (unfold len in *; lia).
  cbn. rewrite app_nil_r. by apply len_splice.
Qed.

(** ** The parts of the invariant *)

(** The two lists, and the entries [fl] that are on neither. *)
Record lists_ok (m : gmap Z cache_ent) (cn cl : cache_ent_list) (nl ll fl : list Z) : Prop := {
  lo_normal : dll m cn nl;
  lo_locked : dll m cl ll;
  lo_float : forall p, p ∈ fl -> linked m p None None;
  lo_nodup : NoDup (nl ++ ll ++ fl);
  lo_dom : forall p, is_Some (m !! p) <-> p ∈ nl ++ ll ++ fl;
}.

(** Every entry has at most one buffer and it is its own; nothing is cloned.
    New addresses are past [brk]. *)
Record mem_ok (m : gmap Z cache_ent) (bufs : gmap Z (list byte)) (brk : Z) : Prop := {
  mo_ent : forall p, is_Some (m !! p) -> p < brk;
  mo_buf : forall a, is_Some (bufs !! a) -> a < brk;
  mo_data : forall p e a, m !! p = Some e -> ce_data e = Some a -> is_Some (bufs !! a);
  mo_inj : forall p q e e' a, m !! p = Some e -> m !! q = Some e' ->
    ce_data e = Some a -> ce_data e' = Some a -> p = q;
  mo_clone : forall p e, m !! p = Some e -> ce_clone e = None /\ ce_func e = None;
}.

(** The entry at [p] is a copy of block [b] with contents [d]. *)
Definition copy_of (bufs : gmap Z (list byte)) (b : Z) (d : list byte) (e : cache_ent) : Prop :=
  ce_dev e = dev /\ ce_block_num e = b /\ ce_bsize e = bs /\
  exists a, ce_data e = Some a /\ bufs !! a = Some d.

(** [L] is what a reader sees of each block.  [vm] gives the entry that holds
    a block; a clean copy agrees with the device [D] unless the block is in
    [un]; a block with no copy is on the device. *)
Record content (m : gmap Z cache_ent) (bufs : gmap Z (list byte)) (D : list byte) (ll : list Z)
    (vm : gmap Z Z) (L : Z -> list byte) (un : gset Z) : Prop := {
  co_valid : forall b p, vm !! b = Some p -> 0 <= b < N /\
    exists e, m !! p = Some e /\ copy_of bufs b (L b) e /\ (is_dirty e = false -> b ∉ un -> blk D b = L b);
  co_disk : forall b, 0 <= b < N -> vm !! b = None -> blk D b = L b;
  co_un : forall b, b ∈ un -> exists p e, vm !! b = Some p /\ p ∈ ll /\ m !! p = Some e /\ is_dirty e = false;
  co_len : forall b, 0 <= b < N -> len (L b) = bs;
}.

(** What the operations rely on of the rest of the state. *)
Record env_ok (s : cst) : Prop := {
  eo_oom : no_oom (cs_host s);
  eo_fail : os_fail (cs_os s) = [];
  eo_file : exists f, os_files (cs_os s) !! dev = Some f /\ N * bs <= len (f_data f);
  eo_max : max_device_blocks s !! Z.to_nat dev = Some N;
}.

(** The first iovec array is there, and in use or not; the others are not. *)
Record iov_ok (used : bool) (a : Z) (s : cst) : Prop := {
  io_lock : l_c (iovec_lock s) = 1;
  io_used : iovec_used s = (if used then 1 else 0) :: replicate 63 0;
  io_pool : exists rest, iovec_pool s = Some a :: rest;
}.

Lemma env_same s s' :
  cs_host s' = cs_host s -> cs_os s' = cs_os s -> max_device_blocks s' = max_device_blocks s ->
  env_ok s -> env_ok s'.
Proof. intros E1 E2 E3 [H1 H2 H3 H4]. by split; rewrite ?E1, ?E2, ?E3. Qed.

Lemma iov_same u a s s' :
  iovec_lock s' = iovec_lock s -> iovec_used s' = iovec_used s -> iovec_pool s' = iovec_pool s ->
  iov_ok u a s -> iov_ok u a s'.
Proof. intros E1 E2 E3 [H1 H2 H3]. by split; rewrite ?E1, ?E2, ?E3. Qed.

Definition disk (s : cst) : list byte :=
  match os_files (cs_os s) !! dev with Some f => f_data f | None => [] end.

(** The cache has room for every block a client holds and a full transfer. *)
Definition MIN_BLOCKS : Z := 72.

(** What the state stands for: the lists, the entries marked busy, the entry of
    each block, further bindings of the hash table, the contents, the unsaved
    blocks, how often each block is held by clients, and the iovec array and
    its use. *)
Record ghost := Ghost {
  g_nl : list Z;
  g_ll : list Z;
  g_fl : list Z;
  g_busy : list Z;
  g_vm : gmap Z Z;
  g_x : gmap (Z * Z) Z;
  g_L : Z -> list byte;
  g_un : gset Z;
  g_pin : Z -> Z;
  g_iov : bool;
  g_iova : Z;
}.

(** The bindings of the hash table: those of the copies, and [g_x]. *)
Definition hmap (g : ghost) : gmap (Z * Z) Z := kmap (pair dev) (g_vm g) ∪ g_x g.

(** The hash table: its keys are blocks of the device, so that it never gets
    to the size at which it cannot grow. *)
Record table_ok (h : hash_table) (m : gmap (Z * Z) Z) : Prop := {
  to_ok : ht_ok h m;
  to_max : ht_max h <= 2 ^ 29;
  to_keys : forall d b p, m !! (d, b) = Some p -> d = dev /\ 0 <= b < N;
}.

Definition g_set_busy (x : list Z) (g : ghost) : ghost :=
  Ghost (g_nl g) (g_ll g) (g_fl g) x (g_vm g) (g_x g) (g_L g) (g_un g) (g_pin g) (g_iov g) (g_iova g).
Definition g_set_iov (x : bool) (g : ghost) : ghost :=
  Ghost (g_nl g) (g_ll g) (g_fl g) (g_busy g) (g_vm g) (g_x g) (g_L g) (g_un g) (g_pin g) x (g_iova g).

Record inv (held : bool) (g : ghost) (s : cst) : Prop := {
  iv_env : env_ok s;
  iv_iov : iov_ok (g_iov g) (g_iova g) s;
  iv_lock : l_c (bc_lock (bc s)) = if held then 0 else 1;
  iv_lists : lists_ok (ces s) (normal (bc s)) (locked (bc s)) (g_nl g) (g_ll g) (g_fl g);
  iv_mem : mem_ok (ces s) (bufs s) (h_brk (cs_host s));
  iv_content : content (ces s) (bufs s) (disk s) (g_ll g) (g_vm g) (g_L g) (g_un g);
  iv_ht : table_ok (bc_ht (bc s)) (hmap g);
  iv_x : forall b p, g_vm g !! b = Some p -> g_x g !! (dev, b) = None;
  iv_count : cur_blocks (bc s) = len (g_nl g ++ g_ll g ++ g_fl g);
  iv_max : MIN_BLOCKS <= max_blocks (bc s) /\ cur_blocks (bc s) <= max_blocks (bc s);
  iv_locks : forall p e, ces s !! p = Some e -> (p ∈ g_ll g -> 0 < ce_lock e) /\ (p ∉ g_ll g -> ce_lock e = 0);
  iv_pin : forall b, match g_vm g !! b with
    | Some p => forall e, ces s !! p = Some e -> ce_lock e = g_pin g b
    | None => g_pin g b = 0
    end;
  iv_res : forall p, p ∈ g_nl g ++ g_ll g -> exists b, g_vm g !! b = Some p;
  iv_busy : forall p e, ces s !! p = Some e -> p ∈ g_nl g ++ g_ll g ->
    is_busy e = bool_decide (p ∈ g_busy g);
}.

(** Closes the parts of the invariant a step does not touch. *)
Ltac inv_keep Hi :=
  destruct Hi; split; try done; try (by eapply env_same; [..|eassumption]); try (by eapply iov_same; [..|eassumption]).

Context {CG : CacheGeom dev bs N}.

(** ** Preservation of the parts *)

(** Entries changed without touching their links. *)
Lemma linked_insert m p q e e' a b :
  m !! p = Some e -> ce_prev e' = ce_prev e -> ce_next e' = ce_next e ->
  linked m q a b -> linked (<[p := e']> m) q a b.
Proof.
  intros He Ep En (x & Hx & Ea & Eb). destruct (decide (p = q)) as [->|Hne].
  - exists e'. rewrite lookup_insert_eq. simplify_eq. by rewrite Ep, En.
  - exists x. by rewrite lookup_insert_ne.
Qed.

Lemma dll_insert m p e e' c l :
  m !! p = Some e -> ce_prev e' = ce_prev e -> ce_next e' = ce_next e ->
  dll m c l -> dll (<[p := e']> m) c l.
Proof.
  intros He Ep En [H1 H2 H3 H4]. split; try done. intros l1 q l2 E. eapply linked_insert; eauto.
Qed.

Lemma lists_ok_insert m cn cl nl ll fl p e e' :
  m !! p = Some e -> ce_prev e' = ce_prev e -> ce_next e' = ce_next e ->
  lists_ok m cn cl nl ll fl -> lists_ok (<[p := e']> m) cn cl nl ll fl.
Proof.
  intros He Ep En [H1 H2 H3 H4 H5]. split; try done.
  - by eapply dll_insert.
  - by eapply dll_insert.
  - intros q Hq. eapply linked_insert; eauto.
  - intros q. rewrite <- H5. destruct (decide (p = q)) as [->|Hne].
    + rewrite lookup_insert_eq, He. split; by eexists.
    + by rewrite lookup_insert_ne.
Qed.

Lemma mem_ok_insert m bf brk p e e' :
  m !! p = Some e -> ce_data e' = ce_data e -> ce_clone e' = ce_clone e -> ce_func e' = ce_func e ->
  mem_ok m bf brk -> mem_ok (<[p := e']> m) bf brk.
Proof.
  intros He Ed Ec Ef [H1 H2 H3 H4 H5]. split; try done.
  - intros q. rewrite lookup_insert_is_Some'. intros [->|Hq]; apply H1; [by eexists|done].
  - intros q x a [(<- & <-)|[? ?]]%lookup_insert_Some Ha; [rewrite Ed in Ha|]; by eapply H3.
  - intros q q' x x' a [(<- & <-)|[? ?]]%lookup_insert_Some [(<- & <-)|[? ?]]%lookup_insert_Some Hx Hx';
      rewrite ?Ed in *; eauto.
  - intros q x [(<- & <-)|[? ?]]%lookup_insert_Some; rewrite ?Ec, ?Ef; eauto.
Qed.

(** A change of flags: to dirty, or to clean where the device agrees. *)
Lemma content_flags m bf D ll vm L un p e e' :
  m !! p = Some e -> ce_dev e' = ce_dev e -> ce_block_num e' = ce_block_num e ->
  ce_bsize e' = ce_bsize e -> ce_data e' = ce_data e ->
  is_dirty e' = is_dirty e \/ is_dirty e' = false /\ (vm !! ce_block_num e = Some p -> blk D (ce_block_num e) = L (ce_block_num e)) ->
  content m bf D ll vm L un -> content (<[p := e']> m) bf D ll vm L un.
Proof.
  intros He E1 E2 E3 E4 Hd [H1 H2 H3 H4]. split; try done.
  - intros b q Hq. destruct (H1 b q Hq) as (Hb & x & Hx & Hc & Hcl). split; [done|].
    destruct (decide (p = q)) as [->|Hne].
    + exists e'. rewrite lookup_insert_eq. simplify_eq. destruct Hc as (Hc1 & Hc2 & Hc3 & Hc4). split_and!; [done| |].
      * unfold copy_of. by rewrite E1, E2, E3, E4.
      * intros Hdi Hun. destruct Hd as [Hd|[_ Hd]]; [rewrite Hd in Hdi; auto|]. rewrite <- Hc2. apply Hd. by rewrite Hc2.
    + exists x. by rewrite lookup_insert_ne.
  - intros b Hb. destruct (H3 b Hb) as (q & x & Hq & Hl & Hx & Hdi). exists q.
    destruct (decide (p = q)) as [->|Hne].
    + exists e'. rewrite lookup_insert_eq. simplify_eq. split_and!; try done.
      destruct Hd as [Hd|[Hd _]]; congruence.
    + exists x. by rewrite lookup_insert_ne.
Qed.

(** A write to the device of what the blocks hold anyway. *)
Lemma content_disk m bf D D' ll vm L un :
  (forall k, 0 <= k < N -> blk D' k = L k \/ blk D' k = blk D k) ->
  content m bf D ll vm L un -> content m bf D' ll vm L un.
Proof.
  intros HD [H1 H2 H3 H4]. split; try done.
  - intros b p Hp. destruct (H1 b p Hp) as (Hb & e & He & Hc & Hcl). split; [done|]. exists e. split_and!; try done.
    intros Hdi Hun. destruct (HD b Hb) as [->| ->]; auto.
  - intros b Hb Hv. destruct (HD b Hb) as [->| ->]; auto.
Qed.

(** Entries changed only in their links. *)
Lemma strip_lookup (m m' : gmap Z cache_ent) p e :
  strip <$> m' = strip <$> m -> m' !! p = Some e -> exists e0, m !! p = Some e0 /\ strip e = strip e0.
Proof.
  intros E He. assert ((strip <$> m) !! p = Some (strip e)) as H by (by rewrite <- E, lookup_fmap, He).
  rewrite lookup_fmap in H. destruct (m !! p) as [e0|]; [|done]. exists e0. split; [done|]. cbn in H. congruence.
Qed.

Lemma strip_fields e e' :
  strip e = strip e' ->
  ce_dev e = ce_dev e' /\ ce_block_num e = ce_block_num e' /\ ce_bsize e = ce_bsize e' /\
  ce_flags e = ce_flags e' /\ ce_data e = ce_data e' /\ ce_clone e = ce_clone e' /\
  ce_lock e = ce_lock e' /\ ce_func e = ce_func e'.
Proof. destruct e, e'. unfold strip. cbn. intros [=]. subst. done. Qed.

Lemma mem_ok_strip (m m' : gmap Z cache_ent) bf brk : strip <$> m' = strip <$> m -> mem_ok m bf brk -> mem_ok m' bf brk.
Proof.
  intros E [H1 H2 H3 H4 H5]. split; try done.
  - intros p [e He]. destruct (strip_lookup m m' p e E He) as (e0 & He0 & _). apply H1. by eexists.
  - intros p e a He. destruct (strip_lookup m m' p e E He) as (e0 & He0 & Hs%strip_fields).
    destruct Hs as (_ & _ & _ & _ & -> & _). by eapply H3.
  - intros p q e e' a He He'. destruct (strip_lookup m m' p e E He) as (e0 & He0 & Hs%strip_fields).
    destruct (strip_lookup m m' q e' E He') as (e0' & He0' & Hs'%strip_fields).
    destruct Hs as (_ & _ & _ & _ & -> & _), Hs' as (_ & _ & _ & _ & -> & _). by eapply H4.
  - intros p e He. destruct (strip_lookup m m' p e E He) as (e0 & He0 & Hs%strip_fields).
    destruct Hs as (_ & _ & _ & _ & _ & -> & _ & ->). by eapply H5.
Qed.

Lemma content_strip (m m' : gmap Z cache_ent) bf D ll vm L un :
  strip <$> m' = strip <$> m -> content m bf D ll vm L un -> content m' bf D ll vm L un.
Proof.
  intros E [H1 H2 H3 H4]. symmetry in E. split; try done.
  - intros b p Hp. destruct (H1 b p Hp) as (Hb & e & He & Hc & Hcl). split; [done|].
    destruct (strip_lookup m' m p e E He) as (e' & He' & Hs%strip_fields). exists e'.
    destruct Hs as (E1 & E2 & E3 & E4 & E5 & _). unfold copy_of, is_dirty in *. rewrite E1, E2, E3, E4, E5 in *. done.
  - intros b Hb. destruct (H3 b Hb) as (p & e & Hp & Hl & He & Hd).
    destruct (strip_lookup m' m p e E He) as (e' & He' & Hs%strip_fields). exists p, e'.
    destruct Hs as (_ & _ & _ & E4 & _). unfold is_dirty in *. by rewrite <- E4.
Qed.

(** ** Single accesses *)

Lemma ent_wp s p e (Q : _ -> _ -> Prop) : ces s !! p = Some e -> Q e s -> wp (ent p) Q s.
Proof. intros He HQ. unfold ent. wp_step. wp_step. rewrite He. by wp_step. Qed.

Lemma upd_ent_wp s p e f (Q : unit -> cst -> Prop) :
  ces s !! p = Some e -> Q tt (set_ces (<[p := f e]> (ces s)) s) -> wp (upd_ent p f) Q s.
Proof. intros He HQ. unfold upd_ent. wp_step. eapply ent_wp; [done|]. by wp_step. Qed.

Lemma load_buf_wp s a d n (Q : _ -> _ -> Prop) :
  bufs s !! a = Some d -> n = len d -> Q d s -> wp (load_buf (Some a) n) Q s.
Proof.
  intros Ha -> HQ. unfold load_buf. wp_step. wp_step. wp_step. wp_step. rewrite Ha. wp_step. wp_step.
  pose proof (len_nonneg d). rewrite read_at_Some, slice_all by lia. by wp_step.
Qed.

Lemma store_buf_wp s a d x (Q : unit -> _ -> Prop) :
  bufs s !! a = Some d -> len x = len d -> Q tt (set_bufs (<[a := x]> (bufs s)) s) ->
  wp (store_buf (Some a) x) Q s.
Proof.
  intros Ha Hx HQ. unfold store_buf. wp_step. wp_step. wp_step. wp_step. wp_step. rewrite Ha. wp_step. wp_step.
  rewrite write_at_Some, splice_all by (pose proof (len_nonneg x); lia). wp_step. by wp_step.
Qed.

(** ** Locks *)

Lemma LOCK_bc_wp g s (Q : unit -> cst -> Prop) :
  inv false g s ->
  (forall s', inv true g s' -> ces s' = ces s -> bufs s' = bufs s -> Q tt s') -> wp LOCK_bc Q s.
Proof.
  intros Hi HQ. pose proof (iv_lock _ _ _ Hi) as Hl. unfold LOCK_bc. wp_step.
  eapply wp_mono; [apply LOCK_wp; exact Hl|].
  intros [] l ->. apply HQ; [|done|done]. inv_keep Hi.
Qed.

Lemma UNLOCK_bc_wp g s (Q : unit -> cst -> Prop) :
  inv true g s ->
  (forall s', inv false g s' -> ces s' = ces s -> bufs s' = bufs s -> Q tt s') -> wp UNLOCK_bc Q s.
Proof.
  intros Hi HQ. pose proof (iv_lock _ _ _ Hi) as Hl. unfold UNLOCK_bc. wp_step.
  eapply wp_mono; [apply UNLOCK_wp; exact Hl|].
  intros [] l ->. apply HQ; [|done|done]. inv_keep Hi.
Qed.

(** ** The pool of iovec arrays *)

Lemma get_iovec_wp held g s (Q : option Z -> cst -> Prop) :
  inv held g s -> g_iov g = false ->
  (forall s', inv held (g_set_iov true g) s' -> ces s' = ces s -> bufs s' = bufs s -> Q (Some (g_iova g)) s') ->
  wp get_iovec_array Q s.
Proof.
  intros Hi Hg HQ. pose proof (iv_iov _ _ _ Hi) as [Hl Hu (rest & Hp)]. rewrite Hg in Hu.
  unfold get_iovec_array, LOCK_iovec, UNLOCK_iovec. wp_step. wp_step.
  eapply wp_mono; [by apply LOCK_wp|]. intros [] l ->. wp_step. wp_step. cbn [iovec_used set_iovec_lock].
  rewrite Hu. cbn [find_index Z.eqb]. wp_step. cbn [iovec_pool set_iovec_lock]. rewrite Hp. cbn [lookup list_lookup].
  do 7 wp_step. eapply wp_mono; [by apply UNLOCK_wp|]. intros [] l ->. wp_step.
  apply HQ; cbn; [|done|done]. inv_keep Hi.
  split; cbn; [done|by rewrite Hu|by eauto].
Qed.

Lemma release_iovec_wp held g s (Q : unit -> cst -> Prop) :
  inv held (g_set_iov true g) s -> g_iov g = false ->
  (forall s', inv held g s' -> ces s' = ces s -> bufs s' = bufs s -> Q tt s') ->
  wp (release_iovec_array (Some (g_iova g))) Q s.
Proof.
  intros Hi Hg HQ. pose proof (iv_iov _ _ _ Hi) as [Hl Hu (rest & Hp)]. cbn [g_iov g_iova g_set_iov] in Hu, Hp.
  unfold release_iovec_array, LOCK_iovec, UNLOCK_iovec. wp_step. wp_step.
  eapply wp_mono; [by apply LOCK_wp|]. intros [] l ->. wp_step. wp_step. wp_step. cbn [iovec_pool set_iovec_lock].
  rewrite Hp. cbn [find_index]. rewrite bool_decide_true by done. wp_step. wp_step.
  eapply wp_mono; [by apply UNLOCK_wp|]. intros [] l ->. apply HQ; cbn; [|done|done].
  inv_keep Hi. rewrite Hg. split; cbn; [done|by rewrite Hu|by eauto].
Qed.
(** ** Steps that keep the invariant *)

Lemma inv_flags held g s p e x busy' :
  inv held g s -> ces s !! p = Some e ->
  (is_dirty (ce_set_flags x e) = is_dirty e \/ is_dirty (ce_set_flags x e) = false /\
     (g_vm g !! ce_block_num e = Some p -> blk (disk s) (ce_block_num e) = g_L g (ce_block_num e))) ->
  (p ∈ g_nl g ++ g_ll g -> is_busy (ce_set_flags x e) = bool_decide (p ∈ busy')) ->
  (forall q, q ∈ g_nl g ++ g_ll g -> q <> p -> q ∈ busy' <-> q ∈ g_busy g) ->
  inv held (g_set_busy busy' g) (set_ces (<[p := ce_set_flags x e]> (ces s)) s).
Proof.
  intros Hi He Hd Hb Hbs'. inv_keep Hi; cbn.
  - by eapply lists_ok_insert.
  - by eapply mem_ok_insert.
  - by eapply content_flags.
  - intros q y [(<- & <-)|[? ?]]%lookup_insert_Some; [by apply (iv_locks0 p e)|eauto].
  - intros b. specialize (iv_pin0 b). destruct (g_vm g !! b) as [q|]; [|done].
    intros y [(<- & <-)|[? ?]]%lookup_insert_Some; [by apply (iv_pin0 e)|eauto].
  - intros q y [(<- & <-)|[? ?]]%lookup_insert_Some Hq; [by apply Hb|].
    rewrite (iv_busy0 q y) by done. apply bool_decide_ext. symmetry. by apply Hbs'.
Qed.

Lemma g_set_busy_id g : g_set_busy (g_busy g) g = g.
Proof. by destruct g. Qed.

Lemma inv_write held g s f off D :
  inv held g s -> os_files (cs_os s) !! dev = Some f -> N * bs <= len D ->
  (forall k, 0 <= k < N -> blk D k = g_L g k \/ blk D k = blk (disk s) k) ->
  inv held g (set_cs_os (set_file dev (OFile off D) (cs_os s)) s).
Proof.
  pose proof CG as [Hdev Hbs HN].
  intros Hi Hf HD Hk. destruct Hi. split; try done; try (by eapply iov_same; [..|eassumption]); cbn.
  - destruct iv_env0. split; try done. exists (OFile off D). split; [apply lookup_insert_eq|done].
  - eapply content_disk; [|done]. intros k Hkk. unfold disk at 1 2. cbn. rewrite lookup_insert_eq. by apply Hk.
Qed.

(** The file of the device. *)
Lemma inv_file held g s :
  inv held g s -> exists f, os_files (cs_os s) !! dev = Some f /\ disk s = f_data f /\ N * bs <= len (f_data f).
Proof.
  intros Hi. destruct (eo_file _ (iv_env _ _ _ Hi)) as (f & Hf & Hl). exists f. unfold disk. by rewrite Hf.
Qed.

Lemma copy_len held g s p b e :
  inv held g s -> g_vm g !! b = Some p -> ces s !! p = Some e ->
  0 <= b < N /\ copy_of (bufs s) b (g_L g b) e /\ len (g_L g b) = bs /\
  (is_dirty e = false -> b ∉ g_un g -> blk (disk s) b = g_L g b).
Proof.
  pose proof CG as [Hdev Hbs HN].
  intros Hi Hv He. destruct (co_valid _ _ _ _ _ _ _ (iv_content _ _ _ Hi) b p Hv) as (Hb & e' & He' & Hc & Hcl).
  simplify_eq. split_and!; try done; try lia. by apply (co_len _ _ _ _ _ _ _ (iv_content _ _ _ Hi)).
Qed.

(** ** Flushing *)

(** The entries in [ps] are clean now; nothing else about entries changed. *)
Definition flushed (ps : list Z) (s s' : cst) : Prop :=
  bufs s' = bufs s /\
  forall q, ces s' !! q = (if decide (q ∈ ps) then clear_flags CE_DIRTY else id) <$> ces s !! q.

Lemma clear_dirty_twice e : clear_flags CE_DIRTY (clear_flags CE_DIRTY e) = clear_flags CE_DIRTY e.
Proof. apply clear_dirty_id, dirty_clear_dirty. Qed.

Lemma flushed_nil s : flushed [] s s.
Proof. split; [done|]. intros q. by rewrite option_fmap_id. Qed.

Lemma flushed_app ps1 ps2 s1 s2 s3 : flushed ps1 s1 s2 -> flushed ps2 s2 s3 -> flushed (ps1 ++ ps2) s1 s3.
Proof.
  intros [E1 H1] [E2 H2]. split; [congruence|]. intros q. rewrite H2, H1, <- option_fmap_compose.
  destruct (ces s1 !! q) as [e|]; cbn; [|done]. f_equal.
  destruct (decide (q ∈ ps1 ++ ps2)) as [Hin|Hin]; rewrite elem_of_app in Hin.
  - destruct (decide (q ∈ ps1)), (decide (q ∈ ps2)); cbn; try done; [apply clear_dirty_twice|tauto].
  - destruct (decide (q ∈ ps1)), (decide (q ∈ ps2)); cbn; tauto.
Qed.

Lemma flushed_clean ps s s' : flushed ps s s' ->
  forall q e', q ∈ ps -> ces s' !! q = Some e' -> is_dirty e' = false.
Proof.
  intros [_ H] q e' Hq He'. rewrite H, decide_True in He' by done.
  destruct (ces s !! q); [|done]. injection He' as <-. apply dirty_clear_dirty.
Qed.

(** Where nothing is dirty nothing changed. *)
Lemma flushed_skip p e s : ces s !! p = Some e -> is_dirty e = false -> flushed [p] s s.
Proof.
  intros He Hd. split; [done|]. intros q. destruct (decide (q ∈ [p])) as [->%list_elem_of_singleton|]; [|by rewrite option_fmap_id].
  rewrite He. cbn. by rewrite clear_dirty_id.
Qed.

Lemma flushed_one p e s : ces s !! p = Some e ->
  flushed [p] s (set_ces (<[p := clear_flags CE_DIRTY e]> (ces s)) s).
Proof.
  intros He. split; [done|]. intros q. cbn. destruct (decide (q ∈ [p])) as [->%list_elem_of_singleton|Hn].
  - by rewrite lookup_insert_eq, He.
  - rewrite lookup_insert_ne by (intros ->; apply Hn, list_elem_of_singleton; done). by rewrite option_fmap_id.
Qed.

Lemma flushed_from ps s s1 s' : ces s1 = ces s -> bufs s1 = bufs s -> flushed ps s1 s' -> flushed ps s s'.
Proof. intros E1 E2 [H1 H2]. split; [congruence|]. intros q. by rewrite H2, E1. Qed.
Lemma flushed_to ps s s1 s' : ces s' = ces s1 -> bufs s' = bufs s1 -> flushed ps s s1 -> flushed ps s s'.
Proof. intros E1 E2 [H1 H2]. split; [congruence|]. intros q. by rewrite E1. Qed.

(** Entries that a flush may be asked for: new ones, and unlocked copies. *)
Definition flushable (g : ghost) (s : cst) (p : Z) : Prop :=
  exists e, ces s !! p = Some e /\ ce_lock e = 0 /\
    (is_dirty e = false /\ ce_dev e <> dev \/ ce_dev e = dev /\ g_vm g !! ce_block_num e = Some p).

Lemma flushable_flushed g s s' ps p : flushed ps s s' -> flushable g s p -> flushable g s' p.
Proof.
  intros [_ H] (e & He & Hl & Hc). exists ((if decide (p ∈ ps) then clear_flags CE_DIRTY else id) e).
  rewrite H, He. split; [done|]. destruct (decide (p ∈ ps)); cbn; [|done]. split; [done|].
  destruct Hc as [[Hd Hc]|Hc]; [left|right]; [|done]. by rewrite dirty_clear_dirty.
Qed.

(** Clearing the dirty bit of a block that is on the device. *)
Lemma inv_clean held g s p e :
  inv held g s -> ces s !! p = Some e ->
  (g_vm g !! ce_block_num e = Some p -> blk (disk s) (ce_block_num e) = g_L g (ce_block_num e)) ->
  inv held g (set_ces (<[p := clear_flags CE_DIRTY e]> (ces s)) s).
Proof.
  intros Hi He Hd. rewrite <- (g_set_busy_id g). apply inv_flags; try done.
  - right. split; [|done]. apply dirty_clear_dirty.
  - intros Hp. transitivity (is_busy e); [apply busy_clear_dirty|]. by apply (iv_busy _ _ _ Hi).
Qed.

Lemma run_callback_wp held g s p e (Q : unit -> cst -> Prop) :
  inv held g s -> ces s !! p = Some e -> Q tt s -> wp (run_callback p) Q s.
Proof.
  intros Hi He HQ. unfold run_callback. wp_step. eapply ent_wp; [done|].
  destruct (mo_clone _ _ _ (iv_mem _ _ _ Hi) p e He) as [_ ->]. by wp_step.
Qed.

Lemma flush_cache_ent_wp held g s p (Q : Z -> cst -> Prop) :
  inv held g s -> flushable g s p ->
  (forall s', inv held g s' -> flushed [p] s s' -> Q 0 s') -> wp (flush_cache_ent p) Q s.
Proof.
  pose proof CG as [Hdev Hbs HN].
  intros Hi (e & He & Hl & Hc) HQ. destruct (mo_clone _ _ _ (iv_mem _ _ _ Hi) p e He) as [Hcl Hfu].
  unfold flush_cache_ent. wp_step. eapply ent_wp; [done|]. unfold nothing_to_flush, flush_forbidden.
  rewrite Hcl, Hl. rewrite (bool_decide_true (None = None)) by done. cbn [andb negb Z.eqb]. rewrite andb_true_r.
  destruct (is_dirty e) eqn:Hd; cbn [negb]; [|wp_step; apply HQ; [done|by eapply flushed_skip]].
  destruct Hc as [[? _]|[Hde Hv]]; [done|].
  destruct (copy_len held g s p _ e Hi Hv He) as (Hb & (_ & _ & Ebs & a & Ea & Eb) & HL & _).
  destruct (inv_file held g s Hi) as (f & Hf & HD & Hlen). pose proof (eo_fail _ (iv_env _ _ _ Hi)) as Hno.
  unfold flush_once. do 2 wp_step. eapply ent_wp; [done|]. rewrite Hcl, Ea, Hde, Ebs. wp_step.
  eapply load_buf_wp; [done|done|]. wp_step. unfold in_os. wp_step.
  eapply wp_mono; [apply (write_phys_wp dev _ _ 1 bs (cs_os s) f); try done; try nia|].
  intros r o' (-> & off & ->). rewrite <- HD.
  assert (inv held g (set_cs_os (set_file dev (OFile off (file_after (ce_block_num e * bs) (g_L g (ce_block_num e)) (disk s))) (cs_os s)) s)
    /\ blk (file_after (ce_block_num e * bs) (g_L g (ce_block_num e)) (disk s)) (ce_block_num e) = g_L g (ce_block_num e)) as [Hi' Hblk].
  { assert (forall k, 0 <= k -> blk (file_after (ce_block_num e * bs) (g_L g (ce_block_num e)) (disk s)) k =
      if decide (ce_block_num e <= k < ce_block_num e + 1) then g_L g k else blk (disk s) k) as Hk.
    { intros k Hk. pose proof (blk_file_after (disk s) (g_L g) (ce_block_num e) 1 k) as H.
      rewrite run_data_1 in H. apply H; try lia; [rewrite HD; nia|].
      intros j Hj. by replace j with (ce_block_num e) by lia. }
    split; [|rewrite Hk, decide_True by lia; done].
    apply (inv_write held g s f); try done.
    - rewrite len_file_after; rewrite ?HD; nia.
    - intros k Hkk. rewrite Hk by lia. destruct (decide _); auto. }
  set (s1 := set_cs_os _ s) in *. wp_step. eapply (run_callback_wp held g s1 p e); [done|done|].
  wp_step. eapply ent_wp; [done|]. rewrite Hcl. wp_step. eapply upd_ent_wp; [done|]. wp_step. wp_step.
  apply HQ; [|by apply (flushed_from _ s s1); [..|by apply flushed_one]]. apply inv_clean; [done|done|]. intros _.
  unfold disk, s1. cbn. by rewrite lookup_insert_eq.
Qed.
(** ** Runs *)

(** The entries of [l] are copies of consecutive blocks from [b] on. *)
Definition run_of (s : cst) (b : Z) (l : list Z) : Prop :=
  forall i q, l !! i = Some q -> exists e, ces s !! q = Some e /\ ce_dev e = dev /\ ce_block_num e = b + Z.of_nat i.

Lemma run_of_tail s b p l : run_of s b (p :: l) -> run_of s (b + 1) l.
Proof.
  intros H i q Hq. destruct (H (S i) q Hq) as (e & He & Hd & Hn). exists e. split_and!; try done. lia.
Qed.

Lemma run_length_wp s e0 k l (Q : Z -> cst -> Prop) :
  ce_dev e0 = dev -> 1 <= k <= NUM_FLUSH_BLOCKS -> (forall q, q ∈ l -> is_Some (ces s !! q)) ->
  (forall n, k <= n <= k + len l -> n <= NUM_FLUSH_BLOCKS ->
     run_of s (ce_block_num e0 + k) (take (Z.to_nat (n - k)) l) -> Q n s) ->
  wp (run_length e0 k l) Q s.
Proof.
  intros He0. revert k. induction l as [|q l IH]; intros k Hk Hl HQ; cbn [run_length].
  - wp_step. apply HQ; [rewrite len_nil; lia|lia|]. by rewrite take_nil; intros i x.
  - rewrite len_cons in HQ. pose proof (len_nonneg l) as Hll.
    assert (wp (mret k : CM Z) Q s) as Hstop.
    { wp_step. apply HQ; [lia|lia|]. rewrite Z.sub_diag. by intros i x. }
    apply wp_if; intros Hc; zcases; [done|].
    destruct (Hl q) as [e He]; [apply elem_of_cons; by left|]. wp_step. eapply ent_wp; [done|].
    apply wp_if; intros Hc1; [done|]. zcases. apply wp_if; intros _; [done|].
    apply IH; [lia|intros x Hx; apply Hl, elem_of_cons; by right|].
    intros n Hn Hn' Hr. apply HQ; [lia|lia|]. replace (Z.to_nat (n - k)) with (S (Z.to_nat (n - (k + 1)))) by lia.
    intros [|i] x Hx; cbn in Hx.
    + injection Hx as <-. exists e. split_and!; try congruence. lia.
    + destruct (Hr i x Hx) as (y & Hy & Hd & Hnum). exists y. split_and!; try done. lia.
Qed.

Lemma gather_wp held g s b l (Q : list (list byte) -> cst -> Prop) :
  inv held g s -> run_of s b l -> (forall p, p ∈ l -> flushable g s p) ->
  Q (run_data (g_L g) b (length l)) s -> wp (gather bs l) Q s.
Proof.
  intros Hi. revert b Q. induction l as [|p l IH]; intros b Q Hr Hf HQ; cbn [gather].
  - by wp_step.
  - destruct (Hr 0%nat p eq_refl) as (e & He & Hd & Hn). rewrite Z.add_0_r in Hn.
    destruct (Hf p) as (e' & He' & Hl & Hc); [apply elem_of_cons; by left|]. simplify_eq.
    destruct Hc as [[_ ?]|[_ Hv]]; [done|].
    destruct (copy_len held g s p _ e Hi Hv He) as (Hb & (_ & _ & Ebs & a & Ea & Eb) & HL & _).
    destruct (mo_clone _ _ _ (iv_mem _ _ _ Hi) p e He) as [Hcl _].
    wp_step. eapply ent_wp; [done|]. rewrite Hcl, Ea. wp_step. eapply load_buf_wp; [done|done|].
    wp_step. apply (IH (ce_block_num e + 1)); [by eapply run_of_tail|intros q Hq; apply Hf, elem_of_cons; by right|].
    wp_step. cbn [length] in HQ. by rewrite run_data_S in HQ.
Qed.

(** After the write of a run: each entry is clean, if the device agrees. *)
Lemma after_write_wp held g s l (Q : unit -> cst -> Prop) :
  inv held g s ->
  (forall p, p ∈ l -> exists e, ces s !! p = Some e /\ blk (disk s) (ce_block_num e) = g_L g (ce_block_num e)) ->
  (forall s', inv held g s' -> flushed l s s' -> Q tt s') -> wp (each after_write l) Q s.
Proof.
  revert s. induction l as [|p l IH]; intros s Hi Hl HQ; cbn [each].
  - wp_step. apply HQ; [done|apply flushed_nil].
  - destruct (Hl p) as (e & He & Hb); [apply elem_of_cons; by left|].
    destruct (mo_clone _ _ _ (iv_mem _ _ _ Hi) p e He) as [Hcl _].
    wp_step. unfold after_write at 1. wp_step. eapply run_callback_wp; [done|done|]. wp_step.
    eapply ent_wp; [done|]. rewrite Hcl. eapply upd_ent_wp; [done|].
    pose proof (inv_clean held g s p e Hi He (fun _ => Hb)) as Hi'. pose proof (flushed_one p e s He) as Hfl.
    apply IH; [done| |].
    + intros q Hq. destruct (Hl q) as (x & Hx & Hbx); [apply elem_of_cons; by right|].
      cbn. destruct (decide (p = q)) as [->|Hne].
      * exists (clear_flags CE_DIRTY e). rewrite lookup_insert_eq. by simplify_eq.
      * exists x. by rewrite lookup_insert_ne.
    + intros s' Hs' Hf'. apply HQ; [done|]. by eapply (flushed_app [p] l).
Qed.

(** One run of several blocks goes out in one call. *)
Lemma write_run_wp held g s p e l (Q : Z -> cst -> Prop) :
  inv held g s -> ces s !! p = Some e -> run_of s (ce_block_num e) (p :: l) -> ce_bsize e = bs ->
  (forall q, q ∈ p :: l -> flushable g s q) -> len (p :: l) <= NUM_FLUSH_BLOCKS ->
  (forall s', inv held g s' -> ces s' = ces s -> bufs s' = bufs s ->
     (forall q, q ∈ p :: l -> exists x, ces s' !! q = Some x /\
        blk (disk s') (ce_block_num x) = g_L g (ce_block_num x)) -> Q (len (p :: l) * bs) s') ->
  wp (in_os (writev_pos dev (i64 (ce_block_num e * bs)) (run_data (g_L g) (ce_block_num e) (length (p :: l))))) Q s.
Proof.
  pose proof CG as [Hdev Hbs HN].
  intros Hi He Hr Ebs Hf Hl HQ. set (b := ce_block_num e) in *. set (n := length (p :: l)) in *.
  assert (forall i q, (p :: l) !! i = Some q -> exists x, ces s !! q = Some x /\ ce_block_num x = b + Z.of_nat i /\
            0 <= b + Z.of_nat i < N) as Hin.
  { intros i q Hq. destruct (Hr i q Hq) as (x & Hx & Hdx & Hn). exists x. split_and!; try done.
    all: destruct (Hf q) as (y & Hy & _ & Hc); [by apply list_elem_of_lookup_2 in Hq|]; simplify_eq;
      destruct Hc as [[_ ?]|[_ Hv]]; [done|]; destruct (copy_len held g s q _ x Hi Hv Hx) as (Hb & _); lia. }
  assert (0 <= b) as Hb0. { destruct (Hin 0%nat p eq_refl) as (x & _ & _ & H). lia. }
  assert (b + Z.of_nat n <= N) as HbN.
  { destruct (lookup_lt_is_Some_2 (p :: l) (n - 1)) as [q Hq]; [unfold n; cbn; lia|].
    destruct (Hin _ q Hq) as (x & _ & _ & H). unfold n in *. cbn [length] in *. lia. }
  assert (forall k, b <= k < b + Z.of_nat n -> len (g_L g k) = bs) as HLk.
  { intros k Hk. apply (co_len _ _ _ _ _ _ _ (iv_content _ _ _ Hi)). lia. }
  destruct (inv_file held g s Hi) as (f & Hff & HD & Hlen). pose proof (eo_fail _ (iv_env _ _ _ Hi)) as Hno.
  assert (0 < Z.of_nat n) as Hn0 by (unfold n; cbn; lia).
  assert (len (p :: l) = Z.of_nat n) as Hln by done.
  rewrite i64_id by (unfold in_i64; nia). unfold in_os. wp_step.
  eapply wp_mono; [apply (writev_pos_wp dev _ _ (cs_os s) f); try done; try nia|].
  - unfold n. cbn [length]. by rewrite run_data_S.
  - unfold run_data, len. rewrite length_fmap, length_seqZ. unfold NUM_FLUSH_BLOCKS, MAX_IOV in *. lia.
  - intros r o' (-> & off & ->). rewrite len_run by done. rewrite <- HD.
    set (D := file_after (b * bs) (mjoin (run_data (g_L g) b n)) (disk s)).
    assert (forall k, 0 <= k -> blk D k = if decide (b <= k < b + Z.of_nat n) then g_L g k else blk (disk s) k) as Hk.
    { intros k Hk. apply blk_file_after; try done; try lia. rewrite HD. nia. }
    rewrite <- Hln. apply HQ; [|done|done|].
    + apply (inv_write held g s f); try done.
      * unfold D. rewrite len_file_after; rewrite ?len_run by done; rewrite ?HD; nia.
      * intros k Hkk. rewrite Hk by lia. destruct (decide _); auto.
    + intros q Hq. apply list_elem_of_lookup in Hq as [i Hq]. destruct (Hin i q Hq) as (x & Hx & En & Hr').
      exists x. split; [done|]. unfold disk. cbn. rewrite lookup_insert_eq. cbn [f_data]. fold D.
      rewrite Hk, decide_True; [done| |lia]. apply lookup_lt_Some in Hq. fold n in Hq. lia.
Qed.
Lemma run_of_cons s b p e l :
  ces s !! p = Some e -> ce_dev e = dev -> ce_block_num e = b -> run_of s (b + 1) l -> run_of s b (p :: l).
Proof.
  intros He Hd Hn Hr [|i] q Hq; cbn in Hq.
  - injection Hq as <-. exists e. split_and!; try done. lia.
  - destruct (Hr i q Hq) as (x & Hx & Hdx & Hnx). exists x. split_and!; try done. lia.
Qed.

Lemma elem_of_take_z {A} (l : list A) n x : x ∈ take n l -> x ∈ l.
Proof. intros H. rewrite <- (take_drop n l). apply elem_of_app. by left. Qed.
Lemma elem_of_drop_z {A} (l : list A) n x : x ∈ drop n l -> x ∈ l.
Proof. intros H. rewrite <- (take_drop n l). apply elem_of_app. by right. Qed.

(** The loop over the entries leaves them all clean. *)
Lemma flush_pass_wp fuel held g s l (Q : Z -> cst -> Prop) :
  inv held g s -> (forall p, p ∈ l -> flushable g s p) -> (length l <= fuel)%nat ->
  (forall s', inv held g s' -> flushed l s s' -> Q 0 s') -> wp (flush_pass fuel l 0) Q s.
Proof.
  revert s l Q. induction fuel as [|fuel IH]; intros s [|p l] Q Hi Hf Hfu HQ; cbn [length] in Hfu; try lia.
  1, 2: cbn [flush_pass]; wp_step; apply HQ; [done|apply flushed_nil].
  cbn [flush_pass]. destruct (Hf p) as (e & He & Hl & Hc); [apply elem_of_cons; by left|].
  destruct (mo_clone _ _ _ (iv_mem _ _ _ Hi) p e He) as [Hcl _].
  wp_step. eapply ent_wp; [done|]. unfold nothing_to_flush, flush_forbidden.
  rewrite Hcl, Hl, (bool_decide_true (None = None)) by done. cbn [andb negb Z.eqb]. rewrite andb_true_r, orb_false_r.
  assert (forall q, q ∈ l -> flushable g s q) as Hfl by (intros q Hq; apply Hf, elem_of_cons; by right).
  destruct (is_dirty e) eqn:Hd; cbn [negb].
  2: { apply (IH s l); [done|done|lia|]. intros s' Hs' Hfs. apply HQ; [done|].
       eapply (flushed_app [p] l); [by eapply flushed_skip|done]. }
  destruct Hc as [[? _]|[Hde Hv]]; [done|].
  destruct (copy_len held g s p _ e Hi Hv He) as (Hb & (_ & _ & Ebs & _) & _).
  wp_step. apply run_length_wp; [done|done|intros q Hq; destruct (Hfl q Hq) as (x & Hx & _); by exists x|].
  intros n Hn Hn' Hr. apply wp_if; intros Hc; zcases.
  - wp_step. apply (flush_cache_ent_wp held g s p); [done|apply Hf, elem_of_cons; by left|].
    intros s1 Hs1 Hf1. cbn [negb Z.eqb]. apply (IH s1 l); [done| |lia|].
    + intros q Hq. eapply flushable_flushed; eauto.
    + intros s' Hs' Hfs. apply HQ; [done|]. by eapply (flushed_app [p] l).
  - set (k := Z.to_nat (n - 1)) in *. replace (Z.to_nat n) with (S k) by lia. cbn [take drop].
    assert (forall q, q ∈ p :: take k l -> flushable g s q) as Hft.
    { intros q [->|Hq%elem_of_take_z]%elem_of_cons; [|by apply Hfl]. apply Hf, elem_of_cons; by left. }
    pose proof (run_of_cons s _ p e _ He Hde eq_refl Hr) as Hrun.
    assert (len (p :: take k l) = n) as Hlen by (rewrite len_cons; unfold len in *; rewrite length_take; lia).
    wp_step. rewrite Ebs. apply (gather_wp held g s (ce_block_num e)); [done|done|done|].
    wp_step. rewrite Hde. apply (write_run_wp held g s p e); try done; [lia|].
    intros s1 Hs1 Ec Eb Hdisk. rewrite Hlen, Z.eqb_refl. cbn [negb]. wp_step.
    apply (after_write_wp held g s1 (p :: take k l)); [done|done|]. intros s2 Hs2 Hf2.
    apply (flushed_from _ s s1) in Hf2; [|done|done].
    apply (IH s2 (drop k l)); [done| |rewrite length_drop; lia|].
    + intros q Hq%elem_of_drop_z. eapply flushable_flushed; eauto.
    + intros s' Hs' Hfs. apply HQ; [done|]. rewrite <- (take_drop k l). by eapply (flushed_app (p :: take k l)).
Qed.

Lemma still_dirty_wp s l (Q : bool -> cst -> Prop) :
  (forall q, q ∈ l -> exists e, ces s !! q = Some e /\ is_dirty e = false) -> Q false s -> wp (still_dirty l) Q s.
Proof.
  intros Hl HQ. induction l as [|p l IH]; cbn [still_dirty]; [by wp_step|].
  destruct (Hl p) as (e & He & Hd); [apply elem_of_cons; by left|]. wp_step. eapply ent_wp; [done|].
  rewrite Hd. cbn [negb orb]. apply IH. intros q Hq. apply Hl, elem_of_cons. by right.
Qed.

(** [flush_ents] leaves the entries clean and changes nothing else. *)
Lemma flush_ents_wp held g s l (Q : Z -> cst -> Prop) :
  inv held g s -> g_iov g = false -> (forall p, p ∈ l -> flushable g s p) ->
  (forall s', inv held g s' -> flushed l s s' -> Q 0 s') -> wp (flush_ents l) Q s.
Proof.
  intros Hi Hg Hf HQ. unfold flush_ents. wp_step. eapply get_iovec_wp; [done|done|].
  intros s1 Hs1 Ec1 Eb1.
  assert (forall p, p ∈ l -> flushable (g_set_iov true g) s1 p) as Hf1.
  { intros p Hp. destruct (Hf p Hp) as (e & He & H). exists e. by rewrite Ec1. }
  wp_step. apply (flush_pass_wp (length l) held _ s1 l _ Hs1 Hf1); [lia|].
  intros s2 Hs2 Hf2. wp_step. apply still_dirty_wp.
  { intros q Hq. destruct (flushable_flushed _ s1 s2 l q Hf2 (Hf1 q Hq)) as (e & He & _). exists e.
    split; [done|]. by eapply flushed_clean. }
  do 2 wp_step. wp_step. eapply release_iovec_wp; [exact Hs2|done|]. intros s3 Hs3 Ec3 Eb3. wp_step.
  apply HQ; [done|]. apply (flushed_to _ s s2); [done|done|]. by apply (flushed_from _ s s1).
Qed.
(** ** Looking up *)

Lemma hmap_lookup g b :
  hmap g !! (dev, b) = match g_vm g !! b with Some p => Some p | None => g_x g !! (dev, b) end.
Proof.
  unfold hmap. destruct (g_vm g !! b) as [p|] eqn:E.
  - apply lookup_union_Some_l. by rewrite (lookup_kmap (pair dev)).
  - apply lookup_union_r. by rewrite (lookup_kmap (pair dev)).
Qed.

Lemma set_ht_same s : set_bc (set_bc_ht (bc_ht (bc s)) (bc s)) s = s.
Proof. by destruct s as [[]]. Qed.

Lemma hash_lookup_inv held g s b (Q : option Z -> cst -> Prop) :
  inv held g s -> Q (hmap g !! (dev, b)) s -> wp (in_ht (hash_lookup dev b)) Q s.
Proof.
  intros Hi HQ. unfold in_ht. wp_step. eapply wp_mono; [by apply hash_lookup_wp, (to_ok _ _ (iv_ht _ _ _ Hi))|].
  intros r h [-> ->]. by rewrite set_ht_same.
Qed.

(** Every copy is on a list when nothing floats. *)
Lemma copy_listed held g s b p :
  inv held g s -> g_fl g = [] -> g_vm g !! b = Some p -> p ∈ g_nl g ++ g_ll g.
Proof.
  intros Hi Hfl Hv. destruct (co_valid _ _ _ _ _ _ _ (iv_content _ _ _ Hi) b p Hv) as (_ & e & He & _).
  assert (p ∈ g_nl g ++ g_ll g ++ g_fl g) as H.
  { apply (lo_dom _ _ _ _ _ _ (iv_lists _ _ _ Hi)). by exists e. }
  by rewrite Hfl, app_nil_r in H.
Qed.

Lemma block_lookup_wp held g s b (Q : option Z -> cst -> Prop) :
  inv held g s -> g_fl g = [] -> g_busy g = [] -> g_x g !! (dev, b) = None ->
  Q (g_vm g !! b) s -> wp (block_lookup dev b) Q s.
Proof.
  intros Hi Hfl Hbu Hx HQ. unfold block_lookup. wp_step. apply (hash_lookup_inv held g); [done|].
  rewrite hmap_lookup. destruct (g_vm g !! b) as [p|] eqn:Hv; [|rewrite Hx; by wp_step].
  destruct (co_valid _ _ _ _ _ _ _ (iv_content _ _ _ Hi) b p Hv) as (_ & e & He & _).
  wp_step. eapply ent_wp; [done|]. rewrite (iv_busy _ _ _ Hi p e He) by (by eapply copy_listed).
  rewrite Hbu, bool_decide_false by (by apply not_elem_of_nil). by wp_step.
Qed.
End dev.

(** For the files that follow. *)
Ltac inv_keep Hi :=
  destruct Hi; split; try done; try (by eapply env_same; [..|eassumption]); try (by eapply iov_same; [..|eassumption]).
