(* ===== verification/CacheMiss.v ===== *)
(** * CacheMiss: bringing blocks into the cache (cache.c)

    The steps of [cache_block_io] for blocks that are not in the cache: finding
    entries, claiming them, flushing and refilling them, and giving them their
    new blocks.  Between the steps the entries are on no list. *)

From Stdlib Require Import Sorted.
From S2P Require Import Prelude Bytes Host Device HashTable CacheList Cache CacheIo CacheInv.
Local Open Scope Z_scope.

(** ** Entries between the lists *)

Lemma lists_sym m cn cl nl ll fl : lists_ok m cn cl nl ll fl -> lists_ok m cl cn ll nl fl.
Proof.
  intros [H1 H2 H3 H4 H5]. split; try done.
  - rewrite app_assoc, (Permutation_app_comm ll nl), <- app_assoc. done.
  - intros p. rewrite H5, !elem_of_app. tauto.
Qed.

Lemma NoDup_perm (l l' : list Z) : l ≡ₚ l' -> NoDup l -> NoDup l'.
Proof. by intros ->. Qed.

Lemma strip_dom (m m' : gmap Z cache_ent) q : strip <$> m' = strip <$> m -> is_Some (m' !! q) <-> is_Some (m !! q).
Proof.
  intros Hs. transitivity (is_Some ((strip <$> m) !! q)).
  - by rewrite <- Hs, lookup_fmap, fmap_is_Some.
  - by rewrite lookup_fmap, fmap_is_Some.
Qed.

(** [l] without and with an element. *)
Lemma lists_delete m cn cl l1 p l2 ll fl (Q : unit -> _ -> Prop) :
  lists_ok m cn cl (l1 ++ p :: l2) ll fl ->
  (forall m' c', lists_ok m' c' cl (l1 ++ l2) ll (p :: fl) -> strip <$> m' = strip <$> m -> Q tt (m', c')) ->
  wp (delete_from_list p) Q (m, cn).
Proof.
  intros [Hn Hl Hf Hnd Hd] HQ. apply (delete_wp m cn l1 p l2 Q Hn). intros m' c' Hd' Hp' [Hs Hrel].
  assert (forall q, q ∈ ll ++ fl -> q ∉ l1 ++ p :: l2) as Hdis.
  { intros q Hq Hq'. apply NoDup_app in Hnd as (_ & H & _). by apply (H q). }
  apply HQ; [|done]. split.
  - done.
  - eapply dll_frame; [done|]. intros q Hq. apply Hrel, Hdis, elem_of_app. by left.
  - intros q [->|Hq]%elem_of_cons; [done|]. destruct (Hf q Hq) as (e & He & H). exists e.
    rewrite Hrel; [done|]. apply Hdis, elem_of_app. by right.
  - eapply NoDup_perm; [|exact Hnd]. solve_Permutation.
  - intros q. rewrite (strip_dom m m' q Hs), Hd, ?elem_of_app, ?elem_of_cons, ?elem_of_app, ?elem_of_nil. tauto.
Qed.

Lemma lists_add_head m cn cl nl ll f1 p f2 (Q : unit -> _ -> Prop) :
  lists_ok m cn cl nl ll (f1 ++ p :: f2) ->
  (forall m' c', lists_ok m' c' cl (nl ++ [p]) ll (f1 ++ f2) -> strip <$> m' = strip <$> m -> Q tt (m', c')) ->
  wp (add_to_head p) Q (m, cn).
Proof.
  intros [Hn Hl Hf Hnd Hd] HQ.
  assert (NoDup (p :: nl ++ ll ++ f1 ++ f2)) as Hnd'.
  { eapply NoDup_perm; [|exact Hnd]. solve_Permutation. }
  apply NoDup_cons in Hnd' as [Hp Hnd']. rewrite !elem_of_app in Hp.
  apply (add_to_head_wp m cn nl p Q Hn); [apply Hf; rewrite elem_of_app, elem_of_cons; auto|tauto|].
  intros m' c' Hd' [Hs Hrel]. apply HQ; [|done]. apply NoDup_app in Hnd' as (_ & Hdis & _). split.
  - done.
  - eapply dll_frame; [done|]. intros q Hq. apply Hrel. intros [->|Hq']%elem_of_cons; [tauto|].
    apply (Hdis q Hq'). apply elem_of_app. by left.
  - intros q Hq. destruct (Hf q) as (e & He & H); [rewrite elem_of_app, elem_of_cons; apply elem_of_app in Hq; tauto|].
    exists e. rewrite Hrel; [done|]. intros [->|Hq']%elem_of_cons; [apply elem_of_app in Hq; tauto|].
    apply (Hdis q Hq'). apply elem_of_app. by right.
  - eapply NoDup_perm; [|exact Hnd]. solve_Permutation.
  - intros q. rewrite (strip_dom m m' q Hs), Hd, ?elem_of_app, ?elem_of_cons, ?elem_of_app, ?elem_of_nil. tauto.
Qed.

Lemma lists_add_tail m cn cl nl ll f1 p f2 (Q : unit -> _ -> Prop) :
  lists_ok m cn cl nl ll (f1 ++ p :: f2) ->
  (forall m' c', lists_ok m' c' cl (p :: nl) ll (f1 ++ f2) -> strip <$> m' = strip <$> m -> Q tt (m', c')) ->
  wp (add_to_tail p) Q (m, cn).
Proof.
  intros [Hn Hl Hf Hnd Hd] HQ.
  assert (NoDup (p :: nl ++ ll ++ f1 ++ f2)) as Hnd'.
  { eapply NoDup_perm; [|exact Hnd]. solve_Permutation. }
  pose proof Hnd' as Hnd2.
  apply NoDup_cons in Hnd' as [Hp Hnd']. rewrite !elem_of_app in Hp.
  apply (add_to_tail_wp m cn nl p Q Hn); [apply Hf; rewrite elem_of_app, elem_of_cons; auto|tauto|].
  intros m' c' Hd' [Hs Hrel]. apply HQ; [|done]. apply NoDup_app in Hnd' as (_ & Hdis & _). split.
  - done.
  - eapply dll_frame; [done|]. intros q Hq. apply Hrel. intros [->|Hq']%elem_of_cons; [tauto|].
    apply (Hdis q Hq'). apply elem_of_app. by left.
  - intros q Hq. destruct (Hf q) as (e & He & H); [rewrite elem_of_app, elem_of_cons; apply elem_of_app in Hq; tauto|].
    exists e. rewrite Hrel; [done|]. intros [->|Hq']%elem_of_cons; [apply elem_of_app in Hq; tauto|].
    apply (Hdis q Hq'). apply elem_of_app. by right.
  - done.
  - intros q. rewrite (strip_dom m m' q Hs), Hd, ?elem_of_app, ?elem_of_cons, ?elem_of_app, ?elem_of_nil. tauto.
Qed.

Section miss.
Context {dev bs N : Z} {CG : CacheGeom dev bs N}.
Abbreviation inv := (CacheInv.inv dev bs N).

Definition g_set_nf (nl fl : list Z) (g : ghost) : ghost :=
  Ghost nl (g_ll g) fl (g_busy g) (g_vm g) (g_x g) (g_L g) (g_un g) (g_pin g) (g_iov g) (g_iova g).
Definition g_set_vx (vm : gmap Z Z) (x : gmap (Z * Z) Z) (g : ghost) : ghost :=
  Ghost (g_nl g) (g_ll g) (g_fl g) (g_busy g) vm x (g_L g) (g_un g) (g_pin g) (g_iov g) (g_iova g).

(** Entries move between the normal list and none. *)
Lemma inv_relist held g s m' cn' nl' fl' :
  inv held g s -> strip <$> m' = strip <$> ces s ->
  lists_ok m' cn' (locked (bc s)) nl' (g_ll g) fl' -> nl' ++ fl' ≡ₚ g_nl g ++ g_fl g ->
  (forall p, p ∈ nl' -> p ∉ g_nl g -> (exists b, g_vm g !! b = Some p) /\
     forall e, ces s !! p = Some e -> is_busy e = bool_decide (p ∈ g_busy g)) ->
  inv held (g_set_nf nl' fl' g) (set_ces m' (set_cel Normal cn' s)).
Proof.
  intros Hi Hs Hl Hp Hn.
  assert (forall p e, m' !! p = Some e -> exists e0, ces s !! p = Some e0 /\
    ce_flags e = ce_flags e0 /\ ce_lock e = ce_lock e0) as Hst.
  { intros p e He. destruct (strip_lookup (ces s) m' p e Hs He) as (e0 & He0 & H%strip_fields). exists e0. tauto. }
  inv_keep Hi; cbn.
  - by eapply mem_ok_strip.
  - by eapply content_strip.
  - rewrite iv_count. unfold len. rewrite !length_app. apply (f_equal Z.of_nat).
    apply Permutation_length in Hp. rewrite !length_app in Hp. lia.
  - intros p e He. destruct (Hst p e He) as (e0 & He0 & _ & ->). eauto.
  - intros b. specialize (iv_pin b). destruct (g_vm g !! b) as [p|]; [|done].
    intros e He. destruct (Hst p e He) as (e0 & He0 & _ & ->). eauto.
  - intros p [Hin|Hin]%elem_of_app; [|apply iv_res, elem_of_app; by right].
    destruct (decide (p ∈ g_nl g)); [apply iv_res, elem_of_app; by left|]. by apply Hn.
  - intros p e He Hin. destruct (Hst p e He) as (e0 & He0 & Ef & _). unfold is_busy. rewrite Ef.
    apply elem_of_app in Hin as [Hin|Hin]; [|apply (iv_busy p e0 He0), elem_of_app; by right].
    destruct (decide (p ∈ g_nl g)); [apply (iv_busy p e0 He0), elem_of_app; by left|]. by apply Hn.
Qed.

Lemma float_wp held g s l1 p l2 (Q : unit -> cst -> Prop) :
  inv held g s -> g_nl g = l1 ++ p :: l2 ->
  (forall s', inv held (g_set_nf (l1 ++ l2) (p :: g_fl g) g) s' -> strip <$> ces s' = strip <$> ces s ->
     bufs s' = bufs s -> Q tt s') ->
  wp (in_list Normal (delete_from_list p)) Q s.
Proof.
  intros Hi Hn HQ. unfold in_list. wp_step. pose proof (iv_lists _ _ _ _ _ _ Hi) as Hl. rewrite Hn in Hl.
  eapply lists_delete; [exact Hl|]. intros m' c' Hl' Hs. apply HQ; [|done|done].
  apply inv_relist; try done.
  - rewrite Hn. solve_Permutation.
  - intros q Hq Hq'. exfalso. apply Hq'. rewrite Hn. rewrite !elem_of_app in *. rewrite elem_of_cons. tauto.
Qed.

Lemma land_head_wp held g s f1 p f2 b (Q : unit -> cst -> Prop) :
  inv held g s -> g_fl g = f1 ++ p :: f2 -> g_vm g !! b = Some p ->
  (forall e, ces s !! p = Some e -> is_busy e = bool_decide (p ∈ g_busy g)) ->
  (forall s', inv held (g_set_nf (g_nl g ++ [p]) (f1 ++ f2) g) s' -> strip <$> ces s' = strip <$> ces s ->
     bufs s' = bufs s -> Q tt s') ->
  wp (in_list Normal (add_to_head p)) Q s.
Proof.
  intros Hi Hf Hv Hb HQ. unfold in_list. wp_step. pose proof (iv_lists _ _ _ _ _ _ Hi) as Hl. rewrite Hf in Hl.
  eapply lists_add_head; [exact Hl|]. intros m' c' Hl' Hs. apply HQ; [|done|done].
  apply inv_relist; try done.
  - rewrite Hf. solve_Permutation.
  - intros q [Hq| ->%list_elem_of_singleton]%elem_of_app Hq'; [done|]. eauto.
Qed.

Lemma land_tail_wp held g s f1 p f2 b (Q : unit -> cst -> Prop) :
  inv held g s -> g_fl g = f1 ++ p :: f2 -> g_vm g !! b = Some p ->
  (forall e, ces s !! p = Some e -> is_busy e = bool_decide (p ∈ g_busy g)) ->
  (forall s', inv held (g_set_nf (p :: g_nl g) (f1 ++ f2) g) s' -> strip <$> ces s' = strip <$> ces s ->
     bufs s' = bufs s -> Q tt s') ->
  wp (in_list Normal (add_to_tail p)) Q s.
Proof.
  intros Hi Hf Hv Hb HQ. unfold in_list. wp_step. pose proof (iv_lists _ _ _ _ _ _ Hi) as Hl. rewrite Hf in Hl.
  eapply lists_add_tail; [exact Hl|]. intros m' c' Hl' Hs. apply HQ; [|done|done].
  apply inv_relist; try done.
  - rewrite Hf. solve_Permutation.
  - intros q [->|Hq]%elem_of_cons Hq'; [|done]. eauto.
Qed.

(** ** Changes to entries that float and hold no block *)

Definition holds_none (g : ghost) (p : Z) : Prop := p ∈ g_fl g /\ forall b, g_vm g !! b <> Some p.

Lemma float_not_listed held g s p : inv held g s -> p ∈ g_fl g -> p ∉ g_nl g ++ g_ll g.
Proof.
  intros Hi Hp Hp'. pose proof (lo_nodup _ _ _ _ _ _ (iv_lists _ _ _ _ _ _ Hi)) as H.
  rewrite app_assoc in H. apply NoDup_app in H as (_ & H & _). by apply (H p).
Qed.

Lemma content_other m bf D ll vm L un p e' :
  (forall b, vm !! b <> Some p) -> content dev bs N m bf D ll vm L un ->
  content dev bs N (<[p := e']> m) bf D ll vm L un.
Proof.
  intros Hp [H1 H2 H3 H4]. split; try done.
  - intros b q Hq. destruct (H1 b q Hq) as (Hb & e & He & Hc). split; [done|]. exists e.
    rewrite lookup_insert_ne; [done|]. intros ->. by apply (Hp b).
  - intros b Hb. destruct (H3 b Hb) as (q & e & Hq & Hl & He & Hd). exists q, e.
    rewrite lookup_insert_ne; [done|]. intros ->. by apply (Hp b).
Qed.

Lemma inv_float_ent held g s p e e' :
  inv held g s -> holds_none g p -> ces s !! p = Some e ->
  ce_prev e' = ce_prev e -> ce_next e' = ce_next e -> ce_lock e' = ce_lock e ->
  mem_ok (<[p := e']> (ces s)) (bufs s) (h_brk (cs_host s)) ->
  inv held g (set_ces (<[p := e']> (ces s)) s).
Proof.
  intros Hi [Hf Hv] He E1 E2 E3 Hm. pose proof (float_not_listed held g s p Hi Hf) as Hnl.
  inv_keep Hi; cbn.
  - by eapply lists_ok_insert.
  - by apply content_other.
  - intros q y [(<- & <-)|[? ?]]%lookup_insert_Some; [rewrite E3; by apply (iv_locks p e)|eauto].
  - intros b. specialize (iv_pin b). destruct (g_vm g !! b) as [q|] eqn:E; [|done].
    intros y [(<- & <-)|[? ?]]%lookup_insert_Some; [by destruct (Hv b)|eauto].
  - intros q y [(<- & <-)|[? ?]]%lookup_insert_Some Hq; [done|eauto].
Qed.

(** A buffer that no copy uses is written, freed or allocated. *)
Lemma content_bufs m bf bf' D ll vm L un :
  (forall b p e a, vm !! b = Some p -> m !! p = Some e -> ce_data e = Some a -> bf' !! a = bf !! a) ->
  content dev bs N m bf D ll vm L un -> content dev bs N m bf' D ll vm L un.
Proof.
  intros Hbf [H1 H2 H3 H4]. split; try done.
  intros b p Hp. destruct (H1 b p Hp) as (Hb & e & He & (Hc1 & Hc2 & Hc3 & a & Ha & Hd) & Hcl). split; [done|].
  exists e. split; [done|]. split; [|done]. do 3 (split; [done|]). exists a. split; [done|].
  by rewrite (Hbf b p e a).
Qed.

(** The buffer of an entry that holds no block is not the buffer of a copy. *)
Lemma float_data held g s p e a b q e' a' :
  inv held g s -> holds_none g p -> ces s !! p = Some e -> ce_data e = Some a ->
  g_vm g !! b = Some q -> ces s !! q = Some e' -> ce_data e' = Some a' -> a' <> a.
Proof.
  intros Hi [_ Hv] He Ha Hq He' Ha' ->. apply (Hv b).
  rewrite (mo_inj _ _ _ (iv_mem _ _ _ _ _ _ Hi) p q e e' a); done.
Qed.

Lemma inv_float_store held g s p e a d :
  inv held g s -> holds_none g p -> ces s !! p = Some e -> ce_data e = Some a ->
  inv held g (set_bufs (<[a := d]> (bufs s)) s).
Proof.
  intros Hi Hp He Ha. pose proof (iv_mem _ _ _ _ _ _ Hi) as [M1 M2 M3 M4 M5].
  assert (is_Some (bufs s !! a)) as Hsa by eauto.
  pose proof (fun b q e' a' => float_data held g s p e a b q e' a' Hi Hp He Ha) as Hne.
  inv_keep Hi; cbn.
  - split; try done.
    + intros a'. rewrite lookup_insert_is_Some'. intros [<-|H]; by apply M2.
    + intros q e' a' He' Ha'. rewrite lookup_insert_is_Some'. right. eauto.
  - eapply content_bufs; [|done]. intros b q e' a' Hq He' Ha'. apply lookup_insert_ne.
    intros <-. by apply (Hne b q e' a).
Qed.

(** [malloc] of a buffer. *)
Lemma malloc_buf_wp held g s n (Q : option Z -> cst -> Prop) :
  inv held g s -> 0 <= n ->
  (forall a d s', inv held g s' -> ces s' = ces s -> bufs s' = <[a := d]> (bufs s) -> len d = n ->
     bufs s !! a = None -> Q (Some a) s') ->
  wp (malloc_buf n) Q s.
Proof.
  intros Hi Hn HQ. pose proof (iv_env _ _ _ _ _ _ Hi) as [Hoom E2 E3 E4].
  pose proof (iv_mem _ _ _ _ _ _ Hi) as [M1 M2 M3 M4 M5].
  unfold malloc_buf, Cache.in_host. wp_step. wp_step. unfold wp at 1, malloc. unfold no_oom in Hoom. rewrite Hoom. cbn [tail].
  set (h1 := Host _ _ _ _ _ _). wp_step. wp_step. eapply wp_mono; [apply len_junk|].
  intros d h [-> Hd]. do 3 wp_step. cbn [bufs set_cs_host].
  assert (bufs s !! h_brk (cs_host s) = None) as Hnone.
  { destruct (bufs s !! h_brk (cs_host s)) eqn:E; [|done].
    assert (h_brk (cs_host s) < h_brk (cs_host s)) by (apply M2; by eexists). lia. }
  apply (HQ _ d); [|done|done|by apply Hd|done].
  inv_keep Hi; cbn.
  - split; try done.
    + intros p Hp. specialize (M1 p Hp). lia.
    + intros a. rewrite lookup_insert_is_Some'. intros [<-|H]; [lia|]. specialize (M2 a H). lia.
    + intros q e' a' He' Ha'. rewrite lookup_insert_is_Some'. right. eauto.
  - eapply content_bufs; [|done]. intros b q e' a' Hq He' Ha'. apply lookup_insert_ne.
    intros <-. destruct (M3 q e' _ He' Ha') as [x Hx]. congruence.
Qed.
(** ** Counting *)

Lemma dev_blocks_wp held g s (Q : Z -> cst -> Prop) : inv held g s -> Q N s -> wp (dev_blocks dev) Q s.
Proof.
  intros Hi HQ. pose proof CG as [Hdev _ _]. unfold dev_blocks. wp_step. wp_step.
  replace (dev <? 0) with false by (symmetry; apply Z.ltb_ge; lia).
  rewrite (eo_max _ _ _ _ (iv_env _ _ _ _ _ _ Hi)). by wp_step.
Qed.

Lemma count_missing_wp held g s fuel b num k (Q : Z -> cst -> Prop) :
  inv held g s -> 1 <= k <= NUM_FLUSH_BLOCKS -> k <= num ->
  (forall n, k <= n <= NUM_FLUSH_BLOCKS -> n <= num ->
     (forall i, k <= i < n -> hmap dev g !! (dev, b + i) = None) -> Q n s) ->
  wp (count_missing fuel dev b num k) Q s.
Proof.
  intros Hi. revert k. induction fuel as [|fuel IH]; intros k Hk Hnum HQ; cbn [count_missing].
  - wp_step. apply HQ; lia.
  - apply wp_if; intros Hc; [|wp_step; apply HQ; lia]. zcases.
    wp_step. eapply hash_lookup_inv; [exact Hi|].
    destruct (hmap dev g !! (dev, b + k)) as [p|] eqn:E; [wp_step; apply HQ; lia|].
    apply IH; [lia|lia|]. intros n Hn Hn' Hmiss. apply HQ; [lia|lia|]. intros i Hik.
    destruct (decide (i = k)) as [->|]; [done|]. apply Hmiss. lia.
Qed.

Lemma count_ahead_wp held g s fuel b limit k (Q : Z -> cst -> Prop) :
  inv held g s -> b + k <= N -> k <= limit ->
  (forall n, k <= n <= limit -> b + n <= N ->
     (forall i, k <= i < n -> hmap dev g !! (dev, b + i) = None) -> Q n s) ->
  wp (count_ahead fuel dev b limit k) Q s.
Proof.
  intros Hi. revert k. induction fuel as [|fuel IH]; intros k HkN Hk HQ; cbn [count_ahead].
  - wp_step. apply HQ; lia.
  - apply wp_if; intros Hc; [|wp_step; apply HQ; lia]. zcases.
    wp_step. eapply dev_blocks_wp; [exact Hi|]. apply wp_if; intros Hc'; [wp_step; apply HQ; lia|]. zcases.
    wp_step. eapply hash_lookup_inv; [exact Hi|].
    destruct (hmap dev g !! (dev, b + k)) as [p|] eqn:E; [wp_step; apply HQ; lia|].
    apply IH; [lia|lia|]. intros n Hn Hn' Hmiss. apply HQ; [lia|lia|]. intros i Hik.
    destruct (decide (i = k)) as [->|]; [done|]. apply Hmiss. lia.
Qed.

(** Read-ahead never asks for more blocks than a request may use. *)
Lemma needed_blocks_wp held g s b op k (Q : Z -> cst -> Prop) :
  inv held g s -> 1 <= k <= NUM_FLUSH_BLOCKS -> b + k <= N ->
  (forall n, k <= n <= NUM_FLUSH_BLOCKS -> b + n <= N ->
     (forall i, k <= i < n -> hmap dev g !! (dev, b + i) = None) ->
     (CacheIo.has op CACHE_READ = false -> n = k) -> Q n s) ->
  wp (needed_blocks dev b bs op k) Q s.
Proof.
  intros Hi Hk HN HQ. pose proof CG as [_ Hbs _]. unfold needed_blocks, read_ahead_size, NUM_FLUSH_BLOCKS in *.
  apply wp_if; intros Hc; [|wp_step; apply HQ; (lia || done)].
  assert (CacheIo.has op CACHE_READ = true) as Hr by (by destruct (CacheIo.has op CACHE_READ)). zcases.
  rewrite Z.quot_div_nonneg by lia.
  assert (k <= 32 * 1024 / bs <= 64) by dlia.
  eapply count_ahead_wp; [exact Hi|done|lia|]. intros n Hn HnN Hh. apply HQ; [lia|done|done|congruence].
Qed.

(** ** New entries *)

Definition fresh_ent (s : cst) (p : Z) : Prop :=
  exists e, ces s !! p = Some e /\ ce_dev e = -1 /\ ce_bsize e = 0 /\ ce_flags e = 0 /\ ce_lock e = 0 /\ ce_clone e = None.

Lemma lists_new m cn cl nl ll fl p e :
  lists_ok m cn cl nl ll fl -> m !! p = None -> ce_prev e = None -> ce_next e = None ->
  lists_ok (<[p := e]> m) cn cl nl ll (fl ++ [p]).
Proof.
  intros [H1 H2 H3 H4 H5] Hp E1 E2.
  assert (p ∉ nl ++ ll ++ fl) as Hn by (rewrite <- H5, Hp; by intros [? ?]).
  assert (forall q, q ∈ nl ++ ll ++ fl -> <[p := e]> m !! q = m !! q) as Hne.
  { intros q Hq. apply lookup_insert_ne. by intros ->. }
  split.
  - eapply dll_frame; [done|]. intros q Hq. apply Hne, elem_of_app. by left.
  - eapply dll_frame; [done|]. intros q Hq. apply Hne. rewrite !elem_of_app. auto.
  - intros q [Hq| ->%list_elem_of_singleton]%elem_of_app.
    + destruct (H3 q Hq) as (x & Hx & H). exists x. rewrite Hne; [done|]. rewrite !elem_of_app. auto.
    + exists e. by rewrite lookup_insert_eq.
  - eapply (NoDup_perm (p :: nl ++ ll ++ fl)); [solve_Permutation|]. by apply NoDup_cons.
  - intros q. rewrite lookup_insert_is_Some', H5, !elem_of_app, list_elem_of_singleton. intuition congruence.
Qed.

(** [new_cache_ent] and the increment of [cur_blocks] that follows it. *)
Lemma new_ent_wp held g s (Q : Z -> cst -> Prop) :
  inv held g s -> cur_blocks (bc s) < max_blocks (bc s) ->
  (forall p s', inv held (g_set_nf (g_nl g) (g_fl g ++ [p]) g) s' -> ces s !! p = None -> fresh_ent s' p ->
     (forall q, q <> p -> ces s' !! q = ces s !! q) ->
     cur_blocks (bc s') = cur_blocks (bc s) + 1 -> max_blocks (bc s') = max_blocks (bc s) -> Q p s') ->
  wp (p ← new_cache_ent bs; _ ← upd_bc (fun b => set_cur_blocks (cur_blocks b + 1) b); mret p) Q s.
Proof.
  intros Hi Hroom HQ. pose proof CG as [_ Hbs _].
  pose proof (iv_env _ _ _ _ _ _ Hi) as [Hoom E2 E3 E4]. unfold no_oom in Hoom.
  pose proof (iv_mem _ _ _ _ _ _ Hi) as [M1 M2 M3 M4 M5].
  set (p := h_brk (cs_host s)) in *. set (a := p + Z.max 1 88).
  assert (ces s !! p = None) as Hp.
  { destruct (ces s !! p) eqn:E; [|done]. assert (p < p) by (apply M1; by eexists). lia. }
  assert (bufs s !! a = None) as Ha.
  { destruct (bufs s !! a) eqn:E; [|done]. assert (a < p) by (apply M2; by eexists). unfold a in *. lia. }
  unfold new_cache_ent, malloc_buf, Cache.in_host. wp_step. wp_step. wp_step.
  unfold wp at 1, malloc. rewrite Hoom. cbn [tail].
  do 2 wp_step. wp_step. wp_step. wp_step. unfold wp at 1, malloc. cbn [h_oom tail cs_host set_cs_host set_ces].
  set (h1 := Host _ _ _ _ _ _). wp_step. wp_step. eapply wp_mono; [apply len_junk|]. intros d h [-> Hd]. specialize (Hd ltac:(lia)).
  do 3 wp_step. wp_step. eapply upd_ent_wp; [apply lookup_insert_eq|]. wp_step.
  eapply upd_ent_wp; [apply lookup_insert_eq|]. wp_step. eapply upd_ent_wp; [apply lookup_insert_eq|].
  unfold upd_bc. wp_steps. cbn. rewrite !insert_insert_eq. apply HQ; cbn; try done.
  - assert (forall q, q = p \/ is_Some (ces s !! q) -> q < p + Z.max 1 88 + Z.max 1 bs) as Hlt.
    { intros q [->|Hq]; [lia|]. assert (q < p) by (by apply M1). lia. }
    inv_keep Hi; cbn.
    + by apply lists_new.
    + split.
      * intros q. rewrite lookup_insert_is_Some'. intros [<-|Hy]; apply Hlt; auto.
      * intros a'. rewrite lookup_insert_is_Some'. unfold a. intros [<-|H]; [lia|]. specialize (M2 a' H). lia.
      * intros q e a' [(<- & <-)|[? ?]]%lookup_insert_Some; cbn; rewrite lookup_insert_is_Some'; [intros [= <-]; by left|].
        intros H'. right. eauto.
      * intros q q' e e' a' [(<- & <-)|[? ?]]%lookup_insert_Some [(<- & <-)|[? ?]]%lookup_insert_Some; cbn; try done.
        -- intros [= <-] H'. destruct (M3 q' e' a ltac:(eassumption) H') as [y Hy]. congruence.
        -- intros H' [= <-]. destruct (M3 q e a ltac:(eassumption) H') as [y Hy]. congruence.
        -- eauto.
      * intros q e [(<- & <-)|[? ?]]%lookup_insert_Some; [done|]. eauto.
    + eapply (content_bufs _ (bufs s)).
      * intros b q e a' Hv [(<- & <-)|[? Hq]]%lookup_insert_Some.
        -- destruct (co_valid _ _ _ _ _ _ _ _ _ _ iv_content b p Hv) as (_ & e' & He' & _). congruence.
        -- intros H'. apply lookup_insert_ne. intros <-. destruct (M3 q e a Hq H') as [y Hy]. congruence.
      * apply content_other; [|done]. intros b Hv.
        destruct (co_valid _ _ _ _ _ _ _ _ _ _ iv_content b p Hv) as (_ & e' & He' & _). congruence.
    + rewrite iv_count. unfold len. rewrite !length_app. cbn. lia.
    + lia.
    + intros q e [(<- & <-)|[? ?]]%lookup_insert_Some; cbn; [|eauto]. split; [|done]. intros Hll.
      assert (is_Some (ces s !! p)) as [? ?]; [|congruence].
      apply (lo_dom _ _ _ _ _ _ iv_lists). rewrite !elem_of_app. auto.
    + intros b. specialize (iv_pin b). destruct (g_vm g !! b) as [q|] eqn:Hv; [|done].
      intros e [(<- & <-)|[? ?]]%lookup_insert_Some; [|eauto].
      destruct (co_valid _ _ _ _ _ _ _ _ _ _ iv_content b p Hv) as (_ & e' & He' & _). congruence.
    + intros q e [(<- & <-)|[? ?]]%lookup_insert_Some Hq; [|eauto].
      assert (is_Some (ces s !! p)) as [? ?]; [|congruence].
      apply (lo_dom _ _ _ _ _ _ iv_lists). rewrite !elem_of_app in *. tauto.
  - eexists. split; [apply lookup_insert_eq|done].
  - intros q Hq. by rewrite lookup_insert_ne.
Qed.
Lemma wp_then {A B} (m : CM A) (u : A -> CM unit) (k : A -> CM B) Q s :
  wp (p ← m; _ ← u p; mret p) (fun p s' => wp (k p) Q s') s -> wp (p ← m; _ ← u p; k p) Q s.
Proof.
  unfold wp, mbind, M_bind. destruct (m s) as [[a s1]| |]; [|done|done].
  by destruct (u a s1) as [[[] s2]| |].
Qed.

Lemma g_set_nf_id g : g_set_nf (g_nl g) (g_fl g) g = g.
Proof. by destruct g. Qed.

(** As many new entries as the cache has room for. *)
Lemma new_ents_wp n held g s (Q : list Z -> cst -> Prop) :
  inv held g s ->
  (forall news s', inv held (g_set_nf (g_nl g) (g_fl g ++ news) g) s' ->
     (forall p, p ∈ news -> fresh_ent s' p) ->
     (forall q, is_Some (ces s !! q) -> ces s' !! q = ces s !! q) ->
     len news <= Z.of_nat n ->
     (len news < Z.of_nat n -> MIN_BLOCKS <= len (g_nl g ++ g_ll g ++ g_fl g ++ news)) -> Q news s') ->
  wp (new_ents n bs) Q s.
Proof.
  revert g s Q. induction n as [|n IH]; intros g s Q Hi HQ; cbn [new_ents].
  { wp_step. apply HQ; [by rewrite app_nil_r, g_set_nf_id|by intros p ?%elem_of_nil|done|done|rewrite len_nil; lia]. }
  wp_step. wp_step. apply wp_if; intros Hc; zcases.
  2: { wp_step. apply HQ; rewrite ?app_nil_r, ?g_set_nf_id; [done|by intros p ?%elem_of_nil|done|rewrite len_nil; lia|].
       intros _. pose proof (iv_count _ _ _ _ _ _ Hi). pose proof (iv_max _ _ _ _ _ _ Hi). lia. }
  apply (wp_then (new_cache_ent bs) (fun _ => upd_bc (fun b => set_cur_blocks (cur_blocks b + 1) b))).
  eapply new_ent_wp; [done|lia|]. intros p s1 Hs1 Hp Hfr Hold _ _. wp_step.
  apply (IH _ _ _ Hs1). intros news s2 Hs2 Hnews Hold2 Hlen Hmin. cbn in Hs2, Hmin. wp_step.
  rewrite <- app_assoc in Hs2, Hmin. apply HQ; [exact Hs2| | |rewrite len_cons; lia|].
  - intros q [->|Hq]%elem_of_cons; [|by apply Hnews]. destruct Hfr as (e & He & H). exists e.
    by rewrite Hold2 by (by exists e).
  - intros q Hq. rewrite Hold2.
    + apply Hold. intros ->. rewrite Hp in Hq. by destruct Hq.
    + rewrite Hold; [done|]. intros ->. rewrite Hp in Hq. by destruct Hq.
  - rewrite len_cons. intros H. apply Hmin. lia.
Qed.

(** ** Picking entries from the LRU end *)

Lemma nl_next held g s l1 p l2 e :
  inv held g s -> g_nl g = l1 ++ p :: l2 -> ces s !! p = Some e -> ce_next e = head l2.
Proof.
  intros Hi Hn He. pose proof (lo_normal _ _ _ _ _ _ (iv_lists _ _ _ _ _ _ Hi)) as Hd.
  destruct (dll_links _ _ _ Hd l1 p l2 Hn) as (e' & He' & _ & <-). congruence.
Qed.

Lemma nl_ent held g s p :
  inv held g s -> p ∈ g_nl g -> exists e, ces s !! p = Some e /\ ce_lock e = 0 /\ is_busy e = bool_decide (p ∈ g_busy g).
Proof.
  intros Hi Hp. pose proof (iv_lists _ _ _ _ _ _ Hi) as Hl.
  destruct (proj2 (lo_dom _ _ _ _ _ _ Hl p)) as [e He]; [apply elem_of_app; by left|].
  exists e. split; [done|]. split.
  - apply (iv_locks _ _ _ _ _ _ Hi p e He). intros H. pose proof (lo_nodup _ _ _ _ _ _ Hl) as Hnd.
    apply NoDup_app in Hnd as (_ & Hnd & _). apply (Hnd p Hp). apply elem_of_app. by left.
  - apply (iv_busy _ _ _ _ _ _ Hi p e He), elem_of_app. by left.
Qed.

(** From position [l1] of the normal list on, everything not yet picked is. *)
Lemma pick_wp fuel held g s l1 l2 test max ents (Q : list Z -> cst -> Prop) :
  inv held g s -> g_nl g = l1 ++ l2 -> g_busy g = l1 -> (length l2 < fuel)%nat ->
  (forall e, ce_lock e = 0 -> is_busy e = false -> test e = mret true) ->
  (forall s', let l := take (Z.to_nat (max - len ents)) l2 in
     inv held (g_set_busy (l1 ++ l) g) s' -> (forall q, q ∉ l2 -> ces s' !! q = ces s !! q) ->
     Q (ents ++ l) s') ->
  wp (pick fuel test max (head l2) ents) Q s.
Proof.
  intros Hi Hn Hb Hf Ht. revert g s l1 l2 ents Q Hi Hn Hb Hf.
  induction fuel as [|fuel IH]; intros g s l1 l2 ents Q Hi Hn Hb Hf HQ; [lia|].
  assert (Q ents s -> wp (mret ents : CM (list Z)) Q s) as Hdone by (intros H; by wp_step).
  destruct l2 as [|p l2]; cbn [pick head].
  { apply Hdone. specialize (HQ s). cbv zeta in HQ. rewrite take_nil, !app_nil_r in HQ. apply HQ; [|done].
    rewrite <- Hb, g_set_busy_id. done. }
  apply wp_if; intros Hc; zcases.
  2: { apply Hdone. specialize (HQ s). cbv zeta in HQ. replace (Z.to_nat (max - len ents)) with 0%nat in HQ by lia.
       cbn [take] in HQ. rewrite !app_nil_r in HQ. apply HQ; [|done]. rewrite <- Hb, g_set_busy_id. done. }
  assert (p ∈ g_nl g) as Hp by (rewrite Hn, elem_of_app, elem_of_cons; auto).
  destruct (nl_ent held g s p Hi Hp) as (e & He & Hl & Hbu).
  pose proof (lo_nodup _ _ _ _ _ _ (iv_lists _ _ _ _ _ _ Hi)) as Hnd.
  assert (NoDup (g_nl g)) as Hnd' by (by apply NoDup_app in Hnd as [? _]).
  rewrite Hn in Hnd'. destruct (NoDup_mid l1 l2 p Hnd') as (Hp1 & Hp2 & _).
  rewrite Hb, bool_decide_false in Hbu by done.
  wp_step. eapply ent_wp; [done|]. rewrite (Ht e Hl Hbu). wp_step. wp_step. wp_step. eapply upd_ent_wp; [done|].
  rewrite (nl_next held g s l1 p l2 e Hi Hn He).
  assert (inv held (g_set_busy (l1 ++ [p]) g) (set_ces (<[p := or_flags CE_BUSY e]> (ces s)) s)) as Hi'.
  { apply inv_flags; try done.
    - left. apply dirty_or_busy.
    - intros _. transitivity true; [apply busy_or_busy|]. symmetry. apply bool_decide_true.
      rewrite elem_of_app, list_elem_of_singleton. auto.
    - intros q _ Hq. rewrite Hb, elem_of_app, list_elem_of_singleton. tauto. }
  eapply (IH _ _ (l1 ++ [p]) l2 _ _ Hi'); [by rewrite <- app_assoc|done|cbn in Hf; lia|].
  intros s' l Hs' Hq. unfold l in *. clear l. rewrite len_app, len_cons, len_nil in *.
  specialize (HQ s'). cbv zeta in HQ. replace (Z.to_nat (max - len ents)) with (S (Z.to_nat (max - (len ents + (1 + 0))))) in HQ by lia.
  cbn [take] in HQ. rewrite <- !app_assoc in *. apply HQ; [exact Hs'|].
  intros q Hq'. rewrite elem_of_cons in Hq'. rewrite Hq by tauto. apply lookup_insert_ne. intros ->. tauto.
Qed.

Lemma nl_fuel held g s : inv held g s -> (length (g_nl g) < list_fuel s)%nat.
Proof.
  intros Hi. pose proof (iv_lists _ _ _ _ _ _ Hi) as [_ _ _ Hnd Hd]. unfold list_fuel.
  apply NoDup_app in Hnd as [Hnd _]. rewrite <- size_dom, <- (size_list_to_set (C := gset Z) (g_nl g)) by done.
  apply Nat.lt_succ_r, subseteq_size. intros p Hp%elem_of_list_to_set. apply elem_of_dom, Hd, elem_of_app. by left.
Qed.
Lemma pick_from_wp held g s test max ents (Q : list Z -> cst -> Prop) :
  inv held g s -> g_busy g = [] ->
  (forall e, ce_lock e = 0 -> is_busy e = false -> test e = mret true) ->
  (forall s', let l := take (Z.to_nat (max - len ents)) (g_nl g) in
     inv held (g_set_busy l g) s' -> (forall q, q ∉ g_nl g -> ces s' !! q = ces s !! q) -> Q (ents ++ l) s') ->
  wp (pick_from Normal test max ents) Q s.
Proof.
  intros Hi Hb Ht HQ. unfold pick_from. wp_step. wp_step. cbn [the_cel].
  rewrite (dll_lru _ _ _ (lo_normal _ _ _ _ _ _ (iv_lists _ _ _ _ _ _ Hi))).
  eapply (pick_wp _ held g s [] (g_nl g)); try done. by apply (nl_fuel held g).
Qed.

Lemma float_disjoint held g s p : inv held g s -> p ∈ g_fl g -> p ∉ g_nl g.
Proof. intros Hi Hp Hn. apply (float_not_listed held g s p Hi Hp), elem_of_app. by left. Qed.

(** What [get_ents] returns: new entries, then the first of the normal list. *)
Record gotten (num : Z) (g : ghost) (news picks : list Z) (s : cst) : Prop := {
  gt_inv : inv true (g_set_busy picks (g_set_nf (g_nl g) news g)) s;
  gt_fresh : forall p, p ∈ news -> fresh_ent s p;
  gt_picks : exists rest, g_nl g = picks ++ rest;
  gt_len : num <= len (news ++ picks) <= NUM_FLUSH_BLOCKS;
  gt_news : len news <= num;
}.

(** The entries are different, and are entries. *)
Lemma gotten_ents num g news picks s :
  gotten num g news picks s -> NoDup (news ++ picks) /\ forall p, p ∈ news ++ picks -> is_Some (ces s !! p).
Proof.
  intros [Hi _ [rest Hr] _ _]. pose proof (iv_lists _ _ _ _ _ _ Hi) as [_ _ _ Hnd Hdom]. cbn in Hnd, Hdom. rewrite Hr in Hnd, Hdom. split.
  - apply NoDup_app in Hnd as (Hnd1 & Hd1 & Hnd2). apply NoDup_app in Hnd2 as (_ & _ & Hnd3).
    apply NoDup_app in Hnd1 as (Hp & _ & _). apply NoDup_app. split; [done|]. split; [|done].
    intros p Hpn Hpp. apply (Hd1 p); rewrite !elem_of_app; tauto.
  - intros p Hp. apply Hdom. rewrite !elem_of_app in *. tauto.
Qed.

Lemma fresh_frame g s s' p :
  inv true g s -> p ∈ g_fl g -> (forall q, q ∉ g_nl g -> ces s' !! q = ces s !! q) -> fresh_ent s p -> fresh_ent s' p.
Proof.
  intros Hi Hp Hq (e & He & H). exists e. rewrite Hq; [done|]. by eapply float_disjoint.
Qed.

Lemma pluck_wp n num g s news (Q : list Z -> cst -> Prop) :
  inv true g s -> g_busy g = [] -> g_fl g = news -> (0 < n)%nat ->
  (forall p, p ∈ news -> fresh_ent s p) ->
  len news <= num <= NUM_FLUSH_BLOCKS ->
  (len news < num -> num <= len (g_nl g) + len news) ->
  (forall s' picks, gotten num g news picks s' -> len (news ++ picks) = num -> Q (news ++ picks) s') ->
  wp (pluck n num news) Q s.
Proof.
  intros Hi Hb <- Hn Hfr Hnum Hav HQ. destruct n as [|n]; [lia|].
  assert (forall (k : nat) l s', ~ (len l < num) -> Q l s' -> wp (pluck k num l) Q s') as Hstop.
  { intros k l s' Hl Hql. destruct k; cbn [pluck]; rewrite (proj2 (Z.ltb_ge (len l) num)) by lia; cbn [negb]; by wp_step. }
  destruct (decide (len (g_fl g) < num)) as [Hlt|Hge].
  - cbn [pluck]. rewrite (proj2 (Z.ltb_lt (len (g_fl g)) num)) by lia. cbn [negb]. wp_step.
    apply (pick_from_wp true g); [done|done| |].
    { intros e -> ->. done. }
    intros s1 l Hs1 Hq. unfold l in *. clear l.
    assert (len ((g_fl g) ++ take (Z.to_nat (num - len (g_fl g))) (g_nl g)) = num) as Hlen.
    { specialize (Hav Hlt). rewrite len_app. unfold len in *. rewrite length_take. lia. }
    rewrite (proj2 (Z.ltb_ge _ num)) by lia. apply Hstop; [lia|]. apply HQ; [|done]. split.
    + by rewrite g_set_nf_id.
    + intros p Hp. eapply (fresh_frame g); eauto.
    + exists (drop (Z.to_nat (num - len (g_fl g))) (g_nl g)). by rewrite take_drop.
    + lia.
    + lia.
  - apply Hstop; [done|]. rewrite <- (app_nil_r (g_fl g)). apply HQ; [|rewrite app_nil_r; lia]. split.
    + rewrite g_set_nf_id, <- Hb, g_set_busy_id. done.
    + done.
    + by exists (g_nl g).
    + rewrite app_nil_r. lia.
    + lia.
Qed.

(** Past the needed entries, more dirty ones may follow. *)
Lemma get_ents_wp num g s (Q : list Z -> cst -> Prop) :
  inv true g s -> g_busy g = [] -> g_fl g = [] -> 1 <= num <= NUM_FLUSH_BLOCKS -> len (g_ll g) <= 8 ->
  (forall s' news picks, gotten num g news picks s' -> Q (news ++ picks) s') ->
  wp (get_ents num NUM_FLUSH_BLOCKS bs) Q s.
Proof.
  intros Hi Hb Hf Hnum Hll HQ. unfold get_ents.
  replace (num >? NUM_FLUSH_BLOCKS) with false by (symmetry; rewrite Z.gtb_ltb; apply Z.ltb_ge; lia).
  wp_step. apply (new_ents_wp _ true g s _ Hi). intros news s1 Hs1 Hfr _ Hlen Hmin. rewrite Hf in *. cbn [app] in *.
  wp_step. eapply (pluck_wp _ num _ s1 news); [exact Hs1|done|done|lia|done|lia| |].
  { cbn. intros Hlt. specialize (Hmin ltac:(lia)). rewrite !len_app in Hmin. unfold MIN_BLOCKS, NUM_FLUSH_BLOCKS in *. lia. }
  intros s2 picks [Hi2 Hfr2 (rest & Hrest) Hlen2 Hnews2] Hnum2. cbn [g_nl g_set_nf] in *.
  change (g_set_nf (g_nl g) news (g_set_nf (g_nl g) news g)) with (g_set_nf (g_nl g) news g) in Hi2.
  assert (gotten num g news picks s2) as Hgot by (split; [done|done|by exists rest|done|done]).
  destruct (last (news ++ picks)) as [p|] eqn:El; [|wp_step; by apply HQ].
  assert (exists e, ces s2 !! p = Some e /\ (p ∈ news /\ ready_to_flush e = false \/
    exists l1, picks = l1 ++ [p] /\ ce_next e = head rest)) as (e & He & Hcase).
  { destruct (decide (picks = [])) as [->|Hne].
    - rewrite app_nil_r in El. apply last_elem in El as [l ->].
      destruct (Hfr2 p) as (e & He & H1 & H2 & H3 & H4 & H5); [apply elem_of_app; right; by apply list_elem_of_singleton|].
      exists e. split; [done|]. left. split; [apply elem_of_app; right; by apply list_elem_of_singleton|].
      unfold ready_to_flush, is_dirty. by rewrite H3, H5.
    - destruct (last picks) as [q|] eqn:Eq; [|by apply last_None in Eq].
      rewrite last_app, Eq in El. injection El as ->. apply last_elem in Eq as [l1 ->].
      rewrite <- app_assoc in Hrest. cbn in Hrest.
      assert (p ∈ g_nl g) as Hp by (rewrite Hrest, elem_of_app, elem_of_cons; auto).
      destruct (nl_ent true _ s2 p Hi2 Hp) as (e & He & _). exists e. split; [done|]. right. exists l1.
      split; [done|]. by eapply (nl_next true _ s2 l1 p rest e Hi2). }
  wp_step. eapply ent_wp; [done|]. apply wp_if; intros Hc; zcases; [|wp_step; by apply HQ].
  destruct Hcase as [[_ ?]|(l1 & -> & ->)]; [congruence|].
  wp_step. wp_step. eapply (pick_wp _ true _ s2 (l1 ++ [p]) rest _ _ _ _ Hi2); [done|done| | |].
  - pose proof (nl_fuel true _ s2 Hi2) as Hfu. cbn [g_nl g_set_busy g_set_nf] in Hfu. rewrite Hrest, length_app in Hfu. lia.
  - intros x -> ->. done.
  - intros s3 l Hs3 Hq. unfold l in *. clear l. rewrite <- app_assoc. apply HQ. split.
    + exact Hs3.
    + intros q Hq'. destruct (Hfr2 q Hq') as (x & Hx & Hx0). exists x. rewrite Hq; [done|].
      intros Hin. apply (float_disjoint true _ s2 q Hi2); [done|]. cbn. rewrite Hrest. apply elem_of_app. by right.
    + exists (drop (Z.to_nat (NUM_FLUSH_BLOCKS - len (news ++ l1 ++ [p]))) rest). rewrite <- app_assoc, take_drop. done.
    + rewrite app_assoc, len_app. pose proof (len_nonneg (take (Z.to_nat (NUM_FLUSH_BLOCKS - len (news ++ l1 ++ [p]))) rest)).
      split; [lia|]. unfold len at 2. rewrite length_take. lia.
    + done.
Qed.
(** ** Sorting *)

Lemma insert_ent_perm x l : insert_ent x l ≡ₚ x :: l.
Proof.
  induction l as [|y l IH]; cbn; [done|]. destruct (cache_ent_cmp x.2 y.2 <=? 0); [done|].
  rewrite IH. constructor.
Qed.

Lemma sort_ents_perm l : sort_ents l ≡ₚ l.
Proof. induction l as [|x l IH]; cbn; [done|]. by rewrite insert_ent_perm, IH. Qed.

(** Sorted entries come by device. *)
Definition dev_le (x y : Z * cache_ent) : Prop := ce_dev x.2 <= ce_dev y.2.

Lemma cmp_dev e e' : cache_ent_cmp e e' <= 0 -> ce_dev e <= ce_dev e'.
Proof. unfold cache_ent_cmp. destruct (Z.eqb_spec (ce_dev e) (ce_dev e')); lia. Qed.
Lemma cmp_dev_gt e e' : 0 < cache_ent_cmp e e' -> ce_dev e' <= ce_dev e.
Proof. unfold cache_ent_cmp. destruct (Z.eqb_spec (ce_dev e) (ce_dev e')); lia. Qed.

Lemma insert_ent_sorted x l : StronglySorted dev_le l -> StronglySorted dev_le (insert_ent x l).
Proof.
  induction 1 as [|y l Hs IH Hy]; cbn; [by repeat constructor|].
  destruct (cache_ent_cmp x.2 y.2 <=? 0) eqn:E; zcases.
  - apply cmp_dev in E. constructor; [by constructor|]. constructor; [done|].
    eapply Forall_impl; [exact Hy|]. intros z Hz. unfold dev_le in *. lia.
  - constructor; [done|]. rewrite insert_ent_perm. constructor; [|done]. apply cmp_dev_gt. lia.
Qed.
Lemma sort_ents_sorted l : StronglySorted dev_le (sort_ents l).
Proof. induction l as [|x l IH]; [constructor|]. by apply insert_ent_sorted. Qed.

Lemma StronglySorted_drop (l : list (Z * cache_ent)) n x y :
  StronglySorted dev_le l -> x ∈ take n l -> y ∈ drop n l -> dev_le x y.
Proof.
  intros Hs. revert n. induction Hs as [|z l Hs IH Hz]; intros n Hx Hy; [by rewrite take_nil in Hx; apply elem_of_nil in Hx|].
  destruct n as [|n]; cbn in *; [by apply elem_of_nil in Hx|]. apply elem_of_cons in Hx as [->|Hx]; [|by eapply IH].
  rewrite Forall_forall in Hz. apply Hz. by apply elem_of_drop_z in Hy.
Qed.

Lemma qsort_wp s l (Q : list Z -> cst -> Prop) :
  (forall p, p ∈ l -> is_Some (ces s !! p)) ->
  (forall l', l' ≡ₚ l -> (forall n p q e e', p ∈ take n l' -> q ∈ drop n l' -> ces s !! p = Some e -> ces s !! q = Some e' ->
     ce_dev e <= ce_dev e') -> Q l' s) -> wp (qsort_ents l) Q s.
Proof.
  intros Hl HQ. unfold qsort_ents. wp_step.
  apply (wp_mono (A := list (Z * cache_ent)) _ (fun r s' => r.*1 = l /\ s' = s /\ forall p e, (p, e) ∈ r -> ces s !! p = Some e)).
  - clear HQ. induction l as [|p l IH]; cbn [load_ents]; [by wp_step; split_and!; [..|by intros p e ?%elem_of_nil]|].
    destruct (Hl p) as [e He]; [apply elem_of_cons; by left|]. wp_step. eapply ent_wp; [done|].
    wp_step. eapply wp_mono; [apply IH; intros q Hq; apply Hl, elem_of_cons; by right|].
    intros r s' (E & -> & Hr). wp_step. cbn. rewrite E. split_and!; try done.
    by intros q x [[= -> ->]|Hq]%elem_of_cons; [|apply Hr].
  - intros r s' (E & -> & Hr). wp_step. apply HQ; [by rewrite sort_ents_perm, E|].
    intros n p q e e' Hp Hq He He'. rewrite <- fmap_take in Hp. rewrite <- fmap_drop in Hq.
    apply list_elem_of_fmap in Hp as ([p' x] & -> & Hp), Hq as ([q' y] & -> & Hq). cbn in *.
    pose proof (StronglySorted_drop _ n _ _ (sort_ents_sorted r) Hp Hq) as Hle. unfold dev_le in Hle. cbn in Hle.
    apply elem_of_take_z in Hp. apply elem_of_drop_z in Hq. rewrite sort_ents_perm in Hp, Hq.
    apply Hr in Hp, Hq. congruence.
Qed.

(** ** Claiming *)

(** What claiming leaves of an entry. *)
Definition same_block (e e' : cache_ent) : Prop :=
  ce_dev e' = ce_dev e /\ ce_block_num e' = ce_block_num e /\ ce_bsize e' = ce_bsize e /\
  ce_data e' = ce_data e /\ ce_clone e' = ce_clone e /\ ce_lock e' = ce_lock e /\ is_dirty e' = is_dirty e.

Lemma same_block_trans e1 e2 e3 : same_block e1 e2 -> same_block e2 e3 -> same_block e1 e3.
Proof. unfold same_block. intuition congruence. Qed.
Lemma same_block_strip e e' : strip e' = strip e -> same_block e e'.
Proof. intros H%strip_fields. unfold same_block, is_dirty. intuition congruence. Qed.
Lemma same_block_busy e : same_block e (or_flags CE_BUSY e).
Proof. unfold same_block. by rewrite dirty_or_busy. Qed.

Definition sim (s s' : cst) : Prop :=
  bufs s' = bufs s /\ forall p e', ces s' !! p = Some e' -> exists e, ces s !! p = Some e /\ same_block e e'.

Lemma sim_refl s : sim s s.
Proof. split; [done|]. intros p e He. by exists e. Qed.
Lemma sim_trans s1 s2 s3 : sim s1 s2 -> sim s2 s3 -> sim s1 s3.
Proof.
  intros [E1 H1] [E2 H2]. split; [congruence|]. intros p e3 H3. destruct (H2 p e3 H3) as (e2 & He2 & S2).
  destruct (H1 p e2 He2) as (e1 & He1 & S1). exists e1. split; [done|]. by eapply same_block_trans.
Qed.
Lemma sim_strip s s' : bufs s' = bufs s -> strip <$> ces s' = strip <$> ces s -> sim s s'.
Proof.
  intros E H. split; [done|]. intros p e' He'. destruct (strip_lookup (ces s) (ces s') p e' H He') as (e & He & Hs).
  exists e. split; [done|]. by apply same_block_strip.
Qed.
Lemma sim_same s s' : bufs s' = bufs s -> ces s' = ces s -> sim s s'.
Proof. intros E H. apply sim_strip; [done|by rewrite H]. Qed.
Lemma sim_insert s p e e' : ces s !! p = Some e -> same_block e e' -> sim s (set_ces (<[p := e']> (ces s)) s).
Proof.
  intros He Hs. split; [done|]. cbn. intros q x [(<- & <-)|[? ?]]%lookup_insert_Some; [by exists e|].
  exists x. split; [done|]. unfold same_block. done.
Qed.

(** The keys of the new blocks. *)
Fixpoint claim_keys (b : Z) (l : list Z) (x : gmap (Z * Z) Z) : gmap (Z * Z) Z :=
  match l with
  | [] => x
  | p :: l => claim_keys (b + 1) l (<[(dev, b) := p]> x)
  end.

Lemma claim_keys_lookup b l x k :
  claim_keys b l x !! k =
    match (if decide (k.1 = dev /\ b <= k.2) then l !! Z.to_nat (k.2 - b) else None) with
    | Some p => Some p
    | None => x !! k
    end.
Proof.
  revert b x. induction l as [|p l IH]; intros b x; cbn [claim_keys].
  - destruct (decide _); [|done]. by rewrite lookup_nil.
  - rewrite IH. destruct k as [d n]. cbn. destruct (decide (d = dev /\ b + 1 <= n)) as [[-> H]|H].
    + rewrite decide_True by lia. replace (Z.to_nat (n - b)) with (S (Z.to_nat (n - (b + 1)))) by lia. cbn.
      destruct (l !! Z.to_nat (n - (b + 1))); [done|]. rewrite lookup_insert_ne; [done|]. intros [=]. lia.
    + destruct (decide (d = dev /\ b <= n)) as [[-> H']|H'].
      * assert (n = b) as -> by lia. by rewrite Z.sub_diag, lookup_insert_eq.
      * rewrite lookup_insert_ne; [done|]. intros [= <- <-]. lia.
Qed.

(** There is always room in the hash table: a device of less than 4 GB has few
    blocks. *)
Lemma table_roomy h m : table_ok dev N h m -> roomy h m.
Proof.
  intros [_ Hmax Hkeys]. split; [done|]. pose proof CG as [_ Hbs HN].
  assert (size m <= Z.to_nat N)%nat as Hsize; [|unfold MAX_NODES; nia].
  rewrite <- size_dom. etransitivity; [apply (subseteq_size _ (list_to_set (pair dev <$> seqZ 0 N) : gset (Z * Z)))|].
  - intros [d b] [p Hp]%elem_of_dom. destruct (Hkeys d b p Hp) as [-> Hb]. apply elem_of_list_to_set, list_elem_of_fmap.
    exists b. split; [done|]. by apply elem_of_seqZ.
  - rewrite size_list_to_set by (apply NoDup_fmap_2; [intros ? ? [=]; done|apply NoDup_seqZ]). by rewrite length_fmap, length_seqZ.
Qed.

(** A further binding in the hash table. *)
Lemma hash_insert_inv held g s b p (Q : Z -> cst -> Prop) :
  inv held g s -> 0 <= b < N -> hmap dev g !! (dev, b) = None ->
  (forall s', inv held (g_set_vx (g_vm g) (<[(dev, b) := p]> (g_x g)) g) s' -> ces s' = ces s ->
     bufs s' = bufs s -> Q 0 s') ->
  wp (in_ht_host (hash_insert dev b p)) Q s.
Proof.
  intros Hi HbN Hn HQ. unfold in_ht_host. wp_step.
  pose proof (eo_oom _ _ _ _ (iv_env _ _ _ _ _ _ Hi)) as Hoom. pose proof (iv_ht _ _ _ _ _ _ Hi) as Ht.
  eapply wp_mono; [by apply hash_insert_wp, (to_ok _ _ _ _ Ht)|]. intros r [h hs] (Hr & Hno & Hbrk). rewrite Hn in Hr. cbn in *.
  destruct (Hno Hoom) as [Hoom' Hroom]. destruct (Hroom (table_roomy _ _ Ht)) as [Hne Hmax]. destruct Hr as [[-> Hok]|[? _]]; [|done].
  assert (g_vm g !! b = None) as Hv.
  { rewrite hmap_lookup in Hn. by destruct (g_vm g !! b). }
  apply HQ; [|done|done]. inv_keep Hi; cbn.
  - destruct iv_env. by split.
  - destruct iv_mem as [M1 M2 M3 M4 M5]. split; try done.
    + intros q Hq. specialize (M1 q Hq). lia.
    + intros a Ha. specialize (M2 a Ha). lia.
  - unfold hmap in *. cbn. rewrite <- insert_union_r by (by rewrite (lookup_kmap (pair dev))). split; [done|done|].
    intros d c q [[[= <- <-] _]|[_ Hq]]%lookup_insert_Some; [done|]. by eapply Ht.
  - intros b' q Hq. rewrite lookup_insert_ne; [by eapply iv_x|]. intros [= ->]. congruence.
Qed.
Lemma inv_set_busy held g s busy' :
  inv held g s -> (forall q, q ∈ g_nl g ++ g_ll g -> q ∈ busy' <-> q ∈ g_busy g) ->
  inv held (g_set_busy busy' g) s.
Proof.
  intros Hi Hb. inv_keep Hi. intros p e He Hp. cbn in *. rewrite (iv_busy p e He Hp).
  apply bool_decide_ext. symmetry. by apply Hb.
Qed.

(** What [claim_ents] can be given: entries off the lists that are new, and
    entries of the normal list. *)
Definition claimable (h : ghost) (s : cst) (p : Z) : Prop :=
  p ∈ g_fl h /\ (exists e, ces s !! p = Some e /\ ce_dev e = -1 /\ is_dirty e = false) \/ p ∈ g_nl h.

Lemma sim_claimable h h' s s' p :
  sim s s' -> is_Some (ces s' !! p) -> (p ∈ g_nl h -> p ∈ g_nl h') -> (forall q, q ∈ g_fl h -> q ∈ g_fl h') ->
  claimable h s p -> claimable h' s' p.
Proof.
  intros [_ Hs] [e' He'] Hn Hf [[Hp (e & He & H1 & H2)]|Hp]; [left|right; auto].
  split; [auto|]. exists e'. split; [done|]. destruct (Hs p e' He') as (e0 & He0 & Hsb). simplify_eq.
  destruct Hsb as (-> & _ & _ & _ & _ & _ & ->). done.
Qed.

Lemma inv_some held g s p : inv held g s -> p ∈ g_nl g ++ g_ll g ++ g_fl g -> is_Some (ces s !! p).
Proof. intros Hi Hp. by apply (lo_dom _ _ _ _ _ _ (iv_lists _ _ _ _ _ _ Hi)). Qed.

(** Marking an entry busy, whatever list it is on. *)
Lemma set_busy_wp held g s p (Q : unit -> cst -> Prop) :
  inv held g s -> is_Some (ces s !! p) ->
  (forall s', inv held (g_set_busy (p :: g_busy g) g) s' -> sim s s' -> Q tt s') ->
  wp (upd_ent p (or_flags CE_BUSY)) Q s.
Proof.
  intros Hi [e He] HQ. eapply upd_ent_wp; [done|]. apply HQ; [|eapply sim_insert; [done|apply same_block_busy]].
  apply inv_flags; try done.
  - left. apply dirty_or_busy.
  - intros _. transitivity true; [apply busy_or_busy|]. symmetry. apply bool_decide_true, elem_of_cons. by left.
  - intros q _ Hq. rewrite elem_of_cons. tauto.
Qed.

Lemma claim_key_wp held g s num b p (Q : unit -> cst -> Prop) :
  inv held g s -> (0 < num -> 0 <= b < N /\ hmap dev g !! (dev, b) = None) ->
  (forall s', inv held (g_set_vx (g_vm g) (if 0 <? num then <[(dev, b) := p]> (g_x g) else g_x g) g) s' ->
     sim s s' -> Q tt s') ->
  wp (if 0 <? num then r ← in_ht_host (hash_insert dev b p); if negb (r =? 0) then hang else mret tt else mret tt) Q s.
Proof.
  intros Hi Hn HQ. destruct (0 <? num) eqn:E; zcases.
  - wp_step. destruct (Hn E) as [HbN Hnone]. eapply hash_insert_inv; [exact Hi|exact HbN|exact Hnone|]. intros s' Hs' Ec Eb. cbn [negb Z.eqb]. wp_step.
    apply HQ; [done|by apply sim_same].
  - wp_step. apply HQ; [|apply sim_refl]. by destruct g.
Qed.

Lemma claim_wp l h s num b nd (Q : Z -> cst -> Prop) :
  inv true h s -> NoDup l -> (forall p, p ∈ l -> claimable h s p) ->
  (forall i, 0 <= i < num -> i < len l -> hmap dev h !! (dev, b + i) = None) -> (0 < num -> 0 <= b /\ b + num <= N) -> 0 <= nd ->
  (forall s' nl fl nd',
     inv true (g_set_vx (g_vm h) (claim_keys b (take (Z.to_nat num) l) (g_x h)) (g_set_nf nl fl h)) s' ->
     (forall p, p ∈ nl <-> p ∈ g_nl h /\ p ∉ l) -> (forall p, p ∈ fl <-> p ∈ g_fl h \/ p ∈ l) -> sim s s' ->
     nd <= nd' -> (nd' = nd -> forall p e, p ∈ l -> ces s' !! p = Some e -> is_dirty e = false) -> Q nd' s') ->
  wp (claim_ents l num dev b nd) Q s.
Proof.
  revert h s num b nd Q. induction l as [|p l IH]; intros h s num b nd Q Hi Hnd Hcl Hkeys HbN Hnd0 HQ; cbn [claim_ents].
  { wp_step. apply (HQ s (g_nl h) (g_fl h)); [by rewrite take_nil; destruct h| | |apply sim_refl|done|by intros _ ? ? ?%elem_of_nil].
    - intros q. rewrite elem_of_nil. tauto.
    - intros q. rewrite elem_of_nil. tauto. }
  apply NoDup_cons in Hnd as [Hpl Hnd].
  assert (claimable h s p) as Hp by (apply Hcl, elem_of_cons; by left).
  assert (is_Some (ces s !! p)) as Hsome.
  { eapply inv_some; [exact Hi|]. rewrite !elem_of_app. destruct Hp as [[? _]|?]; auto. }
  wp_step. apply (set_busy_wp true h s p _ Hi Hsome). intros s1 Hs1 Sim1.
  wp_step. apply (claim_key_wp true _ s1 num b p _ Hs1).
  { intros Hn. split; [lia|]. rewrite <- (Z.add_0_r b). apply (Hkeys 0); [lia|rewrite len_cons; pose proof (len_nonneg l); lia]. }
  set (x' := if 0 <? num then <[(dev, b) := p]> (g_x h) else g_x h). intros s2 Hs2 Sim2. cbn in Hs2.
  pose proof (sim_trans _ _ _ Sim1 Sim2) as Sim.
  assert (claim_keys b (take (Z.to_nat num) (p :: l)) (g_x h) = claim_keys (b + 1) (take (Z.to_nat (num - 1)) l) x') as Ekeys.
  { unfold x'. destruct (0 <? num) eqn:E; zcases.
    - by replace (Z.to_nat num) with (S (Z.to_nat (num - 1))) by lia.
    - by replace (Z.to_nat num) with 0%nat by lia; replace (Z.to_nat (num - 1)) with 0%nat by lia. }
  destruct (inv_some true _ s2 p Hs2) as [e He].
  { cbn. rewrite !elem_of_app. destruct Hp as [[? _]|?]; auto. }
  destruct (proj2 Sim p e He) as (e0 & He0 & Hsb).
  assert (forall s3 nl fl nd1,
    inv true (g_set_vx (g_vm h) x' (g_set_nf nl fl h)) s3 ->
    (forall q, q ∈ nl <-> q ∈ g_nl h /\ q <> p) -> (forall q, q ∈ fl <-> q ∈ g_fl h \/ q = p) -> sim s s3 ->
    nd <= nd1 -> (nd1 = nd -> is_dirty e0 = false) ->
    wp (claim_ents l (num - 1) dev (b + 1) nd1) Q s3) as Hrec.
  { intros s3 nl fl nd1 Hs3 Hnl Hfl Sim3 Hnd1 Hclean. eapply IH; [exact Hs3|done| | |lia|lia|].
    - intros q Hq. eapply (sim_claimable h); [done| | |cbn; intros y Hy; apply Hfl; by left|by apply Hcl, elem_of_cons; right].
      + eapply inv_some; [exact Hs3|]. cbn. rewrite !elem_of_app, Hnl, Hfl.
        assert (q <> p) by congruence. destruct (Hcl q) as [[? _]|?]; [apply elem_of_cons; by right|tauto|tauto].
      + cbn. intros Hq'. apply Hnl. split; [done|congruence].
    - intros i Hin Hil. rewrite hmap_lookup. cbn. specialize (Hkeys (i + 1) ltac:(lia) ltac:(rewrite len_cons; lia)).
      replace (b + (i + 1)) with (b + 1 + i) in Hkeys by lia. rewrite hmap_lookup in Hkeys.
      destruct (g_vm h !! (b + 1 + i)); [done|]. unfold x'. destruct (0 <? num); [|done].
      rewrite lookup_insert_ne; [done|]. intros [=]. lia.
    - intros s' nl' fl' nd' Hs' Hnl' Hfl' Sim' Hle Hd. cbn in Hs', Hnl', Hfl'. apply (HQ s' nl' fl' nd').
      + by rewrite Ekeys.
      + intros q. rewrite Hnl', Hnl, not_elem_of_cons. tauto.
      + intros q. rewrite Hfl', Hfl, elem_of_cons. tauto.
      + by eapply sim_trans.
      + lia.
      + intros Heq q y [->|Hq]%elem_of_cons Hy; [|apply (Hd ltac:(lia) q y Hq Hy)].
        destruct (proj2 (sim_trans _ _ _ Sim3 Sim') p y Hy) as (y0 & Hy0 & Hsby). simplify_eq.
        destruct Hsby as (_ & _ & _ & _ & _ & _ & ->). apply Hclean. lia. }
  assert (forall q, q ∈ g_nl h -> q ∉ g_fl h) as Hdis by (intros q Hq Hq'; by eapply (float_disjoint true h s)).
  wp_step. eapply ent_wp; [done|]. destruct Hp as [[Hpf (e1 & He1 & Hdev1 & Hd1)]|Hpn].
  - simplify_eq. rewrite (proj1 Hsb), Hdev1. cbn [Z.eqb]. eapply (Hrec s2 (g_nl h) (g_fl h) nd); [|..|done|lia|done].
    + eapply (inv_set_busy true _ _ (g_busy h)) in Hs2; [exact Hs2|]. cbn. intros q Hq. rewrite elem_of_cons.
      split; [auto|]. intros [->|?]; [|done]. exfalso. by apply (float_not_listed true h s p Hi).
    + intros q. split; [|tauto]. intros Hq. split; [done|]. intros ->. by apply (Hdis p).
    + intros q. split; [auto|]. by intros [?| ->].
  - destruct (iv_res _ _ _ _ _ _ Hi p) as [b0 Hv]; [apply elem_of_app; by left|].
    destruct (co_valid _ _ _ _ _ _ _ _ _ _ (iv_content _ _ _ _ _ _ Hi) b0 p Hv) as (_ & e2 & He2 & (Hde & _) & _). simplify_eq.
    pose proof CG as [Hdev _ _].
    rewrite (proj1 Hsb), (proj2 (Z.eqb_neq _ (-1))) by lia.
    destruct (nl_ent true h s p Hi Hpn) as (e3 & He3 & Hl3 & _). simplify_eq.
    destruct (mo_clone _ _ _ (iv_mem _ _ _ _ _ _ Hs2) p e He) as [Hcln _].
    unfold ready_to_flush. rewrite Hcln, (bool_decide_false (is_Some None)) by (by intros [? ?]). rewrite orb_false_r.
    destruct Hsb as (_ & _ & _ & _ & _ & -> & Hdd). rewrite Hl3. cbn [negb Z.eqb]. wp_step.
    apply list_elem_of_split in Hpn as (l1 & l2 & Hsplit).
    eapply (float_wp true _ s2 l1 p l2); [exact Hs2|exact Hsplit|]. intros s3 Hs3 Hst Hbf. cbn in Hs3.
    pose proof (lo_nodup _ _ _ _ _ _ (iv_lists _ _ _ _ _ _ Hi)) as Hnd'. apply NoDup_app in Hnd' as [Hnd' Hdd2].
    rewrite Hsplit in Hnd'. destruct (NoDup_mid l1 l2 p Hnd') as (Hp1 & Hp2 & _).
    eapply (Hrec s3 (l1 ++ l2) (p :: g_fl h)); [| | | | |].
    + eapply (inv_set_busy true _ _ (g_busy h)) in Hs3; [exact Hs3|]. cbn. intros q Hq. rewrite elem_of_cons.
      split; [auto|]. intros [->|?]; [|done]. exfalso. rewrite !elem_of_app in Hq. destruct Hq as [[?|?]|Hq]; [done|done|].
      destruct Hdd2 as [Hdd2 _]. apply (Hdd2 p); [rewrite Hsplit, elem_of_app, elem_of_cons; auto|apply elem_of_app; by left].
    + intros q. rewrite Hsplit, !elem_of_app, elem_of_cons. split; [|tauto].
      intros [Hq|Hq]; (split; [tauto|]); intros ->; done.
    + intros q. rewrite elem_of_cons. tauto.
    + eapply sim_trans; [exact Sim|]. by apply sim_strip.
    + destruct (is_dirty e); lia.
    + rewrite <- Hdd. destruct (is_dirty e); [lia|done].
Qed.
(** ** Letting go of the old blocks *)

(** A clean entry that floats need not be a copy any more: its block is on the
    device.  The hash table keeps the old binding for now. *)
Lemma inv_forget held g s p b e :
  inv held g s -> p ∈ g_fl g -> g_vm g !! b = Some p -> ces s !! p = Some e -> is_dirty e = false ->
  inv held (g_set_vx (delete b (g_vm g)) (<[(dev, b) := p]> (g_x g)) g) s.
Proof.
  intros Hi Hf Hv He Hd. pose proof (float_not_listed held g s p Hi Hf) as Hnl.
  assert (b ∉ g_un g) as Hun.
  { intros Hb. destruct (co_un _ _ _ _ _ _ _ _ _ _ (iv_content _ _ _ _ _ _ Hi) b Hb) as (q & _ & Hq & Hl & _).
    apply Hnl, elem_of_app. right. congruence. }
  destruct (copy_len _ _ _ held g s p b e Hi Hv He) as (Hb & Hc & HL & Hdisk).
  assert (hmap dev (g_set_vx (delete b (g_vm g)) (<[(dev, b) := p]> (g_x g)) g) = hmap dev g) as Eh.
  { unfold hmap. cbn. rewrite <- (insert_delete_id (g_vm g) b p) at 2 by done.
    rewrite (kmap_insert (pair dev)), <- insert_union_l. symmetry. apply insert_union_r.
    rewrite (lookup_kmap (pair dev)). apply lookup_delete_eq. }
  assert (g_pin g b = 0) as Hpin.
  { pose proof (iv_pin _ _ _ _ _ _ Hi b) as H. rewrite Hv in H. rewrite <- (H e He).
    apply (iv_locks _ _ _ _ _ _ Hi p e He). intros Hl. apply Hnl, elem_of_app. by right. }
  inv_keep Hi; cbn.
  - destruct iv_content as [C1 C2 C3 C4]. split; try done.
    + intros b' q [? Hq]%lookup_delete_Some. eauto.
    + intros b' Hb' [E|E]%lookup_delete_None; [subst; auto|auto].
    + intros b' Hb'. destruct (C3 b' Hb') as (q & x & Hq & H). exists q, x. split; [|done].
      rewrite lookup_delete_ne; [done|]. by intros ->.
  - by rewrite Eh.
  - intros b' q [? Hq]%lookup_delete_Some. rewrite lookup_insert_ne by congruence. eauto.
  - intros b'. specialize (iv_pin b'). destruct (decide (b = b')) as [->|Hne].
    + by rewrite lookup_delete_eq.
    + by rewrite lookup_delete_ne.
  - intros q Hq. destruct (iv_res q Hq) as [b' Hb']. exists b'. rewrite lookup_delete_ne; [done|].
    intros ->. simplify_eq. done.
Qed.

(** Where an old binding of the entry is. *)
Definition old_key (s : cst) (x : gmap (Z * Z) Z) (p : Z) : Prop :=
  forall e, ces s !! p = Some e -> ce_dev e <> -1 -> x !! (ce_dev e, ce_block_num e) = Some p.

Lemma forget_all l held g s :
  inv held g s -> (forall p, p ∈ l -> p ∈ g_fl g) ->
  (forall p, p ∈ l -> exists e, ces s !! p = Some e /\ is_dirty e = false /\
     (ce_dev e = -1 /\ (forall b, g_vm g !! b <> Some p) \/ ce_dev e = dev /\ g_vm g !! ce_block_num e = Some p)) ->
  NoDup l ->
  exists vm x, inv held (g_set_vx vm x g) s /\
    (forall b q, vm !! b = Some q <-> g_vm g !! b = Some q /\ q ∉ l) /\
    (forall k q, g_x g !! k = Some q -> x !! k = Some q) /\
    (forall k q, x !! k = Some q -> g_x g !! k = Some q \/
       q ∈ l /\ exists e, ces s !! q = Some e /\ ce_dev e = dev /\ k = (dev, ce_block_num e)) /\
    (forall p, p ∈ l -> old_key s x p).
Proof.
  revert g. induction l as [|p l IH]; intros g Hi Hf Hl Hnd.
  { exists (g_vm g), (g_x g). split; [by destruct g|]. split_and!; try done.
    - intros b q. rewrite elem_of_nil. tauto.
    - auto.
    - by intros ? ?%elem_of_nil. }
  apply NoDup_cons in Hnd as [Hpl Hnd].
  destruct (Hl p) as (e & He & Hd & Hc); [apply elem_of_cons; by left|].
  assert (p ∈ g_fl g) as Hpf by (apply Hf, elem_of_cons; by left).
  destruct Hc as [[Hde Hv]|[Hde Hv]].
  - destruct (IH g Hi) as (vm & x & Hi' & H1 & H2 & H3 & H4); [intros q Hq; apply Hf, elem_of_cons; by right
      |intros q Hq; apply Hl, elem_of_cons; by right|done|].
    exists vm, x. split_and!; try done.
    + intros b q. rewrite H1, not_elem_of_cons. split; [|tauto]. intros [Hb Hq]. split_and!; try done.
      intros ->. by apply (Hv b).
    + intros k q Hk. destruct (H3 k q Hk) as [?|[? ?]]; [by left|right]. split; [apply elem_of_cons; by right|done].
    + intros q [->|Hq]%elem_of_cons; [|auto]. intros e' He' Hne. simplify_eq.
  - pose proof (inv_forget held g s p _ e Hi Hpf Hv He Hd) as Hi1.
    set (g1 := g_set_vx (delete (ce_block_num e) (g_vm g)) (<[(dev, ce_block_num e) := p]> (g_x g)) g) in *.
    destruct (IH g1 Hi1) as (vm & x & Hi' & H1 & H2 & H3 & H4); [intros q Hq; apply Hf, elem_of_cons; by right| |done|].
    { intros q Hq. destruct (Hl q) as (y & Hy & Hdy & Hcy); [apply elem_of_cons; by right|]. exists y. split_and!; try done.
      assert (q <> p) by congruence. cbn. destruct Hcy as [[? Hcy]|[? Hcy]]; [left|right]; (split; [done|]).
      - intros b [? Hb]%lookup_delete_Some. by apply (Hcy b).
      - rewrite lookup_delete_ne; [done|]. intros E. rewrite <- E in Hcy. congruence. }
    cbn in H1, H2, H3, H4, Hi'.
    assert (g_x g !! (dev, ce_block_num e) = None) as Hx by (by eapply (iv_x _ _ _ _ _ _ Hi)).
    exists vm, x. split_and!.
    + exact Hi'.
    + intros b q. rewrite H1, lookup_delete_Some, not_elem_of_cons. split.
      * intros [[Hne Hb] Hq]. split_and!; try done. intros ->.
        destruct (copy_len _ _ _ held g s p b e Hi Hb He) as (_ & (_ & ? & _) & _). done.
      * intros (Hb & Hne & Hq). split_and!; try done. intros <-. congruence.
    + intros k q Hk. apply H2. rewrite lookup_insert_ne; [done|]. intros <-. congruence.
    + intros k q Hk. destruct (H3 k q Hk) as [Hk'|[? ?]].
      * apply lookup_insert_Some in Hk' as [[<- <-]|[_ Hk']]; [right|by left].
        split; [apply elem_of_cons; by left|eauto].
      * right. split; [apply elem_of_cons; by right|done].
    + intros q [->|Hq]%elem_of_cons; [|by apply H4]. intros e' He' Hne. assert (e' = e) as -> by congruence.
      rewrite Hde. apply H2. by rewrite lookup_insert_eq.
Qed.
(** ** Refilling buffers *)

(** A property of an entry and of the contents of its buffer. *)
Definition has (s : cst) (p : Z) (P : cache_ent -> option (list byte) -> Prop) : Prop :=
  exists e, ces s !! p = Some e /\ P e (a ← ce_data e; bufs s !! a).

(** Only the entry [p] and its buffer changed. *)
Definition others (p : Z) (s s' : cst) : Prop :=
  forall q, q <> p -> ces s' !! q = ces s !! q /\
    forall e a, ces s !! q = Some e -> ce_data e = Some a -> bufs s' !! a = bufs s !! a.

Lemma has_others p q s s' P : others p s s' -> q <> p -> has s q P -> has s' q P.
Proof.
  intros Ho Hne (e & He & HP). destruct (Ho q Hne) as [E Hb]. exists e. rewrite E. split; [done|].
  destruct (ce_data e) as [a|] eqn:Ea; [|done]. cbn in *. by rewrite (Hb e a).
Qed.

(** Names, flags and locks of entries are kept. *)
Definition kept (s s' : cst) : Prop :=
  forall p e', ces s' !! p = Some e' -> exists e, ces s !! p = Some e /\
    ce_dev e' = ce_dev e /\ ce_block_num e' = ce_block_num e /\ ce_flags e' = ce_flags e /\ ce_lock e' = ce_lock e.

Lemma kept_refl s : kept s s.
Proof. intros p e He. by exists e. Qed.
Lemma kept_trans s1 s2 s3 : kept s1 s2 -> kept s2 s3 -> kept s1 s3.
Proof.
  intros H1 H2 p e3 H3. destruct (H2 p e3 H3) as (e2 & He2 & S2). destruct (H1 p e2 He2) as (e1 & He1 & S1).
  exists e1. split; [done|]. intuition congruence.
Qed.
Lemma kept_insert s s' p e e' :
  ces s' = <[p := e']> (ces s) -> ces s !! p = Some e ->
  ce_dev e' = ce_dev e -> ce_block_num e' = ce_block_num e -> ce_flags e' = ce_flags e -> ce_lock e' = ce_lock e ->
  kept s s'.
Proof.
  intros E He E1 E2 E3 E4 q x. rewrite E. intros [(<- & <-)|[? ?]]%lookup_insert_Some; [by exists e|by exists x].
Qed.
Lemma kept_same s s' : ces s' = ces s -> kept s s'.
Proof. intros E p e He. exists e. by rewrite <- E. Qed.
Lemma kept_old_key s s' x p : kept s s' -> old_key s x p -> old_key s' x p.
Proof.
  intros Hk Ho e' He' Hne. destruct (Hk p e' He') as (e & He & E1 & E2 & _). rewrite E1, E2. apply Ho; [done|congruence].
Qed.
Lemma sim_old_key s s' x p : sim s s' -> old_key s x p -> old_key s' x p.
Proof. intros [_ Hk] Ho e' He' Hne. destruct (Hk p e' He') as (e & He & E1 & E2 & _). rewrite E1, E2. apply Ho; [done|congruence]. Qed.

Definition sized (e : cache_ent) (d : option (list byte)) : Prop :=
  ce_bsize e = bs /\ exists x, d = Some x /\ len x = bs.
Definition refillable (e : cache_ent) (d : option (list byte)) : Prop :=
  ce_bsize e = bs -> exists x, d = Some x /\ len x = bs.
Definition emptied (e : cache_ent) (d : option (list byte)) : Prop := ce_data e = None \/ sized e d.

Lemma bufs_delete_others held g s p e a :
  inv held g s -> ces s !! p = Some e -> ce_data e = Some a ->
  forall q e' a', q <> p -> ces s !! q = Some e' -> ce_data e' = Some a' -> a' <> a.
Proof.
  intros Hi He Ha q e' a' Hne He' Ha' ->. apply Hne. by eapply (mo_inj _ _ _ (iv_mem _ _ _ _ _ _ Hi)).
Qed.

(** The buffers change, but not those of copies. *)
Lemma inv_bufs held g s bf :
  inv held g s -> mem_ok (ces s) bf (h_brk (cs_host s)) ->
  (forall b p e a, g_vm g !! b = Some p -> ces s !! p = Some e -> ce_data e = Some a -> bf !! a = bufs s !! a) ->
  inv held g (set_bufs bf s).
Proof. intros Hi Hm Hb. inv_keep Hi. cbn. by eapply content_bufs. Qed.

Lemma mem_drop m bf brk p e : mem_ok m bf brk -> m !! p = Some e -> mem_ok (<[p := ce_set_data None e]> m) bf brk.
Proof.
  intros [M1 M2 M3 M4 M5] He. split; try done.
  - intros q. rewrite lookup_insert_is_Some'. intros [<-|Hq]; apply M1; [by eexists|done].
  - intros q x a [(<- & <-)|[? ?]]%lookup_insert_Some; [done|eauto].
  - intros q q' x x' a [(<- & <-)|[? ?]]%lookup_insert_Some [(<- & <-)|[? ?]]%lookup_insert_Some; [done|done|done|eauto].
  - intros q x [(<- & <-)|[? ?]]%lookup_insert_Some; [by apply (M5 p e)|eauto].
Qed.

Lemma inv_free_data held g s p e a :
  inv held g s -> holds_none g p -> ces s !! p = Some e -> ce_data e = Some a ->
  inv held g (set_ces (<[p := ce_set_data None e]> (ces s)) (set_bufs (delete a (bufs s)) s)).
Proof.
  intros Hi Hp He Ha. pose proof (bufs_delete_others held g s p e a Hi He Ha) as Hne.
  pose proof (mem_drop _ _ _ p e (iv_mem _ _ _ _ _ _ Hi) He) as Hm.
  assert (inv held g (set_ces (<[p := ce_set_data None e]> (ces s)) s)) as Hi1 by (by apply (inv_float_ent held g s p e)).
  apply (inv_bufs held g _ (delete a (bufs s))) in Hi1; [exact Hi1| |].
  - destruct Hm as [M1 M2 M3 M4 M5]. split; try done.
    + intros a' [x [? Hx]%lookup_delete_Some]. apply M2. by exists x.
    + intros q x a' Hq Hx. cbn in Hq. rewrite lookup_delete_ne; [by eapply M3|]. intros <-.
      apply lookup_insert_Some in Hq as [(<- & <-)|[Hqp Hq]]; [done|]. by apply (Hne q x a).
  - cbn. intros b q x a' Hv [(<- & <-)|[Hqp Hq]]%lookup_insert_Some Hx; [done|].
    apply lookup_delete_ne. intros <-. by apply (Hne q x a).
Qed.

Lemma set_bufs_id s : set_bufs (bufs s) s = s.
Proof. by destruct s. Qed.

Lemma free_wrong_size_wp held g s p (Q : unit -> cst -> Prop) :
  inv held g s -> holds_none g p -> has s p refillable ->
  (forall s', inv held g s' -> others p s s' -> kept s s' -> has s' p emptied -> Q tt s') ->
  wp (free_wrong_size bs p) Q s.
Proof.
  intros Hi Hp (e & He & Hr) HQ. destruct (mo_clone _ _ _ (iv_mem _ _ _ _ _ _ Hi) p e He) as [Hcl _].
  unfold free_wrong_size. wp_step. eapply ent_wp; [done|]. apply wp_if; intros Hc; zcases.
  2: { wp_step. apply HQ; [done|done|apply kept_refl|]. exists e. split; [done|]. right. split; [done|auto]. }
  assert (forall s1, inv held g (set_ces (<[p := ce_set_data None e]> (ces s1)) s1) -> ces s1 = ces s ->
    (forall q e' a', q <> p -> ces s !! q = Some e' -> ce_data e' = Some a' -> bufs s1 !! a' = bufs s !! a') ->
    wp (_ ← upd_ent p (ce_set_data None);
        match ce_clone e with Some c => _ ← free_buf (Some c); upd_ent p (ce_set_clone None) | None => mret tt end) Q s1) as Hrest.
  { intros s1 Hs1 Ec Hb. wp_step. eapply upd_ent_wp; [by rewrite Ec|]. rewrite Hcl. wp_step. apply HQ.
    - done.
    - intros q Hq. cbn. rewrite lookup_insert_ne, Ec by done. split; [done|]. eauto.
    - by eapply (kept_insert _ _ p e (ce_set_data None e)); [cbn; rewrite Ec|..].
    - exists (ce_set_data None e). cbn. rewrite lookup_insert_eq. split; [done|by left]. }
  wp_step. destruct (ce_data e) as [a|] eqn:Ea; cbv iota.
  - destruct (mo_data _ _ _ (iv_mem _ _ _ _ _ _ Hi) p e a He Ea) as [d Hd].
    unfold free_buf at 1. wp_step. wp_step. wp_step. rewrite Hd. wp_step. wp_step. apply Hrest; [by apply (inv_free_data held g s p e a)|done|].
    intros q e' a' Hq He' Ha'. cbn. apply lookup_delete_ne. intros <-.
    by apply (bufs_delete_others held g s p e a Hi He Ea q e' a).
  - unfold free_buf at 1. wp_step. apply Hrest; [|done|done]. apply (inv_float_ent held g s p e); try done.
    apply mem_drop; [apply Hi|done].
Qed.

(** A step done on each entry of a list. *)
Lemma each_has f P P' held g l s (Q : unit -> cst -> Prop) :
  (forall p s Q', p ∈ l -> inv held g s -> has s p P ->
     (forall s', inv held g s' -> others p s s' -> kept s s' -> has s' p P' -> Q' tt s') -> wp (f p) Q' s) ->
  NoDup l -> inv held g s -> (forall p, p ∈ l -> has s p P) ->
  (forall s', inv held g s' -> kept s s' -> (forall p, p ∈ l -> has s' p P') -> Q tt s') ->
  wp (each f l) Q s.
Proof.
  assert (forall done s,
    (forall p s Q', p ∈ l -> inv held g s -> has s p P ->
       (forall s', inv held g s' -> others p s s' -> kept s s' -> has s' p P' -> Q' tt s') -> wp (f p) Q' s) ->
    NoDup (done ++ l) -> inv held g s -> (forall p, p ∈ l -> has s p P) -> (forall p, p ∈ done -> has s p P') ->
    (forall s', inv held g s' -> kept s s' -> (forall p, p ∈ done ++ l -> has s' p P') -> Q tt s') ->
    wp (each f l) Q s) as H.
  2: { intros Hf Hnd Hi Hl HQ. by apply (H [] s Hf); [..|intros ? ?%elem_of_nil|]. }
  clear s. induction l as [|p l IH]; intros done s Hf Hnd Hi Hl Hdone HQ; cbn [each].
  - wp_step. apply HQ; [done|apply kept_refl|]. rewrite app_nil_r. done.
  - wp_step. apply Hf; [apply elem_of_cons; by left|done|apply Hl, elem_of_cons; by left|].
    intros s1 Hs1 Ho Hk HP. destruct (NoDup_mid done l p Hnd) as (Hp1 & Hp2 & _).
    apply (IH (done ++ [p]) s1); [|by rewrite <- app_assoc|done| | |].
    + intros q s0 Q' Hq. apply Hf, elem_of_cons. by right.
    + intros q Hq. apply (has_others p q s); [done|by intros ->|]. apply Hl, elem_of_cons. by right.
    + intros q [Hq| ->%list_elem_of_singleton]%elem_of_app; [|done]. apply (has_others p q s); [done|by intros ->|auto].
    + intros s' Hs' Hk' Hall. apply HQ; [done|by eapply kept_trans|]. by rewrite <- app_assoc in Hall.
Qed.

Lemma alloc_one held g s p e (k : CM Z) (Q : Z -> cst -> Prop) :
  inv held g s -> holds_none g p -> ces s !! p = Some e -> ce_data e = None ->
  (forall s', inv held g s' -> others p s s' -> kept s s' -> has s' p sized -> wp k Q s') ->
  wp (d ← malloc_buf bs; _ ← upd_ent p (ce_set_data d); _ ← upd_ent p (ce_set_bsize bs);
      match d with None => mret ENOMEM | Some _ => k end) Q s.
Proof.
  intros Hi Hp He Hnone HQ. pose proof CG as [_ Hbs _]. wp_step. eapply malloc_buf_wp; [done|lia|].
  intros a d s1 Hs1 Ec Eb Hd Hfresh. wp_step. eapply upd_ent_wp; [by rewrite Ec|].
  wp_step. eapply upd_ent_wp; [apply lookup_insert_eq|]. cbn. rewrite Ec, insert_insert_eq.
  assert (forall q e' a', ces s !! q = Some e' -> ce_data e' = Some a' -> a' <> a) as Hne.
  { intros q e' a' Hq Ha' ->. destruct (mo_data _ _ _ (iv_mem _ _ _ _ _ _ Hi) q e' a Hq Ha') as [x Hx]. congruence. }
  set (e' := ce_set_bsize bs (ce_set_data (Some a) e)). apply HQ.
  - rewrite <- Ec. apply (inv_float_ent held g s1 p e); try done; [by rewrite Ec|].
    pose proof (iv_mem _ _ _ _ _ _ Hs1) as [M1 M2 M3 M4 M5]. rewrite Ec in *. split; try done.
    + intros q. rewrite lookup_insert_is_Some'. intros [<-|Hq]; apply M1; [by eexists|done].
    + intros q x a' [(<- & <-)|[? ?]]%lookup_insert_Some; [|eauto]. intros [= <-]. rewrite Eb, lookup_insert_eq. by eexists.
    + intros q q' x x' a' [(<- & <-)|[? ?]]%lookup_insert_Some [(<- & <-)|[? ?]]%lookup_insert_Some; cbn; try done; [| |eauto].
      * intros [= <-] Ha'. exfalso. by eapply (Hne q' x').
      * intros Ha' [= <-]. exfalso. by eapply (Hne q x).
    + intros q x [(<- & <-)|[? ?]]%lookup_insert_Some; [by apply (M5 p e)|eauto].
  - intros q Hq. cbn. rewrite lookup_insert_ne by done. split; [done|]. intros x a' Hx Ha'. rewrite Eb.
    apply lookup_insert_ne. intros <-. by eapply (Hne q x).
  - by eapply (kept_insert _ _ p e e').
  - exists e'. cbn. rewrite lookup_insert_eq. split; [done|]. split; [done|]. exists d.
    by rewrite Eb, lookup_insert_eq.
Qed.
End miss.
