(* ===== verification/CachePut.v ===== *)
(** * CachePut: an entry becomes, or remains, the copy of a block (cache.c)

    One lemma gives the invariant after any step that leaves an entry as the
    copy of a block on one of the lists: filling a new copy, reading, writing
    or clearing one, moving it between the lists, marking it dirty.  The
    operations on blocks that are in the cache follow. *)

From S2P Require Import Prelude Bytes Host Device HashTable CacheList Cache CacheIo CacheInv CacheMiss.
Local Open Scope Z_scope.

(** What such a step leaves alone. *)
Record same_rest (s s' : cst) : Prop := {
  sr_host : cs_host s' = cs_host s;
  sr_os : cs_os s' = cs_os s;
  sr_max : max_device_blocks s' = max_device_blocks s;
  sr_iovl : iovec_lock s' = iovec_lock s;
  sr_iovu : iovec_used s' = iovec_used s;
  sr_iovp : iovec_pool s' = iovec_pool s;
  sr_lock : bc_lock (bc s') = bc_lock (bc s);
  sr_cur : cur_blocks (bc s') = cur_blocks (bc s);
  sr_maxb : max_blocks (bc s') = max_blocks (bc s);
  sr_ht : bc_ht (bc s') = bc_ht (bc s);
}.

(** The entry [p] becomes [e'], the others change in their links at most. *)
Definition only_ent (p : Z) (e' : cache_ent) (m m' : gmap Z cache_ent) : Prop :=
  m' !! p = Some e' /\ forall q, q <> p -> strip <$> m' !! q = strip <$> m !! q.

(** ** What a request does to a block *)

Abbreviation asks := CacheIo.has.

(** The new contents of the block and the bytes it adds to the result, from
    its old contents; how often it is locked; the entry afterwards. *)
Definition op_data (op : Z) (data : option (list byte)) (bsize : Z) (old : list byte) : list byte :=
  if asks op CACHE_READ then old
  else if asks op CACHE_WRITE then take (Z.to_nat bsize) (default [] data)
  else replicate (Z.to_nat bsize) x00.
Definition op_out (op : Z) (data : option (list byte)) (bsize : Z) (old : list byte) : list byte :=
  if asks op CACHE_READ then match data with Some _ => old | None => [] end
  else if asks op CACHE_WRITE then []
  else match data with Some _ => replicate (Z.to_nat bsize) x00 | None => [] end.
Definition lock_inc (op : Z) : Z := if asks op CACHE_LOCKED then 1 else 0.
Definition op_ent (op : Z) (e : cache_ent) : cache_ent := if asks op CACHE_READ then e else or_flags CE_DIRTY e.

(** Requests that the entry points of the cache make for [num] blocks. *)
Record op_ok (op : Z) (data : option (list byte)) (num bsize : Z) (want : bool) : Prop := {
  oo_kind : asks op CACHE_READ = true \/ asks op CACHE_WRITE = true \/ asks op CACHE_NOOP = true;
  oo_write : asks op CACHE_READ = false -> asks op CACHE_WRITE = true -> exists d, data = Some d /\ len d = num * bsize;
  oo_none : data = None -> num = 1;
  oo_want : want = bool_decide (data = None);
  oo_locked : asks op CACHE_LOCKED = true -> num = 1;
}.

Lemma drop_data_0 data : drop_data 0 data = data.
Proof. by destruct data. Qed.
Lemma drop_data_drop x y data : 0 <= x -> 0 <= y -> drop_data y (drop_data x data) = drop_data (x + y) data.
Proof. intros Hx Hy. destruct data as [d|]; [|done]. cbn. by rewrite drop_drop, Z2Nat.inj_add. Qed.

Lemma op_ok_drop op data num bsize want n :
  op_ok op data num bsize want -> 0 <= bsize -> 0 < n < num -> op_ok op (drop_data (n * bsize) data) (num - n) bsize want.
Proof.
  intros [H1 H2 H3 H4 H5] Hb Hn. split; [done| | | |].
  - intros Hr Hw. destruct (H2 Hr Hw) as (d & -> & Hd). eexists. split; [done|]. unfold len in *.
    rewrite length_drop. assert (n * bsize <= num * bsize) by (apply Z.mul_le_mono_nonneg_r; lia).
    rewrite Nat2Z.inj_sub by (apply Nat2Z.inj_le; rewrite Z2Nat.id by nia; lia). rewrite Z2Nat.id by nia. lia.
  - destruct data; [done|]. intros _. specialize (H3 eq_refl). lia.
  - subst want. by destruct data.
  - intros Hl. specialize (H5 Hl). lia.
Qed.

(** The results of a request on [n] blocks from [b] on. *)
Fixpoint op_outs (op : Z) (data : option (list byte)) (bsize b : Z) (n : nat) (L : Z -> list byte) : list byte :=
  match n with
  | O => []
  | S n => op_out op data bsize (L b) ++ op_outs op (drop_data bsize data) bsize (b + 1) n L
  end.

Lemma op_outs_ext op data bsize b n L L' :
  (forall k, b <= k < b + Z.of_nat n -> L k = L' k) -> op_outs op data bsize b n L = op_outs op data bsize b n L'.
Proof.
  revert b data. induction n as [|n IH]; intros b data H; [done|]. cbn [op_outs]. rewrite H by lia. f_equal.
  apply IH. intros k Hk. apply H. lia.
Qed.
Lemma op_outs_app op data bsize b n1 n2 L :
  0 <= bsize -> op_outs op data bsize b (n1 + n2) L =
    op_outs op data bsize b n1 L ++ op_outs op (drop_data (Z.of_nat n1 * bsize) data) bsize (b + Z.of_nat n1) n2 L.
Proof.
  intros Hb. revert b data. induction n1 as [|n1 IH]; intros b data.
  - cbn [op_outs Nat.add app]. by rewrite Z.mul_0_l, drop_data_0, Z.add_0_r.
  - cbn [op_outs Nat.add]. rewrite IH, <- app_assoc. do 2 f_equal. rewrite drop_data_drop by nia. f_equal; [|lia]. f_equal. lia.
Qed.

(** An entry and its buffer are changed. *)
Definition touch (p a : Z) (e : cache_ent) (d : list byte) (s : cst) : cst :=
  set_bufs (<[a := d]> (bufs s)) (set_ces (<[p := e]> (ces s)) s).

Lemma touch_id p a e d s : ces s !! p = Some e -> bufs s !! a = Some d -> touch p a e d s = s.
Proof. intros He Ha. unfold touch. rewrite (insert_id (ces s)), insert_id by done. by destruct s. Qed.

Lemma len_op_data op data num bsize want old :
  op_ok op data num bsize want -> 0 <= bsize -> 0 < num -> len old = bsize -> len (op_data op data bsize old) = bsize.
Proof.
  intros [_ Hw _ _ _] Hb Hn Ho. unfold op_data. destruct (asks op CACHE_READ); [done|].
  destruct (asks op CACHE_WRITE); [|rewrite len_replicate; lia].
  destruct (Hw eq_refl eq_refl) as (d & -> & Hd). assert (0 <= (num - 1) * bsize) by (apply Z.mul_nonneg_nonneg; lia).
  cbn. unfold len in *. rewrite length_take. nia.
Qed.

Lemma copy_in_wp p a e x bsize d num s (Q : unit -> cst -> Prop) :
  ces s !! p = Some e -> ce_data e = Some a -> bufs s !! a = Some x -> len x = bsize -> 0 <= bsize -> 0 < num ->
  len d = num * bsize -> Q tt (set_bufs (<[a := take (Z.to_nat bsize) d]> (bufs s)) s) ->
  wp (copy_in p bsize (Some d)) Q s.
Proof.
  intros He Ha Hx Hl Hb Hn Hd HQ. assert (0 <= (num - 1) * bsize) by (apply Z.mul_nonneg_nonneg; lia).
  unfold copy_in. wp_step. wp_step. wp_step. rewrite read_at_Some by nia. wp_step.
  wp_step. eapply ent_wp; [done|]. rewrite Ha. unfold slice. change (Z.to_nat 0) with 0%nat. rewrite drop_0.
  eapply store_buf_wp; [exact Hx| |exact HQ]. unfold len in *. rewrite length_take. nia.
Qed.

Lemma hit_data_wp p a e x bsize op data num want dptr s (Q : list byte * option Z -> cst -> Prop) :
  ces s !! p = Some e -> ce_data e = Some a -> bufs s !! a = Some x -> len x = bsize -> 0 <= bsize -> 0 < num ->
  op_ok op data num bsize want ->
  Q (op_out op data bsize x, if want then Some a else dptr) (touch p a (op_ent op e) (op_data op data bsize x) s) ->
  wp (hit_data p data bsize op want dptr) Q s.
Proof.
  intros He Ha Hx Hl Hb Hn Hop HQ. pose proof Hop as [Hk Hw _ Hwant _]. unfold hit_data. wp_step. eapply ent_wp; [done|].
  unfold op_out, op_data, op_ent in *. destruct (asks op CACHE_READ) eqn:Er.
  { rewrite touch_id in HQ by done. destruct data as [d|].
    - rewrite bool_decide_eq_false_2 in Hwant by done. subst want. rewrite Ha. wp_step. eapply load_buf_wp; [exact Hx|done|].
      by wp_step.
    - rewrite bool_decide_eq_true_2 in Hwant by done. subst want. rewrite Ha. by wp_step. }
  destruct (asks op CACHE_WRITE) eqn:Ew.
  { destruct (Hw eq_refl eq_refl) as (d & -> & Hd). rewrite bool_decide_eq_false_2 in Hwant by done. subst want.
    wp_step. eapply copy_in_wp; [done..|]. wp_step. eapply upd_ent_wp; [exact He|]. wp_step. exact HQ. }
  destruct Hk as [?|[?| ->]]; [done..|]. wp_step. rewrite Ha. eapply store_buf_wp; [exact Hx|rewrite len_replicate; lia|].
  wp_step. eapply upd_ent_wp; [exact He|]. wp_step. exact HQ.
Qed.

Section put.
Context {dev bs N : Z} {CG : CacheGeom dev bs N}.
Abbreviation inv := (CacheInv.inv dev bs N).

Definition g_put (nl ll fl : list Z) (c p : Z) (d : list byte) (un : gset Z) (lck : Z) (g : ghost) : ghost :=
  Ghost nl ll fl (g_busy g) (<[c := p]> (g_vm g)) (delete (dev, c) (g_x g))
    (fun k => if decide (k = c) then d else g_L g k) un
    (fun k => if decide (k = c) then lck else g_pin g k) (g_iov g) (g_iova g).

Lemma hmap_put nl ll fl c p d un lck g :
  hmap dev g !! (dev, c) = Some p -> hmap dev (g_put nl ll fl c p d un lck g) = hmap dev g.
Proof.
  intros Hh. apply map_eq. intros [d' b]. unfold hmap in *. cbn. rewrite (kmap_insert (pair dev)).
  destruct (decide ((dev, c) = (d', b))) as [<-|Hne].
  - rewrite Hh. apply lookup_union_Some_l. apply lookup_insert_eq.
  - rewrite !lookup_union. by rewrite lookup_insert_ne, lookup_delete_ne.
Qed.

Lemma only_ent_lookup p e' (m m' : gmap Z cache_ent) q x :
  only_ent p e' m m' -> q <> p -> m' !! q = Some x -> exists x0, m !! q = Some x0 /\ strip x = strip x0.
Proof.
  intros [_ Ho] Hq Hx. specialize (Ho q Hq). rewrite Hx in Ho. destruct (m !! q) as [x0|]; [|done].
  exists x0. split; [done|]. cbn in Ho. congruence.
Qed.
Lemma only_ent_back p e' (m m' : gmap Z cache_ent) q x :
  only_ent p e' m m' -> q <> p -> m !! q = Some x -> exists x', m' !! q = Some x' /\ strip x' = strip x.
Proof.
  intros [_ Ho] Hq Hx. specialize (Ho q Hq). rewrite Hx in Ho. destruct (m' !! q) as [x0|]; [|done].
  exists x0. split; [done|]. cbn in Ho. congruence.
Qed.

Lemma mem_put m m' bf brk p e e' a x d :
  mem_ok m bf brk -> only_ent p e' m m' -> m !! p = Some e -> ce_data e = Some a -> ce_data e' = Some a ->
  ce_clone e' = None -> ce_func e' = None -> bf !! a = Some x -> mem_ok m' (<[a := d]> bf) brk.
Proof.
  intros [M1 M2 M3 M4 M5] Ho He Ha Ha' Hcl Hfu Hx.
  assert (forall q y b, m' !! q = Some y -> ce_data y = Some b -> exists y0, m !! q = Some y0 /\ ce_data y0 = Some b) as Hd.
  { intros q y b Hy Hb. destruct (decide (q = p)) as [->|Hq].
    - destruct Ho as [Ho _]. exists e. split; [done|]. congruence.
    - destruct (only_ent_lookup p e' m m' q y Ho Hq Hy) as (y0 & Hy0 & Hs%strip_fields). exists y0. split; [done|].
      destruct Hs as (_ & _ & _ & _ & <- & _). done. }
  split.
  - intros q [y Hy]. apply M1. destruct (decide (q = p)) as [->|Hq]; [by exists e|].
    destruct (only_ent_lookup p e' m m' q y Ho Hq Hy) as (y0 & Hy0 & _). by exists y0.
  - intros b. rewrite lookup_insert_is_Some'. intros [<-|Hb]; apply M2; [by exists x|done].
  - intros q y b Hy Hb. destruct (Hd q y b Hy Hb) as (y0 & Hy0 & Hb0). rewrite lookup_insert_is_Some'. right. by eapply M3.
  - intros q q' y y' b Hy Hy' Hb Hb'. destruct (Hd q y b Hy Hb) as (y0 & Hy0 & Hb0), (Hd q' y' b Hy' Hb') as (y1 & Hy1 & Hb1).
    by eapply M4.
  - intros q y Hy. destruct (decide (q = p)) as [->|Hq]; [destruct Ho as [Ho _]; simplify_eq; done|].
    destruct (only_ent_lookup p e' m m' q y Ho Hq Hy) as (y0 & Hy0 & Hs%strip_fields).
    destruct Hs as (_ & _ & _ & _ & _ & -> & _ & ->). by eapply M5.
Qed.

Lemma inv_put held g s s' p e e' c a x d nl' ll' fl' un' :
  inv held g s -> same_rest s s' -> only_ent p e' (ces s) (ces s') -> bufs s' = <[a := d]> (bufs s) ->
  0 <= c < N -> hmap dev g !! (dev, c) = Some p -> (forall b, g_vm g !! b = Some p -> b = c) ->
  ces s !! p = Some e -> ce_data e = Some a -> bufs s !! a = Some x ->
  ce_dev e' = dev -> ce_block_num e' = c -> ce_bsize e' = bs -> ce_data e' = Some a ->
  ce_clone e' = None -> ce_func e' = None -> len d = bs ->
  lists_ok (ces s') (normal (bc s')) (locked (bc s')) nl' ll' fl' ->
  nl' ++ ll' ++ fl' ≡ₚ g_nl g ++ g_ll g ++ g_fl g ->
  p ∈ nl' ++ ll' -> (forall q, q <> p -> (q ∈ nl' <-> q ∈ g_nl g) /\ (q ∈ ll' <-> q ∈ g_ll g)) ->
  is_busy e' = bool_decide (p ∈ g_busy g) ->
  (p ∈ ll' /\ 0 < ce_lock e' \/ (p ∉ ll') /\ ce_lock e' = 0) ->
  (is_dirty e' = false -> c ∉ un' -> blk bs (disk dev s) c = d) ->
  (forall b, b <> c -> (b ∈ un' <-> b ∈ g_un g)) -> (c ∈ un' -> p ∈ ll' /\ is_dirty e' = false) ->
  inv held (g_put nl' ll' fl' c p d un' (ce_lock e') g) s'.
Proof.
  intros Hi [E1 E2 E3 E4 E5 E6 E7 E8 E9 E10] Ho Hbf Hc Hh Hv He Ha Hx F1 F2 F3 F4 F5 F6 Hd Hl Hp Hin Hq Hbz Hlk Hcl Hun Hunc.
  assert (disk dev s' = disk dev s) as Edisk by (unfold disk; by rewrite E2).
  assert (forall b q, b <> c -> g_vm g !! b = Some q -> q <> p) as Hvq.
  { intros b q Hb Hq' ->. by apply Hb, Hv. }
  destruct Hi. split; cbn.
  - by eapply env_same.
  - by eapply iov_same.
  - by rewrite E7.
  - done.
  - rewrite E1, Hbf. by eapply mem_put.
  - destruct iv_content as [C1 C2 C3 C4]. rewrite Edisk. split.
    + intros b q [(<- & <-)|[Hb Hbq]]%lookup_insert_Some.
      * split; [done|]. exists e'. destruct Ho as [Ho _]. split; [done|]. rewrite decide_True by done. split; [|done].
        unfold copy_of. split_and!; try done. exists a. split; [done|]. rewrite Hbf. apply lookup_insert_eq.
      * destruct (C1 b q Hbq) as (Hbn & y & Hy & Hcp & Hdisk). split; [done|].
        destruct (only_ent_back p e' _ _ q y Ho ltac:(by eapply Hvq) Hy) as (y' & Hy' & Hs%strip_fields). exists y'. split; [done|].
        rewrite decide_False by done. destruct Hs as (S1 & S2 & S3 & S4 & S5 & _). split.
        -- destruct Hcp as (P1 & P2 & P3 & a' & P4 & P5). unfold copy_of. rewrite S1, S2, S3, S5. split_and!; try done.
           exists a'. split; [done|]. rewrite Hbf. rewrite lookup_insert_ne; [done|]. intros <-.
           apply (Hvq b q ltac:(done) Hbq). by eapply (mo_inj _ _ _ iv_mem).
        -- unfold is_dirty. rewrite S4. intros Hdi Hbu. apply Hdisk; [done|]. rewrite <- Hun by done. done.
    + intros b Hb Hn. apply lookup_insert_None in Hn as [Hn Hne]. rewrite decide_False by done. by apply C2.
    + intros b Hb. destruct (decide (b = c)) as [->|Hne].
      * destruct (Hunc Hb) as [Hpl Hdi]. exists p, e'. rewrite lookup_insert_eq. by destruct Ho.
      * destruct (C3 b) as (q & y & Hbq & Hql & Hy & Hdi); [by apply Hun|]. exists q.
        assert (q <> p) as Hqp by (by eapply Hvq).
        destruct (only_ent_back p e' _ _ q y Ho Hqp Hy) as (y' & Hy' & Hs%strip_fields). exists y'.
        rewrite lookup_insert_ne by done. split_and!; try done; [by apply Hq|].
        destruct Hs as (_ & _ & _ & S4 & _). unfold is_dirty in *. by rewrite S4.
    + intros b Hb. destruct (decide (b = c)); [done|auto].
  - rewrite E10. by rewrite hmap_put.
  - intros b q [(<- & <-)|[Hb Hbq]]%lookup_insert_Some; [apply lookup_delete_eq|].
    apply lookup_delete_None. right. by eapply iv_x.
  - rewrite E8, iv_count. unfold len. by rewrite Hp.
  - by rewrite E8, E9.
  - intros q y Hy. destruct (decide (q = p)) as [->|Hqp].
    + destruct Ho as [Ho _]. assert (y = e') as -> by congruence. destruct Hlk as [[? ?]|[? ?]]; split; done.
    + destruct (only_ent_lookup p e' _ _ q y Ho Hqp Hy) as (y0 & Hy0 & Hs%strip_fields).
      destruct Hs as (_ & _ & _ & _ & _ & _ & -> & _). destruct (Hq q Hqp) as [_ ->]. eauto.
  - intros b. destruct (decide (b = c)) as [->|Hne].
    + rewrite lookup_insert_eq. intros y Hy. destruct Ho as [Ho _]. congruence.
    + rewrite lookup_insert_ne by done. specialize (iv_pin b). destruct (g_vm g !! b) as [q|] eqn:Hbq; [|done].
      intros y Hy. destruct (only_ent_lookup p e' _ _ q y Ho ltac:(by eapply Hvq) Hy) as (y0 & Hy0 & Hs%strip_fields).
      destruct Hs as (_ & _ & _ & _ & _ & _ & -> & _). eauto.
  - intros q Hql. destruct (decide (q = p)) as [->|Hqp]; [exists c; apply lookup_insert_eq|].
    destruct (iv_res q) as [b Hb].
    { destruct (Hq q Hqp) as [H1 H2]. rewrite elem_of_app in *. tauto. }
    exists b. destruct (decide (b = c)) as [->|Hne]; [|by rewrite lookup_insert_ne].
    exfalso. apply Hqp. assert (hmap dev g !! (dev, c) = Some q) as Hh' by (by rewrite hmap_lookup, Hb). congruence.
  - intros q y Hy Hql. destruct (decide (q = p)) as [->|Hqp]; [destruct Ho as [Ho _]; congruence|].
    destruct (only_ent_lookup p e' _ _ q y Ho Hqp Hy) as (y0 & Hy0 & Hs%strip_fields).
    destruct Hs as (_ & _ & _ & S4 & _). unfold is_busy. rewrite S4. apply (iv_busy q y0 Hy0).
    destruct (Hq q Hqp) as [H1 H2]. rewrite elem_of_app in *. tauto.
Qed.
(** ** Steps of the lists, on the whole state *)

Lemma same_rest_refl s : same_rest s s.
Proof. done. Qed.
Lemma same_rest_trans s1 s2 s3 : same_rest s1 s2 -> same_rest s2 s3 -> same_rest s1 s3.
Proof. intros [] []. split; congruence. Qed.
Lemma same_rest_ces m s : same_rest s (set_ces m s).
Proof. done. Qed.
Lemma same_rest_bufs b s : same_rest s (set_bufs b s).
Proof. done. Qed.

(** The lists of a state. *)
Definition lists_of (s : cst) (nl ll fl : list Z) : Prop :=
  lists_ok (ces s) (normal (bc s)) (locked (bc s)) nl ll fl.
Definition on (w : which) (x : list Z -> list Z) (w' : which) (l : list Z) : list Z :=
  match w, w' with Normal, Normal | Locked, Locked => x l | _, _ => l end.

(** What a list operation keeps. *)
Definition relinked_st (s s' : cst) : Prop :=
  same_rest s s' /\ strip <$> ces s' = strip <$> ces s /\ bufs s' = bufs s.

Lemma land_st w s nl ll f1 p f2 (Q : unit -> cst -> Prop) :
  lists_of s nl ll (f1 ++ p :: f2) ->
  (forall s', relinked_st s s' ->
     lists_of s' (on w (fun l => l ++ [p]) Normal nl) (on w (fun l => l ++ [p]) Locked ll) (f1 ++ f2) -> Q tt s') ->
  wp (in_list w (add_to_head p)) Q s.
Proof.
  intros Hl HQ. unfold in_list. wp_step. destruct w; cbn.
  - eapply lists_add_head; [exact Hl|]. intros m' c' Hl' Hs. by apply HQ.
  - eapply lists_add_head; [apply lists_sym; exact Hl|]. intros m' c' Hl' Hs. apply HQ; [done|].
    by apply lists_sym in Hl'.
Qed.

Lemma take_off_st w s nl ll l1 p l2 fl (Q : unit -> cst -> Prop) :
  lists_of s nl ll fl -> match w with Normal => nl | Locked => ll end = l1 ++ p :: l2 ->
  (forall s', relinked_st s s' ->
     lists_of s' (on w (fun _ => l1 ++ l2) Normal nl) (on w (fun _ => l1 ++ l2) Locked ll) (p :: fl) -> Q tt s') ->
  wp (in_list w (delete_from_list p)) Q s.
Proof.
  intros Hl E HQ. unfold in_list. wp_step. unfold lists_of in Hl. destruct w; subst; cbn.
  - eapply lists_delete; [exact Hl|]. intros m' c' Hl' Hs. by apply HQ.
  - eapply lists_delete; [apply lists_sym; exact Hl|]. intros m' c' Hl' Hs. apply HQ; [done|].
    by apply lists_sym in Hl'.
Qed.

Lemma lists_of_ent s nl ll fl p e e' :
  ces s !! p = Some e -> ce_prev e' = ce_prev e -> ce_next e' = ce_next e ->
  lists_of s nl ll fl -> lists_of (set_ces (<[p := e']> (ces s)) s) nl ll fl.
Proof. apply lists_ok_insert. Qed.

Lemma only_ent_strip p e' (m m' m'' : gmap Z cache_ent) :
  only_ent p e' m m' -> strip <$> m'' = strip <$> m' ->
  exists e'', only_ent p e'' m m'' /\ strip e'' = strip e'.
Proof.
  intros [H1 H2] Hs. symmetry in Hs. destruct (strip_lookup m'' m' p e' Hs H1) as (e'' & He'' & E).
  exists e''. split; [|done]. split; [done|]. intros q Hq. rewrite <- (H2 q Hq).
  by rewrite <- !lookup_fmap, Hs.
Qed.

(** ** Old names *)

Lemma hash_delete_inv held g s d b p (Q : option Z -> cst -> Prop) :
  inv held g s -> g_x g !! (d, b) = Some p ->
  (forall s', inv held (g_set_vx (g_vm g) (delete (d, b) (g_x g)) g) s' -> ces s' = ces s ->
     bufs s' = bufs s -> Q (Some p) s') ->
  wp (in_ht (hash_delete d b)) Q s.
Proof.
  intros Hi Hx HQ. unfold in_ht. wp_step. eapply wp_mono; [by apply hash_delete_wp, (to_ok _ _ _ _ (iv_ht _ _ _ _ _ _ Hi))|]. intros r h (-> & Hok & Emax). pose proof (iv_ht _ _ _ _ _ _ Hi) as [_ Hmax Hkeys].
  assert ((kmap (pair dev) (g_vm g) : gmap (Z * Z) Z) !! (d, b) = None) as Hv.
  { apply eq_None_not_Some. intros [q Hq]. apply (lookup_kmap_Some (pair dev)) in Hq as (b' & [= -> ->] & Hq).
    rewrite (iv_x _ _ _ _ _ _ Hi b' q Hq) in Hx. done. }
  unfold hmap. rewrite lookup_union_r, Hx by done. apply HQ; [|done|done].
  inv_keep Hi; cbn.
  - assert (delete (d, b) (hmap dev g) = hmap dev (g_set_vx (g_vm g) (delete (d, b) (g_x g)) g)) as E.
    { unfold hmap. cbn. rewrite delete_union. by rewrite (delete_id (kmap _ _)). }
    rewrite <- E. split; [done|by rewrite Emax|]. intros d' c q [_ Hq]%lookup_delete_Some. by eapply Hkeys.
  - intros b' q Hq. apply lookup_delete_None. right. by eapply iv_x.
Qed.
End put.
