(* ===== verification/CacheFill.v ===== *)
(** * CacheFill: from claimed entries to cached blocks (cache.c)

    The second half of a miss: the claimed entries get buffers of the right
    size and the bytes of the device, leave the names of their old blocks and
    become copies of the new ones; and the whole miss. *)

From S2P Require Import Prelude Bytes Host Device HashTable CacheList Cache CacheIo CacheInv CacheMiss CachePut.
Local Open Scope Z_scope.

Section fill.
Context {dev bs N : Z} {CG : CacheGeom dev bs N}.
Abbreviation inv := (CacheInv.inv dev bs N).
Abbreviation has := CacheMiss.has.
Abbreviation sized := (CacheMiss.sized (bs := bs)).
Abbreviation emptied := (CacheMiss.emptied (bs := bs)).
Abbreviation refillable := (CacheMiss.refillable (bs := bs)).

(** ** Buffers *)

(** Only the entries [l] and their buffers changed. *)
Definition frame (l : list Z) (s s' : cst) : Prop :=
  forall q, q ∉ l -> ces s' !! q = ces s !! q /\
    forall e a, ces s !! q = Some e -> ce_data e = Some a -> bufs s' !! a = bufs s !! a.

Lemma frame_nil s : frame [] s s.
Proof. by intros q _. Qed.
Lemma frame_cons p l s1 s2 s3 : others p s1 s2 -> frame l s2 s3 -> frame (p :: l) s1 s3.
Proof.
  intros H1 H2 q [Hp Hl]%not_elem_of_cons. destruct (H1 q Hp) as [E1 B1], (H2 q Hl) as [E2 B2].
  split; [congruence|]. intros e a He Ha. rewrite (B2 e a), (B1 e a); congruence.
Qed.
Lemma has_frame q l s s' P : frame l s s' -> q ∉ l -> has s q P -> has s' q P.
Proof.
  intros Ho Hne (e & He & HP). destruct (Ho q Hne) as [E Hb]. exists e. rewrite E. split; [done|].
  destruct (ce_data e) as [a|] eqn:Ea; [|done]. cbn in *. by rewrite (Hb e a).
Qed.

Lemma alloc_data_wp held g l s (Q : Z -> cst -> Prop) :
  inv held g s -> NoDup l -> (forall p, p ∈ l -> holds_none g p) -> (forall p, p ∈ l -> has s p emptied) ->
  (forall s', inv held g s' -> kept s s' -> frame l s s' -> (forall p, p ∈ l -> has s' p sized) -> Q 0 s') ->
  wp (alloc_data bs l) Q s.
Proof.
  revert s. induction l as [|p l IH]; intros s Hi Hnd Hf Hl HQ; cbn [alloc_data].
  { wp_step. apply HQ; [done|apply kept_refl|apply frame_nil|]. by intros p ?%elem_of_nil. }
  apply NoDup_cons in Hnd as [Hp Hnd].
  assert (forall s1, inv held g s1 -> kept s s1 -> others p s s1 -> has s1 p sized -> wp (alloc_data bs l) Q s1) as Hrest.
  { intros s1 Hs1 Hk Ho HP. apply IH; [done|done| | |].
    - intros q Hq. apply Hf, elem_of_cons. by right.
    - intros q Hq. apply (has_others p q s); [done|by intros ->|]. apply Hl, elem_of_cons. by right.
    - intros s' Hs' Hk' Hfr Hall. apply HQ; [done|by eapply kept_trans|by eapply frame_cons|].
      intros q [->|Hq]%elem_of_cons; [by eapply has_frame|auto]. }
  destruct (Hl p) as (e & He & Hem); [apply elem_of_cons; by left|].
  wp_step. eapply ent_wp; [done|]. destruct (ce_data e) as [a|] eqn:Ea.
  - apply Hrest; [done|apply kept_refl|by intros q _|]. destruct Hem as [?|Hem]; [congruence|].
    exists e. by rewrite Ea.
  - eapply alloc_one; [exact Hi|apply Hf, elem_of_cons; by left|exact He|exact Ea|]. intros s1 Hs1 Ho Hk HP. by apply Hrest.
Qed.

(** An entry whose buffer holds [x]. *)
Definition filled (x : list byte) (e : cache_ent) (d : option (list byte)) : Prop := ce_bsize e = bs /\ d = Some x.

Lemma store_float_wp held g s p e x (Q : unit -> cst -> Prop) :
  inv held g s -> holds_none g p -> has s p sized -> ces s !! p = Some e -> len x = bs ->
  (forall s', inv held g s' -> ces s' = ces s -> others p s s' -> has s' p (filled x) -> Q tt s') ->
  wp (store_buf (ce_data e) x) Q s.
Proof.
  intros Hi Hp (e0 & He0 & Hsz & d & Hd & Hl) He Hx HQ. assert (e0 = e) as -> by congruence.
  destruct (ce_data e) as [a|] eqn:Ea; [|done]. cbn in Hd.
  eapply store_buf_wp; [exact Hd|lia|]. apply HQ.
  - by apply (inv_float_store held g s p e a).
  - done.
  - intros q Hq. split; [done|]. intros e' a' He' Ha'. apply lookup_insert_ne. intros <-. apply Hq.
    by eapply (mo_inj _ _ _ (iv_mem _ _ _ _ _ _ Hi)).
  - exists e. split; [done|]. split; [done|]. rewrite Ea. cbn. apply lookup_insert_eq.
Qed.

Lemma scatter_wp held g F l b s (Q : unit -> cst -> Prop) :
  inv held g s -> NoDup l -> (forall p, p ∈ l -> holds_none g p) -> (forall p, p ∈ l -> has s p sized) ->
  (forall k, b <= k < b + len l -> len (F k) = bs) ->
  (forall s', inv held g s' -> ces s' = ces s -> frame l s s' ->
     (forall i p, l !! i = Some p -> has s' p (filled (F (b + Z.of_nat i)))) -> Q tt s') ->
  wp (scatter bs l (mjoin (run_data F b (length l)))) Q s.
Proof.
  revert b s. induction l as [|p l IH]; intros b s Hi Hnd Hf Hl HF HQ; cbn [scatter].
  { wp_step. apply HQ; [done|done|apply frame_nil|]. intros i q. by rewrite lookup_nil. }
  apply NoDup_cons in Hnd as [Hp Hnd]. rewrite len_cons in HF. cbn [length]. rewrite run_data_S.
  change (mjoin (F b :: run_data F (b + 1) (length l))) with (F b ++ mjoin (run_data F (b + 1) (length l))).
  assert (len (F b) = bs) as Hb by (apply HF; unfold len; lia).
  destruct (Hl p) as (e & He & Hsz); [apply elem_of_cons; by left|].
  rewrite take_app_length', drop_app_length' by (unfold len in Hb; lia).
  wp_step. eapply ent_wp; [done|]. wp_step. eapply (store_float_wp held g s p e); [done| | |done|done|].
  { apply Hf, elem_of_cons; by left. } { by exists e. }
  intros s1 Hs1 Ec Ho HP. apply IH; [done|done| | | |].
  - intros q Hq. apply Hf, elem_of_cons. by right.
  - intros q Hq. apply (has_others p q s); [done|by intros ->|]. apply Hl, elem_of_cons. by right.
  - intros k Hk. apply HF. lia.
  - intros s' Hs' Ec' Hfr Hall. apply HQ; [done|congruence|by eapply frame_cons|].
    intros [|i] q Hq; cbn in Hq.
    + injection Hq as <-. rewrite Z.add_0_r. by eapply has_frame.
    + replace (b + Z.of_nat (S i)) with (b + 1 + Z.of_nat i) by lia. by apply Hall.
Qed.
Lemma sum_replicate n x : foldr Z.add 0 (replicate n x) = Z.of_nat n * x.
Proof. induction n as [|n IH]; [done|]. cbn [replicate foldr]. rewrite IH. lia. Qed.

Lemma read_into_wp held g l b s (Q : Z -> cst -> Prop) :
  inv held g s -> g_iov g = false -> NoDup l -> (forall p, p ∈ l -> holds_none g p) ->
  (forall p, p ∈ l -> has s p sized) -> 0 <= b -> b + len l <= N -> 0 < len l <= NUM_FLUSH_BLOCKS ->
  (forall k, b <= k < b + len l -> g_vm g !! k = None) ->
  (forall s', inv held g s' -> kept s s' ->
     (forall i p, l !! i = Some p -> has s' p (filled (g_L g (b + Z.of_nat i)))) -> Q 0 s') ->
  wp (read_into_ents dev b l bs) Q s.
Proof.
  pose proof CG as [Hdev Hbs [HN HM]].
  intros Hi Hg Hnd Hf Hl Hb HbN Hn Hv HQ. unfold read_into_ents. wp_step. eapply get_iovec_wp; [done|done|].
  intros s1 Hs1 Ec1 Eb1. cbv iota. wp_step.
  destruct (inv_file dev bs N _ _ _ Hs1) as (f & Hfile & Hdisk & Hlen). unfold in_os. wp_step.
  rewrite i64_id by (unfold in_i64; nia).
  assert (foldr Z.add 0 (replicate (length l) bs) = len l * bs) as Hsum by (by rewrite sum_replicate).
  eapply wp_mono; [apply (readv_pos_wp dev (b * bs) _ _ f); [done|apply Hs1|nia| | | |]|].
  - destruct l; [unfold len in Hn; cbn in Hn; lia|done].
  - rewrite len_replicate. unfold NUM_FLUSH_BLOCKS, MAX_IOV, len in *. lia.
  - rewrite Hsum. nia.
  - rewrite Hsum. nia.
  - intros [r d] o' (E & off & ->). rewrite Hsum in E. injection E as -> ->.
    pose proof (inv_write dev bs N held (g_set_iov true g) s1 f off (f_data f) Hs1 Hfile Hlen) as Hs2.
    specialize (Hs2 ltac:(intros k Hk; right; by rewrite Hdisk)).
    rewrite (slice_blocks bs (f_data f) b (length l) ltac:(lia) ltac:(lia) : slice (b * bs) (len l * bs) _ = _).
    rewrite (run_data_ext _ (g_L g)).
    2: { intros k Hk. rewrite <- Hdisk. by apply (co_disk _ _ _ _ _ _ _ _ _ _ (iv_content _ _ _ _ _ _ Hs1) k ltac:(unfold len in *; lia)), Hv. }
    wp_step. apply (scatter_wp held (g_set_iov true g)); [done|done|done| | |].
    + intros p Hp. destruct (Hl p Hp) as (e & He & Hsz). exists e. cbn. by rewrite Ec1, Eb1.
    + intros k Hk. apply (co_len _ _ _ _ _ _ _ _ _ _ (iv_content _ _ _ _ _ _ Hi)). lia.
    + intros s3 Hs3 Ec3 _ Hall. wp_step. eapply release_iovec_wp; [exact Hs3|done|].
      intros s4 Hs4 Ec4 Eb4. rewrite Z.eqb_refl. cbn [negb]. wp_step. apply HQ; [done| |].
      * apply kept_same. by rewrite Ec4, Ec3.
      * intros i p Hp. destruct (Hall i p Hp) as (e & He & Hx). exists e. by rewrite Ec4, Eb4.
Qed.
(** ** Claims

    [cl]: the blocks claimed and their entries; [olds]: the claimed entries
    that still have their old name; [extra]: the entries that were taken to
    be flushed only. *)
Record pending_at {held : bool} (cl : list (Z * Z)) (olds extra : list Z) (g : ghost) (s : cst) : Prop := {
  pe_inv : inv held g s;
  pe_busy : g_busy g = [];
  pe_nodup : NoDup cl.*2;
  pe_claim : forall c p, (c, p) ∈ cl -> holds_none g p /\ g_x g !! (dev, c) = Some p /\ 0 <= c < N;
  pe_old : forall p, p ∈ olds -> old_key s (g_x g) p /\ forall e, ces s !! p = Some e -> ce_dev e <> -1 ->
    ce_dev e = dev /\ ce_block_num e ∉ cl.*1;
  pe_all : forall k q, g_x g !! k = Some q -> (exists c, k = (dev, c) /\ (c, q) ∈ cl) \/
    q ∈ olds /\ exists e, ces s !! q = Some e /\ ce_dev e = dev /\ k = (dev, ce_block_num e);
  pe_fl : forall p, p ∈ g_fl g -> p ∈ cl.*2 \/ p ∈ extra;
  pe_extra : forall p, p ∈ extra -> p ∈ g_fl g /\ exists b, g_vm g !! b = Some p;
}.

Abbreviation pending := (pending_at (held := true)).

(** What the ghosts of two states have in common while blocks from [b] on are brought in. *)
Record near (b : Z) (g g' : ghost) : Prop := {
  nr_dom : forall k, is_Some (g_vm g' !! k) -> is_Some (g_vm g !! k) \/ b <= k;
  nr_iov : g_iov g' = g_iov g;
  nr_iova : g_iova g' = g_iova g;
}.
Lemma near_refl b g : near b g g.
Proof. split; auto. Qed.
Lemma near_trans b g1 g2 g3 : near b g1 g2 -> near b g2 g3 -> near b g1 g3.
Proof.
  intros [A1 A2 A3] [B1 B2 B3]. split; try congruence. intros k Hk. destruct (B1 k Hk) as [H|H]; auto.
Qed.

(** The two ghosts show clients the same. *)
Record same_view (g g' : ghost) : Prop := {
  sv_L : forall k, g_L g' k = g_L g k;
  sv_un : g_un g' = g_un g;
  sv_pin : forall k, g_pin g' k = g_pin g k;
  sv_ll : g_ll g' = g_ll g;
}.
Lemma same_view_refl g : same_view g g.
Proof. done. Qed.
Lemma same_view_trans g1 g2 g3 : same_view g1 g2 -> same_view g2 g3 -> same_view g1 g3.
Proof. intros [A1 A2 A3 A4] [B1 B2 B3 B4]. split; intros; rewrite ?B1, ?B3; auto; congruence. Qed.

Lemma pend_vm_none cl olds extra g s c p : pending cl olds extra g s -> (c, p) ∈ cl -> g_vm g !! c = None.
Proof.
  intros Hp Hc. destruct (pe_claim _ _ _ _ _ Hp c p Hc) as (_ & Hx & _). apply eq_None_not_Some. intros [q Hq].
  rewrite (iv_x _ _ _ _ _ _ (pe_inv _ _ _ _ _ Hp) c q Hq) in Hx. done.
Qed.

Lemma elem_of_mid {A} (c0 c1 : list A) x y : y ∈ c0 ++ (x :: c1) <-> y = x \/ y ∈ c0 ++ c1.
Proof. rewrite !elem_of_app, elem_of_cons. tauto. Qed.

(** Where a claim is kept: entries other than the one settled. *)
Lemma pend_put w c0 c p c1 olds extra g s s' e e' a x d f1 f2 :
  pending (c0 ++ (c, p) :: c1) olds extra g s -> p ∉ olds -> g_fl g = f1 ++ p :: f2 ->
  same_rest s s' -> only_ent p e' (ces s) (ces s') -> bufs s' = <[a := d]> (bufs s) ->
  ces s !! p = Some e -> ce_data e = Some a -> bufs s !! a = Some x ->
  ce_dev e' = dev -> ce_block_num e' = c -> ce_bsize e' = bs -> ce_data e' = Some a ->
  ce_clone e' = None -> ce_func e' = None -> len d = bs ->
  lists_of s' (on w (fun l => l ++ [p]) Normal (g_nl g)) (on w (fun l => l ++ [p]) Locked (g_ll g)) (f1 ++ f2) ->
  is_busy e' = false -> ce_lock e' = (match w with Normal => 0 | Locked => 1 end) ->
  (is_dirty e' = false -> d = g_L g c) ->
  pending (c0 ++ c1) olds extra
    (g_put (dev := dev) (on w (fun l => l ++ [p]) Normal (g_nl g)) (on w (fun l => l ++ [p]) Locked (g_ll g)) (f1 ++ f2)
       c p d (g_un g) (ce_lock e') g) s'.
Proof.
  intros Hp Hpo Hfl Hsr Ho Hb He Ha Hx F1 F2 F3 F4 F5 F6 Hd Hl Hbz Hlk Hcl.
  pose proof (pe_inv _ _ _ _ _ Hp) as Hi.
  destruct (pe_claim _ _ _ _ _ Hp c p) as ([Hpf Hpn] & Hxc & Hcn); [apply elem_of_mid; by left|].
  assert (g_vm g !! c = None) as Hvc by (apply (pend_vm_none _ _ _ _ _ c p Hp); apply elem_of_mid; by left).
  pose proof (float_not_listed true g s p Hi Hpf) as Hnl. rewrite elem_of_app in Hnl.
  pose proof (pe_nodup _ _ _ _ _ Hp) as Hnd. rewrite fmap_app, fmap_cons in Hnd. apply NoDup_mid in Hnd as (Hn1 & Hn2 & Hnd).
  assert (c ∉ g_un g) as Hun.
  { intros Hu. destruct (co_un _ _ _ _ _ _ _ _ _ _ (iv_content _ _ _ _ _ _ Hi) c Hu) as (q & _ & Hq & _). congruence. }
  pose proof (iv_lists _ _ _ _ _ _ Hi) as Hlo. pose proof (lo_nodup _ _ _ _ _ _ Hlo) as Hndl. rewrite Hfl in Hndl.
  assert ((p ∉ f1) /\ (p ∉ f2)) as Hf12.
  { rewrite !app_assoc in Hndl. apply NoDup_mid in Hndl as (H1 & H2 & _). rewrite !elem_of_app in H1. tauto. }
  split.
  - eapply (inv_put true g s s' p e e' c a x d); try done.
    + by rewrite hmap_lookup, Hvc.
    + intros b Hbp. by destruct (Hpn b).
    + rewrite Hfl. destruct w; cbn; solve_Permutation.
    + destruct w; cbn; rewrite !elem_of_app, elem_of_cons; tauto.
    + intros q Hq. destruct w; cbn; rewrite !elem_of_app, elem_of_cons, elem_of_nil; tauto.
    + rewrite Hbz. symmetry. apply bool_decide_eq_false. rewrite (pe_busy _ _ _ _ _ Hp). apply not_elem_of_nil.
    + destruct w; cbn; [right|left]; (split; [|lia]); [tauto|]. apply elem_of_app. right. by apply elem_of_cons; left.
    + intros Hdi _. rewrite (Hcl Hdi). by apply (co_disk _ _ _ _ _ _ _ _ _ _ (iv_content _ _ _ _ _ _ Hi)).
  - apply Hp.
  - by rewrite fmap_app.
  - intros c' q Hcq. destruct (pe_claim _ _ _ _ _ Hp c' q) as ([Hqf Hqn] & Hxq & Hcn'); [apply elem_of_mid; by right|].
    assert (q <> p) as Hqp.
    { intros ->. apply elem_of_app in Hcq as [Hcq|Hcq]; [apply Hn1|apply Hn2]; by apply (list_elem_of_fmap_2' snd _ (c', p)). }
    assert (c' <> c) as Hcc by (intros ->; congruence). cbn. split; [split|split; [|done]].
    + rewrite Hfl in Hqf. apply elem_of_mid in Hqf as [?|?]; done.
    + cbn. intros b [(? & ?)|[? ?]]%lookup_insert_Some; [congruence|]. by apply (Hqn b).
    + rewrite lookup_delete_ne; [done|congruence].
  - intros q Hq. destruct (pe_old _ _ _ _ _ Hp q Hq) as [Hok Hne]. assert (q <> p) as Hqp by (by intros ->). split.
    + intros y Hy Hyd. destruct (only_ent_lookup p e' _ _ q y Ho Hqp Hy) as (y0 & Hy0 & Hs%strip_fields).
      destruct Hs as (S1 & S2 & _). rewrite S1, S2 in *. cbn. destruct (Hne y0 Hy0 Hyd) as [Hdv Hnc].
      rewrite lookup_delete_ne; [by apply Hok|]. intros [= _ E]. apply Hnc. rewrite <- E.
      rewrite fmap_app, fmap_cons. apply elem_of_mid. by left.
    + intros y Hy Hyd. destruct (only_ent_lookup p e' _ _ q y Ho Hqp Hy) as (y0 & Hy0 & Hs%strip_fields).
      destruct Hs as (S1 & S2 & _). rewrite S1, S2 in *. destruct (Hne y0 Hy0 Hyd) as [Hdv Hnc]. split; [done|].
      intros Hin. apply Hnc. rewrite fmap_app, fmap_cons. apply elem_of_mid. right. by rewrite <- fmap_app.
  - cbn. intros k q [Hk Hxq]%lookup_delete_Some. destruct (pe_all _ _ _ _ _ Hp k q Hxq) as [(c' & -> & Hc')|(Hq & y & Hy & Hyd & ->)].
    + left. exists c'. split; [done|]. apply elem_of_mid in Hc' as [[= -> ->]|Hc']; done.
    + right. split; [done|]. assert (q <> p) as Hqp by (by intros ->).
      destruct (only_ent_back p e' _ _ q y Ho Hqp Hy) as (y' & Hy' & Hs%strip_fields). exists y'.
      destruct Hs as (S1 & S2 & _). by rewrite S1, S2.
  - cbn. intros q Hq. destruct (pe_fl _ _ _ _ _ Hp q) as [H|H]; [rewrite Hfl; apply elem_of_mid; by right| |by right].
    rewrite fmap_app, fmap_cons in H. apply elem_of_mid in H as [->|H]; [|left; by rewrite fmap_app].
    exfalso. apply elem_of_app in Hq. tauto.
  - cbn. intros q Hq. destruct (pe_extra _ _ _ _ _ Hp q Hq) as [Hqf [b Hqb]].
    assert (q <> p) as Hqp by (intros ->; by apply (Hpn b)). split.
    + rewrite Hfl in Hqf. apply elem_of_mid in Hqf as [?|?]; done.
    + exists b. rewrite lookup_insert_ne; [done|]. intros <-. congruence.
Qed.
(** ** Leaving the old blocks *)

(** The entry [p] and its buffer may change, the others in their links. *)
Definition others_st (p : Z) (s s' : cst) : Prop :=
  forall q, q <> p -> strip <$> ces s' !! q = strip <$> ces s !! q /\
    forall e a, ces s !! q = Some e -> ce_data e = Some a -> bufs s' !! a = bufs s !! a.

Definition respects (P : cache_ent -> option (list byte) -> Prop) : Prop :=
  forall e e' d, strip e = strip e' -> P e d -> P e' d.

Lemma has_others_st p q s s' P : respects P -> others_st p s s' -> q <> p -> has s q P -> has s' q P.
Proof.
  intros HR Ho Hne (e & He & HP). destruct (Ho q Hne) as [E Hb]. rewrite He in E.
  destruct (ces s' !! q) as [e'|] eqn:He'; [|done]. exists e'. split; [done|].
  assert (strip e = strip e') as Hs by (cbn in E; congruence). apply (HR e e' _ Hs).
  apply strip_fields in Hs as (_ & _ & _ & _ & Ed & _). rewrite <- Ed.
  destruct (ce_data e) as [a|] eqn:Ea; [|done]. cbn in *. by rewrite (Hb e a).
Qed.
Lemma others_st_ent p e' s s' a d :
  (forall q x, q <> p -> ces s !! q = Some x -> ce_data x <> Some a) ->
  only_ent p e' (ces s) (ces s') -> (bufs s' = bufs s \/ bufs s' = <[a := d]> (bufs s)) -> others_st p s s'.
Proof.
  intros Ha [_ Ho] Hb q Hq. split; [by apply Ho|]. intros e b He Hd. destruct Hb as [->| ->]; [done|].
  apply lookup_insert_ne. intros <-. by apply (Ha q e).
Qed.

(** A claimed entry with its final contents. *)
Definition ready (x : list byte) (e : cache_ent) (d : option (list byte)) : Prop :=
  is_dirty e = false /\ filled x e d.
Lemma ready_respects x : respects (ready x).
Proof.
  intros e e' d (_ & _ & E3 & E4 & _)%strip_fields (H1 & H2 & H3). unfold ready, filled, is_dirty in *.
  by rewrite <- E3, <- E4.
Qed.

Lemma drop_old_wp b cl p olds extra g s e (Q : unit -> cst -> Prop) :
  pending cl (p :: olds) extra g s -> p ∉ olds -> ces s !! p = Some e ->
  (forall g' s', pending cl olds extra g' s' -> same_view g g' -> near b g g' -> g_nl g' = g_nl g -> g_fl g' = g_fl g ->
     ces s' = ces s -> bufs s' = bufs s -> Q tt s') ->
  wp (if negb (ce_dev e =? -1) then
        r ← in_ht (hash_delete (ce_dev e) (ce_block_num e)); if negb (bool_decide (r = Some p)) then hang else mret tt
      else mret tt) Q s.
Proof.
  pose proof CG as [Hdev _ _]. intros Hp Hno He HQ. destruct (pe_old _ _ _ _ _ Hp p) as [Hok Hne]; [apply elem_of_cons; by left|].
  apply wp_if; intros Hc; zcases.
  - destruct (Hne e He Hc) as [Hdv Hnc]. pose proof (Hok e He Hc) as Hx. wp_step.
    eapply hash_delete_inv; [apply Hp|exact Hx|]. intros s1 Hs1 Ec Eb. rewrite bool_decide_eq_true_2 by done. cbn [negb].
    wp_step. apply (HQ (g_set_vx (g_vm g) (delete (ce_dev e, ce_block_num e) (g_x g)) g));
      [|done|by split; auto|done|done|done|done].
    destruct Hp as [P1 P2 P3 P4 P5 P6 P7 P8]. split; try done.
    + intros c q Hcq. destruct (P4 c q Hcq) as (Hf & Hxc & Hn). split; [done|split; [|done]]. cbn.
      rewrite lookup_delete_ne; [done|]. rewrite Hdv. intros [= E]. apply Hnc. rewrite E.
      by apply (list_elem_of_fmap_2' fst _ (c, q)).
    + intros q Hq. destruct (P5 q) as [Ho Hn]; [apply elem_of_cons; by right|]. unfold old_key. rewrite Ec. split; [|done].
      intros y Hy Hyd. cbn. rewrite lookup_delete_ne; [by apply Ho|]. intros E. apply Hno.
      pose proof (Ho y Hy Hyd) as Hxq. rewrite <- E, Hx in Hxq. by injection Hxq as ->.
    + cbn. intros k q [Hk Hxq]%lookup_delete_Some. destruct (P6 k q Hxq) as [?|(Hq & y & Hy & Hyd & Ek)]; [by left|].
      right. apply elem_of_cons in Hq as [->|Hq]; [|split; [done|exists y; by rewrite Ec]].
      exfalso. apply Hk. rewrite Ek. congruence.
  - wp_step. apply (HQ g); [|done|apply near_refl|done|done|done|done].
    destruct Hp as [P1 P2 P3 P4 P5 P6 P7 P8]. split; try done.
    + intros q Hq. apply P5, elem_of_cons. by right.
    + intros k q Hxq. destruct (P6 k q Hxq) as [?|(Hq & y & Hy & Hyd & Ek)]; [by left|].
      right. apply elem_of_cons in Hq as [->|Hq]; [|split; [done|by exists y]].
      exfalso. assert (y = e) as -> by congruence. lia.
Qed.
Lemma only_ent_insert p e' (m : gmap Z cache_ent) : only_ent p e' m (<[p := e']> m).
Proof. split; [apply lookup_insert_eq|]. intros q Hq. by rewrite lookup_insert_ne. Qed.

Lemma float_lock held g s p e : inv held g s -> p ∈ g_fl g -> ces s !! p = Some e -> ce_lock e = 0.
Proof.
  intros Hi Hf He. apply (iv_locks _ _ _ _ _ _ Hi p e He). intros Hl.
  apply (float_not_listed held g s p Hi Hf), elem_of_app. by right.
Qed.

Lemma same_view_put c0 c p c1 olds extra g s w nl fl d lck :
  pending (c0 ++ (c, p) :: c1) olds extra g s -> d = g_L g c -> lck = 0 ->
  same_view g (g_put (dev := dev) nl (on Normal w Locked (g_ll g)) fl c p d (g_un g) lck g).
Proof.
  intros Hp -> ->. split; try done; cbn; intros k; destruct (decide (k = c)) as [->|]; try done.
  assert (g_vm g !! c = None) as Hv by (apply (pend_vm_none _ _ _ _ _ c p Hp), elem_of_mid; by left).
  pose proof (iv_pin _ _ _ _ _ _ (pe_inv _ _ _ _ _ Hp) c) as H. by rewrite Hv in H.
Qed.
Lemma near_put b c p nl ll fl d un lck g : b <= c -> near b g (g_put (dev := dev) nl ll fl c p d un lck g).
Proof.
  intros Hb. split; try done. cbn. intros k. rewrite lookup_insert_is_Some'. intros [<-|Hk]; auto.
Qed.

Lemma adopt_wp c0 c p c1 olds extra g s b (Q : unit -> cst -> Prop) :
  pending (c0 ++ (c, p) :: c1) olds extra g s -> p ∉ olds -> has s p (ready (g_L g c)) -> b <= c ->
  (forall g' s', pending (c0 ++ c1) olds extra g' s' -> same_view g g' -> near b g g' -> others_st p s s' -> Q tt s') ->
  wp (_ ← upd_ent p (ce_set_dev dev); _ ← upd_ent p (ce_set_block_num c); _ ← clear_busy p;
      in_list Normal (add_to_head p)) Q s.
Proof.
  intros Hp Hno (e & He & Hdi & Hbs & Hdat) Hb HQ. pose proof (pe_inv _ _ _ _ _ Hp) as Hi.
  destruct (pe_claim _ _ _ _ _ Hp c p) as ([Hpf _] & _ & Hcn); [apply elem_of_mid; by left|].
  destruct (list_elem_of_split _ _ Hpf) as (f1 & f2 & Hfl).
  destruct (ce_data e) as [a|] eqn:Ha; [|done]. cbn in Hdat.
  pose proof (float_lock true g s p e Hi Hpf He) as Hlk.
  destruct (mo_clone _ _ _ (iv_mem _ _ _ _ _ _ Hi) p e He) as [Hcl Hfu].
  wp_step. eapply upd_ent_wp; [done|]. wp_step. eapply upd_ent_wp; [apply lookup_insert_eq|].
  wp_step. unfold clear_busy. eapply upd_ent_wp; [apply lookup_insert_eq|]. cbn. rewrite !insert_insert_eq.
  set (e3 := clear_flags CE_BUSY _). assert (is_dirty e3 = false) as Hdi3 by (unfold e3; by rewrite dirty_clear_busy).
  assert (is_busy e3 = false) as Hbz by apply busy_clear_busy.
  eapply (land_st Normal _ (g_nl g) (g_ll g) f1 p f2).
  { apply (lists_of_ent s _ _ _ p e e3); [done|done|done|]. unfold lists_of. rewrite <- Hfl. apply Hi. }
  intros s' (Hsr & Hst & Hbf) Hl.
  destruct (only_ent_strip p e3 (ces s) _ (ces s') (only_ent_insert p e3 (ces s)) Hst) as (e' & Ho & Hs).
  pose proof (strip_fields _ _ Hs) as (S1 & S2 & S3 & S4 & S5 & S6 & S7 & S8). cbn in *.
  assert (bufs s' = <[a := g_L g c]> (bufs s)) as Hbf' by (by rewrite insert_id).
  eapply (HQ _ s').
  - eapply (pend_put Normal c0 c p c1 olds extra g s s' e e' a); try done; try congruence.
    + by destruct Hsr; split.
    + apply (co_len _ _ _ _ _ _ _ _ _ _ (iv_content _ _ _ _ _ _ Hi)). lia.
    + unfold is_busy in *. by rewrite S4.
  - eapply same_view_put; [done|done|congruence].
  - by apply near_put.
  - apply (others_st_ent p e' s s' a (g_L g c)); [|done|by right].
    intros q x Hq Hx Hxa. apply Hq. by eapply (mo_inj _ _ _ (iv_mem _ _ _ _ _ _ Hi)).
Qed.
(** The claims of the entries of a list for consecutive blocks. *)
Fixpoint claims (b : Z) (l : list Z) : list (Z * Z) :=
  match l with
  | [] => []
  | p :: l => (b, p) :: claims (b + 1) l
  end.

Lemma claims_snd b l : (claims b l).*2 = l.
Proof. revert b. induction l as [|p l IH]; intros b; [done|]. cbn. by rewrite IH. Qed.

Lemma elem_of_claims b l c p : (c, p) ∈ claims b l <-> b <= c /\ l !! Z.to_nat (c - b) = Some p.
Proof.
  revert b. induction l as [|q l IH]; intros b; cbn [claims].
  - rewrite lookup_nil. split; [by intros ?%elem_of_nil|by intros [_ ?]].
  - rewrite elem_of_cons, IH. split.
    + intros [[= -> ->]|[Hb Hl]]; [by rewrite Z.sub_diag|]. split; [lia|].
      by replace (Z.to_nat (c - b)) with (S (Z.to_nat (c - (b + 1)))) by lia.
    + intros [Hb Hl]. destruct (decide (c = b)) as [->|Hne].
      * rewrite Z.sub_diag in Hl. left. change (Some q = Some p) in Hl. congruence.
      * right. split; [lia|]. by replace (Z.to_nat (c - b)) with (S (Z.to_nat (c - (b + 1)))) in Hl by lia.
Qed.

Lemma rename_wp cur b0 l k c0 extra g s (Q : unit -> cst -> Prop) :
  pending (c0 ++ claims (b0 + k) l) l extra g s -> NoDup l -> 0 <= k ->
  (forall i p, l !! i = Some p -> cur <= k + Z.of_nat i -> has s p (ready (g_L g (b0 + k + Z.of_nat i)))) ->
  (forall g' s', pending (c0 ++ claims (b0 + k) (take (Z.to_nat (cur - k)) l)) [] extra g' s' ->
     same_view g g' -> near b0 g g' ->
     (forall q P, respects P -> q ∉ drop (Z.to_nat (cur - k)) l -> has s q P -> has s' q P) -> Q tt s') ->
  wp (rename_ents l k cur dev b0 0) Q s.
Proof.
  revert k c0 g s. induction l as [|p l IH]; intros k c0 g s Hp Hnd Hk Hr HQ; cbn [rename_ents].
  { wp_step. eapply HQ; [by rewrite take_nil|done|apply near_refl|done]. }
  apply NoDup_cons in Hnd as [Hpl Hnd]. cbn [claims] in Hp.
  destruct (pe_claim _ _ _ _ _ Hp (b0 + k) p) as ([Hpf _] & _ & _); [apply elem_of_mid; by left|].
  destruct (inv_some true g s p (pe_inv _ _ _ _ _ Hp)) as [e He]; [rewrite !elem_of_app; tauto|].
  wp_step. eapply ent_wp; [exact He|]. wp_step. eapply (drop_old_wp b0); [exact Hp|done|done|].
  intros g1 s1 Hp1 Hv1 Hn1 En1 Ef1 Ec1 Eb1.
  assert (forall q P, has s q P -> has s1 q P) as Hs1.
  { intros q P (y & Hy & HP). exists y. by rewrite Ec1, Eb1. }
  wp_step. cbn [andb]. rewrite Z.eqb_refl. apply wp_if; intros Hc; zcases.
  - apply (adopt_wp c0 (b0 + k) p (claims (b0 + k + 1) l) l extra g1 s1 b0); [done|done| |lia|].
    { apply Hs1. rewrite (sv_L _ _ Hv1). specialize (Hr 0%nat p eq_refl).
      replace (b0 + k + Z.of_nat 0) with (b0 + k) in Hr by lia. apply Hr. lia. }
    intros g2 s2 Hp2 Hv2 Hn2 Ho. apply (IH (k + 1) c0 g2 s2).
    + by replace (b0 + (k + 1)) with (b0 + k + 1) by lia.
    + done.
    + lia.
    + intros i q Hi Hcur. apply (has_others_st p q s1); [apply ready_respects|done| |].
      * intros ->. apply Hpl. by eapply list_elem_of_lookup_2.
      * apply Hs1. rewrite (sv_L _ _ Hv2), (sv_L _ _ Hv1). specialize (Hr (S i) q Hi).
        replace (b0 + (k + 1) + Z.of_nat i) with (b0 + k + Z.of_nat (S i)) by lia. apply Hr. lia.
    + intros g3 s3 Hp3 Hv3 Hn3 Hh3. eapply HQ.
      * replace (Z.to_nat (cur - k)) with 0%nat by lia. replace (Z.to_nat (cur - (k + 1))) with 0%nat in Hp3 by lia. exact Hp3.
      * eapply same_view_trans, same_view_trans; done.
      * eapply near_trans, near_trans; done.
      * intros q P HR Hq HP. replace (Z.to_nat (cur - k)) with 0%nat in Hq by lia.
        cbn [drop] in Hq. apply not_elem_of_cons in Hq as [Hqp Hq]. apply Hh3; [done| |].
        -- intros Hin. by apply elem_of_drop_z, Hq in Hin.
        -- apply (has_others_st p q s1); auto.
  - wp_step. apply (IH (k + 1) (c0 ++ [(b0 + k, p)]) g1 s1).
    + rewrite <- app_assoc. by replace (b0 + (k + 1)) with (b0 + k + 1) by lia.
    + done.
    + lia.
    + intros i q Hi Hcur. apply Hs1. rewrite (sv_L _ _ Hv1). specialize (Hr (S i) q Hi).
      replace (b0 + (k + 1) + Z.of_nat i) with (b0 + k + Z.of_nat (S i)) by lia. apply Hr. lia.
    + intros g3 s3 Hp3 Hv3 Hn3 Hh3. eapply HQ.
      * replace (Z.to_nat (cur - k)) with (S (Z.to_nat (cur - (k + 1)))) by lia. cbn [take claims].
        rewrite <- app_assoc in Hp3. replace (b0 + (k + 1)) with (b0 + k + 1) in Hp3 by lia. exact Hp3.
      * eapply same_view_trans; done.
      * eapply near_trans; done.
      * intros q P HR Hq HP. apply Hh3; [done| |auto].
        by replace (Z.to_nat (cur - k)) with (S (Z.to_nat (cur - (k + 1)))) in Hq by lia.
Qed.
(** ** The extra entries *)

Lemma put_back_wp cl p extra g s (Q : unit -> cst -> Prop) :
  pending cl [] (p :: extra) g s -> NoDup (p :: extra) ->
  (forall g' s', pending cl [] extra g' s' -> same_view g g' -> (forall b, near b g g') ->
     others_st p s s' -> Q tt s') ->
  wp (put_back p) Q s.
Proof.
  intros Hp [Hpe Hnd]%NoDup_cons HQ. pose proof (pe_inv _ _ _ _ _ Hp) as Hi.
  destruct (pe_extra _ _ _ _ _ Hp p) as [Hpf [b Hb]]; [apply elem_of_cons; by left|].
  destruct (co_valid _ _ _ _ _ _ _ _ _ _ (iv_content _ _ _ _ _ _ Hi) b p Hb) as (_ & e & He & _).
  destruct (list_elem_of_split _ _ Hpf) as (f1 & f2 & Hfl).
  pose proof (float_lock true g s p e Hi Hpf He) as Hlk.
  pose proof (inv_flags dev bs N true g s p e (Z.land (ce_flags e) (Z.lnot CE_BUSY)) [] Hi He) as Hi1.
  unfold put_back, clear_busy. wp_step. eapply upd_ent_wp; [done|].
  change (ce_set_flags _ e) with (clear_flags CE_BUSY e) in Hi1.
  assert (inv true g (set_ces (<[p := clear_flags CE_BUSY e]> (ces s)) s)) as Hi2.
  { rewrite <- (g_set_busy_id g), (pe_busy _ _ _ _ _ Hp). apply Hi1.
    - left. apply dirty_clear_busy.
    - intros _. by rewrite busy_clear_busy.
    - intros q _ _. by rewrite (pe_busy _ _ _ _ _ Hp). }
  wp_step. eapply ent_wp; [apply lookup_insert_eq|]. cbn [ce_lock clear_flags ce_set_flags]. rewrite Hlk, Z.eqb_refl. cbn [negb].
  eapply (land_tail_wp true g _ f1 p f2 b); [exact Hi2|done|done| |].
  { intros x. cbn. rewrite lookup_insert_eq. intros [= <-]. rewrite busy_clear_busy, (pe_busy _ _ _ _ _ Hp). done. }
  intros s' Hs' Hst Hbf. cbn in Hst, Hbf.
  pose proof (lo_nodup _ _ _ _ _ _ (iv_lists _ _ _ _ _ _ Hi)) as Hndl. rewrite Hfl in Hndl.
  assert ((p ∉ f1) /\ (p ∉ f2)) as Hf12.
  { rewrite !app_assoc in Hndl. apply NoDup_mid in Hndl as (H1 & H2 & _). rewrite !elem_of_app in H1. tauto. }
  apply (HQ (g_set_nf (p :: g_nl g) (f1 ++ f2) g) s'); [|done|intros b'; split; auto|].
  - destruct Hp as [P1 P2 P3 P4 P5 P6 P7 P8]. split; try done; cbn.
    + intros c q Hcq. destruct (P4 c q Hcq) as ([Hqf Hqn] & H). split; [|done]. split; [|done]. cbn.
      rewrite Hfl in Hqf. apply elem_of_mid in Hqf as [->|?]; [|done]. by destruct (Hqn b).
    + by intros q ?%elem_of_nil.
    + intros k q Hx. destruct (P6 k q Hx) as [?|[?%elem_of_nil _]]; [by left|done].
    + intros q Hq. destruct (P7 q) as [?|[->|?]%elem_of_cons]; [rewrite Hfl; apply elem_of_mid; by right|by left| |by right].
      exfalso. apply elem_of_app in Hq. tauto.
    + intros q Hq. destruct (P8 q) as [Hqf Hqb]; [apply elem_of_cons; by right|]. split; [|done].
      rewrite Hfl in Hqf. apply elem_of_mid in Hqf as [->|?]; done.
  - intros q Hq. split; [|intros x a Hx Ha; by rewrite Hbf].
    rewrite <- !lookup_fmap, Hst, !lookup_fmap, lookup_insert_ne by done. done.
Qed.

Lemma put_backs_wp cl extra g s (Q : unit -> cst -> Prop) :
  pending cl [] extra g s -> NoDup extra ->
  (forall g' s', pending cl [] [] g' s' -> same_view g g' -> (forall b, near b g g') ->
     (forall q P, respects P -> q ∉ extra -> has s q P -> has s' q P) -> Q tt s') ->
  wp (each put_back extra) Q s.
Proof.
  revert g s. induction extra as [|p l IH]; intros g s Hp Hnd HQ; cbn [each].
  { wp_step. by eapply HQ; [done|done|intros b; apply near_refl|]. }
  wp_step. eapply put_back_wp; [done|done|]. intros g1 s1 Hp1 Hv1 Hn1 Ho.
  apply NoDup_cons in Hnd as [_ Hnd]. eapply IH; [done|done|]. intros g2 s2 Hp2 Hv2 Hn2 Hh.
  eapply HQ; [done|by eapply same_view_trans|intros b; by eapply near_trans|].
  intros q P HR [Hqp Hq]%not_elem_of_cons HP. apply Hh; [done|done|]. by apply (has_others_st p q s).
Qed.
(** ** Becoming the new block *)

Lemma settle_body_wp p a e x bsize op data num want s (Q : list byte -> cst -> Prop) :
  ces s !! p = Some e -> ce_data e = Some a -> bufs s !! a = Some x -> len x = bsize -> 0 <= bsize -> 0 < num ->
  op_ok op data num bsize want ->
  Q (op_out op data bsize x) (touch p a (op_ent op e) (op_data op data bsize x) s) ->
  wp (if asks op CACHE_READ then
        match data with Some _ => load_buf (ce_data e) bsize | None => mret [] end
      else if asks op CACHE_WRITE then
        _ ← upd_ent p (or_flags CE_DIRTY);
        _ ← copy_in p bsize data;
        mret []
      else if asks op CACHE_NOOP then
        _ ← store_buf (ce_data e) (replicate (Z.to_nat bsize) x00);
        _ ← upd_ent p (or_flags CE_DIRTY);
        mret (match data with Some _ => replicate (Z.to_nat bsize) x00 | None => [] end)
      else mret []) Q s.
Proof.
  intros He Ha Hx Hl Hb Hn Hop HQ. pose proof Hop as [Hk Hw _ _ _].
  unfold op_out, op_data, op_ent in *. destruct (asks op CACHE_READ) eqn:Er.
  { rewrite touch_id in HQ by done. destruct data as [d|]; [|by wp_step]. rewrite Ha. by eapply load_buf_wp. }
  destruct (asks op CACHE_WRITE) eqn:Ew.
  { destruct (Hw eq_refl eq_refl) as (d & -> & Hd). wp_step. eapply upd_ent_wp; [exact He|].
    wp_step. eapply (copy_in_wp p a (or_flags CE_DIRTY e)); [apply lookup_insert_eq|done..|]. wp_step. exact HQ. }
  destruct Hk as [?|[?| ->]]; [done..|]. wp_step. rewrite Ha. eapply store_buf_wp; [exact Hx|rewrite len_replicate; lia|].
  wp_step. eapply upd_ent_wp; [exact He|]. wp_step. exact HQ.
Qed.

(** What a request on block [c] does to what clients see. *)
Record settled (op : Z) (data : option (list byte)) (c : Z) (g g' : ghost) : Prop := {
  st_L : forall k, g_L g' k = if decide (k = c) then op_data op data bs (g_L g c) else g_L g k;
  st_un : forall k, k ∈ g_un g' -> k ∈ g_un g;
  st_pin : forall k, g_pin g' k = g_pin g k + (if decide (k = c) then lock_inc op else 0);
  st_ll : len (g_ll g') <= len (g_ll g) + lock_inc op;
}.

(** The pointer the request gives. *)
Definition ptr_ok (want : bool) (g : ghost) (s : cst) (c : Z) (dptr dptr' : option Z) : Prop :=
  if want then exists p e, g_vm g !! c = Some p /\ ces s !! p = Some e /\ dptr' = ce_data e else dptr' = dptr.

Lemma settle_wp c p cl g s op data num want dptr (Q : list byte * option Z -> cst -> Prop) :
  pending ((c, p) :: cl) [] [] g s -> op_ok op data num bs want -> 0 < num ->
  has s p sized -> (asks op CACHE_READ = true -> has s p (filled (g_L g c))) ->
  (forall g' s' dptr', pending cl [] [] g' s' -> settled op data c g g' -> near c g g' -> others_st p s s' ->
     ptr_ok want g' s' c dptr dptr' ->
     Q (op_out op data bs (g_L g c), dptr') s') ->
  wp (settle_ent p dev c data bs op want dptr) Q s.
Proof.
  pose proof CG as [Hdev Hbs _]. intros Hp Hop Hn (e & He & Hsz & x & Hd & Hx) Hfl HQ.
  pose proof (pe_inv _ _ _ _ _ Hp) as Hi.
  destruct (pe_claim _ _ _ _ _ Hp c p) as ([Hpf _] & _ & Hcn); [apply elem_of_cons; by left|].
  destruct (ce_data e) as [a|] eqn:Ha; [|done]. cbn in Hd.
  pose proof (float_lock true g s p e Hi Hpf He) as Hlk.
  destruct (mo_clone _ _ _ (iv_mem _ _ _ _ _ _ Hi) p e He) as [Hcl Hfu].
  destruct (lo_float _ _ _ _ _ _ (iv_lists _ _ _ _ _ _ Hi) p Hpf) as (e' & He' & Hpr & Hnx).
  assert (e' = e) as -> by congruence. clear He'.
  assert (asks op CACHE_READ = true -> x = g_L g c) as Hread.
  { intros Hr. destruct (Hfl Hr) as (e0 & He0 & _ & Hd0). assert (e0 = e) as -> by congruence. rewrite Ha in Hd0. cbn in Hd0. congruence. }
  assert (op_out op data bs x = op_out op data bs (g_L g c) /\ op_data op data bs x = op_data op data bs (g_L g c)) as [Eo Ed].
  { unfold op_out, op_data. destruct (asks op CACHE_READ); [|done]. by rewrite Hread. }
  unfold settle_ent. wp_step. eapply ent_wp; [done|]. wp_step.
  rewrite Hpr, Hnx, Hcl, Ha. cbn [free_buf].
  assert (forall Q : unit -> cst -> Prop, Q tt s -> wp (if negb (ce_dev e =? -1) then
      if bool_decide (is_Some (@None Z)) || bool_decide (is_Some (@None Z)) then hang
      else _ ← mret tt; if bool_decide (Some a = None) then hang else mret tt else mret tt) Q s) as Hchk.
  { intros Q' HQ'. rewrite !bool_decide_eq_false_2 by (done || by intros [? ?]). cbn [orb].
    apply wp_if; intros _; [|by wp_step]. wp_step. wp_step. by wp_step. }
  apply Hchk. clear Hchk. wp_step. eapply upd_ent_wp; [exact He|]. set (e1 := CE dev c bs CE_NORMAL _ _ _ _ _ _ _ _).
  wp_step. eapply ent_wp; [apply lookup_insert_eq|]. wp_step.
  eapply (settle_body_wp p a e1 x bs op data num want); [apply lookup_insert_eq|done|done|done|lia|done|done|].
  set (d := op_data op data bs x) in *. assert (len d = bs) as Hld by (eapply len_op_data; [exact Hop|lia|done|done]).
  assert (g_pin g c = 0) as Hpin.
  { pose proof (iv_pin _ _ _ _ _ _ Hi c) as H. by rewrite (pend_vm_none _ _ _ _ _ c p Hp) in H by (apply elem_of_cons; by left). }
  assert (is_busy (op_ent op e1) = false /\ (is_dirty (op_ent op e1) = false -> d = g_L g c)) as [Hbz Hdi].
  { unfold op_ent, d, op_data. destruct (asks op CACHE_READ); [auto|]. by rewrite busy_or_dirty, dirty_or_dirty. }
  assert (forall w e3, strip e3 = ce_set_lock (match w with Normal => 0 | Locked => 1 end) (strip (op_ent op e1)) ->
    ce_prev e3 = None -> ce_next e3 = None -> lock_inc op = (match w with Normal => 0 | Locked => 1 end) ->
    wp (in_list w (add_to_head p)) (fun _ s' => Q (op_out op data bs x, if want then ce_data e else dptr) s')
      (touch p a e3 d s)) as Hland.
  { intros w e3 Hs3 Hp3 Hn3 Hinc. destruct (list_elem_of_split _ _ Hpf) as (f1 & f2 & Hsplit).
    eapply (land_st w _ (g_nl g) (g_ll g) f1 p f2).
    { apply (lists_of_ent s _ _ _ p e e3); [done|congruence|congruence|]. unfold lists_of. rewrite <- Hsplit. apply Hi. }
    intros s' (Hsr & Hst & Hbf) Hl.
    destruct (only_ent_strip p e3 (ces s) _ (ces s') (only_ent_insert p e3 (ces s)) Hst) as (e4 & Ho & Hs4).
    rewrite Hs3 in Hs4. assert (strip e4 = strip (ce_set_lock (match w with Normal => 0 | Locked => 1 end) (op_ent op e1))) as Hs by done.
    apply strip_fields in Hs as (S1 & S2 & S3 & S4 & S5 & S6 & S7 & S8).
    assert (forall f, f = ce_dev \/ f = ce_block_num \/ f = ce_bsize -> f (op_ent op e1) = f e1) as Hf1.
    { intros f Hf. unfold op_ent. destruct (asks op CACHE_READ); [done|]. by destruct Hf as [->|[->| ->]]. }
    assert (forall f, f = ce_data \/ f = ce_clone \/ f = ce_func -> f (op_ent op e1) = f e1) as Hf2.
    { intros f Hf. unfold op_ent. destruct (asks op CACHE_READ); [done|]. by destruct Hf as [->|[->| ->]]. }
    cbn in S1, S2, S3, S4, S5, S6, S7, S8. rewrite Hf1 in S1, S2, S3 by auto. rewrite Hf2 in S5, S6, S8 by auto. rewrite Eo.
    eapply (HQ _ s').
    - eapply (pend_put w [] c p cl [] [] g s s' e e4 a x d f1 f2); try done; [by intros ?%elem_of_nil|by destruct Hsr; split|by rewrite S5| |].
      + unfold is_busy in *. by rewrite S4.
      + unfold is_dirty in *. by rewrite S4.
    - split; cbn; [intros k; by rewrite <- Ed|done| |].
      + intros k. rewrite S7, Hinc. destruct (decide (k = c)) as [->|]; lia.
      + rewrite Hinc. destruct w; cbn; rewrite ?len_app; unfold len; cbn; lia.
    - by apply near_put.
    - apply (others_st_ent p e4 s s' a d); [|done|by right].
      intros q y Hq Hy Hya. apply Hq. by eapply (mo_inj _ _ _ (iv_mem _ _ _ _ _ _ Hi)).
    - unfold ptr_ok. destruct want; [|done]. exists p, e4. split; [apply lookup_insert_eq|]. split; [apply Ho|]. by rewrite S5. }
  assert (touch p a (op_ent op e1) d (set_ces (<[p := e1]> (ces s)) s) = touch p a (op_ent op e1) d s) as ->.
  { unfold touch. cbn. by rewrite insert_insert_eq. }
  wp_step. unfold lock_inc in Hland. destruct (asks op CACHE_LOCKED) eqn:Elk.
  - wp_step. eapply upd_ent_wp; [apply lookup_insert_eq|].
    assert (set_ces (<[p := ce_set_lock (ce_lock (op_ent op e1) + 1) (op_ent op e1)]> (ces (touch p a (op_ent op e1) d s)))
      (touch p a (op_ent op e1) d s) = touch p a (ce_set_lock (ce_lock (op_ent op e1) + 1) (op_ent op e1)) d s) as ->.
    { unfold touch. cbn. by rewrite insert_insert_eq. }
    eapply wp_mono; [apply (Hland Locked); try done; unfold op_ent; destruct (asks op CACHE_READ); done|].
    intros [] s' H. wp_step. exact H.
  - eapply wp_mono; [apply (Hland Normal); try done; unfold op_ent; destruct (asks op CACHE_READ); done|].
    intros [] s' H. wp_step. exact H.
Qed.
(** A request on [n] blocks from [b] on. *)
Record transferred (op : Z) (data : option (list byte)) (b n : Z) (g g' : ghost) : Prop := {
  tr_L : forall k, g_L g' k =
    if decide (b <= k < b + n) then op_data op (drop_data ((k - b) * bs) data) bs (g_L g k) else g_L g k;
  tr_un : forall k, k ∈ g_un g' -> k ∈ g_un g;
  tr_pin : forall k, g_pin g' k = g_pin g k + (if decide (b <= k < b + n) then lock_inc op else 0);
  tr_ll : len (g_ll g') <= len (g_ll g) + n * lock_inc op;
}.

Lemma transferred_0 op data b g g' :
  same_view g g' -> transferred op data b 0 g g'.
Proof.
  intros [E1 E2 E3 E4]. split.
  - intros k. by rewrite decide_False by lia.
  - by rewrite E2.
  - intros k. rewrite decide_False by lia. by rewrite E3, Z.add_0_r.
  - rewrite E4. lia.
Qed.

Lemma transferred_1 op data c g g' : settled op data c g g' -> transferred op data c 1 g g'.
Proof.
  intros [E1 E2 E3 E4]. split.
  - intros k. rewrite E1. destruct (decide (k = c)) as [->|Hne].
    + rewrite decide_True by lia. by rewrite Z.sub_diag, Z.mul_0_l, drop_data_0.
    + by rewrite decide_False by lia.
  - done.
  - intros k. rewrite E3. destruct (decide (k = c)), (decide (c <= k < c + 1)); done || lia.
  - lia.
Qed.

Lemma transferred_app op data b n1 n2 g1 g2 g3 :
  0 <= n1 -> 0 <= n2 -> transferred op data b n1 g1 g2 ->
  transferred op (drop_data (n1 * bs) data) (b + n1) n2 g2 g3 ->
  transferred op data b (n1 + n2) g1 g3.
Proof.
  pose proof CG as [_ Hbs _]. intros Hn1 Hn2 [A1 A2 A3 A4] [B1 B2 B3 B4]. split.
  - intros k. rewrite B1, A1. destruct (decide (b <= k < b + n1)).
    + rewrite decide_False by lia. by rewrite decide_True by lia.
    + destruct (decide (b + n1 <= k < b + n1 + n2)); [|by rewrite decide_False by lia].
      rewrite decide_True by lia. rewrite drop_data_drop by nia. f_equal. f_equal. lia.
  - auto.
  - intros k. rewrite B3, A3. destruct (decide (b <= k < b + n1)), (decide (b + n1 <= k < b + n1 + n2)),
      (decide (b <= k < b + (n1 + n2))); lia.
  - lia.
Qed.

Lemma transferred_view op data b n g1 g2 g3 : same_view g1 g2 -> transferred op data b n g2 g3 -> transferred op data b n g1 g3.
Proof.
  intros [E1 E2 E3 E4] [A1 A2 A3 A4]. split.
  - intros k. by rewrite A1, E1.
  - by rewrite <- E2.
  - intros k. by rewrite A3, E3.
  - by rewrite <- E4.
Qed.
Lemma sized_respects : respects sized.
Proof. intros e e' d (_ & _ & E3 & _)%strip_fields [H1 H2]. split; [congruence|done]. Qed.
Lemma filled_respects x : respects (filled x).
Proof. intros e e' d (_ & _ & E3 & _)%strip_fields [H1 H2]. split; [congruence|done]. Qed.

Lemma settle_ents_wp b l g s op data num want out dptr cur (Q : list byte * option Z -> cst -> Prop) :
  pending (claims b l) [] [] g s -> NoDup l -> op_ok op data num bs want -> len l <= num -> 0 < len l ->
  (want = true -> cur = 1) ->
  (forall p, p ∈ l -> has s p sized) ->
  (asks op CACHE_READ = true -> forall i p, l !! i = Some p -> has s p (filled (g_L g (b + Z.of_nat i)))) ->
  (forall g' s' dptr', pending [] [] [] g' s' -> transferred op data b (len l) g g' -> near b g g' ->
     ptr_ok want g' s' b dptr dptr' ->
     Q (out ++ op_outs op data bs b (length l) (g_L g), dptr') s') ->
  wp (settle_ents l cur dev b data bs op want out dptr) Q s.
Proof.
  pose proof CG as [_ Hbs _]. revert b g s data num out dptr.
  induction l as [|p l IH]; intros b g s data num out dptr Hp Hnd Hop Hln Hl1 Hcur Hsz Hfi HQ; [unfold len in Hl1; cbn in Hl1; lia|].
  apply NoDup_cons in Hnd as [Hpl Hnd]. cbn [settle_ents claims] in *. rewrite len_cons in *.
  wp_step. eapply settle_wp; [exact Hp|exact Hop|lia|apply Hsz, elem_of_cons; by left| |].
  { intros Hr. specialize (Hfi Hr 0%nat p eq_refl). by replace (b + Z.of_nat 0) with b in Hfi by lia. }
  intros g1 s1 dptr1 Hp1 Hst Hn1 Ho Hptr.
  assert (bool_decide (data = None) && negb (cur =? 1) = false) as ->.
  { rewrite <- (oo_want _ _ _ _ _ Hop). destruct want; [|done]. by rewrite Hcur. }
  destruct l as [|p2 l].
  { cbn [settle_ents]. wp_step. cbn [op_outs length] in HQ. rewrite app_nil_r in HQ. eapply HQ; [exact Hp1|by apply transferred_1|done|done]. }
  rewrite len_cons in Hln. pose proof (len_nonneg l).
  assert (want = false) as ->.
  { destruct want; [|done]. pose proof (oo_want _ _ _ _ _ Hop) as Hw. symmetry in Hw. apply bool_decide_eq_true in Hw.
    pose proof (oo_none _ _ _ _ _ Hop Hw). lia. }
  pose proof (op_ok_drop op data num bs false 1 Hop ltac:(lia) ltac:(lia)) as Hop1. rewrite Z.mul_1_l in Hop1.
  eapply (IH (b + 1) g1 s1 _ (num - 1)); [exact Hp1|done|exact Hop1|rewrite len_cons; lia|rewrite len_cons; lia|done| | |].
  - intros q Hq. apply (has_others_st p q s); [apply sized_respects|done|by intros ->|]. apply Hsz, elem_of_cons. by right.
  - intros Hr i q Hi. rewrite (st_L _ _ _ _ _ Hst), decide_False by lia.
    apply (has_others_st p q s); [apply filled_respects|done| |].
    + intros ->. apply Hpl. by eapply list_elem_of_lookup_2.
    + specialize (Hfi Hr (S i) q Hi). by replace (b + Z.of_nat (S i)) with (b + 1 + Z.of_nat i) in Hfi by lia.
  - intros g2 s2 dptr2 Hp2 Htr Hn2 Hptr2. rewrite <- app_assoc.
    rewrite (op_outs_ext _ _ _ _ _ _ (g_L g)).
    2: { intros k Hk. by rewrite (st_L _ _ _ _ _ Hst), decide_False by lia. }
    eapply (HQ g2 s2 dptr2); [done| | |].
    + apply (transferred_app op data b 1 (len (p2 :: l)) g g1 g2); [lia|rewrite len_cons; lia|by apply transferred_1|by rewrite Z.mul_1_l].
    + apply (near_trans b g g1); [done|]. destruct Hn2 as [D1 D2 D3]. split; [|done|done].
      intros k Hk. destruct (D1 k Hk); [by left|right; lia].
    + cbn in *. congruence.
Qed.
End fill.
