(* ===== verification/CacheFetch.v ===== *)
(** * CacheFetch: a miss as a whole (cache.c)

    The steps of CacheMiss.v and CacheFill.v put together: [io_miss] brings
    in the missing blocks of a request and does the request on them. *)

From S2P Require Import Prelude Bytes Host Device HashTable CacheList Cache CacheIo CacheInv CacheMiss CachePut CacheFill.
Local Open Scope Z_scope.

Section fetch.
Context {dev bs N : Z} {CG : CacheGeom dev bs N}.
Abbreviation inv := (CacheInv.inv dev bs N).
Abbreviation has := CacheMiss.has.
Abbreviation sized := (CacheMiss.sized (bs := bs)).
Abbreviation emptied := (CacheMiss.emptied (bs := bs)).
Abbreviation refillable := (CacheMiss.refillable (bs := bs)).
Abbreviation pending_at h := (CacheFill.pending_at (dev := dev) (bs := bs) (N := N) (held := h)).

(** No operation is under way. *)
Record quiet (g : ghost) : Prop := {
  qt_fl : g_fl g = [];
  qt_busy : g_busy g = [];
  qt_x : g_x g = ∅;
  qt_iov : g_iov g = false;
}.

(** ** Taking entries *)

(** An entry that is new, or the copy of a block. *)
Definition owned (g : ghost) (s : cst) (p : Z) : Prop :=
  exists e, ces s !! p = Some e /\
    (ce_dev e = -1 /\ ce_bsize e <> bs /\ is_dirty e = false /\ (forall b, g_vm g !! b <> Some p) \/
     ce_dev e = dev /\ g_vm g !! ce_block_num e = Some p).

(** The entries are off the lists, busy, and entered under the new blocks. *)
Record claimed (b num : Z) (ents : list Z) (nd : Z) (g g1 : ghost) (s1 : cst) : Prop := {
  cm_inv : inv true g1 s1;
  cm_view : same_view g g1;
  cm_vm : g_vm g1 = g_vm g;
  cm_iov : g_iov g1 = g_iov g;
  cm_iova : g_iova g1 = g_iova g;
  cm_busy : g_busy g1 = [];
  cm_nodup : NoDup ents;
  cm_len : num <= len ents <= NUM_FLUSH_BLOCKS;
  cm_fl : forall p, p ∈ g_fl g1 <-> p ∈ ents;
  cm_x : g_x g1 = claim_keys (dev := dev) b (take (Z.to_nat num) ents) ∅;
  cm_owned : forall p, p ∈ ents -> owned g s1 p;
  cm_extra : forall p, p ∈ drop (Z.to_nat num) ents -> exists c, g_vm g !! c = Some p;
  cm_nd : 0 <= nd;
  cm_dirty : nd = 0 -> forall p e, p ∈ ents -> ces s1 !! p = Some e -> is_dirty e = false;
}.

Lemma owned_sim g s s' p : sim s s' -> is_Some (ces s' !! p) -> owned g s p -> owned g s' p.
Proof.
  intros [_ Hs] [e' He'] (e & He & Ho). destruct (Hs p e' He') as (e0 & He0 & Hsb). assert (e0 = e) as -> by congruence.
  exists e'. split; [done|]. destruct Hsb as (-> & -> & -> & _ & _ & _ & ->). done.
Qed.

Lemma owned_new g s p : fresh_ent s p -> (forall b, g_vm g !! b <> Some p) -> owned g s p.
Proof.
  pose proof CG as [_ Hbs _]. intros (e & He & H1 & H2 & H3 & _) Hv. exists e. split; [done|]. left. split_and!; try done; [lia|].
  unfold is_dirty. by rewrite H3.
Qed.

Lemma owned_listed held g s p : inv held g s -> p ∈ g_nl g ++ g_ll g -> owned g s p.
Proof.
  intros Hi Hp. destruct (iv_res _ _ _ _ _ _ Hi p Hp) as [b Hb].
  destruct (co_valid _ _ _ _ _ _ _ _ _ _ (iv_content _ _ _ _ _ _ Hi) b p Hb) as (_ & e & He & (H1 & H2 & _) & _).
  exists e. split; [done|]. right. by rewrite H2.
Qed.

(** Extra entries are never new: those come first when sorted. *)
Lemma drop_not_new (l news picks : list Z) n (D : Z -> Z) :
  l ≡ₚ news ++ picks -> NoDup (news ++ picks) -> (forall p, p ∈ news -> D p = -1) -> (forall p, p ∈ picks -> 0 <= D p) ->
  (forall p q, p ∈ take n l -> q ∈ drop n l -> D p <= D q) -> (length news <= n)%nat ->
  forall p, p ∈ drop n l -> p ∈ picks.
Proof.
  intros Hl Hnd Hn Hp Hs Hlen p Hin.
  assert (p ∈ news ++ picks) as Hpl by (rewrite <- Hl; by apply elem_of_drop_z in Hin).
  apply elem_of_app in Hpl as [Hpn|?]; [|done]. exfalso.
  assert (NoDup l) as Hndl by (by rewrite Hl).
  assert (forall q, q ∈ take n l -> q ∈ news) as Ht.
  { intros q Hq. pose proof (Hs q p Hq Hin) as Hle. rewrite (Hn p Hpn) in Hle.
    assert (q ∈ news ++ picks) as H by (rewrite <- Hl; by apply elem_of_take_z in Hq).
    apply elem_of_app in H as [?|Hqp]; [done|]. specialize (Hp q Hqp). lia. }
  rewrite <- (take_drop n l) in Hndl. apply NoDup_app in Hndl as (Hnt & Hdis & _).
  assert (NoDup (p :: take n l)) as Hnd2 by (constructor; [|done]; intros Hq; by apply (Hdis p Hq)).
  assert ((p :: take n l) ⊆+ news) as Hsub.
  { apply NoDup_submseteq; [done|]. intros q [->|Hq]%elem_of_cons; auto. }
  apply submseteq_length in Hsub. cbn [length] in Hsub. rewrite length_take in Hsub.
  assert (n < length l)%nat; [|lia]. destruct (Nat.lt_ge_cases n (length l)); [done|].
  rewrite drop_ge in Hin by lia. by apply elem_of_nil in Hin.
Qed.
Lemma gotten_nodup num g news picks s :
  gotten (dev := dev) (bs := bs) (N := N) num g news picks s ->
  NoDup (news ++ picks) /\ (forall p, p ∈ picks -> p ∈ g_nl g /\ p ∉ g_ll g).
Proof.
  intros [Hi _ (rest & Hr) _ _]. pose proof (lo_nodup _ _ _ _ _ _ (iv_lists _ _ _ _ _ _ Hi)) as Hnd. cbn in Hnd. rewrite Hr in Hnd.
  split.
  - assert (news ++ picks ++ (rest ++ g_ll g) ≡ₚ (picks ++ rest) ++ g_ll g ++ news) as Hperm by solve_Permutation.
    rewrite <- Hperm, app_assoc in Hnd. by apply NoDup_app in Hnd as [? _].
  - intros p Hp. split; [rewrite Hr; apply elem_of_app; by left|]. intros Hl.
    apply NoDup_app in Hnd as (_ & Hd & _). apply (Hd p); [apply elem_of_app; by left|apply elem_of_app; by left].
Qed.

Lemma take_claim_wp {A} b num g s (k : list Z -> Z -> CM A) (Q : A -> cst -> Prop) :
  inv true g s -> quiet g -> 1 <= num <= NUM_FLUSH_BLOCKS -> len (g_ll g) <= 8 ->
  (forall i, 0 <= i < num -> hmap dev g !! (dev, b + i) = None) -> 0 <= b /\ b + num <= N ->
  (forall ents nd g1 s1, claimed b num ents nd g g1 s1 -> wp (k ents nd) Q s1) ->
  wp (ents ← get_ents num NUM_FLUSH_BLOCKS bs;
      if len ents <? num then hang else
      ents ← qsort_ents ents;
      nd ← claim_ents ents num dev b 0;
      k ents nd) Q s.
Proof.
  pose proof CG as [Hdev Hbs _]. intros Hi [Hfl Hbu Hgx Hiov] Hnum Hll Hh HbN HQ.
  wp_step. apply (get_ents_wp num g s _ Hi Hbu Hfl Hnum Hll). intros s1 news picks Hgot.
  destruct (gotten_nodup _ _ _ _ _ Hgot) as [Hnd Hpk]. pose proof Hgot as [Hi1 Hfr (rest & Hrest) Hlen Hnews].
  set (h := g_set_busy picks (g_set_nf (g_nl g) news g)) in *.
  replace (len (news ++ picks) <? num) with false by (symmetry; apply Z.ltb_ge; lia).
  wp_step. apply qsort_wp.
  { intros p Hp. apply (inv_some true h s1 p Hi1). unfold h. cbn. rewrite !elem_of_app.
    apply elem_of_app in Hp as [Hp|Hp]; [tauto|]. destruct (Hpk p Hp). tauto. }
  intros ents Hperm Hsorted. assert (NoDup ents) as Hnde by (by rewrite Hperm).
  assert (forall p, p ∈ ents -> p ∈ news \/ p ∈ picks) as Hin by (intros p; by rewrite Hperm, elem_of_app).
  wp_step. apply (claim_wp ents h s1 num b 0); [exact Hi1|exact Hnde| |intros i Hi' _; by apply Hh|done|lia|].
  { intros p [Hp|Hp]%Hin; [left|right; by apply Hpk]. split; [done|]. destruct (Hfr p Hp) as (e & He & H1 & _ & H3 & _).
    exists e. split_and!; try done. unfold is_dirty. by rewrite H3. }
  intros s2 nl fl nd Hi2 Hnl Hfl2 Hsim Hnd0 Hcl.
  pose proof (inv_set_busy true _ s2 [] Hi2) as Hi3. cbn in Hi3.
  assert (forall p, p ∈ ents -> is_Some (ces s2 !! p)) as Hsome.
  { intros p Hp. apply (inv_some true _ s2 p Hi2). cbn. rewrite !elem_of_app, Hfl2. tauto. }
  assert (forall p, p ∈ news -> owned g s1 p) as Hon.
  { intros p Hp. apply owned_new; [auto|]. intros c Hc. unfold h in Hi1.
    assert (p ∈ g_fl h) as Hpf by done.
    pose proof (copy_listed dev bs N true g s c p Hi Hfl Hc) as Hl. exfalso.
    apply (float_not_listed true h s1 p Hi1 Hpf). exact Hl. }
  assert (forall p, p ∈ picks -> owned g s1 p) as Hop.
  { intros p Hp. apply (owned_listed true h s1 p Hi1). cbn. apply elem_of_app. left. by apply Hpk. }
  eapply (HQ ents nd _ s2). split; [apply Hi3| | | | | | | | | | | | |]; cbn.
  - intros q Hq. split; [by intros ?%elem_of_nil|]. intros Hqp. exfalso. apply elem_of_app in Hq as [Hq|Hq].
    + apply Hnl in Hq as [_ Hq]. apply Hq. rewrite Hperm. apply elem_of_app. by right.
    + by apply (Hpk q Hqp).
  - done.
  - done.
  - done.
  - done.
  - done.
  - done.
  - unfold len in *; by rewrite Hperm.
  - intros p. rewrite Hfl2. split; [intros [Hp|Hp]; [|done]|tauto]. rewrite Hperm. apply elem_of_app. by left.
  - by rewrite Hgx.
  - intros p Hp. eapply owned_sim; [exact Hsim|by apply Hsome|]. destruct (Hin p Hp); auto.
  - intros p Hp. assert (p ∈ picks) as Hpp.
    { revert p Hp. apply (drop_not_new ents news picks _ (fun p => match ces s1 !! p with Some e => ce_dev e | None => 0 end)).
      - done.
      - done.
      - intros p Hp. destruct (Hfr p Hp) as (e & -> & H & _). done.
      - intros p Hp. destruct (Hop p Hp) as (e & -> & [(_ & _ & _ & Hv)|[-> _]]); [|lia].
        exfalso. destruct (iv_res _ _ _ _ _ _ Hi p) as [c Hc]; [apply elem_of_app; left; by apply Hpk|]. by apply (Hv c).
      - intros p q Hp Hq. destruct (inv_some true h s1 p Hi1) as [e He].
        { cbn. rewrite !elem_of_app. apply elem_of_take_z in Hp. destruct (Hin p Hp) as [?|?%Hpk]; tauto. }
        destruct (inv_some true h s1 q Hi1) as [e' He'].
        { cbn. rewrite !elem_of_app. apply elem_of_drop_z in Hq. destruct (Hin q Hq) as [?|?%Hpk]; tauto. }
        rewrite He, He'. by eapply Hsorted.
      - unfold len in Hnews. lia. }
    apply (iv_res _ _ _ _ _ _ Hi p). apply elem_of_app. left. by apply Hpk.
  - done.
  - intros ->. by apply Hcl.
Qed.
(** ** Leaving the old contents *)

(** Clean entries, new or copies of blocks. *)
Definition spare (g : ghost) (s : cst) (p : Z) : Prop :=
  owned g s p /\ forall e, ces s !! p = Some e -> is_dirty e = false.

Lemma claim_keys_claims b l x k q :
  claim_keys (dev := dev) b l x !! k = Some q -> (exists c, k = (dev, c) /\ (c, q) ∈ claims b l) \/ x !! k = Some q.
Proof.
  rewrite claim_keys_lookup. destruct k as [d c]. cbn. destruct (decide (d = dev /\ b <= c)) as [[-> Hb]|]; [|by right].
  destruct (l !! Z.to_nat (c - b)) as [p|] eqn:E; [|by right]. intros [= ->]. left. exists c. split; [done|]. by apply elem_of_claims.
Qed.

Lemma claims_claim_keys b l x c q :
  (c, q) ∈ claims b l -> claim_keys (dev := dev) b l x !! (dev, c) = Some q.
Proof. intros [Hb Hl]%elem_of_claims. rewrite claim_keys_lookup. cbn. by rewrite decide_True, Hl. Qed.

Lemma forget_pending held b num ents nd g g1 s1 s2 :
  claimed b num ents nd g g1 s1 -> 0 <= b -> 0 <= num -> b + num <= N -> inv held g1 s2 -> (forall p, p ∈ ents -> spare g s2 p) ->
  exists g2, pending_at held (claims b (take (Z.to_nat num) ents)) (take (Z.to_nat num) ents)
      (drop (Z.to_nat num) ents) g2 s2 /\ same_view g g2 /\ near b g g2 /\
    (forall p, p ∈ take (Z.to_nat num) ents -> has s2 p refillable).
Proof.
  intros Hc Hb Hn0 HbN Hi Hsp. pose proof Hc as [Hi1 Hview Hvm Hiov Hiova Hbu Hnd Hlen Hfl Hx _ Hex _ _].
  set (mine := take (Z.to_nat num) ents) in *. set (extra := drop (Z.to_nat num) ents) in *.
  pose proof (take_drop (Z.to_nat num) ents) as Htd. fold mine extra in Htd.
  rewrite <- Htd in Hnd. apply NoDup_app in Hnd as (Hndm & Hdis & Hnde).
  assert (forall p, p ∈ mine -> p ∈ ents) as Hmine by (intros p; apply elem_of_take_z).
  destruct (forget_all mine held g1 s2 Hi) as (vm & x & Hi2 & H1 & H2 & H3 & H4); [| |exact Hndm|].
  { intros p Hp. by apply Hfl, Hmine. }
  { intros p Hp. destruct (Hsp p (Hmine p Hp)) as [(e & He & Ho) Hcl]. exists e. rewrite Hvm. split_and!; [done|by apply Hcl|].
    destruct Ho as [(? & _ & _ & ?)|?]; [left|right]; done. }
  exists (g_set_vx vm x g1). rewrite Hvm in *. split_and!.
  - split; cbn.
    + exact Hi2.
    + done.
    + by rewrite claims_snd.
    + intros c p Hcp. assert (p ∈ mine) as Hp.
      { apply elem_of_claims in Hcp as [_ Hcp]. by eapply list_elem_of_lookup_2. }
      split; [split; [by apply Hfl, Hmine|]|split].
      * cbn. intros b' Hb'. apply H1 in Hb' as [_ Hb']. done.
      * apply H2. rewrite Hx. by apply claims_claim_keys.
      * apply elem_of_claims in Hcp as [Hbc Hcp]. apply lookup_lt_Some in Hcp. unfold mine in Hcp. rewrite length_take in Hcp. lia.
    + intros p Hp. split; [auto|]. intros e He Hed. destruct (Hsp p (Hmine p Hp)) as [(e0 & He0 & Ho) _].
      assert (e0 = e) as -> by congruence. destruct Ho as [[? _]|[? Hv]]; [done|]. split; [done|].
      intros Hin. apply list_elem_of_fmap in Hin as ([c q] & E & Hcq). cbn in E.
      assert (g_x g1 !! (dev, ce_block_num e) = Some q) as Hq by (rewrite Hx, E; by apply claims_claim_keys).
      rewrite (iv_x _ _ _ _ _ _ Hi (ce_block_num e) p) in Hq; [done|]. by rewrite Hvm.
    + intros k q Hkq. destruct (H3 k q Hkq) as [Hk|(Hq & e & He & Hed & ->)].
      * rewrite Hx in Hk. apply claim_keys_claims in Hk as [?|Hk]; [by left|]. by rewrite lookup_empty in Hk.
      * right. split; [done|]. by exists e.
    + intros p Hp. apply Hfl in Hp. rewrite claims_snd. rewrite <- Htd in Hp. by apply elem_of_app in Hp.
    + intros p Hp. split; [apply Hfl; by apply elem_of_drop_z in Hp|]. destruct (Hex p Hp) as [c Hc']. exists c. apply H1.
      split; [done|]. intros Hpm. by apply (Hdis p).
  - by destruct Hview.
  - split; [|done|done]. cbn. intros k [p Hk]. left. exists p. by apply H1.
  - intros p Hp. destruct (Hsp p (Hmine p Hp)) as [(e & He & Ho) _]. exists e. split; [done|].
    intros Hbs. destruct Ho as [(_ & ? & _)|[_ Hv]]; [done|].
    destruct (copy_len _ _ _ held g1 s2 p (ce_block_num e) e Hi) as (_ & (_ & _ & _ & a & Ha & Hba) & HL & _); [by rewrite Hvm|done|].
    rewrite Ha. cbn. rewrite Hba. eauto.
Qed.

Lemma pend_kept held held' cl olds extra g s s' :
  pending_at held cl olds extra g s -> inv held' g s' -> kept s s' -> pending_at held' cl olds extra g s'.
Proof.
  intros [P1 P2 P3 P4 P5 P6 P7 P8] Hi Hk. split; try done.
  - intros p Hp. destruct (P5 p Hp) as [Ho Hn]. split; [by eapply kept_old_key|]. intros e He Hd.
    destruct (Hk p e He) as (e0 & He0 & E1 & E2 & _). rewrite E1, E2 in *. by apply Hn.
  - intros k q Hkq. destruct (P6 k q Hkq) as [?|(Hq & e & He & Hd & ->)]; [by left|]. right. split; [done|].
    assert (is_Some (ces s' !! q)) as [e' He'].
    { apply (lo_dom _ _ _ _ _ _ (iv_lists _ _ _ _ _ _ Hi)), (lo_dom _ _ _ _ _ _ (iv_lists _ _ _ _ _ _ P1)). by exists e. }
    destruct (Hk q e' He') as (e0 & He0 & E1 & E2 & _). exists e'. split; [done|]. rewrite E1, E2.
    assert (e0 = e) as -> by congruence. done.
Qed.

Lemma spare_flushed g s s' l p :
  flushed l s s' -> p ∈ l -> owned g s p -> spare g s' p.
Proof.
  intros Hf Hp (e & He & Ho). pose proof Hf as [Hb Hq]. specialize (Hq p). rewrite decide_True, He in Hq by done. cbn in Hq.
  split; [|intros e' He'; by eapply flushed_clean]. exists (clear_flags CE_DIRTY e). split; [done|].
  rewrite dirty_clear_dirty. cbn. destruct Ho as [(? & ? & ? & ?)|?]; [left|right]; done.
Qed.

Lemma flushable_owned held g g1 s p :
  inv held g1 s -> g_vm g1 = g_vm g -> p ∈ g_fl g1 -> owned g s p -> flushable dev g1 s p.
Proof.
  pose proof CG as [Hdev _ _]. intros Hi Hv Hp (e & He & Ho). exists e. split; [done|]. split; [by eapply (float_lock held)|].
  rewrite Hv. destruct Ho as [(? & _ & ? & _)|?]; [left; split; [done|lia]|by right].
Qed.
(** ** The steps between the locks *)

Lemma flush_claimed_wp held b num ents nd g g1 s1 s (Q : Z -> cst -> Prop) :
  claimed b num ents nd g g1 s1 -> g_iov g = false -> inv held g1 s -> ces s = ces s1 -> bufs s = bufs s1 ->
  (forall s', inv held g1 s' -> (forall p, p ∈ ents -> spare g s' p) -> Q 0 s') ->
  wp (if negb (nd =? 0) then flush_ents ents else mret 0) Q s.
Proof.
  intros Hc Hiov Hi Ec Eb HQ. pose proof Hc as [_ _ Hvm Hio _ _ _ _ Hfl _ Hown _ _ Hdi].
  assert (forall p, p ∈ ents -> owned g s p) as Hown'.
  { intros p Hp. destruct (Hown p Hp) as (e & He & Ho). exists e. by rewrite Ec. }
  apply wp_if; intros Hnd; zcases.
  - eapply (flush_ents_wp dev bs N held g1); [done|congruence| |].
    + intros p Hp. eapply flushable_owned; [done|done|by apply Hfl|auto].
    + intros s' Hi' Hf. apply HQ; [done|]. intros p Hp. by eapply spare_flushed; eauto.
  - wp_step. apply HQ; [done|]. intros p Hp. split; [auto|]. intros e. rewrite Ec. by apply Hdi.
Qed.

(** The buffers of the claimed entries get the size of a block. *)
Lemma resize_wp held cl olds extra mine g s (Q : Z -> cst -> Prop) :
  pending_at held cl olds extra g s -> NoDup mine -> (forall p, p ∈ mine -> holds_none g p) ->
  (forall p, p ∈ mine -> has s p refillable) ->
  (forall s', pending_at held cl olds extra g s' -> kept s s' -> (forall p, p ∈ mine -> has s' p sized) -> Q 0 s') ->
  wp (_ ← each (free_wrong_size bs) mine; alloc_data bs mine) Q s.
Proof.
  intros Hp Hnd Hh Hr HQ. wp_step.
  eapply (each_has _ refillable emptied held g); [|exact Hnd|apply Hp|exact Hr|].
  { intros p s' Q' Hpm Hi' Hrp HQ'. eapply free_wrong_size_wp; [exact Hi'|by apply Hh|exact Hrp|exact HQ']. }
  intros s1 Hi1 Hk1 He1. eapply (alloc_data_wp held g); [exact Hi1|exact Hnd|exact Hh|exact He1|].
  intros s2 Hi2 Hk2 _ Hs2. assert (kept s s2) as Hk by (by eapply kept_trans). apply HQ; [|done|done]. by eapply pend_kept.
Qed.

(** Reading, and taking the lock again. *)
Lemma refill_wp (io : bool) op b num ents extra g s (Q : Z -> cst -> Prop) :
  pending_at (negb io) (claims b ents) ents extra g s -> 0 <= b -> b + len ents <= N -> 0 < len ents <= NUM_FLUSH_BLOCKS ->
  g_iov g = false -> (asks op CACHE_READ = true -> io = true) -> num = len ents ->
  (forall p, p ∈ ents -> has s p sized) ->
  (forall s', pending_at true (claims b ents) ents extra g s' -> kept s s' -> (forall p, p ∈ ents -> has s' p sized) ->
     (asks op CACHE_READ = true -> forall i p, ents !! i = Some p -> has s' p (filled (bs := bs) (g_L g (b + Z.of_nat i)))) -> Q 0 s') ->
  wp (if io then err ← (if asks op CACHE_READ then read_into_ents dev b ents bs else mret 0); _ ← LOCK_bc; mret err
      else mret 0) Q s.
Proof.
  intros Hp Hb HbN Hlen Hiov Hrio -> Hsz HQ. destruct io; cbn [negb] in *.
  2: { wp_step. apply HQ; [done|apply kept_refl|done|]. intros Hr. by specialize (Hrio Hr). }
  pose proof (pe_nodup _ _ _ _ _ Hp) as Hnd. rewrite claims_snd in Hnd.
  assert (forall s' s'', pending_at false (claims b ents) ents extra g s' -> inv true g s'' -> ces s'' = ces s' ->
    pending_at true (claims b ents) ents extra g s'') as Hup.
  { intros s' s'' Hp' Hi'' Ec. eapply pend_kept; [exact Hp'|done|by apply kept_same]. }
  wp_step. apply wp_if; intros Hr.
  - eapply (read_into_wp false g); [apply Hp|done|done| |done|done|done|done| |].
    + intros p Hpm. apply list_elem_of_lookup in Hpm as [i Hi].
      apply (pe_claim _ _ _ _ _ Hp (b + Z.of_nat i)). apply elem_of_claims. split; [lia|].
      by replace (Z.to_nat (b + Z.of_nat i - b)) with i by lia.
    + intros k Hk. destruct (lookup_lt_is_Some_2 ents (Z.to_nat (k - b))) as [p Hpk]; [unfold len in Hk; lia|].
      destruct (pe_claim _ _ _ _ _ Hp k p) as (_ & Hx & _); [apply elem_of_claims; split; [lia|done]|].
      apply eq_None_not_Some. intros [q Hq]. rewrite (iv_x _ _ _ _ _ _ (pe_inv _ _ _ _ _ Hp) k q Hq) in Hx. done.
    + intros s1 Hi1 Hk1 Hf. wp_step. eapply LOCK_bc_wp; [exact Hi1|]. intros s2 Hi2 Ec2 Eb2. wp_step.
      assert (forall i p, ents !! i = Some p -> has s2 p (filled (bs := bs) (g_L g (b + Z.of_nat i)))) as Hf2.
      { intros i p Hi. destruct (Hf i p Hi) as (e & He & HP). exists e. by rewrite Ec2, Eb2. }
      apply HQ; [|by eapply kept_trans; [exact Hk1|apply kept_same]| |done].
      * eapply Hup; [|done|exact Ec2]. by eapply pend_kept.
      * intros p Hpm. apply list_elem_of_lookup in Hpm as [i Hi]. destruct (Hf2 i p Hi) as (e & He & H1 & H2). exists e.
        split; [done|]. split; [done|]. eexists. split; [exact H2|].
        pose proof (lookup_lt_Some _ _ _ Hi). apply (co_len _ _ _ _ _ _ _ _ _ _ (iv_content _ _ _ _ _ _ Hi2)). unfold len in *. lia.
  - wp_step. wp_step. eapply LOCK_bc_wp; [apply Hp|]. intros s2 Hi2 Ec2 Eb2. wp_step.
    apply HQ; [by eapply Hup|by apply kept_same| |congruence].
    intros p Hpm. destruct (Hsz p Hpm) as (e & He & HP). exists e. by rewrite Ec2, Eb2.
Qed.
(** ** The whole miss *)

Lemma unlock_if_wp (io : bool) g s (Q : unit -> cst -> Prop) :
  inv true g s -> (forall s', inv (negb io) g s' -> ces s' = ces s -> bufs s' = bufs s -> Q tt s') ->
  wp (if io then UNLOCK_bc else mret tt) Q s.
Proof. intros Hi HQ. destruct io; [by eapply UNLOCK_bc_wp|]. wp_step. by apply HQ. Qed.

Lemma pend_done g s : pending_at true [] [] [] g s -> g_iov g = false -> inv true g s /\ quiet g.
Proof.
  intros Hp Hiov. split; [apply Hp|]. split; [|apply Hp| |done].
  - destruct (g_fl g) as [|p l] eqn:E; [done|]. destruct (pe_fl _ _ _ _ _ Hp p) as [H|H]; [rewrite E; apply elem_of_cons; by left|..];
      by apply elem_of_nil in H.
  - apply map_eq. intros k. rewrite lookup_empty. apply eq_None_not_Some. intros [q Hq].
    destruct (pe_all _ _ _ _ _ Hp k q Hq) as [(c & _ & H)|[H _]]; by apply elem_of_nil in H.
Qed.

Lemma io_miss_wp b data num op want dptr g s (Q : Z * Z * list byte * option Z -> cst -> Prop) :
  inv true g s -> quiet g -> len (g_ll g) <= 8 -> 0 <= b -> 1 <= num -> b + num <= N ->
  g_vm g !! b = None -> op_ok op data num bs want ->
  (forall g' s' n dptr', inv true g' s' -> quiet g' -> 1 <= n <= num ->
     transferred (bs := bs) op data b n g g' -> near b g g' -> ptr_ok want g' s' b dptr dptr' ->
     Q (0, n, op_outs op data bs b (Z.to_nat n) (g_L g), dptr') s') ->
  wp (io_miss dev b data num bs op want dptr) Q s.
Proof.
  pose proof CG as [Hdev Hbs HNb]. intros Hi Hq Hll Hb Hnum HbN Hv Hop HQ.
  unfold io_miss. wp_step. eapply count_missing_wp; [exact Hi|unfold NUM_FLUSH_BLOCKS; lia|lia|]. intros cur Hcur Hcn Hmiss.
  wp_step. eapply needed_blocks_wp; [exact Hi|lia|lia|]. intros nn Hnn HnN Hahead Hnr.
  eapply (take_claim_wp b nn g s); [exact Hi|exact Hq|lia|exact Hll| |lia|].
  { intros i Hi'. destruct (decide (i = 0)) as [->|]; [|destruct (decide (i < cur)); [apply Hmiss; lia|apply Hahead; lia]].
    rewrite Z.add_0_r, hmap_lookup, Hv, (qt_x g Hq). apply lookup_empty. }
  intros ents nd g1 s1 Hc. pose proof (cm_len _ _ _ _ _ _ _ Hc) as Hlen. cbv zeta.
  set (io := negb (nd =? 0) || asks op CACHE_READ). set (mine := take (Z.to_nat nn) ents).
  assert (len mine = nn) as Hlm by (unfold mine, len in *; rewrite length_take; lia).
  pose proof (qt_iov g Hq) as Hiov.
  wp_step. eapply unlock_if_wp; [apply Hc|]. intros s2 Hi2 Ec2 Eb2.
  wp_step. eapply flush_claimed_wp; [exact Hc|done|exact Hi2|done|done|]. intros s3 Hi3 Hsp.
  cbn [negb Z.eqb]. 
  destruct (forget_pending (negb io) b nn ents nd g g1 s1 s3 Hc) as (g2 & Hp3 & Hv3 & Hn3 & Hr3); [lia|lia|lia|exact Hi3|exact Hsp|].
  fold mine in Hp3, Hr3. set (extra := drop (Z.to_nat nn) ents) in *.
  assert (NoDup mine) as Hndm by (pose proof (pe_nodup _ _ _ _ _ Hp3) as H; by rewrite claims_snd in H).
  wp_step. eapply resize_wp; [exact Hp3|exact Hndm| |exact Hr3|].
  { intros p Hp. apply list_elem_of_lookup in Hp as [i Hi']. apply (pe_claim _ _ _ _ _ Hp3 (b + Z.of_nat i)).
    apply elem_of_claims. split; [lia|]. by replace (Z.to_nat (b + Z.of_nat i - b)) with i by lia. }
  intros s4 Hp4 Hk4 Hs4. cbn [negb Z.eqb].
  assert (g_iov g2 = false) as Hiov2 by (rewrite (nr_iov _ _ _ Hn3); done).
  wp_step. eapply (refill_wp io op b nn mine extra g2); [exact Hp4|done|lia|lia|done| |done|exact Hs4|].
  { intros Hr. unfold io. rewrite Hr. apply orb_true_r. }
  intros s5 Hp5 Hk5 Hs5 Hf5.
  assert (forall p, p ∈ mine -> forall e, ces s5 !! p = Some e -> is_dirty e = false) as Hcl5.
  { intros p Hp e He. destruct (kept_trans _ _ _ Hk4 Hk5 p e He) as (e3 & He3 & _ & _ & E & _).
    apply elem_of_take_z in Hp. destruct (Hsp p Hp) as [_ Hcl]. specialize (Hcl e3 He3). unfold is_dirty in *. by rewrite E. }
  wp_step. eapply (rename_wp cur b mine 0 [] extra g2); [by rewrite Z.add_0_r|exact Hndm|lia| |].
  { intros i p Hi' Hci. destruct (asks op CACHE_READ) eqn:Er.
    - destruct (Hf5 eq_refl i p Hi') as (e & He & Hfl). exists e. split; [done|]. rewrite Z.add_0_r. split; [|done].
      eapply Hcl5; [by eapply list_elem_of_lookup_2|done].
    - pose proof (lookup_lt_Some _ _ _ Hi'). specialize (Hnr eq_refl). unfold len in Hlm. lia. }
  intros g6 s6 Hp6 Hv6 Hn6 Hh6. rewrite Z.add_0_r, Z.sub_0_r in *. cbn [app] in Hp6.
  assert (NoDup ents) as Hnd by apply Hc. rewrite <- (take_drop (Z.to_nat nn) ents) in Hnd. fold mine extra in Hnd.
  apply NoDup_app in Hnd as (_ & Hdis & Hnde).
  wp_step. eapply put_backs_wp; [exact Hp6|exact Hnde|]. intros g7 s7 Hp7 Hv7 Hn7 Hh7. cbn [negb Z.eqb].
  replace (take (Z.to_nat cur) ents) with (take (Z.to_nat cur) mine) by (unfold mine; rewrite take_take; f_equal; lia).
  set (l := take (Z.to_nat cur) mine) in *. assert (len l = cur) as Hll' by (unfold l, len in *; rewrite length_take; lia).
  pose proof (take_drop (Z.to_nat cur) mine) as Htd. fold l in Htd. rewrite <- Htd in Hndm. apply NoDup_app in Hndm as (Hndl & Hdl & _).
  assert (forall p P, respects P -> p ∈ l -> has s5 p P -> has s7 p P) as Hh.
  { intros p P HR Hp HP. apply Hh7; [done| |apply Hh6; [done| |done]].
    - intros Hpe. apply (Hdis p); [|done]. by apply elem_of_take_z in Hp.
    - intros Hpd. by apply (Hdl p). }
  assert (same_view g g7) as Hv07 by (eapply same_view_trans; [exact Hv3|]; by eapply same_view_trans).
  assert (near b g g7) as Hn by (eapply near_trans; [exact Hn3|]; by eapply near_trans).
  wp_step. eapply (settle_ents_wp b l g7 s7 op data num want [] dptr cur); [exact Hp7|exact Hndl|exact Hop|lia|lia| | | |].
  { intros ->. pose proof (oo_want _ _ _ _ _ Hop) as Hw. symmetry in Hw. apply bool_decide_eq_true in Hw.
    pose proof (oo_none _ _ _ _ _ Hop Hw). lia. }
  { intros p Hp. apply Hh; [apply sized_respects|done|]. apply Hs5. by apply elem_of_take_z in Hp. }
  { intros Hr i p Hi'. apply Hh; [apply filled_respects|by eapply list_elem_of_lookup_2|].
    rewrite (sv_L _ _ Hv07), <- (sv_L _ _ Hv3). apply (Hf5 Hr). unfold l in Hi'. by apply lookup_take_Some in Hi' as [? _]. }
  intros g8 s8 dptr8 Hp8 Ht8 Hn8 Hptr. wp_step. cbn [app]. rewrite Hll' in Ht8.
  rewrite (op_outs_ext _ _ _ _ _ _ (g_L g)) by (intros k _; apply (sv_L _ _ Hv07)).
  replace (length l) with (Z.to_nat cur) by (unfold len in Hll'; lia).
  assert (near b g g8) as Hn' by (by eapply near_trans).
  destruct (pend_done g8 s8 Hp8) as [Hi8 Hq8]; [by rewrite (nr_iov _ _ _ Hn')|].
  apply (HQ g8 s8 cur dptr8); [done|done|lia|by eapply transferred_view|done|done].
Qed.
End fetch.
