(* ===== verification/CacheLoop.v ===== *)
(** * CacheLoop: requests on cached blocks, and whole requests (cache.c)

    [io_hit], the loop of [cache_block_io], transfers past the cache, and the
    operations on blocks a client holds. *)

From S2P Require Import Prelude Bytes Host Device HashTable CacheList Cache CacheIo CacheInv CacheMiss CachePut CacheFill CacheFetch.
Local Open Scope Z_scope.

(** ** An entry changes lists *)

(** The lists with [p] taken out between [l1] and [l2] of list [w] and put at
    the head of list [w']. *)
Definition moved (w w' : which) (l1 : list Z) (p : Z) (l2 nl ll : list Z) : list Z * list Z :=
  (on w' (fun l => l ++ [p]) Normal (on w (fun _ => l1 ++ l2) Normal nl),
   on w' (fun l => l ++ [p]) Locked (on w (fun _ => l1 ++ l2) Locked ll)).

Lemma moved_ok w w' l1 p l2 nl ll nl' ll' :
  NoDup (nl ++ ll) -> match w with Normal => nl | Locked => ll end = l1 ++ p :: l2 -> moved w w' l1 p l2 nl ll = (nl', ll') ->
  nl' ++ ll' ++ [] ≡ₚ nl ++ ll ++ [] /\ p ∈ nl' ++ ll' /\
  (forall q, q <> p -> (q ∈ nl' <-> q ∈ nl) /\ (q ∈ ll' <-> q ∈ ll)) /\
  match w' with Normal => p ∉ ll' | Locked => p ∈ ll' end /\
  len ll' = len ll + (match w' with Normal => 0 | Locked => 1 end) - (match w with Normal => 0 | Locked => 1 end).
Proof.
  intros Hnd E [= <- <-]. unfold len. destruct w; subst; cbn.
  - assert (p ∉ ll) as Hp.
    { intros Hp. apply NoDup_app in Hnd as (_ & Hd & _). apply (Hd p); [|done]. rewrite elem_of_app, elem_of_cons. tauto. }
    destruct w'; cbn; (split; [solve_Permutation|split; [|split; [|split]]]).
    + rewrite !elem_of_app, elem_of_cons. tauto.
    + intros q Hq. rewrite !elem_of_app, !elem_of_cons, elem_of_nil. tauto.
    + done.
    + lia.
    + rewrite !elem_of_app, elem_of_cons. tauto.
    + intros q Hq. rewrite !elem_of_app, !elem_of_cons, elem_of_nil. tauto.
    + rewrite elem_of_app, elem_of_cons. tauto.
    + rewrite length_app. cbn. lia.
  - assert ((p ∉ l1) /\ (p ∉ l2)) as [Hp1 Hp2].
    { apply NoDup_app in Hnd as (_ & _ & Hd). destruct (NoDup_mid l1 l2 p Hd) as (? & ? & _). done. }
    destruct w'; cbn; (split; [solve_Permutation|split; [|split; [|split]]]).
    + rewrite !elem_of_app, elem_of_cons. tauto.
    + intros q Hq. rewrite !elem_of_app, !elem_of_cons, elem_of_nil. tauto.
    + rewrite elem_of_app. tauto.
    + rewrite !length_app. cbn. lia.
    + rewrite !elem_of_app, elem_of_cons. tauto.
    + intros q Hq. rewrite !elem_of_app, !elem_of_cons, elem_of_nil. tauto.
    + rewrite !elem_of_app, elem_of_cons. tauto.
    + rewrite !length_app. cbn. lia.
Qed.

Section loop.
Context {dev bs N : Z} {CG : CacheGeom dev bs N}.
Abbreviation inv := (CacheInv.inv dev bs N).
Abbreviation transferred := (CacheFill.transferred (bs := bs)).

(** A block that is cached, between operations. *)
Record hit (held : bool) (g : ghost) (s : cst) (c p : Z) (e : cache_ent) (a : Z) : Prop := {
  ht_inv : inv held g s;
  ht_quiet : quiet g;
  ht_vm : g_vm g !! c = Some p;
  ht_ent : ces s !! p = Some e;
  ht_data : ce_data e = Some a;
}.

Lemma hit_of held g s c p : inv held g s -> quiet g -> g_vm g !! c = Some p -> exists e a, hit held g s c p e a.
Proof.
  intros Hi Hq Hv. destruct (co_valid _ _ _ _ _ _ _ _ _ _ (iv_content _ _ _ _ _ _ Hi) c p Hv) as (_ & e & He & (_ & _ & _ & a & Ha & _) & _).
  by exists e, a.
Qed.

Lemma hit_facts held g s c p e a :
  hit held g s c p e a ->
  0 <= c < N /\ ce_dev e = dev /\ ce_block_num e = c /\ ce_bsize e = bs /\ ce_clone e = None /\ ce_func e = None /\
  is_busy e = false /\ bufs s !! a = Some (g_L g c) /\ len (g_L g c) = bs /\ ce_lock e = g_pin g c /\
  NoDup (g_nl g ++ g_ll g) /\ (exists l1 l2, match cel_of e with Normal => g_nl g | Locked => g_ll g end = l1 ++ p :: l2) /\
  (match cel_of e with Normal => (p ∉ g_ll g) /\ ce_lock e = 0 | Locked => p ∈ g_ll g /\ 0 < ce_lock e end).
Proof.
  intros [Hi [Hfl Hbu _ _] Hv He Ha].
  destruct (copy_len dev bs N held g s p c e Hi Hv He) as (Hc & (H1 & H2 & H3 & a' & Ha' & Hb) & HL & _).
  destruct (mo_clone _ _ _ (iv_mem _ _ _ _ _ _ Hi) p e He) as [H4 H5].
  pose proof (copy_listed dev bs N held g s c p Hi Hfl Hv) as Hl.
  pose proof (iv_busy _ _ _ _ _ _ Hi p e He Hl) as Hbz. rewrite Hbu in Hbz.
  pose proof (iv_pin _ _ _ _ _ _ Hi c) as Hpin. rewrite Hv in Hpin.
  pose proof (lo_nodup _ _ _ _ _ _ (iv_lists _ _ _ _ _ _ Hi)) as Hnd. rewrite Hfl, app_nil_r in Hnd.
  destruct (iv_locks _ _ _ _ _ _ Hi p e He) as [Hlk Hlk0]. assert (a' = a) as -> by congruence.
  split; [done|]. do 5 (split; [done|]). split; [by rewrite Hbz, bool_decide_false by apply not_elem_of_nil|].
  split; [done|]. split; [done|]. split; [by apply Hpin|]. split; [done|].
  unfold cel_of. destruct (Z.eqb_spec (ce_lock e) 0) as [E|E].
  - assert (p ∉ g_ll g) as Hp by (intros Hp; specialize (Hlk Hp); lia). split; [|done].
    apply elem_of_app in Hl as [Hl|Hl]; [|done]. by apply list_elem_of_split.
  - assert (p ∈ g_ll g) as Hp by (destruct (decide (p ∈ g_ll g)) as [|Hn]; [done|by apply Hlk0 in Hn]).
    split; [by apply list_elem_of_split|]. auto.
Qed.

(** The invariant after a cached block was changed, locked or unlocked. *)
Lemma hit_put held g s s' c p e a e' d un' nl' ll' :
  hit held g s c p e a -> same_rest s s' -> only_ent p e' (ces s) (ces s') -> bufs s' = <[a := d]> (bufs s) ->
  ce_dev e' = ce_dev e -> ce_block_num e' = ce_block_num e -> ce_bsize e' = ce_bsize e -> ce_data e' = ce_data e ->
  ce_clone e' = ce_clone e -> ce_func e' = ce_func e -> is_busy e' = is_busy e -> len d = bs ->
  lists_of s' nl' ll' [] -> nl' ++ ll' ++ [] ≡ₚ g_nl g ++ g_ll g ++ [] ->
  p ∈ nl' ++ ll' -> (forall q, q <> p -> (q ∈ nl' <-> q ∈ g_nl g) /\ (q ∈ ll' <-> q ∈ g_ll g)) ->
  (p ∈ ll' /\ 0 < ce_lock e' \/ (p ∉ ll') /\ ce_lock e' = 0) ->
  (is_dirty e' = false -> c ∉ un' -> blk bs (disk dev s) c = d) ->
  (forall b, b <> c -> (b ∈ un' <-> b ∈ g_un g)) -> (c ∈ un' -> p ∈ ll' /\ is_dirty e' = false) ->
  inv held (g_put (dev := dev) nl' ll' [] c p d un' (ce_lock e') g) s' /\
  quiet (g_put (dev := dev) nl' ll' [] c p d un' (ce_lock e') g).
Proof.
  intros Hh Hsr Ho Hb E1 E2 E3 E4 E5 E6 E7 Hd Hl Hp Hin Hq Hlk Hcl Hun Hunc.
  destruct (hit_facts _ _ _ _ _ _ _ Hh) as (Hc & F1 & F2 & F3 & F4 & F5 & F6 & F7 & F8 & F9 & Hnd & _ & _).
  destruct Hh as [Hi [Hfl Hbu Hgx Hiov] Hv He Ha]. split.
  - eapply (inv_put held g s s' p e e' c a); try done; try congruence.
    + by rewrite hmap_lookup, Hv.
    + intros b Hbv. destruct (copy_len dev bs N held g s p b e Hi Hbv He) as (_ & (_ & E & _) & _). congruence.
    + rewrite E7, F6, Hbu. symmetry. apply bool_decide_false, not_elem_of_nil.
  - split; cbn; [done|done| |done]. rewrite Hgx. apply delete_empty.
Qed.
Lemma wrong_block_ok e c : ce_dev e = dev -> ce_block_num e = c -> wrong_block e dev c = false.
Proof. unfold wrong_block. intros -> ->. by rewrite !Z.eqb_refl. Qed.

Lemma strip_links p e (m m' : gmap Z cache_ent) :
  strip <$> m' = strip <$> m -> m !! p = Some e -> exists e', m' !! p = Some e' /\ strip e' = strip e.
Proof. intros Hs He. symmetry in Hs. destruct (strip_lookup _ _ p e Hs He) as (e' & He' & E). by exists e'. Qed.

(** Entry [p] goes from its list to the head of list [w'], its entry and
    buffer changed in between. *)
Lemma only_ent_trans p e1 e2 (m0 m1 m2 m3 : gmap Z cache_ent) :
  strip <$> m1 = strip <$> m0 -> m2 = <[p := e1]> m1 -> strip <$> m3 = strip <$> m2 -> m3 !! p = Some e2 -> only_ent p e2 m0 m3.
Proof.
  intros H1 -> H3 He. split; [done|]. intros q Hq. rewrite <- !lookup_fmap, H3, fmap_insert, lookup_insert_ne by done. by rewrite H1.
Qed.

Lemma io_hit_wp c p data num op want dptr g s (Q : list byte * option Z -> cst -> Prop) :
  inv true g s -> quiet g -> g_vm g !! c = Some p -> op_ok op data num bs want -> 0 < num ->
  (forall g' s' dptr', inv true g' s' -> quiet g' -> settled (bs := bs) op data c g g' -> near c g g' ->
     ptr_ok want g' s' c dptr dptr' -> Q (op_out op data bs (g_L g c), dptr') s') ->
  wp (io_hit p dev c data bs op want dptr) Q s.
Proof.
  pose proof CG as [_ Hbs _]. intros Hi Hq Hv Hop Hnum HQ.
  destruct (hit_of true g s c p Hi Hq Hv) as (e & a & Hh). pose proof Hh as [_ _ _ He Ha].
  destruct (hit_facts _ _ _ _ _ _ _ Hh) as (Hc & F1 & F2 & F3 & F4 & F5 & F6 & F7 & F8 & F9 & Hnd & (l1 & l2 & Hsplit) & Hcel).
  unfold io_hit. wp_step. eapply ent_wp; [exact He|]. rewrite wrong_block_ok, F3, Z.eqb_refl by done. cbn [negb].
  wp_step. eapply (take_off_st (cel_of e) s (g_nl g) (g_ll g) l1 p l2 []); [|exact Hsplit|].
  { unfold lists_of. rewrite <- (qt_fl g Hq). apply Hi. }
  intros s1 (Hsr1 & Hst1 & Hb1) Hl1. destruct (strip_links p e (ces s) (ces s1) Hst1 He) as (e1 & He1 & Hs1).
  pose proof (strip_fields _ _ Hs1) as (S1 & S2 & S3 & S4 & S5 & S6 & S7 & S8).
  wp_step. eapply (hit_data_wp p a e1 (g_L g c) bs op data num want dptr s1); [done|congruence|by rewrite Hb1|done|lia|done|done|].
  set (d := op_data op data bs (g_L g c)). set (e2 := op_ent op e1).
  set (e3 := ce_set_lock (ce_lock e1 + lock_inc op) e2).
  assert (ce_lock e2 = ce_lock e1) as Hle2 by (unfold e2, op_ent; by destruct (asks op CACHE_READ)).
  assert (forall Q' : unit -> cst -> Prop, Q' tt (touch p a e3 d s1) ->
    wp (if asks op CACHE_LOCKED then upd_ent p (fun e => ce_set_lock (ce_lock e + 1) e) else mret tt) Q' (touch p a e2 d s1)) as Hlock.
  { intros Q' HQ'. unfold e3, lock_inc in HQ'. destruct (asks op CACHE_LOCKED).
    - eapply upd_ent_wp; [apply lookup_insert_eq|]. rewrite Hle2. unfold touch in *. cbn. by rewrite insert_insert_eq.
    - wp_step. rewrite Z.add_0_r, <- Hle2 in HQ'. assert (ce_set_lock (ce_lock e2) e2 = e2) as E by (by destruct e2). by rewrite E in HQ'. }
  wp_step. apply Hlock. wp_step. eapply ent_wp; [apply lookup_insert_eq|].
  destruct (moved (cel_of e) (cel_of e3) l1 p l2 (g_nl g) (g_ll g)) as [nl' ll'] eqn:Emv.
  destruct (moved_ok _ _ _ _ _ _ _ _ _ Hnd Hsplit Emv) as (M1 & M2 & M3 & M4 & M5). injection Emv as <- <-.
  assert (ce_lock e3 = ce_lock e + lock_inc op) as Hl3 by (unfold e3; cbn; lia).
  assert (0 <= lock_inc op <= 1) as Hinc by (unfold lock_inc; destruct (asks op CACHE_LOCKED); lia).
  wp_step. eapply (land_st (cel_of e3) _ _ _ [] p []).
  { apply (lists_ok_insert _ _ _ _ _ _ p e1 e3); [done|..|exact Hl1]; unfold e3, e2, op_ent; by destruct (asks op CACHE_READ). }
  intros s2 (Hsr2 & Hst2 & Hb2) Hl2.
  assert (ces (touch p a e3 d s1) !! p = Some e3) as Ht3 by apply lookup_insert_eq.
  destruct (strip_links p e3 _ (ces s2) Hst2 Ht3) as (e4 & He4 & Hs4).
  pose proof (strip_fields _ _ Hs4) as (T1 & T2 & T3 & T4 & T5 & T6 & T7 & T8).
  assert (ce_dev e3 = ce_dev e1 /\ ce_block_num e3 = ce_block_num e1 /\ ce_bsize e3 = ce_bsize e1 /\ ce_data e3 = ce_data e1 /\
    ce_clone e3 = ce_clone e1 /\ ce_func e3 = ce_func e1 /\ is_busy e3 = is_busy e1) as (U1 & U2 & U3 & U4 & U5 & U6 & U7).
  { unfold e3, e2, op_ent. destruct (asks op CACHE_READ); cbn; split_and!; try done. apply busy_or_dirty. }
  assert (is_dirty e3 = if asks op CACHE_READ then is_dirty e else true) as Hdi.
  { unfold e3, e2, op_ent. destruct (asks op CACHE_READ); cbn; [|apply dirty_or_dirty]. unfold is_dirty. by rewrite <- S4. }
  wp_step.
  destruct (hit_put true g s s2 c p e a e4 d (if asks op CACHE_READ then g_un g else g_un g ∖ {[c]})
    (on (cel_of e3) (fun l => l ++ [p]) Normal (on (cel_of e) (fun _ => l1 ++ l2) Normal (g_nl g)))
    (on (cel_of e3) (fun l => l ++ [p]) Locked (on (cel_of e) (fun _ => l1 ++ l2) Locked (g_ll g))) Hh) as [Hi2 Hq2].
  all: assert (0 <= ce_lock e) as Hl0 by (destruct (cel_of e); lia).
  all: assert (is_dirty e4 = is_dirty e3) as Hdi4 by (unfold is_dirty; by rewrite T4).
  all: unfold cel_of in M4 at 1; rewrite Hl3 in M4.
  all: set (nl' := on (cel_of e3) _ Normal _) in *; set (ll' := on (cel_of e3) _ Locked _) in *; clearbody nl' ll'.
  all: try done; try congruence.
  - eapply same_rest_trans; [exact Hsr1|]. by destruct Hsr2.
  - by eapply (only_ent_trans p e3 e4 (ces s) (ces s1)); [..|exact He4].
  - rewrite Hb2. unfold touch. cbn. by rewrite Hb1.
  - unfold is_busy in *. rewrite T4, U7. by rewrite S4.
  - eapply len_op_data; [exact Hop|lia|done|done].
  - rewrite T7, Hl3. destruct (Z.eqb_spec (ce_lock e + lock_inc op) 0); [right|left]; (split; [done|lia]).
  - rewrite Hdi4, Hdi. unfold d, op_data. destruct (asks op CACHE_READ); [|done]. intros Hd Hun.
    destruct (copy_len dev bs N true g s p c e Hi Hv He) as (_ & _ & _ & Hdk). by apply Hdk.
  - intros b Hb. destruct (asks op CACHE_READ); [done|]. set_solver.
  - destruct (asks op CACHE_READ) eqn:Er; [|set_solver]. intros Hun. rewrite Hdi4, Hdi.
    destruct (co_un _ _ _ _ _ _ _ _ _ _ (iv_content _ _ _ _ _ _ Hi) c Hun) as (q & x & Hq' & Hql & Hx & Hd).
    assert (q = p) as -> by congruence. assert (x = e) as -> by congruence. split; [|done].
    destruct (iv_locks _ _ _ _ _ _ Hi p e He) as [Hlk _]. specialize (Hlk Hql).
    by replace (ce_lock e + lock_inc op =? 0) with false in M4 by (symmetry; apply Z.eqb_neq; lia).
  - eapply HQ; [exact Hi2|exact Hq2| | |].
    + split; cbn; [done| | |].
      * intros k Hk. destruct (asks op CACHE_READ); [done|set_solver].
      * intros k. rewrite T7, Hl3, F9. destruct (decide (k = c)) as [->|]; lia.
      * unfold cel_of in M5. rewrite M5, Hl3. unfold cel_of in Hcel.
        destruct (Z.eqb_spec (ce_lock e) 0), (Z.eqb_spec (ce_lock e + lock_inc op) 0); lia.
    + by apply near_put.
    + unfold ptr_ok. destruct want; [|done]. exists p, e4. split; [apply lookup_insert_eq|]. split; [done|]. congruence.
Qed.
(** ** The loop *)

Lemma op_none_one op data num want : op_ok op data num bs want -> want = true -> num = 1.
Proof.
  intros Hop ->. apply (oo_none _ _ _ _ _ Hop). pose proof (oo_want _ _ _ _ _ Hop) as Hw. symmetry in Hw.
  by apply bool_decide_eq_true in Hw.
Qed.

Lemma io_loop_wp fuel b data num op want out dptr g s (Q : Z * list byte * option Z -> cst -> Prop) :
  inv true g s -> quiet g -> len (g_ll g) <= 8 -> 0 <= b -> 1 <= num <= Z.of_nat fuel -> b + num <= N ->
  op_ok op data num bs want ->
  (forall g' s' dptr', inv false g' s' -> quiet g' -> transferred op data b num g g' -> near b g g' ->
     ptr_ok want g' s' b dptr dptr' -> Q (0, out ++ op_outs op data bs b (Z.to_nat num) (g_L g), dptr') s') ->
  wp (io_loop fuel dev b data num bs op want out dptr) Q s.
Proof.
  pose proof CG as [_ Hbs _]. revert b data num out dptr g s.
  induction fuel as [|fuel IH]; intros b data num out dptr g s Hi Hq Hll Hb Hnum HbN Hop HQ; [lia|].
  assert (forall n g1 s1 dptr1, inv true g1 s1 -> quiet g1 -> 1 <= n <= num -> transferred op data b n g g1 -> near b g g1 ->
    ptr_ok want g1 s1 b dptr dptr1 ->
    wp (io_loop fuel dev (b + n) (drop_data (n * bs) data) (num - n) bs op want
         (out ++ op_outs op data bs b (Z.to_nat n) (g_L g)) dptr1) Q s1) as Hrest.
  { intros n g1 s1 dptr1 Hi1 Hq1 Hn Ht Hnr Hptr. destruct (decide (n = num)) as [->|Hne].
    - destruct fuel as [|f]; cbn [io_loop]; rewrite Z.sub_diag; cbn [Z.eqb]; (wp_step; eapply UNLOCK_bc_wp; [exact Hi1|];
        intros s2 Hi2 Ec2 _; wp_step; apply (HQ g1); try done; unfold ptr_ok in *; by rewrite Ec2).
    - assert (want = false) as ->.
      { destruct want; [|done]. pose proof (op_none_one _ _ _ _ Hop eq_refl). lia. }
      assert (lock_inc op = 0) as Hinc.
      { unfold lock_inc. destruct (asks op CACHE_LOCKED) eqn:E; [|done]. pose proof (oo_locked _ _ _ _ _ Hop E). lia. }
      apply (IH (b + n) _ (num - n) _ _ g1); [done|done| |lia|lia|lia|apply op_ok_drop; [done|lia|lia]|].
      { pose proof (tr_ll _ _ _ _ _ _ Ht). lia. }
      intros g2 s2 dptr2 Hi2 Hq2 Ht2 Hn2 Hptr2. rewrite <- app_assoc.
      assert (op_outs op data bs b (Z.to_nat n) (g_L g) ++ op_outs op (drop_data (n * bs) data) bs (b + n) (Z.to_nat (num - n)) (g_L g1) =
        op_outs op data bs b (Z.to_nat num) (g_L g)) as ->.
      { replace (Z.to_nat num) with (Z.to_nat n + Z.to_nat (num - n))%nat by lia. rewrite op_outs_app by lia.
        rewrite Z2Nat.id by lia. f_equal. apply op_outs_ext. intros k Hk.
        by rewrite (tr_L _ _ _ _ _ _ Ht), decide_False by lia. }
      apply (HQ g2); [done|done| | |].
      + replace num with (n + (num - n)) by lia. apply (transferred_app op data b n (num - n) g g1 g2); [lia|lia|done|done].
      + apply (near_trans b g g1); [done|]. destruct Hn2 as [D1 D2 D3]. split; [|done|done].
        intros k Hk. destruct (D1 k Hk); [by left|right; lia].
      + unfold ptr_ok in *. congruence. }
  cbn [io_loop]. replace (num =? 0) with false by (symmetry; apply Z.eqb_neq; lia).
  wp_step. eapply block_lookup_wp; [exact Hi|apply Hq|apply Hq|rewrite (qt_x g Hq); apply lookup_empty|].
  destruct (g_vm g !! b) as [p|] eqn:Hv.
  - wp_step. eapply io_hit_wp; [exact Hi|exact Hq|exact Hv|exact Hop|lia|]. intros g1 s1 dptr1 Hi1 Hq1 Hs1 Hn1 Hptr.
    specialize (Hrest 1 g1 s1 dptr1 Hi1 Hq1 ltac:(lia) (transferred_1 _ _ _ _ _ Hs1) Hn1 Hptr).
    rewrite Z.mul_1_l in Hrest. change (Z.to_nat 1) with 1%nat in Hrest. cbn [op_outs] in Hrest. by rewrite app_nil_r in Hrest.
  - wp_step. eapply io_miss_wp; [exact Hi|exact Hq|exact Hll|exact Hb|lia|exact HbN|exact Hv|exact Hop|].
    intros g1 s1 n dptr1 Hi1 Hq1 Hn Ht1 Hn1 Hptr. cbn [negb Z.eqb]. by apply (Hrest n g1).
Qed.
(** ** Transfers past the cache *)

(** Look-ups do not depend on the buffers. *)
Lemma lookup_bufs_wp held g s bf b (Q : option Z -> cst -> Prop) :
  inv held g s -> quiet g -> Q (g_vm g !! b) (set_bufs bf s) -> wp (block_lookup dev b) Q (set_bufs bf s).
Proof.
  intros Hi [Hfl Hbu Hx _] HQ. unfold block_lookup. wp_step. unfold in_ht. wp_step.
  eapply wp_mono; [apply hash_lookup_wp; exact (to_ok _ _ _ _ (iv_ht _ _ _ _ _ _ Hi))|]. intros r h [-> ->]. rewrite set_ht_same.
  rewrite hmap_lookup, Hx, lookup_empty. destruct (g_vm g !! b) as [p|] eqn:Hv; [|by wp_step].
  destruct (co_valid _ _ _ _ _ _ _ _ _ _ (iv_content _ _ _ _ _ _ Hi) b p Hv) as (_ & e & He & _).
  wp_step. eapply ent_wp; [exact He|]. rewrite (iv_busy _ _ _ _ _ _ Hi p e He) by (by eapply copy_listed).
  rewrite Hbu, bool_decide_false by (by apply not_elem_of_nil). by wp_step.
Qed.

Lemma overlay_read_wp n F b g s (Q : list byte -> cst -> Prop) :
  inv true g s -> quiet g ->
  (forall k, b <= k < b + Z.of_nat n -> len (F k) = bs /\ (g_vm g !! k = None -> F k = g_L g k)) ->
  Q (mjoin (run_data (g_L g) b n)) s ->
  wp (overlay_read n dev b bs (mjoin (run_data F b n))) Q s.
Proof.
  pose proof CG as [_ Hbs _]. intros Hi Hq. revert b Q. induction n as [|n IH]; intros b Q HF HQ; cbn [overlay_read]; [by wp_step|].
  rewrite run_data_S. change (mjoin (?x :: ?l)) with (x ++ mjoin l). destruct (HF b ltac:(lia)) as [HD HL].
  rewrite take_app_length', drop_app_length' by (unfold len in HD; lia).
  rewrite run_data_S in HQ. change (mjoin (?x :: ?l)) with (x ++ mjoin l) in HQ.
  wp_step. rewrite <- (set_bufs_id s). apply (lookup_bufs_wp true g); [done|done|]. rewrite set_bufs_id.
  assert (forall s', s' = s -> wp (r ← overlay_read n dev (b + 1) bs (mjoin (run_data F (b + 1) n));
    mret (g_L g b ++ r) : CM (list byte)) Q s') as Hrest.
  { intros s' ->. wp_step. apply IH; [intros k Hk; apply HF; lia|]. by wp_step. }
  wp_step. destruct (g_vm g !! b) as [p|] eqn:Hv.
  - destruct (hit_of true g s b p Hi Hq Hv) as (e & a & Hh).
    destruct (hit_facts _ _ _ _ _ _ _ Hh) as (_ & F1 & F2 & _ & _ & _ & _ & F7 & F8 & _).
    destruct Hh as [_ _ _ He Ha]. wp_step. eapply ent_wp; [exact He|]. rewrite wrong_block_ok by done. rewrite Ha.
    eapply load_buf_wp; [exact F7|done|]. by apply Hrest.
  - wp_step. rewrite HL by done. by apply Hrest.
Qed.

(** The buffers after the copies of the blocks [b, b + n) were overwritten. *)
Definition overlaid (g : ghost) (s : cst) (F : Z -> list byte) (b n : Z) (bf : gmap Z (list byte)) : Prop :=
  (forall a, is_Some (bf !! a) <-> is_Some (bufs s !! a)) /\
  forall k p e a, g_vm g !! k = Some p -> ces s !! p = Some e -> ce_data e = Some a ->
    bf !! a = if decide (b <= k < b + n) then Some (F k) else bufs s !! a.

Lemma overlay_write_wp n F b0 b g s bf (Q : unit -> cst -> Prop) :
  inv true g s -> quiet g -> 0 <= b0 <= b -> (forall k, b <= k < b + Z.of_nat n -> len (F k) = bs) ->
  overlaid g s F b0 (b - b0) bf ->
  (forall bf', overlaid g s F b0 (b + Z.of_nat n - b0) bf' -> Q tt (set_bufs bf' s)) ->
  wp (overlay_write n dev b bs (mjoin (run_data F b n))) Q (set_bufs bf s).
Proof.
  pose proof CG as [_ Hbs _]. intros Hi Hq. revert b bf. induction n as [|n IH]; intros b bf Hb HF Hov HQ; cbn [overlay_write].
  { wp_step. apply HQ. by replace (b + Z.of_nat 0 - b0) with (b - b0) by lia. }
  rewrite run_data_S. change (mjoin (?x :: ?l)) with (x ++ mjoin l).
  assert (len (F b) = bs) as HD by (apply HF; lia).
  rewrite drop_app_length' by (unfold len in HD; lia).
  wp_step. apply (lookup_bufs_wp true g); [done|done|].
  assert (forall bf', overlaid g s F b0 (b + 1 - b0) bf' ->
    wp (overlay_write n dev (b + 1) bs (mjoin (run_data F (b + 1) n))) Q (set_bufs bf' s)) as Hrest.
  { intros bf' Hov'. apply IH; [lia|intros k Hk; apply HF; lia|done|]. intros bf2 H2. apply HQ.
    by replace (b + Z.of_nat (S n) - b0) with (b + 1 + Z.of_nat n - b0) by lia. }
  wp_step. destruct Hov as [Hdom Hov]. destruct (g_vm g !! b) as [p|] eqn:Hv.
  - destruct (hit_of true g s b p Hi Hq Hv) as (e & a & Hh).
    destruct (hit_facts _ _ _ _ _ _ _ Hh) as (_ & F1 & F2 & _ & F4 & _ & _ & F7 & F8 & _).
    destruct Hh as [_ _ _ He Ha]. wp_step. eapply ent_wp; [exact He|]. rewrite wrong_block_ok by done.
    rewrite F4, bool_decide_eq_false_2 by (by intros [? ?]). wp_step. wp_step.
    pose proof (Hov b p e a Hv He Ha) as Hbf. rewrite decide_False in Hbf by lia.
    eapply (copy_in_wp p a e (g_L g b) bs _ (Z.of_nat (S n))); [exact He|exact Ha|exact (eq_trans Hbf F7)|done|lia|lia| |].
    + rewrite len_app, (len_run bs) by (intros k Hk; apply HF; lia). nia.
    + rewrite take_app_length' by (unfold len in HD; lia). cbn [bufs set_bufs]. apply (Hrest (<[a := F b]> bf)). split.
      * intros a'. rewrite lookup_insert_is_Some', <- Hdom. split; [|tauto]. intros [<-|?]; [|done]. rewrite Hbf. by rewrite F7.
      * intros k q e' a' Hk He' Ha'. destruct (decide (a' = a)) as [->|Hne].
        -- assert (q = p) as -> by (by eapply (mo_inj _ _ _ (iv_mem _ _ _ _ _ _ Hi))).
           assert (k = b) as ->.
           { destruct (copy_len dev bs N true g s p k e Hi Hk He) as (_ & (_ & E & _) & _). congruence. }
           rewrite lookup_insert_eq, decide_True by lia. done.
        -- rewrite lookup_insert_ne by done. rewrite (Hov k q e' a') by done.
           assert (k <> b) by (intros ->; congruence). destruct (decide (b0 <= k < b0 + (b - b0))), (decide (b0 <= k < b0 + (b + 1 - b0))); done || lia.
  - wp_step. apply Hrest. split; [done|]. intros k q e' a' Hk He' Ha'. rewrite (Hov k q e' a') by done.
    assert (k <> b) by (intros ->; congruence). destruct (decide (b0 <= k < b0 + (b - b0))), (decide (b0 <= k < b0 + (b + 1 - b0))); done || lia.
Qed.
Lemma run_data_shift (F : Z -> list byte) b c n : run_data (fun k => F (k - c)) (b + c) n = run_data F b n.
Proof.
  revert b. induction n as [|n IH]; intros b; [done|]. rewrite !run_data_S. f_equal; [f_equal; lia|].
  rewrite <- IH. f_equal. lia.
Qed.

(** Data cut into blocks from [b] on. *)
Definition cut (d : list byte) (b k : Z) : list byte := blk bs d (k - b).

Lemma cut_data d b n :
  len d = Z.of_nat n * bs -> d = mjoin (run_data (cut d b) b n).
Proof.
  pose proof CG as [_ Hbs _]. intros Hd. pose proof (run_data_shift (blk bs d) 0 b n) as E. rewrite Z.add_0_l in E.
  unfold cut. rewrite E, <- slice_blocks by lia. rewrite Z.mul_0_l. by rewrite slice_all.
Qed.

Lemma op_outs_read op data b n L :
  asks op CACHE_READ = true -> (exists d, data = Some d) -> op_outs op data bs b n L = mjoin (run_data L b n).
Proof.
  intros Hr. revert b data. induction n as [|n IH]; intros b data [d ->]; [done|]. rewrite run_data_S. cbn [op_outs].
  change (mjoin (?x :: ?l)) with (x ++ mjoin l). unfold op_out at 1. rewrite Hr. f_equal. apply IH. by eexists.
Qed.
Lemma op_outs_write op data b n L :
  asks op CACHE_READ = false -> asks op CACHE_WRITE = true -> op_outs op data bs b n L = [].
Proof.
  intros Hr Hw. revert b data. induction n as [|n IH]; intros b data; [done|]. cbn [op_outs]. unfold op_out at 1.
  rewrite Hr, Hw. apply IH.
Qed.

(** After an overwrite of [n] blocks, of the copies first and then the device. *)
Definition g_set_L (L : Z -> list byte) (g : ghost) : ghost :=
  Ghost (g_nl g) (g_ll g) (g_fl g) (g_busy g) (g_vm g) (g_x g) L (g_un g) (g_pin g) (g_iov g) (g_iova g).

Lemma inv_overwrite held g s s' F b n bf f off :
  inv held g s -> 0 <= b -> b + Z.of_nat n <= N -> (forall k, b <= k < b + Z.of_nat n -> len (F k) = bs) ->
  overlaid g s F b (Z.of_nat n) bf -> os_files (cs_os s) !! dev = Some f ->
  s' = set_cs_os (set_file dev (OFile off (file_after (b * bs) (mjoin (run_data F b n)) (f_data f))) (cs_os s)) (set_bufs bf s) ->
  inv held (g_set_L (fun k => if decide (b <= k < b + Z.of_nat n) then F k else g_L g k) g) s'.
Proof.
  pose proof CG as [_ Hbs _]. intros Hi Hb HbN HF [Hdom Hov] Hf ->.
  destruct (inv_file dev bs N _ _ _ Hi) as (f' & Hf' & Hdisk & Hlen). assert (f' = f) as -> by congruence.
  pose proof (len_run bs F b n HF) as Hrun.
  assert (forall k, 0 <= k -> blk bs (file_after (b * bs) (mjoin (run_data F b n)) (f_data f)) k =
    if decide (b <= k < b + Z.of_nat n) then F k else blk bs (disk dev s) k) as Hblk.
  { intros k Hk. rewrite Hdisk. apply (blk_file_after bs); try lia; [nia|exact HF]. }
  destruct Hi. split; try done; try (by eapply iov_same; [..|eassumption]); cbn.
  - destruct iv_env. split; try done. eexists. split; [apply lookup_insert_eq|]. cbn. rewrite len_file_after by nia. done.
  - destruct iv_mem as [M1 M2 M3 M4 M5]. split; try done.
    + intros a Ha. by apply M2, Hdom.
    + intros p e a He Ha. by apply Hdom, (M3 p e).
  - destruct iv_content as [C1 C2 C3 C4].
    assert (disk dev (set_cs_os (set_file dev (OFile off (file_after (b * bs) (mjoin (run_data F b n)) (f_data f))) (cs_os s)) (set_bufs bf s)) =
      file_after (b * bs) (mjoin (run_data F b n)) (f_data f)) as -> by (unfold disk; cbn; by rewrite lookup_insert_eq).
    split.
    + intros k p Hk. destruct (C1 k p Hk) as (Hkn & e & He & (H1 & H2 & H3 & a & Ha & Hba) & Hcl). split; [done|]. exists e.
      split; [done|]. split.
      * split_and!; try done. exists a. split; [done|]. rewrite (Hov k p e a) by done. by destruct (decide (b <= k < b + Z.of_nat n)).
      * intros Hd Hu. rewrite Hblk by lia. destruct (decide (b <= k < b + Z.of_nat n)); [done|auto].
    + intros k Hk Hv. rewrite Hblk by lia. destruct (decide (b <= k < b + Z.of_nat n)); [done|auto].
    + done.
    + intros k Hk. destruct (decide (b <= k < b + Z.of_nat n)); auto.
Qed.
Definition done_io (op : Z) (data : option (list byte)) (b num : Z) (want : bool) (dptr : option Z) (g : ghost)
    (Q : Z * list byte * option Z -> cst -> Prop) : Prop :=
  forall g' s' dptr', inv false g' s' -> quiet g' -> transferred op data b num g g' -> near b g g' ->
    ptr_ok want g' s' b dptr dptr' -> Q (0, op_outs op data bs b (Z.to_nat num) (g_L g), dptr') s'.

Lemma large_read_wp op data b num g s (Q : Z * list byte -> cst -> Prop) :
  inv false g s -> quiet g -> 0 <= b -> 1 <= num -> b + num <= N -> asks op CACHE_READ = true ->
  (forall s', inv false g s' -> Q (0, mjoin (run_data (g_L g) b (Z.to_nat num))) s') ->
  asks op CACHE_LOCKED = false -> data <> None -> wp (large_io dev b data num bs op) Q s.
Proof.
  pose proof CG as [_ Hbs HNb]. intros Hi Hq Hb Hnum HbN Hr HQ Hlk Hd. unfold large_io. destruct data as [d|]; [|done].
  rewrite Hlk, Hr. destruct (inv_file dev bs N _ _ _ Hi) as (f & Hf & Hdisk & Hlen).
  rewrite u32_id by nia. wp_step. unfold in_os. wp_step.
  eapply wp_mono; [apply (read_phys_wp dev b num bs _ f); [done|apply Hi|lia|lia|lia|nia|nia|nia]|].
  intros [r x] o' (E & off & ->). injection E as -> ->. cbn [negb Z.eqb].
  pose proof (inv_write dev bs N false g s f off (f_data f) Hi Hf Hlen) as Hi1.
  specialize (Hi1 ltac:(intros k Hk; right; by rewrite Hdisk)).
  set (s1 := set_cs_os _ s) in *. wp_step. eapply LOCK_bc_wp; [exact Hi1|]. intros s2 Hi2 _ _.
  replace num with (Z.of_nat (Z.to_nat num)) at 2 by lia. rewrite slice_blocks by lia.
  wp_step. apply (overlay_read_wp _ (blk bs (f_data f)) b g); [done|done| |].
  { intros k Hk. split; [apply (len_blk bs N); lia|]. intros Hv. rewrite <- Hdisk.
    apply (co_disk _ _ _ _ _ _ _ _ _ _ (iv_content _ _ _ _ _ _ Hi)); [lia|done]. }
  wp_step. eapply UNLOCK_bc_wp; [exact Hi2|]. intros s3 Hi3 _ _. wp_step. by apply HQ.
Qed.

Lemma large_write_wp op d b num g s (Q : Z * list byte -> cst -> Prop) :
  inv false g s -> quiet g -> 0 <= b -> 1 <= num -> b + num <= N -> len d = num * bs ->
  asks op CACHE_READ = false -> asks op CACHE_WRITE = true -> asks op CACHE_LOCKED = false ->
  (forall s', inv false (g_set_L (fun k => if decide (b <= k < b + num) then cut d b k else g_L g k) g) s' -> Q (0, []) s') ->
  wp (large_io dev b (Some d) num bs op) Q s.
Proof.
  pose proof CG as [_ Hbs HNb]. intros Hi Hq Hb Hnum HbN Hd Hr Hw Hlk HQ. unfold large_io. rewrite Hlk, Hr, Hw.
  wp_step. eapply LOCK_bc_wp; [exact Hi|]. intros s1 Hi1 _ _.
  set (n := Z.to_nat num). assert (Z.of_nat n = num) as Hn by lia.
  assert (d = mjoin (run_data (cut d b) b n)) as Ed by (apply cut_data; lia).
  assert (forall k, b <= k < b + Z.of_nat n -> len (cut d b k) = bs) as HF.
  { intros k Hk. unfold cut, blk. apply len_slice; nia. }
  wp_step. rewrite Ed at 1. rewrite <- (set_bufs_id s1).
  apply (overlay_write_wp n (cut d b) b b g s1 (bufs s1)); [done|done|lia|exact HF| |].
  { split; [done|]. intros k p e a _ _ _. by rewrite decide_False by lia. }
  intros bf Hov. replace (b + Z.of_nat n - b) with (Z.of_nat n) in Hov by lia.
  wp_step. unfold UNLOCK_bc. wp_step. eapply wp_mono; [apply UNLOCK_wp; exact (iv_lock _ _ _ _ _ _ Hi1)|]. intros [] l ->.
  set (s2 := set_bc (set_bc_lock (Lock 1 (l_s (bc_lock (bc s1)))) (bc s1)) s1).
  assert (inv false g s2) as Hi2 by (inv_keep Hi1).
  assert (overlaid g s2 (cut d b) b (Z.of_nat n) bf) as Hov2 by done.
  destruct (inv_file dev bs N _ _ _ Hi2) as (f & Hf & Hdisk & Hlen).
  wp_step. unfold in_os. wp_step. rewrite u32_id by nia.
  eapply wp_mono; [apply (write_phys_wp dev b d num bs _ f); [done|apply Hi2|lia|lia|lia|nia|nia|nia|done]|].
  intros r o' (-> & off & ->). cbn [negb Z.eqb]. wp_step. apply HQ.
  pose proof (inv_overwrite false g s2 _ (cut d b) b n bf f off Hi2 Hb ltac:(lia) HF Hov2 Hf eq_refl) as H.
  rewrite <- Ed, Hn in H. exact H.
Qed.

Lemma cache_block_io_wp b data num op want g s (Q : Z * list byte * option Z -> cst -> Prop) :
  inv false g s -> quiet g -> len (g_ll g) <= 8 -> 0 <= b -> 1 <= num -> b + num <= N -> op_ok op data num bs want ->
  (asks op CACHE_READ = false -> asks op CACHE_WRITE = false -> num = 1) -> (data = None -> asks op CACHE_WRITE = false) ->
  done_io op data b num want None g Q -> wp (cache_block_io dev b data num bs op want) Q s.
Proof.
  pose proof CG as [_ Hbs HNb]. intros Hi Hq Hll Hb Hnum HbN Hop Hno Hnw HQ. unfold cache_block_io.
  replace (bs =? 0) with false by (symmetry; apply Z.eqb_neq; lia).
  replace (num =? 0) with false by (symmetry; apply Z.eqb_neq; lia).
  pose proof (oo_want _ _ _ _ _ Hop) as Hw.
  assert (bool_decide (data = None) && negb want = false) as -> by (rewrite <- Hw; by destruct want).
  assert (bool_decide (data = None) && (negb (num =? 1) || asks op CACHE_WRITE) = false) as ->.
  { rewrite <- Hw. destruct want; [|done]. rewrite (op_none_one _ _ _ _ Hop eq_refl). cbn.
    apply Hnw. symmetry in Hw. by apply bool_decide_eq_true in Hw. }
  wp_step. eapply dev_blocks_wp; [exact Hi|].
  replace (b + num >? N) with false by (symmetry; rewrite Z.gtb_ltb; apply Z.ltb_ge; lia).
  wp_step. unfold in_os, system_time. wp_step. wp_step. wp_step. wp_step.
  assert (set_cs_os (cs_os s) s = s) as -> by (by destruct s).
  set (s1 := set_last_cache_access _ s). assert (inv false g s1) as Hi1 by (inv_keep Hi).
  rewrite i64_id by (unfold in_i64; nia). apply wp_if; intros Hc.
  - rewrite Z.geb_leb in Hc. apply Z.leb_le in Hc.
    assert (want = false) as ->.
    { destruct want; [|done]. pose proof (op_none_one _ _ _ _ Hop eq_refl). nia. }
    assert (data <> None) as Hdn by (intros Ed; by rewrite bool_decide_true in Hw).
    assert (asks op CACHE_LOCKED = false) as Hlk.
    { destruct (asks op CACHE_LOCKED) eqn:E; [|done]. pose proof (oo_locked _ _ _ _ _ Hop E). nia. }
    assert (lock_inc op = 0) as Hinc by (unfold lock_inc; by rewrite Hlk).
    wp_step. destruct (asks op CACHE_READ) eqn:Er.
    + eapply large_read_wp; [exact Hi1|exact Hq|lia|lia|lia|done| |done|done]. intros s2 Hi2. wp_step.
      rewrite <- (op_outs_read op data) by (done || (destruct data; [by eexists|done])).
      apply (HQ g); [done|done| |apply near_refl|done]. split; [|done| |].
      * intros k. unfold op_data. rewrite Er. by destruct (decide (b <= k < b + num)).
      * intros k. rewrite Hinc. destruct (decide (b <= k < b + num)); lia.
      * lia.
    + destruct (asks op CACHE_WRITE) eqn:Ew; [|specialize (Hno eq_refl eq_refl); nia].
      destruct (oo_write _ _ _ _ _ Hop Er Ew) as (d & -> & Hd).
      eapply (large_write_wp op d b num g); [exact Hi1|exact Hq|lia|lia|lia|done|done|done|done|]. intros s2 Hi2. wp_step.
      rewrite <- (op_outs_write op (Some d) b (Z.to_nat num) (g_L g)) by done.
      eapply HQ; [exact Hi2|by destruct Hq; split| |by split; auto|done]. split; [|done| |].
      * intros k. unfold op_data. rewrite Er, Ew. cbn. destruct (decide (b <= k < b + num)); [|done]. done.
      * cbn. intros k. rewrite Hinc. destruct (decide (b <= k < b + num)); lia.
      * cbn. lia.
  - wp_step. eapply LOCK_bc_wp; [exact Hi1|]. intros s2 Hi2 _ _.
    eapply io_loop_wp; [exact Hi2|exact Hq|exact Hll|exact Hb|lia|exact HbN|exact Hop|]. exact HQ.
Qed.
End loop.
