(* ===== verification/CacheHold.v ===== *)
(** * CacheHold: the blocks a client holds (cache.c)

    Between [get_block] and [release_block] a client reads and writes the
    buffer of the cached copy and marks it dirty. *)

From S2P Require Import Prelude Bytes Host Device HashTable CacheList Cache CacheIo CacheInv CacheMiss CachePut CacheFill CacheFetch CacheLoop.
Local Open Scope Z_scope.

Section hold.
Context {dev bs N : Z} {CG : CacheGeom dev bs N}.
Abbreviation inv := (CacheInv.inv dev bs N).
Abbreviation hit := (CacheLoop.hit (dev := dev) (bs := bs) (N := N)).

(** What a step on block [c] does: its contents become [d], it is locked
    [k] times more, and it is unsaved only if [u] says so. *)
Record stepped (c : Z) (d : list byte) (k : Z) (u : bool) (g g' : ghost) : Prop := {
  sp_L : forall b, g_L g' b = if decide (b = c) then d else g_L g b;
  sp_pin : forall b, g_pin g' b = if decide (b = c) then g_pin g b + k else g_pin g b;
  sp_un : forall b, b ∈ g_un g' -> b ∈ g_un g /\ (b = c -> u = true) \/ b = c /\ u = true;
  sp_vm : g_vm g' = g_vm g;
}.

Lemma held_hit held g s c :
  inv held g s -> quiet g -> 0 < g_pin g c ->
  exists p e a, hit held g s c p e a /\ 0 < ce_lock e /\ p ∈ g_ll g.
Proof.
  intros Hi Hq Hp. pose proof (iv_pin _ _ _ _ _ _ Hi c) as Hpin. destruct (g_vm g !! c) as [p|] eqn:Hv; [|lia].
  destruct (hit_of held g s c p Hi Hq Hv) as (e & a & Hh). exists p, e, a. split; [done|].
  pose proof (ht_ent _ _ _ _ _ _ _ Hh) as He. rewrite (Hpin e He). split; [done|].
  destruct (iv_locks _ _ _ _ _ _ Hi p e He) as [_ Hl]. destruct (decide (p ∈ g_ll g)) as [|Hn]; [done|].
  specialize (Hl Hn). specialize (Hpin e He). lia.
Qed.

Lemma g_put_stepped nl ll fl c p d un lck k u g :
  g_vm g !! c = Some p -> lck = g_pin g c + k -> (forall b, b ∈ un -> b ∈ g_un g /\ (b = c -> u = true) \/ b = c /\ u = true) ->
  stepped c d k u g (g_put (dev := dev) nl ll fl c p d un lck g).
Proof.
  intros Hv -> Hu. split; cbn; [done| |done|].
  - intros b. by destruct (decide (b = c)) as [->|].
  - by apply insert_id.
Qed.

(** The lists of a quiet state. *)
Lemma quiet_lists held g s : inv held g s -> quiet g -> lists_of s (g_nl g) (g_ll g) [].
Proof. intros Hi Hq. unfold lists_of. rewrite <- (qt_fl g Hq). apply Hi. Qed.

(** A step that stays on its list. *)
Lemma hit_stay held g s c p e a e' d (un' : gset Z) k u :
  hit held g s c p e a -> 0 < ce_lock e -> p ∈ g_ll g ->
  ce_dev e' = ce_dev e -> ce_block_num e' = ce_block_num e -> ce_bsize e' = ce_bsize e -> ce_data e' = ce_data e ->
  ce_clone e' = ce_clone e -> ce_func e' = ce_func e -> is_busy e' = is_busy e ->
  ce_prev e' = ce_prev e -> ce_next e' = ce_next e -> len d = bs -> 0 < ce_lock e' -> ce_lock e' = ce_lock e + k ->
  (is_dirty e' = false -> c ∉ un' -> blk bs (disk dev s) c = d) ->
  (forall b, b <> c -> (b ∈ un' <-> b ∈ g_un g)) -> (c ∈ un' -> is_dirty e' = false /\ u = true) ->
  exists g', inv held g' (touch p a e' d s) /\ quiet g' /\ stepped c d k u g g'.
Proof.
  intros Hh Hlk Hpl E1 E2 E3 E4 E5 E6 E7 E8 E9 Hd Hlk' Hk Hcl Hun Hunc.
  destruct (hit_facts _ _ _ _ _ _ _ Hh) as (Hc & F1 & F2 & F3 & F4 & F5 & F6 & F7 & F8 & F9 & Hnd & _).
  pose proof (ht_inv _ _ _ _ _ _ _ Hh) as Hi. pose proof (ht_quiet _ _ _ _ _ _ _ Hh) as Hq.
  pose proof (ht_ent _ _ _ _ _ _ _ Hh) as He.
  destruct (hit_put held g s (touch p a e' d s) c p e a e' d un' (g_nl g) (g_ll g) Hh) as [Hi' Hq']; try done.
  - apply only_ent_insert.
  - apply (lists_of_ent s _ _ _ p e e'); [done..|]. by eapply quiet_lists.
  - apply elem_of_app. by right.
  - by left.
  - intros Hu. by destruct (Hunc Hu).
  - eexists. split; [exact Hi'|]. split; [exact Hq'|]. apply g_put_stepped; [apply Hh|lia|].
    intros b Hb. destruct (decide (b = c)) as [->|Hne]; [right; by destruct (Hunc Hb)|left]. split; [by apply Hun|done].
Qed.

(** ** [mark_blocks_dirty] *)

Lemma mark_wp c g s (Q : Z -> cst -> Prop) :
  inv false g s -> quiet g -> 0 < g_pin g c ->
  (forall g' s', inv false g' s' -> quiet g' -> stepped c (g_L g c) 0 false g g' -> Q 0 s') ->
  wp (mark_blocks_dirty dev c 1) Q s.
Proof.
  intros Hi Hq Hp HQ. unfold mark_blocks_dirty. wp_step. eapply LOCK_bc_wp; [exact Hi|]. intros s1 Hi1 _ _.
  destruct (held_hit true g s1 c Hi1 Hq Hp) as (p & e & a & Hh & Hlk & Hpl).
  destruct (hit_facts _ _ _ _ _ _ _ Hh) as (_ & _ & _ & _ & _ & _ & _ & F7 & F8 & _).
  change (Z.to_nat 1) with 1%nat. cbn [mark_loop]. wp_step. wp_step.
  eapply block_lookup_wp; [exact Hi1|apply Hq|apply Hq|rewrite (qt_x g Hq); apply lookup_empty|].
  rewrite (ht_vm _ _ _ _ _ _ _ Hh). wp_step. eapply upd_ent_wp; [apply Hh|]. wp_step. wp_step.
  destruct (hit_stay true g s1 c p e a (or_flags CE_DIRTY e) (g_L g c) (g_un g ∖ {[c]}) 0 false Hh Hlk Hpl) as (g2 & Hi2 & Hq2 & Hs2); try done.
  - apply busy_or_dirty.
  - cbn. lia.
  - by rewrite dirty_or_dirty.
  - set_solver.
  - set_solver.
  - assert (touch p a (or_flags CE_DIRTY e) (g_L g c) s1 = set_ces (<[p := or_flags CE_DIRTY e]> (ces s1)) s1) as Et.
    { unfold touch. rewrite insert_id by done. done. }
    rewrite Et in Hi2. eapply UNLOCK_bc_wp; [exact Hi2|]. intros s3 Hi3 _ _. wp_step. by apply (HQ g2).
Qed.
(** ** [release_block] *)

Lemma touch_ent s p a e d : bufs s !! a = Some d -> touch p a e d s = set_ces (<[p := e]> (ces s)) s.
Proof. intros Ha. unfold touch. by rewrite insert_id. Qed.

(** With the last lock the entry goes to the normal list. *)
Lemma unlock_last_wp g s c p e a (Q : unit -> cst -> Prop) :
  hit true g s c p e a -> p ∈ g_ll g -> ce_lock e = 1 -> c ∉ g_un g ->
  (forall g' s', inv true g' s' -> quiet g' -> stepped c (g_L g c) (-1) false g g' -> Q tt s') ->
  wp (_ ← in_list Locked (delete_from_list p); in_list Normal (add_to_head p)) Q
    (set_ces (<[p := ce_set_lock 0 e]> (ces s)) s).
Proof.
  intros Hh Hpl Hlk Hun HQ.
  destruct (hit_facts _ _ _ _ _ _ _ Hh) as (Hc & F1 & F2 & F3 & F4 & F5 & F6 & F7 & F8 & F9 & Hnd & (l1 & l2 & Hsplit) & _).
  pose proof (ht_inv _ _ _ _ _ _ _ Hh) as Hi. pose proof (ht_quiet _ _ _ _ _ _ _ Hh) as Hq.
  pose proof (ht_ent _ _ _ _ _ _ _ Hh) as He. set (e1 := ce_set_lock 0 e).
  assert (cel_of e = Locked) as Hcel by (unfold cel_of; by rewrite Hlk). rewrite Hcel in Hsplit.
  wp_step. eapply (take_off_st Locked _ (g_nl g) (g_ll g) l1 p l2 []); [|exact Hsplit|].
  { apply (lists_of_ent s _ _ _ p e e1); [done..|]. by eapply quiet_lists. }
  intros s1 (Hsr1 & Hst1 & Hb1) Hl1. eapply (land_st Normal s1 _ _ [] p []); [exact Hl1|].
  intros s2 (Hsr2 & Hst2 & Hb2) Hl2.
  destruct (moved Locked Normal l1 p l2 (g_nl g) (g_ll g)) as [nl' ll'] eqn:Emv.
  destruct (moved_ok Locked Normal l1 p l2 (g_nl g) (g_ll g) _ _ Hnd Hsplit Emv) as (M1 & M2 & M3 & M4 & M5). injection Emv as <- <-.
  assert (strip <$> ces s2 = strip <$> <[p := e1]> (ces s)) as Hst by (by rewrite Hst2).
  destruct (only_ent_strip p e1 (ces s) _ (ces s2) (only_ent_insert p e1 (ces s)) Hst) as (e' & Ho & Hs).
  pose proof (strip_fields _ _ Hs) as (T1 & T2 & T3 & T4 & T5 & T6 & T7 & T8). cbn in T1, T2, T3, T4, T5, T6, T7, T8.
  destruct (hit_put true g s s2 c p e a e' (g_L g c) (g_un g) (g_nl g ++ [p]) (l1 ++ l2) Hh) as [Hi2 Hq2]; try done.
  - eapply same_rest_trans; [|exact Hsr2]. by destruct Hsr1; split.
  - rewrite Hb2, Hb1. cbn. by rewrite insert_id.
  - unfold is_busy. by rewrite T4.
  - right. split; [done|]. by rewrite T7.
  - intros Hdi _. destruct (copy_len dev bs N true g s p c e Hi (ht_vm _ _ _ _ _ _ _ Hh) He) as (_ & _ & _ & Hdk).
    apply Hdk; [|done]. unfold is_dirty in *. by rewrite <- T4.
  - eapply HQ; [exact Hi2|exact Hq2|]. apply g_put_stepped; [apply Hh|rewrite T7; lia|].
    intros b Hb. left. split; [done|]. by intros ->.
Qed.

Lemma release_wp c g s (Q : Z -> cst -> Prop) :
  inv false g s -> quiet g -> 0 < g_pin g c -> c ∉ g_un g ->
  (forall g' s', inv false g' s' -> quiet g' -> stepped c (g_L g c) (-1) false g g' -> Q 0 s') ->
  wp (release_block dev c) Q s.
Proof.
  intros Hi Hq Hp Hun HQ. unfold release_block. wp_step. eapply LOCK_bc_wp; [exact Hi|]. intros s1 Hi1 _ _.
  destruct (held_hit true g s1 c Hi1 Hq Hp) as (p & e & a & Hh & Hlk & Hpl).
  destruct (hit_facts _ _ _ _ _ _ _ Hh) as (_ & F1 & F2 & _ & _ & _ & F6 & F7 & F8 & _).
  pose proof (ht_ent _ _ _ _ _ _ _ Hh) as He.
  wp_step. eapply block_lookup_wp; [exact Hi1|apply Hq|apply Hq|rewrite (qt_x g Hq); apply lookup_empty|].
  rewrite (ht_vm _ _ _ _ _ _ _ Hh). wp_step. eapply ent_wp; [exact He|]. rewrite wrong_block_ok by done.
  assert (forall g2 s2, inv true g2 s2 -> quiet g2 -> stepped c (g_L g c) (-1) false g g2 ->
    wp (_ ← UNLOCK_bc; mret 0 : CM Z) Q s2) as Hend.
  { intros g2 s2 Hi2 Hq2 Hs2. wp_step. eapply UNLOCK_bc_wp; [exact Hi2|]. intros s3 Hi3 _ _. wp_step. by apply (HQ g2). }
  wp_step. unfold unlock_ent. wp_step. eapply upd_ent_wp; [exact He|]. wp_step. eapply ent_wp; [apply lookup_insert_eq|].
  cbn [ce_lock ce_set_lock]. apply wp_if; intros Hl; zcases.
  - replace (ce_lock e - 1) with 0 by lia. eapply unlock_last_wp; [exact Hh|done|lia|done|]. intros g2 s2 Hi2 Hq2 Hs2. by apply (Hend g2).
  - wp_step.
    destruct (hit_stay true g s1 c p e a (ce_set_lock (ce_lock e - 1) e) (g_L g c) (g_un g) (-1) false Hh Hlk Hpl)
      as (g2 & Hi2 & Hq2 & Hs2); try done.
    + cbn. lia.
    + intros Hdi _. destruct (copy_len dev bs N true g s1 p c e Hi1 (ht_vm _ _ _ _ _ _ _ Hh) He) as (_ & _ & _ & Hdk). by apply Hdk.
    + rewrite touch_ent in Hi2 by done. by apply (Hend g2).
Qed.
(** ** The buffer of a held block *)

Lemma store_held g s c p e a d :
  hit false g s c p e a -> 0 < ce_lock e -> p ∈ g_ll g -> len d = bs ->
  exists g', inv false g' (set_bufs (<[a := d]> (bufs s)) s) /\ quiet g' /\ stepped c d 0 true g g'.
Proof.
  intros Hh Hlk Hpl Hd. pose proof (ht_ent _ _ _ _ _ _ _ Hh) as He.
  destruct (hit_stay false g s c p e a e d (if is_dirty e then g_un g ∖ {[c]} else g_un g ∪ {[c]}) 0 true Hh Hlk Hpl)
    as (g2 & Hi2 & Hq2 & Hs2); try done.
  - lia.
  - intros Hdi. rewrite Hdi. set_solver.
  - destruct (is_dirty e); set_solver.
  - destruct (is_dirty e); set_solver.
  - exists g2. split; [|done]. unfold touch in Hi2. rewrite (insert_id (ces s)) in Hi2 by done.
    assert (set_ces (ces s) s = s) as E by (by destruct s). by rewrite E in Hi2.
Qed.

(** ** A raw write of a block that is not cached *)

Lemma raw_write_wp c d g s (Q : Z -> cst -> Prop) :
  inv false g s -> quiet g -> 0 <= c < N -> g_vm g !! c = None -> len d = bs ->
  (forall s', inv false (g_set_L (fun b => if decide (b = c) then d else g_L g b) g) s' -> Q bs s') ->
  wp (in_os (write_pos dev (c * bs) d)) Q s.
Proof.
  pose proof CG as [_ Hbs _]. intros Hi Hq Hc Hv Hd HQ.
  destruct (inv_file dev bs N _ _ _ Hi) as (f & Hf & Hdisk & Hlen). unfold in_os. wp_step.
  eapply wp_mono; [apply (write_pos_wp dev _ d _ f); [done|apply Hi|nia]|].
  intros r o' (-> & off & ->). rewrite Hd. apply HQ.
  assert (overlaid g s (fun _ => d) c (Z.of_nat 1) (bufs s)) as Hov.
  { split; [done|]. intros k p e a Hk _ _. rewrite decide_False; [done|]. intros Hkc. replace k with c in Hk by lia. congruence. }
  pose proof (inv_overwrite false g s _ (fun _ => d) c 1 (bufs s) f off Hi ltac:(lia) ltac:(lia) ltac:(done) Hov Hf eq_refl) as H.
  rewrite run_data_1, set_bufs_id in H.
  destruct H as [H1 H2 H3 H4 H5 [C1 C2 C3 C4] H7 H8 H9 H10 H11 H12 H13 H14]. split; try done.
  assert (forall b (x y : list byte), (if decide (c <= b < c + Z.of_nat 1) then x else y) = if decide (b = c) then x else y) as Eif.
  { intros b x y. destruct (decide (b = c)), (decide (c <= b < c + Z.of_nat 1)); done || lia. }
  cbn [g_L g_set_L] in *. split; cbn.
  - intros b p Hb. specialize (C1 b p Hb). by rewrite Eif in C1.
  - intros b Hb Hn. specialize (C2 b Hb Hn). by rewrite Eif in C2.
  - exact C3.
  - intros b Hb. specialize (C4 b Hb). by rewrite Eif in C4.
Qed.
End hold.
