(* ===== verification/CacheLaws.v ===== *)
(** * CacheLaws: the block cache keeps the promises of BlockCache.v

    The view of a device is computed from the state of the cache; the
    operations of cache.c, run on any state that satisfies the invariant,
    obey the laws the file system is proved against. *)

From stdpp Require Import gmultiset.
From S2P Require Import Prelude Bytes Host Device HashTable CacheList Cache CacheIo CacheInv CacheMiss CachePut CacheFill CacheFetch CacheLoop CacheHold.
From S2P Require BlockCache.
Local Open Scope Z_scope.

(** ** The view *)

(** The copy of block [b], among the entries. *)
Definition copy_at (s : cst) (dev b : Z) : option cache_ent :=
  snd <$> head (filter (fun pe => ce_dev pe.2 = dev /\ ce_block_num pe.2 = b) (map_to_list (ces s))).

Definition device_blocks (s : cst) (dev : Z) : Z := default 0 (max_device_blocks s !! Z.to_nat dev).

(** What a reader sees of block [b]. *)
Definition data_at (s : cst) (dev bs b : Z) : list byte :=
  match copy_at s dev b with
  | Some e => default [] (a ← ce_data e; bufs s !! a)
  | None => blk bs (disk dev s) b
  end.
Definition locks_at (s : cst) (dev b : Z) : Z :=
  match copy_at s dev b with Some e => ce_lock e | None => 0 end.
(** A clean copy that differs from the device. *)
Definition unsaved_at (s : cst) (dev bs b : Z) : bool :=
  match copy_at s dev b with
  | Some e => negb (is_dirty e) && bool_decide (data_at s dev bs b <> blk bs (disk dev s) b)
  | None => false
  end.

Definition all_blocks (s : cst) (dev : Z) : list Z := seqZ 0 (device_blocks s dev).
Definition is_cached (s : cst) (dev b : Z) : bool := bool_decide (is_Some (copy_at s dev b)).

Definition cache_view (s : cst) (dev bs : Z) : BlockCache.bview :=
  BlockCache.BView
    (list_to_map ((fun b => (b, data_at s dev bs b)) <$> all_blocks s dev))
    (list_to_set_disj (all_blocks s dev ≫= fun b => replicate (Z.to_nat (locks_at s dev b)) b))
    (list_to_set (filter (fun b => unsaved_at s dev bs b = true) (all_blocks s dev)))
    (foldr Z.min (device_blocks s dev) (filter (fun b => is_cached s dev b = true) (all_blocks s dev))).

(** ** The operations on pointers *)

(** The buffer [get_block] returned for a block. *)
Definition held_buf (p : BlockCache.bptr) : CM Z :=
  r ← in_ht (hash_lookup (BlockCache.p_dev p) (BlockCache.p_bnum p));
  match r with
  | None => fault
  | Some q => e ← ent q; if ce_lock e =? 0 then fault else opt (ce_data e)
  end.

Definition cache_load (p : BlockCache.bptr) : CM (list byte) :=
  a ← held_buf p; s ← get; opt (bufs s !! a).
Definition cache_store (p : BlockCache.bptr) (d : list byte) : CM unit :=
  a ← held_buf p; store_buf (Some a) d.

(** [fstat] of the device. *)
Definition file_size (fd : Z) : CM Z := s ← get; f ← opt (os_files (cs_os s) !! fd); mret (len (f_data f)).

Section view.
Context {dev bs N : Z} {CG : CacheGeom dev bs N}.
Abbreviation inv := (CacheInv.inv dev bs N).

Lemma copy_at_inv held g s b : inv held g s -> quiet g -> copy_at s dev b = p ← g_vm g !! b; ces s !! p.
Proof.
  intros Hi Hq. unfold copy_at.
  assert (forall p e, (p, e) ∈ filter (fun pe : Z * cache_ent => ce_dev pe.2 = dev /\ ce_block_num pe.2 = b) (map_to_list (ces s)) <->
    g_vm g !! b = Some p /\ ces s !! p = Some e) as Hin.
  { intros p e. rewrite list_elem_of_filter, elem_of_map_to_list. cbn. split.
    - intros [[H1 H2] He]. split; [|done].
      assert (p ∈ g_nl g ++ g_ll g) as Hl.
      { assert (is_Some (ces s !! p)) as H by (by exists e). apply (lo_dom _ _ _ _ _ _ (quiet_lists held g s Hi Hq)) in H. by rewrite app_nil_r in H. }
      destruct (iv_res _ _ _ _ _ _ Hi p Hl) as [b' Hb'].
      destruct (copy_len dev bs N held g s p b' e Hi Hb' He) as (_ & (_ & E & _) & _). congruence.
    - intros [Hv He]. split; [|done]. destruct (copy_len dev bs N held g s p b e Hi Hv He) as (_ & (E1 & E2 & _) & _). done. }
  destruct (filter _ _) as [|[p e] l] eqn:Ef.
  - cbn. destruct (g_vm g !! b) as [p|] eqn:Hv; [|done]. cbn. destruct (ces s !! p) as [e|] eqn:He; [|done].
    destruct (Hin p e) as [_ H]. specialize (H (conj eq_refl He)). by apply elem_of_nil in H.
  - cbn. destruct (Hin p e) as [H _]. destruct H as [-> He]; [apply elem_of_cons; by left|]. by cbn.
Qed.

Lemma device_blocks_inv held g s : inv held g s -> device_blocks s dev = N.
Proof. intros Hi. unfold device_blocks. by rewrite (eo_max _ _ _ _ (iv_env _ _ _ _ _ _ Hi)). Qed.

Lemma data_at_inv held g s b : inv held g s -> quiet g -> 0 <= b < N -> data_at s dev bs b = g_L g b.
Proof.
  intros Hi Hq Hb. unfold data_at. rewrite (copy_at_inv held g s b Hi Hq). destruct (g_vm g !! b) as [p|] eqn:Hv; cbn.
  - destruct (hit_of held g s b p Hi Hq Hv) as (e & a & Hh).
    destruct (hit_facts _ _ _ _ _ _ _ Hh) as (_ & _ & _ & _ & _ & _ & _ & F7 & _).
    destruct Hh as [_ _ _ He Ha]. rewrite He. cbn. by rewrite Ha; cbn; rewrite F7.
  - by apply (co_disk _ _ _ _ _ _ _ _ _ _ (iv_content _ _ _ _ _ _ Hi)).
Qed.

Lemma locks_at_inv held g s b : inv held g s -> quiet g -> locks_at s dev b = g_pin g b.
Proof.
  intros Hi Hq. unfold locks_at. rewrite (copy_at_inv held g s b Hi Hq). pose proof (iv_pin _ _ _ _ _ _ Hi b) as Hp.
  destruct (g_vm g !! b) as [p|] eqn:Hv; cbn; [|done].
  destruct (hit_of held g s b p Hi Hq Hv) as (e & a & [_ _ _ He _]). rewrite He. by apply Hp.
Qed.

Lemma view_data held g s b :
  inv held g s -> quiet g ->
  BlockCache.v_data (cache_view s dev bs) !! b = if decide (0 <= b < N) then Some (g_L g b) else None.
Proof.
  intros Hi Hq. cbn. unfold all_blocks. rewrite (device_blocks_inv held g s Hi).
  destruct (decide (0 <= b < N)) as [Hb|Hb].
  - apply elem_of_list_to_map_1.
    + rewrite <- list_fmap_compose. rewrite (list_fmap_ext _ id) by done. rewrite list_fmap_id. apply NoDup_seqZ.
    + apply list_elem_of_fmap. exists b. rewrite (data_at_inv held g) by done. split; [done|]. apply elem_of_seqZ. lia.
  - apply not_elem_of_list_to_map_1. rewrite <- list_fmap_compose. intros Hin.
    apply list_elem_of_fmap in Hin as (b' & -> & Hb'). cbn in Hb. apply elem_of_seqZ in Hb'. lia.
Qed.

Lemma multiplicity_flat (f : Z -> nat) (l : list Z) b :
  NoDup l -> multiplicity b (list_to_set_disj (l ≫= fun x => replicate (f x) x) : gmultiset Z) =
    if decide (b ∈ l) then f b else O.
Proof.
  induction 1 as [|x l Hx Hnd IH]; cbn; [by rewrite multiplicity_empty|].
  rewrite list_to_set_disj_app, multiplicity_disj_union, list_to_set_disj_replicate, multiplicity_scalar_mul, multiplicity_singleton.
  change (mbind ?f ?l) with (l ≫= f). rewrite IH. destruct (decide (b = x)) as [->|Hne].
  - rewrite decide_False by done. rewrite decide_True by (apply elem_of_cons; by left). lia.
  - destruct (decide (b ∈ l)) as [Hb|Hb]; [rewrite decide_True by (apply elem_of_cons; by right)|
      rewrite decide_False by (rewrite elem_of_cons; tauto)]; lia.
Qed.
Lemma pin_outside held g s b : inv held g s -> ~ 0 <= b < N -> g_pin g b = 0.
Proof.
  intros Hi Hb. pose proof (iv_pin _ _ _ _ _ _ Hi b) as Hp. destruct (g_vm g !! b) as [p|] eqn:Hv; [|done].
  destruct (co_valid _ _ _ _ _ _ _ _ _ _ (iv_content _ _ _ _ _ _ Hi) b p Hv) as (Hb' & _). done.
Qed.
Lemma pin_nonneg held g s b : inv held g s -> quiet g -> 0 <= g_pin g b.
Proof.
  intros Hi Hq. pose proof (iv_pin _ _ _ _ _ _ Hi b) as Hp. destruct (g_vm g !! b) as [p|] eqn:Hv; [|lia].
  destruct (hit_of held g s b p Hi Hq Hv) as (e & a & Hh). pose proof (ht_ent _ _ _ _ _ _ _ Hh) as He.
  rewrite <- (Hp e He). destruct (iv_locks _ _ _ _ _ _ Hi p e He) as [H1 H2].
  destruct (decide (p ∈ g_ll g)) as [Hl|Hl]; [specialize (H1 Hl)|specialize (H2 Hl)]; lia.
Qed.

Lemma view_pins held g s b :
  inv held g s -> quiet g -> multiplicity b (BlockCache.v_pins (cache_view s dev bs)) = Z.to_nat (g_pin g b).
Proof.
  intros Hi Hq. cbn. unfold all_blocks. rewrite (device_blocks_inv held g s Hi), multiplicity_flat by apply NoDup_seqZ.
  rewrite (locks_at_inv held g s b Hi Hq). destruct (decide (b ∈ seqZ 0 N)) as [Hb|Hb]; [done|].
  rewrite (pin_outside held g s b Hi); [done|]. intros Hb'. apply Hb, elem_of_seqZ. lia.
Qed.

Lemma view_unsaved held g s b :
  inv held g s -> quiet g -> b ∈ BlockCache.v_unsaved (cache_view s dev bs) -> b ∈ g_un g.
Proof.
  intros Hi Hq. cbn. rewrite elem_of_list_to_set, list_elem_of_filter. intros [Hu _]. unfold unsaved_at in Hu.
  rewrite (copy_at_inv held g s b Hi Hq) in Hu. destruct (g_vm g !! b) as [p|] eqn:Hv; cbn in Hu; [|done].
  destruct (hit_of held g s b p Hi Hq Hv) as (e & a & Hh). pose proof (ht_ent _ _ _ _ _ _ _ Hh) as He. rewrite He in Hu. cbn in Hu.
  apply andb_true_iff in Hu as [Hd Hne%bool_decide_eq_true]. apply negb_true_iff in Hd.
  destruct (copy_len dev bs N held g s p b e Hi Hv He) as (Hb & _ & _ & Hdk).
  destruct (decide (b ∈ g_un g)) as [|Hn]; [done|]. exfalso. apply Hne. rewrite (data_at_inv held g s b Hi Hq Hb).
  symmetry. by apply Hdk.
Qed.

Definition g_set_un (un : gset Z) (g : ghost) : ghost :=
  Ghost (g_nl g) (g_ll g) (g_fl g) (g_busy g) (g_vm g) (g_x g) (g_L g) un (g_pin g) (g_iov g) (g_iova g).

(** The blocks recorded as unsaved can be those that are. *)
Lemma inv_trim held g s :
  inv held g s -> quiet g -> inv held (g_set_un (BlockCache.v_unsaved (cache_view s dev bs)) g) s.
Proof.
  intros Hi Hq. pose proof (fun b => view_unsaved held g s b Hi Hq) as Hun.
  assert (forall b, 0 <= b < N -> b ∉ BlockCache.v_unsaved (cache_view s dev bs) -> forall p e, g_vm g !! b = Some p ->
    ces s !! p = Some e -> is_dirty e = false -> blk bs (disk dev s) b = g_L g b) as Hcl.
  { intros b Hb Hn p e Hv He Hd. destruct (decide (blk bs (disk dev s) b = g_L g b)) as [|Hne]; [done|]. exfalso. apply Hn. cbn.
    rewrite elem_of_list_to_set, list_elem_of_filter. split.
    - unfold unsaved_at. rewrite (copy_at_inv held g s b Hi Hq), Hv. cbn. rewrite He, Hd. cbn. apply bool_decide_eq_true.
      rewrite (data_at_inv held g s b Hi Hq Hb). by intros E; apply Hne.
    - unfold all_blocks. rewrite (device_blocks_inv held g s Hi). apply elem_of_seqZ. lia. }
  inv_keep Hi. cbn [g_vm g_L g_un g_ll g_set_un]. destruct iv_content as [C1 C2 C3 C4]. split; [|done|auto|done].
  intros b p Hv. destruct (C1 b p Hv) as (Hb & e & He & Hc & _). split; [done|]. exists e. split; [done|]. split; [done|].
  intros Hd Hn. by eapply Hcl.
Qed.

Lemma foldr_min_le (l : list Z) m x : m <= foldr Z.min x l <-> m <= x /\ forall y, y ∈ l -> m <= y.
Proof.
  induction l as [|y l IH]; cbn [foldr].
  - split; [|tauto]. intros H. split; [done|]. by intros y ?%elem_of_nil.
  - rewrite Z.min_glb_iff, IH. split.
    + intros (H1 & H2 & H3). split; [done|]. by intros z [->|Hz]%elem_of_cons; [|apply H3].
    + intros [H1 H2]. split; [apply H2, elem_of_cons; by left|]. split; [done|]. intros z Hz. apply H2, elem_of_cons. by right.
Qed.

Lemma view_low held g s m :
  inv held g s -> quiet g ->
  m <= BlockCache.v_low (cache_view s dev bs) <-> m <= N /\ forall k, is_Some (g_vm g !! k) -> m <= k.
Proof.
  intros Hi Hq. cbn. unfold all_blocks. rewrite (device_blocks_inv held g s Hi), foldr_min_le.
  apply and_iff_compat_l. split; intros H k.
  - intros [p Hv]. apply H, list_elem_of_filter.
    destruct (hit_of held g s k p Hi Hq Hv) as (e & a & Hh). destruct (hit_facts _ _ _ _ _ _ _ Hh) as (Hk & _).
    split; [|apply elem_of_seqZ; lia]. unfold is_cached. rewrite (copy_at_inv held g s k Hi Hq), Hv. cbn.
    rewrite (ht_ent _ _ _ _ _ _ _ Hh). by apply bool_decide_eq_true.
  - intros [Hc _]%list_elem_of_filter. apply H. unfold is_cached in Hc. rewrite (copy_at_inv held g s k Hi Hq) in Hc.
    apply bool_decide_eq_true in Hc. destruct (g_vm g !! k); [by eexists|by destruct Hc].
Qed.

Lemma size_flat l : size (list_to_set_disj l : gmultiset Z) = length l.
Proof.
  induction l as [|x l IH]; [done|]. cbn [list_to_set_disj]. rewrite gmultiset_size_disj_union, gmultiset_size_singleton, IH. done.
Qed.

(** Every entry on the locked list is a block some client holds. *)
Lemma view_size held g s :
  inv held g s -> quiet g -> len (g_ll g) <= Z.of_nat (size (BlockCache.v_pins (cache_view s dev bs))).
Proof.
  intros Hi Hq. cbn. rewrite size_flat. set (flat := _ ≫= _).
  set (bn := fun p => match ces s !! p with Some e => ce_block_num e | None => 0 end).
  pose proof (lo_nodup _ _ _ _ _ _ (iv_lists _ _ _ _ _ _ Hi)) as Hnd. apply NoDup_app in Hnd as (_ & _ & Hnd). apply NoDup_app in Hnd as [Hnd _].
  assert (forall p, p ∈ g_ll g -> g_vm g !! bn p = Some p /\ 0 <= bn p < N /\ 0 < g_pin g (bn p)) as Hl.
  { intros p Hp. destruct (iv_res _ _ _ _ _ _ Hi p) as [b Hb]; [apply elem_of_app; by right|].
    destruct (hit_of held g s b p Hi Hq Hb) as (e & a & Hh). destruct (hit_facts _ _ _ _ _ _ _ Hh) as (Hbn & _ & F2 & _ & _ & _ & _ & _ & _ & F9 & _).
    pose proof (ht_ent _ _ _ _ _ _ _ Hh) as He. unfold bn. rewrite He, F2. split; [done|]. split; [done|].
    destruct (iv_locks _ _ _ _ _ _ Hi p e He) as [H _]. specialize (H Hp). lia. }
  assert (NoDup (bn <$> g_ll g)) as Hndb.
  { apply NoDup_fmap_2_strong; [|done]. intros x y Hx Hy E. destruct (Hl x Hx) as [H1 _], (Hl y Hy) as [H2 _]. congruence. }
  assert ((bn <$> g_ll g) ⊆+ flat) as Hsub.
  { apply NoDup_submseteq; [done|]. intros b Hb. apply list_elem_of_fmap in Hb as (p & -> & Hp). destruct (Hl p Hp) as (_ & Hbn & Hpin).
    unfold flat. apply list_elem_of_bind. exists (bn p). split.
    - rewrite (locks_at_inv held g s _ Hi Hq). apply elem_of_replicate. split; [done|]. lia.
    - unfold all_blocks. rewrite (device_blocks_inv held g s Hi). apply elem_of_seqZ. lia. }
  apply submseteq_length in Hsub. rewrite length_fmap in Hsub. unfold len. lia.
Qed.
(** ** How the view changes *)

Section change.
Context {held held' : bool} {g g' : ghost} {s s' : cst}.
Hypothesis (Hi : inv held g s) (Hq : quiet g) (Hi' : inv held' g' s') (Hq' : quiet g').
Abbreviation v := (cache_view s dev bs).
Abbreviation v' := (cache_view s' dev bs).

Lemma change_data (data : gmap Z (list byte)) :
  (forall b, data !! b = if decide (0 <= b < N) then Some (g_L g' b) else None) -> BlockCache.v_data v' = data.
Proof. intros Hd. apply map_eq. intros b. by rewrite (view_data held' g' s' b Hi' Hq'), Hd. Qed.

Lemma same_data : (forall b, 0 <= b < N -> g_L g' b = g_L g b) -> BlockCache.v_data v' = BlockCache.v_data v.
Proof.
  intros HL. apply change_data. intros b. rewrite (view_data held g s b Hi Hq). destruct (decide (0 <= b < N)); [|done]. by rewrite HL.
Qed.
Lemma insert_data c d :
  0 <= c < N -> (forall b, 0 <= b < N -> g_L g' b = if decide (b = c) then d else g_L g b) ->
  BlockCache.v_data v' = <[c := d]> (BlockCache.v_data v).
Proof.
  intros Hc HL. apply change_data. intros b. destruct (decide (b = c)) as [->|Hne].
  - rewrite lookup_insert_eq, decide_True by done. by rewrite HL, decide_True.
  - rewrite lookup_insert_ne, (view_data held g s b Hi Hq) by done. destruct (decide (0 <= b < N)); [|done]. by rewrite HL, decide_False.
Qed.

Lemma same_pins : (forall b, g_pin g' b = g_pin g b) -> BlockCache.v_pins v' = BlockCache.v_pins v.
Proof.
  intros HP. apply gmultiset_eq. intros b. by rewrite (view_pins held' g' s' b Hi' Hq'), (view_pins held g s b Hi Hq), HP.
Qed.
Lemma add_pin c : (forall b, g_pin g' b = g_pin g b + (if decide (b = c) then 1 else 0)) ->
  BlockCache.v_pins v' = BlockCache.v_pins v ⊎ {[+ c +]}.
Proof.
  intros HP. apply gmultiset_eq. intros b.
  rewrite multiplicity_disj_union, (view_pins held' g' s' b Hi' Hq'), (view_pins held g s b Hi Hq), HP, multiplicity_singleton.
  pose proof (pin_nonneg held g s b Hi Hq). destruct (decide (b = c)); lia.
Qed.
Lemma drop_pin c : (forall b, g_pin g' b = if decide (b = c) then g_pin g b + -1 else g_pin g b) ->
  BlockCache.v_pins v' = BlockCache.v_pins v ∖ {[+ c +]}.
Proof.
  intros HP. apply gmultiset_eq. intros b.
  rewrite multiplicity_difference, (view_pins held' g' s' b Hi' Hq'), (view_pins held g s b Hi Hq), HP, multiplicity_singleton.
  pose proof (pin_nonneg held g s b Hi Hq). destruct (decide (b = c)); lia.
Qed.

Lemma less_unsaved (X : gset Z) : (forall b, b ∈ g_un g' -> b ∈ X) -> BlockCache.v_unsaved v' ⊆ X.
Proof. intros H b Hb. by apply H, (view_unsaved held' g' s' b Hi' Hq'). Qed.

Lemma low_near b : near b g g' -> Z.min b (BlockCache.v_low v) <= BlockCache.v_low v'.
Proof.
  intros [Hd _ _]. apply (view_low held' g' s' _ Hi' Hq').
  destruct (view_low held g s (BlockCache.v_low v) Hi Hq) as [H _]. destruct (H ltac:(lia)) as [HN Hk]. split; [lia|].
  intros k Hk'. destruct (Hd k Hk') as [H1|H1]; [specialize (Hk k H1); lia|lia].
Qed.
Lemma low_same : g_vm g' = g_vm g -> BlockCache.v_low v <= BlockCache.v_low v'.
Proof.
  intros E. apply (view_low held' g' s' _ Hi' Hq'). rewrite E. by apply (view_low held g s _ Hi Hq).
Qed.
End change.

(** ** The runs of blocks of the laws *)

Lemma blocks_at_view held g s b n d :
  inv held g s -> quiet g -> (0 < n)%nat -> BlockCache.blocks_at (BlockCache.v_data (cache_view s dev bs)) b n = Some d ->
  0 <= b /\ b + Z.of_nat n <= N /\ d = mjoin (run_data (g_L g) b n).
Proof.
  intros Hi Hq. revert b d. induction n as [|n IH]; intros b d Hn Hd; [lia|]. cbn [BlockCache.blocks_at] in Hd.
  rewrite (view_data held g s b Hi Hq) in Hd. destruct (decide (0 <= b < N)) as [Hb|]; [|done]. cbn in Hd.
  destruct (BlockCache.blocks_at _ (b + 1) n) as [r|] eqn:Er; [|done]. injection Hd as <-. rewrite run_data_S.
  change (mjoin (?x :: ?l)) with (x ++ mjoin l). destruct n as [|n].
  - cbn in Er. injection Er as <-. split; [lia|]. split; [lia|done].
  - destruct (IH (b + 1) r ltac:(lia) Er) as (H1 & H2 & ->). split; [lia|]. split; [lia|done].
Qed.

Lemma put_blocks_lookup b n d data k :
  BlockCache.put_blocks bs b n d data !! k =
    if decide (b <= k < b + Z.of_nat n) then Some (take (Z.to_nat bs) (drop (Z.to_nat ((k - b) * bs)) d)) else data !! k.
Proof.
  pose proof CG as [_ Hbs _]. revert b d data. induction n as [|n IH]; intros b d data; cbn [BlockCache.put_blocks].
  - by rewrite decide_False by lia.
  - rewrite IH. destruct (decide (b + 1 <= k < b + 1 + Z.of_nat n)) as [Hk|Hk].
    + rewrite decide_True by lia. rewrite drop_drop. do 3 f_equal. nia.
    + destruct (decide (k = b)) as [->|Hne].
      * rewrite lookup_insert_eq, decide_True by lia. by rewrite Z.sub_diag.
      * rewrite lookup_insert_ne by done. by rewrite decide_False by lia.
Qed.
End view.

(** ** The implementation *)

(** [open_path] stands for open(2), which finds the descriptor of a path. *)
Definition cache_ops (open_path : list byte -> Z) : BlockCache.BlockCache cst := {|
  BlockCache.get_block dev b bs := r ← get_block dev b bs; mret (const (BlockCache.BPtr dev b) <$> r);
  BlockCache.get_empty_block dev b bs := r ← get_empty_block dev b bs; mret (const (BlockCache.BPtr dev b) <$> r);
  BlockCache.release_block := release_block;
  BlockCache.mark_blocks_dirty := mark_blocks_dirty;
  BlockCache.cached_read := cached_read;
  BlockCache.cached_write := cached_write;
  BlockCache.load := cache_load;
  BlockCache.store := cache_store;
  BlockCache.init_cache_for_device := init_cache_for_device;
  BlockCache.remove_cached_device_blocks := remove_cached_device_blocks;
  BlockCache.read_pos fd pos n := in_os (read_pos fd pos n);
  BlockCache.write_pos fd pos d := in_os (write_pos fd pos d);
  BlockCache.dev_open path := mret (open_path path);
  BlockCache.dev_close _ := mret 0;
  BlockCache.dev_size := file_size;
|}.

Definition cache_ready (s : cst) (dev bs : Z) : Prop :=
  exists N g, CacheGeom dev bs N /\ CacheInv.inv dev bs N false g s /\ quiet g.

(** The invariant, with the unsaved blocks those of the view. *)
Lemma ready_ghost s dev bs :
  cache_ready s dev bs -> exists N g, CacheGeom dev bs N /\ CacheInv.inv dev bs N false g s /\ quiet g /\
    g_un g = BlockCache.v_unsaved (cache_view s dev bs).
Proof.
  intros (N & g & HG & Hi & Hq). exists N. eexists. split; [done|]. split; [by apply (inv_trim false g s)|].
  by split; [destruct Hq; split|].
Qed.

Section laws.
Context {dev bs N : Z} {CG : CacheGeom dev bs N}.
Abbreviation inv := (CacheInv.inv dev bs N).

Lemma done_ready g s : inv false g s -> quiet g -> cache_ready s dev bs.
Proof. intros Hi Hq. by exists N, g. Qed.

Lemma view_block held g s b :
  inv held g s -> quiet g -> is_Some (BlockCache.v_data (cache_view s dev bs) !! b) -> 0 <= b < N.
Proof. intros Hi Hq [d Hd]. rewrite (view_data held g s b Hi Hq) in Hd. by destruct (decide (0 <= b < N)). Qed.

Lemma view_pinned held g s b :
  inv held g s -> quiet g -> b ∈ BlockCache.v_pins (cache_view s dev bs) -> 0 < g_pin g b.
Proof.
  intros Hi Hq Hb. rewrite elem_of_multiplicity, (view_pins held g s b Hi Hq) in Hb. lia.
Qed.

(** [get_block] and [get_empty_block] *)
Lemma get_one_wp op g s b (Q : option Z -> cst -> Prop) :
  inv false g s -> quiet g -> len (g_ll g) <= 8 -> 0 <= b < N -> asks op CACHE_LOCKED = true -> asks op CACHE_WRITE = false ->
  (asks op CACHE_READ = true \/ asks op CACHE_NOOP = true) ->
  (forall g' s' p e a, inv false g' s' -> quiet g' ->
     (forall k, g_L g' k = if decide (k = b) then op_data op None bs (g_L g b) else g_L g k) ->
     (forall k, g_pin g' k = g_pin g k + (if decide (k = b) then 1 else 0)) -> (forall k, k ∈ g_un g' -> k ∈ g_un g) ->
     near b g g' -> g_vm g' !! b = Some p -> ces s' !! p = Some e -> ce_data e = Some a -> Q (Some a) s') ->
  wp ('(r, _, p) ← cache_block_io dev b None 1 bs op true; mret (if r =? 0 then p else None)) Q s.
Proof.
  intros Hi Hq Hll Hb Hlk Hw Hk HQ. wp_step.
  eapply (cache_block_io_wp b None 1 op true g); [exact Hi|exact Hq|exact Hll|lia|lia|lia| |done|done|].
  { split; [tauto| |done|done|done]. intros _ E. congruence. }
  intros g' s' dptr' Hi' Hq' Ht Hn (p & e & Hv & He & ->). wp_step.
  destruct (hit_of false g' s' b p Hi' Hq' Hv) as (e' & a & Hh).
  pose proof (ht_ent _ _ _ _ _ _ _ Hh) as He'. assert (e' = e) as -> by congruence.
  rewrite (ht_data _ _ _ _ _ _ _ Hh). apply (HQ g' s' p e a); [done|done| | |apply Ht|done|done|done|apply Hh].
  - intros k. rewrite (tr_L _ _ _ _ _ _ Ht). destruct (decide (k = b)) as [->|Hne].
    + rewrite decide_True by lia. by rewrite Z.sub_diag.
    + by rewrite decide_False by lia.
  - intros k. rewrite (tr_pin _ _ _ _ _ _ Ht). unfold lock_inc. rewrite Hlk.
    destruct (decide (k = b)), (decide (b <= k < b + 1)); lia.
Qed.

Lemma held_buf_wp held g s b p e a (Q : Z -> cst -> Prop) :
  hit (dev := dev) (bs := bs) (N := N) held g s b p e a -> 0 < ce_lock e -> Q a s -> wp (held_buf (BlockCache.BPtr dev b)) Q s.
Proof.
  intros Hh Hlk HQ. unfold held_buf. cbn [BlockCache.p_dev BlockCache.p_bnum]. wp_step.
  apply (hash_lookup_inv dev bs N held g s b); [apply Hh|]. rewrite hmap_lookup, (ht_vm _ _ _ _ _ _ _ Hh).
  wp_step. eapply ent_wp; [apply Hh|]. rewrite (proj2 (Z.eqb_neq _ _)) by lia. rewrite (ht_data _ _ _ _ _ _ _ Hh). by wp_step.
Qed.
End laws.

(** Starts the proof of a law: the invariant, with its unsaved blocks. *)
Ltac law_start Hok :=
  let N := fresh "N" in let g := fresh "g" in let HG := fresh "HG" in
  destruct (ready_ghost _ _ _ Hok) as (N & g & HG & Hi & Hq & Hun).

Section proofs.
Context (open_path : list byte -> Z).
Local Instance the_ops : BlockCache.BlockCache cst := cache_ops open_path.

Lemma law_len c dev bs b d :
  cache_ready c dev bs -> BlockCache.v_data (cache_view c dev bs) !! b = Some d -> len d = bs.
Proof.
  intros Hok. law_start Hok. rewrite (view_data false g c b Hi Hq). destruct (decide (0 <= b < N)); [|done].
  intros [= <-]. by apply (co_len _ _ _ _ _ _ _ _ _ _ (iv_content _ _ _ _ _ _ Hi)).
Qed.

Lemma law_get_block c dev bs b :
  cache_ready c dev bs -> is_Some (BlockCache.v_data (cache_view c dev bs) !! b) ->
  (size (BlockCache.v_pins (cache_view c dev bs)) < BlockCache.MAX_PINS)%nat ->
  wp (BlockCache.get_block dev b bs) (fun r c' => r = Some (BlockCache.BPtr dev b) /\ cache_ready c' dev bs /\
    let v := cache_view c dev bs in let v' := cache_view c' dev bs in
    BlockCache.v_data v' = BlockCache.v_data v /\ BlockCache.v_pins v' = BlockCache.v_pins v ⊎ {[+ b +]} /\
    BlockCache.v_unsaved v' ⊆ BlockCache.v_unsaved v /\ Z.min b (BlockCache.v_low v) <= BlockCache.v_low v') c.
Proof.
  intros Hok Hb Hsz. law_start Hok. pose proof (view_block false g c b Hi Hq Hb) as Hbn.
  pose proof (view_size false g c Hi Hq) as Hll. unfold BlockCache.MAX_PINS in Hsz.
  cbn [BlockCache.get_block the_ops cache_ops]. wp_step. unfold get_block.
  eapply (get_one_wp _ g); [exact Hi|exact Hq|lia|exact Hbn|done|done|by left|].
  intros g' s' p e a Hi' Hq' HL HP HU Hn _ _ _. wp_step. cbv zeta. split; [done|]. split; [by exists N, g'|].
  split; [|split; [|split]].
  - eapply (same_data Hi Hq Hi' Hq'). intros k Hk. rewrite HL. by destruct (decide (k = b)) as [->|].
  - by eapply (add_pin Hi Hq Hi' Hq').
  - eapply (less_unsaved Hi' Hq'). intros k Hk. rewrite <- Hun. by apply HU.
  - by eapply (low_near Hi Hq Hi' Hq').
Qed.

Lemma law_get_empty_block c dev bs b :
  cache_ready c dev bs -> is_Some (BlockCache.v_data (cache_view c dev bs) !! b) ->
  (size (BlockCache.v_pins (cache_view c dev bs)) < BlockCache.MAX_PINS)%nat ->
  wp (BlockCache.get_empty_block dev b bs) (fun r c' => r = Some (BlockCache.BPtr dev b) /\ cache_ready c' dev bs /\
    let v := cache_view c dev bs in let v' := cache_view c' dev bs in
    BlockCache.v_data v' = <[b := replicate (Z.to_nat bs) x00]> (BlockCache.v_data v) /\
    BlockCache.v_pins v' = BlockCache.v_pins v ⊎ {[+ b +]} /\
    BlockCache.v_unsaved v' ⊆ BlockCache.v_unsaved v /\ Z.min b (BlockCache.v_low v) <= BlockCache.v_low v') c.
Proof.
  intros Hok Hb Hsz. law_start Hok. pose proof (view_block false g c b Hi Hq Hb) as Hbn.
  pose proof (view_size false g c Hi Hq) as Hll. unfold BlockCache.MAX_PINS in Hsz.
  cbn [BlockCache.get_empty_block the_ops cache_ops]. wp_step. unfold get_empty_block.
  eapply (get_one_wp _ g); [exact Hi|exact Hq|lia|exact Hbn|done|done|by right|].
  intros g' s' p e a Hi' Hq' HL HP HU Hn _ _ _. wp_step. cbv zeta. split; [done|]. split; [by exists N, g'|].
  split; [|split; [|split]].
  - eapply (insert_data Hi Hq Hi' Hq'); [exact Hbn|]. intros k Hk. rewrite HL. done.
  - by eapply (add_pin Hi Hq Hi' Hq').
  - eapply (less_unsaved Hi' Hq'). intros k Hk. rewrite <- Hun. by apply HU.
  - by eapply (low_near Hi Hq Hi' Hq').
Qed.
Lemma law_release c dev bs b :
  cache_ready c dev bs -> b ∈ BlockCache.v_pins (cache_view c dev bs) -> b ∉ BlockCache.v_unsaved (cache_view c dev bs) ->
  wp (BlockCache.release_block dev b) (fun r c' => r = 0 /\ cache_ready c' dev bs /\
    let v := cache_view c dev bs in let v' := cache_view c' dev bs in
    BlockCache.v_data v' = BlockCache.v_data v /\ BlockCache.v_pins v' = BlockCache.v_pins v ∖ {[+ b +]} /\
    BlockCache.v_unsaved v' ⊆ BlockCache.v_unsaved v /\ BlockCache.v_low v <= BlockCache.v_low v') c.
Proof.
  intros Hok Hb Hu. law_start Hok. pose proof (view_pinned false g c b Hi Hq Hb) as Hp. rewrite <- Hun in Hu.
  cbn [BlockCache.release_block the_ops cache_ops]. eapply release_wp; [exact Hi|exact Hq|exact Hp|exact Hu|].
  intros g' s' Hi' Hq' [SL SP SU SV]. cbv zeta. split; [done|]. split; [by exists N, g'|]. split; [|split; [|split]].
  - eapply (same_data Hi Hq Hi' Hq'). intros k Hk. rewrite SL. by destruct (decide (k = b)) as [->|].
  - by eapply (drop_pin Hi Hq Hi' Hq').
  - eapply (less_unsaved Hi' Hq'). intros k Hk. rewrite <- Hun. by destruct (SU k Hk) as [[? _]|[_ ?]].
  - by eapply (low_same Hi Hq Hi' Hq').
Qed.

Lemma law_mark c dev bs b :
  cache_ready c dev bs -> b ∈ BlockCache.v_pins (cache_view c dev bs) ->
  wp (BlockCache.mark_blocks_dirty dev b 1) (fun r c' => r = 0 /\ cache_ready c' dev bs /\
    let v := cache_view c dev bs in let v' := cache_view c' dev bs in
    BlockCache.v_data v' = BlockCache.v_data v /\ BlockCache.v_pins v' = BlockCache.v_pins v /\
    BlockCache.v_unsaved v' ⊆ BlockCache.v_unsaved v ∖ {[b]} /\ BlockCache.v_low v <= BlockCache.v_low v') c.
Proof.
  intros Hok Hb. law_start Hok. pose proof (view_pinned false g c b Hi Hq Hb) as Hp.
  cbn [BlockCache.mark_blocks_dirty the_ops cache_ops]. eapply mark_wp; [exact Hi|exact Hq|exact Hp|].
  intros g' s' Hi' Hq' [SL SP SU SV]. cbv zeta. split; [done|]. split; [by exists N, g'|]. split; [|split; [|split]].
  - eapply (same_data Hi Hq Hi' Hq'). intros k Hk. rewrite SL. by destruct (decide (k = b)) as [->|].
  - eapply (same_pins Hi Hq Hi' Hq'). intros k. rewrite SP. destruct (decide (k = b)); lia.
  - eapply (less_unsaved Hi' Hq'). intros k Hk. rewrite <- Hun. destruct (SU k Hk) as [[? Hkb]|[_ ?]]; [|done].
    apply elem_of_difference. split; [done|]. intros ->%elem_of_singleton. by specialize (Hkb eq_refl).
  - by eapply (low_same Hi Hq Hi' Hq').
Qed.

Lemma law_load c dev bs b d :
  cache_ready c dev bs -> b ∈ BlockCache.v_pins (cache_view c dev bs) ->
  BlockCache.v_data (cache_view c dev bs) !! b = Some d ->
  wp (BlockCache.load (BlockCache.BPtr dev b)) (fun r c' => r = d /\ c' = c) c.
Proof.
  intros Hok Hb Hd. law_start Hok. pose proof (view_pinned false g c b Hi Hq Hb) as Hp.
  rewrite (view_data false g c b Hi Hq) in Hd. destruct (decide (0 <= b < N)) as [Hbn|]; [|done]. injection Hd as <-.
  destruct (held_hit false g c b Hi Hq Hp) as (p & e & a & Hh & Hlk & _).
  destruct (hit_facts _ _ _ _ _ _ _ Hh) as (_ & _ & _ & _ & _ & _ & _ & F7 & _).
  cbn [BlockCache.load the_ops cache_ops]. unfold cache_load. wp_step. eapply held_buf_wp; [exact Hh|exact Hlk|].
  wp_step. wp_step. rewrite F7. by wp_step.
Qed.

Lemma law_store c dev bs b d :
  cache_ready c dev bs -> b ∈ BlockCache.v_pins (cache_view c dev bs) -> len d = bs ->
  wp (BlockCache.store (BlockCache.BPtr dev b) d) (fun _ c' => cache_ready c' dev bs /\
    let v := cache_view c dev bs in let v' := cache_view c' dev bs in
    BlockCache.v_data v' = <[b := d]> (BlockCache.v_data v) /\ BlockCache.v_pins v' = BlockCache.v_pins v /\
    BlockCache.v_unsaved v' ⊆ BlockCache.v_unsaved v ∪ {[b]} /\ BlockCache.v_low v <= BlockCache.v_low v') c.
Proof.
  intros Hok Hb Hd. law_start Hok. pose proof (view_pinned false g c b Hi Hq Hb) as Hp.
  destruct (held_hit false g c b Hi Hq Hp) as (p & e & a & Hh & Hlk & Hpl).
  destruct (hit_facts _ _ _ _ _ _ _ Hh) as (Hbn & _ & _ & _ & _ & _ & _ & F7 & F8 & _).
  cbn [BlockCache.store the_ops cache_ops]. unfold cache_store. wp_step. eapply held_buf_wp; [exact Hh|exact Hlk|].
  eapply store_buf_wp; [exact F7|congruence|].
  destruct (store_held g c b p e a d Hh Hlk Hpl Hd) as (g' & Hi' & Hq' & [SL SP SU SV]). cbv zeta.
  split; [by exists N, g'|]. split; [|split; [|split]].
  - eapply (insert_data Hi Hq Hi' Hq'); [exact Hbn|]. intros k _. apply SL.
  - eapply (same_pins Hi Hq Hi' Hq'). intros k. rewrite SP. destruct (decide (k = b)); lia.
  - eapply (less_unsaved Hi' Hq'). intros k Hk. rewrite <- Hun. destruct (SU k Hk) as [[? _]|[-> _]]; set_solver.
  - by eapply (low_same Hi Hq Hi' Hq').
Qed.

Lemma law_cached_read c dev bs b n d :
  cache_ready c dev bs -> 0 < n -> (size (BlockCache.v_pins (cache_view c dev bs)) <= BlockCache.MAX_PINS)%nat ->
  BlockCache.blocks_at (BlockCache.v_data (cache_view c dev bs)) b (Z.to_nat n) = Some d ->
  wp (BlockCache.cached_read dev b n bs) (fun r c' => r = (0, d) /\ cache_ready c' dev bs /\
    let v := cache_view c dev bs in let v' := cache_view c' dev bs in
    BlockCache.v_data v' = BlockCache.v_data v /\ BlockCache.v_pins v' = BlockCache.v_pins v /\
    BlockCache.v_unsaved v' ⊆ BlockCache.v_unsaved v /\ Z.min b (BlockCache.v_low v) <= BlockCache.v_low v') c.
Proof.
  intros Hok Hn Hsz Hd. law_start Hok. pose proof (view_size false g c Hi Hq) as Hll. unfold BlockCache.MAX_PINS in Hsz.
  destruct (blocks_at_view false g c b (Z.to_nat n) d Hi Hq ltac:(lia) Hd) as (Hb & HbN & ->).
  cbn [BlockCache.cached_read the_ops cache_ops]. unfold cached_read. wp_step.
  eapply (cache_block_io_wp b (Some []) n _ false g); [exact Hi|exact Hq|lia|exact Hb|lia|lia| |done|done|].
  { split; [by left|done|done|done|done]. }
  intros g' s' dptr' Hi' Hq' [TL TU TP TC] Hnr _. wp_step. rewrite op_outs_read by (done || by eexists).
  cbv zeta. split; [done|]. split; [by exists N, g'|]. split; [|split; [|split]].
  - eapply (same_data Hi Hq Hi' Hq'). intros k Hk. rewrite TL. by destruct (decide (b <= k < b + n)).
  - eapply (same_pins Hi Hq Hi' Hq'). intros k. rewrite TP. change (lock_inc (CACHE_READ + CACHE_READ_AHEAD_OK)) with 0. destruct (decide (b <= k < b + n)); lia.
  - eapply (less_unsaved Hi' Hq'). intros k Hk. rewrite <- Hun. by apply TU.
  - by eapply (low_near Hi Hq Hi' Hq').
Qed.

Lemma law_cached_write c dev bs b d n :
  cache_ready c dev bs -> 0 < n -> (size (BlockCache.v_pins (cache_view c dev bs)) <= BlockCache.MAX_PINS)%nat ->
  is_Some (BlockCache.blocks_at (BlockCache.v_data (cache_view c dev bs)) b (Z.to_nat n)) -> len d = n * bs ->
  wp (BlockCache.cached_write dev b d n bs) (fun r c' => r = 0 /\ cache_ready c' dev bs /\
    let v := cache_view c dev bs in let v' := cache_view c' dev bs in
    BlockCache.v_data v' = BlockCache.put_blocks bs b (Z.to_nat n) d (BlockCache.v_data v) /\
    BlockCache.v_pins v' = BlockCache.v_pins v /\
    BlockCache.v_unsaved v' ⊆ BlockCache.v_unsaved v /\ Z.min b (BlockCache.v_low v) <= BlockCache.v_low v') c.
Proof.
  intros Hok Hn Hsz [old Hold] Hd. law_start Hok. pose proof (view_size false g c Hi Hq) as Hll. unfold BlockCache.MAX_PINS in Hsz.
  destruct (blocks_at_view false g c b (Z.to_nat n) old Hi Hq ltac:(lia) Hold) as (Hb & HbN & _).
  cbn [BlockCache.cached_write the_ops cache_ops]. unfold cached_write. wp_step.
  eapply (cache_block_io_wp b (Some d) n _ false g); [exact Hi|exact Hq|lia|exact Hb|lia|lia| |done|done|].
  { split; [by right; left| |done|done|done]. intros _ _. by exists d. }
  intros g' s' dptr' Hi' Hq' [TL TU TP TC] Hnr _. wp_step.
  cbv zeta. split; [done|]. split; [by exists N, g'|]. split; [|split; [|split]].
  - eapply (change_data Hi' Hq'). intros k. rewrite put_blocks_lookup, TL, (view_data false g c k Hi Hq).
    rewrite Z2Nat.id by lia. destruct (decide (b <= k < b + n)); [|done]. by rewrite decide_True by lia.
  - eapply (same_pins Hi Hq Hi' Hq'). intros k. rewrite TP. change (lock_inc CACHE_WRITE) with 0. destruct (decide (b <= k < b + n)); lia.
  - eapply (less_unsaved Hi' Hq'). intros k Hk. rewrite <- Hun. by apply TU.
  - by eapply (low_near Hi Hq Hi' Hq').
Qed.

Lemma law_write_pos c dev bs b d :
  cache_ready c dev bs -> 0 <= b < BlockCache.v_low (cache_view c dev bs) ->
  is_Some (BlockCache.v_data (cache_view c dev bs) !! b) -> len d = bs ->
  wp (BlockCache.write_pos dev (b * bs) d) (fun r c' => r = bs /\ cache_ready c' dev bs /\
    let v := cache_view c dev bs in let v' := cache_view c' dev bs in
    BlockCache.v_data v' = <[b := d]> (BlockCache.v_data v) /\ BlockCache.v_pins v' = BlockCache.v_pins v /\
    BlockCache.v_unsaved v' ⊆ BlockCache.v_unsaved v /\ BlockCache.v_low v <= BlockCache.v_low v') c.
Proof.
  intros Hok Hlow Hb Hd. law_start Hok. pose proof (view_block false g c b Hi Hq Hb) as Hbn.
  assert (g_vm g !! b = None) as Hv.
  { apply eq_None_not_Some. intros Hv. destruct (view_low false g c (BlockCache.v_low (cache_view c dev bs)) Hi Hq) as [H _].
    destruct (H ltac:(lia)) as [_ Hk]. specialize (Hk b Hv). lia. }
  cbn [BlockCache.write_pos the_ops cache_ops]. eapply (raw_write_wp b d g); [exact Hi|exact Hq|exact Hbn|exact Hv|exact Hd|].
  intros s' Hi'. assert (quiet (g_set_L (fun k => if decide (k = b) then d else g_L g k) g)) as Hq' by (destruct Hq; by split).
  cbv zeta. split; [done|]. split; [by eexists N, _|]. split; [|split; [|split]].
  - by eapply (insert_data Hi Hq Hi' Hq').
  - by eapply (same_pins Hi Hq Hi' Hq').
  - eapply (less_unsaved Hi' Hq'). intros k Hk. by rewrite <- Hun.
  - by eapply (low_same Hi Hq Hi' Hq').
Qed.

Definition cache_laws : BlockCache.BlockCacheLaws cst := {|
  BlockCache.cache_ok := cache_ready;
  BlockCache.cview := cache_view;
  BlockCache.cache_block_len := law_len;
  BlockCache.get_block_law := law_get_block;
  BlockCache.get_empty_block_law := law_get_empty_block;
  BlockCache.release_block_law := law_release;
  BlockCache.mark_dirty_law := law_mark;
  BlockCache.load_law := law_load;
  BlockCache.store_law := law_store;
  BlockCache.cached_read_law := law_cached_read;
  BlockCache.cached_write_law := law_cached_write;
  BlockCache.write_pos_law := law_write_pos;
|}.
End proofs.
