(* ===== verification/CacheFlush.v ===== *)
(** * CacheFlush: flushing a device (cache.c)

    [flush_device] leaves the device with what readers see of every block that
    no client holds. *)

From S2P Require Import Prelude Bytes Host Device HashTable CacheList Cache CacheIo CacheInv CacheMiss CachePut CacheFill CacheFetch CacheLoop.
Local Open Scope Z_scope.

Section flush.
Context {dev bs N : Z} {CG : CacheGeom dev bs N}.
Abbreviation inv := (CacheInv.inv dev bs N).

(** Entries may have become clean, nothing else of them changed. *)
Definition cleaner (s s' : cst) : Prop :=
  forall p e', ces s' !! p = Some e' -> exists e, ces s !! p = Some e /\ (is_dirty e = false -> is_dirty e' = false).

Lemma cleaner_refl s : cleaner s s.
Proof. intros p e He. by exists e. Qed.
Lemma cleaner_trans s1 s2 s3 : cleaner s1 s2 -> cleaner s2 s3 -> cleaner s1 s3.
Proof.
  intros H1 H2 p e3 H3. destruct (H2 p e3 H3) as (e2 & He2 & D2). destruct (H1 p e2 He2) as (e1 & He1 & D1).
  exists e1. auto.
Qed.
Lemma cleaner_sim s s' : sim s s' -> cleaner s s'.
Proof. intros [_ Hs] p e' He'. destruct (Hs p e' He') as (e & He & (_ & _ & _ & _ & _ & _ & E)). exists e. by rewrite E. Qed.
Lemma cleaner_flushed l s s' : flushed l s s' -> cleaner s s'.
Proof.
  intros [_ Hq] p e' He'. rewrite Hq in He'. destruct (ces s !! p) as [e|]; [|done]. exists e. split; [done|].
  destruct (decide (p ∈ l)); injection He' as <-; [by rewrite dirty_clear_dirty|done].
Qed.
Lemma cleaner_ces s s' : ces s' = ces s -> cleaner s s'.
Proof. intros E p e He. exists e. by rewrite <- E. Qed.

(** ** Marking and unmarking *)

Lemma mark_busy_wp held l g s (Q : unit -> cst -> Prop) :
  inv held g s -> (forall p, p ∈ l -> is_Some (ces s !! p)) ->
  (forall s' busy, inv held (g_set_busy busy g) s' -> sim s s' -> (forall p, p ∈ busy <-> p ∈ g_busy g \/ p ∈ l) -> Q tt s') ->
  wp (each (fun p => upd_ent p (or_flags CE_BUSY)) l) Q s.
Proof.
  revert g s. induction l as [|p l IH]; intros g s Hi Hs HQ; cbn [each].
  { wp_step. apply (HQ s (g_busy g)); [by rewrite g_set_busy_id|apply sim_refl|]. intros p. rewrite elem_of_nil. tauto. }
  wp_step. eapply set_busy_wp; [exact Hi|apply Hs, elem_of_cons; by left|]. intros s1 Hi1 Hs1.
  eapply IH; [exact Hi1| |].
  - intros q Hq. destruct (Hs q) as [e He]; [apply elem_of_cons; by right|]. destruct Hs1 as [_ Hs1].
    apply (lo_dom _ _ _ _ _ _ (iv_lists _ _ _ _ _ _ Hi1)), (lo_dom _ _ _ _ _ _ (iv_lists _ _ _ _ _ _ Hi)). by exists e.
  - intros s2 busy Hi2 Hs2 Hb. apply (HQ s2 busy); [done|by eapply sim_trans|]. intros q. rewrite Hb. cbn.
    rewrite !elem_of_cons. tauto.
Qed.

Lemma clear_busy_each_wp held l busy g s (Q : unit -> cst -> Prop) :
  inv held (g_set_busy busy g) s -> (forall p, p ∈ busy -> p ∈ l) -> (forall p, p ∈ l -> is_Some (ces s !! p)) ->
  (forall s', inv held (g_set_busy [] g) s' -> sim s s' -> Q tt s') -> wp (each clear_busy l) Q s.
Proof.
  revert busy s. induction l as [|p l IH]; intros busy s Hi Hb Hs HQ; cbn [each].
  { wp_step. apply HQ; [|apply sim_refl]. destruct busy as [|q busy]; [done|]. exfalso.
    apply (not_elem_of_nil q), Hb, elem_of_cons. by left. }
  destruct (Hs p) as [e He]; [apply elem_of_cons; by left|].
  set (busy' := filter (fun q => q <> p) busy).
  pose proof (inv_flags dev bs N held (g_set_busy busy g) s p e (Z.land (ce_flags e) (Z.lnot CE_BUSY)) busy' Hi He) as Hi1.
  wp_step. unfold clear_busy at 1. eapply upd_ent_wp; [exact He|]. change (ce_set_flags _ e) with (clear_flags CE_BUSY e) in Hi1.
  eapply (IH busy').
  - apply Hi1.
    + left. apply dirty_clear_busy.
    + intros _. rewrite busy_clear_busy. symmetry. apply bool_decide_false. unfold busy'. rewrite list_elem_of_filter. tauto.
    + intros q _ Hq. unfold busy'. rewrite list_elem_of_filter. cbn. tauto.
  - intros q. unfold busy'. rewrite list_elem_of_filter. intros [Hq Hqb]. specialize (Hb q Hqb).
    apply elem_of_cons in Hb as [->|?]; done.
  - intros q Hq. cbn. rewrite lookup_insert_is_Some'. right. apply Hs, elem_of_cons. by right.
  - intros s' Hi' Hs'. apply HQ; [done|]. eapply sim_trans; [|exact Hs']. apply (sim_insert s p e); [done|].
    unfold same_block. rewrite dirty_clear_busy. done.
Qed.
(** ** One batch *)

Lemma flushable_listed held g s1 busy p :
  inv held (g_set_busy busy g) s1 -> p ∈ g_nl g -> flushable dev (g_set_busy busy g) s1 p.
Proof.
  intros Hi Hp. destruct (nl_ent held _ s1 p Hi Hp) as (e & He & Hlk & _).
  destruct (iv_res _ _ _ _ _ _ Hi p) as [b Hb]; [apply elem_of_app; by left|].
  destruct (copy_len dev bs N held _ s1 p b e Hi Hb He) as (_ & (E1 & E2 & _) & _).
  exists e. split; [done|]. split; [done|]. right. by rewrite E2.
Qed.

Lemma do_flush_wp l g s (Q : unit -> cst -> Prop) :
  inv true g s -> quiet g -> (forall p, p ∈ l -> p ∈ g_nl g) ->
  (forall s', inv true g s' -> cleaner s s' -> (forall p e, p ∈ l -> ces s' !! p = Some e -> is_dirty e = false) -> Q tt s') ->
  wp (do_flush l) Q s.
Proof.
  intros Hi Hq Hl HQ.
  assert (forall held g' s', inv held g' s' -> g_nl g' = g_nl g -> forall p, p ∈ l -> is_Some (ces s' !! p)) as Hsome.
  { intros held g' s' Hi' E p Hp. apply (inv_some held g' s' p Hi'). rewrite E. apply elem_of_app. left. auto. }
  unfold do_flush. wp_step. eapply mark_busy_wp; [exact Hi|by eapply Hsome|]. intros s1 busy Hi1 Hs1 Hb.
  rewrite (qt_busy g Hq) in Hb. wp_step. eapply UNLOCK_bc_wp; [exact Hi1|]. intros s2 Hi2 Ec2 Eb2.
  wp_step. apply qsort_wp; [by eapply Hsome|]. intros l' Hperm _.
  wp_step. eapply (flush_ents_wp dev bs N false (g_set_busy busy g)); [exact Hi2|apply Hq| |].
  { intros p Hp. rewrite Hperm in Hp. eapply (flushable_listed false g); [exact Hi2|auto]. }
  intros s3 Hi3 Hf3. wp_step. eapply LOCK_bc_wp; [exact Hi3|]. intros s4 Hi4 Ec4 Eb4.
  eapply (clear_busy_each_wp true l' busy g); [exact Hi4| | |].
  - intros p Hp. rewrite Hperm. apply Hb in Hp as [Hp|Hp]; [by apply elem_of_nil in Hp|done].
  - intros p Hp. rewrite Hperm in Hp. by eapply Hsome.
  - intros s5 Hi5 Hs5. rewrite <- (qt_busy g Hq), g_set_busy_id in Hi5. apply HQ; [done| |].
    + eapply cleaner_trans; [by apply cleaner_sim|]. eapply cleaner_trans; [by apply (cleaner_ces s1 s2)|].
      eapply cleaner_trans; [by eapply cleaner_flushed|]. eapply cleaner_trans; [by apply (cleaner_ces s3 s4)|]. by apply cleaner_sim.
    + intros p e Hp He. destruct (cleaner_sim s4 s5 Hs5 p e He) as (e4 & He4 & Hd). apply Hd. rewrite Ec4 in He4.
      eapply flushed_clean; [exact Hf3| |exact He4]. by rewrite Hperm.
Qed.

(** ** The walks *)

Definition dirty_at (s : cst) (p : Z) : bool := match ces s !! p with Some e => is_dirty e | None => false end.
Definition dirty_in (s : cst) (l : list Z) : nat := length (filter (fun p => dirty_at s p = true) l).

Lemma cleaner_dirty s s' p : cleaner s s' -> dirty_at s' p = true -> dirty_at s p = true.
Proof.
  intros Hc. unfold dirty_at. destruct (ces s' !! p) as [e'|] eqn:He'; [|done]. destruct (Hc p e' He') as (e & -> & Hd).
  intros Hd'. destruct (is_dirty e); [done|]. by rewrite Hd in Hd'.
Qed.

(** A batch that was dirty and is clean makes the rest shorter. *)
Lemma dirty_in_batch s s' l ents :
  NoDup l -> NoDup ents -> cleaner s s' -> (forall p, p ∈ ents -> p ∈ l /\ dirty_at s p = true /\ dirty_at s' p = false) ->
  (dirty_in s' l + length ents <= dirty_in s l)%nat.
Proof.
  intros Hl He Hc Hents. unfold dirty_in. rewrite <- length_app. apply submseteq_length, NoDup_submseteq.
  - apply NoDup_app. split; [by apply NoDup_filter|]. split; [|done]. intros p [Hp _]%list_elem_of_filter Hpe.
    destruct (Hents p Hpe) as (_ & _ & E). congruence.
  - intros p [[Hp Hpl]%list_elem_of_filter|Hp]%elem_of_app; apply list_elem_of_filter.
    + split; [by eapply cleaner_dirty|done].
    + destruct (Hents p Hp) as (? & ? & _). done.
Qed.

Lemma nl_listed held g s p :
  inv held g s -> quiet g -> p ∈ g_nl g ->
  exists e, ces s !! p = Some e /\ ce_dev e = dev /\ is_busy e = false /\ ce_clone e = None.
Proof.
  intros Hi Hq Hp. destruct (nl_ent held g s p Hi Hp) as (e & He & _ & Hb). exists e. split; [done|].
  destruct (iv_res _ _ _ _ _ _ Hi p) as [b Hbv]; [apply elem_of_app; by left|].
  destruct (copy_len dev bs N held g s p b e Hi Hbv He) as (_ & (E1 & _) & _). split; [done|].
  split; [rewrite Hb, (qt_busy g Hq); by apply bool_decide_false, not_elem_of_nil|].
  by destruct (mo_clone _ _ _ (iv_mem _ _ _ _ _ _ Hi) p e He).
Qed.

Lemma ready_dirty e : ce_clone e = None -> ready_to_flush e = is_dirty e.
Proof. intros E. unfold ready_to_flush. rewrite E, bool_decide_false by (by intros [? ?]). apply orb_false_r. Qed.

Lemma flush_list_wp fuel g s l1 l2 ents (Q : list Z -> cst -> Prop) :
  inv true g s -> quiet g -> g_nl g = l1 ++ l2 -> NoDup ents ->
  (forall p, p ∈ ents -> p ∈ l1 /\ dirty_at s p = true) -> (forall p, p ∈ l1 -> p ∉ ents -> dirty_at s p = false) ->
  len ents < NUM_FLUSH_BLOCKS ->
  (length l2 + 1 + (dirty_in s (g_nl g) - length ents) * (length (g_nl g) + 1) <= fuel)%nat ->
  (forall s' ents', inv true g s' -> cleaner s s' -> (forall p, p ∈ ents' -> p ∈ g_nl g) ->
     (forall p, p ∈ g_nl g -> p ∉ ents' -> dirty_at s' p = false) -> Q ents' s') ->
  wp (flush_list fuel Normal ready_to_flush dev (head l2) ents) Q s.
Proof.
  revert s l1 l2 ents Q. induction fuel as [|fuel IH]; intros s l1 l2 ents Q Hi Hq Hnl Hnd Hents Hl1 Hlen Hfuel HQ; [nia|].
  destruct l2 as [|p l2]; cbn [flush_list head].
  { wp_step. rewrite app_nil_r in Hnl. apply HQ; [done|apply cleaner_refl| |].
    - intros q Hq'. rewrite Hnl. by apply Hents.
    - intros q. rewrite Hnl. apply Hl1. }
  assert (p ∈ g_nl g) as Hp by (rewrite Hnl, elem_of_app, elem_of_cons; auto).
  assert (NoDup (g_nl g)) as Hndl.
  { pose proof (lo_nodup _ _ _ _ _ _ (iv_lists _ _ _ _ _ _ Hi)) as H. by apply NoDup_app in H as [? _]. }
  destruct (nl_listed true g s p Hi Hq Hp) as (e & He & Hdv & Hbz & Hcl).
  wp_step. eapply ent_wp; [exact He|]. rewrite Hdv, Z.eqb_refl, Hbz. cbn [negb orb]. rewrite ready_dirty by done.
  rewrite (nl_next true g s l1 p l2 e Hi Hnl He).
  assert (p ∉ l1) as Hpl1 by (rewrite Hnl in Hndl; by apply NoDup_mid in Hndl as (? & _)).
  assert (g_nl g = (l1 ++ [p]) ++ l2) as Hnl' by (by rewrite <- app_assoc).
  apply wp_if; intros Hd.
  2: { apply (IH s (l1 ++ [p]) l2 ents); try done; [| |cbn [length] in Hfuel; lia].
       - intros q Hqe. destruct (Hents q Hqe). split; [apply elem_of_app; by left|done].
       - intros q [Hq1| ->%list_elem_of_singleton]%elem_of_app Hqe; [auto|]. unfold dirty_at. by rewrite He. }
  assert (p ∉ ents) as Hpe by (intros Hpe; by destruct (Hents p Hpe)).
  assert (NoDup (ents ++ [p])) as Hnd'.
  { apply NoDup_app. split; [done|]. split; [|apply NoDup_singleton]. intros q Hqe ->%list_elem_of_singleton. done. }
  assert (forall q, q ∈ ents ++ [p] -> q ∈ l1 ++ [p] /\ dirty_at s q = true) as Hents'.
  { intros q [Hqe| ->%list_elem_of_singleton]%elem_of_app; rewrite elem_of_app.
    - destruct (Hents q Hqe). tauto.
    - split; [right; by apply list_elem_of_singleton|]. unfold dirty_at. by rewrite He. }
  assert ((length (ents ++ [p]) <= dirty_in s (g_nl g))%nat) as Hcount.
  { unfold dirty_in. apply submseteq_length, NoDup_submseteq; [done|]. intros q Hqe. destruct (Hents' q Hqe) as [H1 H2].
    apply list_elem_of_filter. split; [done|]. rewrite Hnl', elem_of_app. by left. }
  rewrite length_app in Hcount. cbn [length] in Hcount, Hfuel.
  apply wp_if; intros Hge.
  - rewrite Z.geb_leb in Hge. apply Z.leb_le in Hge. wp_step. eapply (do_flush_wp (ents ++ [p]) g s); [done|done| |].
    { intros q Hqe. rewrite Hnl'. apply elem_of_app. left. by apply Hents'. }
    intros s1 Hi1 Hc1 Hcl1. wp_step. wp_step. cbn [the_cel].
    rewrite (dll_lru _ _ _ (lo_normal _ _ _ _ _ _ (iv_lists _ _ _ _ _ _ Hi1))).
    pose proof (dirty_in_batch s s1 (g_nl g) (ents ++ [p]) Hndl Hnd' Hc1) as Hless. rewrite length_app in Hless. cbn [length] in Hless.
    assert (dirty_in s1 (g_nl g) + (length ents + 1) <= dirty_in s (g_nl g))%nat as Hless'.
    { apply Hless. intros q Hqe. destruct (Hents' q Hqe) as [H1 H2]. split; [|split; [done|]].
      - rewrite Hnl', elem_of_app. by left.
      - unfold dirty_at. destruct (ces s1 !! q) as [y|] eqn:Hy; [|done]. by eapply Hcl1. }
    apply (IH s1 [] (g_nl g) []); try done; [constructor|by intros q ?%elem_of_nil| |].
    + cbn [length]. rewrite Nat.sub_0_r.
      assert (dirty_in s1 (g_nl g) * (length (g_nl g) + 1) + (length (g_nl g) + 1) <=
        (dirty_in s (g_nl g) - length ents) * (length (g_nl g) + 1))%nat by nia. lia.
    + intros s' ents' Hi' Hc'. apply HQ; [done|]. by eapply cleaner_trans.
  - apply (IH s (l1 ++ [p]) l2 (ents ++ [p])); try done.
    + intros q [Hq1| ->%list_elem_of_singleton]%elem_of_app Hqe; rewrite elem_of_app in Hqe; [apply Hl1; tauto|].
      exfalso. apply Hqe. right. by apply list_elem_of_singleton.
    + rewrite Z.geb_leb in Hge. apply Z.leb_gt in Hge. lia.
    + rewrite length_app. cbn [length]. nia.
Qed.
Lemma flush_list_none fuel g s l1 l2 ents (Q : list Z -> cst -> Prop) :
  inv true g s -> quiet g -> g_ll g = l1 ++ l2 -> (length l2 < fuel)%nat -> Q ents s ->
  wp (flush_list fuel Locked (fun e => bool_decide (is_Some (ce_clone e))) dev (head l2) ents) Q s.
Proof.
  revert l1 l2. induction fuel as [|fuel IH]; intros l1 l2 Hi Hq Hll Hf HQ; [lia|].
  destruct l2 as [|p l2]; cbn [flush_list head]; [by wp_step|].
  destruct (dll_links _ _ _ (lo_locked _ _ _ _ _ _ (iv_lists _ _ _ _ _ _ Hi)) l1 p l2 Hll) as (e & He & _ & Hn).
  destruct (mo_clone _ _ _ (iv_mem _ _ _ _ _ _ Hi) p e He) as [Hcl _].
  wp_step. eapply ent_wp; [exact He|]. rewrite Hn, Hcl, (bool_decide_false (is_Some None)) by (by intros [? ?]).
  cbn [length] in Hf. apply wp_if; intros _; (apply (IH (l1 ++ [p])); [done|done|by rewrite <- app_assoc|lia|done]).
Qed.

Lemma dirty_in_le s l : (dirty_in s l <= length l)%nat.
Proof. apply length_filter. Qed.

Lemma flush_device_wp wl g s (Q : Z -> cst -> Prop) :
  inv false g s -> quiet g ->
  (forall s', inv false g s' -> (forall p, p ∈ g_nl g -> dirty_at s' p = false) -> Q 0 s') ->
  wp (flush_device dev wl) Q s.
Proof.
  intros Hi Hq HQ. unfold flush_device. wp_step. eapply LOCK_bc_wp; [exact Hi|]. intros s1 Hi1 _ _.
  wp_step. unfold flush_one_list at 1. wp_step. wp_step. cbn [the_cel].
  rewrite (dll_lru _ _ _ (lo_normal _ _ _ _ _ _ (iv_lists _ _ _ _ _ _ Hi1))).
  pose proof (nl_fuel true g s1 Hi1) as Hf. unfold list_fuel in Hf. pose proof (dirty_in_le s1 (g_nl g)) as Hd.
  wp_step. apply (flush_list_wp _ g s1 [] (g_nl g) []); try done; [constructor|by intros q ?%elem_of_nil| |].
  { unfold flush_fuel. cbn [length]. rewrite Nat.sub_0_r. nia. }
  intros s2 ents Hi2 _ Hents Hcl.
  assert (forall s3, inv true g s3 -> (forall p, p ∈ g_nl g -> dirty_at s3 p = false) ->
    wp (_ ← flush_one_list Locked (fun e => bool_decide (is_Some (ce_clone e))) dev; _ ← UNLOCK_bc; mret 0) Q s3) as Hrest.
  { intros s3 Hi3 Hc3. wp_step. unfold flush_one_list. wp_step. wp_step. cbn [the_cel].
    rewrite (dll_lru _ _ _ (lo_locked _ _ _ _ _ _ (iv_lists _ _ _ _ _ _ Hi3))).
    wp_step. apply (flush_list_none _ g s3 [] (g_ll g)); [done|done|done| |].
    { pose proof (lo_nodup _ _ _ _ _ _ (iv_lists _ _ _ _ _ _ Hi3)) as Hnd. apply NoDup_app in Hnd as (_ & _ & Hnd). apply NoDup_app in Hnd as [Hnd _].
      assert (length (g_ll g) <= size (ces s3))%nat; [|unfold flush_fuel; nia].
      rewrite <- size_dom, <- (size_list_to_set (C := gset Z) (g_ll g)) by done.
      apply subseteq_size. intros p Hp%elem_of_list_to_set. apply elem_of_dom, (lo_dom _ _ _ _ _ _ (iv_lists _ _ _ _ _ _ Hi3)).
      rewrite !elem_of_app. tauto. }
    change (len []) with 0. cbn [negb Z.eqb]. wp_step. wp_step. eapply UNLOCK_bc_wp; [exact Hi3|]. intros s4 Hi4 Ec4 _. wp_step.
    apply HQ; [done|]. intros p Hp. unfold dirty_at. rewrite Ec4. by apply Hc3. }
  apply wp_if; intros Hl.
  - eapply do_flush_wp; [exact Hi2|exact Hq|exact Hents|]. intros s3 Hi3 Hc3 Hcl3. apply Hrest; [done|].
    intros p Hp. destruct (decide (p ∈ ents)) as [Hpe|Hpe].
    + unfold dirty_at. destruct (ces s3 !! p) as [e|] eqn:He; [|done]. by eapply Hcl3.
    + specialize (Hcl p Hp Hpe). destruct (dirty_at s3 p) eqn:E; [|done]. by rewrite (cleaner_dirty s2 s3 p Hc3 E) in Hcl.
  - wp_step. apply Hrest; [done|]. zcases. intros p Hp. apply Hcl; [done|]. destruct ents; [apply not_elem_of_nil|]. rewrite len_cons in *. pose proof (len_nonneg ents). lia.
Qed.

(** What a reader sees of a block that no client holds is on the device. *)
Lemma unheld_on_disk held g s b :
  inv held g s -> quiet g -> (forall p, p ∈ g_nl g -> dirty_at s p = false) -> 0 <= b < N -> g_pin g b = 0 ->
  blk bs (disk dev s) b = g_L g b.
Proof.
  intros Hi Hq Hcl Hb Hp. destruct (g_vm g !! b) as [p|] eqn:Hv.
  - destruct (hit_of held g s b p Hi Hq Hv) as (e & a & Hh). pose proof (ht_ent _ _ _ _ _ _ _ Hh) as He.
    destruct (copy_len dev bs N held g s p b e Hi Hv He) as (_ & _ & _ & Hdk).
    pose proof (iv_pin _ _ _ _ _ _ Hi b) as Hpin. rewrite Hv in Hpin. specialize (Hpin e He).
    assert (p ∉ g_ll g) as Hll.
    { intros Hl. destruct (iv_locks _ _ _ _ _ _ Hi p e He) as [H _]. specialize (H Hl). lia. }
    pose proof (copy_listed dev bs N held g s b p Hi (qt_fl g Hq) Hv) as Hl. apply elem_of_app in Hl as [Hl|Hl]; [|done].
    specialize (Hcl p Hl). unfold dirty_at in Hcl. rewrite He in Hcl. apply Hdk; [done|]. intros Hu.
    destruct (co_un _ _ _ _ _ _ _ _ _ _ (iv_content _ _ _ _ _ _ Hi) b Hu) as (q & _ & Hq' & Hql & _). congruence.
  - by apply (co_disk _ _ _ _ _ _ _ _ _ _ (iv_content _ _ _ _ _ _ Hi)).
Qed.
End flush.
