(* ===== verification/CacheInit.v ===== *)
(** * CacheInit: the cache as [init_block_cache] leaves it (cache.c)

    From the zeroed statics of a process, [init_block_cache] and
    [init_cache_for_device] establish the invariant of CacheInv.v. *)

From S2P Require Import Prelude Bytes Host Device HashTable CacheList Cache CacheIo CacheInv CacheMiss CachePut CacheFill CacheFetch CacheLoop CacheHold CacheLaws.
Local Open Scope Z_scope.

(** Before [init_block_cache]: no entry and no buffer, memory to be had, and
    an open device. *)
Record blank (dev bs N : Z) (s : cst) : Prop := {
  bl_ces : ces s = ∅;
  bl_bufs : bufs s = ∅;
  bl_oom : no_oom (cs_host s);
  bl_fail : os_fail (cs_os s) = [];
  bl_file : exists f, os_files (cs_os s) !! dev = Some f /\ N * bs <= len (f_data f);
}.

Lemma new_lock_wp h : no_oom h -> wp new_lock (fun r h' => r.1 = 0 /\ l_c r.2 = 1 /\ no_oom h') h.
Proof.
  intros Hh. unfold new_lock, create_sem. wp_step. wp_step. eapply wp_mono; [by apply malloc_wp|].
  intros p h' (-> & Hh' & _). by wp_steps.
Qed.

(** What [init_block_cache] leaves. *)
Record set_up (s s' : cst) (max : Z) : Prop := {
  su_ces : ces s' = ces s;
  su_bufs : bufs s' = bufs s;
  su_os : cs_os s' = cs_os s;
  su_oom : no_oom (cs_host s');
  su_lock : l_c (bc_lock (bc s')) = 1;
  su_ht : ht_ok (bc_ht (bc s')) ∅;
  su_htm : ht_max (bc_ht (bc s')) = HT_DEFAULT_MAX;
  su_normal : normal (bc s') = zero_cel;
  su_locked : locked (bc s') = zero_cel;
  su_cur : cur_blocks (bc s') = 0;
  su_max : max_blocks (bc s') = max;
  su_iovl : l_c (iovec_lock s') = 1;
  su_iovu : iovec_used s' = replicate 64 0;
  su_iovp : exists a rest, iovec_pool s' = Some a :: rest;
  su_dev : max_device_blocks s' = replicate 256 0;
}.

Lemma init_block_cache_wp max fl s (Q : Z -> cst -> Prop) :
  no_oom (cs_host s) -> (forall s', set_up s s' max -> Q 0 s') -> wp (init_block_cache max fl) Q s.
Proof.
  intros Hh HQ. unfold init_block_cache, in_ht_host, in_host, upd_bc. wp_steps.
  eapply wp_mono; [by apply init_hash_table_wp|]. intros r [ht h1] (-> & Hht & Hhm & Hh1). cbn [negb Z.eqb].
  wp_steps. eapply wp_mono; [by apply new_lock_wp|]. intros [r l1] h2 (E1 & Hl1 & Hh2). cbn in E1. subst r. cbn [negb Z.eqb].
  wp_steps. cbn [negb Z.eqb].
  wp_steps. eapply wp_mono; [by apply new_lock_wp|]. intros [r l2] h3 (E2 & Hl2 & Hh3). cbn in E2. subst r.
  wp_steps. cbn [negb Z.eqb]. wp_steps. eapply wp_mono; [by apply malloc_wp|]. intros p h4 (-> & Hh4 & _).
  wp_steps. eapply wp_mono; [by apply malloc_wp|]. intros p h5 (-> & Hh5 & _). wp_steps.
  apply HQ. split; try done. cbn. by eexists _, _.
Qed.

Section init.
Context {dev bs N : Z} {CG : CacheGeom dev bs N}.
Abbreviation inv := (CacheInv.inv dev bs N).

(** Nothing is cached: readers see the device. *)
Definition g_blank (D : list byte) (a : Z) : ghost := Ghost [] [] [] [] ∅ ∅ (blk bs D) ∅ (fun _ => 0) false a.

Lemma init_wp max fl s (Q : Z -> cst -> Prop) :
  blank dev bs N s -> MIN_BLOCKS <= max ->
  (forall s' a, inv false (g_blank (disk dev s) a) s' -> Q 0 s') ->
  wp (_ ← init_block_cache max fl; init_cache_for_device dev N) Q s.
Proof.
  pose proof CG as [Hdev Hbs HNb]. intros [Hc Hb Hoom Hfail (f & Hf & Hlen)] Hmax HQ.
  wp_step. apply init_block_cache_wp; [done|]. intros s1 [S1 S2 S3 S4 S5 S6 S6m S7 S8 S9 S10 S11 S12 S13 S14].
  unfold init_cache_for_device. replace (dev >=? MAX_DEVICES) with false by (symmetry; rewrite Z.geb_leb; apply Z.leb_gt; unfold MAX_DEVICES; lia).
  wp_step. unfold LOCK_bc. wp_step. eapply wp_mono; [by apply LOCK_wp|]. intros [] l ->.
  assert ((replicate 256 0 : list Z) !! Z.to_nat dev = Some 0) as Hd0 by (apply lookup_replicate; split; [done|lia]).
  assert (forall s, max_device_blocks s = replicate 256 0 -> forall Q : Z -> cst -> Prop, Q 0 s -> wp (dev_blocks dev) Q s) as Hdb.
  { intros s' E Q' HQ'. unfold dev_blocks. wp_step. wp_step. replace (dev <? 0) with false by (symmetry; apply Z.ltb_ge; lia).
    rewrite E, Hd0. by wp_step. }
  wp_step. apply Hdb; [done|]. cbn [negb Z.eqb]. wp_step. unfold set_dev_blocks. wp_step. wp_step. apply Hdb; [done|]. wp_step. wp_step.
  wp_step. unfold UNLOCK_bc. wp_step. eapply wp_mono; [by apply UNLOCK_wp|]. intros [] l ->. wp_step.
  destruct S13 as (a & rest & Hpool). apply (HQ _ a).
  assert (forall m : gmap Z cache_ent, m = ∅ -> lists_ok m zero_cel zero_cel [] [] []) as Hlists.
  { intros m ->. assert (forall l : list Z, l = [] -> dll ∅ zero_cel l) as Hdll.
    { intros l ->. split; [constructor|done|done|]. intros l1 p l2 E. by destruct l1. }
    split; [by apply Hdll|by apply Hdll|by intros p ?%elem_of_nil|constructor|].
    intros p. rewrite lookup_empty. split; [by intros [? ?]|by intros ?%elem_of_nil]. }
  split; cbn.
  - split; cbn; [done|by rewrite S3|by rewrite S3; exists f|]. rewrite S14. apply list_lookup_insert_eq. rewrite length_replicate. lia.
  - split; cbn; [done|by rewrite S12|by exists rest].
  - done.
  - rewrite S1, S7, S8. by apply Hlists.
  - rewrite S1, S2, Hc, Hb. split; intros p; rewrite ?lookup_empty; try by intros [? ?]. all: intros; by rewrite lookup_empty in *.
  - split.
    + intros b p. by rewrite lookup_empty.
    + intros b _ _. unfold disk. cbn. by rewrite S3.
    + intros b ?%elem_of_empty. done.
    + intros b Hbn. unfold disk. rewrite Hf. apply (len_blk bs N); lia.
  - unfold hmap. cbn. rewrite kmap_empty, (left_id_L ∅ (∪)). split; [done|rewrite S6m; unfold HT_DEFAULT_MAX; lia|]. intros d b p. by rewrite lookup_empty.
  - intros b p. by rewrite lookup_empty.
  - done.
  - unfold MIN_BLOCKS in *. cbn in *. lia.
  - intros p e. rewrite S1, Hc, lookup_empty. done.
  - intros b. by rewrite lookup_empty.
  - intros p ?%elem_of_nil. done.
  - intros p e _ ?%elem_of_nil. done.
Qed.
End init.
