(* ===== verification/CacheSpec.v ===== *)
(** * CacheSpec: the block cache as a map from block numbers to bytes

    What a client of the cache may rely on, as an abstract machine: a map of
    the blocks of a device, the blocks handed out, and the blocks changed but
    not yet marked dirty.  Every implementation of the interface of
    BlockCache.v gives the answers of the machine, for every sequence of
    operations the machine allows; in particular the cache of cache.c does,
    whatever it evicts, reads ahead or flushes on the way. *)

From S2P Require Import Prelude Bytes BlockCache.
From S2P Require Host Device HashTable CacheList Cache CacheIo CacheInv CacheMiss CacheFetch CacheHold CacheLaws CacheFlush CacheInit.
Local Open Scope Z_scope.

(** ** The machine *)

Inductive cache_op :=
  | Get (b : Z)
  | GetEmpty (b : Z)
  | Release (b : Z)
  | MarkDirty (b : Z)
  | Load (b : Z)
  | Store (b : Z) (d : list byte)
  | Read (b n : Z)
  | Write (b n : Z) (d : list byte).

Inductive answer :=
  | Ptr (p : option bptr)
  | Code (r : Z)
  | Bytes (d : list byte)
  | Transfer (r : Z) (d : list byte)
  | Nothing.

Record machine := Machine {
  m_data : gmap Z (list byte);
  m_pins : gmultiset Z;
  m_unsaved : gset Z;
}.

(** When a client may use an operation: blocks it gets exist, it holds at
    most [MAX_PINS] of them, it touches only blocks it holds, and it marks
    what it changed before it lets go of it. *)
Definition allowed (bs : Z) (m : machine) (o : cache_op) : Prop :=
  match o with
  | Get b | GetEmpty b => is_Some (m_data m !! b) /\ (size (m_pins m) < MAX_PINS)%nat
  | Release b => b ∈ m_pins m /\ b ∉ m_unsaved m
  | MarkDirty b => b ∈ m_pins m
  | Load b => b ∈ m_pins m /\ is_Some (m_data m !! b)
  | Store b d => b ∈ m_pins m /\ len d = bs
  | Read b n => 0 < n /\ (size (m_pins m) <= MAX_PINS)%nat /\ is_Some (blocks_at (m_data m) b (Z.to_nat n))
  | Write b n d => 0 < n /\ (size (m_pins m) <= MAX_PINS)%nat /\ is_Some (blocks_at (m_data m) b (Z.to_nat n)) /\ len d = n * bs
  end.

Definition m_step (dev bs : Z) (m : machine) (o : cache_op) : answer * machine :=
  match o with
  | Get b => (Ptr (Some (BPtr dev b)), Machine (m_data m) (m_pins m ⊎ {[+ b +]}) (m_unsaved m))
  | GetEmpty b =>
      (Ptr (Some (BPtr dev b)),
       Machine (<[b := replicate (Z.to_nat bs) x00]> (m_data m)) (m_pins m ⊎ {[+ b +]}) (m_unsaved m))
  | Release b => (Code 0, Machine (m_data m) (m_pins m ∖ {[+ b +]}) (m_unsaved m))
  | MarkDirty b => (Code 0, Machine (m_data m) (m_pins m) (m_unsaved m ∖ {[b]}))
  | Load b => (Bytes (default [] (m_data m !! b)), m)
  | Store b d => (Nothing, Machine (<[b := d]> (m_data m)) (m_pins m) (m_unsaved m ∪ {[b]}))
  | Read b n => (Transfer 0 (default [] (blocks_at (m_data m) b (Z.to_nat n))), m)
  | Write b n d => (Code 0, Machine (put_blocks bs b (Z.to_nat n) d (m_data m)) (m_pins m) (m_unsaved m))
  end.

Fixpoint m_run (dev bs : Z) (m : machine) (l : list cache_op) : list answer * machine :=
  match l with
  | [] => ([], m)
  | o :: l => let '(r, m) := m_step dev bs m o in let '(rs, m) := m_run dev bs m l in (r :: rs, m)
  end.

Fixpoint all_allowed (dev bs : Z) (m : machine) (l : list cache_op) : Prop :=
  match l with
  | [] => True
  | o :: l => allowed bs m o /\ all_allowed dev bs (m_step dev bs m o).2 l
  end.

(** ** The same operations on an implementation *)

Section client.
Context {C : Type} `{BlockCache C}.

Definition do_op (dev bs : Z) (o : cache_op) : M C answer :=
  match o with
  | Get b => p ← get_block dev b bs; mret (Ptr p)
  | GetEmpty b => p ← get_empty_block dev b bs; mret (Ptr p)
  | Release b => r ← release_block dev b; mret (Code r)
  | MarkDirty b => r ← mark_blocks_dirty dev b 1; mret (Code r)
  | Load b => d ← load (BPtr dev b); mret (Bytes d)
  | Store b d => _ ← store (BPtr dev b) d; mret Nothing
  | Read b n => '(r, d) ← cached_read dev b n bs; mret (Transfer r d)
  | Write b n d => r ← cached_write dev b d n bs; mret (Code r)
  end.

Fixpoint do_ops (dev bs : Z) (l : list cache_op) : M C (list answer) :=
  match l with
  | [] => mret []
  | o :: l => r ← do_op dev bs o; rs ← do_ops dev bs l; mret (r :: rs)
  end.

Context `{!BlockCacheLaws C}.

(** The machine a state stands for; it may have more blocks down as unsaved. *)
Record stands_for (dev bs : Z) (c : C) (m : machine) : Prop := {
  sf_ok : cache_ok c dev bs;
  sf_data : v_data (cview c dev bs) = m_data m;
  sf_pins : v_pins (cview c dev bs) = m_pins m;
  sf_unsaved : v_unsaved (cview c dev bs) ⊆ m_unsaved m;
}.

Lemma do_op_ok dev bs c m o :
  stands_for dev bs c m -> allowed bs m o ->
  wp (do_op dev bs o) (fun r c' => r = (m_step dev bs m o).1 /\ stands_for dev bs c' (m_step dev bs m o).2) c.
Proof.
  intros [Hok Hd Hp Hu] Ha. destruct o as [b|b|b|b|b|b d|b n|b n d]; cbn [do_op allowed m_step] in *; wp_step.
  - destruct Ha as [Hb Hs]. rewrite <- Hd in Hb. rewrite <- Hp in Hs. eapply wp_mono; [by apply get_block_law|].
    intros r c' (-> & Hok' & HD & HP & HU & _). wp_step. split; [done|]. split; cbn; [done|congruence|congruence|set_solver].
  - destruct Ha as [Hb Hs]. rewrite <- Hd in Hb. rewrite <- Hp in Hs. eapply wp_mono; [by apply get_empty_block_law|].
    intros r c' (-> & Hok' & HD & HP & HU & _). wp_step. split; [done|]. split; cbn; [done|congruence|congruence|set_solver].
  - destruct Ha as [Hb Hn]. rewrite <- Hp in Hb. eapply wp_mono; [apply release_block_law; [done|done|set_solver]|].
    intros r c' (-> & Hok' & HD & HP & HU & _). wp_step. split; [done|]. split; cbn; [done|congruence|congruence|set_solver].
  - rewrite <- Hp in Ha. eapply wp_mono; [by apply mark_dirty_law|].
    intros r c' (-> & Hok' & HD & HP & HU & _). wp_step. split; [done|]. split; cbn; [done|congruence|congruence|set_solver].
  - destruct Ha as [Hb [d Hbd]]. rewrite <- Hp in Hb. eapply wp_mono; [eapply load_law; [done|done|by rewrite Hd]|].
    intros r c' (-> & ->). wp_step. rewrite Hbd. split; done.
  - destruct Ha as [Hb Hl]. rewrite <- Hp in Hb. eapply wp_mono; [by apply store_law|].
    intros r c' (Hok' & HD & HP & HU & _). wp_step. split; [done|]. split; cbn; [done|congruence|congruence|set_solver].
  - destruct Ha as (Hn & Hs & [d Hbd]). rewrite <- Hp in Hs. eapply wp_mono; [eapply cached_read_law; [done|done|done|by rewrite Hd]|].
    intros r c' (-> & Hok' & HD & HP & HU & _). wp_step. rewrite Hbd. split; [done|]. split; cbn; [done|congruence|congruence|set_solver].
  - destruct Ha as (Hn & Hs & Hb & Hl). rewrite <- Hp in Hs. rewrite <- Hd in Hb. eapply wp_mono; [by apply cached_write_law|].
    intros r c' (-> & Hok' & HD & HP & HU & _). wp_step. split; [done|]. split; cbn; [done|congruence|congruence|set_solver].
Qed.

Lemma do_ops_ok dev bs l c m :
  stands_for dev bs c m -> all_allowed dev bs m l ->
  wp (do_ops dev bs l) (fun rs c' => rs = (m_run dev bs m l).1 /\ stands_for dev bs c' (m_run dev bs m l).2) c.
Proof.
  revert c m. induction l as [|o l IH]; intros c m Hs Ha; cbn [do_ops m_run all_allowed] in *; [by wp_step|].
  destruct Ha as [Ho Ha]. wp_step. eapply wp_mono; [by apply do_op_ok|]. intros r c1 [-> Hs1].
  destruct (m_step dev bs m o) as [r m1]. cbn in *. wp_step. eapply wp_mono; [by apply IH|]. intros rs c2 [-> Hs2].
  wp_step. by destruct (m_run dev bs m1 l) as [rs m2].
Qed.
End client.

(** ** The cache of cache.c *)

Import Host Device HashTable CacheList Cache CacheIo CacheInv CacheMiss CacheFetch CacheHold CacheLaws CacheFlush CacheInit.

(** A cache for one device, from the zeroed statics. *)
Definition start_cache (max fl dev N : Z) : M cst Z :=
  _ ← init_block_cache max fl; Cache.init_cache_for_device dev N.

(** The operations of the client, on this cache. *)
Definition run_cache (open_path : list byte -> Z) (dev bs : Z) (l : list cache_op) : M cst (list answer) :=
  @do_ops cst (cache_ops open_path) dev bs l.

(** Nothing is held, and the data is that of the device. *)
Definition fresh_machine (D : list byte) (bs N : Z) : machine :=
  Machine (list_to_map ((fun b => (b, blk bs D b)) <$> seqZ 0 N)) ∅ ∅.

#[export] Instance allowed_dec bs m o : Decision (allowed bs m o).
Proof. destruct o; cbn; apply _. Defined.
#[export] Instance all_allowed_dec dev bs m l : Decision (all_allowed dev bs m l).
Proof. revert m. induction l as [|o l IH]; intros m; cbn; [by left|]. apply and_dec; [apply _|apply IH]. Defined.

(** What the structures of cache.c must agree on between two operations: two
    doubly linked lists, with every entry on exactly one of them, the locked
    ones on the second; the hash table finds exactly the entries; the count
    is right and within the limit; the lock is free. *)
Record well_formed (dev : Z) (s : cst) (nl ll : list Z) : Prop := {
  wf_normal : dll (ces s) (normal (bc s)) nl;
  wf_locked : dll (ces s) (locked (bc s)) ll;
  wf_once : NoDup (nl ++ ll);
  wf_all : forall p, is_Some (ces s !! p) <-> p ∈ nl ++ ll;
  wf_count : cur_blocks (bc s) = len (nl ++ ll);
  wf_room : cur_blocks (bc s) <= max_blocks (bc s);
  wf_holds : forall p e, ces s !! p = Some e -> if decide (p ∈ ll) then 0 < ce_lock e else ce_lock e = 0;
  wf_free : l_c (bc_lock (bc s)) = 1;
  wf_hash : exists m, ht_ok (bc_ht (bc s)) m /\ forall d b p,
    m !! (d, b) = Some p <-> exists e, ces s !! p = Some e /\ ce_dev e = d /\ ce_block_num e = b;
}.

Section cache.
Context (open_path : list byte -> Z) {dev bs N : Z} {CG : CacheGeom dev bs N}.
Local Instance the_ops : BlockCache cst := cache_ops open_path.
Local Instance the_laws : BlockCacheLaws cst := cache_laws open_path.

Lemma start_stands max fl s :
  blank dev bs N s -> MIN_BLOCKS <= max ->
  wp (start_cache max fl dev N) (fun r s' => r = 0 /\ stands_for dev bs s' (fresh_machine (disk dev s) bs N)) s.
Proof.
  intros Hb Hmax. unfold start_cache. eapply init_wp; [exact Hb|exact Hmax|]. intros s' a Hi. split; [done|].
  assert (quiet (g_blank (bs := bs) (disk dev s) a)) as Hq by done.
  split; cbn.
  - by eexists N, _.
  - eapply (change_data (bs := bs) Hi Hq). intros b. destruct (decide (0 <= b < N)) as [Hbn|Hbn].
    + apply elem_of_list_to_map_1.
      * rewrite <- list_fmap_compose. rewrite (list_fmap_ext _ id) by done. rewrite list_fmap_id. apply NoDup_seqZ.
      * apply list_elem_of_fmap. exists b. split; [done|]. apply elem_of_seqZ. lia.
    + apply not_elem_of_list_to_map_1. rewrite <- list_fmap_compose. intros Hin.
      apply list_elem_of_fmap in Hin as (b' & -> & Hb'). cbn in Hbn. apply elem_of_seqZ in Hb'. lia.
  - apply gmultiset_eq. intros b. etransitivity; [exact (view_pins false _ s' b Hi Hq)|]. cbn. by rewrite multiplicity_empty.
  - eapply (less_unsaved Hi Hq). by intros b ?%elem_of_empty.
Qed.

Lemma session_ok max fl s l :
  blank dev bs N s -> MIN_BLOCKS <= max -> all_allowed dev bs (fresh_machine (disk dev s) bs N) l ->
  wp (_ ← start_cache max fl dev N; run_cache open_path dev bs l)
    (fun rs s' => rs = (m_run dev bs (fresh_machine (disk dev s) bs N) l).1 /\
       stands_for dev bs s' (m_run dev bs (fresh_machine (disk dev s) bs N) l).2) s.
Proof.
  intros Hb Hmax Hl. wp_step. eapply wp_mono; [by apply start_stands|]. intros r s1 [_ Hs]. by apply do_ops_ok.
Qed.

Lemma ready_size s : cache_ready s dev bs -> Z.of_nat (size (ces s)) <= max_blocks (bc s).
Proof.
  intros (N' & g & HG & Hi & Hq). destruct (iv_max _ _ _ _ _ _ Hi) as [_ Hm]. rewrite (iv_count _ _ _ _ _ _ Hi) in Hm.
  pose proof (iv_lists _ _ _ _ _ _ Hi) as [_ _ _ Hnd Hdom]. unfold len in Hm.
  rewrite <- (size_list_to_set (C := gset Z)) in Hm by done. rewrite <- size_dom.
  replace (dom (ces s)) with (list_to_set (g_nl g ++ g_ll g ++ g_fl g) : gset Z); [done|].
  apply set_eq. intros p. by rewrite elem_of_list_to_set, elem_of_dom, Hdom.
Qed.
Lemma ready_well_formed s : cache_ready s dev bs -> exists nl ll, well_formed dev s nl ll.
Proof.
  intros (N' & g & HG & Hi & Hq). exists (g_nl g), (g_ll g).
  pose proof (quiet_lists false g s Hi Hq) as Hls. destruct Hls as [H1 H2 H3 H4 H5]. rewrite app_nil_r in H4, H5.
  split; [done|done|done|done| | | |by apply (iv_lock _ _ _ _ _ _ Hi)|].
  - rewrite (iv_count _ _ _ _ _ _ Hi), (qt_fl g Hq). unfold len. by rewrite !length_app, Nat.add_0_r.
  - apply (iv_max _ _ _ _ _ _ Hi).
  - intros p e He. destruct (iv_locks _ _ _ _ _ _ Hi p e He) as [L1 L2]. by destruct (decide (p ∈ g_ll g)); auto.
  - exists (CacheInv.hmap dev g). split; [apply (to_ok _ _ _ _ (iv_ht _ _ _ _ _ _ Hi))|]. intros d b p. unfold CacheInv.hmap. rewrite (qt_x g Hq), (right_id_L ∅ (∪)). split.
    + intros (b' & [= <- <-] & Hv)%lookup_kmap_Some; [|apply _].
      destruct (co_valid _ _ _ _ _ _ _ _ _ _ (iv_content _ _ _ _ _ _ Hi) b p Hv) as (_ & e & He & (E1 & E2 & _) & _). by exists e.
    + intros (e & He & <- & <-). assert (p ∈ g_nl g ++ g_ll g) as Hp by (apply H5; by exists e).
      destruct (iv_res _ _ _ _ _ _ Hi p Hp) as [b Hv].
      destruct (copy_len dev bs N' false g s p b e Hi Hv He) as (_ & (E1 & E2 & _) & _). rewrite E1, E2.
      by rewrite (lookup_kmap (pair dev)).
Qed.

Lemma run_ok l s m :
  stands_for dev bs s m -> all_allowed dev bs m l ->
  wp (run_cache open_path dev bs l) (fun rs s' => rs = (m_run dev bs m l).1 /\ stands_for dev bs s' (m_run dev bs m l).2) s.
Proof. apply do_ops_ok. Qed.

(** After a flush the blocks no client holds are on the device. *)
Lemma flush_stands s m wl :
  stands_for dev bs s m ->
  wp (flush_device dev wl) (fun r s' => r = 0 /\
    forall b, is_Some (m_data m !! b) -> b ∉ m_pins m -> m_data m !! b = Some (blk bs (disk dev s') b)) s.
Proof.
  intros [(N' & g & HG & Hi & Hq) HD HP _]. change (cview s dev bs) with (cache_view s dev bs) in *.
  eapply flush_device_wp; [exact Hi|exact Hq|]. intros s' Hi' Hcl. split; [done|]. intros b Hb Hp.
  rewrite <- HD in *. rewrite <- HP in Hp. pose proof (view_data false g s b Hi Hq) as Hv. rewrite Hv in *.
  destruct (decide (0 <= b < N')) as [Hbn|]; [|by destruct Hb]. f_equal. symmetry.
  apply (unheld_on_disk false g s'); try done.
  pose proof (pin_nonneg false g s b Hi Hq). pose proof (view_pins false g s b Hi Hq) as Hvp.
  destruct (decide (g_pin g b = 0)) as [|Hne]; [done|]. exfalso. apply Hp. rewrite elem_of_multiplicity, Hvp. lia.
Qed.
(** Requests for a block past the end of the device. *)
Definition past_end (N : Z) (o : cache_op) : Prop :=
  match o with
  | Get b | GetEmpty b => N <= b
  | Read b n => 0 < n /\ N < b + n
  | Write b n d => 0 < n /\ N < b + n
  | _ => False
  end.

Lemma past_end_fault s o : cache_ready s dev bs -> past_end (device_blocks s dev) o ->
  @do_op cst (cache_ops open_path) dev bs o s = Fault.
Proof.
  intros (N' & g & HG & Hi & Hq) Ho. pose proof HG as [Hdev Hbs _].
  pose proof (eo_max _ _ _ _ (iv_env _ _ _ _ _ _ Hi)) as Hm. rewrite (device_blocks_inv false g s Hi) in Ho.
  assert (forall b (data : option (list byte)) n op want, 0 < n -> N' < b + n -> (data <> None \/ want = true /\ n = 1 /\ CacheIo.has op CACHE_WRITE = false) ->
    cache_block_io dev b data n bs op want s = Fault) as Hio.
  { intros b data n op want Hn Hb Hd. unfold cache_block_io.
    rewrite (proj2 (Z.eqb_neq bs 0)), (proj2 (Z.eqb_neq n 0)) by lia.
    replace (bool_decide (data = None) && negb want) with false; [|destruct Hd as [Hd|(-> & _)]; [by rewrite bool_decide_false|by rewrite andb_false_r]].
    replace (bool_decide (data = None) && (negb (n =? 1) || CacheIo.has op CACHE_WRITE)) with false;
      [|destruct Hd as [Hd|(_ & -> & ->)]; [by rewrite bool_decide_false|by rewrite andb_false_r]].
    unfold dev_blocks, gets, get, opt, mbind, M_bind. cbv beta. replace (dev <? 0) with false by (symmetry; apply Z.ltb_ge; lia).
    rewrite Hm. replace (b + n >? N') with true by (symmetry; apply Z.gtb_lt; lia). done. }
  destruct o as [b|b|b|b|b|b d|b n|b n d]; cbn [past_end] in Ho; try done; cbn; unfold get_block, get_empty_block, cached_read, cached_write, mbind, M_bind.
  - rewrite Hio; [done|lia|lia|by right].
  - rewrite Hio; [done|lia|lia|by right].
  - rewrite Hio; [done|lia|lia|by left].
  - rewrite Hio; [done|lia|lia|by left].
Qed.

End cache.

(** ** The theorems *)

(** C8. The cache of cache.c, set up over a device and then used in any way
    the machine allows, gives the answers of a plain map from block numbers to
    bytes: it neither faults nor hangs, and afterwards readers see the data of
    the machine and the blocks held are those of the machine. *)
Theorem cache_refines_blocks open_path dev bs N (CG : CacheGeom dev bs N) max fl s l :
  blank dev bs N s -> MIN_BLOCKS <= max -> all_allowed dev bs (fresh_machine (disk dev s) bs N) l ->
  let m := m_run dev bs (fresh_machine (disk dev s) bs N) l in
  wp (_ ← start_cache max fl dev N; run_cache open_path dev bs l)
    (fun rs s' => rs = m.1 /\ v_data (cache_view s' dev bs) = m_data m.2 /\ v_pins (cache_view s' dev bs) = m_pins m.2) s.
Proof.
  intros Hb Hmax Hl m. eapply wp_mono; [by apply (session_ok open_path)|]. intros rs s' [-> [_ HD HP _]]. done.
Qed.

(** C13. [flush_device] makes a session durable: it succeeds, and every block
    that no client still holds is then on the device with the data of the
    machine. *)
Theorem flush_makes_durable open_path dev bs N (CG : CacheGeom dev bs N) max fl s l wl :
  blank dev bs N s -> MIN_BLOCKS <= max -> all_allowed dev bs (fresh_machine (disk dev s) bs N) l ->
  let m := (m_run dev bs (fresh_machine (disk dev s) bs N) l).2 in
  wp (_ ← start_cache max fl dev N; _ ← run_cache open_path dev bs l; flush_device dev wl)
    (fun r s' => r = 0 /\ forall b, is_Some (m_data m !! b) -> b ∉ m_pins m ->
       m_data m !! b = Some (blk bs (disk dev s') b)) s.
Proof.
  intros Hb Hmax Hl m. wp_step. eapply wp_mono; [by apply (start_stands open_path)|]. intros r s1 [_ Hs].
  wp_step. eapply wp_mono; [by apply run_ok|]. intros rs s2 [_ Hs2]. by apply (flush_stands open_path).
Qed.

(** C14. The structures of the cache are well formed after every session: the
    two lists, the store of entries, the locks, the hash table, the count and
    the limit agree. *)
Theorem cache_well_formed open_path dev bs N (CG : CacheGeom dev bs N) max fl s l :
  blank dev bs N s -> MIN_BLOCKS <= max -> all_allowed dev bs (fresh_machine (disk dev s) bs N) l ->
  wp (_ ← start_cache max fl dev N; run_cache open_path dev bs l)
    (fun _ s' => exists nl ll, well_formed dev s' nl ll) s.
Proof.
  intros Hb Hmax Hl. eapply wp_mono; [by apply (session_ok open_path)|]. intros rs s' [_ [Hok _ _ _]].
  by eapply ready_well_formed.
Qed.

(** C28. [get_ents] finds enough entries whenever the cache is between two
    operations and clients hold at most eight blocks, and never more than fit
    the array [ents] of its caller. *)
Theorem get_ents_bounds dev bs N (CG : CacheGeom dev bs N) max fl s num :
  blank dev bs N s -> MIN_BLOCKS <= max -> 1 <= num <= NUM_FLUSH_BLOCKS ->
  forall open_path l, all_allowed dev bs (fresh_machine (disk dev s) bs N) l ->
  (size (m_pins (m_run dev bs (fresh_machine (disk dev s) bs N) l).2) <= MAX_PINS)%nat ->
  wp (_ ← start_cache max fl dev N; _ ← run_cache open_path dev bs l; _ ← LOCK_bc; get_ents num NUM_FLUSH_BLOCKS bs)
    (fun ents s' => num <= len ents <= NUM_FLUSH_BLOCKS /\ NoDup ents /\ forall p, p ∈ ents -> is_Some (ces s' !! p)) s.
Proof.
  intros Hb Hmax Hnum open_path l Hl Hsz. wp_step. eapply wp_mono; [by apply (start_stands open_path)|]. intros r s1 [_ Hs].
  wp_step. eapply wp_mono; [by apply run_ok|]. intros rs s2 [_ [(N' & g & HG & Hi & Hq) _ HP _]].
  change (v_pins (cache_view s2 dev bs) = m_pins (m_run dev bs (fresh_machine (disk dev s) bs N) l).2) in HP. rewrite <- HP in Hsz. pose proof (view_size false g s2 Hi Hq) as Hll.
  wp_step. eapply LOCK_bc_wp; [exact Hi|]. intros s3 Hi3 _ _.
  apply (get_ents_wp num g s3); [done|apply Hq|apply Hq|done|unfold MAX_PINS in Hsz; lia|].
  intros s4 news picks Hg. split; [apply Hg|]. by eapply gotten_ents.
Qed.

(** A request for blocks past the end of the device does not come back
    with an error: [cache_block_io] stores through the address 0x3100, a crash,
    whatever state the cache is in. *)
Theorem past_end_crashes open_path dev bs s o :
  cache_ready s dev bs -> past_end (device_blocks s dev) o ->
  @do_op cst (cache_ops open_path) dev bs o s = Fault.
Proof. apply past_end_fault. Qed.

(** *** At concrete inputs: eight blocks of 512 bytes behind descriptor 3 *)

Definition eight_blocks : cst :=
  CS zero_bc (Lock 0 SemNull) [] [] [] 0 ∅ ∅ (OS {[3 := OFile 0 (replicate 4096 "A"%byte)]} [] 0) (Host 0 0 0 4096 [] []) [].
Definition short_session : list cache_op :=
  [Get 2; Store 2 (replicate 512 "B"%byte); MarkDirty 2; Release 2; Write 4 2 (replicate 1024 "C"%byte);
   GetEmpty 6; Read 2 3; MarkDirty 6; Release 6].

Lemma eight_geom : CacheGeom 3 512 8.
Proof. split; lia. Qed.
Lemma eight_blank : blank 3 512 8 eight_blocks.
Proof.
  split; [done|done|done|done|]. exists (OFile 0 (replicate 4096 "A"%byte)). split; [done|].
  unfold len. cbn [f_data]. rewrite length_replicate. lia.
Qed.
Lemma short_allowed : all_allowed 3 512 (fresh_machine (disk 3 eight_blocks) 512 8) short_session.
Proof. apply (bool_decide_unpack _). vm_compute. exact I. Qed.

(** The block read after the session and the flush hold what the session
    wrote. *)
Lemma cache_refines_blocks_witness :
  wp (_ ← start_cache 100 0 3 8; run_cache (fun _ => 3) 3 512 short_session)
    (fun rs _ => rs !! 6%nat = Some (Transfer 0 (replicate 512 "B"%byte ++ replicate 512 "A"%byte ++ replicate 512 "C"%byte))) eight_blocks.
Proof.
  eapply wp_mono; [apply (cache_refines_blocks (fun _ => 3) 3 512 8 eight_geom 100 0 eight_blocks short_session eight_blank);
    [unfold MIN_BLOCKS; lia|exact short_allowed]|].
  cbv beta. intros rs s' [-> _]. vm_compute. reflexivity.
Defined.

Lemma flush_makes_durable_witness :
  wp (_ ← start_cache 100 0 3 8; _ ← run_cache (fun _ => 3) 3 512 short_session; flush_device 3 0)
    (fun r s' => r = 0 /\ blk 512 (disk 3 s') 2 = replicate 512 "B"%byte /\ blk 512 (disk 3 s') 6 = replicate 512 x00) eight_blocks.
Proof.
  eapply wp_mono; [apply (flush_makes_durable (fun _ => 3) 3 512 8 eight_geom 100 0 eight_blocks short_session 0 eight_blank);
    [unfold MIN_BLOCKS; lia|exact short_allowed]|].
  cbv beta zeta. intros r s' [-> H]. split; [reflexivity|]. split.
  - specialize (H 2 ltac:(vm_compute; eauto) ltac:(apply (bool_decide_unpack _); vm_compute; exact I)). vm_compute in H |- *. congruence.
  - specialize (H 6 ltac:(vm_compute; eauto) ltac:(apply (bool_decide_unpack _); vm_compute; exact I)). vm_compute in H |- *. congruence.
Defined.

Lemma cache_well_formed_witness :
  wp (_ ← start_cache 100 0 3 8; run_cache (fun _ => 3) 3 512 short_session)
    (fun _ s' => exists nl ll, well_formed 3 s' nl ll) eight_blocks.
Proof.
  apply (cache_well_formed (fun _ => 3) 3 512 8 eight_geom 100 0 eight_blocks short_session eight_blank);
    [unfold MIN_BLOCKS; lia|exact short_allowed].
Defined.

Lemma get_ents_bounds_witness :
  wp (_ ← start_cache 100 0 3 8; _ ← run_cache (fun _ => 3) 3 512 short_session; _ ← LOCK_bc; get_ents 5 NUM_FLUSH_BLOCKS 512)
    (fun ents _ => 5 <= len ents <= 64) eight_blocks.
Proof.
  eapply wp_mono; [apply (get_ents_bounds 3 512 8 eight_geom 100 0 eight_blocks 5 eight_blank);
    [unfold MIN_BLOCKS; lia|unfold NUM_FLUSH_BLOCKS; lia|exact short_allowed|vm_compute; lia]|].
  cbv beta. intros ents s' [H _]. exact H.
Defined.

Lemma past_end_crashes_witness :
  wp (start_cache 100 0 3 8) (fun _ s' => @do_op cst (cache_ops (fun _ => 3)) 3 512 (Get 8) s' = Fault) eight_blocks.
Proof.
  apply (init_wp (CG := eight_geom) 100 0 eight_blocks _ eight_blank); [unfold MIN_BLOCKS; lia|]. intros s' a Hi.
  apply past_end_crashes; [exists 8, (g_blank (bs := 512) (disk 3 eight_blocks) a); split; [exact eight_geom|split; [exact Hi|split; reflexivity]]|].
  rewrite (device_blocks_inv false _ s' Hi). cbn. lia.
Defined.
