(* ===== verification/RamDisk.v ===== *)
(** * RamDisk: a block cache that keeps the device in memory

    The simplest implementation of the interface of BlockCache.v: one device,
    blocks of one size, every write through.  It shows that the laws can hold
    together, and the witnesses of the development run on it. *)

From S2P Require Import Prelude Bytes BlockCache.
Local Open Scope Z_scope.

Record ram := Ram {
  r_dev : Z;
  r_bs : Z;
  r_count : Z;
  r_blocks : gmap Z (list byte);
  r_pins : gmultiset Z;
  r_unsaved : gset Z;
}.

Definition ram_set_blocks b r := Ram (r_dev r) (r_bs r) (r_count r) b (r_pins r) (r_unsaved r).
Definition ram_set_pins p r := Ram (r_dev r) (r_bs r) (r_count r) (r_blocks r) p (r_unsaved r).
Definition ram_set_unsaved u r := Ram (r_dev r) (r_bs r) (r_count r) (r_blocks r) (r_pins r) u.

Definition ram_knows (r : ram) (dev bs : Z) : bool := (dev =? r_dev r) && (bs =? r_bs r).

Definition ram_get (dev b bs : Z) : M ram (option bptr) :=
  r ← get;
  match r_blocks r !! b with
  | Some _ => if ram_knows r dev bs
              then _ ← modify (ram_set_pins (r_pins r ⊎ {[+ b +]})); mret (Some (BPtr dev b))
              else mret None
  | None => mret None
  end.

Definition ram_get_empty (dev b bs : Z) : M ram (option bptr) :=
  p ← ram_get dev b bs;
  _ ← (match p with
       | Some _ => modify (fun r => ram_set_blocks (<[b := replicate (Z.to_nat bs) x00]> (r_blocks r)) r)
       | None => mret tt
       end);
  mret p.

Definition ram_release (dev b : Z) : M ram Z :=
  r ← get;
  if decide (b ∈ r_pins r) then _ ← modify (ram_set_pins (r_pins r ∖ {[+ b +]})); mret 0
  else hang.

Definition ram_mark (dev b n : Z) : M ram Z :=
  _ ← modify (fun r => ram_set_unsaved (r_unsaved r ∖ {[b]}) r); mret 0.

Definition ram_load (p : bptr) : M ram (list byte) :=
  r ← get;
  if decide (p_bnum p ∈ r_pins r) then opt (r_blocks r !! p_bnum p) else fault.

Definition ram_store (p : bptr) (d : list byte) : M ram unit :=
  r ← get;
  if decide (p_bnum p ∈ r_pins r) then
    modify (fun r => ram_set_blocks (<[p_bnum p := d]> (r_blocks r))
                      (ram_set_unsaved (r_unsaved r ∪ {[p_bnum p]}) r))
  else fault.

Definition ram_read (dev b n bs : Z) : M ram (Z * list byte) :=
  r ← get;
  if ram_knows r dev bs then
    match blocks_at (r_blocks r) b (Z.to_nat n) with
    | Some d => mret (0, d)
    | None => mret (-1, [])
    end
  else mret (-1, []).

Definition ram_write (dev b : Z) (d : list byte) (n bs : Z) : M ram Z :=
  r ← get;
  if ram_knows r dev bs then
    match blocks_at (r_blocks r) b (Z.to_nat n) with
    | Some _ => _ ← modify (ram_set_blocks (put_blocks bs b (Z.to_nat n) d (r_blocks r))); mret 0
    | None => mret (-1)
    end
  else mret (-1).

(** Blocks touched by [n] bytes at [pos], for [bs > 0]. *)
Definition ram_span (bs pos n : Z) : nat := Z.to_nat ((pos mod bs + n + bs - 1) / bs).

Definition ram_read_pos (dev pos n : Z) : M ram (Z * list byte) :=
  r ← get;
  let bs := r_bs r in
  match blocks_at (r_blocks r) (pos / bs) (ram_span bs pos n) with
  | Some d => if dev =? r_dev r then mret (n, slice (pos mod bs) n d) else mret (-1, [])
  | None => mret (-1, [])
  end.

Definition ram_write_pos (dev pos : Z) (d : list byte) : M ram Z :=
  r ← get;
  let bs := r_bs r in
  match blocks_at (r_blocks r) (pos / bs) (ram_span bs pos (len d)) with
  | Some old =>
      if dev =? r_dev r then
        _ ← modify (ram_set_blocks (put_blocks bs (pos / bs) (ram_span bs pos (len d))
                      (splice (pos mod bs) d old) (r_blocks r)));
        mret (len d)
      else mret (-1)
  | None => mret (-1)
  end.

#[export] Instance ram_cache : BlockCache ram := {
  get_block := ram_get;
  get_empty_block := ram_get_empty;
  release_block := ram_release;
  mark_blocks_dirty := ram_mark;
  cached_read := ram_read;
  cached_write := ram_write;
  load := ram_load;
  store := ram_store;
  init_cache_for_device _ _ := mret 0;
  remove_cached_device_blocks _ _ := mret 0;
  read_pos := ram_read_pos;
  write_pos := ram_write_pos;
  dev_open _ := gets r_dev;
  dev_close _ := mret 0;
  dev_size _ := gets (fun r => r_count r * r_bs r);
}.

Record ram_ok (r : ram) (dev bs : Z) : Prop := {
  ram_ok_dev : dev = r_dev r;
  ram_ok_bs : bs = r_bs r;
  ram_ok_pos : 0 < bs;
  ram_ok_len : forall b d, r_blocks r !! b = Some d -> len d = bs;
}.

Definition ram_view (r : ram) (dev bs : Z) : bview :=
  BView (r_blocks r) (r_pins r) (r_unsaved r) (r_count r).

Lemma ram_knows_ok r dev bs : ram_ok r dev bs -> ram_knows r dev bs = true.
Proof. intros [-> -> _ _]. unfold ram_knows. by rewrite !Z.eqb_refl. Qed.

Lemma put_blocks_len bs n b d data :
  0 < bs -> len d = Z.of_nat n * bs ->
  (forall k e, data !! k = Some e -> len e = bs) ->
  forall k e, put_blocks bs b n d data !! k = Some e -> len e = bs.
Proof.
  intros Hbs. revert b d data. induction n as [|n IH]; intros b d data Hd Hdata k e; [apply Hdata|].
  cbn [put_blocks]. apply IH.
  - unfold len in *. rewrite length_drop. lia.
  - intros k' e'. rewrite lookup_insert_Some. intros [[<- <-]|[_ ?]]; [|eauto].
    unfold len in *. rewrite length_take. lia.
Qed.

Lemma ram_ok_put r dev bs n b d :
  ram_ok r dev bs -> len d = Z.of_nat n * bs ->
  ram_ok (ram_set_blocks (put_blocks bs b n d (r_blocks r)) r) dev bs.
Proof.
  intros [H1 H2 H3 H4] Hd. split; try done. cbn. by apply put_blocks_len.
Qed.

Lemma ram_ok_insert r dev bs b d :
  ram_ok r dev bs -> len d = bs -> ram_ok (ram_set_blocks (<[b := d]> (r_blocks r)) r) dev bs.
Proof.
  intros Hok Hd. pose proof (ram_ok_put r dev bs 1 b d Hok ltac:(lia)) as H. cbn in H.
  rewrite take_ge in H; [done|]. unfold len in Hd. lia.
Qed.

#[export, refine] Instance ram_laws : BlockCacheLaws ram := {
  cache_ok := ram_ok;
  cview := ram_view;
}.
Proof.
  - intros c dev bs b d Hok. apply Hok.
  - intros c dev bs b Hok [d Hb] _. cbn in *. unfold ram_get. wp_step. wp_step. rewrite Hb.
    rewrite (ram_knows_ok _ _ _ Hok). wp_steps. destruct Hok. split_and!; try done; cbn; lia.
  - intros c dev bs b Hok [d Hb] _. cbn in *. unfold ram_get_empty, ram_get. wp_step. wp_step. wp_step.
    rewrite Hb. rewrite (ram_knows_ok _ _ _ Hok). wp_steps. split_and!; try done; cbn; try lia.
    apply (ram_ok_insert (ram_set_pins _ c)); [by destruct Hok|].
    rewrite len_replicate. destruct Hok. lia.
  - intros c dev bs b Hok Hin Hun. cbn in *. unfold ram_release. wp_step. wp_step.
    rewrite decide_True by done. wp_steps. destruct Hok. split_and!; try done; cbn; lia.
  - intros c dev bs b Hok Hin. cbn in *. unfold ram_mark. wp_steps. destruct Hok.
    split_and!; try done; cbn; lia.
  - intros c dev bs b d Hok Hin Hb. cbn in *. unfold ram_load. wp_step. wp_step. cbn.
    rewrite decide_True by done. rewrite Hb. wp_steps. done.
  - intros c dev bs b d Hok Hin Hd. cbn in *. unfold ram_store. wp_step. wp_step. cbn.
    rewrite decide_True by done.
    wp_steps. split_and!; try done; cbn; try lia.
    apply (ram_ok_insert (ram_set_unsaved _ c)); [by destruct Hok|done].
  - intros c dev bs b n d Hok Hn _ Hd. cbn in *. unfold ram_read. wp_step. wp_step.
    rewrite (ram_knows_ok _ _ _ Hok), Hd. wp_steps. split_and!; try done; cbn; lia.
  - intros c dev bs b d n Hok Hn _ [old Hold] Hd. cbn in *. unfold ram_write. wp_step. wp_step.
    rewrite (ram_knows_ok _ _ _ Hok), Hold. wp_steps. split_and!; try done; cbn; try lia.
    apply ram_ok_put; [done|]. lia.
  - intros c dev bs b d Hok Hb [old Hold] Hd. cbn in *. unfold ram_write_pos. wp_step. wp_step.
    pose proof (ram_ok_pos _ _ _ Hok) as Hpos. rewrite <- (ram_ok_bs _ _ _ Hok).
    unfold ram_span. rewrite Z.div_mul, Z.mod_mul by lia. rewrite Hd.
    replace ((0 + bs + bs - 1) / bs) with 1 by (apply (Z.div_unique _ _ _ (bs - 1)); lia).
    change (Z.to_nat 1) with 1%nat. cbn [blocks_at]. rewrite Hold. cbn.
    rewrite <- (ram_ok_dev _ _ _ Hok), Z.eqb_refl. rewrite app_nil_r.
    rewrite splice_all by (rewrite Hd; symmetry; by apply (ram_ok_len _ _ _ Hok b)).
    wp_steps. rewrite take_ge by (unfold len in Hd; lia). split_and!; try done; cbn; try lia.
    by apply ram_ok_insert.
Defined.

(** A device whose blocks hold the elements of a list. *)
Fixpoint blocks_from (b : Z) (l : list (list byte)) : gmap Z (list byte) :=
  match l with
  | [] => ∅
  | d :: l => <[b := d]> (blocks_from (b + 1) l)
  end.

Definition ram_disk (dev bs : Z) (l : list (list byte)) : ram :=
  Ram dev bs (len l) (blocks_from 0 l) ∅ ∅.

Lemma blocks_from_lookup b l k :
  blocks_from b l !! k = if decide (b <= k) then l !! Z.to_nat (k - b) else None.
Proof.
  revert b. induction l as [|d l IH]; intros b; cbn [blocks_from].
  - rewrite lookup_empty. by destruct (decide (b <= k)).
  - destruct (decide (k = b)) as [->|Hk].
    + rewrite lookup_insert_eq, decide_True by lia. by rewrite Z.sub_diag.
    + rewrite lookup_insert_ne by done. rewrite IH.
      destruct (decide (b + 1 <= k)), (decide (b <= k)); try lia; [|done].
      replace (Z.to_nat (k - b)) with (S (Z.to_nat (k - (b + 1)))) by lia. done.
Qed.

Lemma ram_disk_lookup dev bs l b :
  0 <= b < len l -> is_Some (r_blocks (ram_disk dev bs l) !! b).
Proof.
  intros Hb. cbn. rewrite blocks_from_lookup, decide_True by lia.
  apply lookup_lt_is_Some_2. unfold len in Hb. lia.
Qed.

Lemma ram_disk_ok dev bs l :
  0 < bs -> Forall (fun d => len d = bs) l -> ram_ok (ram_disk dev bs l) dev bs.
Proof.
  intros Hbs Hl. split; try done. intros b d. cbn. rewrite blocks_from_lookup.
  destruct (decide (0 <= b)); [|done]. rewrite Forall_lookup in Hl. eauto.
Qed.
