(* ===== verification/Myfs.v ===== *)
(** * Myfs: the structures of myfs.h, their on-disk images, and the state

    Records for the C structures (LP64: [fs_off_t] and [my_ino_t] are 64-bit,
    [NUM_DIRECT_BLOCKS] is 6), the byte images [memcpy] gives them, and the
    state the file-system code runs on. *)

From S2P Require Import Prelude Bytes Compat Host BlockCache BitVector.
Local Open Scope Z_scope.

(** ** Structures *)

Definition NUM_DIRECT_BLOCKS : Z := 6.
Definition sizeof_fs_off_t : Z := 8.

Record data_stream := DS {
  direct : list Z;
  indirect : Z;
  double_indirect : Z;
  size : Z;
}.

Record inode_etc := Etc {
  e_contents : option (list byte);   (** [contents], [None] = NULL *)
  e_counter : Z;
}.

(** [etc] is the address of the in-memory part together with that part;
    [None] is the NULL pointer. *)
Record myfs_inode := Inode {
  i_magic1 : Z;
  i_uid : Z;
  i_gid : Z;
  i_mode : Z;
  inode_num : Z;
  i_flags : Z;
  create_time : Z;
  last_modified_time : Z;
  etc : option (Z * inode_etc);
  data : data_stream;
}.

Definition sizeof_myfs_inode : Z := 128.
Definition INODE_MAGIC1 : Z := 0x496e6f64.

Record myfs_super_block := SB {
  sb_name : list byte;
  sb_magic1 : Z;
  fs_byte_order : Z;
  block_size : Z;
  block_shift : Z;
  num_blocks : Z;
  used_blocks : Z;
  num_inodes : Z;
  inode_map_start : Z;
  num_inode_map_blocks : Z;
  inodes_start : Z;
  num_inode_blocks : Z;
  sb_magic2 : Z;
  sb_flags : Z;
  root_inum : Z;
  journal_start : Z;
  journal_length : Z;
  log_start : Z;
  log_end : Z;
  sb_magic3 : Z;
}.

Definition sizeof_super_block : Z := 160.
Definition IDENT_NAME_LENGTH : Z := 32.
Definition SUPER_BLOCK_MAGIC1 : Z := 0x4d594653.
Definition SUPER_BLOCK_MAGIC2 : Z := i32 0xce0169f9.
Definition SUPER_BLOCK_MAGIC3 : Z := 0x53424c4b.
Definition MYFS_BIG_ENDIAN : Z := 0x42494745.
Definition MYFS_CLEAN : Z := 0x434c454e.
Definition MYFS_DIRTY : Z := 0x44495254.
Definition FS_READ_ONLY : Z := 1.

(** The block bitmap; [bbm_bv] is [None] when the pointer is NULL. *)
Record block_bitmap := BBM {
  bbm_bv : option BitVector;
  num_bitmap_blocks : Z;
}.

Definition NUM_TMP_BLOCKS : Z := 16.

(** One pool of temporary blocks: [tb_data] is the address of its memory, and
    a slot holds the address of its block while the block is free. *)
Record tmp_pool := TmpPool {
  tb_data : Z;
  block_ptrs : list (option Z);
}.

(** The journal fields of [myfs_info] are never read or written. *)
Record myfs_info := Info {
  nsid : Z;
  dsb : myfs_super_block;
  bbm : block_bitmap;
  bbm_sem : sem_id;
  inode_map : BitVector;
  info_sem : sem_id;
  fd : Z;
  info_flags : Z;
  dev_block_size : Z;
  dev_block_conversion : Z;
  root_dir : option myfs_inode;
  tmp_blocks_sem : sem_id;
  tmp_blocks : list tmp_pool;
}.

(** ** Assignments to fields *)

Definition set_dsb d i := Info (nsid i) d (bbm i) (bbm_sem i) (inode_map i) (info_sem i) (fd i)
  (info_flags i) (dev_block_size i) (dev_block_conversion i) (root_dir i) (tmp_blocks_sem i) (tmp_blocks i).
Definition set_bbm b i := Info (nsid i) (dsb i) b (bbm_sem i) (inode_map i) (info_sem i) (fd i)
  (info_flags i) (dev_block_size i) (dev_block_conversion i) (root_dir i) (tmp_blocks_sem i) (tmp_blocks i).
Definition set_bbm_sem s i := Info (nsid i) (dsb i) (bbm i) s (inode_map i) (info_sem i) (fd i)
  (info_flags i) (dev_block_size i) (dev_block_conversion i) (root_dir i) (tmp_blocks_sem i) (tmp_blocks i).
Definition set_inode_map m i := Info (nsid i) (dsb i) (bbm i) (bbm_sem i) m (info_sem i) (fd i)
  (info_flags i) (dev_block_size i) (dev_block_conversion i) (root_dir i) (tmp_blocks_sem i) (tmp_blocks i).
Definition set_info_sem s i := Info (nsid i) (dsb i) (bbm i) (bbm_sem i) (inode_map i) s (fd i)
  (info_flags i) (dev_block_size i) (dev_block_conversion i) (root_dir i) (tmp_blocks_sem i) (tmp_blocks i).
Definition set_fd f i := Info (nsid i) (dsb i) (bbm i) (bbm_sem i) (inode_map i) (info_sem i) f
  (info_flags i) (dev_block_size i) (dev_block_conversion i) (root_dir i) (tmp_blocks_sem i) (tmp_blocks i).
Definition set_dev_block s c i := Info (nsid i) (dsb i) (bbm i) (bbm_sem i) (inode_map i) (info_sem i) (fd i)
  (info_flags i) s c (root_dir i) (tmp_blocks_sem i) (tmp_blocks i).
Definition set_root_dir r i := Info (nsid i) (dsb i) (bbm i) (bbm_sem i) (inode_map i) (info_sem i) (fd i)
  (info_flags i) (dev_block_size i) (dev_block_conversion i) r (tmp_blocks_sem i) (tmp_blocks i).
Definition set_tmp_sem s i := Info (nsid i) (dsb i) (bbm i) (bbm_sem i) (inode_map i) (info_sem i) (fd i)
  (info_flags i) (dev_block_size i) (dev_block_conversion i) (root_dir i) s (tmp_blocks i).
Definition set_tmp_blocks t i := Info (nsid i) (dsb i) (bbm i) (bbm_sem i) (inode_map i) (info_sem i) (fd i)
  (info_flags i) (dev_block_size i) (dev_block_conversion i) (root_dir i) (tmp_blocks_sem i) t.

Definition sb_set_used u d := SB (sb_name d) (sb_magic1 d) (fs_byte_order d) (block_size d) (block_shift d)
  (num_blocks d) u (num_inodes d) (inode_map_start d) (num_inode_map_blocks d) (inodes_start d)
  (num_inode_blocks d) (sb_magic2 d) (sb_flags d) (root_inum d) (journal_start d) (journal_length d)
  (log_start d) (log_end d) (sb_magic3 d).
Definition sb_set_flags f d := SB (sb_name d) (sb_magic1 d) (fs_byte_order d) (block_size d) (block_shift d)
  (num_blocks d) (used_blocks d) (num_inodes d) (inode_map_start d) (num_inode_map_blocks d) (inodes_start d)
  (num_inode_blocks d) (sb_magic2 d) f (root_inum d) (journal_start d) (journal_length d)
  (log_start d) (log_end d) (sb_magic3 d).
Definition sb_set_inodes n ms nm ist nb d := SB (sb_name d) (sb_magic1 d) (fs_byte_order d) (block_size d)
  (block_shift d) (num_blocks d) (used_blocks d) n ms nm ist nb (sb_magic2 d) (sb_flags d) (root_inum d)
  (journal_start d) (journal_length d) (log_start d) (log_end d) (sb_magic3 d).
Definition sb_set_root r d := SB (sb_name d) (sb_magic1 d) (fs_byte_order d) (block_size d) (block_shift d)
  (num_blocks d) (used_blocks d) (num_inodes d) (inode_map_start d) (num_inode_map_blocks d) (inodes_start d)
  (num_inode_blocks d) (sb_magic2 d) (sb_flags d) r (journal_start d) (journal_length d)
  (log_start d) (log_end d) (sb_magic3 d).
Definition sb_set_name n d := SB n (sb_magic1 d) (fs_byte_order d) (block_size d) (block_shift d)
  (num_blocks d) (used_blocks d) (num_inodes d) (inode_map_start d) (num_inode_map_blocks d) (inodes_start d)
  (num_inode_blocks d) (sb_magic2 d) (sb_flags d) (root_inum d) (journal_start d) (journal_length d)
  (log_start d) (log_end d) (sb_magic3 d).
Definition sb_set_geometry bs sh nb d := SB (sb_name d) (sb_magic1 d) (fs_byte_order d) bs sh
  nb (used_blocks d) (num_inodes d) (inode_map_start d) (num_inode_map_blocks d) (inodes_start d)
  (num_inode_blocks d) (sb_magic2 d) (sb_flags d) (root_inum d) (journal_start d) (journal_length d)
  (log_start d) (log_end d) (sb_magic3 d).
Definition sb_set_magics m1 m2 m3 bo d := SB (sb_name d) m1 bo (block_size d) (block_shift d)
  (num_blocks d) (used_blocks d) (num_inodes d) (inode_map_start d) (num_inode_map_blocks d) (inodes_start d)
  (num_inode_blocks d) m2 (sb_flags d) (root_inum d) (journal_start d) (journal_length d)
  (log_start d) (log_end d) m3.

Definition ds_set_direct l ds := DS l (indirect ds) (double_indirect ds) (size ds).
Definition ds_set_indirect z ds := DS (direct ds) z (double_indirect ds) (size ds).
Definition ds_set_double z ds := DS (direct ds) (indirect ds) z (size ds).
Definition ds_set_size z ds := DS (direct ds) (indirect ds) (double_indirect ds) z.

Definition mi_set_data d mi := Inode (i_magic1 mi) (i_uid mi) (i_gid mi) (i_mode mi) (inode_num mi)
  (i_flags mi) (create_time mi) (last_modified_time mi) (etc mi) d.
Definition mi_set_mtime t mi := Inode (i_magic1 mi) (i_uid mi) (i_gid mi) (i_mode mi) (inode_num mi)
  (i_flags mi) (create_time mi) t (etc mi) (data mi).
Definition mi_set_crtime t mi := Inode (i_magic1 mi) (i_uid mi) (i_gid mi) (i_mode mi) (inode_num mi)
  (i_flags mi) t (last_modified_time mi) (etc mi) (data mi).
Definition mi_set_mode m mi := Inode (i_magic1 mi) (i_uid mi) (i_gid mi) m (inode_num mi)
  (i_flags mi) (create_time mi) (last_modified_time mi) (etc mi) (data mi).
Definition mi_set_uid u mi := Inode (i_magic1 mi) u (i_gid mi) (i_mode mi) (inode_num mi)
  (i_flags mi) (create_time mi) (last_modified_time mi) (etc mi) (data mi).
Definition mi_set_gid g mi := Inode (i_magic1 mi) (i_uid mi) g (i_mode mi) (inode_num mi)
  (i_flags mi) (create_time mi) (last_modified_time mi) (etc mi) (data mi).
Definition mi_set_etc e mi := Inode (i_magic1 mi) (i_uid mi) (i_gid mi) (i_mode mi) (inode_num mi)
  (i_flags mi) (create_time mi) (last_modified_time mi) e (data mi).

(** ** Memory images

    [struct_bytes] lays out a list of (width, value) fields. *)
Definition struct_bytes (fields : list (nat * Z)) : list byte :=
  mjoin ((fun f => le_bytes f.1 f.2) <$> fields).

Definition etc_addr (mi : myfs_inode) : Z :=
  match etc mi with Some (a, _) => a | None => 0 end.

(** The image of an inode, with the 4 padding bytes after [flags] as
    [calloc] leaves them. *)
Definition encode_inode (mi : myfs_inode) : list byte :=
  struct_bytes
    ([(4%nat, i_magic1 mi); (4%nat, i_uid mi); (4%nat, i_gid mi); (4%nat, i_mode mi);
      (8%nat, inode_num mi); (4%nat, i_flags mi); (4%nat, 0%Z);
      (8%nat, create_time mi); (8%nat, last_modified_time mi); (8%nat, etc_addr mi)]
     ++ ((fun z => (8%nat, z)) <$> direct (data mi))
     ++ [(8%nat, indirect (data mi)); (8%nat, double_indirect (data mi)); (8%nat, size (data mi))]).

Definition field (off n : Z) (l : list byte) : Z := sle (slice off n l).
Definition ufield (off n : Z) (l : list byte) : Z := le_val (slice off n l).

(** The inode a 128-byte image holds; its [etc] pointer is the stale address
    of the process that wrote it and is dropped here. *)
Definition decode_inode (l : list byte) : myfs_inode :=
  Inode (field 0 4 l) (field 4 4 l) (field 8 4 l) (field 12 4 l) (field 16 8 l) (field 24 4 l)
    (field 32 8 l) (field 40 8 l) None
    (DS [field 56 8 l; field 64 8 l; field 72 8 l; field 80 8 l; field 88 8 l; field 96 8 l]
        (field 104 8 l) (field 112 8 l) (field 120 8 l)).

Definition encode_sb (d : myfs_super_block) : list byte :=
  sb_name d ++
  struct_bytes
    [(4%nat, sb_magic1 d); (4%nat, fs_byte_order d); (4%nat, block_size d); (4%nat, block_shift d);
     (8%nat, num_blocks d); (8%nat, used_blocks d); (8%nat, num_inodes d); (8%nat, inode_map_start d);
     (8%nat, num_inode_map_blocks d); (8%nat, inodes_start d); (8%nat, num_inode_blocks d);
     (4%nat, sb_magic2 d); (4%nat, sb_flags d); (8%nat, root_inum d);
     (8%nat, journal_start d); (8%nat, journal_length d); (8%nat, log_start d); (8%nat, log_end d);
     (4%nat, sb_magic3 d); (4%nat, 0%Z)].

Definition decode_sb (l : list byte) : myfs_super_block :=
  SB (slice 0 32 l) (field 32 4 l) (field 36 4 l) (ufield 40 4 l) (ufield 44 4 l)
    (field 48 8 l) (field 56 8 l) (field 64 8 l) (field 72 8 l) (field 80 8 l) (field 88 8 l)
    (field 96 8 l) (field 104 4 l) (field 108 4 l) (field 112 8 l) (field 120 8 l) (field 128 8 l)
    (field 136 8 l) (field 144 8 l) (field 152 4 l).

#[global] Arguments struct_bytes : simpl never.
#[global] Arguments field : simpl never.
#[global] Arguments ufield : simpl never.
#[global] Arguments encode_inode : simpl never.
#[global] Arguments decode_inode : simpl never.
#[global] Arguments encode_sb : simpl never.
#[global] Arguments decode_sb : simpl never.

(** ** State and lifting *)

Record fs_state (C : Type) := FS {
  fs_info : myfs_info;
  fs_cache : C;
  fs_host : host;
}.
Arguments FS {C} fs_info fs_cache fs_host.
Arguments fs_info {C}.
Arguments fs_cache {C}.
Arguments fs_host {C}.

Section state.
Context {C : Type}.
Abbreviation St := (fs_state C).

Definition upd_info (i : myfs_info) (s : St) : St := FS i (fs_cache s) (fs_host s).
Definition upd_cache (c : C) (s : St) : St := FS (fs_info s) c (fs_host s).
Definition upd_host (h : host) (s : St) : St := FS (fs_info s) (fs_cache s) h.

Definition in_info {A} (m : M myfs_info A) : M St A := zoom fs_info upd_info m.
Definition in_cache {A} (m : M C A) : M St A := zoom fs_cache upd_cache m.
Definition in_host {A} (m : M host A) : M St A := zoom fs_host upd_host m.

Definition myfs : M St myfs_info := gets fs_info.
Definition bsize_of : M St Z := gets (fun s => i32 (block_size (dsb (fs_info s)))).

(** [myfs->dsb.f = v], [myfs->bbm.bv->...] and so on. *)
Definition set_info (f : myfs_info -> myfs_info) : M St unit :=
  modify (fun s => upd_info (f (fs_info s)) s).
Definition set_sb (f : myfs_super_block -> myfs_super_block) : M St unit :=
  set_info (fun i => set_dsb (f (dsb i)) i).

(** Code on the bit vector [bbm.bv] points to: a fault when it is NULL. *)
Definition in_bbm {A} (m : M BitVector A) : M St A := fun s =>
  match bbm_bv (bbm (fs_info s)) with
  | None => Fault
  | Some bv =>
      match m bv with
      | Done (a, bv') => Done (a, upd_info (set_bbm (BBM (Some bv') (num_bitmap_blocks (bbm (fs_info s))))
                                              (fs_info s)) s)
      | Hang => Hang
      | Fault => Fault
      end
  end.
Definition in_inode_map {A} (m : M BitVector A) : M St A :=
  in_info (zoom inode_map set_inode_map m).
Definition in_bbm_sem {A} (m : M sem_id A) : M St A := in_info (zoom bbm_sem set_bbm_sem m).
Definition in_tmp_sem {A} (m : M sem_id A) : M St A := in_info (zoom tmp_blocks_sem set_tmp_sem m).

(** [CHECK_INODE]: [myfs_die] on a damaged or half-freed inode. *)
Definition CHECK_INODE (mi : myfs_inode) : M St unit :=
  if negb (i_magic1 mi =? INODE_MAGIC1) then hang
  else match etc mi with
       | None => hang
       | Some _ => if size (data mi) <? 0 then hang else mret tt
       end.
End state.

#[export] Hint Unfold in_info in_cache in_host in_inode_map in_bbm_sem in_tmp_sem : wp.

(** ** Round trips of the images *)

Lemma length_struct_bytes fs : length (struct_bytes fs) = sum_list (fs.*1).
Proof.
  induction fs as [|f fs IH]; [done|].
  change (struct_bytes (f :: fs)) with (le_bytes f.1 f.2 ++ struct_bytes fs).
  rewrite length_app, length_le_bytes, IH. done.
Qed.

(** The slice of a structure image that holds its [k]-th field. *)
Lemma slice_field fs k w z off rest :
  fs !! k = Some (w, z) -> off = Z.of_nat (sum_list (take k (fs.*1))) ->
  slice off (Z.of_nat w) (struct_bytes fs ++ rest) = le_bytes w z.
Proof.
  intros Hk ->. rewrite <- (take_drop_middle _ _ _ Hk) at 2.
  unfold struct_bytes. rewrite fmap_app, join_app. fold (struct_bytes (take k fs)).
  rewrite <- app_assoc. rewrite <- fmap_take.
  rewrite slice_app_r by (unfold len; rewrite ?length_struct_bytes; lia).
  unfold len. rewrite length_struct_bytes, Z.sub_diag.
  cbn [fmap list_fmap mjoin list_join]. rewrite <- app_assoc.
  apply slice_prefix. by rewrite len_le_bytes.
Qed.

Lemma field_i64 fs k z off rest :
  fs !! k = Some (8%nat, z) -> off = Z.of_nat (sum_list (take k (fs.*1))) -> in_i64 z ->
  field off 8 (struct_bytes fs ++ rest) = z.
Proof.
  intros Hk Ho Hz. unfold field. change 8 with (Z.of_nat 8).
  rewrite (slice_field _ k 8 z) by done. by apply sle_i64.
Qed.

Lemma field_i32 fs k z off rest :
  fs !! k = Some (4%nat, z) -> off = Z.of_nat (sum_list (take k (fs.*1))) -> in_i32 z ->
  field off 4 (struct_bytes fs ++ rest) = z.
Proof.
  intros Hk Ho Hz. unfold field. change 4 with (Z.of_nat 4).
  rewrite (slice_field _ k 4 z) by done. by apply sle_i32.
Qed.

Lemma ufield_u32 fs k z off rest :
  fs !! k = Some (4%nat, z) -> off = Z.of_nat (sum_list (take k (fs.*1))) -> 0 <= z < 2 ^ 32 ->
  ufield off 4 (struct_bytes fs ++ rest) = z.
Proof.
  intros Hk Ho Hz. unfold ufield. change 4 with (Z.of_nat 4).
  rewrite (slice_field _ k 4 z) by done. by apply le_val_u32.
Qed.

(** Finds which field of a concrete structure a reading is of. *)
Ltac solve_field :=
  let rec go k n :=
    lazymatch n with
    | O => fail "no such field"
    | Datatypes.S ?n =>
        first [ apply (field_i64 _ k); [reflexivity|reflexivity|assumption]
              | apply (field_i32 _ k); [reflexivity|reflexivity|assumption]
              | apply (ufield_u32 _ k); [reflexivity|reflexivity|assumption]
              | go (Datatypes.S k) n ]
    end in go 0%nat 24%nat.

(** An inode whose fields fit their C types. *)
Record inode_fits (mi : myfs_inode) : Prop := {
  fit_magic : in_i32 (i_magic1 mi);
  fit_uid : in_i32 (i_uid mi);
  fit_gid : in_i32 (i_gid mi);
  fit_mode : in_i32 (i_mode mi);
  fit_num : in_i64 (inode_num mi);
  fit_flags : in_i32 (i_flags mi);
  fit_crtime : in_i64 (create_time mi);
  fit_mtime : in_i64 (last_modified_time mi);
  fit_direct : Forall in_i64 (direct (data mi));
  fit_ndirect : length (direct (data mi)) = Z.to_nat NUM_DIRECT_BLOCKS;
  fit_indirect : in_i64 (indirect (data mi));
  fit_double : in_i64 (double_indirect (data mi));
  fit_size : in_i64 (size (data mi));
}.

Lemma len_encode_inode mi : length (direct (data mi)) = 6%nat -> len (encode_inode mi) = 128.
Proof.
  intros E. unfold encode_inode, len. rewrite length_struct_bytes.
  destruct (direct (data mi)) as [|d0 [|d1 [|d2 [|d3 [|d4 [|d5 [|]]]]]]]; try done.
Qed.

Lemma decode_encode_inode mi rest :
  inode_fits mi -> decode_inode (encode_inode mi ++ rest) = mi_set_etc None mi.
Proof.
  intros [? ? ? ? ? ? ? ? Hd Hn ? ? ?]. change (Z.to_nat NUM_DIRECT_BLOCKS) with 6%nat in Hn.
  destruct mi as [m u g mo num fl ct mt e [dir ind dbl sz]]. cbn in *.
  destruct dir as [|d0 [|d1 [|d2 [|d3 [|d4 [|d5 [|]]]]]]]; try done. clear Hn.
  split_Forall.
  unfold decode_inode, encode_inode, mi_set_etc. cbn [i_magic1 i_uid i_gid i_mode inode_num i_flags
    create_time last_modified_time data direct indirect double_indirect size fmap list_fmap app].
  f_equal; [solve_field..|]. f_equal; [|solve_field..]. repeat (apply f_equal2; [solve_field|]). done.
Qed.

(** A super block whose fields fit their C types. *)
Record sb_fits (d : myfs_super_block) : Prop := {
  fit_name : len (sb_name d) = IDENT_NAME_LENGTH;
  fit_i32s : Forall in_i32 [sb_magic1 d; fs_byte_order d; sb_magic2 d; sb_flags d; sb_magic3 d];
  fit_bs : 0 <= block_size d < 2 ^ 32;
  fit_shift : 0 <= block_shift d < 2 ^ 32;
  fit_i64s : Forall in_i64 [num_blocks d; used_blocks d; num_inodes d; inode_map_start d;
    num_inode_map_blocks d; inodes_start d; num_inode_blocks d; root_inum d; journal_start d;
    journal_length d; log_start d; log_end d];
}.

Lemma len_encode_sb d : len (sb_name d) = 32 -> len (encode_sb d) = 160.
Proof.
  intros E. unfold encode_sb. rewrite len_app, E. unfold len. by rewrite length_struct_bytes.
Qed.

Lemma field_app_r off n (l1 l2 : list byte) :
  0 <= off -> len l1 <= off -> field off n (l1 ++ l2) = field (off - len l1) n l2.
Proof. intros. unfold field. by rewrite slice_app_r. Qed.
Lemma ufield_app_r off n (l1 l2 : list byte) :
  0 <= off -> len l1 <= off -> ufield off n (l1 ++ l2) = ufield (off - len l1) n l2.
Proof. intros. unfold ufield. by rewrite slice_app_r. Qed.

Lemma decode_encode_sb d rest : sb_fits d -> decode_sb (encode_sb d ++ rest) = d.
Proof.
  intros [Hn H32 ? ? H64]. destruct d. cbn in *. unfold IDENT_NAME_LENGTH in *.
  split_Forall.
  unfold decode_sb, encode_sb. cbn -[slice field ufield struct_bytes app].
  rewrite <- app_assoc.
  f_equal; [by apply slice_prefix|..];
    (first [rewrite field_app_r by lia | rewrite ufield_app_r by lia]; rewrite Hn; solve_field).
Qed.
