(* ===== verification/Io.v ===== *)
(** * Io: block and super-block I/O (io.c)

    Wrappers over the block cache that check block ranges, and the reading and
    writing of the super block. *)

From S2P Require Import Prelude Bytes Host BlockCache BitVector Myfs.
Local Open Scope Z_scope.

Section io.
Context {C : Type} `{BlockCache C}.
Abbreviation St := (fs_state C).

(** sysdep.c: the Unix branch answers 512 for every device. *)
Definition get_device_block_size (fd : Z) : M St Z := mret 512.

Definition get_num_device_blocks (fd : Z) : M St Z :=
  n ← in_cache (dev_size fd);
  bs ← get_device_block_size fd;
  mret (n / bs).

Definition read_only (i : myfs_info) : bool := negb (Z.land (info_flags i) FS_READ_ONLY =? 0).

(** The range test of [read_blocks] and [write_blocks]; [block_num + nblocks]
    is computed and compared unsigned. *)
Definition blocks_in_range (i : myfs_info) (block_num nblocks : Z) : bool :=
  negb (block_num >=? num_blocks (dsb i)) &&
  negb ((block_num <? num_blocks (dsb i)) &&
        (u64 (block_num + nblocks) >? u64 (num_blocks (dsb i)))).

(** The result and, when it is not -1, the bytes put in the buffer. *)
Definition read_blocks (block_num nblocks : Z) : M St (Z * list byte) :=
  i ← myfs;
  bsize ← bsize_of;
  if negb (blocks_in_range i block_num nblocks) then mret (-1, []) else
  '(ret, d) ← in_cache (cached_read (fd i) block_num (i64 nblocks) bsize);
  if ret =? 0 then mret (i64 nblocks, d) else mret (-1, d).

(** [block] is the memory at the buffer pointer, [None] when fewer than
    [nblocks] blocks of memory are there. *)
Definition write_blocks (block_num : Z) (block : option (list byte)) (nblocks : Z) : M St Z :=
  i ← myfs;
  bsize ← bsize_of;
  if read_only i then mret (-1) else
  if negb (blocks_in_range i block_num nblocks) then mret (-1) else
  d ← opt block;
  ret ← in_cache (cached_write (fd i) block_num d (i64 nblocks) bsize);
  if ret =? 0 then mret (i64 nblocks) else mret (-1).

Definition read_super_block : M St Z :=
  i ← myfs;
  block_size ← get_device_block_size (fd i);
  if block_size <? 0 then mret EINVAL else
  _ ← set_info (fun i => set_dev_block (u32 block_size) (dev_block_conversion i) i);
  let block_size := if block_size <? 1024 then 1024 else block_size in
  buff ← in_host (malloc block_size);
  match buff with
  | None => mret ENOMEM
  | Some _ =>
      '(amt, d) ← in_cache (read_pos (fd i) 0 block_size);
      if negb (amt =? block_size) then mret EINVAL else
      _ ← set_info (set_dsb (decode_sb d));
      i ← myfs;
      _ ← set_info (set_dev_block (u32 block_size) (u32 (Myfs.block_size (dsb i)) / u32 block_size));
      mret 0
  end.

(** [block_size] bytes from the address of the [sizeof_super_block]-byte
    structure: what follows it in memory is indeterminate. *)
Definition write_super_block : M St Z :=
  _ ← set_sb (sb_set_flags MYFS_CLEAN);
  i ← myfs;
  let bs := block_size (dsb i) in
  rest ← in_host (junk (bs - sizeof_super_block));
  amt ← in_cache (write_pos (fd i) 0 (take (Z.to_nat bs) (encode_sb (dsb i) ++ rest)));
  if amt =? bs then mret 0 else mret (-1).
End io.

(** ** Block sizes

    The sizes that make sense: powers of two between the inode size and the
    largest [super_block_is_sane] settles on. *)
Definition geom (b : Z) : Prop := exists sh, 7 <= sh <= 16 /\ b = 2 ^ sh.

Lemma geom_bounds b : geom b -> 128 <= b <= 65536.
Proof.
  intros (sh & Hsh & ->). pose proof (Z.pow_le_mono_r 2 7 sh). pose proof (Z.pow_le_mono_r 2 sh 16).
  change (2 ^ 7) with 128 in *. change (2 ^ 16) with 65536 in *. lia.
Qed.

Lemma geom_mod b k : geom b -> 0 <= k <= 7 -> b mod 2 ^ k = 0.
Proof.
  intros (sh & Hsh & ->) Hk. replace sh with (sh - k + k) by lia.
  rewrite Z.pow_add_r by lia. apply Z.mod_mul. pose proof (Z.pow_pos_nonneg 2 k). lia.
Qed.

Lemma geom_div8 b : geom b -> b = 8 * (b / 8).
Proof. intros Hg. pose proof (geom_mod b 3 Hg ltac:(lia)) as H. change (2 ^ 3) with 8 in H. dlia. Qed.

(** ** The device as the file system sees it *)

Section specs.
Context {C : Type} {HC : BlockCache C} {HL : BlockCacheLaws C}.
Abbreviation St := (fs_state C).

Definition bs (s : St) : Z := block_size (dsb (fs_info s)).
Definition nblk (s : St) : Z := num_blocks (dsb (fs_info s)).
Definition vw (s : St) : bview := cview (fs_cache s) (fd (fs_info s)) (bs s).
Definition dat (s : St) : gmap Z (list byte) := v_data (vw s).
Definition pins (s : St) : gmultiset Z := v_pins (vw s).

(** The device is usable: the cache answers for it, it is writable, every
    block of the file system exists, and block 0 is not in the cache. *)
Record disk_ok (s : St) : Prop := {
  do_cache : cache_ok (fs_cache s) (fd (fs_info s)) (bs s);
  do_bs : 0 < bs s < 2 ^ 31;
  do_nblk : 0 <= nblk s < 2 ^ 31;
  do_blocks : forall b, 0 <= b < nblk s -> is_Some (dat s !! b);
  do_rw : read_only (fs_info s) = false;
  do_low : 1 <= v_low (vw s);
}.

(** A step that goes to the cache only: the contents and pins after it. *)
Record cstep (s s' : St) (data : gmap Z (list byte)) (ps : gmultiset Z) : Prop := {
  cs_info : fs_info s' = fs_info s;
  cs_host : fs_host s' = fs_host s;
  cs_data : dat s' = data;
  cs_pins : pins s' = ps;
  cs_unsaved : v_unsaved (vw s') ⊆ v_unsaved (vw s);
}.

Lemma bs_info s s' : fs_info s' = fs_info s -> bs s' = bs s.
Proof. unfold bs. by intros ->. Qed.
Lemma nblk_info s s' : fs_info s' = fs_info s -> nblk s' = nblk s.
Proof. unfold nblk. by intros ->. Qed.

Lemma dat_len s b d : disk_ok s -> dat s !! b = Some d -> len d = bs s.
Proof. intros Hd Hb. eapply cache_block_len; [apply Hd|exact Hb]. Qed.

Lemma i32_bs s : disk_ok s -> i32 (block_size (dsb (fs_info s))) = bs s.
Proof. intros Hd. apply i32_id. unfold in_i32. pose proof (do_bs s Hd). fold (bs s). lia. Qed.

Lemma cstep_refl s : cstep s s (dat s) (pins s).
Proof. by split. Qed.

Lemma cstep_trans s s1 s2 d1 d2 p1 p2 :
  cstep s s1 d1 p1 -> cstep s1 s2 d2 p2 -> cstep s s2 d2 p2.
Proof. intros [] []. split; try congruence. etrans; eauto. Qed.

(** What a new cache [c] in place of the old one must satisfy. *)
Lemma disk_ok_cache s c data ps :
  disk_ok s -> cache_ok c (fd (fs_info s)) (bs s) ->
  v_data (cview c (fd (fs_info s)) (bs s)) = data ->
  v_pins (cview c (fd (fs_info s)) (bs s)) = ps ->
  v_unsaved (cview c (fd (fs_info s)) (bs s)) ⊆ v_unsaved (vw s) ->
  1 <= v_low (cview c (fd (fs_info s)) (bs s)) ->
  (forall b, is_Some (dat s !! b) -> is_Some (data !! b)) ->
  disk_ok (upd_cache c s) /\ cstep s (upd_cache c s) data ps.
Proof.
  intros [H1 H2 H3 H4 H5 H6] Hok Hdat Hp Hu Hl Hdom. split; [|done].
  split; try done. intros b Hb. unfold dat, vw. cbn. fold (bs s).
  change (bs (upd_cache c s)) with (bs s). rewrite Hdat. auto.
Qed.

Lemma insert_dom {V} (m : gmap Z V) b v b' : is_Some (m !! b') -> is_Some (<[b := v]> m !! b').
Proof.
  intros. destruct (decide (b' = b)) as [->|]; [by rewrite lookup_insert_eq|].
  by rewrite lookup_insert_ne by done.
Qed.

Lemma wp_bsize_of (Q : Z -> St -> Prop) s : disk_ok s -> Q (bs s) s -> wp bsize_of Q s.
Proof. intros Hd HQ. unfold bsize_of. apply wp_gets. by rewrite i32_bs. Qed.

Lemma wp_in_cache {A} (m : M C A) (Q : A -> St -> Prop) s :
  wp m (fun a c => Q a (upd_cache c s)) (fs_cache s) -> wp (in_cache m) Q s.
Proof. intros. unfold in_cache. by apply wp_zoom. Qed.

Lemma wp_in_host {A} (m : M host A) (Q : A -> St -> Prop) s :
  wp m (fun a h => Q a (upd_host h s)) (fs_host s) -> wp (in_host m) Q s.
Proof. intros. unfold in_host. by apply wp_zoom. Qed.

(** *** The cache operations on the state of the file system *)

Section ops.
Context (s : St) (dev b sz : Z).
Hypothesis Hd : disk_ok s.
Hypothesis Hdev : dev = fd (fs_info s).
Hypothesis Hsz : sz = bs s.

Lemma get_block_wp {A} (k : option bptr -> M St A) Q :
  1 <= b < nblk s -> (base.size (pins s) < MAX_PINS)%nat ->
  (forall s', disk_ok s' -> cstep s s' (dat s) (pins s ⊎ {[+ b +]}) ->
      wp (k (Some (BPtr dev b))) Q s') ->
  wp (p ← in_cache (get_block dev b sz); k p) Q s.
Proof.
  intros Hb Hp Hk. subst. apply wp_bind, wp_in_cache. eapply wp_mono.
  { eapply get_block_law; [apply Hd|apply Hd; lia|exact Hp]. }
  intros r c' (-> & Hok & Hdat & Hpins & Hu & Hl).
  apply Hk; eapply (disk_ok_cache _ _ (dat s) (pins s ⊎ {[+ b +]}) Hd); try done;
    pose proof (do_low s Hd); unfold vw in *; lia.
Qed.

Lemma get_empty_block_wp {A} (k : option bptr -> M St A) Q :
  1 <= b < nblk s -> (base.size (pins s) < MAX_PINS)%nat ->
  (forall s', disk_ok s' ->
      cstep s s' (<[b := replicate (Z.to_nat (bs s)) x00]> (dat s)) (pins s ⊎ {[+ b +]}) ->
      wp (k (Some (BPtr dev b))) Q s') ->
  wp (p ← in_cache (get_empty_block dev b sz); k p) Q s.
Proof.
  intros Hb Hp Hk. subst. apply wp_bind, wp_in_cache. eapply wp_mono.
  { eapply get_empty_block_law; [apply Hd|apply Hd; lia|exact Hp]. }
  intros r c' (-> & Hok & Hdat & Hpins & Hu & Hl).
  apply Hk; eapply (disk_ok_cache _ _ (<[b := replicate (Z.to_nat (bs s)) x00]> (dat s)) (pins s ⊎ {[+ b +]}) Hd);
    try done; try (intros ?; apply insert_dom); pose proof (do_low s Hd); unfold vw in *; lia.
Qed.

Lemma release_block_wp {A} (k : Z -> M St A) Q :
  b ∈ pins s -> b ∉ v_unsaved (vw s) ->
  (forall s', disk_ok s' -> cstep s s' (dat s) (pins s ∖ {[+ b +]}) -> wp (k 0) Q s') ->
  wp (r ← in_cache (release_block dev b); k r) Q s.
Proof.
  intros Hb Hp Hk. subst. apply wp_bind, wp_in_cache. eapply wp_mono.
  { eapply release_block_law; [apply Hd|exact Hb|exact Hp]. }
  intros r c' (-> & Hok & Hdat & Hpins & Hu & Hl).
  apply Hk; eapply (disk_ok_cache _ _ (dat s) (pins s ∖ {[+ b +]}) Hd); try done;
    pose proof (do_low s Hd); unfold vw in *; lia.
Qed.

Lemma load_wp {A} (k : list byte -> M St A) Q d :
  b ∈ pins s -> dat s !! b = Some d -> wp (k d) Q s ->
  wp (r ← in_cache (load (BPtr dev b)); k r) Q s.
Proof.
  intros Hb Hp Hk. subst. apply wp_bind, wp_in_cache. eapply wp_mono.
  { eapply load_law; [apply Hd|exact Hb|exact Hp]. }
  intros r c' (-> & ->). by destruct s.
Qed.

(** A change through the pointer; it is not yet saved. *)
Lemma store_wp {A} (k : unit -> M St A) Q d :
  b ∈ pins s -> len d = bs s ->
  (forall s', disk_ok s' -> fs_info s' = fs_info s -> fs_host s' = fs_host s ->
      dat s' = <[b := d]> (dat s) -> pins s' = pins s ->
      v_unsaved (vw s') ⊆ v_unsaved (vw s) ∪ {[b]} -> wp (k tt) Q s') ->
  wp (r ← in_cache (store (BPtr dev b) d); k r) Q s.
Proof.
  intros Hb Hlen Hk. subst. apply wp_bind, wp_in_cache. eapply wp_mono.
  { eapply store_law; [apply Hd|exact Hb|exact Hlen]. }
  intros [] c' (Hok & Hdat & Hpins & Hu & Hl). apply Hk; try done.
  destruct Hd as [H1 H2 H3 H4 H5 H6]. split; try done.
  - intros b' Hb'. unfold dat, vw. cbn. change (bs (upd_cache c' s)) with (bs s).
    rewrite Hdat. apply insert_dom. by apply H4.
  - unfold vw in *. cbn. change (bs (upd_cache c' s)) with (bs s). lia.
Qed.

Lemma mark_dirty_wp {A} (k : Z -> M St A) Q :
  b ∈ pins s ->
  (forall s', disk_ok s' -> cstep s s' (dat s) (pins s) ->
      v_unsaved (vw s') ⊆ v_unsaved (vw s) ∖ {[b]} -> wp (k 0) Q s') ->
  wp (r ← in_cache (mark_blocks_dirty dev b 1); k r) Q s.
Proof.
  intros Hb Hk. subst. apply wp_bind, wp_in_cache. eapply wp_mono.
  { eapply mark_dirty_law; [apply Hd|exact Hb]. }
  intros r c' (-> & Hok & Hdat & Hpins & Hu & Hl).
  apply Hk; [| |done]; eapply (disk_ok_cache _ _ (dat s) (pins s) Hd); try done;
    try (unfold vw in *; set_solver); pose proof (do_low s Hd); unfold vw in *; lia.
Qed.
End ops.

(** A block that is pinned, changed, marked dirty and released. *)
Lemma save_release_wp {A} s dev b d (k : Z -> M St A) Q ps :
  disk_ok s -> dev = fd (fs_info s) -> pins s = ps ⊎ {[+ b +]} -> b ∉ v_unsaved (vw s) ->
  len d = bs s ->
  (forall s', disk_ok s' -> cstep s s' (<[b := d]> (dat s)) ps -> wp (k 0) Q s') ->
  wp (_ ← in_cache (store (BPtr dev b) d);
      _ ← in_cache (mark_blocks_dirty dev b 1);
      r ← in_cache (release_block dev b); k r) Q s.
Proof.
  intros Hd Hdev Hps Hun Hlen Hk. apply (store_wp _ _ _ Hd Hdev); [multiset_solver|done|].
  intros s1 Hd1 Hi1 Hh1 Hdat1 Hp1 Hu1.
  apply (mark_dirty_wp s1); [done|congruence|multiset_solver|]. intros s2 Hd2 [Hi2 Hh2 Hdat2 Hp2 _] Hu2.
  apply (release_block_wp s2); [done|congruence|multiset_solver|set_solver|].
  intros s3 Hd3 [Hi3 Hh3 Hdat3 Hp3 Hu3]. apply Hk; [done|].
  split; try congruence; [|set_solver].
  rewrite Hp3, Hp2, Hp1, Hps. multiset_solver.
Qed.

(** A block that is pinned, looked at and released. *)
Lemma peek_wp {A} s dev b sz d (k : list byte -> M St A) Q :
  disk_ok s -> dev = fd (fs_info s) -> sz = bs s -> 1 <= b < nblk s ->
  (base.size (pins s) < MAX_PINS)%nat -> b ∉ v_unsaved (vw s) -> dat s !! b = Some d ->
  (forall s', disk_ok s' -> cstep s s' (dat s) (pins s) -> wp (k d) Q s') ->
  wp (p ← in_cache (get_block dev b sz); q ← opt p; d ← in_cache (load q);
      _ ← in_cache (release_block dev b); k d) Q s.
Proof.
  intros Hd Hdev Hsz Hb Hp Hun Hdat Hk. apply (get_block_wp _ _ _ _ Hd Hdev Hsz); [done..|].
  intros s1 Hd1 [Hi1 Hh1 Hdat1 Hp1 Hu1]. wp_step. wp_step.
  apply (load_wp s1 _ _ Hd1) with d; [congruence|multiset_solver|congruence|].
  apply (release_block_wp s1); [done|congruence|multiset_solver|set_solver|].
  intros s2 Hd2 [Hi2 Hh2 Hdat2 Hp2 Hu2]. apply Hk; [done|].
  split; try congruence; [|set_solver]. rewrite Hp2, Hp1. multiset_solver.
Qed.

Lemma in_range_ok s b n :
  disk_ok s -> 0 <= b -> 0 < n -> b + n <= nblk s -> blocks_in_range (fs_info s) b n = true.
Proof.
  intros Hd Hb Hn Hbn. pose proof (do_nblk s Hd). unfold blocks_in_range. fold (nblk s).
  rewrite Z.geb_leb, Z.gtb_ltb.
  rewrite (u64_id (b + n)), (u64_id (nblk s)) by lia.
  destruct (Z.leb_spec (nblk s) b), (Z.ltb_spec b (nblk s)), (Z.ltb_spec (nblk s) (b + n)); cbn; lia.
Qed.

Lemma put_blocks_dom sz b n d data b' :
  is_Some (data !! b') -> is_Some (put_blocks sz b n d data !! b').
Proof.
  revert b d data. induction n as [|n IH]; intros b d data Hb'; cbn [put_blocks]; [done|].
  apply IH. destruct (decide (b' = b)) as [->|]; [by rewrite lookup_insert_eq|].
  by rewrite lookup_insert_ne by done.
Qed.

Lemma blocks_at_Some s b n :
  disk_ok s -> 0 <= b -> b + Z.of_nat n <= nblk s -> is_Some (blocks_at (dat s) b n).
Proof.
  intros Hd. revert b. induction n as [|n IH]; intros b Hb Hn; cbn [blocks_at]; [done|].
  destruct (do_blocks s Hd b) as [d ->]; [lia|].
  destruct (IH (b + 1)) as [r ->]; [lia|lia|]. cbn. done.
Qed.

(** [write_blocks] on a range of the device stores the bytes. *)
Lemma write_blocks_spec s b d n :
  disk_ok s -> 1 <= b -> 0 < n -> b + n <= nblk s -> len d = n * bs s ->
  (base.size (pins s) <= MAX_PINS)%nat ->
  wp (write_blocks b (Some d) n)
     (fun r s' => r = n /\ disk_ok s' /\
        cstep s s' (put_blocks (bs s) b (Z.to_nat n) d (dat s)) (pins s)) s.
Proof.
  intros Hd Hb Hn Hbn Hlen Hp. pose proof (do_nblk s Hd) as Hnb.
  unfold write_blocks, myfs. wp_step. wp_step. wp_step. apply wp_bsize_of; [done|].
  rewrite (do_rw s Hd), in_range_ok by (done || lia). cbn [negb]. wp_step. wp_step. wp_step.
  apply wp_in_cache. rewrite i64_id by (unfold in_i64; lia). eapply wp_mono.
  { apply cached_write_law; [apply Hd|done|done|apply (blocks_at_Some s b (Z.to_nat n)); [done|lia..]|].
    rewrite Hlen. lia. }
  intros r c' (-> & Hok & Hdat & Hpins & Hu & Hl). cbn. apply wp_ret. split; [done|].
  apply disk_ok_cache; try done; [|intros b'; apply put_blocks_dom].
  pose proof (do_low s Hd). unfold vw in *. lia.
Qed.

Lemma read_blocks_spec s b n d :
  disk_ok s -> 1 <= b -> 0 < n -> b + n <= nblk s ->
  blocks_at (dat s) b (Z.to_nat n) = Some d -> (base.size (pins s) <= MAX_PINS)%nat ->
  wp (read_blocks b n)
     (fun r s' => r = (n, d) /\ disk_ok s' /\ cstep s s' (dat s) (pins s)) s.
Proof.
  intros Hd Hb Hn Hbn Hdat Hp. pose proof (do_nblk s Hd) as Hnb.
  unfold read_blocks, myfs. wp_step. wp_step. wp_step. apply wp_bsize_of; [done|].
  rewrite in_range_ok by (done || lia). cbn [negb]. wp_step.
  apply wp_in_cache. rewrite i64_id by (unfold in_i64; lia). eapply wp_mono.
  { apply cached_read_law; [apply Hd|done|done|exact Hdat]. }
  intros r c' (-> & Hok & Hdat' & Hpins & Hu & Hl). cbn. apply wp_ret. split; [done|].
  apply disk_ok_cache; try done. pose proof (do_low s Hd). unfold vw in *. lia.
Qed.

Lemma put_blocks_other sz b n d data b' :
  b' < b \/ b + Z.of_nat n <= b' -> put_blocks sz b n d data !! b' = data !! b'.
Proof.
  revert b d data. induction n as [|n IH]; intros b d data Hb; cbn [put_blocks]; [done|].
  rewrite IH by lia. by rewrite lookup_insert_ne by lia.
Qed.

Lemma blocks_at_put sz b n d data :
  0 <= sz -> len d = Z.of_nat n * sz -> blocks_at (put_blocks sz b n d data) b n = Some d.
Proof.
  intros Hsz. revert b d data. induction n as [|n IH]; intros b d data Hlen; cbn [put_blocks blocks_at].
  - destruct d; [done|]. rewrite len_cons in Hlen. pose proof (len_nonneg d). lia.
  - rewrite put_blocks_other by lia. rewrite lookup_insert_eq. cbn.
    rewrite IH; [cbn; by rewrite take_drop|].
    unfold len in *. rewrite length_drop. lia.
Qed.
End specs.
