(* ===== verification/Sample.v ===== *)
(** * Sample: a small file system for the witnesses

    Thirty-two blocks of 128 bytes on a RAM disk: the super block, one bitmap
    block, one inode-map block, eight inode blocks, and one file (inode 1) of
    200 bytes in blocks 11 and 12. *)

From S2P Require Import Prelude Bytes Host BlockCache RamDisk BitVector Myfs Io.
Local Open Scope Z_scope.

Definition sample_sb : myfs_super_block :=
  SB (replicate 32 x00) SUPER_BLOCK_MAGIC1 MYFS_BIG_ENDIAN 128 7 32 13 8 2 1 3 8
     SUPER_BLOCK_MAGIC2 MYFS_CLEAN 1 0 0 0 0 SUPER_BLOCK_MAGIC3.

Definition sample_bits : list Z := 8191 :: replicate 31 0.
Definition sample_map : list Z := 3 :: replicate 31 0.

Definition sample_info : myfs_info :=
  Info 1 sample_sb (BBM (Some (MkBV 32 0 0 sample_bits)) 1) (Sem 1) (MkBV 8 0 0 sample_map)
       (Sem 1000000) 3 0 512 1 None (Sem 1)
       [TmpPool 4096 ((fun i => Some (4096 + 128 * i)) <$> seqZ 0 16)].

Definition sample_inode : myfs_inode :=
  Inode INODE_MAGIC1 0 0 0x81A4 1 0 5 5 (Some (64, Etc None 0)) (DS [11; 12; 0; 0; 0; 0] 0 0 200).

Definition zero_block : list byte := replicate 128 x00.

Definition sample_blocks : list (list byte) :=
  [zero_block; words_bytes 4 sample_bits; words_bytes 4 sample_map; zero_block; encode_inode sample_inode]
  ++ replicate 6 zero_block
  ++ [replicate 128 x41; replicate 72 x42 ++ replicate 56 x00]
  ++ replicate 19 zero_block.

Definition sample_host : host := Host 7 0 0 65536 [] [].

Definition sample : fs_state ram := FS sample_info (ram_disk 3 128 sample_blocks) sample_host.

Lemma sample_disk_ok : disk_ok sample.
Proof.
  split; try done.
  - apply (ram_disk_ok 3 128 sample_blocks); [lia|]. apply (bool_decide_unpack _). vm_compute. exact I.
  - intros b Hb. apply ram_disk_lookup. exact Hb.
Qed.

Lemma sample_geom : geom (bs sample).
Proof. exists 7. split; [lia|done]. Qed.
