(* ===== verification/TmpBlocks.v ===== *)
(** * TmpBlocks: the allocator of temporary blocks (util.c)

    A list of pools of sixteen blocks each.  A slot of a pool holds the
    address of its block while the block is free and NULL while it is lent. *)

From S2P Require Import Prelude Bytes Host BlockCache RamDisk BitVector Myfs Io Sample.
Local Open Scope Z_scope.

(** The addresses of the slots [i ..] of a pool at [data]. *)
Fixpoint slot_addrs (n : nat) (data bs i : Z) : list (option Z) :=
  match n with
  | O => []
  | Datatypes.S n => Some (data + u32 (i * bs)) :: slot_addrs n data bs (i + 1)
  end.

(** The inner loop of [get_tmp_blocks] over one pool: the address, first and
    last slot of the first run of [nblocks] free slots. *)
Fixpoint scan_pool (ptrs : list (option Z)) (nblocks i : Z) (blocks : option Z) (start : Z)
  : option (Z * Z * Z) :=
  match ptrs with
  | [] => None
  | p :: rest =>
      let '(blocks, start) :=
        match blocks, p with
        | None, Some a => (Some a, i)
        | _, _ => (blocks, start)
        end in
      match blocks, p with
      | Some b, Some _ =>
          if i + 1 - start =? nblocks then Some (b, start, i)
          else scan_pool rest nblocks (i + 1) blocks start
      | _, None => scan_pool rest nblocks (i + 1) None (-9999999)
      | None, Some _ => scan_pool rest nblocks (i + 1) blocks start
      end
  end.

(** Slots [j .. j + n - 1] are taken; [myfs_die] if one already is. *)
Fixpoint take_slots (n : nat) (j : Z) (ptrs : list (option Z)) : outcome (list (option Z)) :=
  match n with
  | O => Done ptrs
  | Datatypes.S n =>
      match ptrs !! Z.to_nat j with
      | None => Fault
      | Some None => Hang
      | Some (Some _) => take_slots n (j + 1) (<[Z.to_nat j := None]> ptrs)
      end
  end.

(** The walk over the pools: [None] when no pool has the run. *)
Fixpoint get_from_pools (nblocks : Z) (pools : list tmp_pool)
  : outcome (option (Z * list tmp_pool)) :=
  match pools with
  | [] => Done None
  | tmp :: rest =>
      match scan_pool (block_ptrs tmp) nblocks 0 None (-999999) with
      | Some (blocks, start, i) =>
          match take_slots (Z.to_nat (i - start + 1)) start (block_ptrs tmp) with
          | Done ptrs => Done (Some (blocks, TmpPool (tb_data tmp) ptrs :: rest))
          | Hang => Hang
          | Fault => Fault
          end
      | None =>
          match get_from_pools nblocks rest with
          | Done (Some (b, rest')) => Done (Some (b, tmp :: rest'))
          | r => r
          end
      end
  end.

(** Slots [k .. k + n - 1] get back the addresses from [blocks] on. *)
Fixpoint give_slots (n : nat) (k blocks bs : Z) (ptrs : list (option Z))
  : outcome (list (option Z)) :=
  match n with
  | O => Done ptrs
  | Datatypes.S n =>
      match ptrs !! Z.to_nat k with
      | None => Fault
      | Some (Some _) => Hang
      | Some None => give_slots n (k + 1) (blocks + bs) bs (<[Z.to_nat k := Some blocks]> ptrs)
      end
  end.

(** The pool that contains the address, and [myfs_die] when none does. *)
Fixpoint free_in_pools (bs blocks nblocks : Z) (pools : list tmp_pool)
  : outcome (list tmp_pool) :=
  match pools with
  | [] => Hang
  | tmp :: rest =>
      if (tb_data tmp <=? blocks) && (blocks <? tb_data tmp + u32 (NUM_TMP_BLOCKS * bs)) then
        match give_slots (Z.to_nat nblocks) ((blocks - tb_data tmp) / bs) blocks bs
                (block_ptrs tmp) with
        | Done ptrs => Done (TmpPool (tb_data tmp) ptrs :: rest)
        | Hang => Hang
        | Fault => Fault
        end
      else match free_in_pools bs blocks nblocks rest with
           | Done rest' => Done (tmp :: rest')
           | Hang => Hang
           | Fault => Fault
           end
  end.

Section tmp_blocks.
Context {C : Type}.
Abbreviation St := (fs_state C).

Definition lift {S A} (o : outcome A) : M S A := fun s =>
  match o with Done a => Done (a, s) | Hang => Hang | Fault => Fault end.

Definition init_tmp_blocks : M St Z :=
  sem ← in_host (create_sem 1);
  _ ← set_info (set_tmp_sem sem);
  let err1 :=
    i ← myfs;
    _ ← in_host (delete_sem (tmp_blocks_sem i));
    _ ← set_info (set_tmp_sem SemBad);
    mret ENOMEM in
  tmp ← in_host (malloc (16 + 8 * NUM_TMP_BLOCKS));
  match tmp with
  | None => err1
  | Some _ =>
      i ← myfs;
      let bs := block_size (dsb i) in
      data ← in_host (malloc (u32 (NUM_TMP_BLOCKS * bs)));
      match data with
      | None => _ ← set_info (set_tmp_blocks []); err1
      | Some data =>
          _ ← set_info (set_tmp_blocks
                 [TmpPool data (slot_addrs (Z.to_nat NUM_TMP_BLOCKS) data bs 0)]);
          mret 0
      end
  end.

(** Blocks that are still lent are only reported. *)
Definition shutdown_tmp_blocks : M St unit :=
  _ ← set_info (set_tmp_blocks []);
  i ← myfs;
  _ ← (if sem_positive (tmp_blocks_sem i)
       then _ ← in_host (delete_sem (tmp_blocks_sem i)); mret tt else mret tt);
  set_info (set_tmp_sem SemBad).

(** The result is the address, [None] for NULL. *)
Definition get_tmp_blocks (nblocks : Z) : M St (option Z) :=
  if nblocks >? NUM_TMP_BLOCKS then mret None else
  _ ← in_tmp_sem acquire_sem;
  i ← myfs;
  let bs := block_size (dsb i) in
  r ← lift (get_from_pools nblocks (tmp_blocks i));
  match r with
  | Some (blocks, pools) =>
      _ ← set_info (set_tmp_blocks pools);
      _ ← in_tmp_sem release_sem;
      mret (Some blocks)
  | None =>
      tmp ← in_host (malloc (16 + 8 * NUM_TMP_BLOCKS));
      match tmp with
      | None => mret None
      | Some _ =>
          data ← in_host (malloc (u32 (NUM_TMP_BLOCKS * bs)));
          match data with
          | None => mret None
          | Some data =>
              let taken := Z.max 0 nblocks in
              let ptrs := replicate (Z.to_nat taken) None
                          ++ slot_addrs (Z.to_nat (NUM_TMP_BLOCKS - taken)) data bs taken in
              _ ← set_info (fun i => set_tmp_blocks (TmpPool data ptrs :: tmp_blocks i) i);
              _ ← in_tmp_sem release_sem;
              mret (Some data)
          end
      end
  end.

Definition free_tmp_blocks (blocks : option Z) (nblocks : Z) : M St unit :=
  match blocks with
  | None => hang
  | Some blocks =>
      if nblocks >? NUM_TMP_BLOCKS then hang else
      _ ← in_tmp_sem acquire_sem;
      i ← myfs;
      pools ← lift (free_in_pools (block_size (dsb i)) blocks nblocks (tmp_blocks i));
      _ ← set_info (set_tmp_blocks pools);
      _ ← in_tmp_sem release_sem;
      mret tt
  end.
End tmp_blocks.

(** ** Runs of free slots *)

(** Slot [k] of the pool is free, and holds its address. *)
Definition slot_free (ptrs : list (option Z)) (k : Z) : Prop :=
  0 <= k /\ exists a, ptrs !! Z.to_nat k = Some (Some a).
Definition run_free (ptrs : list (option Z)) (k n : Z) : Prop :=
  forall i, k <= i < k + n -> slot_free ptrs i.

(** A pool of blocks of [b] bytes: sixteen slots, each lent or with the
    address of its block. *)
Record pool_ok (b : Z) (p : tmp_pool) : Prop := {
  po_len : length (block_ptrs p) = Z.to_nat NUM_TMP_BLOCKS;
  po_slot : forall k a, block_ptrs p !! k = Some (Some a) -> a = tb_data p + Z.of_nat k * b;
}.

(** The slots [k .. k + n - 1] lent, the others as they were. *)
Definition lend (k n : Z) (ptrs : list (option Z)) : list (option Z) :=
  splice k (replicate (Z.to_nat n) None) ptrs.

Lemma lookup_lend k n ptrs i :
  0 <= k -> 0 <= n -> k + n <= len ptrs -> 0 <= i ->
  lend k n ptrs !! Z.to_nat i =
    if (k <=? i) && (i <? k + n) then Some None else ptrs !! Z.to_nat i.
Proof.
  intros Hk Hn Hl Hi. unfold lend, splice, len in *. rewrite length_replicate.
  destruct (Z.leb_spec k i), (Z.ltb_spec i (k + n)); cbn [andb].
  - rewrite lookup_app_r by (rewrite length_take; lia). rewrite length_take.
    rewrite lookup_app_l by (rewrite length_replicate; lia).
    rewrite lookup_replicate_2 by lia. done.
  - rewrite lookup_app_r by (rewrite length_take; lia). rewrite length_take.
    rewrite lookup_app_r by (rewrite length_replicate; lia). rewrite length_replicate.
    rewrite lookup_drop. f_equal. lia.
  - rewrite lookup_app_l by (rewrite length_take; lia). by rewrite lookup_take_lt by lia.
  - lia.
Qed.

Lemma len_lend k n ptrs : 0 <= k -> 0 <= n -> k + n <= len ptrs -> length (lend k n ptrs) = length ptrs.
Proof.
  intros. unfold lend, splice, len in *. rewrite !length_app, length_take, length_drop, length_replicate. lia.
Qed.

(** The scan from slot [i]: [st] is where the current free run starts. *)
Lemma scan_pool_spec full n rest i blocks start :
  1 <= n -> 0 <= i -> drop (Z.to_nat i) full = rest ->
  match blocks with
  | Some b => 0 <= start <= i /\ i - start < n /\ run_free full start (i - start) /\
              (start < i -> full !! Z.to_nat start = Some (Some b)) /\ start < i
  | None => True
  end ->
  match scan_pool rest n i blocks start with
  | Some (b, st, e) => 0 <= st /\ e = st + n - 1 /\ run_free full st n /\
                       full !! Z.to_nat st = Some (Some b)
  | None => forall k, match blocks with Some _ => start | None => i end <= k ->
                      k + n <= len full -> ~ run_free full k n
  end.
Proof.
  intros Hn. revert i blocks start. induction rest as [|p rest IH]; intros i blocks start Hi Hdrop Hinv.
  - assert (len full <= i) as Hle.
    { apply (f_equal length) in Hdrop. rewrite length_drop in Hdrop. cbn in Hdrop. unfold len. lia. }
    cbn. intros k Hk Hkn. destruct blocks; [|lia]. lia.
  - assert (full !! Z.to_nat i = Some p) as Hp.
    { rewrite <- (Nat.add_0_r (Z.to_nat i)), <- lookup_drop, Hdrop. done. }
    assert (drop (Z.to_nat (i + 1)) full = rest) as Hdrop'.
    { replace (Z.to_nat (i + 1)) with (1 + Z.to_nat i)%nat by lia.
      rewrite Nat.add_comm, <- drop_drop, Hdrop. done. }
    cbn [scan_pool]. destruct p as [a|].
    + (* a free slot: it extends the run, or starts one *)
      set (st := match blocks with Some _ => start | None => i end).
      set (b := match blocks with Some b => b | None => a end).
      assert (0 <= st <= i /\ i - st < n /\ run_free full st (i + 1 - st) /\ full !! Z.to_nat st = Some (Some b))
        as (H1 & H2 & H3 & H4).
      { unfold st, b. destruct blocks as [b0|].
        - destruct Hinv as (A1 & A2 & A3 & A4 & A5). split_and!; try lia; [|by apply A4].
          intros j Hj. destruct (decide (j = i)) as [->|]; [split; [lia|by exists a]|apply A3; lia].
        - split_and!; try lia; [|done]. intros j Hj. assert (j = i) as -> by lia. split; [lia|by exists a]. }
      assert (scan_pool (Some a :: rest) n i blocks start =
              if i + 1 - st =? n then Some (b, st, i) else scan_pool rest n (i + 1) (Some b) st) as E.
      { unfold st, b. by destruct blocks. }
      cbn [scan_pool] in E. rewrite E. destruct (Z.eqb_spec (i + 1 - st) n) as [En|En].
      { split; [lia|]. split; [lia|]. rewrite En in H3. done. }
      specialize (IH (i + 1) (Some b) st ltac:(lia) Hdrop'). cbn beta iota in IH.
      apply IH. split_and!; try lia; done.
    + (* a lent slot ends the run *)
      assert (forall b, match scan_pool rest n (i + 1) None b with
        | Some (b, st, e) => 0 <= st /\ e = st + n - 1 /\ run_free full st n /\ full !! Z.to_nat st = Some (Some b)
        | None => forall k, match blocks with Some _ => start | None => i end <= k ->
                      k + n <= len full -> ~ run_free full k n end) as Hend.
      { intros b0. specialize (IH (i + 1) None b0 ltac:(lia) Hdrop' I). cbn beta iota in IH.
        destruct (scan_pool rest n (i + 1) None b0) as [[[b st] e]|]; [exact IH|].
        intros k Hk Hkn Hrun. destruct (decide (i + 1 <= k)) as [|Hlt]; [by apply (IH k)|].
        destruct (Hrun i) as [_ [a Ha]]; [|congruence].
        destruct blocks; [destruct Hinv as (A1 & A2 & _)|]; lia. }
      destruct blocks; apply Hend.
Qed.

Lemma lend_0 k ptrs : lend k (Z.of_nat 0) ptrs = ptrs.
Proof. apply splice_nil. Qed.

Lemma take_slots_spec n k ptrs :
  0 <= k -> run_free ptrs k (Z.of_nat n) -> take_slots n k ptrs = Done (lend k (Z.of_nat n) ptrs).
Proof.
  revert k ptrs. induction n as [|n IH]; intros k ptrs Hk Hrun; cbn [take_slots].
  { by rewrite lend_0. }
  destruct (Hrun k ltac:(lia)) as [_ [a Ha]]. rewrite Ha. pose proof (lookup_lt_Some _ _ _ Ha).
  assert (k + Z.of_nat (S n) <= len ptrs) as Hle.
  { destruct (Hrun (k + Z.of_nat n) ltac:(lia)) as [_ [a' Ha']]. apply lookup_lt_Some in Ha'. unfold len. lia. }
  rewrite IH; [|lia|].
  - f_equal. assert (len (<[Z.to_nat k:=None]> ptrs) = len ptrs) as Hl by (unfold len; by rewrite length_insert).
    apply list_eq. intros i. rewrite <- (Nat2Z.id i).
    rewrite !lookup_lend by (unfold len in *; lia). rewrite Nat2Z.id.
    destruct (Z.leb_spec k (Z.of_nat i)), (Z.ltb_spec (Z.of_nat i) (k + Z.of_nat (S n))),
      (Z.leb_spec (k + 1) (Z.of_nat i)), (Z.ltb_spec (Z.of_nat i) (k + 1 + Z.of_nat n)); cbn [andb];
      try lia; try done.
    + assert (i = Z.to_nat k) as -> by lia. by rewrite list_lookup_insert_eq.
    + by rewrite list_lookup_insert_ne by lia.
    + by rewrite list_lookup_insert_ne by lia.
  - intros i Hi. destruct (Hrun i ltac:(lia)) as [? [a' Ha']]. split; [done|]. exists a'.
    by rewrite list_lookup_insert_ne by lia.
Qed.

Lemma give_slots_spec n k b ptrs base :
  0 <= k -> k + Z.of_nat n <= len ptrs ->
  (forall i, k <= i < k + Z.of_nat n -> ptrs !! Z.to_nat i = Some (Some (base + i * b))) ->
  forall q, q = lend k (Z.of_nat n) ptrs -> give_slots n k (base + k * b) b q = Done ptrs.
Proof.
  revert k ptrs. induction n as [|n IH]; intros k ptrs Hk Hle Hslots q ->; cbn [give_slots].
  { by rewrite lend_0. }
  pose proof (lookup_lend k (Z.of_nat (S n)) ptrs k Hk ltac:(lia) Hle Hk) as E.
  rewrite (proj2 (Z.leb_le _ _)), (proj2 (Z.ltb_lt _ _)) in E by lia. cbn [andb] in E. rewrite E.
  replace (base + k * b + b) with (base + (k + 1) * b) by lia. apply IH; [lia|lia|intros; apply Hslots; lia|].
  apply list_eq. intros i. pose proof (len_lend k (Z.of_nat (S n)) ptrs Hk ltac:(lia) Hle) as Hl.
  destruct (decide (i = Z.to_nat k)) as [->|].
  - rewrite list_lookup_insert_eq by (rewrite Hl; unfold len in Hle; lia).
    rewrite lookup_lend by lia. rewrite (proj2 (Z.leb_gt (k + 1) k)) by lia. cbn [andb].
    symmetry. apply Hslots. lia.
  - rewrite list_lookup_insert_ne by done. rewrite <- (Nat2Z.id i). rewrite !lookup_lend by lia. rewrite Nat2Z.id.
    destruct (Z.leb_spec k (Z.of_nat i)), (Z.ltb_spec (Z.of_nat i) (k + Z.of_nat (S n))),
      (Z.leb_spec (k + 1) (Z.of_nat i)), (Z.ltb_spec (Z.of_nat i) (k + 1 + Z.of_nat n)); cbn [andb];
      done || lia.
Qed.

(** ** The list of pools *)

Definition POOL (b : Z) : Z := NUM_TMP_BLOCKS * b.

(** Every pool is good, ends below [brk], and overlaps no other. *)
Record pools_ok (b brk : Z) (pools : list tmp_pool) : Prop := {
  ps_b : 0 < b < 2 ^ 28;
  ps_pool : forall i p, pools !! i = Some p -> pool_ok b p /\ tb_data p + POOL b <= brk;
  ps_apart : forall i j p q, pools !! i = Some p -> pools !! j = Some q -> i <> j ->
    tb_data p + POOL b <= tb_data q \/ tb_data q + POOL b <= tb_data p;
}.

Lemma pools_ok_cons b brk p pools : pools_ok b brk (p :: pools) -> pools_ok b brk pools.
Proof.
  intros [Hb Hp Ha]. split; [done|intros i q Hq; by apply (Hp (S i))|].
  intros i j q q' Hq Hq' Hne. apply (Ha (S i) (S j)); [done|done|congruence].
Qed.

(** The pool with the run at [k] lent. *)
Definition lend_pool (k n : Z) (p : tmp_pool) : tmp_pool := TmpPool (tb_data p) (lend k n (block_ptrs p)).

(** Address [a] is the run of [n] slots from [k] of pool [i], all free. *)
Definition run_at (b : Z) (pools : list tmp_pool) (n a : Z) (i : nat) (k : Z) : Prop :=
  exists p, pools !! i = Some p /\ 0 <= k /\ k + n <= NUM_TMP_BLOCKS /\ a = tb_data p + k * b /\
    run_free (block_ptrs p) k n.

Definition no_run (pools : list tmp_pool) (n : Z) : Prop :=
  forall i p k, pools !! i = Some p -> 0 <= k -> k + n <= NUM_TMP_BLOCKS -> ~ run_free (block_ptrs p) k n.

Lemma pool_len b p : pool_ok b p -> len (block_ptrs p) = NUM_TMP_BLOCKS.
Proof. intros H. unfold len. rewrite (po_len _ _ H). done. Qed.

Lemma run_inside b p k n : pool_ok b p -> 1 <= n -> run_free (block_ptrs p) k n -> k + n <= NUM_TMP_BLOCKS.
Proof.
  intros Hp Hn Hrun. destruct (Hrun (k + n - 1) ltac:(lia)) as [? [a Ha]]. apply lookup_lt_Some in Ha.
  pose proof (pool_len _ _ Hp). unfold len in *. lia.
Qed.

Lemma get_from_pools_spec b brk n pools :
  pools_ok b brk pools -> 1 <= n ->
  match get_from_pools n pools with
  | Done (Some (a, pools')) => exists i k, run_at b pools n a i k /\ pools' = alter (lend_pool k n) i pools
  | Done None => no_run pools n
  | _ => False
  end.
Proof.
  intros Hok Hn. induction pools as [|p pools IH]; cbn [get_from_pools]; [intros i p k Hp; done|].
  destruct (ps_pool _ _ _ Hok 0%nat p eq_refl) as [Hp _].
  pose proof (scan_pool_spec (block_ptrs p) n (block_ptrs p) 0 None (-999999) Hn ltac:(lia) eq_refl I) as Hs.
  cbn beta iota in Hs. destruct (scan_pool _ _ _ _ _) as [[[a k] e]|].
  - destruct Hs as (Hk & -> & Hrun & Ha). replace (k + n - 1 - k + 1) with n by lia.
    rewrite take_slots_spec by (rewrite ?Z2Nat.id by lia; done). rewrite Z2Nat.id by lia.
    exists 0%nat, k. split; [|done]. exists p. split_and!; try done.
    + by eapply run_inside.
    + by rewrite (po_slot _ _ Hp _ _ Ha), Z2Nat.id by lia.
  - specialize (IH (pools_ok_cons _ _ _ _ Hok)).
    destruct (get_from_pools n pools) as [[[a pools']|]| |]; try done.
    + destruct IH as (i & k & Hrun & ->). by exists (S i), k.
    + intros [|i] q k Hq Hk Hkn; [|by apply (IH i)]. cbn in Hq. injection Hq as <-.
      apply Hs; [done|]. by rewrite (pool_len _ _ Hp).
Qed.

(** Giving a lent run back undoes the loan. *)
Lemma free_in_pools_spec b brk n a i k pools :
  pools_ok b brk pools -> 1 <= n -> run_at b pools n a i k ->
  free_in_pools b a n (alter (lend_pool k n) i pools) = Done pools.
Proof.
  intros Hok Hn (p & Hp & Hk & Hkn & -> & Hrun). destruct (ps_b _ _ _ Hok) as [Hb0 Hb].
  destruct (ps_pool _ _ _ Hok i p Hp) as [Hpok _].
  assert (u32 (NUM_TMP_BLOCKS * b) = POOL b) as Hu by (apply u32_id; unfold POOL, NUM_TMP_BLOCKS; lia).
  unfold POOL, NUM_TMP_BLOCKS in *.
  revert i Hp. induction pools as [|q pools IH]; intros [|i] Hp; try done; cbn [alter list_alter free_in_pools]; unfold NUM_TMP_BLOCKS.
  - injection Hp as ->. unfold lend_pool. cbn [tb_data block_ptrs]. rewrite Hu.
    rewrite (proj2 (Z.leb_le _ _)), (proj2 (Z.ltb_lt _ _)) by nia. cbn [andb].
    replace ((tb_data p + k * b - tb_data p) / b) with k
      by (rewrite Z.add_simpl_l, Z.div_mul by lia; done).
    rewrite (give_slots_spec (Z.to_nat n) k b (block_ptrs p) (tb_data p)); [by destruct p|done|..].
    + rewrite (pool_len _ _ Hpok). unfold NUM_TMP_BLOCKS. lia.
    + intros j Hj. destruct (Hrun j ltac:(lia)) as [Hj0 [a Ha]]. rewrite Ha, (po_slot _ _ Hpok _ _ Ha).
      by rewrite Z2Nat.id by lia.
    + by rewrite Z2Nat.id by lia.
  - rewrite Hu. pose proof (ps_apart _ _ _ Hok 0%nat (S i) q p eq_refl Hp ltac:(done)) as Hap.
    unfold POOL, NUM_TMP_BLOCKS in Hap.
    destruct ((tb_data q <=? tb_data p + k * b) && (tb_data p + k * b <? tb_data q + 16 * b)) eqn:E.
    { zcases. nia. }
    rewrite (IH (pools_ok_cons _ _ _ _ Hok) i Hp). done.
Qed.

Lemma lend_pool_ok b k n p :
  pool_ok b p -> 0 <= k -> 0 <= n -> k + n <= NUM_TMP_BLOCKS -> pool_ok b (lend_pool k n p).
Proof.
  intros Hp Hk Hn Hkn. pose proof (pool_len _ _ Hp) as Hl. split; cbn [block_ptrs tb_data lend_pool].
  - rewrite len_lend by lia. apply Hp.
  - intros j a Hj. rewrite <- (Nat2Z.id j), lookup_lend in Hj by lia. rewrite Nat2Z.id in Hj.
    destruct (_ && _); [done|]. by apply Hp.
Qed.

Lemma pools_ok_lend b brk n a i k pools :
  pools_ok b brk pools -> 0 <= n -> run_at b pools n a i k -> pools_ok b brk (alter (lend_pool k n) i pools).
Proof.
  intros [Hb Hps Hap] Hn (p & Hp & Hk & Hkn & _ & _).
  assert (forall j q, alter (lend_pool k n) i pools !! j = Some q ->
            exists q0, pools !! j = Some q0 /\ tb_data q = tb_data q0 /\ (pool_ok b q0 -> pool_ok b q)) as Hl.
  { intros j q Hq. destruct (decide (i = j)) as [<-|Hne].
    - rewrite list_lookup_alter_eq, Hp in Hq. injection Hq as <-. exists p. split_and!; try done.
      intros. by apply lend_pool_ok.
    - rewrite list_lookup_alter_ne in Hq by done. by exists q. }
  split; [done|..].
  - intros j q Hq. destruct (Hl j q Hq) as (q0 & Hq0 & -> & Hpo). destruct (Hps j q0 Hq0). auto.
  - intros j j' q q' Hq Hq' Hne. destruct (Hl j q Hq) as (q0 & Hq0 & -> & _).
    destruct (Hl j' q' Hq') as (q1 & Hq1 & -> & _). by apply (Hap j j').
Qed.

(** A pool with every slot free. *)
Definition fresh_pool (b data : Z) : tmp_pool := TmpPool data (slot_addrs (Z.to_nat NUM_TMP_BLOCKS) data b 0).

Lemma slot_addrs_lookup n data b i j :
  0 < b < 2 ^ 28 -> 0 <= i -> i + Z.of_nat n <= NUM_TMP_BLOCKS -> (j < n)%nat ->
  slot_addrs n data b i !! j = Some (Some (data + (i + Z.of_nat j) * b)).
Proof.
  intros Hb. unfold NUM_TMP_BLOCKS. revert i j. induction n as [|n IH]; intros i j Hi Hn Hj; [lia|]. cbn [slot_addrs].
  destruct j as [|j]; cbn [lookup list_lookup].
  - rewrite u32_id by nia. do 3 f_equal. lia.
  - rewrite IH by lia. do 3 f_equal. lia.
Qed.

Lemma length_slot_addrs n data b i : length (slot_addrs n data b i) = n.
Proof. revert i. induction n; intros; cbn; [done|]. by rewrite IHn. Qed.

Lemma fresh_pool_ok b data : 0 < b < 2 ^ 28 -> pool_ok b (fresh_pool b data).
Proof.
  intros Hb. split; cbn [block_ptrs tb_data fresh_pool]; [by rewrite length_slot_addrs|].
  intros k a Hk. pose proof (lookup_lt_Some _ _ _ Hk) as Hlt. rewrite length_slot_addrs in Hlt.
  rewrite slot_addrs_lookup in Hk by (done || lia). injection Hk as <-. lia.
Qed.

Lemma fresh_run b data n k : 0 < b < 2 ^ 28 -> 0 <= k -> k + n <= NUM_TMP_BLOCKS ->
  run_free (block_ptrs (fresh_pool b data)) k n.
Proof.
  intros Hb Hk Hn i Hi. split; [lia|]. eexists. cbn [block_ptrs fresh_pool].
  apply slot_addrs_lookup; [done|lia|done|lia].
Qed.

(** How [get_tmp_blocks] writes a fresh pool of which [n] blocks are lent. *)
Lemma fresh_pool_lent b data n :
  0 < b < 2 ^ 28 -> 0 <= n <= NUM_TMP_BLOCKS ->
  TmpPool data (replicate (Z.to_nat n) None ++ slot_addrs (Z.to_nat (NUM_TMP_BLOCKS - n)) data b n)
  = lend_pool 0 n (fresh_pool b data).
Proof.
  intros Hb Hn. unfold lend_pool, fresh_pool. cbn [block_ptrs tb_data]. f_equal.
  set (l := slot_addrs (Z.to_nat NUM_TMP_BLOCKS) data b 0).
  assert (len l = NUM_TMP_BLOCKS) as Hl by (unfold len, l; by rewrite length_slot_addrs).
  unfold NUM_TMP_BLOCKS in *. apply list_eq. intros i. rewrite <- (Nat2Z.id i), lookup_lend by lia. rewrite Nat2Z.id.
  destruct (Z.leb_spec 0 (Z.of_nat i)), (Z.ltb_spec (Z.of_nat i) (0 + n)); cbn [andb]; try lia.
  - rewrite lookup_app_l by (rewrite length_replicate; lia). apply lookup_replicate_2. lia.
  - rewrite lookup_app_r by (rewrite length_replicate; lia). rewrite length_replicate.
    destruct (decide (i < 16)%nat).
    + unfold l, NUM_TMP_BLOCKS. rewrite (slot_addrs_lookup _ data b n) by (first [done|unfold NUM_TMP_BLOCKS; lia]).
      rewrite slot_addrs_lookup by (first [done|unfold NUM_TMP_BLOCKS; lia]).
      do 3 f_equal. replace (n + Z.of_nat (i - Z.to_nat n)) with (Z.of_nat i) by lia. done.
    + rewrite !lookup_ge_None_2; [done| |]; unfold l; rewrite length_slot_addrs; unfold NUM_TMP_BLOCKS; lia.
Qed.

Lemma pools_ok_fresh b brk brk' data pools :
  pools_ok b brk pools -> brk <= data -> data + POOL b <= brk' -> pools_ok b brk' (fresh_pool b data :: pools).
Proof.
  intros [Hb Hps Hap] H1 H2. assert (0 <= POOL b) by (unfold POOL, NUM_TMP_BLOCKS; lia). split; [done|..].
  - intros [|i] p Hp; cbn in Hp.
    + injection Hp as <-. split; [by apply fresh_pool_ok|done].
    + destruct (Hps i p Hp). split; [done|lia].
  - assert (forall j q, pools !! j = Some q -> tb_data q + POOL b <= data) as Hlow.
    { intros j q Hq. destruct (Hps j q Hq). lia. }
    intros [|i] [|j] p q Hp Hq Hne; cbn in Hp, Hq; try done.
    + injection Hp as <-. right. eauto.
    + injection Hq as <-. left. eauto.
    + apply (Hap i j); [done|done|congruence].
Qed.

(** ** Borrowing and returning blocks *)

Section tmp_specs.
Context {C : Type}.
Abbreviation St := (fs_state C).

Record tmp_ok (s : St) : Prop := {
  tk_sem : tmp_blocks_sem (fs_info s) = Sem 1;
  tk_pools : pools_ok (block_size (dsb (fs_info s))) (h_brk (fs_host s)) (tmp_blocks (fs_info s));
  tk_oom : no_oom (fs_host s);
}.

Lemma malloc_brk n h :
  no_oom h -> wp (malloc n) (fun p h' => p = Some (h_brk h) /\ no_oom h' /\ h_brk h' = h_brk h + Z.max 1 n) h.
Proof. intros E. unfold wp, malloc, no_oom in *. by rewrite E. Qed.

(** The pools the request is served from: the ones there are, or, when none
    of them has the run, these behind a fresh one. *)
Definition served_from (s : St) (n : Z) (pools : list tmp_pool) : Prop :=
  pools = tmp_blocks (fs_info s) \/
  no_run (tmp_blocks (fs_info s)) n /\
  exists data, pools = fresh_pool (block_size (dsb (fs_info s))) data :: tmp_blocks (fs_info s) /\
    h_brk (fs_host s) <= data.

(** [n] blocks at [a] are lent out of [pools]. *)
Definition borrowed (s : St) (n : Z) (r : option Z) (s' : St) : Prop :=
  exists a pools i k, r = Some a /\ served_from s n pools /\
    run_at (block_size (dsb (fs_info s))) pools n a i k /\
    pools_ok (block_size (dsb (fs_info s))) (h_brk (fs_host s')) pools /\
    fs_info s' = set_tmp_blocks (alter (lend_pool k n) i pools) (fs_info s) /\
    fs_cache s' = fs_cache s /\ tmp_ok s'.

Lemma tmp_sem_back (i : myfs_info) f :
  tmp_blocks_sem i = Sem 1 ->
  set_tmp_sem (Sem 1) (set_tmp_blocks f (set_tmp_sem (Sem 0) i)) = set_tmp_blocks f i.
Proof. intros E. destruct i. cbn in *. by subst. Qed.

Lemma tmp_acquire_wp (s : St) Q :
  tmp_blocks_sem (fs_info s) = Sem 1 -> Q 0 (upd_info (set_tmp_sem (Sem 0) (fs_info s)) s) ->
  wp (in_tmp_sem acquire_sem) Q s.
Proof. intros E H. unfold in_tmp_sem, in_info. apply wp_zoom, wp_zoom. rewrite E. exact H. Qed.

Lemma tmp_release_wp (s : St) Q :
  tmp_blocks_sem (fs_info s) = Sem 0 -> Q 0 (upd_info (set_tmp_sem (Sem 1) (fs_info s)) s) ->
  wp (in_tmp_sem release_sem) Q s.
Proof. intros E H. unfold in_tmp_sem, in_info. apply wp_zoom, wp_zoom. rewrite E. exact H. Qed.

Lemma lift_wp {S A} (o : outcome A) (a : A) (Q : A -> S -> Prop) s : o = Done a -> Q a s -> wp (lift o) Q s.
Proof. intros -> H. exact H. Qed.

Lemma get_tmp_blocks_spec (s : St) n :
  tmp_ok s -> 1 <= n <= NUM_TMP_BLOCKS -> wp (get_tmp_blocks n) (borrowed s n) s.
Proof.
  intros [Hsem Hpools Ho] Hn. unfold get_tmp_blocks. rewrite Z.gtb_ltb, (proj2 (Z.ltb_ge _ _)) by lia.
  wp_step. apply tmp_acquire_wp; [done|]. wp_step. unfold myfs. wp_step. cbn [fs_info upd_info].
  pose proof (get_from_pools_spec _ _ n _ Hpools ltac:(lia)) as Hg.
  destruct (get_from_pools n (tmp_blocks (fs_info s))) as [[[a pools']|]| |] eqn:Eg; try done.
  - destruct Hg as (i & k & Hrun & ->). wp_step. eapply lift_wp; [exact Eg|]. cbn beta iota zeta.
    wp_step. unfold set_info. wp_step. wp_step. apply tmp_release_wp; [done|]. wp_step.
    exists a, (tmp_blocks (fs_info s)), i, k. cbn. rewrite tmp_sem_back by done.
    split_and!; try done; [by left|]. split; cbn; [done| |done].
    apply (pools_ok_lend _ _ n a); [done|lia|done].
  - wp_step. eapply lift_wp; [exact Eg|]. cbn beta iota zeta.
    set (b := block_size (dsb (fs_info s))) in *. destruct (ps_b _ _ _ Hpools) as [Hb0 Hb1].
    wp_step. apply wp_zoom. eapply wp_mono; [by apply malloc_brk|]. cbn beta. intros _ h1 (-> & Ho1 & Hb).
    cbn beta iota. wp_step. apply wp_zoom. eapply wp_mono; [by apply malloc_brk|].
    cbn beta. intros _ h2 (-> & Ho2 & Hb'). cbn beta iota zeta.
    change (fs_host (upd_host h1 _)) with h1 in *.
    assert (block_size (dsb (set_tmp_sem (Sem 0) (fs_info s))) = b) as Eb by done. rewrite Eb in *.
    rewrite u32_id in Hb' by (unfold NUM_TMP_BLOCKS; lia).
    rewrite Z.max_r by lia. rewrite fresh_pool_lent by lia.
    wp_step. unfold set_info. wp_step. wp_step. apply tmp_release_wp; [done|]. wp_step.
    set (data := h_brk h1) in *. exists data, (fresh_pool b data :: tmp_blocks (fs_info s)), 0%nat, 0.
    cbn -[fresh_pool lend_pool POOL]. unfold NUM_TMP_BLOCKS in Hb'.
    assert (pools_ok b (h_brk h2) (fresh_pool b data :: tmp_blocks (fs_info s))) as Hp2.
    { eapply pools_ok_fresh; [exact Hpools|cbn in Hb; lia|unfold POOL, NUM_TMP_BLOCKS; lia]. }
    assert (run_at b (fresh_pool b data :: tmp_blocks (fs_info s)) n data 0 0) as Hrun.
    { exists (fresh_pool b data). split_and!; try done; [lia|cbn; lia|by apply fresh_run; try lia]. }
    rewrite tmp_sem_back by done. split_and!; try done.
    + right. split; [done|]. exists data. split; [done|]. cbn in Hb. lia.
    + split; cbn -[fresh_pool lend_pool]; [done| |done].
      apply (pools_ok_lend _ _ n data 0%nat 0 _ Hp2); [lia|exact Hrun].
Qed.

Lemma free_tmp_blocks_spec (s : St) n a i k pools :
  tmp_ok s -> 1 <= n <= NUM_TMP_BLOCKS ->
  pools_ok (block_size (dsb (fs_info s))) (h_brk (fs_host s)) pools ->
  run_at (block_size (dsb (fs_info s))) pools n a i k ->
  tmp_blocks (fs_info s) = alter (lend_pool k n) i pools ->
  wp (free_tmp_blocks (Some a) n) (fun _ s' => s' = upd_info (set_tmp_blocks pools (fs_info s)) s) s.
Proof.
  intros [Hsem _ Ho] Hn Hpools Hrun E. unfold free_tmp_blocks.
  rewrite Z.gtb_ltb, (proj2 (Z.ltb_ge _ _)) by lia.
  wp_step. apply tmp_acquire_wp; [done|]. wp_step. unfold myfs. wp_step.
  wp_step. eapply lift_wp.
  { cbn [fs_info upd_info tmp_blocks dsb set_tmp_sem]. rewrite E. apply (free_in_pools_spec _ _ _ _ _ _ _ Hpools); [lia|exact Hrun]. }
  wp_step. unfold set_info. wp_step. wp_step. apply tmp_release_wp; [done|]. wp_step.
  unfold upd_info. cbn. by rewrite tmp_sem_back by done.
Qed.

(** A request for up to sixteen temporary blocks succeeds: the address is
    that of a run of slots that were free in one pool - an old one, or a fresh
    one when no pool has such a run, so no run is missed - which are now lent;
    nothing else changes and the pools stay well formed. *)
Theorem get_tmp_blocks_exact (s : St) (n : Z) (Hs : tmp_ok s) (Hn : 1 <= n <= NUM_TMP_BLOCKS) :
  wp (get_tmp_blocks n) (borrowed s n) s.
Proof. by apply get_tmp_blocks_spec. Qed.

(** C30. Returning what was borrowed restores the pools: a borrow followed by
    the return of the same blocks never dies and leaves the pools the request
    was served from - exactly the old ones, or the old ones behind one fresh
    pool with all of its slots free. *)
Theorem borrow_return (s : St) (n : Z) (Hs : tmp_ok s) (Hn : 1 <= n <= NUM_TMP_BLOCKS) :
  wp (a ← get_tmp_blocks n; free_tmp_blocks a n)
     (fun _ s' => tmp_ok s' /\ fs_cache s' = fs_cache s /\
        exists pools, served_from s n pools /\ fs_info s' = set_tmp_blocks pools (fs_info s)) s.
Proof.
  wp_step. eapply wp_mono; [by apply get_tmp_blocks_spec|]. cbn beta.
  intros _ s' (a & pools & i & k & -> & Hserved & Hrun & Hp & Hi & Hc & Hok).
  assert (block_size (dsb (fs_info s')) = block_size (dsb (fs_info s))) as Eb by (by rewrite Hi).
  eapply wp_mono.
  { apply (free_tmp_blocks_spec s' n a i k pools); rewrite ?Eb; try done. by rewrite Hi. }
  cbn beta. intros _ s'' ->. split; [|split; [done|]].
  - destruct Hok. split; cbn; [done| |done]. by rewrite Eb.
  - exists pools. split; [done|]. cbn. rewrite Hi. by destruct (fs_info s).
Qed.
End tmp_specs.

Lemma sample_tmp_ok : tmp_ok sample.
Proof.
  split; [reflexivity| |reflexivity]. split; [cbn; lia|..].
  - intros [|[|i]] p Hp; try discriminate. injection Hp as <-. split; [|vm_compute; discriminate].
    apply (fresh_pool_ok 128 4096). lia.
  - intros [|[|i]] [|[|j]] p q Hp Hq Hne; try discriminate. by destruct Hne.
Qed.

Lemma get_tmp_blocks_exact_witness :
  tmp_ok sample /\ wp (get_tmp_blocks 3) (fun r _ => r = Some 4096) sample /\
  wp (get_tmp_blocks 3) (borrowed sample 3) sample.
Proof.
  split; [exact sample_tmp_ok|]. split; [vm_compute; reflexivity|].
  apply get_tmp_blocks_exact; [exact sample_tmp_ok|unfold NUM_TMP_BLOCKS; lia].
Defined.

Lemma borrow_return_witness :
  wp (a ← get_tmp_blocks 3; free_tmp_blocks a 3)
     (fun _ s' => tmp_ok s' /\ fs_cache s' = fs_cache sample /\
        exists pools, served_from sample 3 pools /\ fs_info s' = set_tmp_blocks pools (fs_info sample)) sample.
Proof. apply borrow_return; [exact sample_tmp_ok|unfold NUM_TMP_BLOCKS; lia]. Defined.
