(* ===== verification/Bitmap.v ===== *)
(** * Bitmap: the map of used and free disk blocks (bitmap.c)

    The bits live in [bbm.bv]; block [1 ..] of the device holds their image.
    [do_log_write] is 0 in every call (the journal is not implemented), so the
    branch that would write journal entries is never taken and is left out. *)

From S2P Require Import Prelude Bytes Host BlockCache RamDisk BitVector Myfs Io Sample.
Local Open Scope Z_scope.

Section bitmap.
Context {C : Type} `{BlockCache C}.
Abbreviation St := (fs_state C).

(** [n] bitmap blocks: [num_blocks / 8] bytes rounded up to whole blocks. *)
Definition bitmap_blocks (num_blocks bsize : Z) : Z :=
  let n := i32 (Z.quot num_blocks 8) in
  let n := Z.land (i32 (n + bsize - 1)) (Z.lnot (bsize - 1)) in
  Z.quot n bsize.

(** The bytes at [bits + off]. *)
Definition bits_at (bv : BitVector) (off n : Z) : option (list byte) :=
  read_at off n (words_bytes 4 (bits bv)).

Definition set_bv (bv : option BitVector) : M St unit :=
  set_info (fun i => set_bbm (BBM bv (num_bitmap_blocks (bbm i))) i).
Definition set_num_bitmap_blocks (n : Z) : M St unit :=
  set_info (fun i => set_bbm (BBM (bbm_bv (bbm i)) n) i).

(** The common error exit of the two routines below. *)
Definition storage_map_err (ret : Z) : M St Z :=
  _ ← set_bv None;
  i ← myfs;
  _ ← (if sem_positive (bbm_sem i) then in_host (delete_sem (bbm_sem i)) else mret 0);
  _ ← set_info (set_bbm_sem SemBad);
  mret ret.

(** [for(j..) for(k..) if (ptr[j] & (1 << k)) used_blocks++] *)
Fixpoint count_bits (n : nat) (c : Z) : Z :=
  match n with
  | O => 0
  | Datatypes.S n => count_bits n c + (if Z.land c (mask (Z.of_nat n)) =? 0 then 0 else 1)
  end.

Fixpoint count_chunks (n : nat) (l : list Z) : option Z :=
  match n with
  | O => Some 0
  | Datatypes.S n =>
      match l with
      | [] => None
      | c :: l => r ← count_chunks n l; Some (count_bits 32 c + r)
      end
  end.

Definition sanity_check_bitmap : M St unit :=
  bv ← in_bbm get;
  used ← opt (count_chunks (Z.to_nat (u64 (numbits bv) / 32)) (bits bv));
  i ← myfs;
  if negb (used_blocks (dsb i) =? used) then set_sb (sb_set_used used) else mret tt.

Definition myfs_create_storage_map : M St Z :=
  sem ← in_host (create_sem 1);
  _ ← set_info (set_bbm_sem sem);
  bsize ← bsize_of;
  i ← myfs;
  let n := bitmap_blocks (num_blocks (dsb i)) bsize in
  _ ← set_num_bitmap_blocks n;
  bv ← in_host (malloc 24);
  match bv with
  | None => storage_map_err ENOMEM
  | Some _ =>
      _ ← set_bv (Some (MkBV 0 0 0 []));
      let num_bytes := u64 (n * block_size (dsb i)) in
      buff ← in_host (malloc num_bytes);
      match buff with
      | None => storage_map_err ENOMEM
      | Some _ =>
          _ ← in_bbm (modify (set_bits (replicate (Z.to_nat (num_bytes / 4)) 0)));
          _ ← in_bbm (modify (fun bv => MkBV (i32 (num_blocks (dsb i))) (next_free bv) (is_full bv) (bits bv)));
          let nblocks := u64 (n + 1) in
          '(start, _) ← in_bbm (GetFreeRangeOfBits (i32 nblocks));
          if negb (start =? 0) then storage_map_err ENOSPC else
          bv ← in_bbm get;
          amt ← write_blocks 1 (bits_at bv 0 (n * bsize)) n;
          if negb (amt =? n) then storage_map_err EINVAL else
          _ ← set_sb (fun d => sb_set_used (i64 (used_blocks d + nblocks)) d);
          mret 0
      end
  end.

Definition myfs_init_storage_map : M St Z :=
  sem ← in_host (create_sem 1);
  _ ← set_info (set_bbm_sem sem);
  bsize ← bsize_of;
  i ← myfs;
  let n := bitmap_blocks (num_blocks (dsb i)) bsize in
  _ ← set_num_bitmap_blocks n;
  bv ← in_host (malloc 24);
  match bv with
  | None => storage_map_err ENOMEM
  | Some _ =>
      _ ← set_bv (Some (MkBV 0 0 0 []));
      let num_bytes := u64 (n * block_size (dsb i)) in
      buff ← in_host (malloc num_bytes);
      match buff with
      | None => storage_map_err ENOMEM
      | Some _ =>
          '(amt, d) ← read_blocks 1 n;
          if negb (amt =? n) then storage_map_err EINVAL else
          _ ← in_bbm (modify (set_bits (bytes_words 4 (Z.to_nat (num_bytes / 4)) d)));
          _ ← in_bbm (modify (fun bv => MkBV (i32 (num_blocks (dsb i))) (next_free bv) (is_full bv) (bits bv)));
          is_set ← in_bbm (IsSetBV 0);
          _ ← (if is_set =? 0 then
                 _ ← in_bbm (SetBV 0);
                 bv ← in_bbm get;
                 write_blocks 1 (bits_at bv 0 bsize) 1
               else mret 0);
          _ ← sanity_check_bitmap;
          mret 0
      end
  end.

Definition myfs_shutdown_storage_map : M St unit :=
  _ ← set_bv None;
  i ← myfs;
  _ ← (if sem_positive (bbm_sem i) then in_host (delete_sem (bbm_sem i)) else mret 0);
  set_info (set_bbm_sem SemBad).

(** ** Allocation *)

Definition EXACT_ALLOCATION : Z := 1.
Definition LOOSE_ALLOCATION : Z := 2.
Definition TRY_HARD_ALLOCATION : Z := 3.

(** The loop that looks for a run, halving the request: the start or -1, and
    the final [nblocks].  Every round at least halves [nblocks], an [int]. *)
Fixpoint find_blocks (fuel : nat) (exact nblocks max_free_chunk : Z) : M BitVector (Z * Z) :=
  match fuel with
  | O => hang
  | Datatypes.S fuel =>
      if nblocks <? 1 then mret (-1, nblocks) else
      '(start, biggest) ← GetFreeRangeOfBits nblocks;
      if negb (start =? -1) then mret (start, nblocks) else
      let max_free_chunk := if biggest >? max_free_chunk then biggest else max_free_chunk in
      '(start, nblocks) ←
        (if (exact =? LOOSE_ALLOCATION) && (biggest >? 0) && (biggest >=? Z.shiftr nblocks 4)
         then '(start, _) ← GetFreeRangeOfBits biggest; mret (start, biggest)
         else mret (start, nblocks));
      if negb (start =? -1) || (exact =? EXACT_ALLOCATION) then mret (start, nblocks) else
      '(start, nblocks) ←
        (if (exact =? TRY_HARD_ALLOCATION) && (max_free_chunk >? 1) then
           let nblocks := if max_free_chunk <? nblocks then max_free_chunk else nblocks in
           '(start, _) ← GetFreeRangeOfBits nblocks; mret (start, nblocks)
         else mret (start, nblocks));
      if negb (start =? -1) then mret (start, nblocks) else
      let nblocks :=
        if (exact =? LOOSE_ALLOCATION) && (nblocks >? max_free_chunk * 2)
        then max_free_chunk * 2 else nblocks in
      find_blocks fuel exact (Z.quot nblocks 2) 1
  end.

(** Result, [*num_blocks] and [*start_addr]. *)
Definition real_allocate_blocks (num_blocks start_addr exact : Z) : M St (Z * Z * Z) :=
  bsize ← bsize_of;
  if num_blocks <=? 0 then mret (EINVAL, num_blocks, start_addr) else
  _ ← in_bbm_sem acquire_sem;
  i ← myfs;
  if num_blocks >? Myfs.num_blocks (dsb i) - used_blocks (dsb i) then
    _ ← in_bbm_sem release_sem; mret (ENOSPC, num_blocks, start_addr) else
  '(start, nblocks) ← in_bbm (find_blocks 33 exact (i32 num_blocks) 1);
  if start =? -1 then
    _ ← in_bbm_sem release_sem; mret (ENOSPC, num_blocks, start_addr) else
  let n := i32 (start / 8 / bsize + 1) in
  let len := nblocks / 8 / bsize + 1 in
  bv ← in_bbm get;
  amt ← write_blocks n (bits_at bv (start / 8 / bsize * bsize) (len * bsize)) len;
  if negb (amt =? len) then
    _ ← in_bbm_sem release_sem; mret (EINVAL, nblocks, start) else
  _ ← set_sb (fun d => sb_set_used (used_blocks d + nblocks) d);
  _ ← in_bbm_sem release_sem;
  _ ← set_sb (sb_set_flags MYFS_DIRTY);
  mret (0, nblocks, start).

Definition myfs_allocate_blocks (start_hint num_blocks start_addr exact : Z) : M St (Z * Z * Z) :=
  real_allocate_blocks num_blocks start_addr exact.

Definition pre_allocate_blocks (num_blocks start_addr : Z) : M St (Z * Z * Z) :=
  real_allocate_blocks num_blocks start_addr LOOSE_ALLOCATION.

(** ** Freeing *)

(** Writes back [k] more bitmap blocks from block [n], image offset [off]. *)
Fixpoint write_bitmap_run (k : nat) (n off bsize : Z) : M St bool :=
  match k with
  | O => mret true
  | Datatypes.S k =>
      bv ← in_bbm get;
      amt ← write_blocks n (bits_at bv off bsize) 1;
      if amt =? 1 then write_bitmap_run k (n + 1) (off + bsize) bsize else mret false
  end.

Definition myfs_free_blocks (start num_blocks : Z) : M St Z :=
  bsize ← bsize_of;
  _ ← in_bbm_sem acquire_sem;
  _ ← in_bbm (UnSetRangeBV (i32 start) (i32 num_blocks));
  _ ← in_bbm (modify (set_is_full 0));
  let n := i32 (Z.quot (Z.quot start 8) bsize + 1) in
  let len := i32 (Z.quot (Z.quot num_blocks 8) bsize + 1) in
  ok ← write_bitmap_run (Z.to_nat len) n (Z.quot (Z.quot start 8) bsize * bsize) bsize;
  if negb ok then _ ← in_bbm_sem release_sem; mret EINVAL else
  _ ← set_sb (fun d => sb_set_used (used_blocks d - len) d);
  _ ← in_bbm_sem release_sem;
  _ ← set_sb (sb_set_flags MYFS_DIRTY);
  mret 0.

(** [i] reaches [len] unless a bit is in the other state. *)
Fixpoint check_loop (n : nat) (k state : Z) : M BitVector bool :=
  match n with
  | O => mret true
  | Datatypes.S n =>
      b ← IsSetBV (i32 k);
      if ((state =? 1) && (b =? 0)) || ((state =? 0) && negb (b =? 0)) then mret false
      else check_loop n (k + 1) state
  end.

Definition myfs_check_blocks (start len state : Z) : M St Z :=
  _ ← in_bbm_sem acquire_sem;
  all ← in_bbm (check_loop (Z.to_nat len) start state);
  _ ← in_bbm_sem release_sem;
  if len <? 0 then mret 0 else
  mret (if all : bool then 1 else 0).
End bitmap.

(** ** The search for a run terminates *)

(** [start .. start + n - 1] was clear and is now set, nothing else changed. *)
Record got_run (bv : BitVector) (n start : Z) (bv' : BitVector) : Prop := {
  gr_n : 1 <= n;
  gr_range : 0 <= start /\ start + n <= numbits bv;
  gr_free : free_run (bits bv) start n;
  gr_shape : numbits bv' = numbits bv /\ len (bits bv') = len (bits bv);
  gr_bits : forall i, 0 <= i -> bset (bits bv') i = bset (bits bv) i || ((start <=? i) && (i <? start + n));
}.

(** The result of a search on [bv]: -1, or a run of at most [n] bits, of
    exactly [n] when the request is exact. *)
Definition search_result_ok (exact n : Z) (bv : BitVector) (r : Z * Z) (bv' : BitVector) : Prop :=
  wf bv' /\ (r.1 = -1 /\ no_room bv bv' \/
    (got_run bv r.2 r.1 bv' /\ r.2 <= n /\ (exact = EXACT_ALLOCATION -> r.2 = n))).

Lemma no_room_trans bv bv1 bv2 : no_room bv bv1 -> no_room bv1 bv2 -> no_room bv bv2.
Proof. intros (A1 & A2 & A3) (B1 & B2 & B3). unfold no_room. by rewrite B1, B2, B3. Qed.

Lemma no_room_run bv bv1 n a bv2 : no_room bv bv1 -> got_run bv1 n a bv2 -> got_run bv n a bv2.
Proof. intros (A1 & A2 & A3) []. rewrite A1, A3 in *. by split. Qed.

(** Looking for [n] bits after searches that found nothing. *)
Lemma try_run bv0 bv n :
  wf bv -> no_room bv0 bv ->
  wp (GetFreeRangeOfBits n) (fun r bv' => wf bv' /\
    (r.1 = -1 /\ r.2 < Z.max 0 n /\ no_room bv0 bv' \/ r.1 <> -1 /\ got_run bv0 n r.1 bv')) bv.
Proof.
  intros Hwf Hno. eapply wp_mono; [by apply GetFreeRangeOfBits_spec|]. cbn beta.
  intros r bv' [Hwf' [(E & Hr & H)|H]]; (split; [done|]).
  - left. eauto using no_room_trans.
  - right. destruct H as (H1 & H2 & H3 & _ & H4 & (H5 & _ & H6) & H7). split; [lia|].
    apply (no_room_run _ _ _ _ _ Hno). by split.
Qed.

Lemma find_blocks_spec fuel exact n mfc bv0 bv :
  wf bv -> no_room bv0 bv -> 1 <= mfc -> n < 2 ^ (Z.of_nat fuel - 1) -> (1 <= fuel)%nat ->
  wp (find_blocks fuel exact n mfc) (search_result_ok exact n bv0) bv.
Proof.
  revert n mfc bv. induction fuel as [|fuel IH]; intros n mfc bv Hwf Hno Hm Hn Hf; [lia|].
  cbn [find_blocks]. destruct (Z.ltb_spec n 1) as [|Hn1]; [apply wp_ret; split; [done|by left]|].
  assert (1 <= fuel)%nat.
  { destruct fuel; [|lia]. change (2 ^ (Z.of_nat 1 - 1)) with 1 in Hn. lia. }
  assert (2 ^ (Z.of_nat (S fuel) - 1) = 2 * 2 ^ (Z.of_nat fuel - 1)) as Hpow.
  { rewrite <- Z.pow_succ_r by lia. f_equal. lia. }
  wp_step. eapply wp_mono; [by apply (try_run bv0)|]. cbn beta.
  intros [start big] bv1 [Hwf1 [(E & Hbig & Hno1)|[Hne Hgot]]]; cbn [fst snd] in *.
  2: { rewrite (proj2 (Z.eqb_neq _ _) Hne). cbn [negb]. wp_step. split; [done|]. right. cbn [fst snd]. split_and!; done || lia. }
  rewrite E. change (negb (-1 =? -1)) with false. cbn iota.
  rewrite !Z.gtb_ltb, Z.geb_leb. set (mfc' := if mfc <? big then big else mfc).
  assert (1 <= mfc') as Hm' by (unfold mfc'; destruct (mfc <? big) eqn:?; zcases; lia).
  wp_step.
  (* the loose attempt *)
  set (P := fun (r : Z * Z) bv' => wf bv' /\ 1 <= r.2 <= n /\ (exact = EXACT_ALLOCATION -> r.2 = n) /\
     (r.1 = -1 /\ no_room bv0 bv' \/ r.1 <> -1 /\ got_run bv0 r.2 r.1 bv')).
  apply wp_mono with P.
  { apply wp_if.
    - rewrite !andb_true_iff, Z.eqb_eq, Z.ltb_lt. intros [[Hx Hb0] _]. wp_step.
      eapply wp_mono; [by apply (try_run bv0)|]. cbn beta.
      intros [st b2] bv2 [Hwf2 H2]. wp_step. split; [done|]. cbn [fst snd] in *.
      split; [lia|]. split; [intros ->; discriminate|]. destruct H2 as [(?&?&?)|?]; [by left|by right].
    - intros _. wp_step. split; [done|]. cbn [fst snd]. split; [lia|]. split; [done|by left]. }
  intros [st m] bv2 (Hwf2 & Hmr & Hmx & H2). cbn [fst snd] in *. cbn beta iota.
  assert (search_result_ok exact n bv0 (st, m) bv2) as Hres.
  { split; [done|]. destruct H2 as [?|[? ?]]; [by left|]. right. cbn [fst snd]. split_and!; done || lia. }
  destruct (negb (st =? -1) || (exact =? EXACT_ALLOCATION)) eqn:Ex; [by apply wp_ret|].
  apply orb_false_iff in Ex as [Est Exact]. zcases. destruct H2 as [[_ Hno2]|[? _]]; [|done].
  wp_step. apply wp_mono with P.
  { apply wp_if.
    - intros _. set (m' := if mfc' <? m then mfc' else m).
      assert (1 <= m' <= m) by (unfold m'; destruct (mfc' <? m) eqn:?; zcases; lia).
      wp_step. eapply wp_mono; [by apply (try_run bv0)|]. cbn beta.
      intros [st3 b3] bv3 [Hwf3 H3]. wp_step. split; [done|]. cbn [fst snd] in *.
      split; [lia|]. split; [done|]. destruct H3 as [(?&?&?)|?]; [by left|by right].
    - intros _. wp_step. split; [done|]. cbn [fst snd]. split; [lia|]. split; [done|by left]. }
  intros [st3 m3] bv3 (Hwf3 & Hmr3 & _ & H3). cbn [fst snd] in *. cbn beta iota.
  destruct (st3 =? -1) eqn:E3; cbn [negb].
  2: { apply wp_ret. zcases. destruct H3 as [[? ?]|[_ ?]]; [done|]. split; [done|]. right. cbn [fst snd]. split_and!; done || lia. }
  destruct H3 as [[_ Hno3]|[? _]]; [|zcases; done].
  set (m4 := if _ && _ then mfc' * 2 else m3).
  assert (m4 <= m3 /\ 0 <= m4) as [Hm4 Hm40]. { unfold m4. destruct (_ && _) eqn:?; zcases; lia. }
  eapply wp_mono; [apply (IH _ 1 bv3); try done; try lia|].
  - rewrite Z.quot_div_nonneg by lia. apply Z.div_lt_upper_bound; lia.
  - intros [r1 r2] bv4 [Hwf4 H4]. cbn [fst snd] in *. split; [done|].
    destruct H4 as [?|(? & Hle & _)]; [by left|]. right. split_and!; try done. cbn [snd].
    rewrite Z.quot_div_nonneg in Hle by lia. assert (m4 / 2 <= m4) by (apply Z.div_le_upper_bound; lia). lia.
Qed.

(** ** The map in memory and on disk *)

Section bitmap_specs.
Context {C : Type} {HC : BlockCache C} {HL : BlockCacheLaws C}.
Abbreviation St := (fs_state C).

Definition nbb (s : St) : Z := num_bitmap_blocks (bbm (fs_info s)).

(** The block of the device that holds bits [8 * k * bs ..] of the map. *)
Definition image_ok (s : St) (l : list Z) : Prop :=
  forall k, 0 <= k < nbb s -> dat s !! (1 + k) = Some (slice (k * bs s) (bs s) (words_bytes 4 l)).

(** The bitmap is usable: it covers the device, its image is on disk, and the
    super block counts its set bits. *)
Record bitmap_ok (s : St) (bv : BitVector) : Prop := {
  bo_disk : disk_ok s;
  bo_geom : geom (bs s);
  bo_bv : bbm_bv (bbm (fs_info s)) = Some bv;
  bo_wf : wf bv;
  bo_numbits : numbits bv = nblk s;
  bo_words : 4 * len (bits bv) = nbb s * bs s;
  bo_fits : 1 <= nbb s /\ 1 + nbb s <= nblk s;
  bo_image : image_ok s (bits bv);
  bo_sem : bbm_sem (fs_info s) = Sem 1;
  bo_used : used_blocks (dsb (fs_info s)) = nset (bits bv) (Z.to_nat (nblk s));
  bo_room : (base.size (pins s) <= MAX_PINS)%nat;
}.

(** [i'] is [i] with another bit vector, count of used blocks and flags. *)
Definition info_bits (i : myfs_info) (bv : BitVector) (used fl : Z) : myfs_info :=
  set_dsb (sb_set_flags fl (sb_set_used used (dsb i))) (set_bbm (BBM (Some bv) (num_bitmap_blocks (bbm i))) i).

Lemma info_bits_id i bv :
  bbm_bv (bbm i) = Some bv -> info_bits i bv (used_blocks (dsb i)) (sb_flags (dsb i)) = i.
Proof. intros E. destruct i as [? [] [] ? ? ? ? ? ? ? ? ? ?]. cbn in *. by subst. Qed.

(** Changes of the information that the device does not depend on. *)
Lemma disk_ok_info s i :
  disk_ok s -> fd i = fd (fs_info s) -> block_size (dsb i) = block_size (dsb (fs_info s)) ->
  num_blocks (dsb i) = num_blocks (dsb (fs_info s)) -> info_flags i = info_flags (fs_info s) ->
  disk_ok (upd_info i s) /\ vw (upd_info i s) = vw s /\ bs (upd_info i s) = bs s /\ nblk (upd_info i s) = nblk s.
Proof.
  intros [H1 H2 H3 H4 H5 H6] Hfd Hbs Hnb Hfl.
  assert (bs (upd_info i s) = bs s) as E1 by done.
  assert (nblk (upd_info i s) = nblk s) as E2 by done.
  assert (vw (upd_info i s) = vw s) as E3 by (unfold vw; rewrite E1; cbn; by rewrite Hfd).
  split_and!; try done. split; unfold dat; rewrite ?E1, ?E2, ?E3; try done.
  - cbn. by rewrite Hfd.
  - unfold read_only in *. cbn. by rewrite Hfl.
Qed.

Lemma wp_in_bbm {A} (m : M BitVector A) (Q : A -> St -> Prop) s bv :
  bbm_bv (bbm (fs_info s)) = Some bv ->
  wp m (fun a bv' => Q a (upd_info (set_bbm (BBM (Some bv') (nbb s)) (fs_info s)) s)) bv ->
  wp (in_bbm m) Q s.
Proof. intros E. unfold in_bbm, wp. rewrite E. destruct (m bv) as [[a bv']| |]; done. Qed.

Lemma acquire_bbm_wp s (Q : Z -> St -> Prop) :
  bbm_sem (fs_info s) = Sem 1 -> Q 0 (upd_info (set_bbm_sem (Sem 0) (fs_info s)) s) ->
  wp (in_bbm_sem acquire_sem) Q s.
Proof.
  intros E HQ. unfold in_bbm_sem, in_info. apply wp_zoom, wp_zoom. rewrite E. exact HQ.
Qed.

Lemma release_bbm_wp s c (Q : Z -> St -> Prop) :
  bbm_sem (fs_info s) = Sem c -> Q 0 (upd_info (set_bbm_sem (Sem (c + 1)) (fs_info s)) s) ->
  wp (in_bbm_sem release_sem) Q s.
Proof.
  intros E HQ. unfold in_bbm_sem, in_info. apply wp_zoom, wp_zoom. rewrite E. exact HQ.
Qed.

(** Bit [a] is in bitmap block [a / 8 / bs]. *)
Lemma bit_block b a : 0 < b -> 0 <= a -> 8 * (a / 8 / b) * b <= a < 8 * (a / 8 / b + 1) * b.
Proof. intros Hb Ha. rewrite Z.div_div by lia. pose proof (Z.div_mod a (8 * b) ltac:(lia)). pose proof (Z.mod_pos_bound a (8 * b) ltac:(lia)). nia. Qed.

Lemma words_block l b k :
  geom b -> 0 <= k -> (k + 1) * b <= 4 * len l ->
  slice (k * b) b (words_bytes 4 l) = words_bytes 4 (slice (k * (b / 4)) (b / 4) l).
Proof.
  intros Hg Hk Hl. pose proof (geom_mod b 2 Hg ltac:(lia)) as H. change (2 ^ 2) with 4 in H.
  pose proof (geom_bounds b Hg). assert (b = 4 * (b / 4)) as E by dlia.
  rewrite <- slice_words by nia. f_equal; change (Z.of_nat 4) with 4; nia.
Qed.

(** Writing back the block of the bits that changed brings the image up to
    date. *)
Lemma image_write s s1 l l' a :
  image_ok s l -> geom (bs s) -> Forall in_i32 l -> Forall in_i32 l' -> len l' = len l ->
  4 * len l = nbb s * bs s -> 0 <= a < 8 * (4 * len l) ->
  (forall i, 0 <= i -> i / 8 / bs s <> a / 8 / bs s -> bset l' i = bset l i) ->
  bs s1 = bs s -> nbb s1 = nbb s ->
  dat s1 = <[a / 8 / bs s + 1 := slice (a / 8 / bs s * bs s) (bs s) (words_bytes 4 l')]> (dat s) ->
  image_ok s1 l'.
Proof.
  intros Him Hg Hl Hl' Hlen Hw Ha Hsame Hbs1 Hnbb1 Hdat k Hk.
  rewrite Hdat, Hbs1. rewrite Hnbb1 in Hk. pose proof (geom_bounds _ Hg) as Hb.
  pose proof (bit_block (bs s) a ltac:(lia) ltac:(lia)) as Hab.
  destruct (decide (k = a / 8 / bs s)) as [->|Hne].
  { replace (a / 8 / bs s + 1) with (1 + a / 8 / bs s) by lia. by rewrite lookup_insert_eq. }
  rewrite lookup_insert_ne by lia. rewrite Him by done. f_equal.
  rewrite !words_block by (done || nia). f_equal.
  pose proof (geom_mod _ 2 Hg ltac:(lia)) as H2. change (2 ^ 2) with 4 in H2.
  assert (bs s = 4 * (bs s / 4)) as E by dlia. set (q := bs s / 4) in *.
  apply slice_bits_ext; [done|done|done|nia|nia|nia|].
  intros i Hi. symmetry. apply Hsame; [nia|].
  pose proof (bit_block (bs s) i ltac:(lia) ltac:(nia)) as Hib. intros E'. rewrite E' in Hib.
  apply Hne. nia.
Qed.

(** What allocation and freeing keep: everything but the map, its image, the
    count of used blocks and the flags. *)
Record map_step (s s' : St) (bv' : BitVector) (used fl : Z) : Prop := {
  ms_ok : bitmap_ok s' bv';
  ms_info : fs_info s' = info_bits (fs_info s) bv' used fl;
  ms_host : fs_host s' = fs_host s;
  ms_pins : pins s' = pins s;
  ms_unsaved : v_unsaved (vw s') ⊆ v_unsaved (vw s);
  ms_frame : forall b, ~ (1 <= b <= nbb s) -> dat s' !! b = dat s !! b;
}.

(** The state in the middle of an operation: the semaphore is taken and the
    bits have changed. *)
Definition mid_info (i : myfs_info) (bv : BitVector) : myfs_info :=
  set_bbm (BBM (Some bv) (num_bitmap_blocks (bbm i))) (set_bbm_sem (Sem 0) i).

Lemma mid_ok s bv bv' :
  bitmap_ok s bv ->
  disk_ok (upd_info (mid_info (fs_info s) bv') s) /\ vw (upd_info (mid_info (fs_info s) bv') s) = vw s.
Proof. intros Hb. destruct (disk_ok_info s (mid_info (fs_info s) bv') (bo_disk _ _ Hb)) as (? & ? & _); done. Qed.

(** The bitmap block of a bit of the device is one of the map's. *)
Lemma bit_in_map s bv a :
  bitmap_ok s bv -> 0 <= a < nblk s ->
  0 <= a / 8 / bs s < nbb s /\ 0 <= a / 8 / bs s * bs s /\
  a / 8 / bs s * bs s + bs s <= 4 * len (bits bv) /\ a < 8 * (4 * len (bits bv)).
Proof.
  intros Hb Ha. pose proof (geom_bounds _ (bo_geom _ _ Hb)) as Hbb. pose proof (bo_words _ _ Hb) as Hw.
  pose proof (wf_chunks _ (bo_wf _ _ Hb)) as Hc. rewrite (bo_numbits _ _ Hb) in Hc.
  pose proof (chunk_count_spec (nblk s) a Ha). pose proof (Z.div_mod a 32). pose proof (Z.mod_pos_bound a 32).
  pose proof (bit_block (bs s) a ltac:(lia) ltac:(lia)) as Hab.
  assert (a < 8 * (4 * len (bits bv))) as Hlt by lia. rewrite Hw in Hlt |- *.
  set (q := a / 8 / bs s) in *. assert (0 <= q) by (unfold q; rewrite Z.div_div by lia; apply Z.div_pos; lia).
  assert (q < nbb s) by nia. split_and!; try lia; nia.
Qed.

(** Back from the middle with the bits as they were. *)
Lemma map_step_same s bv bv' :
  bitmap_ok s bv -> wf bv' -> bits bv' = bits bv -> numbits bv' = numbits bv ->
  map_step s (upd_info (info_bits (fs_info s) bv' (used_blocks (dsb (fs_info s))) (sb_flags (dsb (fs_info s)))) s)
    bv' (used_blocks (dsb (fs_info s))) (sb_flags (dsb (fs_info s))).
Proof.
  intros Hb Hwf Hbits Hnb.
  set (i := info_bits _ _ _ _). destruct (disk_ok_info s i (bo_disk _ _ Hb)) as (Hd & Hvw & Hbs & Hn); [done..|].
  destruct Hb. split; try done; try (rewrite Hvw; done); try (intros; unfold dat; by rewrite Hvw).
  split; try done; unfold image_ok, pins, dat; rewrite ?Hvw, ?Hbits, ?Hn, ?Hbs, ?Hnb; done.
Qed.

(** Back from the middle with bits of one block changed and that block
    written. *)
Lemma map_step_write s s2 s3 bv bv' a used fl :
  bitmap_ok s bv -> wf bv' -> numbits bv' = numbits bv -> len (bits bv') = len (bits bv) -> 0 <= a < nblk s ->
  (forall i, 0 <= i -> i / 8 / bs s <> a / 8 / bs s -> bset (bits bv') i = bset (bits bv) i) ->
  used = nset (bits bv') (Z.to_nat (nblk s)) ->
  s2 = upd_info (mid_info (fs_info s) bv') s ->
  disk_ok s3 ->
  cstep s2 s3 (<[a / 8 / bs s + 1 := slice (a / 8 / bs s * bs s) (bs s) (words_bytes 4 (bits bv'))]> (dat s))
        (pins s) ->
  map_step s (upd_info (info_bits (fs_info s) bv' used fl) s3) bv' used fl.
Proof.
  intros Hb Hwf Hnb' Hlen' Ha Hsame Hused E2 Hd3 [Hi3 Hh3 Hdat3 Hp3 Hu3].
  destruct (mid_ok s bv bv' Hb) as [_ Hvw2]. rewrite <- E2 in Hvw2.
  set (i := info_bits (fs_info s) bv' used fl).
  assert (fs_info s3 = mid_info (fs_info s) bv') as Hi3' by (rewrite Hi3, E2; done).
  assert (bs s3 = bs s) as Hbs3 by (unfold bs; by rewrite Hi3').
  assert (nblk s3 = nblk s) as Hn3 by (unfold nblk; by rewrite Hi3').
  destruct (disk_ok_info s3 i Hd3) as (Hd & Hvw & Hbs & Hn); try (rewrite Hi3'; done).
  pose proof (geom_bounds _ (bo_geom _ _ Hb)) as Hbb.
  destruct (bit_in_map s bv a Hb Ha) as (Hblk & _ & _ & Hcov).
  split; try done.
  - split; unfold pins; rewrite ?Hvw; fold (pins s3);
      rewrite ?Hbs, ?Hn, ?Hbs3, ?Hn3, ?Hp3; try apply Hb; try done.
    + rewrite Hnb'. apply Hb.
    + rewrite Hlen'. apply Hb.
    + apply (image_write s _ (bits bv) (bits bv') a); try done; try apply Hb; try apply Hwf.
      { lia. } unfold dat. by rewrite Hvw.
  - cbn. rewrite Hh3, E2. done.
  - unfold pins. by rewrite Hvw.
  - rewrite Hvw, <- Hvw2. exact Hu3.
  - intros b Hbn. unfold dat. rewrite Hvw. fold (dat s3). rewrite Hdat3. apply lookup_insert_ne. lia.
Qed.

Lemma bitmap_ok_bits s bv bv' :
  bitmap_ok s bv -> wf bv' -> same_shape bv bv' ->
  numbits bv' = nblk s /\ 4 * len (bits bv') = nbb s * bs s.
Proof. intros Hb Hwf (H1 & _ & H3). rewrite H1, H3. split; apply Hb. Qed.

(** The source of the write-back of the block of bit [a]. *)
Lemma bits_at_shape s bv bv' a :
  bitmap_ok s bv -> same_shape bv bv' -> 0 <= a < nblk s ->
  bits_at bv' (a / 8 / bs s * bs s) (1 * bs s) =
    Some (slice (a / 8 / bs s * bs s) (bs s) (words_bytes 4 (bits bv'))) /\ 0 <= a / 8 / bs s < nbb s.
Proof.
  intros Hb (_ & _ & Hlen) Ha. destruct (bit_in_map s bv a Hb Ha) as (Hblk & H0 & H1 & _).
  split; [|done]. pose proof (geom_bounds _ (bo_geom _ _ Hb)).
  unfold bits_at. rewrite Z.mul_1_l. apply read_at_Some; [done|lia|].
  rewrite len_words_bytes, Hlen. change (Z.of_nat 4) with 4. lia.
Qed.

(** *** Allocating one block *)

Definition alloc_none (s : St) (bv : BitVector) (a0 : Z) (r : Z * Z * Z) (s' : St) : Prop :=
  exists bv', r = (ENOSPC, 1, a0) /\ bits bv' = bits bv /\
    map_step s s' bv' (used_blocks (dsb (fs_info s))) (sb_flags (dsb (fs_info s))).

Definition alloc_got (s : St) (bv : BitVector) (r : Z * Z * Z) (s' : St) : Prop :=
  exists a bv', r = (0, 1, a) /\ 0 <= a < nblk s /\ bset (bits bv) a = false /\
    (forall i, 0 <= i -> bset (bits bv') i = bset (bits bv) i || (i =? a)) /\
    map_step s s' bv' (used_blocks (dsb (fs_info s)) + 1) MYFS_DIRTY.

Lemma find_one_spec bv P :
  (forall r bv', P r bv' -> wf bv' /\ (r.1 = -1 /\ no_room bv bv' \/ took_run bv 1 r.1 bv')) ->
  wp (GetFreeRangeOfBits 1) P bv ->
  wp (find_blocks 33 EXACT_ALLOCATION 1 1)
     (fun r bv' => exists r0, P r0 bv' /\ r = (r0.1, 1)) bv.
Proof.
  intros HP Hw. cbn [find_blocks]. change (1 <? 1) with false. cbn iota. wp_step.
  eapply wp_mono; [exact Hw|]. intros [st big] bv' Hr. cbn beta iota.
  destruct (HP _ _ Hr) as [_ [[E _]|E]]; cbn [fst] in E.
  - rewrite E. change (negb (-1 =? -1)) with false. change (EXACT_ALLOCATION =? LOOSE_ALLOCATION) with false.
    cbn [andb]. cbn iota. wp_step. wp_step.
    change (negb (-1 =? -1) || (EXACT_ALLOCATION =? EXACT_ALLOCATION)) with true. cbn iota.
    wp_step. exists (st, big). split; [done|]. cbn [fst]. by rewrite E.
  - destruct E as (_ & Hge & _). rewrite (proj2 (Z.eqb_neq st (-1))) by lia. cbn [negb].
    wp_step. by exists (st, big).
Qed.

Lemma alloc_one_gen s bv a0 P :
  bitmap_ok s bv ->
  (forall r bv', P r bv' -> wf bv' /\ (r.1 = -1 /\ no_room bv bv' \/ took_run bv 1 r.1 bv')) ->
  wp (GetFreeRangeOfBits 1) P bv ->
  wp (real_allocate_blocks 1 a0 EXACT_ALLOCATION)
     (fun r s' => (alloc_none s bv a0 r s' /\
                   (nblk s <= nset (bits bv) (Z.to_nat (nblk s)) \/ exists r0 bv', P r0 bv' /\ r0.1 = -1))
                  \/ (alloc_got s bv r s' /\ exists r0 bv', P r0 bv' /\ r0.1 <> -1)) s.
Proof.
  intros Hb HP Hfind. pose proof (bo_disk _ _ Hb) as Hd. pose proof (bo_fits _ _ Hb) as Hfit.
  pose proof (do_nblk s Hd) as Hnb.
  assert (forall bv', info_bits (fs_info s) bv' (used_blocks (dsb (fs_info s))) (sb_flags (dsb (fs_info s)))
            = set_bbm_sem (Sem 1) (mid_info (fs_info s) bv')) as Hback.
  { intros bv'. pose proof (bo_sem _ _ Hb) as E. destruct (fs_info s) as [? [] [] ? ? ? ? ? ? ? ? ? ?]. cbn in *.
    by subst. }
  unfold real_allocate_blocks. wp_step. apply wp_bsize_of; [done|]. change (1 <=? 0) with false. cbn iota.
  wp_step. apply acquire_bbm_wp; [apply Hb|]. wp_step. unfold myfs. wp_step.
  cbn [dsb fs_info upd_info set_bbm_sem]. fold (nblk s).
  rewrite (bo_used _ _ Hb), Z.gtb_ltb.
  destruct (Z.ltb_spec (nblk s - nset (bits bv) (Z.to_nat (nblk s))) 1) as [Hfull|Hfree].
  { wp_step. apply (release_bbm_wp _ 0); [done|]. apply wp_ret. left. split; [|left; lia].
    exists bv. split; [done|]. split; [done|].
    pose proof (map_step_same s bv bv Hb (bo_wf _ _ Hb) eq_refl eq_refl) as Hms.
    rewrite Hback in Hms. revert Hms. unfold mid_info.
    assert (set_bbm (BBM (Some bv) (num_bitmap_blocks (bbm (fs_info s)))) (set_bbm_sem (Sem 0) (fs_info s))
            = set_bbm_sem (Sem 0) (fs_info s)) as ->; [|done].
    pose proof (bo_bv _ _ Hb) as E. destruct (fs_info s) as [? ? [] ? ? ? ? ? ? ? ? ? ?]. cbn in *. by subst. }
  wp_step. change (i32 1) with 1.
  apply (wp_in_bbm _ _ _ bv); [apply Hb|].
  eapply wp_mono; [by apply (find_one_spec bv P)|]. cbn beta. intros r bv' (r0 & Hr0 & ->). cbn iota.
  destruct (HP _ _ Hr0) as [Hwf [[E (Hbits & _ & Hnum)]|Htook]].
  { rewrite E. change (-1 =? -1) with true. cbn iota. wp_step. apply (release_bbm_wp _ 0); [done|].
    apply wp_ret. left. split; [|right; by exists r0, bv']. exists bv'. split; [done|]. split; [done|].
    pose proof (map_step_same s bv bv' Hb Hwf Hbits Hnum) as Hms. by rewrite Hback in Hms. }
  set (a := r0.1) in *. destruct Htook as (_ & Ha0 & Ha1 & _ & Hrun & Hshape & Hset).
  rewrite (bo_numbits _ _ Hb) in Ha1.
  rewrite (proj2 (Z.eqb_neq a (-1))) by lia.
  set (s2 := upd_info (mid_info (fs_info s) bv') s).
  change (upd_info _ (upd_info _ s)) with s2.
  destruct (bits_at_shape s bv bv' a Hb Hshape ltac:(lia)) as [Hsrc Hblk].
  destruct (mid_ok s bv bv' Hb) as [Hd2 Hvw2]. fold s2 in Hd2, Hvw2.
  assert (1 / 8 / bs s + 1 = 1) as ->.
  { change (1 / 8) with 0. rewrite Z.div_0_l; [done|]. pose proof (do_bs s Hd). lia. }
  rewrite i32_id by (unfold in_i32; lia).
  wp_step. apply (wp_in_bbm _ _ _ bv'); [done|]. apply wp_get.
  change (upd_info _ s2) with s2. wp_step. rewrite Hsrc.
  pose proof (do_bs s Hd) as Hbs.
  assert (len (slice (a / 8 / bs s * bs s) (bs s) (words_bytes 4 (bits bv'))) = bs s) as Hlen.
  { destruct (bit_in_map s bv a Hb ltac:(lia)) as (_ & H0 & H1 & _).
    apply len_slice; [done|lia|]. rewrite len_words_bytes, (proj2 (proj2 Hshape)). change (Z.of_nat 4) with 4. lia. }
  eapply wp_mono.
  { apply (write_blocks_spec s2); [done|lia|lia|change (nblk s2) with (nblk s); lia| |].
    - change (bs s2) with (bs s). lia.
    - unfold pins. rewrite Hvw2. apply Hb. }
  cbn beta. intros r s3 (-> & Hd3 & Hs3). cbn [Z.eqb negb Pos.eqb].
  assert (fs_info s3 = mid_info (fs_info s) bv') as Hi3 by (rewrite (cs_info _ _ _ _ Hs3); done).
  wp_step. unfold set_sb at 1, set_info at 1. wp_step. wp_step.
  apply (release_bbm_wp _ 0). { cbn. by rewrite Hi3. }
  wp_step. unfold set_sb, set_info. wp_step. wp_step.
  right. split; [|exists r0, bv'; split; [done|unfold a in Ha0; lia]].
  exists a, bv'. split; [done|]. split; [lia|]. split.
  { apply Hrun. lia. }
  assert (forall i, 0 <= i -> bset (bits bv') i = bset (bits bv) i || (i =? a)) as Hset'.
  { intros i Hi. rewrite Hset by done. f_equal. destruct (Z.eqb_spec i a) as [->|].
    - rewrite Z.leb_refl. destruct (Z.ltb_spec a (a + 1)); [done|lia].
    - destruct (Z.leb_spec a i), (Z.ltb_spec i (a + 1)); lia || done. }
  split; [exact Hset'|].
  match goal with |- map_step s ?t _ _ _ =>
    replace t with (upd_info (info_bits (fs_info s) bv' (used_blocks (dsb (fs_info s)) + 1) MYFS_DIRTY) s3) end.
  2: { unfold upd_info. cbn. f_equal. rewrite Hi3. pose proof (bo_sem _ _ Hb) as E.
       destruct (fs_info s) as [? [] [] ? ? ? ? ? ? ? ? ? ?]. cbn in *. by subst. }
  apply (map_step_write s s2 s3 bv bv' a); try done; try apply Hshape.
  - lia.
  - intros i Hi Hne. rewrite Hset' by done. rewrite (proj2 (Z.eqb_neq i a)); [apply orb_false_r|congruence].
  - rewrite (bo_used _ _ Hb). symmetry. apply (nset_set _ _ _ a); [lia|apply Hrun; lia|done].
  - assert (dat s2 = dat s) as E by (unfold dat; by rewrite Hvw2).
    assert (pins s2 = pins s) as E' by (unfold pins; by rewrite Hvw2).
    change (Z.to_nat 1) with 1%nat in Hs3. cbn [put_blocks] in Hs3.
    rewrite E, E', take_ge in Hs3; [exact Hs3|]. change (bs s2) with (bs s). unfold len in Hlen. lia.
Qed.

(** *** Freeing a run of blocks *)

Lemma back_info s bv bv' :
  bitmap_ok s bv ->
  set_bbm_sem (Sem 1) (mid_info (fs_info s) bv')
    = info_bits (fs_info s) bv' (used_blocks (dsb (fs_info s))) (sb_flags (dsb (fs_info s))).
Proof.
  intros Hb. pose proof (bo_sem _ _ Hb) as E. destruct (fs_info s) as [? [] [] ? ? ? ? ? ? ? ? ? ?].
  cbn in *. by subst.
Qed.

(** The bits [a .. a + n - 1] are set and share a bitmap block. *)
Record used_run (s : St) (bv : BitVector) (a n : Z) : Prop := {
  ur_range : 0 <= a /\ 1 <= n /\ a + n <= nblk s;
  ur_short : n < 8 * bs s;
  ur_block : forall i, a <= i < a + n -> i / 8 / bs s = a / 8 / bs s;
  ur_set : forall i, a <= i < a + n -> bset (bits bv) i = true;
}.

(** What freeing the run leaves: the count of used blocks of the super block
    only goes down by one, so the map is right once it is corrected. *)
Definition freed (s : St) (bv : BitVector) (a n : Z) (s' : St) : Prop :=
  exists bv', (forall i, 0 <= i -> bset (bits bv') i = bset (bits bv) i && negb ((a <=? i) && (i <? a + n))) /\
    is_full bv' = 0 /\ next_free bv' = a /\
    used_blocks (dsb (fs_info s')) = used_blocks (dsb (fs_info s)) - 1 /\
    map_step s (upd_info (set_dsb (sb_set_used (used_blocks (dsb (fs_info s)) - n) (dsb (fs_info s'))) (fs_info s')) s')
      bv' (used_blocks (dsb (fs_info s)) - n) MYFS_DIRTY.

Lemma write_run_one (Q : bool -> St -> Prop) b off sz s bv :
  bbm_bv (bbm (fs_info s)) = Some bv ->
  wp (write_blocks b (bits_at bv off sz) 1) (fun r s' => r = 1 /\ Q true s') s ->
  wp (write_bitmap_run 1 b off sz) Q s.
Proof.
  intros E H. cbn [write_bitmap_run]. wp_step. apply (wp_in_bbm _ _ _ bv); [done|]. apply wp_get.
  assert (upd_info (set_bbm (BBM (Some bv) (nbb s)) (fs_info s)) s = s) as ->.
  { unfold nbb. destruct s as [[? ? [] ? ? ? ? ? ? ? ? ? ?] ? ?]. cbn in *. by subst. }
  wp_step. eapply wp_mono; [exact H|]. cbn beta. intros r s' [-> HQ]. change (1 =? 1) with true.
  cbn iota. by apply wp_ret.
Qed.

Lemma free_run_gen s bv a n :
  bitmap_ok s bv -> used_run s bv a n ->
  wp (myfs_free_blocks a n) (fun r s' => r = 0 /\ freed s bv a n s') s.
Proof.
  intros Hb [(Ha & Hn & Han) Hshort Hblk Hset]. pose proof (bo_disk _ _ Hb) as Hd.
  pose proof (bo_fits _ _ Hb) as Hfit. pose proof (do_nblk s Hd) as Hnb. pose proof (do_bs s Hd) as Hbs.
  unfold myfs_free_blocks. wp_step. apply wp_bsize_of; [done|].
  wp_step. apply acquire_bbm_wp; [apply Hb|]. rewrite (i32_id a), (i32_id n) by (unfold in_i32; lia).
  wp_step. apply (wp_in_bbm _ _ _ bv); [apply Hb|].
  eapply wp_mono.
  { apply (UnSetRangeBV_spec bv a n); rewrite ?(bo_numbits _ _ Hb); try lia; try apply Hb. }
  cbn beta. intros r bv0 (-> & Hwf0 & Hshape0 & Hnf0 & Hbits0).
  wp_step. apply (wp_in_bbm _ _ _ bv0); [done|]. apply wp_modify.
  set (bv' := set_is_full 0 bv0). set (s2 := upd_info (mid_info (fs_info s) bv') s).
  change (upd_info _ (upd_info _ (upd_info _ s))) with s2.
  assert (wf bv') as Hwf by (destruct Hwf0; by split).
  assert (numbits bv' = numbits bv /\ len (bits bv') = len (bits bv)) as [Hnum Hlen] by (destruct Hshape0 as (? & ? & ?); done).
  destruct (bit_in_map s bv a Hb ltac:(lia)) as (Hq & H0 & H1 & _).
  rewrite !Z.quot_div_nonneg by (try apply Z.quot_pos; lia).
  assert (n / 8 / bs s = 0) as ->. { rewrite Z.div_div by lia. apply Z.div_small. lia. }
  rewrite !i32_id by (unfold in_i32; lia). change (Z.to_nat (0 + 1)) with 1%nat.
  destruct (mid_ok s bv bv' Hb) as [Hd2 Hvw2]. fold s2 in Hd2, Hvw2.
  wp_step. apply (write_run_one _ _ _ _ s2 bv'); [done|].
  assert (bits_at bv' (a / 8 / bs s * bs s) (bs s)
          = Some (slice (a / 8 / bs s * bs s) (bs s) (words_bytes 4 (bits bv')))) as ->.
  { apply read_at_Some; [done|lia|]. rewrite len_words_bytes, Hlen. change (Z.of_nat 4) with 4. lia. }
  assert (len (slice (a / 8 / bs s * bs s) (bs s) (words_bytes 4 (bits bv'))) = bs s) as Hsl.
  { apply len_slice; [done|lia|]. rewrite len_words_bytes, Hlen. change (Z.of_nat 4) with 4. lia. }
  eapply wp_mono.
  { apply (write_blocks_spec s2); [done|lia|lia|change (nblk s2) with (nblk s); lia| |].
    - change (bs s2) with (bs s). lia.
    - unfold pins. rewrite Hvw2. apply Hb. }
  cbn beta. intros r s3 (-> & Hd3 & Hs3). split; [done|]. cbn [negb]. cbn iota.
  assert (fs_info s3 = mid_info (fs_info s) bv') as Hi3 by (rewrite (cs_info _ _ _ _ Hs3); done).
  wp_step. unfold set_sb at 1, set_info at 1. wp_step. wp_step.
  apply (release_bbm_wp _ 0). { cbn. by rewrite Hi3. }
  wp_step. unfold set_sb, set_info. wp_step. wp_step. split; [done|]. exists bv'.
  split; [exact Hbits0|]. split; [done|]. split; [done|]. split. { cbn. rewrite Hi3. cbn. lia. }
  match goal with |- map_step s ?t _ _ _ =>
    replace t with (upd_info (info_bits (fs_info s) bv' (used_blocks (dsb (fs_info s)) - n) MYFS_DIRTY) s3) end.
  2: { unfold upd_info. cbn. f_equal. rewrite Hi3. pose proof (bo_sem _ _ Hb) as E.
       destruct (fs_info s) as [? [] [] ? ? ? ? ? ? ? ? ? ?]. cbn in *. by subst. }
  apply (map_step_write s s2 s3 bv bv' a); try done.
  - lia.
  - intros i Hi Hne. change (bits bv') with (bits bv0). rewrite Hbits0 by done.
    destruct (Z.leb_spec a i), (Z.ltb_spec i (a + n)); cbn [andb negb]; rewrite ?andb_true_r; try done.
    by destruct (Hne (Hblk i ltac:(lia))).
  - rewrite (bo_used _ _ Hb). rewrite (nset_clear_run (bits bv) (bits bv') _ a n); [lia|lia|lia|done|done].
  - assert (dat s2 = dat s) as E by (unfold dat; by rewrite Hvw2).
    assert (pins s2 = pins s) as E' by (unfold pins; by rewrite Hvw2).
    change (Z.to_nat 1) with 1%nat in Hs3. cbn [put_blocks] in Hs3.
    rewrite E, E', take_ge in Hs3; [exact Hs3|]. change (bs s2) with (bs s). unfold len in Hsl. lia.
Qed.
(** ** Properties *)

(** C15. A request for one block (with exact allocation) returns and leaves a
    good map in every case.  Either it answers [ENOSPC] with the bits, the
    image on disk, the count of used blocks and the flags as they were; or it
    answers 0 with the address of a block that was free, whose bit is now set
    in memory and on disk, with the count one higher and the super block
    marked dirty.  No other block of the device changes. *)
Theorem allocate_one_exact (s : St) (bv : BitVector) (hint a0 : Z) (Hb : bitmap_ok s bv) :
  wp (myfs_allocate_blocks hint 1 a0 EXACT_ALLOCATION)
     (fun r s' => alloc_none s bv a0 r s' \/ alloc_got s bv r s') s.
Proof.
  eapply wp_mono.
  { eapply (alloc_one_gen s bv a0); [done| |apply GetFreeRangeOfBits_spec, Hb]. cbn beta. intuition. }
  cbn beta. intros r s' [[? _]|[? _]]; auto.
Qed.

(** C22. When the device has a whole number of chunks of blocks and a block is
    free, a request for one block succeeds if the map is not marked full.  If
    it is, the request fails, with [ENOSPC] and without a change, though there
    is a free block. *)
Theorem allocate_one_succeeds (s : St) (bv : BitVector) (hint a0 k : Z) (Hb : bitmap_ok s bv)
  (Hdiv : nblk s mod 32 = 0) (Hk : 0 <= k < nblk s) (Hfree : bset (bits bv) k = false) :
  wp (myfs_allocate_blocks hint 1 a0 EXACT_ALLOCATION)
     (fun r s' => if is_full bv =? 0 then alloc_got s bv r s' else alloc_none s bv a0 r s') s.
Proof.
  pose proof (bo_numbits _ _ Hb) as Hn. destruct (Z.eqb_spec (is_full bv) 0) as [Hfull|Hfull].
  - eapply wp_mono.
    { eapply (alloc_one_gen s bv a0); [done| |apply (GetFreeRangeOfBits_single bv k); rewrite ?Hn; done || apply Hb].
      cbn beta. intuition. }
    cbn beta. intros r s' [[_ [Hall|(r0 & bv' & [_ Ht] & E)]]|[H _]]; [exfalso|exfalso|exact H].
    + pose proof (nset_free_lt (bits bv) (Z.to_nat (nblk s)) k ltac:(lia) Hfree). lia.
    + destruct Ht as (_ & ? & _). lia.
  - eapply wp_mono.
    { eapply (alloc_one_gen s bv a0); [done| |apply (GetFreeRangeOfBits_full bv 1 Hfull)].
      cbn beta. intros r bv' [-> ->]. split; [apply Hb|]. by left. }
    cbn beta. intros r s' [[H _]|[_ (r0 & bv' & [_ E] & Hne)]]; [exact H|]. by rewrite E in Hne.
Qed.


End bitmap_specs.

(** C32. The search of the allocator ends for every request of an [int] of
    blocks and every policy, within the 33 rounds the model gives it, without
    a fault: with -1 and the bits as they were, or with a run of free bits no
    longer than the request, of exactly its length when the policy is exact,
    which is now set. *)
Theorem block_search_terminates (bv : BitVector) (exact n : Z) (Hwf : wf bv) (Hn : in_i32 n) :
  wp (find_blocks 33 exact n 1) (search_result_ok exact n bv) bv.
Proof.
  apply find_blocks_spec; try done; [|lia].
  change (2 ^ (Z.of_nat 33 - 1)) with (2 * 2 ^ 31). unfold in_i32 in Hn. lia.
Qed.

(** ** The sample file system *)

Lemma sample_bitmap_ok : bitmap_ok sample (MkBV 32 0 0 sample_bits).
Proof.
  split; try reflexivity.
  - exact sample_disk_ok.
  - exact sample_geom.
  - solve_wf.
  - split; vm_compute; discriminate.
  - intros k Hk. change (nbb sample) with 1 in Hk. assert (k = 0) as -> by lia. vm_compute. reflexivity.
  - apply (bool_decide_unpack _). vm_compute. exact I.
Qed.

Lemma allocate_one_exact_witness :
  bitmap_ok sample (MkBV 32 0 0 sample_bits) /\
  wp (myfs_allocate_blocks 0 1 0 EXACT_ALLOCATION) (fun r _ => r = (0, 1, 13)) sample /\
  wp (myfs_allocate_blocks 0 1 0 EXACT_ALLOCATION)
     (fun r s' => alloc_none sample (MkBV 32 0 0 sample_bits) 0 r s' \/
                  alloc_got sample (MkBV 32 0 0 sample_bits) r s') sample.
Proof.
  split; [exact sample_bitmap_ok|]. split; [vm_compute; reflexivity|].
  apply allocate_one_exact. exact sample_bitmap_ok.
Defined.

Lemma allocate_one_succeeds_witness :
  bset sample_bits 31 = false /\
  wp (myfs_allocate_blocks 0 1 0 EXACT_ALLOCATION) (alloc_got sample (MkBV 32 0 0 sample_bits)) sample.
Proof.
  split; [reflexivity|].
  apply (allocate_one_succeeds sample (MkBV 32 0 0 sample_bits) 0 0 31 sample_bitmap_ok); try reflexivity.
  split; [lia|reflexivity].
Defined.


Lemma block_search_terminates_witness :
  wp (find_blocks 33 TRY_HARD_ALLOCATION 60 1) (fun r _ => r = (0, 52)) (MkBV 64 0 0 [0; 0x100000]) /\
  wp (find_blocks 33 TRY_HARD_ALLOCATION 60 1)
     (search_result_ok TRY_HARD_ALLOCATION 60 (MkBV 64 0 0 [0; 0x100000])) (MkBV 64 0 0 [0; 0x100000]).
Proof.
  split; [vm_compute; reflexivity|]. apply block_search_terminates; [solve_wf|unfold in_i32; lia].
Defined.
