(* ===== verification/Inode.v ===== *)
(** * Inode: the inode map and the inode table (inode.c) *)

From S2P Require Import Prelude Bytes Host BlockCache RamDisk BitVector Myfs Io Sample TmpBlocks Bitmap.
Local Open Scope Z_scope.

Section inode.
Context {C : Type} `{BlockCache C}.
Abbreviation St := (fs_state C).

(** Writes [block] to [n] blocks from [b] on, until a write fails. *)
Fixpoint fill_blocks (n : nat) (b : Z) (block : list byte) : M St unit :=
  match n with
  | O => mret tt
  | Datatypes.S n =>
      amt ← write_blocks b (Some block) 1;
      if amt =? 1 then fill_blocks n (b + 1) block else mret tt
  end.

(** [&bits[offset*bsize]]: one block of the inode map's image. *)
Definition map_block (bv : BitVector) (offset bsize : Z) : option (list byte) :=
  bits_at bv (i32 (offset * bsize)) bsize.

Definition myfs_create_inodes : M St Z :=
  bsize ← bsize_of;
  i ← myfs;
  let num_inodes := Z.shiftr (num_blocks (dsb i)) 2 in
  let num_inode_blocks := i64 (u64 (num_inodes * sizeof_myfs_inode) / u64 bsize) in
  let num_map_blocks := num_inode_blocks / 8 / bsize + 1 in
  '(err, num_map_blocks, map_start) ← pre_allocate_blocks num_map_blocks 0;
  if negb (err =? 0) then mret ENOSPC else
  '(err, num_inode_blocks, inodes_start) ← pre_allocate_blocks num_inode_blocks 0;
  if negb (err =? 0) then mret ENOSPC else
  block ← get_tmp_blocks 1;
  _ ← opt block;
  let zeros := replicate (Z.to_nat bsize) x00 in
  _ ← fill_blocks (Z.to_nat num_map_blocks) map_start zeros;
  _ ← fill_blocks (Z.to_nat num_inode_blocks) inodes_start zeros;
  _ ← free_tmp_blocks block 1;
  _ ← set_sb (sb_set_inodes num_inodes map_start num_map_blocks inodes_start num_inode_blocks);
  bits ← in_host (malloc (u64 (num_map_blocks * bsize)));
  let zero_bits := replicate (Z.to_nat (num_map_blocks * bsize / 4)) 0 in
  _ ← in_inode_map (modify (fun bv =>
         MkBV (i32 num_inodes) (next_free bv) (is_full bv)
              (match bits with Some _ => zero_bits | None => [] end)));
  match bits with
  | None => mret ENOMEM
  | Some _ =>
      _ ← in_inode_map (GetFreeRangeOfBits 1);
      bv ← in_inode_map get;
      _ ← write_blocks map_start (map_block bv 0 bsize) 1;
      mret 0
  end.

(** The map keeps the zeros of [calloc] when it cannot be read. *)
Definition myfs_init_inodes : M St Z :=
  bsize ← bsize_of;
  i ← myfs;
  let nmap := num_inode_map_blocks (dsb i) in
  bits ← in_host (malloc (u64 (nmap * bsize)));
  let n := Z.to_nat (nmap * bsize / 4) in
  let set_map l := in_inode_map (modify (fun bv =>
         MkBV (i32 (num_inodes (dsb i))) (next_free bv) (is_full bv) l)) in
  match bits with
  | None => _ ← set_map []; mret ENOMEM
  | Some _ =>
      _ ← set_map (replicate n 0);
      '(amt, d) ← read_blocks (inode_map_start (dsb i)) nmap;
      if negb (i32 amt =? nmap) then mret EINVAL else
      _ ← set_map (bytes_words 4 n d);
      mret 0
  end.

Definition myfs_shutdown_inodes : M St unit :=
  in_inode_map (modify (fun bv => MkBV 0 (next_free bv) (is_full bv) [])).

(** The new inode and its address; [parent] is not used. *)
Definition myfs_allocate_inode (mode : Z) : M St (option (Z * myfs_inode)) :=
  bsize ← bsize_of;
  mi ← in_host (malloc sizeof_myfs_inode);
  match mi with
  | None => mret None
  | Some p =>
      metc ← in_host (malloc 40);
      match metc with
      | None => mret None
      | Some e =>
          '(ia, _) ← in_inode_map (GetFreeRangeOfBits 1);
          if ia <? 0 then mret None else
          uid ← in_host getuid;
          gid ← in_host getgid;
          now ← in_host time_null;
          _ ← in_host (create_sem 0);
          i ← myfs;
          let offset := i32 (ia / 8 / bsize) in
          if offset >=? num_inode_map_blocks (dsb i) then hang else
          bv ← in_inode_map get;
          _ ← write_blocks (inode_map_start (dsb i) + offset) (map_block bv offset bsize) 1;
          mret (Some (p, Inode INODE_MAGIC1 (i32 uid) (i32 gid) mode ia 0 now now
                            (Some (e, Etc None 0))
                            (DS (replicate (Z.to_nat NUM_DIRECT_BLOCKS) 0) 0 0 0)))
      end
  end.

Definition myfs_free_inode (ia : Z) : M St Z :=
  bsize ← bsize_of;
  _ ← in_inode_map (UnSetBV (i32 ia));
  i ← myfs;
  let offset := i32 (Z.quot (Z.quot ia 8) bsize) in
  bv ← in_inode_map get;
  _ ← write_blocks (inode_map_start (dsb i) + offset) (map_block bv offset bsize) 1;
  mret 0.

(** Block and offset of an inode in the table.  [sizeof] is unsigned, so is
    the arithmetic; no inode fits a block is a division by zero. *)
Definition inode_slot (i : myfs_info) (bsize ia : Z) : option (Z * Z) :=
  let per_block := u64 bsize / sizeof_myfs_inode in
  if per_block =? 0 then None else
  Some (i64 (inodes_start (dsb i) + u64 (ia * sizeof_myfs_inode) / u64 bsize),
        i32 ((u64 ia mod per_block) * sizeof_myfs_inode)).

Definition update_inode (mi : myfs_inode) : M St Z :=
  bsize ← bsize_of;
  i ← myfs;
  '(addr, offset) ← opt (inode_slot i bsize (inode_num mi));
  if addr >? inodes_start (dsb i) + num_inode_blocks (dsb i) then hang else
  block ← in_cache (get_block (fd i) addr bsize);
  p ← opt block;
  d ← in_cache (load p);
  d ← opt (write_at offset (encode_inode mi) d);
  _ ← in_cache (store p d);
  _ ← in_cache (mark_blocks_dirty (fd i) addr 1);
  _ ← in_cache (release_block (fd i) addr);
  mret 0.
End inode.

(** ** The inode table

    [slot_block] and [slot_offset]: where inode [ia] is. *)
Definition slot_block (i : myfs_info) (b ia : Z) : Z := inodes_start (dsb i) + ia * 128 / b.
Definition slot_offset (b ia : Z) : Z := ia mod (b / 128) * 128.

(** The 128 bytes of the device that hold inode [ia]. *)
Definition inode_image (m : gmap Z (list byte)) (i : myfs_info) (b ia : Z) : option (list byte) :=
  d ← m !! slot_block i b ia; read_at (slot_offset b ia) 128 d.

Lemma geom_div128 b : geom b -> b = 128 * (b / 128) /\ 1 <= b / 128 <= 512.
Proof.
  intros Hg. pose proof (geom_mod b 7 Hg ltac:(lia)) as H. pose proof (geom_bounds b Hg).
  change (2 ^ 7) with 128 in H. dlia.
Qed.

Lemma slot_offset_bounds b ia : geom b -> 0 <= ia -> 0 <= slot_offset b ia /\ slot_offset b ia + 128 <= b.
Proof.
  intros Hg Hia. destruct (geom_div128 b Hg). unfold slot_offset.
  pose proof (Z.mod_pos_bound ia (b / 128) ltac:(lia)). nia.
Qed.

Lemma slot_index b ia : geom b -> 0 <= ia -> ia * 128 / b = ia / (b / 128).
Proof.
  intros Hg Hia. destruct (geom_div128 b Hg) as [E ?]. rewrite E at 1.
  rewrite (Z.mul_comm 128). apply Z.div_mul_cancel_r; lia.
Qed.

(** Different inodes do not overlap. *)
Lemma slots_disjoint b ia ia' :
  geom b -> 0 <= ia -> 0 <= ia' -> ia <> ia' -> ia * 128 / b = ia' * 128 / b ->
  slot_offset b ia + 128 <= slot_offset b ia' \/ slot_offset b ia' + 128 <= slot_offset b ia.
Proof.
  intros Hg H1 H2 Hne. rewrite !slot_index by done. destruct (geom_div128 b Hg) as [_ Hk].
  unfold slot_offset. intros E.
  pose proof (Z.div_mod ia (b / 128) ltac:(lia)). pose proof (Z.div_mod ia' (b / 128) ltac:(lia)). nia.
Qed.

Section inode_specs.
Context {C : Type} {HC : BlockCache C} {HL : BlockCacheLaws C}.
Abbreviation St := (fs_state C).

(** Inode [ia] has a slot in the table, and a block may be pinned. *)
Record has_slot (s : St) (ia : Z) : Prop := {
  hs_geom : geom (bs s);
  hs_disk : disk_ok s;
  hs_nonneg : 0 <= ia < 2 ^ 31;
  hs_start : 1 <= inodes_start (dsb (fs_info s)) < 2 ^ 31;
  hs_block : slot_block (fs_info s) (bs s) ia < nblk s;
  hs_table : ia * 128 / bs s <= num_inode_blocks (dsb (fs_info s));
  hs_room : (base.size (pins s) < MAX_PINS)%nat;
  hs_quiet : v_unsaved (vw s) = ∅;
}.

Lemma has_slot_block s ia : has_slot s ia -> 1 <= slot_block (fs_info s) (bs s) ia < nblk s.
Proof.
  intros []. split; [|done]. unfold slot_block. pose proof (geom_bounds (bs s) ltac:(done)).
  pose proof (Z.div_pos (ia * 128) (bs s)). lia.
Qed.

Lemma inode_slot_eq s ia :
  has_slot s ia ->
  inode_slot (fs_info s) (bs s) ia = Some (slot_block (fs_info s) (bs s) ia, slot_offset (bs s) ia).
Proof.
  intros Hs. destruct (Hs) as [Hg _ Hia Hst _ _ _ _]. pose proof (geom_bounds _ Hg).
  destruct (geom_div128 _ Hg) as [_ Hk]. unfold inode_slot, sizeof_myfs_inode.
  rewrite (u64_id (bs s)), (u64_id (ia * 128)), (u64_id ia) by lia.
  rewrite (proj2 (Z.eqb_neq _ _)) by lia.
  pose proof (slot_offset_bounds (bs s) ia Hg ltac:(lia)) as Ho. unfold slot_offset in *.
  assert (0 <= ia * 128 / bs s < 2 ^ 38).
  { split; [apply Z.div_pos; lia|apply Z.div_lt_upper_bound; lia]. }
  rewrite i64_id by (unfold in_i64; lia). rewrite i32_id by (unfold in_i32; lia). done.
Qed.

(** [update_inode] writes the image of the inode to its slot, and nothing
    else. *)
Lemma update_inode_spec s mi d :
  has_slot s (inode_num mi) -> length (direct (data mi)) = 6%nat ->
  dat s !! slot_block (fs_info s) (bs s) (inode_num mi) = Some d ->
  wp (update_inode mi)
     (fun r s' => r = 0 /\ disk_ok s' /\
        cstep s s' (<[slot_block (fs_info s) (bs s) (inode_num mi) :=
                       splice (slot_offset (bs s) (inode_num mi)) (encode_inode mi) d]> (dat s))
              (pins s)) s.
Proof.
  intros Hs Hdir Hd. pose proof (hs_disk _ _ Hs) as Hok. pose proof (hs_quiet _ _ Hs) as Hq.
  pose proof (hs_nonneg _ _ Hs). pose proof (has_slot_block _ _ Hs).
  pose proof (slot_offset_bounds (bs s) (inode_num mi) (hs_geom _ _ Hs) ltac:(lia)).
  pose proof (dat_len _ _ _ Hok Hd) as Hlen. pose proof (len_encode_inode mi Hdir) as Henc.
  unfold update_inode. wp_step. apply wp_bsize_of; [done|]. unfold myfs at 1. wp_step. wp_step. wp_step.
  rewrite inode_slot_eq by done. wp_step. rewrite Z.gtb_ltb.
  destruct (Z.ltb_spec (inodes_start (dsb (fs_info s)) + num_inode_blocks (dsb (fs_info s)))
              (slot_block (fs_info s) (bs s) (inode_num mi))) as [Hlt|_].
  { pose proof (hs_table _ _ Hs). unfold slot_block in Hlt. lia. }
  apply (get_block_wp s _ _ _ Hok); [done..|apply Hs|]. intros s1 Hd1 [Hi1 Hh1 Hdat1 Hp1 Hu1].
  wp_step. wp_step. apply (load_wp s1 _ _ Hd1) with d; [congruence|multiset_solver|congruence|].
  rewrite write_at_Some by lia. wp_step. wp_step.
  apply (save_release_wp s1 _ _ _ _ _ (pins s)); [done|congruence|done|set_solver|..].
  { rewrite len_splice by lia. rewrite Hlen. symmetry. by apply bs_info. }
  intros s2 Hd2 [Hi2 Hh2 Hdat2 Hp2 Hu2]. apply wp_ret. split; [done|]. split; [done|].
  split; try congruence. set_solver.
Qed.

Lemma image_after_update s mi d :
  has_slot s (inode_num mi) -> length (direct (data mi)) = 6%nat ->
  dat s !! slot_block (fs_info s) (bs s) (inode_num mi) = Some d ->
  let m' := <[slot_block (fs_info s) (bs s) (inode_num mi) :=
               splice (slot_offset (bs s) (inode_num mi)) (encode_inode mi) d]> (dat s) in
  inode_image m' (fs_info s) (bs s) (inode_num mi) = Some (encode_inode mi) /\
  (forall ia, 0 <= ia -> ia <> inode_num mi ->
     inode_image m' (fs_info s) (bs s) ia = inode_image (dat s) (fs_info s) (bs s) ia).
Proof.
  intros Hs Hdir Hd m'. subst m'. pose proof (hs_nonneg _ _ Hs). pose proof (hs_geom _ _ Hs) as Hg.
  pose proof (slot_offset_bounds (bs s) (inode_num mi) Hg ltac:(lia)).
  pose proof (dat_len _ _ _ (hs_disk _ _ Hs) Hd) as Hlen. pose proof (len_encode_inode mi Hdir) as Henc.
  unfold inode_image. split.
  - rewrite lookup_insert_eq. cbn. rewrite read_at_Some by (rewrite ?len_splice; lia).
    f_equal. apply slice_splice_same; lia.
  - intros ia Hia Hne. destruct (decide (slot_block (fs_info s) (bs s) ia
      = slot_block (fs_info s) (bs s) (inode_num mi))) as [E|E].
    + rewrite E, lookup_insert_eq, Hd. cbn. pose proof (slot_offset_bounds (bs s) ia Hg Hia).
      rewrite !read_at_Some by (rewrite ?len_splice; lia). f_equal.
      unfold slot_block in E. pose proof (slots_disjoint (bs s) ia (inode_num mi) Hg Hia ltac:(lia) Hne ltac:(lia)).
      apply slice_splice_disjoint; lia.
    + by rewrite lookup_insert_ne by done.
Qed.

(** C21. [update_inode] stores the image of the inode in its slot of the inode
    table; the slots of all other inodes and all other blocks of the device
    keep their contents, and nothing in memory changes. *)
Theorem update_inode_exact (s : St) (mi : myfs_inode)
  (Hslot : has_slot s (inode_num mi)) (Hdir : length (direct (data mi)) = 6%nat) :
  wp (update_inode mi)
     (fun r s' =>
        r = 0 /\ disk_ok s' /\ fs_info s' = fs_info s /\ fs_host s' = fs_host s /\ pins s' = pins s /\
        inode_image (dat s') (fs_info s) (bs s) (inode_num mi) = Some (encode_inode mi) /\
        (forall ia, 0 <= ia -> ia <> inode_num mi ->
           inode_image (dat s') (fs_info s) (bs s) ia = inode_image (dat s) (fs_info s) (bs s) ia) /\
        (forall b, b <> slot_block (fs_info s) (bs s) (inode_num mi) -> dat s' !! b = dat s !! b)) s.
Proof.
  pose proof (has_slot_block _ _ Hslot) as Hb.
  destruct (do_blocks s (hs_disk _ _ Hslot) (slot_block (fs_info s) (bs s) (inode_num mi)) ltac:(lia)) as [d Hd].
  destruct (image_after_update s mi d Hslot Hdir Hd) as [H1 H2].
  eapply wp_mono; [by apply (update_inode_spec s mi d)|]. cbn beta.
  intros r s' (-> & Hok & [Hi Hh Hdat Hp Hu]). rewrite Hdat. split_and!; try done.
  intros b Hne. by rewrite lookup_insert_ne by done.
Qed.
End inode_specs.

Lemma sample_room : (base.size (pins sample) < MAX_PINS)%nat.
Proof. apply (bool_decide_unpack _). vm_compute. exact I. Qed.

Lemma sample_slot : has_slot sample 1.
Proof.
  apply Build_has_slot; try exact sample_geom; try exact sample_disk_ok; try exact sample_room;
    vm_compute; try split; congruence.
Qed.

Lemma update_inode_exact_witness :
  has_slot sample 1 /\
  wp (update_inode (mi_set_mtime 9 sample_inode))
     (fun r s' => r = 0 /\
        inode_image (dat s') sample_info 128 1 = Some (encode_inode (mi_set_mtime 9 sample_inode)) /\
        inode_image (dat s') sample_info 128 2 = Some zero_block) sample.
Proof.
  split; [exact sample_slot|].
  eapply wp_mono; [apply (update_inode_exact sample (mi_set_mtime 9 sample_inode) sample_slot); reflexivity|].
  cbv beta. intros r s' (H0 & _ & _ & _ & _ & H1 & H2 & _). split; [exact H0|]. split; [exact H1|].
  etransitivity; [apply (H2 2); vm_compute; congruence|]. vm_compute. reflexivity.
Defined.
