(* ===== verification/DStream.v ===== *)
(** * DStream: reading, writing, growing and shrinking files (dstream.c)

    A data stream maps the blocks of a file through six direct blocks, one
    block of indirect blocks and a double-indirect block.  The routines take
    the in-memory inode and return it as they leave it. *)

From S2P Require Import Prelude Bytes Host BlockCache RamDisk BitVector Myfs Io Sample TmpBlocks Bitmap Inode.
Local Open Scope Z_scope.

(** ** The ranges of the block map; the sizes with [sizeof] are unsigned. *)
Definition ptrs_per_block (bsize : Z) : Z := u64 bsize / sizeof_fs_off_t.
Definition MAX_DIRECT_RANGE (bsize : Z) : Z := i32 (NUM_DIRECT_BLOCKS * bsize).
Definition INDIRECT_SIZE (bsize : Z) : Z := u64 (ptrs_per_block bsize * bsize).
Definition MAX_INDIRECT_RANGE (bsize : Z) : Z := u64 (INDIRECT_SIZE bsize + MAX_DIRECT_RANGE bsize).
Definition MAX_DOUBLE_INDIRECT_RANGE (bsize : Z) : Z :=
  u64 (ptrs_per_block bsize * INDIRECT_SIZE bsize + MAX_INDIRECT_RANGE bsize).

(** [(size + bsize - 1) & ~(bsize - 1)] *)
Definition round_up (size bsize : Z) : Z :=
  Z.land (i64 (size + bsize - 1)) (Z.lnot (bsize - 1)).

Section dstream.
Context {C : Type} `{BlockCache C}.
Abbreviation St := (fs_state C).

Definition myfs_init_data_stream (mi : myfs_inode) : M St Z := mret 0.

(** [block[index]] of an array of [fs_off_t] in a cached block. *)
Definition get_entry (block : option bptr) (index : Z) : M St Z :=
  p ← opt block;
  d ← in_cache (load p);
  w ← opt (read_at (8 * index) 8 d);
  mret (sle w).

Definition set_entry (block : option bptr) (index addr : Z) : M St unit :=
  p ← opt block;
  d ← in_cache (load p);
  d ← opt (write_at (8 * index) (le_bytes 8 addr) d);
  in_cache (store p d).

(** [myfs_die] on an address outside the device. *)
Definition check_addr (addr : Z) : M St unit :=
  i ← myfs;
  if (addr <? 0) || (addr >? num_blocks (dsb i)) then hang else mret tt.

Definition file_pos_to_disk_addr (mi : myfs_inode) (pos : Z) : M St Z :=
  bsize ← bsize_of;
  i ← myfs;
  if pos <? i32 (NUM_DIRECT_BLOCKS * bsize) then
    addr ← opt (chunk_at (direct (data mi)) (i32 (Z.quot pos bsize)));
    _ ← check_addr addr;
    mret addr
  else if u64 pos <? MAX_INDIRECT_RANGE bsize then
    block ← in_cache (get_block (fd i) (indirect (data mi)) bsize);
    addr ← get_entry block ((pos - MAX_DIRECT_RANGE bsize) / bsize);
    _ ← in_cache (release_block (fd i) (indirect (data mi)));
    _ ← check_addr addr;
    mret addr
  else if u64 pos <? MAX_DOUBLE_INDIRECT_RANGE bsize then
    let rel := u64 (pos - MAX_INDIRECT_RANGE bsize) in
    let index := i32 (rel / INDIRECT_SIZE bsize) in
    block ← in_cache (get_block (fd i) (double_indirect (data mi)) bsize);
    tmp ← get_entry block index;
    _ ← in_cache (release_block (fd i) (double_indirect (data mi)));
    block ← in_cache (get_block (fd i) tmp bsize);
    addr ← get_entry block ((rel mod INDIRECT_SIZE bsize) / u64 bsize);
    _ ← in_cache (release_block (fd i) tmp);
    _ ← check_addr addr;
    mret (-1)
  else mret (-1).

(** ** Reading *)

(** The main loop from [pos], with [done] of [len] bytes read: the error and
    the bytes it appends. *)
Fixpoint read_loop (fuel : nat) (mi : myfs_inode) (pos done len : Z) (acc : list byte)
  : M St (Z * list byte) :=
  if done >=? len then mret (0, acc) else
  match fuel with
  | O => hang
  | Datatypes.S fuel =>
      bsize ← bsize_of;
      i ← myfs;
      addr ← file_pos_to_disk_addr mi pos;
      if addr <? 0 then mret (EINVAL, acc) else
      block ← in_cache (get_block (fd i) addr bsize);
      match block with
      | None => mret (EINVAL, acc)
      | Some p =>
          let amt := if len - done <? u64 bsize then len - done else bsize in
          d ← in_cache (load p);
          d ← opt (read_at 0 amt d);
          _ ← in_cache (release_block (fd i) addr);
          read_loop fuel mi (pos + amt) (done + amt) len (acc ++ d)
      end
  end.

(** Rounds of the loop over [len] bytes: at most this many when a block is
    not empty. *)
Definition loop_fuel (len bsize : Z) : nat := Z.to_nat (len / bsize + 2).

(** Error, [*_len], and the bytes put at the start of the buffer. *)
Definition myfs_read_data_stream (mi : myfs_inode) (pos len : Z) : M St (Z * Z * list byte) :=
  bsize ← bsize_of;
  i ← myfs;
  if len =? 0 then mret (0, 0, []) else
  let pos := if pos <? 0 then 0 else pos in
  if pos >? size (data mi) then mret (0, 0, []) else
  let len := if u64 (pos + len) >? u64 (size (data mi)) then u64 (size (data mi) - pos) else len in
  addr ← file_pos_to_disk_addr mi pos;
  if addr <? 0 then mret (EINVAL, 0, []) else
  if negb (Z.rem pos bsize =? 0) then
    block ← in_cache (get_block (fd i) addr bsize);
    match block with
    | None => mret (EINVAL, 0, [])
    | Some p =>
        let offset := Z.rem pos bsize in
        let amt := if len <? u64 (bsize - offset) then len else bsize - offset in
        d ← in_cache (load p);
        d ← opt (read_at offset amt d);
        _ ← in_cache (release_block (fd i) addr);
        '(err, d) ← read_loop (loop_fuel len bsize) mi (pos + amt) amt len d;
        mret (err, Bytes.len d, d)
    end
  else
    '(err, d) ← read_loop (loop_fuel len bsize) mi pos 0 len [];
    mret (err, Bytes.len d, d).

(** ** Growing *)

Definition allocate_one (mi : myfs_inode) : M St (Z * Z) :=
  '(err, _, addr) ← myfs_allocate_blocks (inode_num mi) 1 0 EXACT_ALLOCATION;
  if negb (err =? 0) then mret (err, addr)
  else if addr <? 0 then mret (ENOSPC, addr)
  else mret (0, addr).

Definition mi_set_size (n : Z) (mi : myfs_inode) : myfs_inode := mi_set_data (ds_set_size n (data mi)) mi.
Definition mi_set_direct (k addr : Z) (mi : myfs_inode) : myfs_inode :=
  mi_set_data (ds_set_direct (<[Z.to_nat k := addr]> (direct (data mi))) (data mi)) mi.
Definition mi_set_indirect (addr : Z) (mi : myfs_inode) : myfs_inode :=
  mi_set_data (ds_set_indirect addr (data mi)) mi.
Definition mi_set_double (addr : Z) (mi : myfs_inode) : myfs_inode :=
  mi_set_data (ds_set_double addr (data mi)) mi.

(** The loop that fills the direct blocks: error, [i], and the inode. *)
Fixpoint grow_direct (fuel : nat) (needed i index bsize : Z) (mi : myfs_inode)
  : M St (Z * Z * myfs_inode) :=
  match fuel with
  | O => mret (0, i, mi)
  | Datatypes.S fuel =>
      if (i <? needed) && (index <? NUM_DIRECT_BLOCKS) then
        '(err, addr) ← allocate_one mi;
        if negb (err =? 0) then mret (err, i, mi) else
        let mi := mi_set_direct index addr mi in
        let mi := mi_set_size (size (data mi) + bsize) mi in
        grow_direct fuel needed (i + 1) (index + 1) bsize mi
      else mret (0, i, mi)
  end.

(** The loop that fills the indirect block. *)
Fixpoint grow_indirect (fuel : nat) (block : option bptr) (needed i index max_index bsize : Z)
    (mi : myfs_inode) : M St (Z * myfs_inode) :=
  match fuel with
  | O => mret (0, mi)
  | Datatypes.S fuel =>
      if (i <? needed) && (index <? max_index) then
        '(err, addr) ← allocate_one mi;
        if negb (err =? 0) then mret (err, mi) else
        _ ← set_entry block index addr;
        let mi := mi_set_size (size (data mi) + bsize) mi in
        grow_indirect fuel block needed (i + 1) (index + 1) max_index bsize mi
      else mret (0, mi)
  end.

(** The step that starts once the direct blocks are in use. *)
Definition grow_tail (new_size needed i bsize : Z) (mi : myfs_inode) : M St (Z * myfs_inode) :=
  inf ← myfs;
  let max_index := ptrs_per_block bsize in
  r ← (if (size (data mi) >=? MAX_DIRECT_RANGE bsize) &&
          (u64 (size (data mi)) <? MAX_INDIRECT_RANGE bsize) then
         '(err, block, mi) ←
           (if indirect (data mi) =? 0 then
              '(err, addr) ← allocate_one mi;
              if negb (err =? 0) then mret (err, None, mi) else
              block ← in_cache (get_empty_block (fd inf) addr bsize);
              mret (0, block, mi_set_indirect addr mi)
            else
              block ← in_cache (get_block (fd inf) (indirect (data mi)) bsize);
              mret (0, block, mi));
         if negb (err =? 0) then mret (Some err, mi) else
         let index := i32 (Z.quot (size (data mi) - MAX_DIRECT_RANGE bsize) bsize) in
         '(err, mi) ← grow_indirect (Z.to_nat max_index) block needed i index max_index bsize mi;
         if negb (err =? 0) then mret (Some err, mi) else
         _ ← in_cache (mark_blocks_dirty (fd inf) (indirect (data mi)) 1);
         _ ← in_cache (release_block (fd inf) (indirect (data mi)));
         if size (data mi) >=? new_size then mret (Some 0, mi_set_size new_size mi)
         else mret (None, mi)
       else mret (None, mi));
  match r with
  | (Some err, mi) => mret (err, mi)
  | (None, mi) =>
      if u64 (size (data mi)) >=? MAX_INDIRECT_RANGE bsize then mret (E2BIG, mi)
      else mret (-1, mi)
  end.

Definition grow_dstream (mi : myfs_inode) (new_size : Z) : M St (Z * myfs_inode) :=
  bsize ← bsize_of;
  if u64 new_size >? MAX_DOUBLE_INDIRECT_RANGE bsize then mret (E2BIG, mi) else
  let cur_size_rounded := round_up (size (data mi)) bsize in
  let new_size_rounded := round_up new_size bsize in
  if cur_size_rounded =? new_size_rounded then mret (0, mi_set_size new_size mi) else
  let needed := Z.quot (new_size_rounded - cur_size_rounded) bsize in
  let mi := mi_set_size cur_size_rounded mi in
  if cur_size_rounded <? MAX_DIRECT_RANGE bsize then
    let index := i32 (Z.quot cur_size_rounded bsize) in
    d ← opt (chunk_at (direct (data mi)) index);
    if negb (d =? 0) then hang else
    '(err, i, mi) ← grow_direct (Z.to_nat NUM_DIRECT_BLOCKS) needed 0 index bsize mi;
    if negb (err =? 0) then mret (err, mi) else
    if size (data mi) >=? new_size then mret (0, mi_set_size new_size mi)
    else grow_tail new_size needed i bsize mi
  else grow_tail new_size needed 0 bsize mi.

(** ** Shrinking *)

(** Frees the entries of a second-level block from [j] on. *)
Fixpoint free_entries2 (fuel : nat) (block2 : option bptr) (j max_index : Z) : M St unit :=
  match fuel with
  | O => mret tt
  | Datatypes.S fuel =>
      if j <? max_index then
        addr ← get_entry block2 j;
        _ ← myfs_free_blocks addr 1;
        free_entries2 fuel block2 (j + 1) max_index
      else mret tt
  end.

Fixpoint shrink_double_loop (fuel : nat) (block : option bptr) (i j max_index bsize : Z)
    (free_block2 : bool) : M St unit :=
  match fuel with
  | O => mret tt
  | Datatypes.S fuel =>
      if i <? max_index then
        inf ← myfs;
        entry ← get_entry block i;
        if entry =? 0 then mret tt else
        block2 ← in_cache (get_block (fd inf) entry bsize);
        _ ← (match block2 with
             | Some _ =>
                 _ ← free_entries2 (Z.to_nat max_index) block2 j max_index;
                 _ ← in_cache (release_block (fd inf) entry); mret tt
             | None => mret tt
             end);
        _ ← (if free_block2 then _ ← myfs_free_blocks entry 1; mret tt else mret tt);
        shrink_double_loop fuel block (i + 1) 0 max_index bsize true
      else mret tt
  end.

Definition shrink_double_indirect (mi : myfs_inode) (new_size_rounded : Z) : M St myfs_inode :=
  bsize ← bsize_of;
  inf ← myfs;
  let max_index := ptrs_per_block bsize in
  block ← in_cache (get_block (fd inf) (double_indirect (data mi)) bsize);
  match block with
  | None => hang
  | Some _ =>
      let '(i, j) :=
        if u64 new_size_rounded <? MAX_INDIRECT_RANGE bsize then (0, 0)
        else let rel := u64 (new_size_rounded - MAX_INDIRECT_RANGE bsize) in
             (rel / INDIRECT_SIZE bsize, (rel mod INDIRECT_SIZE bsize) / u64 bsize) in
      let free_block := i =? 0 in
      let free_block2 := j =? 0 in
      _ ← shrink_double_loop (Z.to_nat max_index) block i j max_index bsize free_block2;
      _ ← in_cache (release_block (fd inf) (double_indirect (data mi)));
      if free_block then
        _ ← myfs_free_blocks (double_indirect (data mi)) 1;
        mret (mi_set_double 0 mi)
      else mret mi
  end.

(** Frees the entries of the indirect block from [i] up to a zero. *)
Fixpoint free_entries (fuel : nat) (block : option bptr) (i max_index : Z) : M St unit :=
  match fuel with
  | O => mret tt
  | Datatypes.S fuel =>
      if i <? max_index then
        entry ← get_entry block i;
        if entry =? 0 then mret tt else
        _ ← myfs_free_blocks entry 1;
        free_entries fuel block (i + 1) max_index
      else mret tt
  end.

(** Frees the direct blocks from [i] up to a zero, clearing them. *)
Fixpoint free_direct (fuel : nat) (i : Z) (mi : myfs_inode) : M St myfs_inode :=
  match fuel with
  | O => mret mi
  | Datatypes.S fuel =>
      if i <? NUM_DIRECT_BLOCKS then
        entry ← opt (chunk_at (direct (data mi)) i);
        if entry =? 0 then mret mi else
        _ ← myfs_free_blocks entry 1;
        free_direct fuel (i + 1) (mi_set_direct i 0 mi)
      else mret mi
  end.

Definition shrink_indirect (mi : myfs_inode) (new_size_rounded : Z) : M St myfs_inode :=
  bsize ← bsize_of;
  inf ← myfs;
  let max_index := ptrs_per_block bsize in
  let i := if new_size_rounded >? MAX_DIRECT_RANGE bsize
           then Z.quot (new_size_rounded - MAX_DIRECT_RANGE bsize) bsize else 0 in
  block ← in_cache (get_block (fd inf) (indirect (data mi)) bsize);
  _ ← free_entries (Z.to_nat max_index) block i max_index;
  _ ← in_cache (release_block (fd inf) (indirect (data mi)));
  if i =? 0 then
    _ ← myfs_free_blocks (indirect (data mi)) 1;
    mret (mi_set_indirect 0 mi)
  else mret mi.

Definition shrink_dstream (mi : myfs_inode) (new_size : Z) : M St (Z * myfs_inode) :=
  bsize ← bsize_of;
  if u64 new_size >? MAX_DOUBLE_INDIRECT_RANGE bsize then mret (E2BIG, mi) else
  let cur_size_rounded := round_up (size (data mi)) bsize in
  let new_size_rounded := round_up (new_size - 1) bsize in
  if cur_size_rounded =? new_size_rounded then mret (0, mi_set_size new_size mi) else
  mi ← (if (u64 new_size_rounded <? MAX_DOUBLE_INDIRECT_RANGE bsize) &&
           negb (double_indirect (data mi) =? 0)
        then shrink_double_indirect mi new_size_rounded else mret mi);
  mi ← (if (u64 new_size_rounded <? MAX_INDIRECT_RANGE bsize) &&
           negb (indirect (data mi) =? 0)
        then shrink_indirect mi new_size_rounded else mret mi);
  mi ← (if new_size_rounded <? MAX_DIRECT_RANGE bsize
        then free_direct (Z.to_nat NUM_DIRECT_BLOCKS) (Z.quot new_size_rounded bsize) mi
        else mret mi);
  mret (0, mi_set_size new_size mi).

(** ** Writing *)

(** Error, [*_len]; [buf] is the source buffer, read at [done]. *)
Fixpoint write_loop (fuel : nat) (mi : myfs_inode) (pos done len : Z) (buf : list byte)
  : M St (Z * Z) :=
  if done >=? len then mret (0, done) else
  match fuel with
  | O => hang
  | Datatypes.S fuel =>
      bsize ← bsize_of;
      i ← myfs;
      addr ← file_pos_to_disk_addr mi pos;
      if addr <? 0 then mret (EINVAL, done) else
      block ← in_cache (get_block (fd i) addr bsize);
      match block with
      | None => mret (EINVAL, done)
      | Some p =>
          let amt := if len - done <? u64 bsize then len - done else bsize in
          src ← opt (read_at done amt buf);
          d ← in_cache (load p);
          d ← opt (write_at 0 src d);
          _ ← in_cache (store p d);
          _ ← in_cache (mark_blocks_dirty (fd i) addr 1);
          _ ← in_cache (release_block (fd i) addr);
          write_loop fuel mi (pos + amt) (done + amt) len buf
      end
  end.

(** The last steps of a write. *)
Definition write_finish (mi : myfs_inode) (err done : Z) : M St (Z * Z * myfs_inode) :=
  if negb (err =? 0) then mret (err, done, mi) else
  now ← in_host time_null;
  let mi := mi_set_mtime now mi in
  _ ← update_inode mi;
  mret (0, done, mi).

(** The data part of a write, once the stream is long enough. *)
Definition write_data (mi : myfs_inode) (pos len : Z) (buf : list byte)
  : M St (Z * Z * myfs_inode) :=
  bsize ← bsize_of;
  i ← myfs;
  addr ← file_pos_to_disk_addr mi pos;
  if addr <? 0 then mret (EINVAL, 0, mi) else
  if negb (Z.rem pos bsize =? 0) then
    block ← in_cache (get_block (fd i) addr bsize);
    match block with
    | None => mret (EINVAL, 0, mi)
    | Some p =>
        let offset := Z.rem pos bsize in
        let amt := if len <? u64 (bsize - offset) then len else bsize - offset in
        src ← opt (read_at 0 amt buf);
        d ← in_cache (load p);
        d ← opt (write_at offset src d);
        _ ← in_cache (store p d);
        _ ← in_cache (mark_blocks_dirty (fd i) addr 1);
        _ ← in_cache (release_block (fd i) addr);
        '(err, done) ← write_loop (loop_fuel len bsize) mi (pos + amt) amt len buf;
        write_finish mi err done
    end
  else
    '(err, done) ← write_loop (loop_fuel len bsize) mi pos 0 len buf;
    write_finish mi err done.

(** Error, [*_len] and the inode. *)
Definition myfs_write_data_stream (mi : myfs_inode) (pos : Z) (buf : list byte) (len : Z)
  : M St (Z * Z * myfs_inode) :=
  if len =? 0 then mret (0, 0, mi) else
  let pos := if pos <? 0 then 0 else pos in
  '(err, mi) ←
    (if u64 (pos + len) >? u64 (size (data mi)) then
       '(err, mi) ← grow_dstream mi (i64 (pos + len));
       if negb (err =? 0) then mret (err, mi) else
       now ← in_host time_null;
       let mi := mi_set_mtime now mi in
       _ ← update_inode mi;
       _ ← write_super_block;
       mret (0, mi)
     else mret (0, mi));
  if negb (err =? 0) then mret (err, len, mi) else
  write_data mi pos len buf.

Definition myfs_set_file_size (mi : myfs_inode) (new_size : Z) : M St (Z * myfs_inode) :=
  if new_size =? size (data mi) then mret (0, mi) else
  '(err, mi) ← (if new_size <? size (data mi) then shrink_dstream mi new_size
                else grow_dstream mi new_size);
  if err =? 0 then
    now ← in_host time_null;
    let mi := mi_set_mtime now mi in
    _ ← update_inode mi;
    _ ← write_super_block;
    mret (0, mi)
  else mret (err, mi).

Definition myfs_free_data_stream (mi : myfs_inode) : M St (Z * myfs_inode) :=
  '(_, mi) ← shrink_dstream mi 0;
  _ ← write_super_block;
  mret (0, mi).
End dstream.

(** ** The ranges for those block sizes *)
Section ranges.
Context (b : Z).
Hypothesis Hg : geom b.

Lemma ptrs_per_block_eq : ptrs_per_block b = b / 8.
Proof.
  unfold ptrs_per_block, sizeof_fs_off_t. pose proof (geom_bounds b Hg). by rewrite u64_id by lia.
Qed.
Lemma MAX_DIRECT_eq : MAX_DIRECT_RANGE b = 6 * b.
Proof.
  unfold MAX_DIRECT_RANGE, NUM_DIRECT_BLOCKS. pose proof (geom_bounds b Hg).
  apply i32_id. unfold in_i32. lia.
Qed.
Lemma INDIRECT_SIZE_eq : INDIRECT_SIZE b = b / 8 * b /\ 0 < b / 8 * b <= 2 ^ 29.
Proof.
  unfold INDIRECT_SIZE. rewrite ptrs_per_block_eq. pose proof (geom_bounds b Hg).
  assert (16 <= b / 8 <= 8192) by dlia. assert (0 < b / 8 * b <= 2 ^ 29) by nia.
  split; [|done]. apply u64_id. lia.
Qed.
Lemma MAX_INDIRECT_eq : MAX_INDIRECT_RANGE b = b / 8 * b + 6 * b.
Proof.
  unfold MAX_INDIRECT_RANGE. pose proof (geom_bounds b Hg). destruct INDIRECT_SIZE_eq as [-> ?].
  rewrite MAX_DIRECT_eq. apply u64_id. lia.
Qed.
Lemma MAX_DOUBLE_eq : MAX_DOUBLE_INDIRECT_RANGE b = b / 8 * (b / 8 * b) + (b / 8 * b + 6 * b)
                      /\ MAX_DOUBLE_INDIRECT_RANGE b <= 2 ^ 43.
Proof.
  pose proof (geom_bounds b Hg). unfold MAX_DOUBLE_INDIRECT_RANGE. rewrite ptrs_per_block_eq, MAX_INDIRECT_eq.
  destruct INDIRECT_SIZE_eq as [-> ?].
  assert (16 <= b / 8 <= 8192) by dlia. assert (0 <= b / 8 * (b / 8 * b) <= 2 ^ 42) by nia.
  rewrite u64_id by lia. lia.
Qed.
End ranges.

(** ** The contents of a file

    [fblock m mi k]: the address of the [k]-th block of the file, from the
    inode and the blocks [m] of the device. *)
Definition fblock (m : gmap Z (list byte)) (mi : myfs_inode) (k : Z) : option Z :=
  if k <? 6 then chunk_at (direct (data mi)) k
  else d ← m !! indirect (data mi); w ← read_at (8 * (k - 6)) 8 d; Some (sle w).

Definition fdata (m : gmap Z (list byte)) (mi : myfs_inode) (k : Z) : list byte :=
  default [] (a ← fblock m mi k; m !! a).

(** The first [n] blocks of the file, one after the other. *)
Definition fblocks (m : gmap Z (list byte)) (mi : myfs_inode) (n : nat) : list (list byte) :=
  fdata m mi <$> seqZ 0 (Z.of_nat n).
Definition fstream (m : gmap Z (list byte)) (mi : myfs_inode) (n : nat) : list byte :=
  mjoin (fblocks m mi n).

Section file_specs.
Context {C : Type} {HC : BlockCache C} {HL : BlockCacheLaws C}.
Abbreviation St := (fs_state C).

(** The first [n] blocks of a file are mapped, inside the device. *)
Record mapped (s : St) (mi : myfs_inode) (n : nat) : Prop := {
  mp_geom : geom (bs s);
  mp_disk : disk_ok s;
  mp_direct : length (direct (data mi)) = 6%nat;
  mp_range : Z.of_nat n <= 6 + bs s / 8;
  mp_blocks : forall k, 0 <= k < Z.of_nat n -> exists a, fblock (dat s) mi k = Some a /\ 1 <= a < nblk s;
  mp_ind : 6 < Z.of_nat n -> 1 <= indirect (data mi) < nblk s;
  mp_room : (base.size (pins s) < MAX_PINS)%nat;
  mp_quiet : v_unsaved (vw s) = ∅;
}.

(** It depends on the state only through these. *)
Lemma mapped_frame s s' mi n :
  mapped s mi n -> disk_ok s' -> fs_info s' = fs_info s -> pins s' = pins s ->
  v_unsaved (vw s') ⊆ v_unsaved (vw s) ->
  (forall k, 0 <= k < Z.of_nat n -> fblock (dat s') mi k = fblock (dat s) mi k) -> mapped s' mi n.
Proof.
  intros [] Hd Hi Hp Hu Hf. split; rewrite ?(bs_info s s' Hi), ?(nblk_info s s' Hi), ?Hp; try done.
  - intros k Hk. rewrite Hf by done. eauto.
  - set_solver.
Qed.

Lemma mapped_step s s' mi n :
  mapped s mi n -> disk_ok s' -> cstep s s' (dat s) (pins s) -> mapped s' mi n.
Proof. intros Hm Hd [Hi Hh Hdat Hp Hu]. apply (mapped_frame s); try done. intros. by rewrite Hdat. Qed.

Lemma mapped_le s mi n n' : mapped s mi n -> (n' <= n)%nat -> mapped s mi n'.
Proof. intros [] ?. split; try done; [lia|intros; eauto with lia|lia]. Qed.

Lemma fdata_len s mi n k : mapped s mi n -> 0 <= k < Z.of_nat n -> len (fdata (dat s) mi k) = bs s.
Proof.
  intros Hm Hk. destruct (mp_blocks _ _ _ Hm k Hk) as (a & Ha & Hr).
  unfold fdata. rewrite Ha. cbn. destruct (do_blocks s (mp_disk _ _ _ Hm) a ltac:(lia)) as [d Hd].
  rewrite Hd. cbn. eapply dat_len; [apply Hm|done].
Qed.

Lemma fblocks_len s mi n : mapped s mi n -> Forall (fun x => len x = bs s) (fblocks (dat s) mi n).
Proof.
  intros Hm. apply Forall_fmap, Forall_forall. intros k Hk. apply list_elem_of_In, elem_of_seqZ in Hk.
  eapply fdata_len; [done|lia].
Qed.

Lemma fblocks_lookup m mi n k : 0 <= k < Z.of_nat n -> fblocks m mi n !! Z.to_nat k = Some (fdata m mi k).
Proof.
  intros Hk. unfold fblocks. rewrite list_lookup_fmap, lookup_seqZ_lt by lia. cbn. do 2 f_equal. lia.
Qed.

Lemma len_fstream s mi n : mapped s mi n -> len (fstream (dat s) mi n) = Z.of_nat n * bs s.
Proof.
  intros Hm. unfold fstream. rewrite (len_join (bs s)) by (by apply fblocks_len).
  unfold fblocks. rewrite len_fmap. unfold len. by rewrite length_seqZ, Nat2Z.id.
Qed.

(** A slice of the stream inside one block. *)
Lemma slice_fstream s mi n k off amt :
  mapped s mi n -> 0 <= k < Z.of_nat n -> 0 <= off -> 0 <= amt -> off + amt <= bs s ->
  slice (k * bs s + off) amt (fstream (dat s) mi n) = slice off amt (fdata (dat s) mi k).
Proof.
  intros Hm Hk Ho Ha Hoa. unfold fstream. rewrite <- (Z2Nat.id k) at 1 by lia.
  apply slice_join; [|by apply fblocks_len|by apply fblocks_lookup|done..].
  pose proof (geom_bounds _ (mp_geom _ _ _ Hm)). lia.
Qed.

Lemma check_addr_wp (s : St) a (Q : unit -> St -> Prop) :
  0 <= a < nblk s -> Q tt s -> wp (check_addr a) Q s.
Proof.
  intros Ha HQ. unfold check_addr, myfs. wp_step. wp_step. fold (nblk s).
  rewrite Z.gtb_ltb. destruct (Z.ltb_spec a 0), (Z.ltb_spec (nblk s) a); try lia. by apply wp_ret.
Qed.

(** [file_pos_to_disk_addr] finds the block that maps a position. *)
Lemma file_pos_spec s mi n pos :
  mapped s mi n -> 0 <= pos -> pos / bs s < Z.of_nat n ->
  wp (file_pos_to_disk_addr mi pos)
     (fun a s' => fblock (dat s) mi (pos / bs s) = Some a /\ 1 <= a < nblk s /\
                  disk_ok s' /\ cstep s s' (dat s) (pins s)) s.
Proof.
  intros Hm Hpos Hn. pose proof (mp_geom _ _ _ Hm) as Hg. pose proof (geom_bounds _ Hg) as Hb.
  pose proof (mp_disk _ _ _ Hm) as Hd.
  assert (0 <= pos / bs s) as Hk by (apply Z.div_pos; lia).
  destruct (mp_blocks _ _ _ Hm (pos / bs s)) as (a & Ha & Hr); [lia|].
  unfold file_pos_to_disk_addr, myfs. wp_step. apply wp_bsize_of; [done|]. wp_step. wp_step.
  change (i32 (NUM_DIRECT_BLOCKS * bs s)) with (MAX_DIRECT_RANGE (bs s)).
  rewrite MAX_DIRECT_eq, MAX_INDIRECT_eq by done.
  pose proof (Z.div_mod pos (bs s) ltac:(lia)) as Hdm. pose proof (Z.mod_pos_bound pos (bs s) ltac:(lia)).
  unfold fblock in Ha |- *. destruct (Z.ltb_spec pos (6 * bs s)) as [Hlt|Hge].
  - assert (pos / bs s < 6) by (apply Z.div_lt_upper_bound; lia).
    rewrite (proj2 (Z.ltb_lt (pos / bs s) 6)) in Ha |- * by done.
    rewrite Z.quot_div_nonneg by lia. rewrite i32_id by (unfold in_i32; lia). rewrite Ha.
    wp_step. wp_step. wp_step. apply check_addr_wp; [lia|].
    apply wp_ret. split_and!; try done; lia.
  - assert (6 <= pos / bs s) by (apply Z.div_le_lower_bound; lia).
    rewrite (proj2 (Z.ltb_ge (pos / bs s) 6)) in Ha |- * by done.
    pose proof (mp_range _ _ _ Hm). pose proof (mp_ind _ _ _ Hm ltac:(lia)) as Hi.
    destruct (INDIRECT_SIZE_eq _ Hg) as [_ Hsz].
    assert (pos < bs s / 8 * bs s + 6 * bs s) as Hlt by nia.
    rewrite u64_id by lia. rewrite (proj2 (Z.ltb_lt _ _)) by done.
    destruct (do_blocks s Hd (indirect (data mi)) ltac:(lia)) as [d Hdi]. rewrite Hdi in Ha |- *. cbn in Ha |- *.
    assert ((pos - 6 * bs s) / bs s = pos / bs s - 6) as ->.
    { replace (pos - 6 * bs s) with (pos + (-6) * bs s) by lia. rewrite Z.div_add by lia. lia. }
    unfold get_entry. destruct (read_at (8 * (pos / bs s - 6)) 8 d) as [w|] eqn:Hw; [|done]. cbn in Ha.
    apply (get_block_wp s _ _ _ Hd); [done..|apply Hm|]. intros s1 Hd1 [Hi1 Hh1 Hdat1 Hp1 Hu1].
    wp_step. wp_step. wp_step. apply (load_wp s1 _ _ Hd1) with d; [congruence|multiset_solver|congruence|].
    rewrite Hw. wp_step. wp_step. wp_step.
    pose proof (mp_quiet _ _ _ Hm).
    apply (release_block_wp s1); [done|congruence|multiset_solver|set_solver|].
    intros s2 Hd2 [Hi2 Hh2 Hdat2 Hp2 Hu2]. injection Ha as Ha. wp_step.
    apply check_addr_wp; [rewrite (nblk_info s) by congruence; lia|].
    apply wp_ret. split; [done|]. split; [lia|]. split; [done|].
    split; try congruence; [rewrite Hp2, Hp1; multiset_solver|set_solver].
Qed.

(** *** Reading *)

(** What a routine that only reads leaves. *)
Definition read_only_step (s s' : St) : Prop := disk_ok s' /\ cstep s s' (dat s) (pins s).

Lemma read_only_trans s s1 s2 : read_only_step s s1 -> read_only_step s1 s2 -> read_only_step s s2.
Proof.
  intros [_ H1] [Hd H2]. split; [done|].
  rewrite (cs_data _ _ _ _ H1), (cs_pins _ _ _ _ H1) in H2. by apply (cstep_trans _ _ _ _ _ _ _ H1).
Qed.

Lemma mapped_read_only s s' mi n : mapped s mi n -> read_only_step s s' -> mapped s' mi n.
Proof. intros Hm []. by eapply mapped_step. Qed.

(** One block of a file, looked up and read. *)
Lemma read_block_wp {A} s mi n pos off amt (k : list byte -> M St A) e1 e2 Q :
  mapped s mi n -> 0 <= pos -> pos / bs s < Z.of_nat n -> 0 <= off -> 0 <= amt -> off + amt <= bs s ->
  (forall s', read_only_step s s' ->
      wp (k (slice (pos / bs s * bs s + off) amt (fstream (dat s) mi n))) Q s') ->
  wp (addr ← file_pos_to_disk_addr mi pos;
      if addr <? 0 then e1 else
      block ← in_cache (get_block (fd (fs_info s)) addr (bs s));
      match block with
      | None => e2
      | Some p =>
          d ← in_cache (load p); d ← opt (read_at off amt d);
          _ ← in_cache (release_block (fd (fs_info s)) addr);
          k d
      end) Q s.
Proof.
  intros Hm Hpos Hn Ho Ha Hoa Hk. wp_step.
  eapply wp_mono; [by apply (file_pos_spec s mi n)|]. cbn. intros a s1 (Hfb & Hra & Hd1 & Hs1).
  pose proof (mapped_step _ _ _ _ Hm Hd1 Hs1) as Hm1. destruct Hs1 as [Hi1 Hh1 Hdat1 Hp1 Hu1].
  rewrite (proj2 (Z.ltb_ge a 0)) by lia.
  assert (Hbs1 : bs s1 = bs s) by by apply bs_info.
  apply (get_block_wp s1 _ _ _ Hd1); [congruence|done|rewrite (nblk_info s) by done; lia|apply Hm1|].
  intros s2 Hd2 [Hi2 Hh2 Hdat2 Hp2 Hu2].
  destruct (do_blocks s (mp_disk _ _ _ Hm) a ltac:(lia)) as [d Hda].
  apply (load_wp s2 _ _ Hd2) with d; [congruence|multiset_solver|congruence|].
  pose proof (dat_len s a d (mp_disk _ _ _ Hm) Hda) as Hlen.
  rewrite read_at_Some by lia. wp_step. wp_step.
  pose proof (mp_quiet _ _ _ Hm).
  apply (release_block_wp s2); [done|congruence|multiset_solver|set_solver|].
  intros s3 Hd3 [Hi3 Hh3 Hdat3 Hp3 Hu3].
  replace (slice off amt d) with (slice (pos / bs s * bs s + off) amt (fstream (dat s) mi n)).
  - apply Hk. split; [done|]. split; try congruence; [rewrite Hp3, Hp2, Hp1; multiset_solver|set_solver].
  - assert (0 <= pos / bs s) by (apply Z.div_pos; [lia|pose proof (do_bs s (mp_disk _ _ _ Hm)); lia]).
    rewrite (slice_fstream s) by (done || lia). unfold fdata. rewrite Hfb. cbn. by rewrite Hda.
Qed.

Lemma read_loop_spec fuel s mi n pos done_ len_ acc :
  mapped s mi n -> 0 <= pos -> (done_ < len_ -> pos mod bs s = 0) -> 0 <= done_ <= len_ -> len_ < 2 ^ 63 ->
  pos + (len_ - done_) <= Z.of_nat n * bs s -> len_ - done_ <= Z.of_nat fuel * bs s ->
  wp (read_loop fuel mi pos done_ len_ acc)
     (fun (r : Z * list byte) (s' : St) => r = (0, acc ++ slice pos (len_ - done_) (fstream (dat s) mi n)) /\
                  read_only_step s s') s.
Proof.
  revert s pos done_ acc. induction fuel as [|fuel IH]; intros s pos dn acc Hm Hpos Hal Hdn Hl Hend Hf;
    cbn [read_loop]; rewrite Z.geb_leb; destruct (Z.leb_spec len_ dn).
  1, 3: replace (len_ - dn) with 0 by lia; rewrite slice_0, app_nil_r; apply wp_ret; split; [done|];
    split; [apply Hm|apply cstep_refl].
  { lia. }
  pose proof (geom_bounds _ (mp_geom _ _ _ Hm)) as Hb.
  wp_step. apply wp_bsize_of; [apply Hm|]. unfold myfs at 1. wp_step. wp_step.
  set (amt := if len_ - dn <? u64 (bs s) then len_ - dn else bs s).
  assert (amt = Z.min (len_ - dn) (bs s)) as Hamt.
  { unfold amt. rewrite u64_id by lia. destruct (Z.ltb_spec (len_ - dn) (bs s)); lia. }
  assert (pos / bs s * bs s = pos) as Hpk by dlia.
  eapply (read_block_wp s mi n pos 0 amt); [done|done|..].
  { apply Z.div_lt_upper_bound; [lia|]. lia. }
  1-3: lia.
  intros s1 Hs1. rewrite Hpk, Z.add_0_r.
  pose proof (mapped_read_only _ _ _ _ Hm Hs1) as Hm1.
  assert (bs s1 = bs s) as Hbs1 by (apply bs_info, Hs1).
  assert (dat s1 = dat s) as Hdat1 by apply Hs1.
  eapply wp_mono.
  - apply (IH s1 (pos + amt) (dn + amt)); rewrite ?Hbs1; try done; try lia.
    intros Hmore. replace amt with (1 * bs s) by lia. rewrite Z_mod_plus_full. apply Hal. lia.
  - intros r s2 [-> Hs2]. rewrite Hdat1. split; [|by eapply read_only_trans].
    rewrite <- app_assoc, <- slice_app_split by lia. do 3 f_equal. lia.
Qed.

(** The clamping of a request to the file. *)
Definition clamp (size pos len : Z) : Z := if pos + len >? size then size - pos else len.

Lemma read_data_spec s mi n pos len_ :
  mapped s mi n -> 0 <= size (data mi) <= Z.of_nat n * bs s -> 0 <= len_ < 2 ^ 63 ->
  let p := Z.max 0 pos in
  0 < len_ -> p < size (data mi) ->
  wp (myfs_read_data_stream mi pos len_)
     (fun r s' => r = (0, clamp (size (data mi)) p len_,
                       slice p (clamp (size (data mi)) p len_) (fstream (dat s) mi n)) /\
                  read_only_step s s') s.
Proof.
  intros Hm Hsz Hlen p Hl0 Hp. pose proof (geom_bounds _ (mp_geom _ _ _ Hm)) as Hb.
  pose proof (mp_range _ _ _ Hm) as Hr.
  assert (size (data mi) < 2 ^ 31) as Hsz' by dlia.
  unfold myfs_read_data_stream. wp_step. apply wp_bsize_of; [apply Hm|]. unfold myfs at 1. wp_step. wp_step.
  replace (if pos <? 0 then 0 else pos) with p by (unfold p; destruct (Z.ltb_spec pos 0); lia).
  rewrite (proj2 (Z.eqb_neq len_ 0)) by lia. rewrite !Z.gtb_ltb, (proj2 (Z.ltb_ge _ p)) by lia.
  set (n' := clamp (size (data mi)) p len_).
  replace (if u64 (size (data mi)) <? u64 (p + len_) then u64 (size (data mi) - p) else len_) with n'.
  2: { unfold n', clamp. rewrite !u64_id, Z.gtb_ltb by lia. done. }
  assert (0 < n' /\ p + n' <= size (data mi)) as [Hn' Hpn'].
  { unfold n', clamp. rewrite Z.gtb_ltb. destruct (Z.ltb_spec (size (data mi)) (p + len_)); lia. }
  assert (0 <= p) as Hp0 by (unfold p; lia). clearbody p n'.
  assert (p / bs s < Z.of_nat n) as Hpk by (apply Z.div_lt_upper_bound; lia).
  rewrite Z.rem_mod_nonneg by lia.
  pose proof (Z.mod_pos_bound p (bs s) ltac:(lia)) as Hmod.
  pose proof (Z.div_mod p (bs s) ltac:(lia)) as Hdm.
  assert (n' / bs s * bs s + 2 * bs s >= n') as Hfuel by dlia.
  assert (0 <= n' / bs s) by (apply Z.div_pos; lia).
  destruct (Z.eqb_spec (p mod bs s) 0) as [Hal|Hal]; cbn [negb].
  - wp_step. eapply wp_mono; [by apply (file_pos_spec s mi n)|]. cbn. intros a s1 (Hfb & Hra & Hd1 & Hs1).
    rewrite (proj2 (Z.ltb_ge a 0)) by lia. pose proof (mapped_step _ _ _ _ Hm Hd1 Hs1) as Hm1.
    assert (bs s1 = bs s) as Hbs1 by (apply bs_info, Hs1). wp_step. eapply wp_mono.
    { apply (read_loop_spec (loop_fuel n' (bs s)) s1 mi n); rewrite ?Hbs1; try done; unfold loop_fuel; lia. }
    intros r s2 [-> Hs2]. cbn beta iota. wp_step. rewrite app_nil_l, Z.sub_0_r, (cs_data _ _ _ _ Hs1).
    pose proof (len_fstream _ _ _ Hm). rewrite len_slice by lia.
    split; [done|]. by apply (read_only_trans _ s1).
  - set (amt := if n' <? u64 (bs s - p mod bs s) then n' else bs s - p mod bs s).
    assert (amt = Z.min n' (bs s - p mod bs s)) as Hamt.
    { unfold amt. rewrite u64_id by lia. destruct (Z.ltb_spec n' (bs s - p mod bs s)); lia. }
    eapply (read_block_wp s mi n p (p mod bs s) amt); [done|lia..|].
    intros s1 Hs1. pose proof (mapped_read_only _ _ _ _ Hm Hs1) as Hm1.
    assert (bs s1 = bs s) as Hbs1 by (apply bs_info, Hs1).
    assert (dat s1 = dat s) as Hdat1 by apply Hs1.
    replace (p / bs s * bs s + p mod bs s) with p by lia. wp_step. eapply wp_mono.
    { apply (read_loop_spec (loop_fuel n' (bs s)) s1 mi n); rewrite ?Hbs1; try done; unfold loop_fuel; try lia.
      intros Hmore. replace (p + amt) with ((p / bs s + 1) * bs s) by lia. apply Z.mod_mul. lia. }
    intros r s2 [-> Hs2]. cbn beta iota. wp_step. rewrite Hdat1, <- slice_app_split by lia.
    replace (amt + (n' - amt)) with n' by lia.
    pose proof (len_fstream _ _ _ Hm). rewrite len_slice by lia.
    split; [done|]. by apply (read_only_trans _ s1).
Qed.

(** *** Writing inside a file *)

(** The blocks of the file are different blocks, none of them the indirect
    block. *)
Record separate (m : gmap Z (list byte)) (mi : myfs_inode) (n : nat) : Prop := {
  sep_inj : forall j k a, 0 <= j < Z.of_nat n -> 0 <= k < Z.of_nat n ->
    fblock m mi j = Some a -> fblock m mi k = Some a -> j = k;
  sep_ind : forall k a, 0 <= k < Z.of_nat n -> 6 < Z.of_nat n -> fblock m mi k = Some a ->
    a <> indirect (data mi);
}.

Lemma fblock_insert m mi n k a d :
  separate m mi n -> 0 <= k < Z.of_nat n -> fblock m mi k = Some a ->
  forall j, 0 <= j < Z.of_nat n -> fblock (<[a := d]> m) mi j = fblock m mi j.
Proof.
  intros Hs Hk Ha j Hj. unfold fblock. destruct (Z.ltb_spec j 6); [done|].
  rewrite lookup_insert_ne; [done|]. apply (sep_ind _ _ _ Hs k); [done|lia|done].
Qed.

Lemma fblocks_insert m mi n k a d :
  separate m mi n -> 0 <= k < Z.of_nat n -> fblock m mi k = Some a ->
  fblocks (<[a := d]> m) mi n = <[Z.to_nat k := d]> (fblocks m mi n).
Proof.
  intros Hs Hk Ha. apply list_eq. intros i.
  assert (length (fblocks m mi n) = n) as Hl.
  { unfold fblocks. rewrite length_fmap, length_seqZ. lia. }
  destruct (decide (i < n)%nat) as [Hi|Hi].
  - replace i with (Z.to_nat (Z.of_nat i)) by lia. rewrite fblocks_lookup by lia.
    unfold fdata at 1. rewrite (fblock_insert m mi n k a d Hs Hk Ha) by lia.
    destruct (decide (Z.of_nat i = k)) as [E|E].
    + rewrite E, Ha. cbn. rewrite lookup_insert_eq. cbn. rewrite list_lookup_insert_eq by lia. done.
    + rewrite list_lookup_insert_ne by lia. rewrite fblocks_lookup by lia. f_equal.
      unfold fdata. destruct (fblock m mi (Z.of_nat i)) as [a'|] eqn:Ha'; [|done]. cbn.
      rewrite lookup_insert_ne; [done|]. intros ->. apply E.
      by apply (sep_inj _ _ _ Hs (Z.of_nat i) k a'); try lia.
  - rewrite !lookup_ge_None_2; [done|..]; rewrite ?length_insert; [lia|].
    unfold fblocks. rewrite length_fmap, length_seqZ. lia.
Qed.

(** [s'] is [s] with [src] written at [pos] of the file: only its data blocks
    changed. *)
Record wrote (s s' : St) (mi : myfs_inode) (n : nat) (pos : Z) (src : list byte) : Prop := {
  wr_disk : disk_ok s';
  wr_step : cstep s s' (dat s') (pins s);
  wr_stream : fstream (dat s') mi n = splice pos src (fstream (dat s) mi n);
  wr_map : forall k, 0 <= k < Z.of_nat n -> fblock (dat s') mi k = fblock (dat s) mi k;
  wr_frame : forall b, (forall k, 0 <= k < Z.of_nat n -> fblock (dat s) mi k <> Some b) ->
    dat s' !! b = dat s !! b;
}.

Lemma mapped_wrote s s' mi n pos src : mapped s mi n -> wrote s s' mi n pos src -> mapped s' mi n.
Proof.
  intros Hm [Hd [Hi _ _ Hp Hu] _ Hmap _]. by apply (mapped_frame s).
Qed.

Lemma separate_wrote s s' mi n pos src :
  separate (dat s) mi n -> wrote s s' mi n pos src -> separate (dat s') mi n.
Proof.
  intros [H1 H2] [_ _ _ Hm _]. split.
  - intros j k a Hj Hk. rewrite !Hm by done. by apply H1.
  - intros k a Hk Hn. rewrite Hm by done. by apply H2.
Qed.

Lemma wrote_trans s s1 s2 mi n pos d1 d2 :
  mapped s mi n -> wrote s s1 mi n pos d1 -> wrote s1 s2 mi n (pos + len d1) d2 ->
  0 <= pos -> pos + len d1 + len d2 <= Z.of_nat n * bs s ->
  wrote s s2 mi n pos (d1 ++ d2).
Proof.
  intros Hm [Hd1 Hs1 Hst1 Hm1 Hf1] [Hd2 Hs2 Hst2 Hm2 Hf2] Hpos Hlen. split.
  - done.
  - rewrite (cs_pins _ _ _ _ Hs1) in Hs2. by apply (cstep_trans _ _ _ _ _ _ _ Hs1).
  - rewrite Hst2, Hst1. apply splice_app; [done|]. rewrite (len_fstream _ _ _ Hm). lia.
  - intros k Hk. by rewrite Hm2, Hm1 by done.
  - intros b Hb. rewrite Hf2; [by apply Hf1|]. intros k Hk. rewrite Hm1 by done. by apply Hb.
Qed.

(** One block of a file, looked up and changed. *)
Lemma write_block_wp {A} s mi n pos off amt so buf (k : Z -> M St A) e1 e2 Q :
  mapped s mi n -> separate (dat s) mi n ->
  0 <= pos -> pos / bs s < Z.of_nat n -> 0 <= off -> 0 <= amt -> off + amt <= bs s ->
  0 <= so -> so + amt <= len buf ->
  (forall s', wrote s s' mi n (pos / bs s * bs s + off) (slice so amt buf) -> wp (k 0) Q s') ->
  wp (addr ← file_pos_to_disk_addr mi pos;
      if addr <? 0 then e1 else
      block ← in_cache (get_block (fd (fs_info s)) addr (bs s));
      match block with
      | None => e2
      | Some p =>
          src ← opt (read_at so amt buf);
          d ← in_cache (load p); d ← opt (write_at off src d);
          _ ← in_cache (store p d);
          _ ← in_cache (mark_blocks_dirty (fd (fs_info s)) addr 1);
          r ← in_cache (release_block (fd (fs_info s)) addr);
          k r
      end) Q s.
Proof.
  intros Hm Hsep Hpos Hn Ho Ha Hoa Hso Hsl Hk. wp_step.
  eapply wp_mono; [by apply (file_pos_spec s mi n)|]. cbn. intros a s1 (Hfb & Hra & Hd1 & Hs1).
  pose proof (mapped_step _ _ _ _ Hm Hd1 Hs1) as Hm1. destruct Hs1 as [Hi1 Hh1 Hdat1 Hp1 Hu1].
  rewrite (proj2 (Z.ltb_ge a 0)) by lia.
  assert (Hbs1 : bs s1 = bs s) by by apply bs_info.
  apply (get_block_wp s1 _ _ _ Hd1); [congruence|done|rewrite (nblk_info s) by done; lia|apply Hm1|].
  intros s2 Hd2 [Hi2 Hh2 Hdat2 Hp2 Hu2].
  rewrite read_at_Some by lia. wp_step. wp_step.
  destruct (do_blocks s (mp_disk _ _ _ Hm) a ltac:(lia)) as [d Hda].
  apply (load_wp s2 _ _ Hd2) with d; [congruence|multiset_solver|congruence|].
  pose proof (dat_len s a d (mp_disk _ _ _ Hm) Hda) as Hlen.
  assert (len (slice so amt buf) = amt) as Hsrc by (apply len_slice; lia).
  rewrite write_at_Some by lia. wp_step. wp_step.
  pose proof (mp_quiet _ _ _ Hm).
  apply (save_release_wp s2 _ _ _ _ _ (pins s)); [done|congruence|congruence|set_solver|..].
  { rewrite len_splice by lia. rewrite Hlen. symmetry. apply bs_info. congruence. }
  intros s3 Hd3 [Hi3 Hh3 Hdat3 Hp3 Hu3]. apply Hk.
  assert (dat s3 = <[a := splice off (slice so amt buf) d]> (dat s)) as Hdat by congruence.
  assert (0 <= pos / bs s) as Hk0 by (apply Z.div_pos; [lia|pose proof (do_bs s (mp_disk _ _ _ Hm)); lia]).
  split.
  - done.
  - split; try congruence. set_solver.
  - rewrite Hdat. unfold fstream. rewrite (fblocks_insert _ _ _ (pos / bs s)) by (done || lia).
    rewrite <- (Z2Nat.id (pos / bs s)) at 2 by lia.
    rewrite (splice_join (bs s)) with (x := d).
    + done.
    + pose proof (do_bs s (mp_disk _ _ _ Hm)). lia.
    + by apply fblocks_len.
    + rewrite fblocks_lookup by lia. unfold fdata. rewrite Hfb. cbn. by rewrite Hda.
    + lia.
    + lia.
  - intros j Hj. rewrite Hdat. eapply fblock_insert; [done| |done..]. lia.
  - intros b Hb. rewrite Hdat. rewrite lookup_insert_ne; [done|]. intros ->. by apply (Hb (pos / bs s)); [lia|].
Qed.

Lemma write_loop_spec fuel s mi n pos done_ len_ buf :
  mapped s mi n -> separate (dat s) mi n -> 0 <= pos -> (done_ < len_ -> pos mod bs s = 0) ->
  0 <= done_ <= len_ -> len_ < 2 ^ 63 -> len_ <= len buf ->
  pos + (len_ - done_) <= Z.of_nat n * bs s -> len_ - done_ <= Z.of_nat fuel * bs s ->
  wp (write_loop fuel mi pos done_ len_ buf)
     (fun (r : Z * Z) (s' : St) => r = (0, len_) /\ wrote s s' mi n pos (slice done_ (len_ - done_) buf)) s.
Proof.
  revert s pos done_. induction fuel as [|fuel IH]; intros s pos dn Hm Hsep Hpos Hal Hdn Hl Hbuf Hend Hf;
    cbn [write_loop]; rewrite Z.geb_leb; destruct (Z.leb_spec len_ dn).
  1, 3: replace (len_ - dn) with 0 by lia; rewrite slice_0; apply wp_ret; split; [f_equal; lia|];
    split; [apply Hm|apply cstep_refl|by rewrite splice_nil|done..].
  { lia. }
  pose proof (geom_bounds _ (mp_geom _ _ _ Hm)) as Hb.
  wp_step. apply wp_bsize_of; [apply Hm|]. unfold myfs at 1. wp_step. wp_step.
  set (amt := if len_ - dn <? u64 (bs s) then len_ - dn else bs s).
  assert (amt = Z.min (len_ - dn) (bs s)) as Hamt.
  { unfold amt. rewrite u64_id by lia. destruct (Z.ltb_spec (len_ - dn) (bs s)); lia. }
  clearbody amt. assert (pos / bs s * bs s = pos) as Hpk by dlia.
  eapply (write_block_wp s mi n pos 0 amt dn buf); [done|done|done|..].
  { apply Z.div_lt_upper_bound; [lia|]. lia. }
  1-5: lia.
  intros s1 Hs1. rewrite Hpk, Z.add_0_r in Hs1.
  pose proof (mapped_wrote _ _ _ _ _ _ Hm Hs1) as Hm1.
  pose proof (separate_wrote _ _ _ _ _ _ Hsep Hs1) as Hsep1.
  assert (bs s1 = bs s) as Hbs1 by (apply bs_info, (wr_step _ _ _ _ _ _ Hs1)).
  eapply wp_mono.
  - apply (IH s1 (pos + amt) (dn + amt)); rewrite ?Hbs1; try done; try lia.
    intros Hmore. replace amt with (1 * bs s) by lia. rewrite Z_mod_plus_full. apply Hal. lia.
  - intros r s2 [-> Hs2]. split; [done|].
    replace (len_ - dn) with (amt + (len_ - (dn + amt))) by lia. rewrite slice_app_split by lia.
    apply (wrote_trans s s1); rewrite ?len_slice by lia; (done || lia).
Qed.

(** *** Whole writes *)

(** Block [b] holds none of the file's data and none of its block map. *)
Definition outside (m : gmap Z (list byte)) (mi : myfs_inode) (n : nat) (b : Z) : Prop :=
  (forall k, 0 <= k < Z.of_nat n -> fblock m mi k <> Some b) /\
  (6 < Z.of_nat n -> b <> indirect (data mi)).

Lemma fblock_outside m mi n b d k :
  outside m mi n b -> 0 <= k < Z.of_nat n -> fblock (<[b := d]> m) mi k = fblock m mi k.
Proof.
  intros [_ Hi] Hk. unfold fblock. destruct (Z.ltb_spec k 6); [done|].
  rewrite lookup_insert_ne; [done|]. apply Hi. lia.
Qed.

Lemma fstream_outside m mi n b d :
  outside m mi n b -> fstream (<[b := d]> m) mi n = fstream m mi n.
Proof.
  intros Hout. unfold fstream, fblocks. f_equal. apply list_fmap_ext. intros i k Hk.
  apply lookup_seqZ in Hk as [-> Hi]. unfold fdata.
  rewrite (fblock_outside _ _ _ _ _ _ Hout) by lia.
  destruct (fblock m mi (0 + Z.of_nat i)) as [a|] eqn:Ha; [|done]. cbn.
  rewrite lookup_insert_ne; [done|]. intros ->. by apply (proj1 Hout (0 + Z.of_nat i)); [lia|].
Qed.

Lemma outside_wrote s s' mi n pos src b :
  wrote s s' mi n pos src -> outside (dat s) mi n b -> outside (dat s') mi n b.
Proof.
  intros Hw [H1 H2]. split; [|done]. intros k Hk. rewrite (wr_map _ _ _ _ _ _ Hw) by done. by apply H1.
Qed.

(** The block map only reads the data stream of the inode. *)
Lemma fstream_data m mi mi' n : data mi' = data mi -> fstream m mi' n = fstream m mi n.
Proof.
  intros E. unfold fstream, fblocks. f_equal. apply list_fmap_ext. intros i k _.
  unfold fdata, fblock. by rewrite E.
Qed.

Lemma mapped_data s mi mi' n : data mi' = data mi -> mapped s mi n -> mapped s mi' n.
Proof.
  intros E []. split; rewrite ?E; try done. intros k Hk. unfold fblock. rewrite E. by apply mp_blocks0.
Qed.

(** A file with a slot in the inode table, apart from its own blocks. *)
Record file_ok (s : St) (mi : myfs_inode) (n : nat) : Prop := {
  fo_mapped : mapped s mi n;
  fo_separate : separate (dat s) mi n;
  fo_size : 0 <= size (data mi) <= Z.of_nat n * bs s;
  fo_slot : has_slot s (inode_num mi);
  fo_outside : outside (dat s) mi n (slot_block (fs_info s) (bs s) (inode_num mi));
}.

(** What a write in place leaves: the stream, and the inode on disk. *)
Record write_result (s s' : St) (mi : myfs_inode) (n : nat) (pos : Z) (src : list byte) : Prop := {
  wres_ok : file_ok s' mi n;
  wres_info : fs_info s' = fs_info s;
  wres_host : fs_host s' = fs_host s;
  wres_pins : pins s' = pins s;
  wres_stream : fstream (dat s') mi n = splice pos src (fstream (dat s) mi n);
  wres_inode : inode_image (dat s') (fs_info s) (bs s) (inode_num mi)
               = Some (encode_inode (mi_set_mtime (h_time (fs_host s)) mi));
  wres_frame : forall b, outside (dat s) mi n b -> b <> slot_block (fs_info s) (bs s) (inode_num mi) ->
    dat s' !! b = dat s !! b;
}.

Lemma write_finish_spec s s1 mi n pos src done_ :
  file_ok s mi n -> wrote s s1 mi n pos src ->
  wp (write_finish mi 0 done_)
     (fun (r : Z * Z * myfs_inode) (s' : St) =>
        r = (0, done_, mi_set_mtime (h_time (fs_host s)) mi) /\ write_result s s' mi n pos src) s1.
Proof.
  intros [Hm Hsep Hsz Hslot Hout] Hw. pose proof (wr_step _ _ _ _ _ _ Hw) as [Hi1 Hh1 _ Hp1 Hu1].
  pose proof (outside_wrote _ _ _ _ _ _ _ Hw Hout) as Hout1.
  pose proof (mapped_wrote _ _ _ _ _ _ Hm Hw) as Hm1.
  pose proof (separate_wrote _ _ _ _ _ _ Hsep Hw) as Hsep1.
  assert (bs s1 = bs s) as Hbs1 by by apply bs_info.
  assert (has_slot s1 (inode_num mi)) as Hslot1.
  { destruct Hslot. split; rewrite ?Hi1, ?Hbs1, ?Hp1, ?(nblk_info s) by done; try done; [apply Hm1|apply Hm1]. }
  set (mi' := mi_set_mtime (h_time (fs_host s)) mi).
  set (sb := slot_block (fs_info s) (bs s) (inode_num mi)) in *.
  unfold write_finish. cbn [Z.eqb negb]. wp_step. apply wp_in_host, wp_gets. wp_step.
  replace (upd_host (fs_host s1) s1) with s1 by (by destruct s1). rewrite Hh1. fold mi'.
  destruct (do_blocks s1 (wr_disk _ _ _ _ _ _ Hw) sb) as [d Hd].
  { pose proof (has_slot_block s1 _ Hslot1) as Hb. rewrite Hi1, Hbs1 in Hb. fold sb in Hb. lia. }
  assert (dat s1 !! slot_block (fs_info s1) (bs s1) (inode_num mi') = Some d) as Hd'.
  { rewrite Hi1, Hbs1. exact Hd. }
  eapply wp_mono; [apply (update_inode_spec s1 mi' d Hslot1); [apply Hm|exact Hd']|]. cbn beta.
  intros _ s2 (-> & Hd2 & Hs2). pose proof Hs2 as [Hi2 Hh2 Hdat2 Hp2 Hu2].
  pose proof (image_after_update s1 mi' d Hslot1 (mp_direct _ _ _ Hm) Hd') as [Himg _].
  rewrite Hi1, Hbs1 in Hdat2, Himg. change (inode_num mi') with (inode_num mi) in Hdat2, Himg. fold sb in Hdat2.
  set (d' := splice _ _ d) in Hdat2.
  assert (bs s2 = bs s) as Hbs2 by (apply bs_info; congruence).
  assert (forall k, 0 <= k < Z.of_nat n -> fblock (dat s2) mi k = fblock (dat s1) mi k) as Hmap.
  { intros k Hk. rewrite Hdat2. by apply (fblock_outside _ _ n). }
  apply wp_ret. split; [done|]. split; try congruence.
  - split; try done.
    + by apply (mapped_frame s1).
    + destruct Hsep1 as [H1 H2]. split.
      * intros j k a Hj Hk. rewrite !Hmap by done. by apply H1.
      * intros k a Hk Hn. rewrite Hmap by done. by apply H2.
    + by rewrite Hbs2.
    + destruct Hslot. split; rewrite ?Hi2, ?Hi1, ?Hbs2, ?Hp2, ?Hp1, ?(nblk_info s) by congruence; try done.
      pose proof (mp_quiet _ _ _ Hm1). set_solver.
    + rewrite Hi2, Hi1, Hbs2. fold sb. destruct Hout1 as [H1 H2]. split; [|done].
      intros k Hk. rewrite Hmap by done. by apply H1.
  - rewrite Hdat2, fstream_outside by done. apply Hw.
  - rewrite Hdat2. exact Himg.
  - intros b [Hb _] Hne. rewrite Hdat2, lookup_insert_ne by done. by apply Hw.
Qed.

Lemma write_data_spec s mi n pos len_ buf :
  file_ok s mi n -> 0 <= pos -> 0 < len_ <= len buf -> pos + len_ <= Z.of_nat n * bs s ->
  wp (write_data mi pos len_ buf)
     (fun (r : Z * Z * myfs_inode) (s' : St) =>
        r = (0, len_, mi_set_mtime (h_time (fs_host s)) mi) /\
        write_result s s' mi n pos (slice 0 len_ buf)) s.
Proof.
  intros Hok Hp0 Hlen Hend. pose proof Hok as [Hm Hsep _ _ _].
  pose proof (geom_bounds _ (mp_geom _ _ _ Hm)) as Hb. pose proof (mp_range _ _ _ Hm) as Hr.
  assert (pos / bs s < Z.of_nat n) as Hpk by (apply Z.div_lt_upper_bound; lia).
  assert (Z.of_nat n * bs s < 2 ^ 31) as Hsz' by dlia.
  unfold write_data. wp_step. apply wp_bsize_of; [apply Hm|]. unfold myfs at 1. wp_step. wp_step.
  rewrite Z.rem_mod_nonneg by lia.
  pose proof (Z.mod_pos_bound pos (bs s) ltac:(lia)) as Hmod.
  pose proof (Z.div_mod pos (bs s) ltac:(lia)) as Hdm.
  assert (len_ / bs s * bs s + 2 * bs s >= len_) as Hfuel by dlia.
  assert (0 <= len_ / bs s) by (apply Z.div_pos; lia).
  destruct (Z.eqb_spec (pos mod bs s) 0) as [Hal|Hal]; cbn [negb].
  - wp_step. eapply wp_mono; [by apply (file_pos_spec s mi n)|]. cbn. intros a s1 (Hfb & Hra & Hd1 & Hs1).
    rewrite (proj2 (Z.ltb_ge a 0)) by lia. pose proof (mapped_step _ _ _ _ Hm Hd1 Hs1) as Hm1.
    assert (bs s1 = bs s) as Hbs1 by (apply bs_info, Hs1).
    assert (dat s1 = dat s) as Hdat1 by apply Hs1. wp_step. eapply wp_mono.
    { apply (write_loop_spec (loop_fuel len_ (bs s)) s1 mi n); rewrite ?Hbs1, ?Hdat1; try done;
        unfold loop_fuel; lia. }
    intros r s2 [-> Hs2]. cbn beta iota. rewrite Z.sub_0_r in Hs2. apply (write_finish_spec s s2); [done|].
    destruct Hs2 as [H1 H2 H3 H4 H5]. rewrite Hdat1 in H3, H4, H5. split; try done.
    rewrite (cs_pins _ _ _ _ Hs1) in H2. by apply (cstep_trans _ _ _ _ _ _ _ Hs1).
  - set (amt := if len_ <? u64 (bs s - pos mod bs s) then len_ else bs s - pos mod bs s).
    assert (amt = Z.min len_ (bs s - pos mod bs s)) as Hamt.
    { unfold amt. rewrite u64_id by lia. destruct (Z.ltb_spec len_ (bs s - pos mod bs s)); lia. }
    clearbody amt.
    eapply (write_block_wp s mi n pos (pos mod bs s) amt 0 buf); [done|done|lia..|].
    intros s1 Hs1. replace (pos / bs s * bs s + pos mod bs s) with pos in Hs1 by lia.
    pose proof (mapped_wrote _ _ _ _ _ _ Hm Hs1) as Hm1.
    pose proof (separate_wrote _ _ _ _ _ _ Hsep Hs1) as Hsep1.
    assert (bs s1 = bs s) as Hbs1 by (apply bs_info, (wr_step _ _ _ _ _ _ Hs1)).
    wp_step. eapply wp_mono.
    { apply (write_loop_spec (loop_fuel len_ (bs s)) s1 mi n); rewrite ?Hbs1; try done; unfold loop_fuel; try lia.
      intros Hmore. replace (pos + amt) with ((pos / bs s + 1) * bs s) by lia. apply Z.mod_mul. lia. }
    intros r s2 [-> Hs2]. cbn beta iota. apply (write_finish_spec s s2); [done|].
    replace len_ with (amt + (len_ - amt)) at 1 by lia. rewrite slice_app_split by lia.
    apply (wrote_trans s s1); rewrite ?len_slice by lia; (done || lia).
Qed.

(** A write that does not go past the end of the file does not grow it. *)
Lemma write_in_place_spec s mi n pos len_ buf :
  file_ok s mi n -> let p := Z.max 0 pos in
  0 < len_ <= len buf -> p + len_ <= size (data mi) ->
  wp (myfs_write_data_stream mi pos buf len_)
     (fun (r : Z * Z * myfs_inode) (s' : St) =>
        r = (0, len_, mi_set_mtime (h_time (fs_host s)) mi) /\
        write_result s s' mi n p (slice 0 len_ buf)) s.
Proof.
  intros Hok p Hlen Hend. pose proof (fo_size _ _ _ Hok) as Hsz. pose proof (fo_mapped _ _ _ Hok) as Hm.
  pose proof (geom_bounds _ (mp_geom _ _ _ Hm)) as Hb. pose proof (mp_range _ _ _ Hm) as Hr.
  assert (Z.of_nat n * bs s < 2 ^ 31) as Hsz' by dlia.
  unfold myfs_write_data_stream. rewrite (proj2 (Z.eqb_neq len_ 0)) by lia.
  replace (if pos <? 0 then 0 else pos) with p by (unfold p; destruct (Z.ltb_spec pos 0); lia).
  assert (0 <= p) by (unfold p; lia). clearbody p.
  rewrite !u64_id, Z.gtb_ltb, (proj2 (Z.ltb_ge _ _)) by lia.
  wp_step. wp_step. cbn [Z.eqb negb]. apply write_data_spec; try done; lia.
Qed.
End file_specs.

(** ** The sample file *)

Lemma sample_index k : 0 <= k < Z.of_nat 2 -> k = 0 \/ k = 1.
Proof. lia. Qed.

Lemma sample_mapped : mapped sample sample_inode 2.
Proof.
  apply Build_mapped.
  - exact sample_geom.
  - exact sample_disk_ok.
  - reflexivity.
  - vm_compute. discriminate.
  - intros k [-> | ->]%sample_index; eexists; (split; [reflexivity|]); vm_compute; split; congruence.
  - intros H. vm_compute in H. discriminate.
  - exact sample_room.
  - reflexivity.
Qed.

Lemma sample_file_ok : file_ok sample sample_inode 2.
Proof.
  apply Build_file_ok.
  - exact sample_mapped.
  - split; [|intros ??? H; vm_compute in H; discriminate].
    intros j k a [-> | ->]%sample_index [-> | ->]%sample_index; vm_compute; congruence.
  - vm_compute. split; congruence.
  - exact sample_slot.
  - split; [|intros H; vm_compute in H; discriminate].
    intros k [-> | ->]%sample_index; vm_compute; congruence.
Qed.

(** ** Properties *)

Section properties.
Context {C : Type} {HC : BlockCache C} {HL : BlockCacheLaws C}.
Abbreviation St := (fs_state C).

(** C3. Reading a mapped file at a position inside it succeeds: the result is
    the bytes of the file from that position, as many as were asked for or as
    there are up to the end, and nothing on the device changes. *)
Theorem read_returns_contents (s : St) (mi : myfs_inode) (n : nat) (pos len_ : Z)
  (Hm : mapped s mi n) (Hsz : 0 <= size (data mi) <= Z.of_nat n * bs s)
  (Hlen : 0 < len_ < 2 ^ 63) (Hpos : Z.max 0 pos < size (data mi)) :
  wp (myfs_read_data_stream mi pos len_)
     (fun r s' =>
        let p := Z.max 0 pos in let m := clamp (size (data mi)) p len_ in
        r = (0, m, slice p m (fstream (dat s) mi n)) /\ read_only_step s s') s.
Proof. apply read_data_spec; (done || lia). Qed.

(** C2. A write inside a file puts the bytes at their position in the file's
    contents and changes nothing else: other blocks of the device, the map of
    the file and its size stay, and the inode on disk gets the new
    modification time. *)
Theorem write_in_place_exact (s : St) (mi : myfs_inode) (n : nat) (pos len_ : Z) (buf : list byte)
  (Hok : file_ok s mi n) (Hlen : 0 < len_ <= len buf)
  (Hpos : Z.max 0 pos + len_ <= size (data mi)) :
  wp (myfs_write_data_stream mi pos buf len_)
     (fun (r : Z * Z * myfs_inode) (s' : St) =>
        r = (0, len_, mi_set_mtime (h_time (fs_host s)) mi) /\
        write_result s s' mi n (Z.max 0 pos) (slice 0 len_ buf)) s.
Proof. by apply write_in_place_spec. Qed.

(** C1. What is written inside a file is what a read of the same range
    returns. *)
Theorem write_then_read (s : St) (mi : myfs_inode) (n : nat) (pos len_ : Z) (buf : list byte)
  (Hok : file_ok s mi n) (Hlen : 0 < len_ <= len buf)
  (Hpos : Z.max 0 pos + len_ <= size (data mi)) :
  wp ('(_, _, mi) ← myfs_write_data_stream mi pos buf len_; myfs_read_data_stream mi pos len_)
     (fun (r : Z * Z * list byte) (_ : St) => r = (0, len_, slice 0 len_ buf)) s.
Proof.
  pose proof (fo_size _ _ _ Hok) as Hsz. pose proof (fo_mapped _ _ _ Hok) as Hm.
  pose proof (len_fstream _ _ _ Hm) as Hst.
  pose proof (geom_bounds _ (mp_geom _ _ _ Hm)) as Hb. pose proof (mp_range _ _ _ Hm) as Hr.
  assert (Z.of_nat n * bs s < 2 ^ 31) as Hsz' by dlia.
  apply wp_bind. eapply wp_mono; [by apply (write_in_place_spec s mi n)|]. cbn beta.
  intros r s' [-> [Hok' Hi Hh Hp Hstr _ _]].
  pose proof (fo_size _ _ _ Hok') as Hsz2.
  eapply wp_mono.
  { apply (read_data_spec s' _ n); [by apply (mapped_data _ mi), Hok'|done|lia|lia|].
    change (size (data (mi_set_mtime _ mi))) with (size (data mi)). lia. }
  cbn beta. intros r s2 [-> _]. change (data (mi_set_mtime _ mi)) with (data mi).
  rewrite (fstream_data _ mi) by done. rewrite Hstr.
  unfold clamp. rewrite Z.gtb_ltb, (proj2 (Z.ltb_ge _ _)) by lia.
  rewrite slice_splice_same; rewrite ?len_slice by lia; (done || lia).
Qed.
End properties.

Lemma read_returns_contents_witness :
  mapped sample sample_inode 2 /\
  wp (myfs_read_data_stream sample_inode 120 100)
     (fun r s' => r = (0, 80, replicate 8 x41 ++ replicate 72 x42) /\ read_only_step sample s') sample.
Proof.
  split; [exact sample_mapped|].
  eapply wp_mono; [apply (read_returns_contents sample sample_inode 2 120 100 sample_mapped); vm_compute; try split; congruence|].
  cbv zeta beta. intros r s' [-> Hs]. split; [vm_compute; reflexivity|exact Hs].
Defined.

Lemma write_in_place_exact_witness :
  file_ok sample sample_inode 2 /\
  wp (myfs_write_data_stream sample_inode 126 [x61; x62; x63; x64] 4)
     (fun (r : Z * Z * myfs_inode) s' => r = (0, 4, mi_set_mtime 7 sample_inode) /\
        write_result sample s' sample_inode 2 126 [x61; x62; x63; x64]) sample.
Proof.
  split; [exact sample_file_ok|].
  apply (write_in_place_exact sample sample_inode 2 126 4 [x61; x62; x63; x64] sample_file_ok);
    vm_compute; try split; congruence.
Defined.

Lemma write_then_read_witness :
  file_ok sample sample_inode 2 /\
  wp ('(_, _, mi) ← myfs_write_data_stream sample_inode 126 [x61; x62; x63; x64] 4;
      myfs_read_data_stream mi 126 4)
     (fun (r : Z * Z * list byte) _ => r = (0, 4, [x61; x62; x63; x64])) sample.
Proof.
  split; [exact sample_file_ok|].
  apply (write_then_read sample sample_inode 2 126 4 [x61; x62; x63; x64] sample_file_ok);
    vm_compute; try split; congruence.
Defined.
