(* ===== verification/Resize.v ===== *)
(** * Resize: a file that grows or shrinks within its last block (dstream.c)

    The stream then keeps its blocks: only the size in the inode, its time and
    the super block are written.  What is in the blocks past the old end shows
    up when the file grows. *)

From S2P Require Import Prelude Bytes Host BlockCache RamDisk BitVector Myfs Io Sample TmpBlocks Bitmap Inode DStream.
Local Open Scope Z_scope.

(** The blocks of a file of [z] bytes. *)
Definition blocks_for (b z : Z) : Z := (z + b - 1) / b.

Lemma round_up_eq b z : geom b -> 0 <= z < 2 ^ 62 -> round_up z b = blocks_for b z * b.
Proof.
  intros Hg Hz. pose proof (geom_bounds b Hg). unfold round_up, blocks_for. rewrite i64_id by (unfold in_i64; lia).
  destruct Hg as (sh & Hsh & ->). replace (2 ^ sh - 1) with (Z.ones sh) by (rewrite Z.ones_equiv; lia).
  rewrite <- Z.ldiff_land, Z.ldiff_ones_r, Z.shiftl_mul_pow2, Z.shiftr_div_pow2 by lia. reflexivity.
Qed.

Lemma blocks_for_le b z n : 0 < b -> z <= n * b -> blocks_for b z <= n.
Proof. intros Hb Hz. unfold blocks_for. apply Z.lt_succ_r, Z.div_lt_upper_bound; lia. Qed.
Lemma blocks_for_ge b z : 0 < b -> z <= blocks_for b z * b.
Proof. intros Hb. unfold blocks_for. pose proof (Z.div_mod (z + b - 1) b ltac:(lia)). pose proof (Z.mod_pos_bound (z + b - 1) b ltac:(lia)). lia. Qed.


Section resize.
Context {C : Type} {HC : BlockCache C} {HL : BlockCacheLaws C}.
Abbreviation St := (fs_state C).

(** Two states of one file system. *)
Record same_fs (s s' : St) : Prop := {
  sf_disk : disk_ok s';
  sf_bs : bs s' = bs s;
  sf_nblk : nblk s' = nblk s;
  sf_start : inodes_start (dsb (fs_info s')) = inodes_start (dsb (fs_info s));
  sf_table : num_inode_blocks (dsb (fs_info s')) = num_inode_blocks (dsb (fs_info s));
  sf_name : sb_name (dsb (fs_info s')) = sb_name (dsb (fs_info s));
  sf_pins : pins s' = pins s;
  sf_unsaved : v_unsaved (vw s') ⊆ v_unsaved (vw s);
}.

Lemma same_fs_step s s' data : disk_ok s' -> cstep s s' data (pins s) -> same_fs s s'.
Proof. intros Hd [Hi _ _ Hp Hu]. split; rewrite ?Hi; try done; [by apply bs_info|by apply nblk_info]. Qed.
Lemma same_fs_host s h : disk_ok s -> same_fs s (upd_host h s).
Proof. intros []. split; [by split|done..]. Qed.
Lemma same_fs_trans s1 s2 s3 : same_fs s1 s2 -> same_fs s2 s3 -> same_fs s1 s3.
Proof. intros [] []. split; try congruence; set_solver. Qed.

Lemma quiet_same s s' : same_fs s s' -> v_unsaved (vw s) = ∅ -> v_unsaved (vw s') = ∅.
Proof. intros [_ _ _ _ _ _ _ Hu] E. rewrite E in Hu. clear E. set_solver. Qed.

Lemma same_slot s s' ia : same_fs s s' -> slot_block (fs_info s') (bs s') ia = slot_block (fs_info s) (bs s) ia.
Proof. intros []. unfold slot_block. congruence. Qed.

Lemma has_slot_same s s' ia : same_fs s s' -> has_slot s ia -> has_slot s' ia.
Proof.
  intros Hs H. pose proof (same_slot s s' ia Hs) as Es. pose proof (quiet_same s s' Hs (hs_quiet _ _ H)). destruct Hs as [Hd Hb Hn H1 H2 _ Hp _], H. rewrite <- Es in *.
  split; rewrite ?Hb, ?Hn, ?H1, ?H2, ?Hp; try done; by rewrite <- Hb.
Qed.

(** A file on another state, with another size or time in its inode. *)
Lemma file_ok_same s s' mi mi' n : same_fs s s' -> file_ok s mi n ->
  (forall k, 0 <= k < Z.of_nat n -> fblock (dat s') mi' k = fblock (dat s) mi k) ->
  inode_num mi' = inode_num mi -> direct (data mi') = direct (data mi) -> indirect (data mi') = indirect (data mi) ->
  0 <= size (data mi') <= Z.of_nat n * bs s -> file_ok s' mi' n.
Proof.
  intros Hs [Hm Hsep Hsz Hslot Hout] Hf Hnum Hdir Hind Hsize. pose proof Hs as [Hd Hb Hn _ _ _ Hp _].
  pose proof (quiet_same s s' Hs (mp_quiet _ _ _ Hm)). split.
  - destruct Hm. split; rewrite ?Hb, ?Hn, ?Hp, ?Hdir, ?Hind; try done. intros k Hk. rewrite Hf by done. eauto.
  - destruct Hsep as [H1 H2]. split; [|rewrite Hind].
    + intros j k a Hj Hk. rewrite !Hf by done. by apply H1.
    + intros k a Hk Hl. rewrite Hf by done. by apply H2.
  - by rewrite Hb.
  - rewrite Hnum. by apply (has_slot_same s).
  - rewrite Hnum, (same_slot s s') by done. destruct Hout as [H1 H2]. split; [|by rewrite Hind].
    intros k Hk. rewrite Hf by done. by apply H1.
Qed.

(** ** The super block *)

Lemma write_super_block_spec s : disk_ok s -> len (sb_name (dsb (fs_info s))) = 32 -> 0 < nblk s ->
  wp write_super_block (fun r s' => r = 0 /\ same_fs s s' /\ fs_host s' = fs_host s /\
    forall b, b <> 0 -> dat s' !! b = dat s !! b) s.
Proof.
  intros Hd Hname Hn. unfold write_super_block, set_sb, set_info, myfs. wp_step. wp_step. wp_step. wp_step. wp_step.
  set (i := set_dsb _ (fs_info s)). set (s1 := upd_info i s). change (block_size (dsb (fs_info s1))) with (bs s).
  assert (disk_ok s1) as Hd1 by (destruct Hd; by split). apply wp_in_host. unfold junk. wp_step. wp_step.
  set (s2 := upd_host _ s1). assert (disk_ok s2) as Hd2 by (destruct Hd1; by split).
  set (img := take (Z.to_nat (bs s)) _). assert (len img = bs s) as Himg.
  { unfold img, len. pose proof (len_encode_sb (dsb i) Hname) as He. unfold len in He. pose proof (do_bs s Hd).
    rewrite length_take, length_app, length_take, length_app, length_replicate. change (dsb (fs_info s1)) with (dsb i). unfold sizeof_super_block. lia. }
  assert (0 < v_low (vw s)) as Hlow by (pose proof (do_low s Hd); lia).
  apply wp_in_cache. eapply wp_mono.
  { apply (write_pos_law _ _ (bs s) 0 img); [apply Hd|split; [done|exact Hlow]| |exact Himg].
    destruct (do_blocks s Hd 0 ltac:(lia)) as [d E]. exists d. exact E. }
  cbn beta. intros r c' (-> & Hok & Hdat & Hpins & Hu & Hl). rewrite Z.eqb_refl. wp_step. split; [done|].
  assert (forall b, is_Some (dat s2 !! b) -> is_Some (<[0 := img]> (dat s2) !! b)) as Hdom by (intros b; apply insert_dom).
  destruct (disk_ok_cache s2 c' (<[0 := img]> (dat s2)) (pins s2) Hd2 Hok Hdat Hpins Hu ltac:(exact (Z.le_trans _ _ _ (Zlt_le_succ _ _ Hlow) Hl)) Hdom) as [Hd3 [_ _ Hdat3 Hp3 Hu3]].
  split; [by split|]. split; [by destruct s|]. intros b Hb. rewrite Hdat3, lookup_insert_ne by done. done.
Qed.
(** ** The size in the inode *)

(** Two inodes with the same blocks. *)
Record same_blocks (mi mi' : myfs_inode) : Prop := {
  sb_num : inode_num mi' = inode_num mi;
  sb_direct : direct (data mi') = direct (data mi);
  sb_indirect : indirect (data mi') = indirect (data mi);
}.

(** What a change of the size leaves: the blocks of the file as they were. *)
Record resized (s s' : St) (mi mi' : myfs_inode) (n : nat) : Prop := {
  rs_file : file_ok s' mi' n;
  rs_same : same_fs s s';
  rs_host : fs_host s' = fs_host s;
  rs_stream : fstream (dat s') mi' n = fstream (dat s) mi n;
  rs_frame : forall b, b <> 0 -> b <> slot_block (fs_info s) (bs s) (inode_num mi) -> dat s' !! b = dat s !! b;
}.

Section agree.
Context (s s' : St) (mi mi' : myfs_inode) (n : nat).
Hypothesis Hok : file_ok s mi n.
Hypothesis Hb : same_blocks mi mi'.
Hypothesis Hdat : forall b, b <> 0 -> b <> slot_block (fs_info s) (bs s) (inode_num mi) -> dat s' !! b = dat s !! b.

Lemma fblock_agree k : 0 <= k < Z.of_nat n -> fblock (dat s') mi' k = fblock (dat s) mi k.
Proof.
  intros Hk. destruct Hb as [_ Ed Ei]. unfold fblock. rewrite Ed, Ei. destruct (Z.ltb_spec k 6); [done|].
  rewrite Hdat; [done| |apply not_eq_sym; apply (proj2 (fo_outside _ _ _ Hok)); lia].
  pose proof (mp_ind _ _ _ (fo_mapped _ _ _ Hok) ltac:(lia)). lia.
Qed.

Lemma fstream_agree : fstream (dat s') mi' n = fstream (dat s) mi n.
Proof.
  unfold fstream, fblocks. f_equal. apply list_fmap_ext. intros i k Hk. apply lookup_seqZ in Hk as [-> Hi]. unfold fdata. rewrite fblock_agree by lia.
  destruct (mp_blocks _ _ _ (fo_mapped _ _ _ Hok) (0 + Z.of_nat i) ltac:(lia)) as (a & Ha & Hr). rewrite Ha. cbn. rewrite Hdat; [done|lia|].
  intros ->. by apply (proj1 (fo_outside _ _ _ Hok) (0 + Z.of_nat i)); [lia|].
Qed.
End agree.

(** The last steps of a write that grows and of a change of the size. *)
Definition save_size (mi : myfs_inode) : M St (Z * myfs_inode) :=
  now ← in_host time_null;
  let mi := mi_set_mtime now mi in
  _ ← update_inode mi;
  _ ← write_super_block;
  mret (0, mi).

Lemma save_size_spec s mi n z : file_ok s mi n -> len (sb_name (dsb (fs_info s))) = 32 -> 0 <= z <= Z.of_nat n * bs s ->
  let mi' := mi_set_mtime (h_time (fs_host s)) (mi_set_size z mi) in
  wp (save_size (mi_set_size z mi)) (fun r s' => r = (0, mi') /\ resized s s' mi mi' n) s.
Proof.
  intros Hok Hname Hz mi'. pose proof (fo_slot _ _ _ Hok) as Hslot. pose proof (has_slot_block _ _ Hslot) as Hsb. pose proof (hs_disk _ _ Hslot) as Hd.
  set (b := slot_block (fs_info s) (bs s) (inode_num mi)) in *. destruct (do_blocks s Hd b ltac:(lia)) as [d Ed].
  unfold save_size. wp_step. apply wp_in_host, wp_gets. replace (upd_host (fs_host s) s) with s by (by destruct s). cbn beta zeta. fold mi'.
  wp_step. eapply wp_mono; [apply (update_inode_spec s mi' d Hslot (mp_direct _ _ _ (fo_mapped _ _ _ Hok)) Ed)|]. cbn beta.
  intros _ s1 (_ & Hd1 & Hs1). change (inode_num mi') with (inode_num mi) in Hs1. fold b in Hs1. pose proof Hs1 as [Hi1 Hh1 Hdat1 _ _].
  pose proof (same_fs_step _ _ _ Hd1 Hs1) as Hf1. wp_step. eapply wp_mono.
  { apply write_super_block_spec; [done|by rewrite Hi1|]. rewrite (sf_nblk _ _ Hf1). lia. }
  cbn beta. intros _ s2 (_ & Hf2 & Hh2 & Hdat2). wp_step. split; [done|].
  assert (forall b', b' <> 0 -> b' <> b -> dat s2 !! b' = dat s !! b') as Hframe.
  { intros b' H0 Hne. rewrite Hdat2 by done. by rewrite Hdat1, lookup_insert_ne. }
  pose proof (same_fs_trans _ _ _ Hf1 Hf2) as Hf. assert (same_blocks mi mi') as Hbl by done. split; try done; [|congruence|by apply fstream_agree].
  apply (file_ok_same s s2 mi mi' n); try done. by apply fblock_agree.
Qed.

(** A file of [n] blocks is far from the largest one. *)
Lemma size_fits s mi n z : mapped s mi n -> 0 <= z <= Z.of_nat n * bs s ->
  z < 2 ^ 31 /\ u64 z = z /\ (z >? MAX_DOUBLE_INDIRECT_RANGE (bs s)) = false.
Proof.
  intros Hm Hz. pose proof (mp_geom _ _ _ Hm) as Hg. pose proof (geom_bounds _ Hg). pose proof (mp_range _ _ _ Hm).
  destruct (MAX_DOUBLE_eq _ Hg) as [E _]. assert (16 <= bs s / 8 <= 8192) by dlia.
  assert (0 <= bs s / 8 * (bs s / 8 * bs s)) by nia. assert (Z.of_nat n * bs s <= bs s / 8 * bs s + 6 * bs s) by nia.
  assert (bs s / 8 * bs s + 6 * bs s < 2 ^ 31) by nia. rewrite u64_id by lia. rewrite Z.gtb_ltb. split_and!; [lia|done|apply Z.ltb_ge; lia].
Qed.

(** Growing and shrinking within the last block only change the size. *)
Lemma grow_here s mi n z : file_ok s mi n -> 0 <= z <= Z.of_nat n * bs s -> blocks_for (bs s) (size (data mi)) = blocks_for (bs s) z ->
  wp (grow_dstream mi z) (fun r s' => r = (0, mi_set_size z mi) /\ s' = s) s.
Proof.
  intros Hok Hz E. pose proof (fo_mapped _ _ _ Hok) as Hm. pose proof (size_fits _ _ _ _ Hm Hz) as (H1 & H2 & H3). pose proof (size_fits _ _ _ _ Hm (fo_size _ _ _ Hok)) as (H4 & _).
  unfold grow_dstream. wp_step. apply wp_bsize_of; [apply Hm|]. rewrite H2, H3. pose proof (fo_size _ _ _ Hok).
  rewrite !round_up_eq, E, Z.eqb_refl by (apply (mp_geom _ _ _ Hm) || lia). by apply wp_ret.
Qed.

(** The new size is rounded up as if it were one less. *)
Lemma shrink_here s mi n z : file_ok s mi n -> 0 < z <= Z.of_nat n * bs s -> blocks_for (bs s) (size (data mi)) = blocks_for (bs s) (z - 1) ->
  wp (shrink_dstream mi z) (fun r s' => r = (0, mi_set_size z mi) /\ s' = s) s.
Proof.
  intros Hok Hz E. pose proof (fo_mapped _ _ _ Hok) as Hm. pose proof (size_fits _ _ _ z Hm ltac:(lia)) as (H1 & H2 & H3). pose proof (size_fits _ _ _ _ Hm (fo_size _ _ _ Hok)) as (H4 & _).
  unfold shrink_dstream. wp_step. apply wp_bsize_of; [apply Hm|]. rewrite H2, H3. pose proof (fo_size _ _ _ Hok).
  rewrite !round_up_eq, E, Z.eqb_refl by (apply (mp_geom _ _ _ Hm) || lia). by apply wp_ret.
Qed.

(** [myfs_set_file_size] to fewer bytes of the same blocks. *)
Lemma set_file_size_here s mi n z : file_ok s mi n -> len (sb_name (dsb (fs_info s))) = 32 ->
  0 < z < size (data mi) -> blocks_for (bs s) (size (data mi)) = blocks_for (bs s) (z - 1) ->
  let mi' := mi_set_mtime (h_time (fs_host s)) (mi_set_size z mi) in
  wp (myfs_set_file_size mi z) (fun r s' => r = (0, mi') /\ resized s s' mi mi' n) s.
Proof.
  intros Hok Hname Hz E mi'. pose proof (fo_size _ _ _ Hok) as Hsz. unfold myfs_set_file_size.
  rewrite (proj2 (Z.eqb_neq z (size (data mi)))), (proj2 (Z.ltb_lt z (size (data mi)))) by lia.
  wp_step. eapply wp_mono; [apply (shrink_here s mi n); [done|lia|done]|]. cbn beta. intros r s' [-> ->]. cbn beta iota. rewrite Z.eqb_refl.
  apply (save_size_spec s mi n z); [done|done|lia].
Qed.

(** ** Writing past the end *)

Lemma same_fs_info s s' mi n : file_ok s' mi n -> fs_info s' = fs_info s -> pins s' = pins s -> same_fs s s'.
Proof.
  intros Hok Hi Hp. pose proof (mp_quiet _ _ _ (fo_mapped _ _ _ Hok)) as Hq. pose proof (mp_disk _ _ _ (fo_mapped _ _ _ Hok)).
  split; rewrite ?Hi, ?Hq; try done; first [by apply bs_info|by apply nblk_info|set_solver].
Qed.

(** A write from the start that makes the file longer: the bytes it writes are
    all of the file. *)
Lemma write_grow_spec s mi n buf : file_ok s mi n -> len (sb_name (dsb (fs_info s))) = 32 ->
  size (data mi) < len buf <= Z.of_nat n * bs s -> blocks_for (bs s) (size (data mi)) = blocks_for (bs s) (len buf) ->
  let mi' := mi_set_mtime (h_time (fs_host s)) (mi_set_size (len buf) mi) in
  wp (myfs_write_data_stream mi 0 buf (len buf))
     (fun r s' => r = (0, len buf, mi') /\ file_ok s' mi' n /\ same_fs s s' /\ fs_host s' = fs_host s /\
        slice 0 (len buf) (fstream (dat s') mi' n) = buf) s.
Proof.
  intros Hok Hname Hl E mi'. pose proof (fo_size _ _ _ Hok) as Hsz. pose proof (fo_mapped _ _ _ Hok) as Hm.
  destruct (size_fits _ _ _ (len buf) Hm ltac:(lia)) as (H1 & H2 & _). destruct (size_fits _ _ _ _ Hm Hsz) as (H3 & H4 & _).
  unfold myfs_write_data_stream. rewrite (proj2 (Z.eqb_neq (len buf) 0)) by lia. cbn [Z.ltb Z.compare]. rewrite Z.add_0_l, H2, H4, Z.gtb_ltb, (proj2 (Z.ltb_lt _ _)) by lia.
  rewrite i64_id by (unfold in_i64; lia). wp_step. wp_step. eapply wp_mono; [by apply (grow_here s mi n); [done|lia|]|]. cbn beta. intros r s0 [-> ->]. cbn beta iota.
  eapply wp_mono; [apply (save_size_spec s mi n (len buf)); [done|done|lia]|]. cbn beta. intros r s1 [-> [Hok1 Hf1 Hh1 Hst1 _]]. fold mi' in Hok1, Hst1 |- *. cbn beta iota. cbn [Z.eqb negb].
  eapply wp_mono; [apply (write_data_spec s1 mi' n 0 (len buf) buf Hok1); rewrite ?(sf_bs _ _ Hf1); lia|]. cbn beta. rewrite slice_all by done.
  intros r s2 [-> [Hok2 Hi2 Hh2 Hp2 Hst2 _ _]]. rewrite Hh1. split; [done|]. split; [done|].
  split; [by eapply same_fs_trans, same_fs_info|]. split; [congruence|]. rewrite Hst2, slice_splice_same; [done|lia| |done].
  rewrite (len_fstream _ _ _ (fo_mapped _ _ _ Hok1)), (sf_bs _ _ Hf1). lia.
Qed.
End resize.
