(* ===== verification/Dir.v ===== *)
(** * Dir: directories (dir.c)

    A directory is a file whose data is a packed sequence of [myfs_dirent]
    records, padded to a multiple of 8 bytes.  The routines of this file work
    on one in-memory inode, which they return as they leave it; those that
    also go through the vnode layer are in File.v. *)

From S2P Require Import Prelude Bytes Compat Host BlockCache BitVector Myfs Io TmpBlocks Bitmap Inode DStream.
Local Open Scope Z_scope.

(** ** The layout of an entry: inode number, name length, name, NUL. *)
Definition sizeof_myfs_dirent : Z := 16.
Definition MDE_NAME_LEN : Z := 8.
Definition MDE_NAME : Z := 9.

(** Offset of the entry after one at [off]; buffers are 8-byte aligned. *)
Definition NEXT_MDE (off name_len : Z) : Z :=
  Z.land (off + MDE_NAME + name_len + 1 + 7) (Z.lnot 7).
Definition MDE_SIZE (name_len : Z) : Z := NEXT_MDE 0 name_len.

Definition MKDIR_BUFSIZE : Z := Z.land (2 * sizeof_myfs_dirent + 1 + 2 + 15) (Z.lnot 15).


(** [strcmp(mem, name) == 0], for the string at the start of [mem]. *)
Fixpoint strcmp_eq (mem name : list byte) : option bool :=
  match mem with
  | [] => None
  | b :: mem =>
      match name with
      | [] => Some (bool_decide (b = x00))
      | c :: name => if decide (b = c) then strcmp_eq mem name else Some false
      end
  end.

Definition mde_inum (mem : list byte) (off : Z) : option Z :=
  d ← read_at off 8 mem; Some (sle d).
Definition mde_name_len (mem : list byte) (off : Z) : option Z :=
  d ← read_at (off + MDE_NAME_LEN) 1 mem; Some (le_val d).
Definition mde_name_is (mem : list byte) (off : Z) (name : list byte) : option bool :=
  strcmp_eq (drop (Z.to_nat (off + MDE_NAME)) mem) name.

(** [mde->inum = inum; mde->name_len = strlen(name); strcpy(mde->name, name)] *)
Definition put_dirent (mem : list byte) (off inum : Z) (name : list byte) : option (list byte) :=
  mem ← write_at off (le_bytes 8 inum) mem;
  mem ← write_at (off + MDE_NAME_LEN) [Zb (len name)] mem;
  write_at (off + MDE_NAME) (name ++ [x00]) mem.

(** The loop that looks for an entry called [name], from offset [off] up to
    [end_]: the offset where it stops.  An entry takes at least 16 bytes. *)
Fixpoint find_entry (fuel : nat) (mem : list byte) (end_ : Z) (name : list byte) (off : Z)
  : outcome Z :=
  if off <? end_ then
    match fuel with
    | O => Hang
    | Datatypes.S fuel =>
        match mde_name_is mem off name with
        | None => Fault
        | Some true => Done off
        | Some false =>
            match mde_name_len mem off with
            | None => Fault
            | Some n => find_entry fuel mem end_ name (NEXT_MDE off n)
            end
        end
    end
  else Done off.

Definition dir_fuel (end_ : Z) : nat := Z.to_nat (end_ / 16 + 1).

(** The records of a [dir_cookie]; [curptr] is an offset in [contents]. *)
Record dir_cookie := Cookie { curptr : Z; dc_index : Z; dc_counter : Z }.

Definition mi_contents (mi : myfs_inode) : option (list byte) :=
  match etc mi with Some (_, e) => e_contents e | None => None end.
Definition mi_counter (mi : myfs_inode) : Z :=
  match etc mi with Some (_, e) => e_counter e | None => 0 end.

(** Assignments through [mi->etc]: a fault when it is NULL. *)
Definition mi_upd_etc (f : inode_etc -> inode_etc) (mi : myfs_inode) : option myfs_inode :=
  match etc mi with
  | Some (a, e) => Some (mi_set_etc (Some (a, f e)) mi)
  | None => None
  end.
Definition mi_set_contents (c : option (list byte)) (mi : myfs_inode) : option myfs_inode :=
  mi_upd_etc (fun e => Etc c (e_counter e)) mi.

Section dir.
Context {C : Type} `{BlockCache C}.
Abbreviation St := (fs_state C).

(** The result and [*newdir]. *)
Definition make_dir (parent : option myfs_inode) (mode : Z) : M St (Z * option (Z * myfs_inode)) :=
  buff ← in_host (junk MKDIR_BUFSIZE);
  r ← myfs_allocate_inode mode;
  match r with
  | None => mret (ENOSPC, None)
  | Some (p, mi) =>
      let mi := mi_set_mode (Z.lor (i_mode mi) MY_S_IFDIR) mi in
      buff ← opt (put_dirent buff 0 (inode_num mi) [x2e]);
      let mde := NEXT_MDE 0 1 in
      let up := match parent with Some d => inode_num d | None => inode_num mi end in
      buff ← opt (put_dirent buff mde up [x2e; x2e]);
      let mde := NEXT_MDE mde 2 in
      '(ret, len, mi) ← myfs_write_data_stream mi 0 buff mde;
      if negb (ret =? 0) || negb (len =? mde) then
        _ ← myfs_free_inode (inode_num mi);
        mret (if ret =? 0 then ENOSPC else ret, None)
      else
        _ ← update_inode mi;
        mret (0, Some (p, mi))
  end.

(** [mi] is read after the test [ret < 0]: a fault when it was not set. *)
Definition myfs_create_root_dir : M St Z :=
  '(ret, mi) ← make_dir None 0x1FF;
  if ret <? 0 then mret ret else
  '(_, mi) ← opt mi;
  _ ← set_sb (sb_set_root (inode_num mi));
  _ ← set_info (set_root_dir (Some mi));
  mret 0.

Definition get_dir_contents (mi : myfs_inode) : M St (Z * myfs_inode) :=
  p ← in_host (malloc (size (data mi)));
  match p with
  | None => mi ← opt (mi_set_contents None mi); mret (ENOMEM, mi)
  | Some _ =>
      '(ret, sz, d) ← myfs_read_data_stream mi 0 (u64 (size (data mi)));
      if negb (sz =? u64 (size (data mi))) then
        mi ← opt (mi_set_contents None mi); mret (ret, mi)
      else
        mi ← opt (mi_set_contents (Some d) mi); mret (0, mi)
  end.

(** [if (dir->etc->contents == NULL) ret = get_dir_contents(dir)] *)
Definition load_contents (dir : myfs_inode) : M St (Z * myfs_inode) :=
  _ ← opt (etc dir);
  match mi_contents dir with
  | None => get_dir_contents dir
  | Some _ => mret (0, dir)
  end.

(** Result, [*vnid] when the name is found, and the inode. *)
Definition dir_lookup (dir : myfs_inode) (name : list byte) : M St (Z * option Z * myfs_inode) :=
  '(ret, dir) ← load_contents dir;
  if negb (ret =? 0) then mret (ret, None, dir) else
  let mem := default [] (mi_contents dir) in
  let end_ := size (data dir) in
  off ← lift (find_entry (dir_fuel end_) mem end_ name 0);
  if off <? end_ then
    inum ← opt (mde_inum mem off);
    mret (0, Some inum, dir)
  else mret (ENOENT, None, dir).

(** [realloc]: the first [min] bytes are kept, the rest is indeterminate. *)
Definition realloc (mem : list byte) (n : Z) : M St (option (list byte)) :=
  p ← in_host (malloc n);
  match p with
  | None => mret None
  | Some _ =>
      j ← in_host (junk n);
      mret (Some (take (Z.to_nat n) mem ++ drop (length mem) j))
  end.

(** Bytes of the entry buffer past its 8-byte aligned start. *)
Definition DIRENT_BUF : Z := FILE_NAME_LENGTH + sizeof_myfs_dirent + 8 - 7.

Definition dir_insert (dir : myfs_inode) (name : list byte) (inum : Z) : M St (Z * myfs_inode) :=
  buff ← in_host (junk DIRENT_BUF);
  '(ret, dir) ← load_contents dir;
  if negb (ret =? 0) then mret (ret, dir) else
  buff ← opt (put_dirent buff 0 inum name);
  let sz := MDE_SIZE (u8 (len name)) in
  let dsize := size (data dir) in
  ptr ← realloc (default [] (mi_contents dir)) (u64 (dsize + sz));
  match ptr with
  | None => mret (ENOMEM, dir)
  | Some ptr =>
      mde ← opt (read_at 0 sz buff);
      ptr ← opt (write_at dsize mde ptr);
      dir ← opt (mi_upd_etc (fun e => Etc (Some ptr) (i32 (e_counter e + 1))) dir);
      let osize := u64 (dsize + sz) in
      '(ret, sz, dir) ← myfs_write_data_stream dir 0 ptr osize;
      if negb (ret =? 0) || negb (sz =? osize) then mret (ret, dir)
      else mret (0, dir)
  end.

Definition is_dot (name : list byte) : bool := bool_decide (name = [x2e]).
Definition is_dotdot (name : list byte) : bool := bool_decide (name = [x2e; x2e]).

(** [memcpy(&mem[dst], &mem[src], n)]: undefined when the ranges overlap. *)
Definition memcpy_in (dst src n : Z) (mem : list byte) : M St (list byte) :=
  if Z.abs (src - dst) <? n then fault else
  bytes ← opt (read_at src n mem);
  opt (write_at dst bytes mem).

Definition dir_delete (dir : myfs_inode) (name : list byte) : M St (Z * myfs_inode) :=
  if is_dot name || is_dotdot name then mret (EINVAL, dir) else
  '(ret, dir) ← load_contents dir;
  if negb (ret =? 0) then mret (ret, dir) else
  let mem := default [] (mi_contents dir) in
  let end_ := size (data dir) in
  mde ← lift (find_entry (dir_fuel end_) mem end_ name 0);
  if mde >=? end_ then mret (ENOENT, dir) else
  n ← opt (mde_name_len mem mde);
  let next := NEXT_MDE mde n in
  let sz := next - mde in
  mem ← (if next <? end_ then memcpy_in mde next (end_ - next) mem else mret mem);
  let nsize := u64 (end_ - sz) in
  dir ← opt (mi_set_contents (Some mem) dir);
  ptr ← realloc mem nsize;
  match ptr with
  | None => mret (ENOMEM, dir)
  | Some ptr =>
      dir ← opt (mi_upd_etc (fun e => Etc (Some ptr) (i32 (e_counter e + 1))) dir);
      '(ret, nsize', dir) ← myfs_write_data_stream dir 0 ptr nsize;
      if negb (ret =? 0) || negb (nsize' =? u64 (size (data dir) - sz)) then mret (ret, dir) else
      '(_, dir) ← myfs_set_file_size dir nsize;
      mret (0, dir)
  end.

(** ** Reading a directory *)

(** The result, the cookie and its address, and the inode. *)
Definition myfs_opendir (mi : myfs_inode) : M St (Z * option (Z * dir_cookie) * myfs_inode) :=
  _ ← CHECK_INODE mi;
  dc ← in_host (malloc 24);
  match dc with
  | None => mret (ENOMEM, None, mi)
  | Some p =>
      '(ret, mi) ← load_contents mi;
      if negb (ret =? 0) then mret (ret, None, mi)
      else mret (0, Some (p, Cookie 0 0 (mi_counter mi)), mi)
  end.

Definition myfs_closedir (mi : myfs_inode) : M St Z := _ ← CHECK_INODE mi; mret 0.
Definition myfs_free_dircookie (mi : myfs_inode) : M St Z := _ ← CHECK_INODE mi; mret 0.

Definition myfs_rewinddir (mi : myfs_inode) (dc : dir_cookie) : M St (Z * dir_cookie) :=
  _ ← CHECK_INODE mi;
  mret (0, Cookie 0 0 (mi_counter mi)).

(** The walk that re-synchronises a cookie: [n] entries forward, or less. *)
Fixpoint skip_entries (n : nat) (mem : list byte) (end_ off : Z) : option Z :=
  match n with
  | O => Some off
  | Datatypes.S n =>
      if off <? end_ then
        k ← mde_name_len mem off; skip_entries n mem end_ (NEXT_MDE off k)
      else Some off
  end.

(** Result, [*num], the entry put in [buf], and the cookie. *)
Definition myfs_readdir (mi : myfs_inode) (dc : dir_cookie)
  : M St (Z * Z * option my_dirent * dir_cookie) :=
  _ ← CHECK_INODE mi;
  match mi_contents mi with
  | None => mret (0, 0, None, dc)
  | Some mem =>
      i ← myfs;
      let end_ := size (data mi) in
      dc ← (if negb (dc_counter dc =? mi_counter mi) then
              off ← opt (skip_entries (Z.to_nat (dc_index dc - 1)) mem end_ 0);
              mret (Cookie off (dc_index dc - 1) (mi_counter mi))
            else mret dc);
      if curptr dc >=? end_ then mret (0, 0, None, dc) else
      let mde := curptr dc in
      inum ← opt (mde_inum mem mde);
      n ← opt (mde_name_len mem mde);
      name ← opt (read_at (mde + MDE_NAME) (n + 1) mem);
      mret (0, 1, Some (Dirent (fd i) inum n name),
            Cookie (NEXT_MDE mde n) (dc_index dc + 1) (dc_counter dc))
  end.
End dir.
