(* ===== verification/DirSpec.v ===== *)
(** * DirSpec: the contents of a directory

    The bytes of a directory hold a list of entries ([holds]); looking up,
    inserting and deleting are what they are on that list, on disk and in the
    copy in memory, as long as the directory stays within the blocks it has. *)

From S2P Require Import Prelude Bytes Compat Host BlockCache RamDisk BitVector Myfs Io Sample TmpBlocks Bitmap Inode DStream Resize Dir.
Local Open Scope Z_scope.

(** ** The image of a list of entries *)

(** The number of bytes of an entry, a multiple of 8. *)
Definition esize (n : Z) : Z := (n + 17) / 8 * 8.

Definition entry_image (inum : Z) (name pad : list byte) : list byte :=
  le_bytes 8 inum ++ Zb (len name) :: name ++ x00 :: pad.

Definition good_name (name : list byte) : Prop := Forall (fun c => c <> x00) name /\ len name < 256.

(** The bytes between the entries are whatever was in memory. *)
Inductive holds : list byte -> list (Z * list byte) -> Prop :=
  | Holds_nil : holds [] []
  | Holds_cons inum name pad mem es :
      in_i64 inum -> good_name name -> len pad = esize (len name) - len name - 10 -> holds mem es ->
      holds (entry_image inum name pad ++ mem) ((inum, name) :: es).

Lemma esize_bounds n : 0 <= n -> n + 10 <= esize n <= n + 17 /\ esize n mod 8 = 0.
Proof. intros Hn. unfold esize. split; [Z.to_euclidean_division_equations; lia|]. by rewrite Z.mod_mul. Qed.

Lemma len_entry_image inum name pad : len pad = esize (len name) - len name - 10 -> len (entry_image inum name pad) = esize (len name).
Proof. intros Hp. unfold entry_image. rewrite !len_app, len_cons, len_app, len_cons, len_le_bytes. lia. Qed.

Lemma holds_len mem es : holds mem es -> len mem mod 8 = 0 /\ 16 * len es <= len mem.
Proof.
  induction 1 as [|inum name pad mem es Hi Hg Hp Hm IH]; [by split|]. rewrite len_app, len_entry_image, len_cons by done.
  destruct (esize_bounds (len name)) as [H1 H2]; [done|]. pose proof (len_nonneg name). split; [Z.to_euclidean_division_equations; lia|].
  assert (16 <= esize (len name)) by (Z.to_euclidean_division_equations; lia). lia.
Qed.

Lemma holds_app m1 es1 m2 es2 : holds m1 es1 -> holds m2 es2 -> holds (m1 ++ m2) (es1 ++ es2).
Proof. intros H1 H2. induction H1; [done|]. rewrite <- app_assoc. cbn [app]. by constructor. Qed.

Lemma holds_split mem es1 inum name es2 : holds mem (es1 ++ (inum, name) :: es2) ->
  exists m1 pad m2, mem = m1 ++ entry_image inum name pad ++ m2 /\ holds m1 es1 /\ holds m2 es2 /\
    in_i64 inum /\ good_name name /\ len pad = esize (len name) - len name - 10.
Proof.
  revert mem. induction es1 as [|[i nm] es1 IH]; cbn [app]; intros mem H; inv H.
  - eexists [], _, _. split_and!; try done. constructor.
  - destruct (IH _ ltac:(eassumption)) as (m1 & p & m2 & -> & ? & ? & ? & ? & ?).
    eexists (_ ++ m1), p, m2. split_and!; try done; [by rewrite <- app_assoc|by constructor].
Qed.

Lemma NEXT_MDE_eq off n : off mod 8 = 0 -> NEXT_MDE off n = off + esize n.
Proof.
  intros Ho. unfold NEXT_MDE, MDE_NAME, esize. change 7 with (Z.ones 3) at 2. rewrite <- Z.ldiff_land, Z.ldiff_ones_r by lia.
  rewrite Z.shiftl_mul_pow2, Z.shiftr_div_pow2 by lia. change (2 ^ 3) with 8. Z.to_euclidean_division_equations; lia.
Qed.

(** ** Reading an entry *)

Lemma strcmp_eq_name nm name t : Forall (fun c => c <> x00) nm -> Forall (fun c => c <> x00) name ->
  strcmp_eq (nm ++ x00 :: t) name = Some (bool_decide (nm = name)).
Proof.
  intros Hn. revert name. induction Hn as [|c nm Hc Hn IH]; intros [|d name] Hm; cbn [app strcmp_eq].
  - by rewrite bool_decide_true.
  - inv Hm. rewrite decide_False by done. by rewrite bool_decide_false.
  - by rewrite !bool_decide_false.
  - inv Hm. destruct (decide (c = d)) as [->|Hne]; [|by rewrite bool_decide_false by congruence].
    rewrite IH by done. f_equal. apply bool_decide_ext. split; congruence.
Qed.

Section entry.
Context (p : list byte) (inum : Z) (name pad t : list byte).
Abbreviation mem := (p ++ entry_image inum name pad ++ t).

Lemma entry_drop k : 0 <= k -> drop (Z.to_nat (len p + k)) mem = drop (Z.to_nat k) (entry_image inum name pad ++ t).
Proof. intros Hk. rewrite drop_app_ge by (unfold len; lia). f_equal. unfold len. lia. Qed.

Lemma entry_name_is nm : good_name name -> Forall (fun c => c <> x00) nm -> mde_name_is mem (len p) nm = Some (bool_decide (name = nm)).
Proof.
  intros [Hg _] Hn. unfold mde_name_is. rewrite entry_drop by (unfold MDE_NAME; lia). unfold entry_image, MDE_NAME. rewrite <- app_assoc. cbn [app].
  rewrite drop_app_ge by (rewrite length_le_bytes; lia). rewrite length_le_bytes. change (Z.to_nat 9 - 8)%nat with 1%nat. cbn [drop].
  rewrite <- app_assoc. by apply strcmp_eq_name.
Qed.

Lemma entry_read off n x y : entry_image inum name pad ++ t = x ++ y -> 0 <= off -> off <= len x -> 0 <= n <= len y -> off = len x -> read_at (len p + off) n mem = Some (take (Z.to_nat n) y).
Proof.
  intros E Ho Hx Hn Hxx. rewrite read_at_Some; [|unfold len in *; lia|lia|rewrite len_app, E, len_app; lia]. unfold slice. rewrite entry_drop, E by done.
  rewrite drop_app_length' by (unfold len in *; lia). done.
Qed.

Lemma entry_name_len : good_name name -> mde_name_len mem (len p) = Some (len name).
Proof.
  intros [_ Hl]. unfold mde_name_len. rewrite (entry_read MDE_NAME_LEN 1 (le_bytes 8 inum) (Zb (len name) :: name ++ x00 :: pad ++ t)).
  - change (Some (bZ (Zb (len name)) + 256 * 0) = Some (len name)). rewrite bZ_Zb, Z.mod_small; [f_equal; lia|]. split; [done|lia].
  - unfold entry_image. rewrite <- app_assoc. cbn [app]. by rewrite <- app_assoc.
  - unfold MDE_NAME_LEN. lia.
  - by rewrite len_le_bytes.
  - rewrite len_cons. split; [lia|]. pose proof (len_nonneg (name ++ x00 :: pad ++ t)). lia.
  - by rewrite len_le_bytes.
Qed.

Lemma entry_inum : in_i64 inum -> mde_inum mem (len p) = Some inum.
Proof.
  intros Hi. unfold mde_inum. replace (len p) with (len p + 0) at 1 by lia. rewrite (entry_read 0 8 [] (entry_image inum name pad ++ t)); try done.
  - cbn [mbind option_bind]. f_equal. unfold entry_image. rewrite <- app_assoc. rewrite take_app_le by (rewrite length_le_bytes; lia).
    rewrite take_ge by (rewrite length_le_bytes; lia). by apply sle_i64.
  - unfold entry_image. rewrite !len_app, len_le_bytes. pose proof (len_nonneg (Zb (len name) :: name ++ x00 :: pad)). pose proof (len_nonneg t). lia.
Qed.

Lemma entry_next : len p mod 8 = 0 -> NEXT_MDE (len p) (len name) = len p + esize (len name).
Proof. apply NEXT_MDE_eq. Qed.
End entry.

(** ** Building an entry *)

Lemma write_at_mid {A} (p d r : list A) : (length d <= length r)%nat -> write_at (len p) d (p ++ r) = Some (p ++ d ++ drop (length d) r).
Proof.
  intros Hl. rewrite write_at_Some; [|done|unfold len; rewrite length_app; lia]. unfold splice, len. rewrite Nat2Z.id.
  by rewrite take_app_length, drop_app_add.
Qed.

Lemma put_dirent_image buff inum name : 10 + len name <= len buff ->
  put_dirent buff 0 inum name = Some (le_bytes 8 inum ++ Zb (len name) :: name ++ x00 :: drop (10 + length name) buff).
Proof.
  intros Hl. unfold put_dirent. pose proof (write_at_mid [] (le_bytes 8 inum) buff) as E1. rewrite len_nil, length_le_bytes in E1. cbn [app] in E1.
  rewrite E1 by (unfold len in Hl; lia). cbn [mbind option_bind].
  pose proof (write_at_mid (le_bytes 8 inum) [Zb (len name)] (drop 8 buff)) as E2. rewrite len_le_bytes, length_drop in E2. change (0 + MDE_NAME_LEN) with (Z.of_nat 8).
  rewrite E2 by (unfold len in Hl; cbn; lia). cbn [mbind option_bind]. rewrite drop_drop.
  pose proof (write_at_mid (le_bytes 8 inum ++ [Zb (len name)]) (name ++ [x00]) (drop (8 + 1) buff)) as E3. rewrite len_app, len_le_bytes in E3. change (0 + MDE_NAME) with (Z.of_nat 8 + len [Zb (len name)]).
  change (length [Zb (len name)]) with 1%nat. rewrite <- app_assoc in E3. rewrite E3 by (rewrite length_app, length_drop; unfold len in Hl; cbn; lia).
  rewrite drop_drop, length_app, <- !app_assoc. cbn [app length]. do 6 f_equal. lia.
Qed.

(** The part of the buffer that goes to the directory. *)
Lemma dirent_prefix buff inum name : esize (len name) <= len buff ->
  exists pad, len pad = esize (len name) - len name - 10 /\
    read_at 0 (esize (len name)) (le_bytes 8 inum ++ Zb (len name) :: name ++ x00 :: drop (10 + length name) buff) = Some (entry_image inum name pad).
Proof.
  intros Hl. pose proof (esize_bounds (len name) ltac:(done)) as [Hb _]. pose proof (len_nonneg name).
  set (k := esize (len name) - len name - 10) in *. exists (take (Z.to_nat k) (drop (10 + length name) buff)).
  assert (len (take (Z.to_nat k) (drop (10 + length name) buff)) = k) as Hk by (unfold len in *; rewrite length_take, length_drop; lia). split; [done|].
  set (pad := take _ _) in *. rewrite <- (take_drop (Z.to_nat k) (drop (10 + length name) buff)). fold pad. set (rest := drop (Z.to_nat k) _).
  assert (le_bytes 8 inum ++ Zb (len name) :: name ++ x00 :: pad ++ rest = entry_image inum name pad ++ rest) as ->.
  { unfold entry_image. rewrite <- !app_assoc. cbn [app]. by rewrite <- app_assoc. }
  pose proof (len_entry_image inum name pad Hk) as He. rewrite read_at_Some; [|lia|lia|rewrite len_app; pose proof (len_nonneg rest); lia].
  f_equal. by apply slice_prefix.
Qed.

(** ** Finding an entry *)

(** The list that is searched, and the one without what is found. *)
Fixpoint find_name (name : list byte) (es : list (Z * list byte)) : option Z :=
  match es with
  | [] => None
  | (inum, nm) :: es => if bool_decide (nm = name) then Some inum else find_name name es
  end.
Fixpoint without (name : list byte) (es : list (Z * list byte)) : list (Z * list byte) :=
  match es with
  | [] => []
  | (inum, nm) :: es => if bool_decide (nm = name) then es else (inum, nm) :: without name es
  end.

(** The bytes of a list of entries, and the entries behind what is found. *)
Fixpoint entries_size (es : list (Z * list byte)) : Z :=
  match es with [] => 0 | (_, nm) :: es => esize (len nm) + entries_size es end.
Fixpoint behind (name : list byte) (es : list (Z * list byte)) : list (Z * list byte) :=
  match es with
  | [] => []
  | (_, nm) :: es => if bool_decide (nm = name) then es else behind name es
  end.

Lemma holds_size mem es : holds mem es -> len mem = entries_size es.
Proof. induction 1 as [|inum nm pad m es Hi Hg Hp Hh IH]; [done|]. cbn [entries_size]. rewrite len_app, len_entry_image by done. by rewrite IH. Qed.

Lemma behind_first name inum es1 es2 : Forall (fun e => e.2 <> name) es1 -> behind name (es1 ++ (inum, name) :: es2) = es2.
Proof.
  intros Hf. induction Hf as [|[i nm] es1 Hn Hf IH]; cbn [app behind]; [by rewrite bool_decide_true|]. by rewrite bool_decide_false.
Qed.

Lemma find_name_split name es :
  match find_name name es with
  | Some inum => exists es1 es2, es = es1 ++ (inum, name) :: es2 /\ Forall (fun e => e.2 <> name) es1 /\ without name es = es1 ++ es2 /\ behind name es = es2
  | None => Forall (fun e => e.2 <> name) es
  end.
Proof.
  induction es as [|[i nm] es IH]; [constructor|]. cbn [find_name without]. case_bool_decide as Hn.
  - subst nm. exists [], es. split_and!; try done. cbn [app behind]. by rewrite bool_decide_true.
  - destruct (find_name name es) as [inum|]; [|by constructor]. destruct IH as (es1 & es2 & -> & Hf & -> & _).
    assert (Forall (fun e => e.2 <> name) ((i, nm) :: es1)) as Hf' by (by constructor).
    exists ((i, nm) :: es1), es2. split_and!; try done. by apply (behind_first name inum ((i, nm) :: es1)).
Qed.

Lemma find_entry_step fuel mem end_ name off : off < end_ ->
  find_entry (S fuel) mem end_ name off =
    match mde_name_is mem off name with
    | None => Fault
    | Some true => Done off
    | Some false => match mde_name_len mem off with None => Fault | Some n => find_entry fuel mem end_ name (NEXT_MDE off n) end
    end.
Proof. intros H. cbn [find_entry]. by rewrite (proj2 (Z.ltb_lt off end_)). Qed.

Lemma find_entry_skip name m1 es1 : holds m1 es1 -> Forall (fun c => c <> x00) name -> Forall (fun e => e.2 <> name) es1 ->
  forall fuel p t end_, len p mod 8 = 0 -> len p + len m1 <= end_ ->
  find_entry (length es1 + fuel) (p ++ m1 ++ t) end_ name (len p) = find_entry fuel (p ++ m1 ++ t) end_ name (len p + len m1).
Proof.
  intros Hh Hn. induction Hh as [|inum nm pad m es Hi Hg Hp Hh IH]; intros Hf fuel p t end_ Hm He.
  { cbn. by rewrite Z.add_0_r. }
  inv Hf. rewrite len_app, (len_entry_image inum nm pad) in * by done. pose proof (esize_bounds (len nm) ltac:(done)) as [Hs1 Hs2]. pose proof (len_nonneg nm). pose proof (len_nonneg m).
  cbn [length Nat.add]. rewrite find_entry_step by lia. rewrite <- (app_assoc (entry_image inum nm pad)).
  rewrite entry_name_is, bool_decide_false by done. rewrite entry_name_len, entry_next by done.
  specialize (IH ltac:(done) fuel (p ++ entry_image inum nm pad) t end_). rewrite len_app, (len_entry_image inum nm pad) in IH by done.
  rewrite <- app_assoc in IH. rewrite IH by (Z.to_euclidean_division_equations; lia). f_equal. lia.
Qed.

Lemma find_entry_exact name mem es : holds mem es -> Forall (fun c => c <> x00) name ->
  match find_name name es with
  | Some inum => exists m1 pad m2 es1 es2, es = es1 ++ (inum, name) :: es2 /\ without name es = es1 ++ es2 /\ behind name es = es2 /\
      mem = m1 ++ entry_image inum name pad ++ m2 /\ holds m1 es1 /\ holds m2 es2 /\
      in_i64 inum /\ good_name name /\ len pad = esize (len name) - len name - 10 /\
      find_entry (dir_fuel (len mem)) mem (len mem) name 0 = Done (len m1)
  | None => find_entry (dir_fuel (len mem)) mem (len mem) name 0 = Done (len mem)
  end.
Proof.
  intros Hh Hn. pose proof (find_name_split name es) as Hs. pose proof (holds_len _ _ Hh) as [Hm8 Hl].
  assert (length es < dir_fuel (len mem))%nat as Hfuel.
  { unfold dir_fuel. assert (len es <= len mem / 16) by (apply Z.div_le_lower_bound; lia). unfold len in *. lia. }
  destruct (find_name name es) as [inum|].
  - destruct Hs as (es1 & es2 & -> & Hf & Hw & Hbh). destruct (holds_split _ _ _ _ _ Hh) as (m1 & pad & m2 & -> & H1 & H2 & Hi & Hg & Hp).
    exists m1, pad, m2, es1, es2. split_and!; try done.
    pose proof (find_entry_skip name m1 es1 H1 Hn Hf) as Hskip. set (mem := m1 ++ _) in *. rewrite length_app in Hfuel. cbn [length] in Hfuel.
    replace (dir_fuel (len mem)) with (length es1 + S (dir_fuel (len mem) - length es1 - 1))%nat by lia.
    pose proof (len_nonneg m1). pose proof (len_nonneg m2). pose proof (len_nonneg name). pose proof (esize_bounds (len name) ltac:(done)).
    assert (len mem = len m1 + (esize (len name) + len m2)) as El by (unfold mem; by rewrite !len_app, len_entry_image by done).
    pose proof (Hskip (S (dir_fuel (len mem) - length es1 - 1)) [] (entry_image inum name pad ++ m2) (len mem) eq_refl ltac:(rewrite len_nil; lia)) as E.
    rewrite len_nil in E. cbn [app] in E. fold mem in E. rewrite E. rewrite Z.add_0_l.
    rewrite find_entry_step by lia. unfold mem at 1. by rewrite entry_name_is, bool_decide_true by done.
  - pose proof (find_entry_skip name mem es Hh Hn Hs (dir_fuel (len mem) - length es) [] [] (len mem) eq_refl ltac:(rewrite len_nil; lia)) as E.
    rewrite len_nil in E. cbn [app] in E. rewrite app_nil_r in E. replace (length es + (dir_fuel (len mem) - length es))%nat with (dir_fuel (len mem)) in E by lia.
    rewrite E. destruct (dir_fuel (len mem) - length es)%nat; cbn [find_entry]; rewrite Z.add_0_l, (proj2 (Z.ltb_ge _ _)) by lia; done.
Qed.

(** ** Directories *)

Section directory.
Context {C : Type} {HC : BlockCache C} {HL : BlockCacheLaws C}.
Abbreviation St := (fs_state C).

Definition dir_bytes (s : St) (dir : myfs_inode) (n : nat) : list byte := slice 0 (size (data dir)) (fstream (dat s) dir n).

(** A directory of at most [n] blocks with the entries [es], ["."] first. *)
Record directory (s : St) (dir : myfs_inode) (n : nat) (es : list (Z * list byte)) : Prop := {
  dr_file : file_ok s dir n;
  dr_memory : no_oom (fs_host s);
  dr_name : len (sb_name (dsb (fs_info s))) = 32;
  dr_etc : is_Some (etc dir);
  dr_holds : holds (dir_bytes s dir n) es;
  dr_copy : mi_contents dir = None \/ mi_contents dir = Some (dir_bytes s dir n);
  dr_dot : exists i es', es = (i, [x2e]) :: es';
}.
(** With its copy in memory. *)
Definition loaded (s : St) (dir : myfs_inode) (n : nat) (es : list (Z * list byte)) : Prop :=
  directory s dir n es /\ mi_contents dir = Some (dir_bytes s dir n).

Lemma dir_size s dir n es : directory s dir n es -> len (dir_bytes s dir n) = size (data dir) /\ 0 < size (data dir) <= Z.of_nat n * bs s.
Proof.
  intros Hd. pose proof (fo_size _ _ _ (dr_file _ _ _ _ Hd)) as Hsz. pose proof (len_fstream _ _ _ (fo_mapped _ _ _ (dr_file _ _ _ _ Hd))) as Hl.
  assert (len (dir_bytes s dir n) = size (data dir)) as E by (unfold dir_bytes; rewrite len_slice; lia). split; [done|].
  pose proof (holds_len _ _ (dr_holds _ _ _ _ Hd)) as [_ H]. destruct (dr_dot _ _ _ _ Hd) as (i & es' & ->). rewrite len_cons in H. pose proof (len_nonneg es'). lia.
Qed.

(** The copy in memory and the counter are no part of the inode on disk. *)
Lemma file_ok_etc s dir dir' n : file_ok s dir n -> inode_num dir' = inode_num dir -> data dir' = data dir -> file_ok s dir' n.
Proof.
  intros Hok Hn E. apply (file_ok_same s s dir dir' n); rewrite ?E; try done.
  - apply (same_fs_info s s dir n); done.
  - intros k _. unfold fblock. by rewrite E.
  - apply Hok.
Qed.

Lemma malloc_ok {A} n (k : option Z -> M St A) Q s :
  no_oom (fs_host s) -> (forall p h, no_oom h -> h_time h = h_time (fs_host s) -> h_junk h = h_junk (fs_host s) -> wp (k (Some p)) Q (upd_host h s)) ->
  wp (p ← in_host (malloc n); k p) Q s.
Proof.
  intros Ho Hk. apply wp_bind, wp_in_host. eapply wp_mono; [by apply malloc_wp|]. cbn beta. intros p h' (-> & Hn & Ht & _ & _ & Hj). by apply Hk.
Qed.

Lemma file_ok_host s h dir n : file_ok s dir n -> file_ok (upd_host h s) dir n.
Proof.
  intros Hok. apply (file_ok_same s (upd_host h s) dir dir n); try done; [|apply Hok]. apply same_fs_host, (mp_disk _ _ _ (fo_mapped _ _ _ Hok)).
Qed.

Lemma directory_host s h dir n es : directory s dir n es -> no_oom h -> directory (upd_host h s) dir n es.
Proof. intros [] Ho. split; try done. by apply file_ok_host. Qed.

Lemma load_contents_wp s dir n es : directory s dir n es ->
  wp (load_contents dir) (fun r s' => exists dir', r = (0, dir') /\ loaded s' dir' n es /\ data dir' = data dir /\
    bs s' = bs s) s.
Proof.
  intros Hd. pose proof Hd as [Hok Ho Hname [[a e] Hetc] Hh Hc Hdot]. destruct (dir_size _ _ _ _ Hd) as [Hlen Hsz].
  unfold load_contents. rewrite Hetc. wp_step. wp_step.
  destruct (mi_contents dir) as [mem|] eqn:Em.
  { wp_step. exists dir. destruct Hc as [|[= ->]]; [done|]. split; [done|]. split; [by split|done]. }
  unfold get_dir_contents. apply malloc_ok; [done|]. intros p h Ho1 _ _. cbn beta iota. wp_step.
  set (s1 := upd_host h s). pose proof (file_ok_host s h dir n Hok) as Hok1. fold s1 in Hok1.
  destruct (size_fits s dir n (size (data dir)) (fo_mapped _ _ _ Hok) ltac:(lia)) as (H31 & Hu & _). rewrite Hu.
  eapply wp_mono; [apply (read_data_spec s1 dir n 0 (size (data dir))); [apply Hok1|apply Hok1|lia|lia|lia]|]. cbn beta.
  intros r s2 [-> Hr]. assert (clamp (size (data dir)) (Z.max 0 0) (size (data dir)) = size (data dir)) as ->.
  { unfold clamp. by rewrite Z.max_id, Z.add_0_l, Z.gtb_ltb, Z.ltb_irrefl. }
  rewrite Z.max_id, Z.eqb_refl. cbn [negb]. unfold mi_set_contents, mi_upd_etc. rewrite Hetc. wp_step. wp_step. wp_step.
  destruct Hr as [Hd2 Hs2]. pose proof (same_fs_step _ _ _ Hd2 Hs2) as Hf2. pose proof Hs2 as [Hi2 Hh2 Hdat2 _ _].
  eexists. split; [done|]. change (dat s1) with (dat s) in *.
  assert (dir_bytes s2 (mi_set_etc (Some (a, Etc (Some (slice 0 (size (data dir)) (fstream (dat s) dir n))) (e_counter e))) dir) n = dir_bytes s dir n) as Eb.
  { unfold dir_bytes. by rewrite Hdat2. }
  split; [|split; [done|apply Hf2]]. split; [split|].
  - apply (file_ok_same s1 s2 dir); try done; [|apply Hok1]. intros k _. rewrite Hdat2. done.
  - by rewrite Hh2.
  - by rewrite (sf_name _ _ Hf2).
  - by eexists.
  - by rewrite Eb.
  - right. by rewrite Eb.
  - done.
  - by rewrite Eb.
Qed.

(** ** Looking up *)

Lemma dir_lookup_wp s dir n es name : directory s dir n es -> Forall (fun c => c <> x00) name ->
  wp (dir_lookup dir name) (fun r s' => exists dir', loaded s' dir' n es /\
    r = match find_name name es with Some inum => (0, Some inum, dir') | None => (ENOENT, None, dir') end) s.
Proof.
  intros Hd Hn. unfold dir_lookup. wp_step. eapply wp_mono; [by apply load_contents_wp|]. cbn beta. intros r s1 (d1 & -> & Hl & _). cbn beta iota. cbn [Z.eqb negb].
  pose proof Hl as [Hd1 Hc]. destruct (dir_size _ _ _ _ Hd1) as [Hlen Hsz]. rewrite Hc. cbn [default from_option id]. rewrite <- Hlen.
  pose proof (find_entry_exact name _ _ (dr_holds _ _ _ _ Hd1) Hn) as Hf. wp_step. destruct (find_name name es) as [inum|].
  - destruct Hf as (m1 & pad & m2 & es1 & es2 & _ & _ & _ & Em & _ & _ & Hi & Hg & Hp & E).
    unfold lift. rewrite E. apply wp_ret. rewrite Em, (proj2 (Z.ltb_lt _ _)).
    2: { rewrite !len_app, len_entry_image by done. pose proof (len_nonneg name). pose proof (esize_bounds (len name) ltac:(done)). pose proof (len_nonneg m2). lia. }
    rewrite entry_inum by done. wp_step. wp_step. wp_step. by exists d1.
  - unfold lift. rewrite Hf. apply wp_ret. rewrite Z.ltb_irrefl. apply wp_ret. by exists d1.
Qed.
(** ** Inserting *)

Lemma junk_ok {A} n (k : list byte -> M St A) Q s : 0 <= n ->
  (forall j, len j = n -> wp (k j) Q s) -> wp (j ← in_host (junk n); k j) Q s.
Proof.
  intros Hn Hk. apply wp_bind, wp_in_host. unfold junk. apply wp_gets. replace (upd_host (fs_host s) s) with s by (by destruct s). apply Hk.
  unfold len. rewrite length_take, length_app, length_replicate. lia.
Qed.

Lemma realloc_ok {A} mem n (k : option (list byte) -> M St A) Q s : 0 <= n -> no_oom (fs_host s) ->
  (forall h j, no_oom h -> len j = n -> wp (k (Some (take (Z.to_nat n) mem ++ drop (length mem) j))) Q (upd_host h s)) ->
  wp (p ← realloc mem n; k p) Q s.
Proof.
  intros Hn Ho Hk. apply wp_bind. unfold realloc. apply malloc_ok; [done|]. intros p h Ho1 _ _. cbn beta iota. apply junk_ok; [done|]. intros j Hj. apply wp_ret. by apply Hk.
Qed.

(** The bytes the directory has after a routine wrote them. *)
Lemma loaded_after s' dir' n es a c : file_ok s' dir' n -> no_oom (fs_host s') -> len (sb_name (dsb (fs_info s'))) = 32 ->
  etc dir' = Some (a, Etc (Some (dir_bytes s' dir' n)) c) -> holds (dir_bytes s' dir' n) es -> (exists i es', es = (i, [x2e]) :: es') -> loaded s' dir' n es.
Proof.
  intros Hok Ho Hname He Hh Hdot. assert (mi_contents dir' = Some (dir_bytes s' dir' n)) as Hc by (unfold mi_contents; by rewrite He).
  split; [|done]. split; try done; by right.
Qed.

Lemma dir_insert_wp s dir n es name inum : directory s dir n es -> good_name name -> in_i64 inum ->
  blocks_for (bs s) (size (data dir)) = blocks_for (bs s) (size (data dir) + esize (len name)) ->
  wp (dir_insert dir name inum) (fun r s' => exists dir', r = (0, dir') /\ loaded s' dir' n (es ++ [(inum, name)])) s.
Proof.
  intros Hd Hg Hi Hroom. pose proof (esize_bounds (len name) ltac:(done)) as [Hes Hes8]. pose proof Hg as [_ Hlen256]. pose proof (len_nonneg name).
  assert (esize (len name) <= 272) as H272 by (unfold esize; Z.to_euclidean_division_equations; lia).
  unfold dir_insert. apply junk_ok; [done|]. intros buff Hbuff. change DIRENT_BUF with 273 in Hbuff. wp_step.
  eapply wp_mono; [by apply load_contents_wp|]. cbn beta. intros r s1 (d1 & -> & [Hd1 Hc] & Edata & Ebs). cbn beta iota. cbn [Z.eqb negb]. rewrite <- Edata, <- Ebs in Hroom.
  destruct (dir_size _ _ _ _ Hd1) as [Hlen Hsz]. pose proof Hd1 as [Hok1 Ho1 Hname1 [[a e] Hetc1] Hh1 _ Hdot].
  rewrite put_dirent_image by lia. wp_step. wp_step. replace (u8 (len name)) with (len name) by (unfold u8, uwrap; rewrite Z.mod_small; [done|lia]).
  replace (MDE_SIZE (len name)) with (esize (len name)) by (unfold MDE_SIZE; by rewrite NEXT_MDE_eq).
  rewrite Hc. cbn [default from_option id]. set (z := size (data d1) + esize (len name)) in *.
  pose proof (geom_bounds _ (mp_geom _ _ _ (fo_mapped _ _ _ Hok1))) as Hgb.
  assert (z <= Z.of_nat n * bs s1) as Hz.
  { pose proof (blocks_for_ge (bs s1) z ltac:(lia)). pose proof (blocks_for_le (bs s1) (size (data d1)) (Z.of_nat n) ltac:(lia) ltac:(lia)). nia. }
  destruct (size_fits s1 d1 n z (fo_mapped _ _ _ Hok1) ltac:(lia)) as (_ & Hu & _). rewrite Hu.
  apply realloc_ok; [lia|done|]. intros h j Ho2 Hj. cbn beta iota.
  destruct (dirent_prefix buff inum name ltac:(lia)) as (pad & Hpad & ->). wp_step. wp_step.
  set (mem := dir_bytes s1 d1 n) in *. rewrite (take_ge mem) by (unfold len in Hlen; lia).
  set (E := entry_image inum name pad). assert (len E = esize (len name)) as HE by (by apply len_entry_image).
  rewrite <- Hlen at 1. rewrite write_at_mid by (unfold len in *; rewrite length_drop; lia). rewrite (drop_ge (drop _ j)), app_nil_r by (unfold len in *; rewrite length_drop; lia).
  wp_step. wp_step. unfold mi_upd_etc. rewrite Hetc1. wp_step. wp_step. set (dir2 := mi_set_etc _ d1).
  assert (len (mem ++ E) = z) as Hz' by (rewrite len_app; unfold z; lia). set (s2 := upd_host h s1).
  assert (file_ok s2 dir2 n) as Hok2 by (apply (file_ok_etc s2 d1); [by apply file_ok_host|done|done]).
  rewrite <- Hz'. wp_step. eapply wp_mono; [apply (write_grow_spec s2 dir2 n (mem ++ E)); [done|done| |]|].
  { change (size (data dir2)) with (size (data d1)). change (bs s2) with (bs s1). rewrite Hz'. unfold z. lia. }
  { change (size (data dir2)) with (size (data d1)). change (bs s2) with (bs s1). by rewrite Hz'. }
  cbn beta. intros r s3 (-> & Hok3 & Hf3 & Hh3 & Hb3). cbn beta iota. rewrite !Z.eqb_refl. cbn [Z.eqb negb orb]. apply wp_ret.
  eexists. split; [done|]. eapply loaded_after; [done|by rewrite Hh3|by rewrite (sf_name _ _ Hf3)| | |].
  - unfold dir_bytes. cbn [size data mi_set_mtime mi_set_size mi_set_data ds_set_size]. rewrite Hb3. done.
  - unfold dir_bytes. change (size (data (mi_set_mtime _ (mi_set_size (len (mem ++ E)) dir2)))) with (len (mem ++ E)). rewrite Hb3.
    apply holds_app; [done|]. rewrite <- (app_nil_r E). apply Holds_cons; [done|done|done|constructor].
  - destruct Hdot as (i & es' & ->). by exists i, (es' ++ [(inum, name)]).
Qed.
(** ** Deleting *)

(** An entry that goes from the middle: what follows moves down. *)
Lemma move_down {A} (m1 x m2 : list A) : write_at (len m1) m2 (m1 ++ x ++ m2) = Some (m1 ++ m2 ++ drop (length m2) (x ++ m2)).
Proof. apply write_at_mid. rewrite length_app. lia. Qed.

(** What [dir_delete] does once the entry is found, at the end of [m1]. *)
Lemma dir_delete_found s dir n es es1 es2 name inum m1 pad m2 :
  loaded s dir n es -> es = es1 ++ (inum, name) :: es2 -> dir_bytes s dir n = m1 ++ entry_image inum name pad ++ m2 ->
  holds m1 es1 -> holds m2 es2 -> len pad = esize (len name) - len name - 10 -> name <> [x2e] -> len m2 <= esize (len name) ->
  blocks_for (bs s) (size (data dir)) = blocks_for (bs s) (size (data dir) - esize (len name) - 1) ->
  let end_ := size (data dir) in let sz := esize (len name) in let nsize := end_ - sz in
  wp (mem ← (if len m1 + sz <? end_ then memcpy_in (len m1) (len m1 + sz) (end_ - (len m1 + sz)) (dir_bytes s dir n) else mret (dir_bytes s dir n));
      dir ← opt (mi_set_contents (Some mem) dir);
      ptr ← realloc mem nsize;
      match ptr with
      | None => mret (ENOMEM, dir)
      | Some ptr =>
          dir ← opt (mi_upd_etc (fun e => Etc (Some ptr) (i32 (e_counter e + 1))) dir);
          '(ret, nsize', dir) ← myfs_write_data_stream dir 0 ptr nsize;
          if negb (ret =? 0) || negb (nsize' =? u64 (size (data dir) - sz)) then mret (ret, dir) else
          '(_, dir) ← myfs_set_file_size dir nsize;
          mret (0, dir)
      end)
     (fun r s' => exists dir', r = (0, dir') /\ loaded s' dir' n (es1 ++ es2)) s.
Proof.
  intros [Hd Hc] Ees Hb H1 H2 Hpad Hne Hfit Hroom end_ sz nsize. destruct (dir_size _ _ _ _ Hd) as [Hlen Hsz].
  pose proof Hd as [Hok Ho Hname [[a e] Hetc] Hh _ Hdot]. set (E := entry_image inum name pad) in *.
  assert (len E = sz) as HE by (by apply len_entry_image). pose proof (esize_bounds (len name) ltac:(done)) as [Hes _]. fold sz in Hes. pose proof (len_nonneg name). pose proof (len_nonneg m1). pose proof (len_nonneg m2).
  assert (end_ = len m1 + sz + len m2) as Eend by (unfold end_; rewrite <- Hlen, Hb, !len_app; lia).
  assert (0 < len m1) as Hm1.
  { destruct Hdot as (i & es' & Ed). destruct es1 as [|x es1]; [rewrite Ees in Ed; cbn in Ed; congruence|].
    pose proof (holds_len _ _ H1) as [_ Hl]. rewrite len_cons in Hl. pose proof (len_nonneg es1). lia. }
  assert (exists t, wp (if len m1 + sz <? end_ then memcpy_in (len m1) (len m1 + sz) (end_ - (len m1 + sz)) (dir_bytes s dir n) else mret (dir_bytes s dir n))
    (fun r s' => r = m1 ++ m2 ++ t /\ s' = s) s) as [t Hmove].
  { rewrite Hb. destruct (Z.ltb_spec (len m1 + sz) end_) as [Hlt|Hge].
    - exists (drop (length m2) (E ++ m2)). unfold memcpy_in. rewrite (proj2 (Z.ltb_ge _ _)) by lia. rewrite read_at_Some by (rewrite ?len_app; lia).
      assert (slice (len m1 + sz) (end_ - (len m1 + sz)) (m1 ++ E ++ m2) = m2) as ->.
      { rewrite app_assoc, slice_app_r by (rewrite ?len_app; lia). replace (len m1 + sz - len (m1 ++ E)) with 0 by (rewrite len_app; lia). apply slice_all. lia. }
      wp_step. wp_step. rewrite move_down. by wp_step.
    - exists E. assert (m2 = []) as -> by (destruct m2; [done|rewrite len_cons in *; pose proof (len_nonneg m2); lia]). wp_step. cbn [app]. by rewrite app_nil_r. }
  wp_step. eapply wp_mono; [exact Hmove|]. cbn beta. intros mem s' [-> ->]. clear Hmove.
  assert (forall c, mi_set_contents c dir = Some (mi_set_etc (Some (a, Etc c (e_counter e))) dir)) as -> by (intros c; unfold mi_set_contents, mi_upd_etc; by rewrite Hetc).
  wp_step. wp_step. unfold mi_upd_etc.
  assert (0 < nsize < end_ /\ len (m1 ++ m2) = nsize) as [Hns Hnl] by (rewrite len_app; unfold nsize; lia).
  apply realloc_ok; [lia|done|]. intros h j Ho2 Hj. cbn beta iota.
  rewrite (drop_ge j) by (unfold len in Hj, Hnl; rewrite !length_app in *; lia). rewrite app_nil_r.
  assert (take (Z.to_nat nsize) (m1 ++ m2 ++ t) = m1 ++ m2) as -> by (rewrite app_assoc; apply take_app_length'; unfold len in *; lia).
  cbn [etc mi_set_etc]. wp_step. wp_step. set (dir2 := mi_set_etc _ (mi_set_etc _ dir)). set (s2 := upd_host h s).
  assert (file_ok s2 dir2 n) as Hok2 by (apply (file_ok_etc s2 dir); [by apply file_ok_host|done|done]).
  destruct (size_fits s dir n nsize (fo_mapped _ _ _ Hok) ltac:(lia)) as (_ & Hu & _).
  wp_step. eapply wp_mono; [apply (write_in_place_spec s2 dir2 n 0 nsize (m1 ++ m2)); [done|lia|change (size (data dir2)) with end_; lia]|]. cbn beta.
  rewrite slice_all by done. intros r s3 (-> & [Hok3 Hi3 Hh3 Hp3 Hst3 _ _]). cbn beta iota. set (dir3 := mi_set_mtime _ dir2) in *.
  change (size (data dir3) - sz) with nsize. rewrite Hu, !Z.eqb_refl. cbn [negb orb].
  assert (file_ok s3 dir3 n) as Hok3' by (by apply (file_ok_etc s3 dir2)).
  wp_step. eapply wp_mono; [apply (set_file_size_here s3 dir3 n nsize); [done|by rewrite Hi3|exact Hns|]|].
  { rewrite (bs_info s2 s3) by done. exact Hroom. }
  cbn beta. intros r s4 [-> [Hok4 Hf4 Hh4 Hst4 _]]. cbn beta iota. apply wp_ret. eexists. split; [done|].
  set (dir4 := mi_set_mtime _ (mi_set_size nsize dir3)) in *.
  assert (dir_bytes s4 dir4 n = m1 ++ m2) as Eb4.
  { unfold dir_bytes. change (size (data dir4)) with nsize. rewrite Hst4. change (fstream (dat s3) dir3 n) with (fstream (dat s3) dir2 n). rewrite Hst3. apply slice_splice_same; [done| |done].
    rewrite (len_fstream _ _ _ (fo_mapped _ _ _ Hok2)). change (bs s2) with (bs s). lia. }
  eapply loaded_after; [done|by rewrite Hh4, Hh3|by rewrite (sf_name _ _ Hf4), Hi3|by rewrite Eb4|rewrite Eb4; by apply holds_app|].
  destruct Hdot as (i & es' & Ed). destruct es1 as [|x es1]; [inv H1; rewrite len_nil in Hm1; lia|]. rewrite Ees in Ed. cbn in Ed. injection Ed as -> _. by exists i, (es1 ++ es2).
Qed.
(** The cases of [dir_delete]: what is refused, a name that is not there, an
    entry that what follows fits over, and one that it does not. *)
Lemma dir_delete_dots s dir name : is_dot name || is_dotdot name = true -> wp (dir_delete dir name) (fun r s' => r = (EINVAL, dir) /\ s' = s) s.
Proof. intros E. unfold dir_delete. rewrite E. by apply wp_ret. Qed.

Lemma dir_delete_absent s dir n es name : directory s dir n es -> Forall (fun c => c <> x00) name ->
  is_dot name || is_dotdot name = false -> find_name name es = None ->
  wp (dir_delete dir name) (fun r s' => exists dir', loaded s' dir' n es /\ r = (ENOENT, dir')) s.
Proof.
  intros Hd Hn Edot Ef. unfold dir_delete. rewrite Edot.
  wp_step. eapply wp_mono; [by apply load_contents_wp|]. cbn beta. intros r s1 (d1 & -> & Hl & Edata & Ebs). cbn beta iota. cbn [Z.eqb negb].
  pose proof Hl as [Hd1 Hc]. destruct (dir_size _ _ _ _ Hd1) as [Hlen Hsz]. rewrite Hc. cbn [default from_option id].
  pose proof (find_entry_exact name _ _ (dr_holds _ _ _ _ Hd1) Hn) as Hf. rewrite Hlen, Ef in Hf. wp_step.
  unfold lift. rewrite Hf. apply wp_ret. rewrite Z.geb_leb, Z.leb_refl. apply wp_ret. by exists d1.
Qed.

Lemma dir_delete_present s dir n es name inum : directory s dir n es -> Forall (fun c => c <> x00) name ->
  is_dot name || is_dotdot name = false -> find_name name es = Some inum -> entries_size (behind name es) <= esize (len name) ->
  blocks_for (bs s) (size (data dir)) = blocks_for (bs s) (size (data dir) - esize (len name) - 1) ->
  wp (dir_delete dir name) (fun r s' => exists dir', loaded s' dir' n (without name es) /\ r = (0, dir')) s.
Proof.
  intros Hd Hn Edot Ef Hfit Hroom. unfold dir_delete. rewrite Edot. assert (name <> [x2e]) as Hne by (intros ->; done).
  wp_step. eapply wp_mono; [by apply load_contents_wp|]. cbn beta. intros r s1 (d1 & -> & Hl & Edata & Ebs). cbn beta iota. cbn [Z.eqb negb]. rewrite <- Edata, <- Ebs in Hroom.
  pose proof Hl as [Hd1 Hc]. destruct (dir_size _ _ _ _ Hd1) as [Hlen Hsz]. rewrite Hc. cbn [default from_option id].
  pose proof (find_entry_exact name _ _ (dr_holds _ _ _ _ Hd1) Hn) as Hf. rewrite Hlen, Ef in Hf. wp_step.
  destruct Hf as (m1 & pad & m2 & es1 & es2 & Ees & Ew & Ebh & Em & H1 & H2 & Hi & Hg & Hp & E). unfold lift. rewrite E. apply wp_ret.
  pose proof (len_nonneg name). pose proof (len_nonneg m2). pose proof (len_nonneg m1). pose proof (esize_bounds (len name) ltac:(done)).
  assert (size (data d1) = len m1 + (esize (len name) + len m2)) as Esz by (rewrite <- Hlen, Em, !len_app, len_entry_image by done; lia).
  rewrite Z.geb_leb, (proj2 (Z.leb_gt _ _)) by lia. rewrite Em at 1. rewrite entry_name_len by done. wp_step. wp_step.
  rewrite entry_next by (by apply (holds_len m1 es1)). replace (len m1 + esize (len name) - len m1) with (esize (len name)) by lia.
  destruct (size_fits s1 d1 n (size (data d1) - esize (len name)) (fo_mapped _ _ _ (dr_file _ _ _ _ Hd1)) ltac:(lia)) as (_ & -> & _).
  assert (len m2 <= esize (len name)) as Hm2 by (by rewrite (holds_size _ _ H2), <- Ebh).
  eapply wp_mono; [by eapply (dir_delete_found s1 d1 n es es1 es2 name inum m1 pad m2)|]. cbn beta.
  intros r s2 (d2 & -> & Hl2). exists d2. by rewrite Ew.
Qed.

Lemma dir_delete_overlap s dir n es name inum : directory s dir n es -> Forall (fun c => c <> x00) name ->
  is_dot name || is_dotdot name = false -> find_name name es = Some inum -> esize (len name) < entries_size (behind name es) ->
  dir_delete dir name s = Fault.
Proof.
  intros Hd Hn Edot Ef Hfit. unfold dir_delete. rewrite Edot.
  pose proof (load_contents_wp s dir n es Hd) as Hload. apply wp_done in Hload as ([ret d] & s1 & Eload & d1 & [= -> ->] & Hl & _ & _).
  unfold mbind at 1, M_bind at 1. rewrite Eload. cbn [Z.eqb negb].
  pose proof Hl as [Hd1 Hc]. destruct (dir_size _ _ _ _ Hd1) as [Hlen Hsz]. rewrite Hc. cbn [default from_option id].
  pose proof (find_entry_exact name _ _ (dr_holds _ _ _ _ Hd1) Hn) as Hf. rewrite Hlen, Ef in Hf.
  destruct Hf as (m1 & pad & m2 & es1 & es2 & Ees & Ew & Ebh & Em & H1 & H2 & Hi & Hg & Hp & E).
  pose proof (len_nonneg name). pose proof (len_nonneg m1). pose proof (esize_bounds (len name) ltac:(done)).
  assert (esize (len name) < len m2) as Hm2 by (by rewrite (holds_size _ _ H2), <- Ebh).
  assert (size (data d1) = len m1 + (esize (len name) + len m2)) as Esz by (rewrite <- Hlen, Em, !len_app, len_entry_image by done; lia).
  unfold mbind at 1, M_bind at 1, lift. rewrite E. cbn beta iota. rewrite Z.geb_leb, (proj2 (Z.leb_gt _ _)) by lia.
  rewrite Em at 1. rewrite entry_name_len by done. unfold mbind at 1, M_bind at 1, opt at 1. cbn beta iota zeta.
  rewrite entry_next by (by apply (holds_len m1 es1)). rewrite (proj2 (Z.ltb_lt _ _)) by lia.
  unfold memcpy_in. rewrite (proj2 (Z.ltb_lt _ _)) by lia. done.
Qed.

(** ** Listing *)

Lemma skip_entries_exact k : forall p m es end_, holds m es -> len p mod 8 = 0 -> end_ = len p + len m ->
  exists m1 m2, m = m1 ++ m2 /\ holds m1 (take k es) /\ holds m2 (drop k es) /\ skip_entries k (p ++ m) end_ (len p) = Some (len p + len m1).
Proof.
  induction k as [|k IH]; intros p m es end_ Hh Hp He.
  { exists [], m. cbn. rewrite Z.add_0_r. split_and!; try done. constructor. }
  cbn [skip_entries]. destruct Hh as [|inum name pad m es Hi Hg Hpad Hh].
  { exists [], []. rewrite (proj2 (Z.ltb_ge _ _)) by (rewrite He, len_nil; lia). rewrite len_nil, Z.add_0_r. split_and!; try done; constructor. }
  pose proof (esize_bounds (len name) ltac:(done)) as [Hs Hs8]. pose proof (len_nonneg name). pose proof (len_nonneg m).
  rewrite len_app, (len_entry_image inum name pad) in He by done. rewrite (proj2 (Z.ltb_lt _ _)) by lia.
  rewrite entry_name_len by done. cbn [mbind option_bind]. rewrite entry_next by done.
  destruct (IH (p ++ entry_image inum name pad) m es end_ Hh) as (m1 & m2 & -> & H1 & H2 & E).
  { rewrite len_app, len_entry_image by done. Z.to_euclidean_division_equations; lia. }
  { rewrite len_app, len_entry_image by done. lia. }
  exists (entry_image inum name pad ++ m1), m2. split_and!; [by rewrite <- app_assoc|by constructor|done|].
  rewrite <- (app_assoc p), len_app, len_entry_image in E by done. rewrite E, len_app, len_entry_image by done. f_equal. lia.
Qed.

(** The offset after the first [k] entries. *)
Definition points (bytes : list byte) (es : list (Z * list byte)) (k : nat) (off : Z) : Prop :=
  exists m1 m2, bytes = m1 ++ m2 /\ holds m1 (take k es) /\ holds m2 (drop k es) /\ off = len m1.

(** The entry the next read shows: one back when the directory has changed. *)
Definition in_sync (dir : myfs_inode) (dc : dir_cookie) : bool := dc_counter dc =? mi_counter dir.
Definition shows (dir : myfs_inode) (dc : dir_cookie) : nat := Z.to_nat (if in_sync dir dc then dc_index dc else dc_index dc - 1).

Lemma entry_at_points bytes es k off : points bytes es k off ->
  match es !! k with
  | Some (inum, name) => off < len bytes /\ mde_inum bytes off = Some inum /\ mde_name_len bytes off = Some (len name) /\
      read_at (off + MDE_NAME) (len name + 1) bytes = Some (name ++ [x00]) /\ points bytes es (S k) (NEXT_MDE off (len name))
  | None => len bytes <= off
  end.
Proof.
  intros (m1 & m2 & -> & H1 & H2 & ->). destruct (es !! k) as [[inum name]|] eqn:Ek.
  - rewrite (drop_S es (inum, name) k Ek) in H2. inversion H2 as [|? ? pad m ? Hi Hg Hp Hm Em [Ee E1 E2]]. subst.
    pose proof (esize_bounds (len name) ltac:(done)). pose proof (len_nonneg name). pose proof (len_nonneg m).
    split_and!; [rewrite !len_app, (len_entry_image inum name pad) by done; lia|by apply entry_inum|by apply entry_name_len| |].
    + rewrite (entry_read m1 inum name pad m MDE_NAME (len name + 1) (le_bytes 8 inum ++ [Zb (len name)]) (name ++ x00 :: pad ++ m)).
      * f_equal. replace (Z.to_nat (len name + 1)) with (length (name ++ [x00])) by (rewrite length_app; unfold len; cbn; lia).
        change (x00 :: pad ++ m) with ([x00] ++ pad ++ m). rewrite app_assoc. by rewrite take_app_length.
      * unfold entry_image. rewrite <- !app_assoc. cbn [app]. by rewrite <- app_assoc.
      * unfold MDE_NAME. lia.
      * by rewrite len_app, len_le_bytes.
      * rewrite len_app, len_cons. pose proof (len_nonneg (pad ++ m)). lia.
      * by rewrite len_app, len_le_bytes.
    + rewrite entry_next by (by apply (holds_len m1 _ H1)). exists (m1 ++ entry_image inum name pad), m. split_and!; [by rewrite <- app_assoc| |done|by rewrite len_app, len_entry_image].
      rewrite (take_S_r es k (inum, name) Ek). apply holds_app; [done|]. rewrite <- (app_nil_r (entry_image _ _ _)). apply Holds_cons; [done|done|done|constructor].
  - apply lookup_ge_None in Ek. rewrite drop_ge in H2 by done. inv H2. rewrite app_nil_r. lia.
Qed.

Lemma myfs_readdir_wp s dir n es dc : loaded s dir n es -> i_magic1 dir = INODE_MAGIC1 ->
  (in_sync dir dc = true -> points (dir_bytes s dir n) es (shows dir dc) (curptr dc)) ->
  wp (myfs_readdir dir dc) (fun r s' => s' = s /\
    match es !! shows dir dc with
    | Some (inum, name) => exists dc', r = (0, 1, Some (Dirent (fd (fs_info s)) inum (len name) (name ++ [x00])), dc') /\
        in_sync dir dc' = true /\ dc_index dc' = (if in_sync dir dc then dc_index dc + 1 else dc_index dc) /\
        points (dir_bytes s dir n) es (S (shows dir dc)) (curptr dc')
    | None => exists dc', r = (0, 0, None, dc')
    end) s.
Proof.
  intros [Hd Hc] Hmag Hpt. destruct (dir_size _ _ _ _ Hd) as [Hlen Hsz]. destruct (dr_etc _ _ _ _ Hd) as [ae Hetc].
  unfold myfs_readdir, CHECK_INODE. rewrite Hmag, Z.eqb_refl, Hetc, (proj2 (Z.ltb_ge _ _)) by lia. cbn [negb]. wp_step. wp_step. rewrite Hc.
  unfold myfs. wp_step. wp_step. set (bytes := dir_bytes s dir n) in *.
  assert (exists off, points bytes es (shows dir dc) off /\
    wp (if negb (dc_counter dc =? mi_counter dir) then off ← opt (skip_entries (Z.to_nat (dc_index dc - 1)) bytes (size (data dir)) 0); mret (Cookie off (dc_index dc - 1) (mi_counter dir)) else mret dc)
      (fun dc' s' => dc' = Cookie off (if in_sync dir dc then dc_index dc else dc_index dc - 1) (mi_counter dir) /\ s' = s) s) as (off & Hoff & Hsync).
  { unfold shows, in_sync in *. destruct (Z.eqb_spec (dc_counter dc) (mi_counter dir)) as [E|E]; cbn [negb].
    - exists (curptr dc). split; [by apply Hpt|]. wp_step. split; [|done]. rewrite <- E. by destruct dc.
    - destruct (skip_entries_exact (Z.to_nat (dc_index dc - 1)) [] bytes es (size (data dir)) (dr_holds _ _ _ _ Hd) eq_refl) as (m1 & m2 & Eb & H1 & H2 & Es); [rewrite len_nil; lia|].
      rewrite len_nil in Es. cbn [app] in Es. rewrite Z.add_0_l in Es. exists (len m1). split; [by exists m1, m2|]. rewrite Es. wp_step. wp_step. by wp_step. }
  wp_step. eapply wp_mono; [exact Hsync|]. cbn beta. intros dc1 s1 [-> ->]. cbn [curptr dc_index dc_counter]. rewrite <- Hlen.
  pose proof (entry_at_points _ _ _ _ Hoff) as He. destruct (es !! shows dir dc) as [[inum name]|].
  - destruct He as (Hlt & Hin & Hnl & Hrd & Hnext). rewrite Z.geb_leb, (proj2 (Z.leb_gt _ _)) by done. rewrite Hin. wp_step. wp_step. rewrite Hnl. wp_step. wp_step. rewrite Hrd. wp_step. wp_step. wp_step.
    split; [done|]. eexists. split; [done|]. unfold in_sync at 1. cbn [dc_counter dc_index curptr]. rewrite Z.eqb_refl. split_and!; [done|destruct (in_sync dir dc); lia|done].
  - rewrite Z.geb_leb, (proj2 (Z.leb_le _ _)) by done. wp_step. split; [done|]. by eexists.
Qed.
End directory.

(** ** A sample directory

    The root of the sample file system: [.], [..], [f] and [g] in block 11. *)

Definition root_image : list byte :=
  entry_image 1 [x2e] (replicate 5 x00) ++ entry_image 1 [x2e; x2e] (replicate 4 x00) ++ entry_image 2 [x66] (replicate 5 x00) ++ entry_image 3 [x67] (replicate 5 x00).
Definition sample_root : myfs_inode := Inode INODE_MAGIC1 0 0 0x41FF 1 0 5 5 (Some (64, Etc None 0)) (DS [11; 0; 0; 0; 0; 0] 0 0 64).
Definition sample_dir : fs_state ram :=
  FS sample_info (ram_disk 3 128 (<[11%nat := root_image ++ replicate 64 x00]> sample_blocks)) sample_host.
Definition root_entries : list (Z * list byte) := [(1, [x2e]); (1, [x2e; x2e]); (2, [x66]); (3, [x67])].

Lemma sample_dir_disk : disk_ok sample_dir.
Proof.
  split; try done.
  - apply (ram_disk_ok 3 128); [lia|]. apply (bool_decide_unpack _). vm_compute. exact I.
  - intros b Hb. apply ram_disk_lookup. exact Hb.
Qed.

Lemma sample_dir_file : file_ok sample_dir sample_root 1.
Proof.
  assert (forall k, 0 <= k < Z.of_nat 1 -> k = 0) as Hk by lia.
  apply Build_file_ok.
  - apply Build_mapped; [exact sample_geom|exact sample_dir_disk|reflexivity|vm_compute; discriminate| |intros H; vm_compute in H; discriminate|exact sample_room|reflexivity].
    intros k ->%Hk. eexists. split; [reflexivity|]. vm_compute. split; congruence.
  - split; [|intros ??? H; vm_compute in H; discriminate]. by intros j k a ->%Hk ->%Hk.
  - vm_compute. split; congruence.
  - destruct sample_slot. split; try done. exact sample_dir_disk.
  - split; [|intros H; vm_compute in H; discriminate]. intros k ->%Hk. vm_compute. congruence.
Qed.

Lemma sample_directory : directory sample_dir sample_root 1 root_entries.
Proof.
  split; [exact sample_dir_file|reflexivity|reflexivity|by eexists| |by left|by exists 1, [(1, [x2e; x2e]); (2, [x66]); (3, [x67])]].
  assert (dir_bytes sample_dir sample_root 1 = root_image) as -> by (vm_compute; reflexivity).
  unfold root_image, root_entries. rewrite <- (app_nil_r (entry_image 3 [x67] _)).
  repeat (apply Holds_cons; [unfold in_i64; lia|split; [repeat (constructor; [discriminate|]); constructor|vm_compute; reflexivity]|reflexivity|]). constructor.
Qed.

(** The same with its copy in memory. *)
Definition loaded_root : myfs_inode := mi_set_etc (Some (64, Etc (Some root_image) 0)) sample_root.
Lemma sample_loaded : loaded sample_dir loaded_root 1 root_entries.
Proof.
  destruct sample_directory. apply (loaded_after _ _ _ _ 64 0); [by apply (file_ok_etc _ sample_root)|done|done|vm_compute; reflexivity|done|done].
Qed.

(** ** Properties *)

Section properties.
Context {C : Type} {HC : BlockCache C} {HL : BlockCacheLaws C}.
Abbreviation St := (fs_state C).

(** C6. [dir_lookup] finds what a search of the list of entries finds: the
    number of the first entry of that name, or ENOENT; whether the contents
    are in memory already or read from the disk first, the directory is as it
    was, with its copy. *)
Theorem dir_lookup_exact (s : St) dir n es name :
  directory s dir n es -> Forall (fun c => c <> x00) name ->
  wp (dir_lookup dir name) (fun r s' => exists dir', loaded s' dir' n es /\
    r = match find_name name es with Some inum => (0, Some inum, dir') | None => (ENOENT, None, dir') end) s.
Proof. apply dir_lookup_wp. Qed.

(** C4. [dir_insert] adds the entry at the end of the list, in the copy and on
    disk, when there is room for it in the last block of the directory. *)
Theorem dir_insert_exact (s : St) dir n es name inum :
  directory s dir n es -> good_name name -> in_i64 inum ->
  blocks_for (bs s) (size (data dir)) = blocks_for (bs s) (size (data dir) + esize (len name)) ->
  wp (dir_insert dir name inum) (fun r s' => exists dir', r = (0, dir') /\ loaded s' dir' n (es ++ [(inum, name)])) s.
Proof. apply dir_insert_wp. Qed.

(** C5. [dir_delete] refuses [.] and [..] and answers ENOENT for a name that
    is not there.  Else it takes the first entry of that name out of the list,
    in the copy and on disk, and no other, when what follows is no longer than
    the entry (the [memcpy] over it is undefined otherwise, and is a [Fault])
    and the directory keeps its last block. *)
Theorem dir_delete_exact (s : St) dir n es name :
  directory s dir n es -> Forall (fun c => c <> x00) name ->
  if is_dot name || is_dotdot name then wp (dir_delete dir name) (fun r s' => r = (EINVAL, dir) /\ s' = s) s else
  match find_name name es with
  | None => wp (dir_delete dir name) (fun r s' => exists dir', loaded s' dir' n es /\ r = (ENOENT, dir')) s
  | Some _ =>
      if entries_size (behind name es) <=? esize (len name) then
        blocks_for (bs s) (size (data dir)) = blocks_for (bs s) (size (data dir) - esize (len name) - 1) ->
        wp (dir_delete dir name) (fun r s' => exists dir', loaded s' dir' n (without name es) /\ r = (0, dir')) s
      else dir_delete dir name s = Fault
  end.
Proof.
  intros Hd Hn. destruct (is_dot name || is_dotdot name) eqn:Edot; [by apply dir_delete_dots|].
  destruct (find_name name es) as [inum|] eqn:Ef; [|by apply dir_delete_absent].
  destruct (Z.leb_spec (entries_size (behind name es)) (esize (len name))); [by apply (dir_delete_present s dir n es name inum)|by apply (dir_delete_overlap s dir n es name inum)].
Qed.

(** C7. [myfs_readdir] shows the entries in order, one at a time: the cookie
    tells which is next, and points behind it afterwards.  A cookie from before
    a change goes one entry back first, so that nothing is skipped when the
    entry just shown was removed. *)
Theorem myfs_readdir_exact (s : St) dir n es dc :
  loaded s dir n es -> i_magic1 dir = INODE_MAGIC1 ->
  (in_sync dir dc = true -> points (dir_bytes s dir n) es (shows dir dc) (curptr dc)) ->
  wp (myfs_readdir dir dc) (fun r s' => s' = s /\
    match es !! shows dir dc with
    | Some (inum, name) => exists dc', r = (0, 1, Some (Dirent (fd (fs_info s)) inum (len name) (name ++ [x00])), dc') /\
        in_sync dir dc' = true /\ dc_index dc' = (if in_sync dir dc then dc_index dc + 1 else dc_index dc) /\
        points (dir_bytes s dir n) es (S (shows dir dc)) (curptr dc')
    | None => exists dc', r = (0, 0, None, dc')
    end) s.
Proof. apply myfs_readdir_wp. Qed.
End properties.

Lemma dir_lookup_exact_witness :
  directory sample_dir sample_root 1 root_entries /\
  wp (dir_lookup sample_root [x2e; x2e]) (fun r s' => exists dir', loaded s' dir' 1 root_entries /\ r = (0, Some 1, dir')) sample_dir.
Proof.
  split; [exact sample_directory|]. apply (dir_lookup_exact sample_dir sample_root 1 root_entries [x2e; x2e] sample_directory).
  repeat (constructor; [discriminate|]). constructor.
Defined.

Lemma dir_insert_exact_witness :
  directory sample_dir sample_root 1 root_entries /\
  wp (dir_insert sample_root [x68] 5) (fun r s' => exists dir', r = (0, dir') /\ loaded s' dir' 1 (root_entries ++ [(5, [x68])])) sample_dir.
Proof.
  split; [exact sample_directory|]. apply (dir_insert_exact sample_dir sample_root 1 root_entries [x68] 5 sample_directory).
  - split; [constructor; [discriminate|constructor]|vm_compute; reflexivity].
  - unfold in_i64. lia.
  - vm_compute. reflexivity.
Defined.

Lemma dir_delete_exact_witness :
  directory sample_dir sample_root 1 root_entries /\
  wp (dir_delete sample_root [x66]) (fun r s' => exists dir', loaded s' dir' 1 [(1, [x2e]); (1, [x2e; x2e]); (3, [x67])] /\ r = (0, dir')) sample_dir /\
  dir_delete sample_root [x68] sample_dir <> Fault.
Proof.
  assert (Forall (fun c => c <> x00) [x66] /\ Forall (fun c => c <> x00) [x68]) as [Hf Hh] by (split; constructor; [discriminate|constructor|discriminate|constructor]).
  split; [exact sample_directory|]. split.
  - apply (dir_delete_exact sample_dir sample_root 1 root_entries [x66] sample_directory Hf). vm_compute. reflexivity.
  - pose proof (dir_delete_exact sample_dir sample_root 1 root_entries [x68] sample_directory Hh) as H. cbn in H. intros E. unfold wp in H. rewrite E in H. exact H.
Defined.

Lemma myfs_readdir_exact_witness :
  loaded sample_dir loaded_root 1 root_entries /\
  wp (myfs_readdir loaded_root (Cookie 0 0 0)) (fun r s' => s' = sample_dir /\
    exists dc', r = (0, 1, Some (Dirent 3 1 1 [x2e; x00]), dc') /\ in_sync loaded_root dc' = true /\ dc_index dc' = 1 /\
      points root_image root_entries 1 (curptr dc')) sample_dir.
Proof.
  split; [exact sample_loaded|]. apply (myfs_readdir_exact sample_dir loaded_root 1 root_entries (Cookie 0 0 0) sample_loaded).
  - reflexivity.
  - intros _. exists [], (dir_bytes sample_dir loaded_root 1). split; [reflexivity|]. split; [constructor|]. split; [exact (dr_holds _ _ _ _ (proj1 sample_loaded))|reflexivity].
Defined.
