(* ===== verification/SkipList.v ===== *)
(** * SkipList: ordered sets as skip lists (sl.c)

    Nodes live in a store and point to each other by address.  [compare] is
    the user's order on keys; the results of [rand] come from the host. *)

From stdpp Require Import sorting.
From S2P Require Import Prelude Bytes Host.
Local Open Scope Z_scope.

Definition MaxNumberOfLevels : Z := 16.
Definition MaxLevel : Z := MaxNumberOfLevels - 1.
Definition RAND_MAX : Z := 0x7fffffff.
Definition P_25 : Z := RAND_MAX / 4.
Definition ALLOW_DUPLICATES : Z := 1.
Definition NO_DUPLICATES : Z := 0.
Definition DUPLICATE_ITEM : Z := -1.
Definition SL_DELETE : Z := 1.
Definition SL_QUIT : Z := 2.

(** A node; the key of the header is NULL. *)
Record SLNode (K : Type) := Node { key : option K; forward : list (option Z) }.
Arguments Node {K} key forward.
Arguments key {K}.
Arguments forward {K}.

(** [sl_rand] holds the next results of [rand]; past its end they are
    [RAND_MAX]. *)
Record SkipList (K : Type) := SL {
  nodes : gmap Z (SLNode K);
  header : Z;
  flags : Z;
  level : Z;
  count : Z;
  sl_rand : list Z;
}.
Arguments SL {K} nodes header flags level count sl_rand.
Arguments nodes {K}.
Arguments header {K}.
Arguments flags {K}.
Arguments level {K}.
Arguments count {K}.
Arguments sl_rand {K}.

Section skiplist.
Context {K : Type} (compare : K -> K -> Z).
Abbreviation T := (SkipList K).

Definition set_nodes (m : gmap Z (SLNode K)) (l : T) : T :=
  SL m (header l) (flags l) (level l) (count l) (sl_rand l).
Definition set_level (v : Z) (l : T) : T :=
  SL (nodes l) (header l) (flags l) v (count l) (sl_rand l).
Definition set_count (v : Z) (l : T) : T :=
  SL (nodes l) (header l) (flags l) (level l) v (sl_rand l).

(** [p->forward[k]] and its assignment. *)
Definition get_forward (l : T) (p k : Z) : option (option Z) :=
  n ← nodes l !! p; if 0 <=? k then forward n !! Z.to_nat k else None.
Definition set_forward (l : T) (p k : Z) (q : option Z) : option T :=
  n ← nodes l !! p;
  _ ← (if 0 <=? k then forward n !! Z.to_nat k else None);
  Some (set_nodes (<[p := Node (key n) (<[Z.to_nat k := q]> (forward n))]> (nodes l)) l).
Definition key_of (l : T) (p : Z) : option K := n ← nodes l !! p; key n.

Definition NewSL (rand : list Z) (fl : Z) : M host (option T) :=
  l ← malloc 40;
  match l with
  | None => mret None
  | Some _ =>
      h ← malloc (16 + MaxNumberOfLevels * 8);
      match h with
      | None => mret None
      | Some h =>
          mret (Some (SL {[h := Node None (replicate (Z.to_nat (MaxNumberOfLevels + 1)) None)]}
                         h fl 1 0 rand))
      end
  end.

(** The keys [freeitem] is called on, in order. *)
Fixpoint free_chain (fuel : nat) (l : T) (p : option Z) : outcome (list K) :=
  match p with
  | None => Done []
  | Some p =>
      match fuel with
      | O => Hang
      | Datatypes.S fuel =>
          match get_forward l p 0, key_of l p with
          | Some q, Some k =>
              match free_chain fuel l q with
              | Done ks => Done (k :: ks)
              | Hang => Hang
              | Fault => Fault
              end
          | _, _ => Fault
          end
      end
  end.

Definition FreeSL (l : T) : outcome (list K) :=
  match get_forward l (header l) 0 with
  | None => Fault
  | Some p => free_chain (Datatypes.S (base.size (nodes l))) l p
  end.

(** How often [rand() < P_25] holds in a row, and the rest of the results. *)
Fixpoint random_level (rs : list Z) (lvl : Z) : Z * list Z :=
  match rs with
  | [] => (lvl, [])
  | r :: rs => if r <? P_25 then random_level rs (lvl + 1) else (lvl, rs)
  end.

Definition RandomLevelSL (l : T) : Z * T :=
  let '(lvl, rs) := random_level (sl_rand l) 0 in
  (if lvl >? MaxLevel then MaxLevel else lvl,
   SL (nodes l) (header l) (flags l) (level l) (count l) rs).

(** [while((q = p->forward[k]) && compare(q->key, key) < 0) p = q;]: the
    final [p] and [q]. *)
Fixpoint walk_level (fuel : nat) (cmp : K -> K -> Z) (l : T) (kk : K) (k p : Z)
  : outcome (Z * option Z) :=
  match fuel with
  | O => Hang
  | Datatypes.S fuel =>
      match get_forward l p k with
      | None => Fault
      | Some None => Done (p, None)
      | Some (Some q) =>
          match key_of l q with
          | None => Fault
          | Some qk => if cmp qk kk <? 0 then walk_level fuel cmp l kk k q else Done (p, Some q)
          end
      end
  end.

(** The descent through levels [n - 1 .. 0]: the final [p] and [q] and the
    array [update], whose entry [k] is at position [k]. *)
Fixpoint descend (n : nat) (cmp : K -> K -> Z) (l : T) (kk : K) (p : Z) (q : option Z) (update : list Z)
  : outcome (Z * option Z * list Z) :=
  match n with
  | O => Done (p, q, update)
  | Datatypes.S n =>
      match walk_level (Datatypes.S (base.size (nodes l))) cmp l kk (Z.of_nat n) p with
      | Done (p, q) => descend n cmp l kk p q (p :: update)
      | Hang => Hang
      | Fault => Fault
      end
  end.

Definition search_from (cmp : K -> K -> Z) (l : T) (kk : K) : outcome (Z * option Z * list Z) :=
  descend (Z.to_nat (level l)) cmp l kk (header l) None [].

(** [compare(q->key, key) == 0], when [q] is not NULL. *)
Definition is_match (l : T) (q : option Z) (kk : K) : option bool :=
  match q with
  | None => Some false
  | Some q => qk ← key_of l q; Some (compare qk kk =? 0)
  end.

(** [for(; k >= 0; k--) q->forward[k] = update[k]->forward[k], ...] *)
Fixpoint link_levels (n : nat) (l : T) (q : Z) (update : list Z) : option T :=
  match n with
  | O => Some l
  | Datatypes.S n =>
      p ← update !! n;
      f ← get_forward l p (Z.of_nat n);
      l ← set_forward l q (Z.of_nat n) f;
      l ← set_forward l p (Z.of_nat n) (Some q);
      link_levels n l q update
  end.

Definition InsertSL (kk : K) : M (T * host) Z :=
  '(l, h) ← get;
  '(p, q, update) ← (fun s => match search_from compare l kk with
                            | Done r => Done (r, s) | Hang => Hang | Fault => Fault end);
  dup ← opt (is_match l q kk);
  if (Z.land (flags l) ALLOW_DUPLICATES =? 0) && dup then mret DUPLICATE_ITEM else
  let '(k, l) := RandomLevelSL l in
  let '(k, l, update) :=
    if k >=? level l
    then (level l, set_level (level l + 1) l, update ++ [header l])
    else (k, l, update) in
  _ ← modify (fun s => (l, s.2));
  q ← zoom snd (fun h s => (s.1, h)) (malloc (16 + k * 8));
  match q with
  | None => mret 0
  | Some q =>
      let l := set_count (count l + 1) l in
      let l := set_nodes (<[q := Node (Some kk) (replicate (Z.to_nat (k + 1)) None)]> (nodes l)) l in
      l ← opt (link_levels (Z.to_nat (k + 1)) l q update);
      _ ← modify (fun s => (l, s.2));
      mret 1
  end.

(** [for(k=0; k < m; k++)] of [DeleteSL], which stops at the first level the
    node is not on. *)
Fixpoint unlink_levels (n : nat) (k : Z) (l : T) (q : Z) (update : list Z) : option T :=
  match n with
  | O => Some l
  | Datatypes.S n =>
      p ← update !! Z.to_nat k;
      f ← get_forward l p k;
      if bool_decide (f = Some q) then
        fq ← get_forward l q k;
        l ← set_forward l p k fq;
        unlink_levels n (k + 1) l q update
      else Some l
  end.

(** [while(header->forward[m] == NULL && m > 0) m--] *)
Fixpoint trim_level (n : nat) (l : T) : option Z :=
  f ← get_forward l (header l) (Z.of_nat n);
  match n with
  | O => Some 0
  | Datatypes.S n' => if bool_decide (f = None) then trim_level n' l else Some (Z.of_nat n)
  end.

Definition DeleteSL (kk : K) : M T Z :=
  l ← get;
  '(p, _, update) ← (fun s => match search_from compare l kk with
                            | Done r => Done (r, s) | Hang => Hang | Fault => Fault end);
  q ← opt (get_forward l p 0);
  hit ← opt (is_match l q kk);
  match q with
  | Some q =>
      if hit : bool then
        l ← opt (unlink_levels (Z.to_nat (level l)) 0 l q update);
        let l := set_count (count l - 1) l in
        let l := set_nodes (delete q (nodes l)) l in
        m ← opt (trim_level (Z.to_nat (level l - 1)) l);
        _ ← modify (fun _ => set_level (m + 1) l);
        mret 1
      else mret 0
  | None => mret 0
  end.

Definition SearchSL (kk : K) : M T (option K) :=
  l ← get;
  '(p, q, _) ← (fun s => match search_from compare l kk with
                       | Done r => Done (r, s) | Hang => Hang | Fault => Fault end);
  hit ← opt (is_match l q kk);
  match q with
  | Some q => if hit : bool then k ← opt (key_of l q); mret (Some k) else mret None
  | None => mret None
  end.

(** ** Iteration

    [f] is the callback, run on the key with a state of its own; its result
    is a combination of [SL_DELETE] and [SL_QUIT]. *)
Context {A : Type} (f : K -> A -> Z * A).

(** [while(save[k] == p)]: deletion unlinks [p] after [who[k]], otherwise
    [who[k]] becomes [p].  Reading [save] past the levels saved is a fault. *)
Fixpoint step_levels (n : nat) (k : nat) (del : bool) (l : T) (p : Z)
    (save : list (option Z)) (who : list Z) : option (T * list (option Z) * list Z) :=
  match n with
  | O => None
  | Datatypes.S n =>
      s ← save !! k;
      if bool_decide (s = Some p) then
        fp ← get_forward l p (Z.of_nat k);
        '(l, who) ← (if del : bool then
                       w ← who !! k; l ← set_forward l w (Z.of_nat k) fp; Some (l, who)
                     else Some (l, <[k := p]> who));
        step_levels n (Datatypes.S k) del l p (<[k := fp]> save) who
      else Some (l, save, who)
  end.

Fixpoint do_for (fuel : nat) (l : T) (p : option Z) (save : list (option Z)) (who : list Z) (a : A)
  : outcome (T * A) :=
  match p with
  | None => Done (l, a)
  | Some p =>
      match fuel with
      | O => Hang
      | Datatypes.S fuel =>
          match get_forward l p 0, key_of l p with
          | Some q, Some k =>
              let '(ret, a) := f k a in
              let del := negb (Z.land ret SL_DELETE =? 0) in
              match step_levels (Datatypes.S (length save)) 0 del l p save who with
              | None => Fault
              | Some (l, save, who) =>
                  let l := if del then set_nodes (delete p (nodes l)) (set_count (count l - 1) l) else l in
                  if negb (Z.land ret SL_QUIT =? 0) then Done (l, a)
                  else do_for fuel l q save who a
              end
          | _, _ => Fault
          end
      end
  end.

Definition DoForSL (l : T) (a : A) : outcome (T * A) :=
  match nodes l !! header l with
  | None => Fault
  | Some h =>
      let save := take (Z.to_nat (level l)) (forward h) in
      match get_forward l (header l) 0 with
      | None => Fault
      | Some p => do_for (Datatypes.S (base.size (nodes l))) l p save
                    (replicate (Z.to_nat (level l)) (header l)) a
      end
  end.

(** The [do]-[while] of [DoForRangeSL] over the keys equal to [kk]. *)
Fixpoint do_range (fuel : nat) (cmp : K -> K -> Z) (l : T) (kk : K) (p : Z) (update : list Z) (a : A)
  : outcome (T * A) :=
  match fuel with
  | O => Hang
  | Datatypes.S fuel =>
      match get_forward l p 0, key_of l p with
      | Some q, Some k =>
          let '(ret, a) := f k a in
          match (if negb (Z.land ret SL_DELETE =? 0) then
                   l ← unlink_levels (Z.to_nat (level l)) 0 l p update;
                   Some (set_nodes (delete p (nodes l)) (set_count (count l - 1) l))
                 else Some l) with
          | None => Fault
          | Some l =>
              if negb (Z.land ret SL_QUIT =? 0) then Done (l, a) else
              match q with
              | None => Done (l, a)
              | Some q =>
                  match key_of l q with
                  | None => Fault
                  | Some qk =>
                      if cmp qk kk =? 0 then do_range fuel cmp l kk q update a else Done (l, a)
                  end
              end
          end
      | _, _ => Fault
      end
  end.

Definition DoForRangeSL (cmp : K -> K -> Z) (l : T) (kk : K) (a : A) : outcome (T * A) :=
  match search_from cmp l kk with
  | Done (p, _, update) =>
      match get_forward l p 0 with
      | None => Fault
      | Some None => Done (l, a)
      | Some (Some p) =>
          match key_of l p with
          | None => Fault
          | Some pk =>
              if cmp pk kk =? 0
              then do_range (Datatypes.S (base.size (nodes l))) cmp l kk p update a
              else Done (l, a)
          end
      end
  | Hang => Hang
  | Fault => Fault
  end.

Definition NumInSL (l : T) : Z := count l.
End skiplist.

(** ** What a skip list is

    The nodes in order are [ps], with keys [ks].  A node with [n] forward
    pointers is on the levels below [n]; the chain of each level, from the
    header, is the nodes that are on it. *)

(** What the program relies on of a comparison function. *)
Class Comparison {K} (cmp : K -> K -> Z) := {
  cmp_sym x y : cmp x y < 0 <-> 0 < cmp y x;
  cmp_trans x y z : cmp x y < 0 -> cmp y z < 0 -> cmp x z < 0;
  cmp_eq_l x y z : cmp x y = 0 -> cmp x z < 0 <-> cmp y z < 0;
}.

Section chains.
Context {K : Type}.
Abbreviation T := (SkipList K).
Implicit Types l : T.

Definition height l (p : Z) : nat := match nodes l !! p with Some n => length (forward n) | None => 0 end.
Definition fwd l (k : nat) (p : Z) : option (option Z) := get_forward l p (Z.of_nat k).

(** The nodes of [ps] on level [k]. *)
Definition on_level l (k : nat) (ps : list Z) : list Z := filter (fun p => (k < height l p)%nat) ps.

(** The chain of level [k] from [p] goes through [L] and then to [e]. *)
Fixpoint chain l (k : nat) (p : Z) (L : list Z) (e : option Z) : Prop :=
  match L with
  | [] => fwd l k p = Some e
  | q :: L => fwd l k p = Some (Some q) /\ chain l k q L e
  end.

(** The rest of a chain, from the pointer to it. *)
Definition rest l (k : nat) (L : list Z) : Prop :=
  match L with [] => True | q :: L => chain l k q L None end.

(** The last node of [p :: L]. *)
Definition last_of (p : Z) (L : list Z) : Z := List.last L p.

Lemma last_of_cons p q L : last_of p (q :: L) = last_of q L.
Proof.
  revert p q. induction L as [|r L IH]; intros p q; [done|].
  change (last_of p (r :: L) = last_of q (r :: L)). by rewrite !IH.
Qed.

Lemma last_of_in p L : last_of p L ∈ p :: L.
Proof.
  revert p. induction L as [|q L IH]; intros p; [cbn; set_solver|]. rewrite last_of_cons.
  specialize (IH q). set_solver.
Qed.

Lemma chain_app l k p L1 L2 : chain l k p (L1 ++ L2) None <-> chain l k p L1 (head L2) /\ rest l k L2.
Proof.
  revert p. induction L1 as [|q L1 IH]; intros p; cbn.
  - destruct L2; cbn; naive_solver.
  - rewrite IH. tauto.
Qed.

Lemma chain_last l k p L e : chain l k p L e -> fwd l k (last_of p L) = Some e.
Proof. revert p. induction L as [|q L IH]; intros p; [done|]. rewrite last_of_cons. intros [_ H]. by apply IH. Qed.

(** A node on the way starts the remaining chain. *)
Lemma chain_from l k p L e q :
  chain l k p L e -> q ∈ p :: L -> exists L1 L2, p :: L = L1 ++ q :: L2 /\ chain l k q L2 e /\ last_of q L2 = last_of p L.
Proof.
  revert p. induction L as [|r L IH]; intros p Hc Hq.
  - assert (q = p) as -> by set_solver. by exists [], [].
  - destruct (decide (q = p)) as [->|Hne].
    + by exists [], (r :: L).
    + destruct (IH r) as (L1 & L2 & E & Hc' & Hl); [apply Hc|set_solver|].
      exists (p :: L1), L2. rewrite last_of_cons. cbn [app]. by rewrite E.
Qed.

(** Chains only depend on the forward pointers along them. *)
Lemma chain_ext l l' k p L e :
  (forall q, q ∈ p :: L -> fwd l' k q = fwd l k q) -> chain l k p L e -> chain l' k p L e.
Proof.
  revert p. induction L as [|r L IH]; intros p H; cbn; [by rewrite H by set_solver|].
  rewrite H by set_solver. intros [E Hc]. split; [done|]. apply IH; [|done]. intros q Hq. apply H. set_solver.
Qed.

Lemma rest_ext l l' k L : (forall q, q ∈ L -> fwd l' k q = fwd l k q) -> rest l k L -> rest l' k L.
Proof. destruct L; [done|]. cbn. intros H. by apply chain_ext. Qed.

(** Changing the last pointer of a chain. *)
Lemma chain_redirect l l' k p L e e' :
  NoDup (p :: L) -> (forall q, q ∈ p :: L -> q <> last_of p L -> fwd l' k q = fwd l k q) ->
  fwd l' k (last_of p L) = Some e' -> chain l k p L e -> chain l' k p L e'.
Proof.
  revert p. induction L as [|r L IH]; intros p Hnd H He; cbn; [done|]. intros [E Hc].
  rewrite last_of_cons in *. apply NoDup_cons in Hnd as [Hp Hnd]. split.
  - rewrite H; [done|set_solver|]. intros ->. apply Hp. apply last_of_in.
  - apply IH; try done. intros q Hq Hne. apply H; [set_solver|done].
Qed.

(** *** Forward pointers after the assignments *)

Lemma fwd_Some l k p : (k < height l p)%nat -> is_Some (fwd l k p).
Proof.
  unfold height, fwd, get_forward. intros H. destruct (nodes l !! p) as [n|]; [|lia]. cbn.
  rewrite (proj2 (Z.leb_le _ _)) by lia. rewrite Nat2Z.id. by apply lookup_lt_is_Some_2.
Qed.

Lemma set_forward_Some l k p q :
  (k < height l p)%nat -> exists l', set_forward l p (Z.of_nat k) q = Some l' /\
    (forall j r, fwd l' j r = if decide (j = k /\ r = p) then Some q else fwd l j r) /\
    (forall r, height l' r = height l r) /\ (forall r, key_of l' r = key_of l r) /\
    dom (nodes l') = dom (nodes l) /\ header l' = header l /\ flags l' = flags l /\
    level l' = level l /\ count l' = count l.
Proof.
  intros Hk. destruct (fwd_Some l k p Hk) as [e He]. unfold height, fwd, get_forward, set_forward in *.
  destruct (nodes l !! p) as [n|] eqn:E; [|lia]. cbn in *.
  rewrite (proj2 (Z.leb_le _ _)) in * by lia. rewrite Nat2Z.id in *. rewrite He. cbn.
  eexists. split; [done|]. cbn. split; [|split; [|split; [|split]]]; try done.
  - intros j r. unfold get_forward. cbn. destruct (decide (r = p)) as [->|Hne].
    + rewrite lookup_insert_eq. cbn. rewrite Nat2Z.id. destruct (decide (j = k)) as [->|].
      * rewrite decide_True by done. rewrite list_lookup_insert_eq by done. by destruct (0 <=? Z.of_nat k) eqn:?; [|lia].
      * rewrite decide_False by naive_solver. rewrite E. cbn. by rewrite list_lookup_insert_ne, ?Nat2Z.id by done.
    + rewrite lookup_insert_ne by done. by rewrite decide_False by naive_solver.
  - intros r. destruct (decide (r = p)) as [->|]; [|by rewrite lookup_insert_ne].
    rewrite lookup_insert_eq, E. cbn. by rewrite length_insert.
  - intros r. unfold key_of. cbn. destruct (decide (r = p)) as [->|]; [|by rewrite lookup_insert_ne].
    rewrite lookup_insert_eq, E. done.
  - rewrite dom_insert_L. apply elem_of_dom_2 in E. set_solver.
Qed.
(** *** The nodes on a level *)

Lemma on_level_app l k P1 P2 : on_level l k (P1 ++ P2) = on_level l k P1 ++ on_level l k P2.
Proof. apply filter_app. Qed.

Lemma on_level_sub l k P : on_level l k P ⊆ P.
Proof. intros p Hp. by apply list_elem_of_filter in Hp as [_ Hp]. Qed.

Lemma on_level_succ l k P p : p ∈ on_level l (S k) P -> p ∈ on_level l k P.
Proof. unfold on_level. rewrite !list_elem_of_filter. intros [? ?]. split; [lia|done]. Qed.

Lemma on_level_0 l P : (forall p, p ∈ P -> (1 <= height l p)%nat) -> on_level l 0 P = P.
Proof.
  intros H. induction P as [|p P IH]; [done|]. unfold on_level in *. rewrite filter_cons_True.
  - f_equal. apply IH. intros q Hq. apply H. set_solver.
  - specialize (H p ltac:(set_solver)). lia.
Qed.

Lemma length_on_level l k P : (length (on_level l k P) <= length P)%nat.
Proof. apply length_filter. Qed.

Lemma on_level_cons l k p ps : on_level l k (p :: ps) = (if decide (k < height l p)%nat then [p] else []) ++ on_level l k ps.
Proof.
  unfold on_level. destruct (decide _); [by rewrite filter_cons_True|by rewrite filter_cons_False].
Qed.

Lemma on_level_ext l l' k ps : (forall p, p ∈ ps -> height l' p = height l p) -> on_level l' k ps = on_level l k ps.
Proof.
  intros H. induction ps as [|p ps IH]; [done|]. rewrite !on_level_cons, H by set_solver.
  by rewrite IH by set_solver.
Qed.

Lemma on_level_nil l k ps : (forall p, p ∈ ps -> (height l p <= k)%nat) -> on_level l k ps = [].
Proof.
  intros H. induction ps as [|p ps IH]; [done|]. rewrite on_level_cons. rewrite decide_False.
  - apply IH. set_solver.
  - specialize (H p ltac:(set_solver)). lia.
Qed.

Lemma NoDup_level l k p ps : NoDup (p :: ps) -> NoDup (p :: on_level l k ps).
Proof.
  rewrite !NoDup_cons. intros [H1 H2]. split; [|by apply NoDup_filter].
  intros H. apply H1. by apply on_level_sub in H.
Qed.
End chains.

(** ** The invariant, and searching *)

Section sl_specs.
Context {K : Type} (compare : K -> K -> Z) `{!Comparison compare}.
Abbreviation T := (SkipList K).
Implicit Types l : T.

Definition allows_dup l : bool := negb (Z.land (flags l) ALLOW_DUPLICATES =? 0).

(** The order of the keys: strict, unless duplicates are allowed. *)
Definition key_order (dup : bool) (x y : K) : Prop :=
  if dup then 0 <= compare y x else compare x y < 0.

Record sl_ok l (ps : list Z) (ks : list K) : Prop := {
  so_nodup : NoDup (header l :: ps);
  so_dom : dom (nodes l) = list_to_set (header l :: ps);
  so_header : height l (header l) = 17%nat;
  so_heights : forall p, p ∈ ps -> (1 <= height l p <= Z.to_nat (level l))%nat;
  so_level : 1 <= level l <= MaxNumberOfLevels;
  so_keys : Forall2 (fun p k => key_of l p = Some k) ps ks;
  so_chain : forall k, (k < 17)%nat -> chain l k (header l) (on_level l k ps) None;
  so_sorted : StronglySorted (key_order (allows_dup l)) ks;
  so_count : count l = len ks;
}.

(** The nodes and keys split where a search for [kk] stops. *)
Record cut (cmp : K -> K -> Z) l (kk : K) (PA PB : list Z) (KA KB : list K) : Prop := {
  ct_A : Forall2 (fun p k => key_of l p = Some k) PA KA;
  ct_B : Forall2 (fun p k => key_of l p = Some k) PB KB;
  ct_below : Forall (fun k => cmp k kk < 0) KA;
  ct_above : Forall (fun k => 0 <= cmp k kk) KB;
}.

Lemma cut_key_below cmp l kk PA PB KA KB p :
  cut cmp l kk PA PB KA KB -> p ∈ PA -> exists k, key_of l p = Some k /\ cmp k kk < 0.
Proof.
  intros [HA _ Hb _] Hp. apply list_elem_of_lookup in Hp as [i Hi].
  destruct (Forall2_lookup_l _ _ _ _ _ HA Hi) as (k & Hk & E). exists k. split; [done|].
  by apply (Forall_lookup_1 _ _ _ _ Hb Hk).
Qed.

Lemma cut_key_above cmp l kk PA PB KA KB p :
  cut cmp l kk PA PB KA KB -> p ∈ PB -> exists k, key_of l p = Some k /\ 0 <= cmp k kk.
Proof.
  intros [_ HB _ Ha] Hp. apply list_elem_of_lookup in Hp as [i Hi].
  destruct (Forall2_lookup_l _ _ _ _ _ HB Hi) as (k & Hk & E). exists k. split; [done|].
  by apply (Forall_lookup_1 _ _ _ _ Ha Hk).
Qed.

Lemma walk_level_spec cmp l kk k fuel p X Y :
  chain l k p (X ++ Y) None -> (length X < fuel)%nat ->
  (forall q, q ∈ X -> exists qk, key_of l q = Some qk /\ cmp qk kk < 0) ->
  (forall q, q ∈ Y -> exists qk, key_of l q = Some qk /\ 0 <= cmp qk kk) ->
  walk_level fuel cmp l kk (Z.of_nat k) p = Done (last_of p X, head Y).
Proof.
  revert p X. induction fuel as [|fuel IH]; intros p X Hc Hf HX HY; [lia|]. cbn [walk_level].
  change (get_forward l p (Z.of_nat k)) with (fwd l k p). destruct X as [|q X]; cbn [app] in Hc.
  - destruct Y as [|q Y]; cbn in Hc; [by rewrite Hc|]. destruct Hc as [-> _].
    destruct (HY q ltac:(set_solver)) as (qk & -> & Hge). rewrite (proj2 (Z.ltb_ge _ _)) by lia. done.
  - destruct Hc as [-> Hc]. destruct (HX q ltac:(set_solver)) as (qk & -> & Hlt).
    rewrite (proj2 (Z.ltb_lt _ _)) by lia. rewrite last_of_cons. cbn in Hf.
    apply IH; [done|lia| |done]. intros r Hr. apply HX. set_solver.
Qed.

(** The last node below the cut on level [k], or the header. *)
Definition pred_at l (PA : list Z) (k : nat) : Z := last_of (header l) (on_level l k PA).

Lemma descend_spec cmp l kk ps ks PA PB KA KB n p q upd :
  sl_ok l ps ks -> cut cmp l kk PA PB KA KB -> ps = PA ++ PB -> (n < 17)%nat ->
  p ∈ header l :: on_level l n PA ->
  descend n cmp l kk p q upd =
    Done (if (n =? 0)%nat then p else pred_at l PA 0,
          if (n =? 0)%nat then q else head (on_level l 0 PB),
          (pred_at l PA <$> seq 0 n) ++ upd).
Proof.
  intros Hok Hcut ->. revert p q upd. induction n as [|n IH]; intros p q upd Hn Hp; [done|].
  cbn [descend]. pose proof (so_chain _ _ _ Hok n ltac:(lia)) as Hc. rewrite on_level_app in Hc.
  assert (p ∈ header l :: on_level l n PA) as Hp'.
  { apply elem_of_cons in Hp as [->|Hp]; [set_solver|]. apply on_level_succ in Hp. set_solver. }
  apply chain_app in Hc as [Hc1 Hc2].
  destruct (chain_from _ _ _ _ _ _ Hc1 Hp') as (L1 & L2 & E & Hc3 & Hlast).
  assert (L2 ⊆ PA) as Hsub.
  { intros r Hr. assert (r ∈ on_level l n PA) as Hr'; [|by apply on_level_sub in Hr'].
    destruct L1 as [|z L1]; cbn in E; injection E as <- E; rewrite E; set_solver. }
  assert (length L2 < S (base.size (nodes l)))%nat as Hfuel.
  { assert (length L2 <= length (on_level l n PA))%nat.
    { apply (f_equal length) in E. rewrite length_app in E. cbn in E. lia. }
    pose proof (length_on_level l n PA).
    rewrite <- size_dom, (so_dom _ _ _ Hok), size_list_to_set by apply Hok. cbn. rewrite length_app. lia. }
  rewrite (walk_level_spec cmp l kk n _ p L2 (on_level l n PB)).
  - cbn beta iota. rewrite Hlast. fold (pred_at l PA n).
    rewrite IH; [|lia|unfold pred_at; apply last_of_in].
    rewrite seq_S, fmap_app, <- app_assoc. cbn [Nat.eqb fmap list_fmap app].
    destruct n as [|n]; cbn [Nat.eqb]; done.
  - apply chain_app. done.
  - exact Hfuel.
  - intros r Hr. eapply cut_key_below; [done|set_solver].
  - intros r Hr. eapply cut_key_above; [done|by eapply on_level_sub].
Qed.

Lemma search_from_spec cmp l kk ps ks PA PB KA KB :
  sl_ok l ps ks -> cut cmp l kk PA PB KA KB -> ps = PA ++ PB ->
  search_from cmp l kk = Done (pred_at l PA 0, head PB, pred_at l PA <$> seq 0 (Z.to_nat (level l))).
Proof.
  intros Hok Hcut E. pose proof (so_level _ _ _ Hok). unfold MaxNumberOfLevels in *. unfold search_from.
  rewrite (descend_spec _ _ _ ps ks PA PB KA KB); try done; [|lia|set_solver].
  rewrite app_nil_r. destruct (Z.to_nat (level l)) eqn:En; [lia|]. cbn [Nat.eqb].
  rewrite on_level_0; [done|]. intros p Hp. apply (so_heights _ _ _ Hok). rewrite E. set_solver.
Qed.

(** *** Where the order cuts the keys *)

Lemma cmp_refl x : compare x x = 0.
Proof.
  destruct (Z.lt_trichotomy (compare x x) 0) as [H|[H|H]]; [|done|].
  - pose proof (proj1 (cmp_sym x x) H). lia.
  - pose proof (proj2 (cmp_sym x x) H). lia.
Qed.

Definition below (kk : K) (ks : list K) : list K := filter (fun k => compare k kk < 0) ks.
Definition above (kk : K) (ks : list K) : list K := filter (fun k => ~ compare k kk < 0) ks.

(** The keys after one that is not below [kk] are not below it either. *)
Lemma order_above dup x y kk : key_order dup x y -> ~ compare x kk < 0 -> ~ compare y kk < 0.
Proof.
  unfold key_order. intros Hxy Hx Hy. apply Hx. destruct dup.
  - destruct (Z.eq_dec (compare y x) 0) as [E|E].
    + by apply (cmp_eq_l y x kk E).
    + apply (cmp_trans x y kk); [|done]. apply cmp_sym. lia.
  - by apply (cmp_trans x y kk).
Qed.

Lemma sorted_cut dup ks kk : StronglySorted (key_order dup) ks -> ks = below kk ks ++ above kk ks.
Proof.
  induction 1 as [|k ks Hs IH Hall]; [done|]. unfold below, above in *.
  destruct (decide (compare k kk < 0)) as [Hlt|Hge].
  - rewrite filter_cons_True by done. rewrite filter_cons_False by naive_solver. cbn. by f_equal.
  - rewrite filter_cons_False by done. rewrite filter_cons_True by done.
    assert (filter (fun k => compare k kk < 0) ks = []) as E.
    { clear IH Hs. induction Hall as [|y ks Hy Hall IH]; [done|].
      rewrite filter_cons_False; [done|]. by eapply order_above. }
    rewrite E in *. cbn in *. by f_equal.
Qed.

Lemma ok_cut l ps ks kk :
  sl_ok l ps ks -> exists PA PB, ps = PA ++ PB /\ cut compare l kk PA PB (below kk ks) (above kk ks).
Proof.
  intros Hok. pose proof (so_keys _ _ _ Hok) as Hk. pose proof (sorted_cut _ _ kk (so_sorted _ _ _ Hok)) as E.
  rewrite E in Hk. apply Forall2_app_inv_r in Hk as (PA & PB & HA & HB & ->).
  exists PA, PB. split; [done|]. split; try done; apply Forall_forall; intros k Hk;
    apply list_elem_of_filter in Hk as [Hk _]; [done|lia].
Qed.

(** Does the key at the cut match? *)
Definition matches (kk : K) (ks : list K) : option K :=
  match above kk ks with
  | k :: _ => if compare k kk =? 0 then Some k else None
  | [] => None
  end.

Lemma is_match_spec l kk PA PB ks :
  cut compare l kk PA PB (below kk ks) (above kk ks) ->
  is_match compare l (head PB) kk = Some (match matches kk ks with Some _ => true | None => false end).
Proof.
  intros [_ HB _ _]. unfold matches, is_match. destruct HB as [|q k PB KB Hq HB]; cbn; [done|].
  rewrite Hq. cbn. by destruct (compare k kk =? 0).
Qed.
End sl_specs.

(** ** Insertion *)

Section insert.
Context {K : Type} (compare : K -> K -> Z) `{!Comparison compare}.
Abbreviation T := (SkipList K).
Implicit Types l : T.

(** Two lists with the same nodes. *)
Lemma sl_ok_meta l l' ps ks :
  sl_ok compare l ps ks -> nodes l' = nodes l -> header l' = header l -> flags l' = flags l ->
  count l' = count l -> level l <= level l' <= MaxNumberOfLevels -> sl_ok compare l' ps ks.
Proof.
  intros [H1 H2 H3 H4 H5 H6 H7 H8 H9] En Eh Ef Ec Hl.
  assert (forall p, height l' p = height l p) as Eht by (intros p; unfold height; by rewrite En).
  assert (forall k p, fwd l' k p = fwd l k p) as Efw by (intros k p; unfold fwd, get_forward; by rewrite En).
  split; try (rewrite ?En, ?Eh, ?Ec; done).
  - by rewrite Eh, Eht.
  - intros p Hp. rewrite Eht. specialize (H4 p Hp). lia.
  - lia.
  - eapply Forall2_impl; [exact H6|]. intros p k. unfold key_of. by rewrite En.
  - intros k Hk. rewrite Eh. eapply chain_ext; [intros; apply Efw|].
    assert (on_level l' k ps = on_level l k ps) as ->; [|by apply H7].
    unfold on_level. apply list_filter_iff. intros p. by rewrite Eht.
  - unfold allows_dup. by rewrite Ef.
Qed.

(** What [link_levels] does to the forward pointers; [prd j] is the node that
    precedes [q] on level [j]. *)
Record linked l l' (n : nat) (q : Z) (prd : nat -> Z) : Prop := {
  lk_fwd : forall j r, fwd l' j r =
    if decide (j < n)%nat then
      if decide (r = prd j) then Some (Some q) else if decide (r = q) then fwd l j (prd j) else fwd l j r
    else fwd l j r;
  lk_height : forall r, height l' r = height l r;
  lk_key : forall r, key_of l' r = key_of l r;
  lk_rest : dom (nodes l') = dom (nodes l) /\ header l' = header l /\ flags l' = flags l /\
    level l' = level l /\ count l' = count l;
}.

Lemma link_levels_spec n l q (prd : nat -> Z) upd :
  (forall j, (j < n)%nat -> upd !! j = Some (prd j) /\ (j < height l (prd j))%nat /\ prd j <> q) ->
  (n <= height l q)%nat ->
  exists l', link_levels n l q upd = Some l' /\ linked l l' n q prd.
Proof.
  revert l. induction n as [|n IH]; intros l Hupd Hq.
  { exists l. split; [done|]. split; try done. }
  destruct (Hupd n ltac:(lia)) as (Hu & Hh & Hne). cbn [link_levels]. rewrite Hu. cbn [mbind option_bind].
  change (get_forward l (prd n) (Z.of_nat n)) with (fwd l n (prd n)).
  destruct (fwd_Some l n (prd n) Hh) as [e He]. rewrite He. cbn [mbind option_bind].
  destruct (set_forward_Some l n q e ltac:(lia)) as (l1 & -> & F1 & G1 & K1 & D1 & A1 & B1 & C1 & E1).
  cbn [mbind option_bind].
  destruct (set_forward_Some l1 n (prd n) (Some q)) as (l2 & -> & F2 & G2 & K2 & D2 & A2 & B2 & C2 & E2);
    [by rewrite G1|].
  cbn [mbind option_bind]. destruct (IH l2) as (l' & -> & [F3 G3 K3 (D3 & A3 & B3 & C3 & E3)]).
  { intros j Hj. destruct (Hupd j ltac:(lia)) as (? & ? & ?). rewrite G2, G1. done. }
  { rewrite G2, G1. lia. }
  exists l'. split; [done|]. split; [|intros; by rewrite G3, G2, G1|intros; by rewrite K3, K2, K1|split_and!; congruence].
  intros j r. rewrite F3, !F2, !F1.
  destruct (decide (j = n)) as [->|Hjn].
  - rewrite (decide_False (P := (n < n)%nat)) by lia. rewrite (decide_True (P := (n < S n)%nat)) by lia.
    destruct (decide (r = prd n)) as [->|]; [by rewrite decide_True by done|].
    rewrite decide_False by naive_solver. destruct (decide (r = q)) as [->|].
    + by rewrite decide_True by done.
    + by rewrite decide_False by naive_solver.
  - rewrite !(decide_False (P := j = n /\ _)) by naive_solver.
    destruct (decide (j < n)%nat), (decide (j < S n)%nat); try lia; done.
Qed.

(** The chains after a new node [q] of height [h] is linked in. *)
Lemma chain_linked l l' PA PB q h :
  (forall k, (k < 17)%nat -> chain l k (header l) (on_level l k (PA ++ PB)) None) ->
  NoDup (header l :: q :: (PA ++ PB)) -> height l q = h ->
  linked l l' h q (pred_at l PA) ->
  forall k, (k < 17)%nat -> chain l' k (header l') (on_level l' k (PA ++ q :: PB)) None.
Proof.
  intros Hc Hnd Hq [F G _ (_ & -> & _)] k Hk. specialize (Hc k Hk).
  rewrite (on_level_ext l l') by (intros; apply G). rewrite on_level_app, on_level_cons, Hq in *.
  set (FA := on_level l k PA) in *. set (FB := on_level l k PB) in *.
  assert (FA ⊆ PA) as SA by apply on_level_sub. assert (FB ⊆ PB) as SB by apply on_level_sub.
  apply NoDup_cons in Hnd as [N1 Hnd]. apply NoDup_cons in Hnd as [N2 N3].
  rewrite elem_of_cons, elem_of_app in N1. rewrite elem_of_app in N2. apply NoDup_app in N3 as (N3 & N4 & _).
  assert (forall r, r ∈ header l :: FA -> r <> q /\ r ∉ FB) as Hsep.
  { intros r [->|Hr]%elem_of_cons; [split; [tauto|intros Hr; apply N1; auto]|].
    split; [intros ->; apply N2; auto|intros Hr'; apply (N4 r); auto]. }
  assert (pred_at l PA k ∈ header l :: FA) as Hpred by apply last_of_in.
  destruct (Hsep _ Hpred) as [Hpq HpB].
  assert (NoDup (header l :: FA)) as NFA.
  { apply NoDup_level. rewrite NoDup_cons. split; [tauto|done]. }
  apply chain_app in Hc as [Hc1 Hc2]. apply chain_app.
  destruct (decide (k < h)%nat) as [Hlt|Hge]; cbn [app head].
  - split.
    + apply (chain_redirect l _ _ _ _ (head FB)); [done| | |done].
      * intros r Hr Hne. rewrite F, decide_True by done. fold (pred_at l PA k) in Hne.
        rewrite decide_False by done. by rewrite decide_False by (by apply Hsep).
      * fold (pred_at l PA k). rewrite F, decide_True by done. by rewrite decide_True.
    + cbn. assert (fwd l' k q = Some (head FB)) as Eq.
      { rewrite F, decide_True by done. rewrite decide_False by done. rewrite decide_True by done.
        apply (chain_last _ _ _ _ _ Hc1). }
      assert (rest l' k FB) as Hr.
      { eapply rest_ext; [|exact Hc2]. intros r Hr. rewrite F, decide_True by done.
        rewrite decide_False by (intros ->; done). rewrite decide_False; [done|]. intros ->. apply N2; auto. }
      destruct FB; cbn in *; [done|by split].
  - assert (forall r, fwd l' k r = fwd l k r) as Efw by (intros r; rewrite F; by rewrite (decide_False (P := (k < h)%nat)) by done).
    split; [eapply chain_ext; [intros; apply Efw|exact Hc1]|eapply rest_ext; [intros; apply Efw|exact Hc2]].
Qed.

(** A new node for [kk], not yet linked. *)
Definition add_node (q : Z) (kk : K) (h : nat) l : T :=
  set_nodes (<[q := Node (Some kk) (replicate h None)]> (nodes l)) (set_count (count l + 1) l).

Lemma add_node_other l q kk h r :
  r <> q -> height (add_node q kk h l) r = height l r /\ key_of (add_node q kk h l) r = key_of l r /\
    forall k, fwd (add_node q kk h l) k r = fwd l k r.
Proof. intros Hr. unfold height, key_of, fwd, get_forward. cbn. by rewrite lookup_insert_ne by done. Qed.

Lemma add_node_same l q kk h :
  height (add_node q kk h l) q = h /\ key_of (add_node q kk h l) q = Some kk.
Proof. unfold height, key_of. cbn. rewrite lookup_insert_eq. cbn. by rewrite length_replicate. Qed.

Lemma pred_height l ps ks PA PB k :
  sl_ok compare l ps ks -> ps = PA ++ PB -> (k < 17)%nat -> (k < height l (pred_at l PA k))%nat.
Proof.
  intros Hok -> Hk. pose proof (last_of_in (header l) (on_level l k PA)) as H. fold (pred_at l PA k) in H.
  apply elem_of_cons in H as [->|H]; [by rewrite (so_header _ _ _ _ Hok)|].
  by apply list_elem_of_filter in H as [H _].
Qed.

Lemma ok_insert l ps ks PA PB KA KB q kk h upd :
  sl_ok compare l ps ks -> ps = PA ++ PB -> ks = KA ++ KB -> length PA = length KA ->
  q ∉ dom (nodes l) -> (1 <= h <= Z.to_nat (level l))%nat ->
  (forall j, (j < h)%nat -> upd !! j = Some (pred_at l PA j)) ->
  StronglySorted (key_order compare (allows_dup l)) (KA ++ kk :: KB) ->
  exists l', link_levels h (add_node q kk h l) q upd = Some l' /\
    sl_ok compare l' (PA ++ q :: PB) (KA ++ kk :: KB) /\ dom (nodes l') = {[q]} ∪ dom (nodes l) /\
    flags l' = flags l.
Proof.
  intros Hok Eps Eks Hlen Hq Hh Hupd Hsort. pose proof (so_level _ _ _ _ Hok) as Hlev. unfold MaxNumberOfLevels in Hlev.
  set (l1 := add_node q kk h l).
  assert (forall r, r <> q -> height l1 r = height l r /\ key_of l1 r = key_of l r /\ forall k, fwd l1 k r = fwd l k r)
    as Hoth by (intros; by apply add_node_other).
  assert (height l1 q = h /\ key_of l1 q = Some kk) as Hsame by apply add_node_same.
  assert (forall r, r ∈ header l :: ps -> r <> q) as Hne.
  { intros r Hr ->. apply Hq. rewrite (so_dom _ _ _ _ Hok). by apply elem_of_list_to_set. }
  assert (forall P k, P ⊆ ps -> on_level l1 k P = on_level l k P) as Elev.
  { intros P k HP. apply on_level_ext. intros p Hp. apply Hoth. apply Hne. right. by apply HP. }
  assert (forall k, pred_at l1 PA k = pred_at l PA k) as Epred.
  { intros k. unfold pred_at. rewrite Elev; [done|]. rewrite Eps. intros p Hp. apply elem_of_app. by left. }
  assert (forall k, pred_at l PA k ∈ header l :: ps) as Hpin.
  { intros k. pose proof (last_of_in (header l) (on_level l k PA)) as H. fold (pred_at l PA k) in H.
    apply elem_of_cons in H as [->|H]; [by left|]. apply on_level_sub in H. right. rewrite Eps.
    apply elem_of_app. by left. }
  destruct (link_levels_spec h l1 q (pred_at l PA) upd) as (l' & E & Hlk).
  { intros j Hj. split; [by apply Hupd|]. split; [|by apply Hne].
    destruct (Hoth (pred_at l PA j) ltac:(by apply Hne)) as [-> _].
    eapply pred_height; [done|done|lia]. }
  { by rewrite (proj1 Hsame). }
  exists l'. split; [done|]. pose proof Hlk as [_ G Kk (D & A & B & Cc & E')].
  assert (dom (nodes l') = {[q]} ∪ dom (nodes l)) as Hdom by (rewrite D; apply dom_insert_L).
  assert (NoDup (header l :: q :: (PA ++ PB))) as Hnd.
  { pose proof (so_nodup _ _ _ _ Hok) as Hnd. rewrite Eps in *. apply NoDup_cons in Hnd as [N1 N2].
    apply NoDup_cons. split; [|apply NoDup_cons; split; [|done]].
    - intros [E0|?]%elem_of_cons; [|done]. by apply (Hne (header l)); [left|].
    - intros H. by apply (Hne q); [right|]. }
  split; [|split; [done|by rewrite B]].
  assert (header l' = header l) as Ah by done.
  split.
  - rewrite Ah. rewrite <- Permutation_middle. exact Hnd.
  - rewrite Hdom, (so_dom _ _ _ _ Hok), Ah, Eps. apply set_eq. intros r.
    rewrite elem_of_union, elem_of_singleton, !elem_of_list_to_set, !elem_of_cons, !elem_of_app, elem_of_cons. tauto.
  - rewrite Ah, G. destruct (Hoth (header l)) as [-> _]; [apply Hne; by left|apply Hok].
  - intros p Hp. rewrite G, Cc. change (level l1) with (level l).
    apply elem_of_app in Hp as [Hp|Hp]; [|apply elem_of_cons in Hp as [->|Hp]].
    + destruct (Hoth p) as [-> _]; [apply Hne; right|apply (so_heights _ _ _ _ Hok)];
        rewrite Eps; apply elem_of_app; by left.
    + by rewrite (proj1 Hsame).
    + destruct (Hoth p) as [-> _]; [apply Hne; right|apply (so_heights _ _ _ _ Hok)];
        rewrite Eps; apply elem_of_app; by right.
  - rewrite Cc. exact (so_level _ _ _ _ Hok).
  - pose proof (so_keys _ _ _ _ Hok) as HK. rewrite Eps, Eks in HK. apply Forall2_app_inv in HK as [HA HB]; [|done].
    assert (forall P Q, P ⊆ ps -> Forall2 (fun p k => key_of l p = Some k) P Q -> Forall2 (fun p k => key_of l' p = Some k) P Q) as Hmv.
    { intros P Q HP HPQ. induction HPQ as [|p k P Q Hpk HPQ IH]; constructor.
      - rewrite Kk. destruct (Hoth p) as (_ & -> & _); [|done]. apply Hne. right. apply HP. by left.
      - apply IH. intros r Hr. apply HP. by right. }
    apply Forall2_app; [apply Hmv; [|done]; rewrite Eps; intros r Hr; apply elem_of_app; by left|].
    constructor; [rewrite Kk; apply Hsame|]. apply Hmv; [|done]. rewrite Eps. intros r Hr. apply elem_of_app. by right.
  - apply (chain_linked l1 l' PA PB q h).
    + intros k Hk. change (header l1) with (header l). rewrite Elev by (by rewrite Eps).
      eapply chain_ext; [|rewrite <- Eps; by apply (so_chain _ _ _ _ Hok)].
      intros r Hr. apply Hoth. apply Hne. apply elem_of_cons in Hr as [->|Hr]; [by left|].
      right. rewrite Eps. by apply on_level_sub in Hr.
    + done.
    + apply Hsame.
    + destruct Hlk as [F1 F2 F3 F4]. split; try done. intros j r. rewrite F1, Epred. done.
  - unfold allows_dup. rewrite B. exact Hsort.
  - rewrite E'. cbn. rewrite (so_count _ _ _ _ Hok), Eks. unfold len. rewrite !length_app. cbn. lia.
Qed.
End insert.

(** ** The operations on the list of keys *)

Section refinement.
Context {K : Type} (compare : K -> K -> Z) `{!Comparison compare}.
Abbreviation T := (SkipList K).
Implicit Types l : T.

(** The list holds the keys [ks], in order. *)
Definition holds l (ks : list K) : Prop := exists ps, sl_ok compare l ps ks.

(** The nodes are below the next address of the allocator. *)
Definition allocated l (h : host) : Prop := forall p, p ∈ dom (nodes l) -> p < h_brk h.

Lemma matches_find dup ks kk :
  StronglySorted (key_order compare dup) ks ->
  matches compare kk ks = List.find (fun k => compare k kk =? 0) ks.
Proof.
  unfold matches, above. induction 1 as [|k ks Hs IH Hall]; [done|]. cbn [List.find].
  destruct (decide (compare k kk < 0)) as [Hlt|Hge].
  - rewrite filter_cons_False by naive_solver. rewrite (proj2 (Z.eqb_neq _ _)) by lia. exact IH.
  - rewrite filter_cons_True by done. destruct (Z.eqb_spec (compare k kk) 0) as [|Hne]; [done|].
    symmetry. clear IH Hs. induction Hall as [|y ks Hy Hall IH]; [done|]. cbn [List.find].
    rewrite (proj2 (Z.eqb_neq (compare y kk) 0)); [exact IH|]. intros E.
    assert (compare y k < 0) as Hyk.
    { apply (cmp_eq_l y kk k E). apply cmp_sym. lia. }
    unfold key_order in Hy. destruct dup; [lia|]. apply cmp_sym in Hy. lia.
Qed.

Lemma insert_sorted dup ks kk :
  StronglySorted (key_order compare dup) ks -> dup = true \/ matches compare kk ks = None ->
  StronglySorted (key_order compare dup) (below compare kk ks ++ kk :: above compare kk ks).
Proof.
  intros Hs Hd. pose proof (sorted_cut compare dup ks kk Hs) as E. pose proof Hs as Hs'. rewrite E in Hs'.
  apply StronglySorted_app in Hs' as (Hab & Ha & Hb). apply StronglySorted_app_2; [|done|].
  - intros x y Hx Hy. apply elem_of_cons in Hy as [->|Hy]; [|by apply Hab].
    apply list_elem_of_filter in Hx as [Hx _]. unfold key_order. destruct dup; [|done].
    apply cmp_sym in Hx. lia.
  - constructor; [done|]. apply Forall_forall. intros y Hy.
    pose proof Hy as Hy'. apply list_elem_of_filter in Hy' as [Hy' Hin]. unfold key_order.
    destruct dup; [lia|]. destruct Hd as [|Hd]; [done|].
    rewrite (matches_find false) in Hd by done.
    pose proof (List.find_none _ _ Hd y (proj1 (list_elem_of_In _ _) Hin)) as Hne. cbn in Hne.
    apply Z.eqb_neq in Hne. apply cmp_sym. lia.
Qed.

(** How the outcome of a search enters a monadic computation. *)
Lemma search_wp {S A} cmp l kk r (k : Z * option Z * list Z -> M S A) Q s :
  search_from cmp l kk = Done r -> wp (k r) Q s ->
  wp (x ← (fun s => match search_from cmp l kk with Done r => Done (r, s) | Hang => Hang | Fault => Fault end);
      k x) Q s.
Proof. intros E H. apply wp_bind. unfold wp at 1. rewrite E. exact H. Qed.

Lemma random_level_nonneg rs n : 0 <= n -> 0 <= (random_level rs n).1.
Proof. revert n. induction rs as [|r rs IH]; intros n Hn; cbn; [done|]. destruct (r <? P_25); [apply IH; lia|done]. Qed.

(** The list and the path after a level is chosen: its height [h = k + 1]. *)
Definition raised l l1 (h : nat) : Prop :=
  nodes l1 = nodes l /\ header l1 = header l /\ flags l1 = flags l /\ count l1 = count l /\
  level l <= level l1 <= MaxNumberOfLevels /\ (1 <= h <= Z.to_nat (level l1))%nat.

Lemma choose_level l ps ks PA PB :
  sl_ok compare l ps ks -> ps = PA ++ PB ->
  let '(k, l0) := RandomLevelSL l in
  let '(k, l1, upd) :=
    if k >=? level l0 then (level l0, set_level (level l0 + 1) l0, (pred_at l PA <$> seq 0 (Z.to_nat (level l))) ++ [header l0])
    else (k, l0, pred_at l PA <$> seq 0 (Z.to_nat (level l))) in
  0 <= k /\ raised l l1 (Z.to_nat (k + 1)) /\
  forall j, (j < Z.to_nat (k + 1))%nat -> upd !! j = Some (pred_at l PA j).
Proof.
  intros Hok E. pose proof (so_level _ _ _ _ Hok) as Hl. unfold RandomLevelSL.
  destruct (random_level (sl_rand l) 0) as [lvl rs] eqn:Er.
  pose proof (random_level_nonneg (sl_rand l) 0 ltac:(done)) as Hn. rewrite Er in Hn. cbn in Hn.
  set (k := if lvl >? MaxLevel then MaxLevel else lvl).
  assert (0 <= k <= MaxLevel) as Hk.
  { unfold k, MaxLevel, MaxNumberOfLevels in *. destruct (Z.gtb_spec lvl (16 - 1)); lia. }
  unfold MaxLevel, MaxNumberOfLevels in *. cbn [level]. rewrite Z.geb_leb. unfold raised, MaxNumberOfLevels.
  assert (forall j, (j < Z.to_nat (level l))%nat ->
    (pred_at l PA <$> seq 0 (Z.to_nat (level l))) !! j = Some (pred_at l PA j)) as Hseq.
  { intros j Hj. rewrite list_lookup_fmap, lookup_seq_lt by done. done. }
  assert (length (pred_at l PA <$> seq 0 (Z.to_nat (level l))) = Z.to_nat (level l)) as Hlen
    by (by rewrite length_fmap, length_seq).
  destruct (Z.leb_spec (level l) k); (split; [lia|split; [cbn; split_and!; try done; lia|]]); intros j Hj.
  - destruct (decide (j < Z.to_nat (level l))%nat).
    + rewrite lookup_app_l by lia. by apply Hseq.
    + rewrite lookup_app_r by lia. rewrite Hlen. replace (j - _)%nat with 0%nat by lia. cbn. f_equal.
      unfold pred_at. rewrite on_level_nil; [done|]. intros p Hp.
      pose proof (so_heights _ _ _ _ Hok p). assert (p ∈ ps) as Hin by (rewrite E; apply elem_of_app; by left).
      specialize (so_heights _ _ _ _ Hok p Hin). lia.
  - apply Hseq. lia.
Qed.

Definition insert_post l ks (h : host) (kk : K) (r : Z) (s' : T * host) : Prop :=
  allocated s'.1 s'.2 /\ flags s'.1 = flags l /\ h_brk h <= h_brk s'.2 /\ (no_oom h -> no_oom s'.2) /\
  (r = DUPLICATE_ITEM /\ allows_dup l = false /\ (exists k, k ∈ ks /\ compare k kk = 0) /\ s' = (l, h) \/
   r = 0 /\ holds s'.1 ks /\ head (h_oom h) = Some true \/
   r = 1 /\ holds s'.1 (below compare kk ks ++ kk :: above compare kk ks) /\
     (allows_dup l = true \/ forall k, k ∈ ks -> compare k kk <> 0)).

Lemma insert_spec l ks h kk :
  holds l ks -> allocated l h -> wp (InsertSL compare kk) (insert_post l ks h kk) (l, h).
Proof.
  intros [ps Hok] Hal. destruct (ok_cut compare l ps ks kk Hok) as (PA & PB & E & Hcut).
  unfold InsertSL. wp_step. wp_step.
  eapply search_wp; [by apply (search_from_spec compare compare l kk ps ks PA PB _ _ Hok Hcut)|]. cbn beta iota.
  rewrite (is_match_spec compare l kk PA PB ks Hcut). wp_step. wp_step.
  pose proof (matches_find (allows_dup l) ks kk (so_sorted _ _ _ _ Hok)) as Hmf.
  destruct ((Z.land (flags l) ALLOW_DUPLICATES =? 0) && _) eqn:Ed.
  { apply wp_ret. apply andb_true_iff in Ed as [Ed Em]. do 4 (split; [done|]). left.
    split; [done|]. split; [unfold allows_dup; by rewrite Ed|]. split; [|done].
    destruct (matches compare kk ks) as [k|] eqn:Em'; [|done]. exists k. symmetry in Hmf.
    apply List.find_some in Hmf as [Hin Hk]. split; [by apply list_elem_of_In|by apply Z.eqb_eq]. }
  assert (allows_dup l = true \/ matches compare kk ks = None) as Hnd.
  { unfold allows_dup. apply andb_false_iff in Ed as [->|Em]; [by left|right].
    by destruct (matches compare kk ks). }
  pose proof (choose_level l ps ks PA PB Hok E) as Hch.
  destruct (RandomLevelSL l) as [k0 l0] eqn:Er.
  destruct (if k0 >=? level l0 then _ else _) as [[k l1] upd] eqn:Eif.
  destruct Hch as (Hk & (R1 & R2 & R3 & R4 & R5 & R6) & Hupd). wp_step. wp_step. wp_step. apply wp_zoom. cbn [fst snd].
  assert (sl_ok compare l1 ps ks) as Hok1 by (by apply (sl_ok_meta compare l)).
  assert (forall k, pred_at l1 PA k = pred_at l PA k) as Ep.
  { intros j. unfold pred_at, on_level, height. rewrite R2. f_equal. apply list_filter_iff. intros p. by rewrite R1. }
  unfold wp at 1, malloc. destruct (h_oom h) as [|[] oom] eqn:Eo.
  2: { cbn beta iota. wp_step. split; cbn [fst snd]; [intros p; cbn; rewrite R1; apply Hal|].
       split; [done|]. split; [done|]. split; [unfold no_oom; by rewrite Eo|]. right. left. split; [done|]. split; [by exists ps|]. by rewrite Eo. }
  all: cbn beta iota; set (q := h_brk h).
  all: destruct (ok_insert compare l1 ps ks PA PB (below compare kk ks) (above compare kk ks) q kk (Z.to_nat (k + 1)) upd)
    as (l' & El & Hok' & Hdom & Hfl); try done.
  all: try (by apply (sorted_cut compare (allows_dup l)), (so_sorted _ _ _ _ Hok)).
  all: try (by apply (Forall2_length _ _ _ (ct_A _ _ _ _ _ _ _ Hcut))).
  all: try (rewrite R1; intros Hq; specialize (Hal q Hq); unfold q in Hal; lia).
  all: try (intros j Hj; rewrite Ep; by apply Hupd).
  all: try (assert (allows_dup l1 = allows_dup l) as -> by (unfold allows_dup; by rewrite R3);
            apply insert_sorted; [apply Hok|done]).
  all: unfold add_node in El; cbn [set_count count] in El; change (nodes (set_count _ l1)) with (nodes l1); rewrite El.
  all: wp_step; wp_step; wp_step; wp_step; split; cbn [fst snd].
  all: try (intros p Hp; rewrite Hdom, R1 in Hp; apply elem_of_union in Hp as [Hp%elem_of_singleton|Hp];
       [subst p; unfold q; cbn; lia|specialize (Hal p Hp); cbn; lia]).
  all: split; [by rewrite Hfl|].
  all: split; [cbn; lia|]; split; [unfold no_oom; rewrite Eo; done|].
  all: right; right; split; [done|split; [by exists (PA ++ q :: PB)|]].
  all: destruct Hnd as [|Hn]; [by left|right]; intros y Hy Ey; rewrite Hmf in Hn;
    pose proof (List.find_none _ _ Hn y (proj1 (list_elem_of_In _ _) Hy)) as Hne; cbn in Hne; zcases; done.
Qed.

(** [SearchSL] finds what a linear search of the keys finds. *)
Lemma search_spec l ks kk :
  holds l ks -> wp (SearchSL compare kk) (fun r l' => l' = l /\ r = List.find (fun k => compare k kk =? 0) ks) l.
Proof.
  intros [ps Hok]. destruct (ok_cut compare l ps ks kk Hok) as (PA & PB & E & Hcut).
  rewrite <- (matches_find (allows_dup l)) by apply Hok.
  unfold SearchSL. wp_step. wp_step.
  eapply search_wp; [by apply (search_from_spec compare compare l kk ps ks PA PB _ _ Hok Hcut)|]. cbn beta iota.
  rewrite (is_match_spec compare l kk PA PB ks Hcut). wp_step. wp_step.
  destruct Hcut as [_ HB _ _]. unfold matches. destruct HB as [|q k PB' KB Hq HB]; cbn [head]; [by apply wp_ret|].
  destruct (compare k kk =? 0); [|by apply wp_ret]. rewrite Hq. wp_step. wp_step. by apply wp_ret.
Qed.
End refinement.

(** ** Deletion *)

Section delete.
Context {K : Type} (compare : K -> K -> Z) `{!Comparison compare}.
Abbreviation T := (SkipList K).
Implicit Types l : T.

(** The forward pointers after [q] is unlinked from the levels below [h]. *)
Record unlinked l l' (h : nat) (q : Z) (prd : nat -> Z) (k : nat) : Prop := {
  ul_fwd : forall j r, fwd l' j r = if decide (k <= j < h /\ r = prd j)%nat then fwd l j q else fwd l j r;
  ul_height : forall r, height l' r = height l r;
  ul_key : forall r, key_of l' r = key_of l r;
  ul_rest : dom (nodes l') = dom (nodes l) /\ header l' = header l /\ flags l' = flags l /\
    level l' = level l /\ count l' = count l;
}.

Lemma unlink_levels_spec n k l q h (prd : nat -> Z) upd :
  (forall j, (k <= j < k + n)%nat -> upd !! j = Some (prd j) /\ (j < height l (prd j))%nat /\
     (fwd l j (prd j) = Some (Some q) <-> (j < h)%nat)) ->
  (forall j, prd j <> q) -> (h <= height l q)%nat -> (h <= k + n)%nat ->
  exists l', unlink_levels n (Z.of_nat k) l q upd = Some l' /\ unlinked l l' h q prd k.
Proof.
  revert k l. induction n as [|n IH]; intros k l Hupd Hne Hq Hh; cbn [unlink_levels].
  { exists l. split; [done|]. split; try done. intros j r. rewrite decide_False; [done|lia]. }
  destruct (Hupd k ltac:(lia)) as (Hu & Hk & Hiff). rewrite Nat2Z.id, Hu. cbn [mbind option_bind].
  change (get_forward l (prd k) (Z.of_nat k)) with (fwd l k (prd k)).
  destruct (fwd_Some l k (prd k) Hk) as [e He]. rewrite He in *. cbn [mbind option_bind].
  destruct (bool_decide_reflect (e = Some q)) as [->|Hneq].
  2: { exists l. split; [done|]. split; try done. intros j r. rewrite decide_False; [done|].
       intros [Hj _]. apply Hneq. destruct Hiff as [_ Hiff]. specialize (Hiff ltac:(lia)). congruence. }
  assert (k < h)%nat as Hkh by (by apply Hiff).
  change (get_forward l q (Z.of_nat k)) with (fwd l k q).
  destruct (fwd_Some l k q ltac:(lia)) as [fq Hfq]. rewrite Hfq. cbn [mbind option_bind].
  destruct (set_forward_Some l k (prd k) fq Hk) as (l1 & -> & F1 & G1 & K1 & D1 & A1 & B1 & C1 & E1).
  cbn [mbind option_bind]. replace (Z.of_nat k + 1) with (Z.of_nat (S k)) by lia.
  destruct (IH (S k) l1) as (l' & -> & [F2 G2 K2 (D2 & A2 & B2 & C2 & E2)]); try done; try lia.
  { intros j Hj. destruct (Hupd j ltac:(lia)) as (? & ? & ?). rewrite G1, F1, decide_False by lia. done. }
  { rewrite G1. lia. }
  exists l'. split; [done|]. split; [|intros; by rewrite G2, G1|intros; by rewrite K2, K1|split_and!; congruence].
  intros j r. rewrite F2, !F1. rewrite (decide_False (P := j = k /\ q = prd k)) by (intros [_ E]; by apply (Hne k)).
  destruct (decide (j = k)) as [->|Hjk].
  - rewrite (decide_False (P := (S k <= k < h /\ r = prd k)%nat)) by lia.
    destruct (decide (r = prd k)) as [->|].
    + by rewrite !decide_True by (done || lia).
    + by rewrite !decide_False by naive_solver.
  - rewrite (decide_False (P := j = k /\ r = prd k)) by naive_solver.
    destruct (decide (S k <= j < h /\ r = prd j)%nat), (decide (k <= j < h /\ r = prd j)%nat); try done; lia.
Qed.

(** The chains after [q] is unlinked everywhere. *)
Lemma chain_unlinked l l' PA PB q :
  (forall k, (k < 17)%nat -> chain l k (header l) (on_level l k (PA ++ q :: PB)) None) ->
  NoDup (header l :: (PA ++ q :: PB)) ->
  unlinked l l' (height l q) q (pred_at l PA) 0 ->
  forall k, (k < 17)%nat -> chain l' k (header l) (on_level l k (PA ++ PB)) None.
Proof.
  intros Hc Hnd [F G _ _] k Hk. specialize (Hc k Hk).
  rewrite on_level_app, on_level_cons in Hc. rewrite on_level_app.
  set (FA := on_level l k PA) in *. set (FB := on_level l k PB) in *.
  assert (FA ⊆ PA) as SA by apply on_level_sub. assert (FB ⊆ PB) as SB by apply on_level_sub.
  apply NoDup_cons in Hnd as [N1 N3]. rewrite elem_of_app, elem_of_cons in N1.
  apply NoDup_app in N3 as (N3 & N4 & N5). apply NoDup_cons in N5 as [N5 N6].
  assert (forall r, r ∈ header l :: FA -> r ∉ FB) as Hsep.
  { intros r [->|Hr]%elem_of_cons Hr'; [apply N1; auto|]. apply (N4 r); [auto|]. right. auto. }
  assert (pred_at l PA k ∈ header l :: FA) as Hpred by apply last_of_in.
  assert (NoDup (header l :: FA)) as NFA.
  { apply NoDup_level. rewrite NoDup_cons. split; [tauto|done]. }
  destruct (decide (k < height l q)%nat) as [Hlt|Hge]; cbn [app] in Hc.
  - apply chain_app in Hc as [Hc1 Hc2]. apply chain_app. cbn [head rest] in Hc1, Hc2.
    assert (chain l k q ([] ++ FB) None) as Hc3 by done. apply chain_app in Hc3 as [Hq Hr]. cbn in Hq. split.
    + apply (chain_redirect l _ _ _ _ (Some q)); [done| | |done].
      * intros r Hr' Hne. rewrite F. rewrite decide_False; [done|]. by intros [_ ?].
      * rewrite F, decide_True; [done|]. split; [lia|done].
    + eapply rest_ext; [|exact Hr]. intros r Hr'. rewrite F, decide_False; [done|].
      intros [_ ->]. by apply (Hsep (pred_at l PA k)).
  - assert (forall r, fwd l' k r = fwd l k r) as Efw by (intros r; rewrite F; by rewrite decide_False by lia).
    eapply chain_ext; [intros; apply Efw|done].
Qed.

Lemma trim_level_spec n l :
  (forall j, (j <= n)%nat -> is_Some (fwd l j (header l))) ->
  exists m, trim_level n l = Some (Z.of_nat m) /\ (m <= n)%nat /\
    forall j, (m < j <= n)%nat -> fwd l j (header l) = Some None.
Proof.
  induction n as [|n IH]; intros H.
  - destruct (H 0%nat ltac:(lia)) as [f Hf]. unfold fwd in Hf. cbn [trim_level]. rewrite Hf. cbn.
    exists 0%nat. split; [done|]. split; lia.
  - destruct (H (S n) ltac:(lia)) as [f Hf]. cbn [trim_level].
    change (get_forward l (header l) (Z.of_nat (S n))) with (fwd l (S n) (header l)). rewrite Hf. cbn [mbind option_bind].
    case_bool_decide as E.
    + subst f. destruct IH as (m & -> & Hm & Hnone); [intros; apply H; lia|].
      exists m. split; [done|]. split; [lia|]. intros j Hj. destruct (decide (j = S n)) as [->|]; [done|]. apply Hnone. lia.
    + exists (S n). split; [done|]. split; [lia|]. intros j Hj. lia.
Qed.

(** Removing an unlinked node from the store. *)
Definition drop_node (q : Z) l : T := set_nodes (delete q (nodes l)) (set_count (count l - 1) l).

Lemma drop_node_other l q r :
  r <> q -> height (drop_node q l) r = height l r /\ key_of (drop_node q l) r = key_of l r /\
    forall k, fwd (drop_node q l) k r = fwd l k r.
Proof. intros Hr. unfold height, key_of, fwd, get_forward. cbn. by rewrite lookup_delete_ne by done. Qed.

Lemma ok_delete l l' ps ks PA PB KA KB q kk :
  sl_ok compare l ps ks -> ps = PA ++ q :: PB -> ks = KA ++ kk :: KB -> length PA = length KA ->
  unlinked l l' (height l q) q (pred_at l PA) 0 ->
  exists m, trim_level (Z.to_nat (level l' - 1)) (drop_node q l') = Some m /\
    sl_ok compare (set_level (m + 1) (drop_node q l')) (PA ++ PB) (KA ++ KB) /\ flags l' = flags l /\ dom (nodes l') = dom (nodes l).
Proof.
  intros Hok Eps Eks Hlen Hul. pose proof Hul as [F G Kk (D & A & B & Cc & E')].
  pose proof (so_level _ _ _ _ Hok) as Hlev. unfold MaxNumberOfLevels in Hlev.
  pose proof (so_nodup _ _ _ _ Hok) as Hnd. rewrite Eps in Hnd.
  set (l2 := drop_node q l').
  assert (forall r, r ∈ header l :: (PA ++ PB) -> r <> q) as Hne.
  { intros r Hr ->. rewrite <- Permutation_middle, Permutation_swap in Hnd.
    apply NoDup_cons in Hnd as [Hnd _]. done. }
  assert (forall r, r <> q -> height l2 r = height l r /\ key_of l2 r = key_of l r /\ forall k, fwd l2 k r = fwd l' k r) as Hoth.
  { intros r Hr. destruct (drop_node_other l' q r Hr) as (E1 & E2 & E3). fold l2 in E1, E2, E3.
    rewrite E1, E2, G, Kk. done. }
  assert (header l2 = header l) as Ah by done.
  assert (forall k, (k < 17)%nat -> chain l2 k (header l2) (on_level l2 k (PA ++ PB)) None) as Hch.
  { intros k Hk. rewrite Ah. rewrite (on_level_ext l l2) by (intros p Hp; apply Hoth, Hne; by right).
    eapply chain_ext; [|apply (chain_unlinked l l' PA PB q)]; try done.
    - intros r Hr. apply Hoth, Hne. apply elem_of_cons in Hr as [->|Hr]; [by left|right].
      by apply on_level_sub in Hr.
    - rewrite <- Eps. apply Hok. }
  assert (forall k, (k < 17)%nat -> is_Some (fwd l2 k (header l2))) as Hsome.
  { intros k Hk. specialize (Hch k Hk). destruct (on_level l2 k (PA ++ PB)); cbn [chain] in Hch; [by rewrite Hch|].
    destruct Hch as [-> _]. done. }
  destruct (trim_level_spec (Z.to_nat (level l' - 1)) l2) as (m & Em & Hm & Hnone).
  { intros j Hj. apply Hsome. rewrite Cc in Hj. lia. }
  exists (Z.of_nat m). split; [done|]. split; [|by split].
  assert (forall p, p ∈ PA ++ PB -> (1 <= height l2 p <= m + 1)%nat) as Hhts.
  { intros p Hp. destruct (Hoth p) as [-> _]; [apply Hne; by right|].
    assert (p ∈ ps) as Hin by (rewrite Eps; rewrite elem_of_app in *; rewrite elem_of_cons; tauto).
    pose proof (so_heights _ _ _ _ Hok p Hin) as Hh. split; [lia|].
    destruct (decide (height l p <= m + 1)%nat) as [|Hgt]; [done|exfalso].
    rewrite Cc in Hnone. specialize (Hnone (m + 1)%nat ltac:(lia)). specialize (Hch (m + 1)%nat ltac:(lia)).
    assert (p ∈ on_level l2 (m + 1) (PA ++ PB)) as Hp'.
    { apply list_elem_of_filter. split; [|done]. destruct (Hoth p) as [-> _]; [apply Hne; by right|lia]. }
    destruct (on_level l2 (m + 1) (PA ++ PB)); [by apply elem_of_nil in Hp'|]. destruct Hch as [Hch _]. congruence. }
  split.
  - change (header (set_level _ l2)) with (header l2). rewrite Ah.
    rewrite <- Permutation_middle, Permutation_swap in Hnd. by apply NoDup_cons in Hnd as [_ Hnd].
  - change (nodes (set_level _ l2)) with (delete q (nodes l')). change (header (set_level _ l2)) with (header l').
    rewrite A, dom_delete_L, D, (so_dom _ _ _ _ Hok), Eps. apply set_eq. intros r.
    rewrite elem_of_difference, elem_of_singleton, !elem_of_list_to_set, !elem_of_cons, !elem_of_app, elem_of_cons.
    split; [tauto|]. intros Hr. split; [tauto|]. apply Hne. rewrite elem_of_cons, elem_of_app. tauto.
  - change (height l2 (header l2) = 17%nat). rewrite Ah. destruct (Hoth (header l)) as [-> _]; [apply Hne; by left|apply Hok].
  - intros p Hp. change (1 <= height l2 p <= Z.to_nat (Z.of_nat m + 1))%nat. specialize (Hhts p Hp). lia.
  - cbn. unfold MaxNumberOfLevels. lia.
  - pose proof (so_keys _ _ _ _ Hok) as HK. rewrite Eps, Eks in HK. apply Forall2_app_inv in HK as [HA HB]; [|done].
    inversion HB as [|? ? ? ? _ HB' X1 X2]; subst.
    assert (forall P Q, P ⊆ PA ++ PB -> Forall2 (fun p k => key_of l p = Some k) P Q ->
              Forall2 (fun p k => key_of (set_level (Z.of_nat m + 1) l2) p = Some k) P Q) as Hmv.
    { intros P Q HP HPQ. induction HPQ as [|p k P Q Hpk HPQ IH]; constructor.
      - change (key_of l2 p = Some k). destruct (Hoth p) as (_ & -> & _); [|done]. apply Hne. right. apply HP. by left.
      - apply IH. intros r Hr. apply HP. by right. }
    apply Forall2_app; apply Hmv; try done; intros r Hr; apply elem_of_app; auto.
  - intros k Hk. apply (chain_ext l2); [done|]. by apply Hch.
  - change (allows_dup (set_level _ l2)) with (allows_dup l'). unfold allows_dup. rewrite B.
    pose proof (so_sorted _ _ _ _ Hok) as Hs. rewrite Eks in Hs. apply StronglySorted_app in Hs as (Hx & Hs1 & Hs2).
    inversion Hs2; subst. apply StronglySorted_app_2; try done. intros x y Hin1 Hin2. apply Hx; [done|by right].
  - change (count l' - 1 = len (KA ++ KB)). rewrite E', (so_count _ _ _ _ Hok), Eks. unfold len. rewrite !length_app. cbn. lia.
Qed.
End delete.

(** ** Properties *)

Section properties.
Context {K : Type} (compare : K -> K -> Z) `{!Comparison compare}.
Abbreviation T := (SkipList K).
Implicit Types l : T.

(** [ks] without its first key equal to [kk]. *)
Definition remove_key (kk : K) (ks : list K) : list K := below compare kk ks ++ tail (above compare kk ks).

(** The result of [DeleteSL]: 1 and one key less, or 0 and no change. *)
Definition delete_post l ks (kk : K) (r : Z) l' : Prop :=
  flags l' = flags l /\ dom (nodes l') ⊆ dom (nodes l) /\
  (r = 1 /\ (exists k, k ∈ ks /\ compare k kk = 0) /\ holds compare l' (remove_key kk ks) \/
   r = 0 /\ (forall k, k ∈ ks -> compare k kk <> 0) /\ l' = l).

Lemma delete_spec l ks kk :
  holds compare l ks -> wp (DeleteSL compare kk) (delete_post l ks kk) l.
Proof.
  intros [ps Hok]. destruct (ok_cut compare l ps ks kk Hok) as (PA & PB & E & Hcut).
  pose proof (matches_find compare (allows_dup l) ks kk (so_sorted _ _ _ _ Hok)) as Hmf.
  pose proof (so_level _ _ _ _ Hok) as Hlev. unfold MaxNumberOfLevels in Hlev.
  pose proof (so_chain _ _ _ _ Hok 0%nat ltac:(lia)) as Hc0.
  rewrite on_level_0 in Hc0 by (intros p Hp; apply (so_heights _ _ _ _ Hok p Hp)).
  assert (forall k, (k < 17)%nat -> fwd l k (pred_at l PA k) = Some (head (on_level l k PB))) as Hpred.
  { intros k Hk. pose proof (so_chain _ _ _ _ Hok k Hk) as Hc. rewrite E, on_level_app in Hc.
    apply chain_app in Hc as [Hc _]. by apply chain_last in Hc. }
  assert (on_level l 0 PB = PB) as E0.
  { apply on_level_0. intros p Hp. apply (so_heights _ _ _ _ Hok). rewrite E. apply elem_of_app. by right. }
  unfold DeleteSL. wp_step. wp_step.
  eapply search_wp; [by apply (search_from_spec compare compare l kk ps ks PA PB _ _ Hok Hcut)|]. cbn beta iota.
  change (get_forward l (pred_at l PA 0) 0) with (fwd l 0 (pred_at l PA 0)). rewrite Hpred, E0 by lia.
  wp_step. wp_step. rewrite (is_match_spec compare l kk PA PB ks Hcut). wp_step. wp_step.
  assert (matches compare kk ks = None -> forall k, k ∈ ks -> compare k kk <> 0) as Hnone.
  { intros Hn k Hk Ek. rewrite Hmf in Hn. pose proof (List.find_none _ _ Hn k (proj1 (list_elem_of_In _ _) Hk)) as Hx.
    cbn in Hx. zcases. done. }
  destruct (matches compare kk ks) as [k|] eqn:Em.
  2: { assert (delete_post l ks kk 0 l) by (split; [done|]; split; [done|]; right; auto). destruct PB; by apply wp_ret. }
  assert (exists q PB' KB', PB = q :: PB' /\ above compare kk ks = k :: KB') as (q & PB' & KB' & -> & EB).
  { unfold matches in Em. pose proof (ct_B _ _ _ _ _ _ _ Hcut) as HB.
    destruct HB as [|q k' PB' KB' Hq HB]; [done|]. destruct (compare k' kk =? 0); [|done].
    injection Em as ->. by exists q, PB', KB'. }
  cbn [head]. pose proof (so_nodup _ _ _ _ Hok) as Hnd. rewrite E in Hnd.
  assert (forall j, pred_at l PA j <> q) as Hne.
  { intros j Ej. pose proof (last_of_in (header l) (on_level l j PA)) as H. fold (pred_at l PA j) in H. rewrite Ej in H.
    apply NoDup_cons in Hnd as [N1 N2]. apply NoDup_app in N2 as (_ & N2 & _).
    apply elem_of_cons in H as [->|H]; [apply N1, elem_of_app; right; by left|].
    apply on_level_sub in H. apply (N2 q H). by left. }
  assert (q ∈ ps) as Hqin by (rewrite E; apply elem_of_app; right; by left).
  pose proof (so_heights _ _ _ _ Hok q Hqin) as Hqh.
  destruct (unlink_levels_spec (Z.to_nat (level l)) 0 l q (height l q) (pred_at l PA)
    (pred_at l PA <$> seq 0 (Z.to_nat (level l)))) as (l' & Eu & Hul); [|done|lia|lia|].
  { intros j Hj. split; [rewrite list_lookup_fmap, lookup_seq_lt by lia; done|].
    split; [eapply pred_height; [done|done|lia]|]. rewrite Hpred by lia. rewrite on_level_cons.
    destruct (decide (j < height l q)%nat); cbn; [done|]. split; [|lia]. intros [= Eh].
    exfalso. assert (q ∈ on_level l j PB') as Hq'.
    { destruct (on_level l j PB'); [done|]. cbn in Eh. injection Eh as ->. by left. }
    apply list_elem_of_filter in Hq' as [? _]. lia. }
  change 0 with (Z.of_nat 0) at 1. rewrite Eu. wp_step. wp_step.
  destruct (ok_delete compare l l' ps ks PA PB' (below compare kk ks) KB' q k) as (m & Et & Hok' & Hfl & Hdm); try done.
  { rewrite <- EB. apply (sorted_cut compare (allows_dup l)), Hok. }
  { by apply (Forall2_length _ _ _ (ct_A _ _ _ _ _ _ _ Hcut)). }
  change (set_nodes (delete q (nodes (set_count (count l' - 1) l'))) (set_count (count l' - 1) l')) with (drop_node q l').
  change (level (drop_node q l')) with (level l'). rewrite Et. wp_step. wp_step. wp_step. wp_step.
  split; [by cbn|]. split; [cbn; rewrite dom_delete_L, Hdm; set_solver|]. left. split; [done|]. split.
  - exists k. symmetry in Hmf. apply List.find_some in Hmf as [H1 H2]. split; [by apply list_elem_of_In|by zcases].
  - exists (PA ++ PB'). unfold remove_key. rewrite EB. exact Hok'.
Qed.

Lemma free_chain_spec fuel l p L ks :
  chain l 0 p L None -> Forall2 (fun p k => key_of l p = Some k) L ks -> (length L <= fuel)%nat ->
  forall e, fwd l 0 p = Some e -> free_chain fuel l e = Done ks.
Proof.
  revert p L ks. induction fuel as [|fuel IH]; intros p L ks Hc Hk Hf e He.
  - destruct Hk; [|cbn in Hf; lia]. cbn in Hc. by simplify_eq.
  - destruct Hk as [|q k L ks Hq Hk]; cbn in Hc; [by simplify_eq|]. destruct Hc as [E Hc]. simplify_eq.
    cbn [free_chain]. change (get_forward l q 0) with (fwd l 0 q). cbn in Hf.
    destruct (fwd l 0 q) as [e'|] eqn:E'.
    + rewrite Hq. by rewrite (IH q L ks Hc Hk ltac:(lia) e' E').
    + destruct L; cbn in Hc; [congruence|]. destruct Hc; congruence.
Qed.

Lemma new_spec rand fl h :
  no_oom h -> wp (NewSL rand fl) (fun r h' => exists l, r = Some l /\ holds compare l [] /\ allocated l h' /\ flags l = fl) h.
Proof.
  intros Ho. unfold NewSL. wp_step. unfold wp at 1, malloc at 1. unfold no_oom in Ho. rewrite Ho. cbn beta iota.
  wp_step. unfold wp at 1, malloc. cbn beta iota. cbn [h_oom tail]. wp_step. eexists. split; [done|].
  set (a := h_brk h + Z.max 1 40). split; [|split; [|done]].
  - exists []. split; cbn [header level count]; try done.
    + apply NoDup_singleton.
    + cbn [nodes]. rewrite dom_singleton_L. set_solver.
    + unfold height. cbn [nodes]. by rewrite lookup_singleton_eq.
    + intros p Hp. by apply elem_of_nil in Hp.
    + intros k Hk. change (on_level _ k []) with (@nil Z). cbn [chain]. unfold fwd, get_forward. cbn [nodes header].
      rewrite lookup_singleton_eq. cbn -[replicate]. rewrite (proj2 (Z.leb_le _ _)), Nat2Z.id by lia.
      apply lookup_replicate_2. change (Z.to_nat (MaxNumberOfLevels + 1)) with 17%nat. done.
    + constructor.
  - intros p Hp. cbn [nodes] in Hp. rewrite dom_singleton_L in Hp. apply elem_of_singleton in Hp as ->. cbn. lia.
Qed.

(** C20. A search of the skip list returns, changes nothing, and finds exactly
    what a linear search of the list's keys in order finds: the first key that
    compares equal, or none. *)
Theorem search_exact l (ks : list K) (kk : K) (Hl : holds compare l ks) :
  wp (SearchSL compare kk) (fun r l' => l' = l /\ r = List.find (fun k => compare k kk =? 0) ks) l.
Proof. by apply search_spec. Qed.

(** C18. Insertion returns and keeps the list sorted on every level, whatever
    levels the random numbers choose.  It answers -1 and changes nothing when
    duplicates are not allowed and an equal key is there; 0, with the same
    keys, only when memory is exhausted; and 1 otherwise, with the key added
    in its place: after the smaller keys and before all others. *)
Theorem insert_exact l (ks : list K) (h : host) (kk : K) (Hl : holds compare l ks) (Ha : allocated l h) :
  wp (InsertSL compare kk) (insert_post compare l ks h kk) (l, h).
Proof. by apply insert_spec. Qed.

(** C19. Deletion returns.  It answers 1 and removes the first key equal to the
    argument, from every level it is on, when there is one; otherwise it
    answers 0 and changes nothing. *)
Theorem delete_exact l (ks : list K) (kk : K) (Hl : holds compare l ks) :
  wp (DeleteSL compare kk) (delete_post l ks kk) l.
Proof. by apply delete_spec. Qed.

(** Freeing the list visits every node and calls the user's [freeitem] on
    each key once, in order. *)
Theorem free_visits_all l (ks : list K) (Hl : holds compare l ks) : FreeSL l = Done ks.
Proof.
  destruct Hl as [ps Hok]. pose proof (so_chain _ _ _ _ Hok 0%nat ltac:(lia)) as Hc.
  rewrite on_level_0 in Hc by (intros p Hp; apply (so_heights _ _ _ _ Hok p Hp)).
  unfold FreeSL. change (get_forward l (header l) 0) with (fwd l 0 (header l)).
  assert (exists e, fwd l 0 (header l) = Some e) as [e He].
  { destruct ps; cbn in Hc; [eauto|]. destruct Hc; eauto. }
  rewrite He. apply (free_chain_spec _ _ (header l) ps); try done; [apply Hok|].
  rewrite <- size_dom, (so_dom _ _ _ _ Hok), size_list_to_set by apply Hok. cbn. lia.
Qed.
End properties.

(** ** A list of integers for the witnesses *)

#[export] Instance sub_comparison : Comparison Z.sub.
Proof. split; intros; lia. Qed.

(** Three keys inserted in an empty list without duplicates. *)
Definition no_list : SkipList Z * host := (SL ∅ 0 0 0 0 [], Host 0 0 0 0 [] []).
Definition list_0 : SkipList Z * host :=
  match NewSL [0; RAND_MAX; RAND_MAX; 0; 0; RAND_MAX] NO_DUPLICATES (Host 0 0 0 1000 [] []) with
  | Done (Some l, h) => (l, h)
  | _ => no_list
  end.
Definition inserted (kk : Z) (s : SkipList Z * host) : SkipList Z * host :=
  match InsertSL Z.sub kk s with Done (1, s') => s' | _ => no_list end.
Definition list_3 : SkipList Z * host := inserted 3 (inserted 9 (inserted 5 list_0)).
Definition sample_list : SkipList Z := list_3.1.
Definition sample_list_host : host := list_3.2.

Definition good (s : SkipList Z * host) (ks : list Z) : Prop := holds Z.sub s.1 ks /\ allocated s.1 s.2.

Lemma inserted_good s ks kk :
  good s ks -> (match InsertSL Z.sub kk s with Done (1, _) => true | _ => false end) = true ->
  good (inserted kk s) (below Z.sub kk ks ++ kk :: above Z.sub kk ks).
Proof.
  intros [Hl Ha] E. unfold inserted. destruct s as [l h].
  pose proof (insert_spec Z.sub l ks h kk Hl Ha) as H. unfold wp in H.
  destruct (InsertSL Z.sub kk (l, h)) as [[r s']| |]; [|by destruct H|by destruct H].
  destruct r as [|[]|]; try discriminate. destruct H as (Ha' & _ & _ & _ & [(? & _)|[(? & _)|(_ & Hl' & _)]]); try discriminate.
  by split.
Qed.

Lemma list_0_good : good list_0 [].
Proof.
  pose proof (new_spec Z.sub [0; RAND_MAX; RAND_MAX; 0; 0; RAND_MAX] NO_DUPLICATES (Host 0 0 0 1000 [] []) eq_refl) as H.
  unfold wp in H. unfold list_0. destruct (NewSL _ _ _) as [[r h0]| |]; [|by destruct H|by destruct H].
  destruct H as (l0 & -> & Hl0 & Ha0 & _). by split.
Qed.

Lemma sample_list_ok : holds Z.sub sample_list [3; 5; 9] /\ allocated sample_list sample_list_host.
Proof.
  assert (forall s, good s [3; 5; 9] -> holds Z.sub s.1 [3; 5; 9] /\ allocated s.1 s.2) as H by done.
  apply H. change [3; 5; 9] with (below Z.sub 3 [5; 9] ++ 3 :: above Z.sub 3 [5; 9]).
  apply inserted_good; [|vm_compute; reflexivity].
  change [5; 9] with (below Z.sub 9 [5] ++ 9 :: above Z.sub 9 [5]).
  apply inserted_good; [|vm_compute; reflexivity].
  apply (inserted_good list_0 [] 5 list_0_good). vm_compute. reflexivity.
Qed.

Lemma search_exact_witness :
  wp (SearchSL Z.sub 9) (fun r l' => l' = sample_list /\ r = Some 9) sample_list.
Proof. apply (search_exact Z.sub sample_list [3; 5; 9] 9). apply sample_list_ok. Defined.

Lemma insert_exact_witness :
  wp (InsertSL Z.sub 4) (fun r _ => r = 1) (sample_list, sample_list_host) /\
  wp (InsertSL Z.sub 5) (fun r _ => r = -1) (sample_list, sample_list_host) /\
  wp (InsertSL Z.sub 4) (insert_post Z.sub sample_list [3; 5; 9] sample_list_host 4) (sample_list, sample_list_host).
Proof.
  split; [vm_compute; reflexivity|]. split; [vm_compute; reflexivity|].
  exact (insert_exact Z.sub sample_list [3; 5; 9] sample_list_host 4 (proj1 sample_list_ok) (proj2 sample_list_ok)).
Defined.

Lemma delete_exact_witness :
  wp (DeleteSL Z.sub 5) (fun r l' => r = 1 /\ count l' = 2) sample_list /\
  wp (DeleteSL Z.sub 5) (delete_post Z.sub sample_list [3; 5; 9] 5) sample_list.
Proof.
  split; [vm_compute; split; reflexivity|].
  exact (delete_exact Z.sub sample_list [3; 5; 9] 5 (proj1 sample_list_ok)).
Defined.

Lemma free_visits_all_witness : FreeSL sample_list = Done [3; 5; 9].
Proof. apply (free_visits_all Z.sub sample_list [3; 5; 9] (proj1 sample_list_ok)). Defined.

(** [DoForSL] reads the array [save] past the levels it saved when it passes a
    node of the highest level. *)
Example iteration_reads_past : DoForSL (fun (_ : Z) (n : nat) => (0, S n)) sample_list 0%nat = Fault.
Proof. vm_compute. reflexivity. Qed.
