(* ===== verification/Kernel.v ===== *)
(** * Kernel: the data of the vnode layer (kernel.c)

    The structures and statics of kernel.c: in-memory nodes, name spaces, file
    systems, open files, tables of descriptors.  Pointers are addresses into
    the stores of [layer]. *)

From S2P Require Import Prelude Bytes Host SkipList.
Local Open Scope Z_scope.

Definition FREE_LIST : Z := 0.
Definition USED_LIST : Z := 1.
Definition LOCKED_LIST : Z := 2.

Record vnlist := VnList { l_head : option Z; l_tail : option Z; l_num : Z }.
Record vnlink := VnLink { lk_prev : option Z; lk_next : option Z }.

Record vnode := Vnode {
  vnid : Z;
  vn_ns : option Z;
  mounted : option Z;
  vn_remove : bool;
  vn_busy : bool;
  inlist : Z;
  vn_nspace : vnlink;
  vn_list : vnlink;
  rcnt : Z;
  vdata : option Z;
}.

Record nspace := Nspace {
  nsid : Z;
  ns_fs : Z;
  ns_vnodes : vnlist;
  ns_data : Z;
  ns_root : option Z;
  ns_mount : option Z;
  ns_shutdown : bool;
  ns_dev : Z;
  ns_ino : Z;
  ns_prev : option Z;
  ns_next : option Z;
}.

(** [fs_vops] is the address of the table of operations that was copied. *)
Record fsystem := Fsystem {
  fsid : Z;
  fixed : bool;
  aid : Z;
  fs_name : list byte;
  fs_rcnt : Z;
  fs_vops : Z;
}.

Definition FD_FILE : Z := 1.
Definition FD_DIR : Z := 2.
Definition FD_WD : Z := 4.
Definition FD_ALL : Z := Z.lor FD_FILE (Z.lor FD_DIR FD_WD).

Record ofile := Ofile {
  of_type : Z;
  of_vn : option Z;
  of_cookie : option Z;
  of_rcnt : Z;
  of_ocnt : Z;
  of_pos : Z;
  of_omode : Z;
}.

(** [fd_alloc] and [fd_coes] are arrays of [ulong] that hold 32 bits each. *)
Record fdarray := Fdarray {
  fd_rcnt : Z;
  fd_lock : lock;
  fd_num : Z;
  fd_alloc : list Z;
  fd_coes : list Z;
  fd_fds : list (option Z);
}.

Record ioctx := Ioctx {
  io_lock : lock;
  io_cwd : option Z;
  io_fds : option Z;
}.

(** A key of the skip list: what [compare_vnode] reads of the vnode at
    [k_vn].  Both fields are fixed while the vnode is in the list. *)
Record vkey := VKey { k_vnid : Z; k_nsid : Z; k_vn : Z }.

(** The statics that only paths, descriptors and mounting use. *)
Record statics := Statics {
  rootvn : option Z;
  nshead : option Z;
  nxnsid : Z;
  fstab : list (option Z);
  fsystems : gmap Z fsystem;
  fstablock : lock;
  nxfsid : Z;
  global_fds : option Z;
  fdarrays : gmap Z fdarray;
  ofiles : gmap Z ofile;
  io : ioctx;
}.

Record layer := Layer {
  vns : gmap Z vnode;
  lists : list vnlist;
  skiplist : SkipList vkey;
  nspaces : gmap Z nspace;
  nstab : list (option Z);
  vnlock : lock;
  usdvnnum : Z;
  kern : statics;
}.

Definition invalid_vnid : Z := 0.

Definition compare_vnode (vna vnb : vkey) : Z :=
  if k_vnid vna >? k_vnid vnb then 1
  else if k_vnid vna <? k_vnid vnb then -1
  else if k_nsid vna >? k_nsid vnb then 1
  else if k_nsid vna <? k_nsid vnb then -1
  else 0.

(** ** Assignments *)
Definition set_vns m (l : layer) := Layer m (lists l) (skiplist l) (nspaces l) (nstab l) (vnlock l) (usdvnnum l) (kern l).
Definition set_lists m (l : layer) := Layer (vns l) m (skiplist l) (nspaces l) (nstab l) (vnlock l) (usdvnnum l) (kern l).
Definition set_skiplist m (l : layer) := Layer (vns l) (lists l) m (nspaces l) (nstab l) (vnlock l) (usdvnnum l) (kern l).
Definition set_nspaces m (l : layer) := Layer (vns l) (lists l) (skiplist l) m (nstab l) (vnlock l) (usdvnnum l) (kern l).
Definition set_nstab m (l : layer) := Layer (vns l) (lists l) (skiplist l) (nspaces l) m (vnlock l) (usdvnnum l) (kern l).
Definition set_kern m (l : layer) := Layer (vns l) (lists l) (skiplist l) (nspaces l) (nstab l) (vnlock l) (usdvnnum l) m.
Definition set_vnlock m (l : layer) := Layer (vns l) (lists l) (skiplist l) (nspaces l) (nstab l) m (usdvnnum l) (kern l).

Definition v_set_rcnt n v := Vnode (vnid v) (vn_ns v) (mounted v) (vn_remove v) (vn_busy v) (inlist v)
  (vn_nspace v) (vn_list v) n (vdata v).
Definition v_set_busy b v := Vnode (vnid v) (vn_ns v) (mounted v) (vn_remove v) b (inlist v)
  (vn_nspace v) (vn_list v) (rcnt v) (vdata v).
Definition v_set_remove b v := Vnode (vnid v) (vn_ns v) (mounted v) b (vn_busy v) (inlist v)
  (vn_nspace v) (vn_list v) (rcnt v) (vdata v).
Definition v_set_data d v := Vnode (vnid v) (vn_ns v) (mounted v) (vn_remove v) (vn_busy v) (inlist v)
  (vn_nspace v) (vn_list v) (rcnt v) d.
Definition v_set_ns n v := Vnode (vnid v) n (mounted v) (vn_remove v) (vn_busy v) (inlist v)
  (vn_nspace v) (vn_list v) (rcnt v) (vdata v).
Definition v_set_vnid n v := Vnode n (vn_ns v) (mounted v) (vn_remove v) (vn_busy v) (inlist v)
  (vn_nspace v) (vn_list v) (rcnt v) (vdata v).
Definition v_set_inlist n v := Vnode (vnid v) (vn_ns v) (mounted v) (vn_remove v) (vn_busy v) n
  (vn_nspace v) (vn_list v) (rcnt v) (vdata v).
Definition v_set_list k v := Vnode (vnid v) (vn_ns v) (mounted v) (vn_remove v) (vn_busy v) (inlist v)
  (vn_nspace v) k (rcnt v) (vdata v).
Definition v_set_nspace k v := Vnode (vnid v) (vn_ns v) (mounted v) (vn_remove v) (vn_busy v) (inlist v)
  k (vn_list v) (rcnt v) (vdata v).

Definition set_prev p k := VnLink p (lk_next k).
Definition set_next n k := VnLink (lk_prev k) n.
Definition set_head h l := VnList h (l_tail l) (l_num l).
Definition set_tail t l := VnList (l_head l) t (l_num l).
Definition set_num n l := VnList (l_head l) (l_tail l) n.
Definition ns_set_vnodes k ns := Nspace (nsid ns) (ns_fs ns) k (ns_data ns) (ns_root ns) (ns_mount ns) (ns_shutdown ns)
  (ns_dev ns) (ns_ino ns) (ns_prev ns) (ns_next ns).

Definition get_vn (p : Z) : M layer vnode := l ← get; opt (vns l !! p).
Definition upd_vn (p : Z) (f : vnode -> vnode) : M layer unit :=
  v ← get_vn p; modify (fun l => set_vns (<[p := f v]> (vns l)) l).
Definition upd_vn_list (p : Z) (f : vnlink -> vnlink) : M layer unit :=
  upd_vn p (fun v => v_set_list (f (vn_list v)) v).
Definition upd_vn_nspace (p : Z) (f : vnlink -> vnlink) : M layer unit :=
  upd_vn p (fun v => v_set_nspace (f (vn_nspace v)) v).
Definition get_list (k : Z) : M layer vnlist := l ← get; opt (lists l !! Z.to_nat k).
Definition upd_list (k : Z) (f : vnlist -> vnlist) : M layer unit :=
  v ← get_list k; modify (fun l => set_lists (<[Z.to_nat k := f v]> (lists l)) l).
Definition get_ns (p : Z) : M layer nspace := l ← get; opt (nspaces l !! p).

Definition upd_ns (p : Z) (f : nspace -> nspace) : M layer unit :=
  ns ← get_ns p; modify (fun l => set_nspaces (<[p := f ns]> (nspaces l)) l).
Definition get_fs (p : Z) : M layer fsystem := l ← get; opt (fsystems (kern l) !! p).
Definition upd_ns_vnodes (p : Z) (f : vnlist -> vnlist) : M layer unit :=
  upd_ns p (fun ns => ns_set_vnodes (f (ns_vnodes ns)) ns).

(** ** Descriptors *)

(** Runs code on the object at [p] of a store. *)
Definition zoom_at {S V A} (prj : S -> gmap Z V) (upd : gmap Z V -> S -> S) (p : Z) (m : M V A) : M S A :=
  fun s =>
    match prj s !! p with
    | None => Fault
    | Some v =>
        match m v with
        | Done (a, v') => Done (a, upd (<[p := v']> (prj s)) s)
        | Hang => Hang
        | Fault => Fault
        end
    end.

Lemma zoom_at_wp {S V A} (prj : S -> gmap Z V) upd p (m : M V A) v (Q : A -> S -> Prop) s :
  prj s !! p = Some v -> wp m (fun a v' => Q a (upd (<[p := v']> (prj s)) s)) v -> wp (zoom_at prj upd p m) Q s.
Proof. unfold wp, zoom_at. intros ->. by destruct (m v) as [[a v']| |]. Qed.

Definition set_rootvn x (k : statics) := Statics x (nshead k) (nxnsid k) (fstab k) (fsystems k) (fstablock k) (nxfsid k) (global_fds k) (fdarrays k) (ofiles k) (io k).
Definition set_nshead x (k : statics) := Statics (rootvn k) x (nxnsid k) (fstab k) (fsystems k) (fstablock k) (nxfsid k) (global_fds k) (fdarrays k) (ofiles k) (io k).
Definition set_nxnsid x (k : statics) := Statics (rootvn k) (nshead k) x (fstab k) (fsystems k) (fstablock k) (nxfsid k) (global_fds k) (fdarrays k) (ofiles k) (io k).
Definition set_fstab x (k : statics) := Statics (rootvn k) (nshead k) (nxnsid k) x (fsystems k) (fstablock k) (nxfsid k) (global_fds k) (fdarrays k) (ofiles k) (io k).
Definition set_fsystems x (k : statics) := Statics (rootvn k) (nshead k) (nxnsid k) (fstab k) x (fstablock k) (nxfsid k) (global_fds k) (fdarrays k) (ofiles k) (io k).
Definition set_fstablock x (k : statics) := Statics (rootvn k) (nshead k) (nxnsid k) (fstab k) (fsystems k) x (nxfsid k) (global_fds k) (fdarrays k) (ofiles k) (io k).
Definition set_nxfsid x (k : statics) := Statics (rootvn k) (nshead k) (nxnsid k) (fstab k) (fsystems k) (fstablock k) x (global_fds k) (fdarrays k) (ofiles k) (io k).
Definition set_global_fds x (k : statics) := Statics (rootvn k) (nshead k) (nxnsid k) (fstab k) (fsystems k) (fstablock k) (nxfsid k) x (fdarrays k) (ofiles k) (io k).
Definition set_fdarrays x (k : statics) := Statics (rootvn k) (nshead k) (nxnsid k) (fstab k) (fsystems k) (fstablock k) (nxfsid k) (global_fds k) x (ofiles k) (io k).
Definition set_ofiles x (k : statics) := Statics (rootvn k) (nshead k) (nxnsid k) (fstab k) (fsystems k) (fstablock k) (nxfsid k) (global_fds k) (fdarrays k) x (io k).
Definition set_io x (k : statics) := Statics (rootvn k) (nshead k) (nxnsid k) (fstab k) (fsystems k) (fstablock k) (nxfsid k) (global_fds k) (fdarrays k) (ofiles k) x.

Definition upd_kern (f : statics -> statics) : M layer unit := modify (fun l => set_kern (f (kern l)) l).
Definition in_kern {A} (m : M statics A) : M layer A := zoom kern set_kern m.

Definition of_set_rcnt x (f : ofile) := Ofile (of_type f) (of_vn f) (of_cookie f) x (of_ocnt f) (of_pos f) (of_omode f).
Definition of_set_ocnt x (f : ofile) := Ofile (of_type f) (of_vn f) (of_cookie f) (of_rcnt f) x (of_pos f) (of_omode f).
Definition of_set_pos x (f : ofile) := Ofile (of_type f) (of_vn f) (of_cookie f) (of_rcnt f) (of_ocnt f) x (of_omode f).

Definition fd_set_lock x (a : fdarray) := Fdarray (fd_rcnt a) x (fd_num a) (fd_alloc a) (fd_coes a) (fd_fds a).
Definition fd_set_alloc x (a : fdarray) := Fdarray (fd_rcnt a) (fd_lock a) (fd_num a) x (fd_coes a) (fd_fds a).
Definition fd_set_coes x (a : fdarray) := Fdarray (fd_rcnt a) (fd_lock a) (fd_num a) (fd_alloc a) x (fd_fds a).
Definition fd_set_fds x (a : fdarray) := Fdarray (fd_rcnt a) (fd_lock a) (fd_num a) (fd_alloc a) (fd_coes a) x.

Definition in_ofile {A} (p : Z) (m : M ofile A) : M layer A := in_kern (zoom_at ofiles set_ofiles p m).
Definition in_fds {A} (p : Z) (m : M fdarray A) : M layer A := in_kern (zoom_at fdarrays set_fdarrays p m).
Definition in_io {A} (m : M ioctx A) : M layer A := in_kern (zoom io set_io m).
