(* ===== verification/Links.v ===== *)
(** * Links: doubly linked lists threaded through objects (kernel.c)

    The links of one kind of list, apart from the objects that carry them:
    who precedes and who follows.  A vnode is on one of three lists and on the
    list of its name space; each is a list of this file. *)

From S2P Require Import Prelude Bytes Host SkipList Kernel.
From S2P Require CacheList.
Local Open Scope Z_scope.

(** Facts about lists without duplicates that CacheList.v has. *)
Abbreviation NoDup_mid := CacheList.NoDup_mid.
Abbreviation app_split := CacheList.app_split.
Abbreviation head_elem := CacheList.head_elem.
Abbreviation last_elem := CacheList.last_elem.
Abbreviation last_app_cons := CacheList.last_app_cons.

Abbreviation links := (gmap Z vnlink).

(** [l] is linked in both directions; its ends are [head l] and [last l]. *)
Record linked (m : links) (l : list Z) : Prop := {
  ln_nodup : NoDup l;
  ln_at : forall l1 p l2, l = l1 ++ p :: l2 -> m !! p = Some (VnLink (last l1) (head l2));
}.

Lemma linked_frame m m' l : linked m l -> (forall q, q ∈ l -> m' !! q = m !! q) -> linked m' l.
Proof.
  intros [H1 H2] Hm. split; [done|]. intros l1 p l2 ->. rewrite Hm; [by apply H2|]. apply elem_of_app. right. by left.
Qed.

Lemma linked_nil m : linked m [].
Proof. split; [constructor|]. intros l1 p l2 E. by destruct l1. Qed.

(** ** Assignments to the neighbours *)

Definition at_prev (f : vnlink -> vnlink) (q : option Z) (m : links) : links :=
  match q with Some q => alter f q m | None => m end.

Lemma at_prev_ne f q m p : q <> Some p -> at_prev f q m !! p = m !! p.
Proof. destruct q as [q|]; [|done]. intros Hne. apply lookup_alter_ne. congruence. Qed.
Lemma at_prev_eq f p m : at_prev f (Some p) m !! p = f <$> m !! p.
Proof. apply lookup_alter_eq. Qed.

(** [p] is skipped. *)
Definition joined (m : links) (prv nxt : option Z) : links :=
  at_prev (set_prev prv) nxt (at_prev (set_next nxt) prv m).

Lemma joined_frame m l1 p l2 q : (q ∉ l1 ++ p :: l2) -> joined m (last l1) (head l2) !! q = m !! q.
Proof.
  intros Hq. unfold joined. rewrite !at_prev_ne; [done| |].
  - intros (l & ->)%last_elem. apply Hq. rewrite !elem_of_app, elem_of_cons. auto.
  - intros (l & ->)%head_elem. apply Hq. rewrite !elem_of_app, !elem_of_cons. auto.
Qed.
Lemma joined_self m l1 p l2 : NoDup (l1 ++ p :: l2) -> joined m (last l1) (head l2) !! p = m !! p.
Proof.
  intros Hnd. destruct (NoDup_mid l1 l2 p Hnd) as (H1 & H2 & _). unfold joined. rewrite !at_prev_ne; [done| |].
  - intros (l & ->)%last_elem. apply H1. rewrite elem_of_app, elem_of_cons. auto.
  - intros (l & ->)%head_elem. apply H2. by left.
Qed.

Lemma unlink m l1 p l2 : linked m (l1 ++ p :: l2) -> linked (joined m (last l1) (head l2)) (l1 ++ l2).
Proof.
  intros [Hnd Hl]. destruct (NoDup_mid l1 l2 p Hnd) as (Hp1 & Hp2 & Hnd'). split; [done|].
  intros a q b E. apply app_split in E as [(b' & -> & ->)|(a' & -> & ->)].
  - pose proof (Hl a q (b' ++ p :: l2) ltac:(by rewrite <- app_assoc)) as Hq.
    assert (head l2 <> Some q) as Hne.
    { intros (l & ->)%head_elem. rewrite <- app_assoc in Hnd'. apply NoDup_app in Hnd' as (_ & _ & Hnd').
      cbn in Hnd'. apply NoDup_cons in Hnd' as [Hn _]. apply Hn. apply elem_of_app. right. by left. }
    unfold joined. rewrite at_prev_ne by done. destruct b' as [|y b'].
    + rewrite last_app_cons. cbn [last]. rewrite at_prev_eq, Hq. done.
    + rewrite last_app_cons, at_prev_ne; [done|]. intros (l & E)%last_elem.
      destruct l as [|z l]; [done|]. injection E as -> E.
      rewrite E in Hnd'. rewrite <- !app_assoc in Hnd'. apply NoDup_app in Hnd' as (_ & _ & Hnd').
      cbn in Hnd'. apply NoDup_cons in Hnd' as [Hn _]. apply Hn. rewrite !elem_of_app, !elem_of_cons. auto.
  - pose proof (Hl (l1 ++ p :: a') q b ltac:(by rewrite <- app_assoc)) as Hq.
    assert (last l1 <> Some q) as Hne.
    { intros (l & ->)%last_elem. apply NoDup_app in Hnd' as (_ & Hd & _).
      apply (Hd q); rewrite !elem_of_app, !elem_of_cons; auto. }
    unfold joined. destruct a' as [|y a'].
    + cbn [app head]. rewrite at_prev_eq, at_prev_ne, Hq by done. rewrite app_nil_r, last_snoc. done.
    + rewrite last_app_cons in Hq. rewrite at_prev_ne, at_prev_ne, Hq; [|done|].
      * rewrite last_cons_cons, last_app_cons. done.
      * cbn. intros [= ->]. apply NoDup_app in Hnd' as (_ & _ & Hnd').
        apply NoDup_cons in Hnd' as [Hn _]. apply Hn. rewrite elem_of_app, elem_of_cons. auto.
Qed.

(** [p] is added at the tail. *)
Lemma link_tail m l p :
  linked m l -> p ∉ l ->
  linked (<[p := VnLink (last l) None]> (at_prev (set_next (Some p)) (last l) m)) (l ++ [p]).
Proof.
  intros [Hnd Hl] Hp. assert (NoDup (l ++ [p])) as Hnd'.
  { apply NoDup_app. split; [done|]. split; [|apply NoDup_singleton]. intros x Hx ->%list_elem_of_singleton. done. }
  split; [done|]. intros l1 q l2 E.
  destruct (decide (q = p)) as [->|Hne].
  - rewrite lookup_insert_eq. destruct l2 as [|y l2 _] using rev_ind.
    + apply app_inj_tail in E as [<- _]. done.
    + exfalso. replace (l1 ++ p :: l2 ++ [y]) with ((l1 ++ p :: l2) ++ [y]) in E by (by rewrite <- app_assoc).
      apply app_inj_tail in E as [-> ->]. apply Hp. rewrite elem_of_app, elem_of_cons. auto.
  - rewrite lookup_insert_ne by done. destruct l2 as [|y l2 _] using rev_ind.
    + apply app_inj_tail in E as [_ E]. by destruct Hne.
    + replace (l1 ++ q :: l2 ++ [y]) with ((l1 ++ q :: l2) ++ [y]) in E by (by rewrite <- app_assoc).
      apply app_inj_tail in E as [-> <-]. pose proof (Hl l1 q l2 eq_refl) as Hq. destruct l2 as [|z l2].
      * rewrite last_app_cons. cbn [last app head]. by rewrite at_prev_eq, Hq.
      * rewrite at_prev_ne; [done|]. rewrite last_app_cons. intros (k & Ek)%last_elem.
        destruct k as [|z' k]; [done|]. injection Ek as -> Ek. rewrite Ek in Hnd.
        apply NoDup_app in Hnd as (_ & _ & Hnd). apply NoDup_cons in Hnd as [Hn _]. apply Hn.
        rewrite elem_of_app, list_elem_of_singleton. auto.
Qed.

(** [p] is added at the head. *)
Lemma link_head m l p :
  linked m l -> p ∉ l ->
  linked (at_prev (set_prev (Some p)) (head l) (<[p := VnLink None (head l)]> m)) (p :: l).
Proof.
  intros [Hnd Hl] Hp. split; [by apply NoDup_cons|]. intros l1 q l2 E. destruct l1 as [|x l1]; cbn in E; injection E as <- E.
  - subst l2. rewrite at_prev_ne; [by rewrite lookup_insert_eq|]. intros (k & ->)%head_elem. apply Hp. by left.
  - pose proof (Hl l1 q l2 E) as Hq. assert (q <> p) as Hqp.
    { intros ->. apply Hp. rewrite E, elem_of_app, elem_of_cons. auto. }
    destruct l1 as [|y l1].
    + cbn in E. subst l. cbn [head last]. by rewrite at_prev_eq, lookup_insert_ne, Hq.
    + cbn in E. subst l. rewrite at_prev_ne; [by rewrite lookup_insert_ne|]. cbn. intros [= ->].
      apply NoDup_cons in Hnd as [Hn _]. apply Hn. rewrite elem_of_app, elem_of_cons. auto.
Qed.

(** [p] is added between two parts. *)
Lemma link_middle m l1 l2 p :
  linked m (l1 ++ l2) -> (p ∉ l1 ++ l2) ->
  linked (<[p := VnLink (last l1) (head l2)]> (at_prev (set_prev (Some p)) (head l2) (at_prev (set_next (Some p)) (last l1) m)))
    (l1 ++ p :: l2).
Proof.
  intros [Hnd Hl] Hp. pose proof Hnd as (Hnd1 & Hd & Hnd2)%NoDup_app. rewrite elem_of_app in Hp.
  split; [apply NoDup_app; split_and!; [done| |apply NoDup_cons; naive_solver]; intros x Hx [->|Hx2]%elem_of_cons; [naive_solver|by apply (Hd x)]|].
  intros a q b E. apply app_split in E as [(b' & -> & ->)|(a' & E & ->)].
  - pose proof (Hl a q (b' ++ l2) ltac:(by rewrite <- app_assoc)) as Hq.
    assert (q ∈ a ++ q :: b') as Hin by (rewrite elem_of_app, elem_of_cons; auto).
    rewrite lookup_insert_ne by (intros ->; naive_solver).
    rewrite at_prev_ne by (intros (l & ->)%head_elem; apply (Hd q Hin); by left).
    destruct b' as [|y b'].
    + rewrite last_app_cons. cbn [last app head]. by rewrite at_prev_eq, Hq.
    + rewrite last_app_cons, at_prev_ne; [done|]. intros (l & E)%last_elem. destruct l as [|z l]; [done|]. injection E as -> E.
      rewrite E in Hnd1. apply NoDup_app in Hnd1 as (_ & _ & [Hn _]%NoDup_cons). apply Hn.
      rewrite elem_of_app, elem_of_cons. auto.
  - destruct a' as [|z a']; injection E as <- ->; [by rewrite app_nil_r, lookup_insert_eq|].
    pose proof (Hl (l1 ++ a') q b ltac:(by rewrite <- app_assoc)) as Hq.
    assert (q ∈ a' ++ q :: b) as Hin by (rewrite elem_of_app, elem_of_cons; auto).
    rewrite lookup_insert_ne by (intros ->; naive_solver). rewrite last_app_cons.
    destruct a' as [|y a'].
    + cbn [app head last]. rewrite app_nil_r in Hq. rewrite at_prev_eq, at_prev_ne, Hq; [done|].
      intros (l & ->)%last_elem. apply (Hd q); [rewrite elem_of_app, elem_of_cons; auto|by left].
    + rewrite last_cons_cons. rewrite last_app_cons in Hq. rewrite at_prev_ne, at_prev_ne, Hq; [done| |].
      * intros (l & ->)%last_elem. apply (Hd q); [rewrite elem_of_app, elem_of_cons; auto|done].
      * cbn. intros [= ->]. apply NoDup_cons in Hnd2 as [Hn _]. apply Hn. rewrite elem_of_app, elem_of_cons. auto.
Qed.
