(* ===== verification/Vnode.v ===== *)
(** * Vnode: the vnode layer (kernel.c)

    In-memory nodes of all mounted name spaces: an array of vnodes, three
    LRU lists (free, used, locked) and a list per name space threaded through
    them, and a skip list that finds a vnode by number and name space.
    A file system's [read_vnode], [release_vnode] and [remove_vnode] are
    parameters. *)

From S2P Require Import Prelude Bytes Host SkipList Kernel.
Local Open Scope Z_scope.

(** ** Lists *)

Definition move_vnode (vn lst : Z) : M layer unit :=
  v ← get_vn vn;
  _ ← (match lk_prev (vn_list v) with
       | Some p => upd_vn_list p (set_next (lk_next (vn_list v)))
       | None => upd_list (inlist v) (set_head (lk_next (vn_list v)))
       end);
  v ← get_vn vn;
  _ ← (match lk_next (vn_list v) with
       | Some n => upd_vn_list n (set_prev (lk_prev (vn_list v)))
       | None => upd_list (inlist v) (set_tail (lk_prev (vn_list v)))
       end);
  _ ← upd_list (inlist v) (fun l => set_num (l_num l - 1) l);
  _ ← upd_vn vn (v_set_inlist lst);
  _ ← upd_vn_list vn (set_next None);
  l ← get_list lst;
  _ ← upd_vn_list vn (set_prev (l_tail l));
  _ ← (match l_tail l with
       | Some p => upd_vn_list p (set_next (Some vn))
       | None => upd_list lst (set_head (Some vn))
       end);
  _ ← upd_list lst (set_tail (Some vn));
  upd_list lst (fun l => set_num (l_num l + 1) l).

Definition steal_vnode (lst : Z) : M layer (option Z) :=
  l ← get_list lst;
  match l_head l with
  | None => mret None
  | Some vn => _ ← move_vnode vn LOCKED_LIST; mret (Some vn)
  end.

Definition vkey_of (vn : Z) : M layer vkey :=
  v ← get_vn vn;
  nsp ← opt (vn_ns v);
  ns ← get_ns nsp;
  mret (VKey (vnid v) (nsid ns) vn).

Definition in_skiplist {A} (m : M (SkipList vkey) A) : M layer A := zoom skiplist set_skiplist m.

(** [lookup_vnode] searches with a vnode of its own made of the two numbers. *)
Definition lookup_vnode (nsid vnid : Z) : M layer (option Z) :=
  r ← in_skiplist (SearchSL compare_vnode (VKey vnid nsid 0));
  mret (k_vn <$> r).

Definition clear_vnode (vn : Z) : M layer unit :=
  k ← vkey_of vn;
  _ ← in_skiplist (DeleteSL compare_vnode k);
  v ← get_vn vn;
  nsp ← opt (vn_ns v);
  _ ← (match lk_prev (vn_nspace v) with
       | Some p => upd_vn_nspace p (set_next (lk_next (vn_nspace v)))
       | None => upd_ns_vnodes nsp (set_head (lk_next (vn_nspace v)))
       end);
  v ← get_vn vn;
  _ ← (match lk_next (vn_nspace v) with
       | Some n => upd_vn_nspace n (set_prev (lk_prev (vn_nspace v)))
       | None => upd_ns_vnodes nsp (set_tail (lk_prev (vn_nspace v)))
       end);
  upd_vn vn (fun v => Vnode invalid_vnid None None false false (inlist v) (VnLink None None)
                        (vn_list v) 0 None).

(** The name space of a number, unless it is being unmounted. *)
Definition nsidtons (nsid : Z) : M layer (option Z) :=
  l ← get;
  slot ← opt (nstab l !! Z.to_nat (nsid mod len (nstab l)));
  match slot with
  | None => mret None
  | Some p =>
      ns ← get_ns p;
      if negb (Kernel.nsid ns =? nsid) || ns_shutdown ns then mret None else mret (Some p)
  end.

(** ** The layer over a file system with state [X] *)

(** The last argument says whether the call comes from a file system, which
    may hold its own locks. *)
Record fs_ops (X : Type) := FsOps {
  op_read_vnode : Z -> Z -> bool -> M X (Z * option Z);
  op_release_vnode : Z -> option Z -> bool -> M X Z;
  op_remove_vnode : Z -> option Z -> bool -> M X Z;
}.
Arguments op_read_vnode {X}.
Arguments op_release_vnode {X}.
Arguments op_remove_vnode {X}.

Section layer.
Context {X : Type} (x_host : X -> host) (x_set_host : host -> X -> X).
(** The operations at each address of a table of operations. *)
Context (fs_table : Z -> fs_ops X).

Record kstate := KS { k_layer : layer; k_ext : X }.
Definition in_layer {A} (m : M layer A) : M kstate A := zoom k_layer (fun l s => KS l (k_ext s)) m.
Definition in_ext {A} (m : M X A) : M kstate A := zoom k_ext (fun x s => KS (k_layer s) x) m.

Definition LOCK_vn : M kstate unit := in_layer (zoom vnlock set_vnlock LOCK).
Definition UNLOCK_vn : M kstate unit := in_layer (zoom vnlock set_vnlock UNLOCK).

(** The operations and data of the name space of a vnode. *)
Definition vn_fs (vn : Z) : M layer (fs_ops X * Z) :=
  v ← get_vn vn;
  nsp ← opt (vn_ns v);
  ns ← get_ns nsp;
  fs ← get_fs (ns_fs ns);
  mret (fs_table (fs_vops fs), ns_data ns).

(** [DUPLICATE_ITEM] is not zero, so only a failed allocation is an error. *)
Definition sort_vnode (vn : Z) : M kstate Z :=
  k ← in_layer (vkey_of vn);
  r ← zoom (fun s => (skiplist (k_layer s), x_host (k_ext s)))
           (fun p s => KS (set_skiplist p.1 (k_layer s)) (x_set_host p.2 (k_ext s)))
           (InsertSL compare_vnode k);
  if r =? 0 then mret ENOMEM else
  in_layer (
    v ← get_vn vn;
    nsp ← opt (vn_ns v);
    ns ← get_ns nsp;
    _ ← upd_vn_nspace vn (fun _ => VnLink None (l_head (ns_vnodes ns)));
    _ ← (match l_head (ns_vnodes ns) with
         | Some h => upd_vn_nspace h (set_prev (Some vn))
         | None => upd_ns_vnodes nsp (set_tail (Some vn))
         end);
    _ ← upd_ns_vnodes nsp (set_head (Some vn));
    mret 0).

(** [PANIC] of kernel.c only prints. *)
Definition flush_vnode (vn : Z) (r : bool) : M kstate unit :=
  _ ← in_layer (upd_vn vn (v_set_busy true));
  _ ← UNLOCK_vn;
  '(ops, data) ← in_layer (vn_fs vn);
  v ← in_layer (get_vn vn);
  _ ← in_ext (op_release_vnode ops data (vdata v) r);
  _ ← LOCK_vn;
  _ ← in_layer (upd_vn vn (v_set_busy false));
  in_layer (clear_vnode vn).

Definition inc_vnode (vn : Z) : M kstate unit :=
  _ ← LOCK_vn;
  _ ← in_layer (upd_vn vn (fun v => v_set_rcnt (rcnt v + 1) v));
  UNLOCK_vn.

Definition dec_vnode (vn : Z) (r : bool) : M kstate unit :=
  _ ← LOCK_vn;
  _ ← in_layer (upd_vn vn (fun v => v_set_rcnt (rcnt v - 1) v));
  v ← in_layer (get_vn vn);
  _ ← (if rcnt v =? 0 then
         if vn_remove v then
           _ ← in_layer (upd_vn vn (v_set_busy true));
           _ ← in_layer (move_vnode vn LOCKED_LIST);
           _ ← UNLOCK_vn;
           '(ops, data) ← in_layer (vn_fs vn);
           v ← in_layer (get_vn vn);
           _ ← in_ext (op_remove_vnode ops data (vdata v) r);
           _ ← LOCK_vn;
           _ ← in_layer (clear_vnode vn);
           in_layer (move_vnode vn FREE_LIST)
         else
           _ ← in_layer (move_vnode vn USED_LIST);
           used ← in_layer (get_list USED_LIST);
           l ← in_layer get;
           if l_num used >? usdvnnum l then
             ovn ← in_layer (steal_vnode USED_LIST);
             ovn ← opt ovn;
             _ ← flush_vnode ovn r;
             in_layer (move_vnode ovn FREE_LIST)
           else mret tt
       else mret tt);
  UNLOCK_vn.

(** The loop of [load_vnode]: a vnode that is the one looked for or a free
    one.  A busy vnode is waited for, for ever in a single thread.  The second
    round finds the vnode freed by the first. *)
Fixpoint find_or_steal (fuel : nat) (nsid vnid : Z) (r : bool) : M kstate Z :=
  match fuel with
  | O => hang
  | Datatypes.S fuel =>
      vn ← in_layer (lookup_vnode nsid vnid);
      match vn with
      | Some vn =>
          v ← in_layer (get_vn vn);
          if vn_busy v then hang else mret vn
      | None =>
          vn ← in_layer (steal_vnode FREE_LIST);
          match vn with
          | Some vn => mret vn
          | None =>
              vn ← in_layer (steal_vnode USED_LIST);
              vn ← opt vn;
              _ ← flush_vnode vn r;
              _ ← in_layer (move_vnode vn FREE_LIST);
              find_or_steal fuel nsid vnid r
          end
      end
  end.

(** The result and [*vnp]. *)
Definition load_vnode (nsid vnid : Z) (r : bool) : M kstate (Z * option Z) :=
  _ ← LOCK_vn;
  vn ← find_or_steal 3 nsid vnid r;
  let error1 err :=
    _ ← in_layer (move_vnode vn FREE_LIST);
    _ ← UNLOCK_vn;
    mret (err, None) in
  let error2 err := _ ← in_layer (clear_vnode vn); error1 err in
  let ok := _ ← UNLOCK_vn; mret (0, Some vn) in
  v ← in_layer (get_vn vn);
  match vn_ns v with
  | None =>
      ns ← in_layer (nsidtons nsid);
      match ns with
      | None => error1 ENOENT
      | Some ns =>
          _ ← in_layer (upd_vn vn (v_set_ns (Some ns)));
          _ ← in_layer (upd_vn vn (v_set_vnid vnid));
          _ ← in_layer (upd_vn vn (v_set_busy true));
          err ← sort_vnode vn;
          if negb (err =? 0) then error2 err else
          _ ← in_layer (move_vnode vn LOCKED_LIST);
          _ ← UNLOCK_vn;
          '(ops, data) ← in_layer (vn_fs vn);
          '(err, d) ← in_ext (op_read_vnode ops data vnid r);
          _ ← in_layer (upd_vn vn (fun v => if err =? 0 then v_set_data d v else v));
          _ ← LOCK_vn;
          _ ← in_layer (upd_vn vn (v_set_busy false));
          if negb (err =? 0) then error2 err else
          _ ← in_layer (upd_vn vn (v_set_rcnt 1));
          ok
      end
  | Some _ =>
      _ ← in_layer (upd_vn vn (fun v => v_set_rcnt (rcnt v + 1) v));
      _ ← (if rcnt v + 1 =? 1 then in_layer (move_vnode vn LOCKED_LIST) else mret tt);
      ok
  end.

(** The result and [*data]. *)
Definition get_vnode (nsid vnid : Z) : M kstate (Z * option Z) :=
  '(err, vn) ← load_vnode nsid vnid true;
  if negb (err =? 0) then mret (err, None) else
  vn ← opt vn;
  v ← in_layer (get_vn vn);
  mret (0, vdata v).

Definition put_vnode (nsid vnid : Z) : M kstate Z :=
  _ ← LOCK_vn;
  vn ← in_layer (lookup_vnode nsid vnid);
  match vn with
  | None => _ ← UNLOCK_vn; mret ENOENT
  | Some vn => _ ← UNLOCK_vn; _ ← dec_vnode vn true; mret 0
  end.

(** When no vnode can be had the message is followed by [ENOMEM]. *)
Definition new_vnode (nsid vnid : Z) (data : option Z) : M kstate Z :=
  _ ← LOCK_vn;
  vn ← in_layer (steal_vnode FREE_LIST);
  vn ← (match vn with
        | Some vn => mret (Some vn)
        | None =>
            vn ← in_layer (steal_vnode USED_LIST);
            match vn with
            | Some vn => _ ← flush_vnode vn true; mret (Some vn)
            | None => mret None
            end
        end);
  match vn with
  | None => _ ← UNLOCK_vn; mret ENOMEM
  | Some vn =>
      ns ← in_layer (nsidtons nsid);
      _ ← in_layer (upd_vn vn (v_set_ns ns));
      match ns with
      | None => _ ← UNLOCK_vn; mret ENOENT
      | Some _ =>
          _ ← in_layer (upd_vn vn (v_set_vnid vnid));
          _ ← in_layer (upd_vn vn (v_set_data data));
          _ ← in_layer (upd_vn vn (v_set_rcnt 1));
          err ← sort_vnode vn;
          _ ← UNLOCK_vn;
          mret err
      end
  end.

Definition set_removed (b : bool) (nsid vnid : Z) : M kstate Z :=
  _ ← LOCK_vn;
  vn ← in_layer (lookup_vnode nsid vnid);
  match vn with
  | None => _ ← UNLOCK_vn; mret ENOENT
  | Some vn =>
      v ← in_layer (get_vn vn);
      if rcnt v =? 0 then _ ← UNLOCK_vn; mret ENOENT else
      _ ← in_layer (upd_vn vn (v_set_remove b));
      _ ← UNLOCK_vn;
      mret 0
  end.

Definition remove_vnode (nsid vnid : Z) : M kstate Z := set_removed true nsid vnid.
Definition unremove_vnode (nsid vnid : Z) : M kstate Z := set_removed false nsid vnid.

Definition is_vnode_removed (nsid vnid : Z) : M kstate Z :=
  _ ← LOCK_vn;
  vn ← in_layer (lookup_vnode nsid vnid);
  match vn with
  | None => _ ← UNLOCK_vn; mret ENOENT
  | Some vn =>
      v ← in_layer (get_vn vn);
      _ ← UNLOCK_vn;
      mret (if vn_remove v then 1 else 0)
  end.

(** ** Mount points *)

(** Whether something is mounted on the vnode, and the root of it. *)
Definition is_mount_vnode (mount : Z) : M kstate (bool * option Z) :=
  _ ← LOCK_vn;
  v ← in_layer (get_vn mount);
  match mounted v with
  | None => _ ← UNLOCK_vn; mret (false, None)
  | Some ns =>
      ns ← in_layer (get_ns ns);
      root ← opt (ns_root ns);
      _ ← in_layer (upd_vn root (fun v => v_set_rcnt (rcnt v + 1) v));
      _ ← UNLOCK_vn;
      mret (true, Some root)
  end.

(** Whether the vnode is the root of a mounted name space, and the vnode
    covered by it. *)
Definition is_root (root : Z) : M kstate (bool * option Z) :=
  v ← in_layer (get_vn root);
  nsp ← opt (vn_ns v);
  ns ← in_layer (get_ns nsp);
  match ns_mount ns with
  | Some mount =>
      if bool_decide (ns_root ns = Some root) then
        _ ← inc_vnode mount; mret (true, Some mount)
      else mret (false, None)
  | None => mret (false, None)
  end.
End layer.

(** The vnodes and lists [init_vnode_layer] sets up: all vnodes, at addresses
    [1 .. n], are on the free list in order. *)
Fixpoint init_vns (n : nat) (i vnnum : Z) : gmap Z vnode :=
  match n with
  | O => ∅
  | Datatypes.S n =>
      <[i + 1 := Vnode invalid_vnid None None false false FREE_LIST (VnLink None None)
                  (VnLink (if i =? 0 then None else Some i)
                          (if i =? vnnum - 1 then None else Some (i + 2))) 0 None]>
        (init_vns n (i + 1) vnnum)
  end.

Definition init_lists (vnnum : Z) : list vnlist :=
  [VnList (Some 1) (Some vnnum) vnnum; VnList None None 0; VnList None None 0].
