(* ===== verification/VnodeLists.v ===== *)
(** * VnodeLists: the lists of vnodes (kernel.c)

    [move_vnode] takes a vnode from its list to the tail of another;
    [clear_vnode] and [sort_vnode] take it out of and put it into the list of
    its name space. *)

From S2P Require Import Prelude Bytes Host SkipList Kernel Links Vnode.
Local Open Scope Z_scope.

(** The layer with other vnodes, lists and name spaces. *)
Definition st (V : gmap Z vnode) (L : list vnlist) (N : gmap Z nspace) (l : layer) : layer :=
  Layer V L (skiplist l) N (nstab l) (vnlock l) (usdvnnum l) (kern l).

Lemma st_id l : st (vns l) (lists l) (nspaces l) l = l.
Proof. by destruct l. Qed.

(** ** Assignments *)

Definition on_list (f : vnlink -> vnlink) (v : vnode) : vnode := v_set_list (f (vn_list v)) v.
Definition on_nspace (f : vnlink -> vnlink) (v : vnode) : vnode := v_set_nspace (f (vn_nspace v)) v.

Lemma get_vn_wp p v (Q : vnode -> layer -> Prop) l : vns l !! p = Some v -> Q v l -> wp (get_vn p) Q l.
Proof. intros Hv HQ. unfold get_vn. wp_step. wp_step. rewrite Hv. by wp_step. Qed.
Lemma upd_vn_wp p f (Q : unit -> layer -> Prop) V L N l :
  is_Some (V !! p) -> Q tt (st (alter f p V) L N l) -> wp (upd_vn p f) Q (st V L N l).
Proof.
  intros [v Hv] HQ. unfold upd_vn. wp_step. eapply get_vn_wp; [exact Hv|]. wp_step.
  assert (alter f p V = <[p := f v]> V) as E; [|by rewrite E in HQ].
  apply map_eq. intros i. destruct (decide (i = p)) as [->|Hne]; [by rewrite lookup_alter_eq, lookup_insert_eq, Hv|].
  by rewrite lookup_alter_ne, lookup_insert_ne.
Qed.
Lemma upd_vn_list_wp p f (Q : unit -> layer -> Prop) V L N l :
  is_Some (V !! p) -> Q tt (st (alter (on_list f) p V) L N l) -> wp (upd_vn_list p f) Q (st V L N l).
Proof. apply upd_vn_wp. Qed.
Lemma upd_vn_nspace_wp p f (Q : unit -> layer -> Prop) V L N l :
  is_Some (V !! p) -> Q tt (st (alter (on_nspace f) p V) L N l) -> wp (upd_vn_nspace p f) Q (st V L N l).
Proof. apply upd_vn_wp. Qed.
Lemma get_list_wp k x (Q : vnlist -> layer -> Prop) V L N l :
  L !! Z.to_nat k = Some x -> Q x (st V L N l) -> wp (get_list k) Q (st V L N l).
Proof. intros Hx HQ. unfold get_list. wp_step. wp_step. cbn [lists st]. rewrite Hx. by wp_step. Qed.
Lemma upd_list_wp k f x (Q : unit -> layer -> Prop) V L N l :
  L !! Z.to_nat k = Some x -> Q tt (st V (<[Z.to_nat k := f x]> L) N l) -> wp (upd_list k f) Q (st V L N l).
Proof. intros Hx HQ. unfold upd_list. wp_step. eapply get_list_wp; [exact Hx|]. by wp_step. Qed.
Lemma get_ns_wp p ns (Q : nspace -> layer -> Prop) l : nspaces l !! p = Some ns -> Q ns l -> wp (get_ns p) Q l.
Proof. intros Hv HQ. unfold get_ns. wp_step. wp_step. rewrite Hv. by wp_step. Qed.
Lemma upd_ns_wp p f ns (Q : unit -> layer -> Prop) V L N l :
  N !! p = Some ns -> Q tt (st V L (<[p := f ns]> N) l) -> wp (upd_ns p f) Q (st V L N l).
Proof. intros Hn HQ. unfold upd_ns. wp_step. eapply get_ns_wp; [exact Hn|]. by wp_step. Qed.

(** ** What a vnode is, apart from its links *)

Definition no_link : vnlink := VnLink None None.
Definition body (v : vnode) : vnode := v_set_list no_link (v_set_nspace no_link v).

Lemma fmap_alter_to {A B} (h : A -> B) f g p (m : gmap Z A) :
  (forall x, h (f x) = g (h x)) -> h <$> alter f p m = alter g p (h <$> m).
Proof.
  intros H. apply map_eq. intros i. rewrite lookup_fmap. destruct (decide (i = p)) as [->|Hne].
  - rewrite !lookup_alter_eq, lookup_fmap. by destruct (m !! p); cbn; [rewrite H|].
  - by rewrite !lookup_alter_ne, lookup_fmap.
Qed.
Lemma fmap_alter_same {A B} (h : A -> B) f p (m : gmap Z A) : (forall x, h (f x) = h x) -> h <$> alter f p m = h <$> m.
Proof.
  intros H. apply map_eq. intros i. rewrite !lookup_fmap. destruct (decide (i = p)) as [->|Hne].
  - rewrite lookup_alter_eq. by destruct (m !! p); cbn; [rewrite H|].
  - by rewrite lookup_alter_ne.
Qed.

(** The optional neighbour of a list. *)
Definition alter_opt (f : vnode -> vnode) (q : option Z) (V : gmap Z vnode) : gmap Z vnode :=
  match q with Some q => alter f q V | None => V end.

Lemma alter_opt_list f q V : vn_list <$> alter_opt (on_list f) q V = at_prev f q (vn_list <$> V).
Proof. destruct q; [|done]. by apply fmap_alter_to. Qed.
Lemma alter_opt_nspace f q V : vn_nspace <$> alter_opt (on_nspace f) q V = at_prev f q (vn_nspace <$> V).
Proof. destruct q; [|done]. by apply fmap_alter_to. Qed.
Lemma alter_opt_same {B} (h : vnode -> B) f q V : (forall v, h (f v) = h v) -> h <$> alter_opt f q V = h <$> V.
Proof. destruct q; [|done]. by apply fmap_alter_same. Qed.
Lemma alter_opt_some f q V p : is_Some (alter_opt f q V !! p) <-> is_Some (V !! p).
Proof. destruct q as [q|]; [|done]. apply lookup_alter_is_Some. Qed.

(** ** The three lists *)

Definition vlist (l : list Z) : vnlist := VnList (head l) (last l) (len l).

(** [ls k] are the vnodes on list [k]. *)
Record lists_ok (V : gmap Z vnode) (L : list vnlist) (ls : Z -> list Z) : Prop := {
  lo_len : length L = 3%nat;
  lo_ends : forall k, 0 <= k < 3 -> L !! Z.to_nat k = Some (vlist (ls k));
  lo_links : forall k, 0 <= k < 3 -> linked (vn_list <$> V) (ls k);
  lo_in : forall k p, 0 <= k < 3 -> (p ∈ ls k <-> (inlist <$> V) !! p = Some k);
  lo_range : forall p k, (inlist <$> V) !! p = Some k -> 0 <= k < 3;
}.

(** The lists after [vn] moved to the tail of list [k]. *)
Definition move_to (vn k : Z) (ls : Z -> list Z) : Z -> list Z := fun j =>
  if decide (j = k) then filter (fun q => q <> vn) (ls j) ++ [vn] else filter (fun q => q <> vn) (ls j).

Lemma filter_out (l1 l2 : list Z) p : NoDup (l1 ++ p :: l2) -> filter (fun q => q <> p) (l1 ++ p :: l2) = l1 ++ l2.
Proof.
  intros Hnd. destruct (NoDup_mid l1 l2 p Hnd) as (H1 & H2 & _). rewrite filter_app, filter_cons_False by tauto.
  assert (forall l : list Z, p ∉ l -> filter (fun q => q <> p) l = l) as Hf; [|by rewrite !Hf].
  intros l Hl. induction l as [|x l IH]; [done|]. rewrite elem_of_cons in Hl. rewrite filter_cons_True by naive_solver. f_equal. apply IH. tauto.
Qed.
Lemma filter_absent (l : list Z) p : p ∉ l -> filter (fun q => q <> p) l = l.
Proof.
  intros Hl. induction l as [|x l IH]; [done|]. rewrite elem_of_cons in Hl. rewrite filter_cons_True by naive_solver. f_equal. apply IH. tauto.
Qed.

Lemma lookup_links (V : gmap Z vnode) p v : V !! p = Some v -> (vn_list <$> V) !! p = Some (vn_list v).
Proof. intros H. by rewrite lookup_fmap, H. Qed.
Lemma lookup_inlist (V : gmap Z vnode) p v : V !! p = Some v -> (inlist <$> V) !! p = Some (inlist v).
Proof. intros H. by rewrite lookup_fmap, H. Qed.
Lemma lists_some V L ls p k : lists_ok V L ls -> 0 <= k < 3 -> p ∈ ls k -> is_Some (V !! p).
Proof. intros [_ _ _ Hin _] Hk Hp. apply Hin in Hp; [|done]. rewrite lookup_fmap in Hp. destruct (V !! p); [by eexists|done]. Qed.
Lemma lists_disjoint V L ls p j k : lists_ok V L ls -> 0 <= j < 3 -> 0 <= k < 3 -> p ∈ ls j -> p ∈ ls k -> j = k.
Proof. intros [_ _ _ Hin _] Hj Hk H1 H2. apply Hin in H1, H2; [|done..]. congruence. Qed.
Lemma lists_member V L ls vn v : lists_ok V L ls -> V !! vn = Some v -> 0 <= inlist v < 3 /\ vn ∈ ls (inlist v).
Proof. intros [_ _ _ Hin Hr] Hv%lookup_inlist. pose proof (Hr _ _ Hv). split; [done|]. by apply Hin. Qed.

Lemma lists_split V L ls vn v :
  lists_ok V L ls -> V !! vn = Some v ->
  exists l1 l2, ls (inlist v) = l1 ++ vn :: l2 /\ vn_list v = VnLink (last l1) (head l2).
Proof.
  intros Hok Hv. destruct (lists_member V L ls vn v Hok Hv) as [Hr Hp]. destruct Hok as [_ _ Hl _ _].
  apply list_elem_of_split in Hp as (l1 & l2 & E). exists l1, l2. split; [done|].
  pose proof (ln_at _ _ (Hl _ Hr) l1 vn l2 E) as Hvn. rewrite (lookup_links V vn v Hv) in Hvn. congruence.
Qed.

(** The neighbour, or an end of the list, is set. *)
Lemma neighbour_wp q f k g x (Q : unit -> layer -> Prop) V L N l :
  (forall p, q = Some p -> is_Some (V !! p)) -> L !! Z.to_nat k = Some x ->
  Q tt (st (alter_opt (on_list f) q V) (match q with Some _ => L | None => <[Z.to_nat k := g x]> L end) N l) ->
  wp (match q with Some p => upd_vn_list p f | None => upd_list k g end) Q (st V L N l).
Proof.
  intros Hq Hx HQ. destruct q as [p|]; [apply upd_vn_list_wp; auto|by eapply upd_list_wp].
Qed.

(** The store and the lists with [vn], between [l1] and [l2], taken out. *)
Definition detach (a b : option Z) (V : gmap Z vnode) : gmap Z vnode :=
  alter_opt (on_list (set_prev a)) b (alter_opt (on_list (set_next b)) a V).

Lemma detach_links a b V : vn_list <$> detach a b V = joined (vn_list <$> V) a b.
Proof. unfold detach, joined. by rewrite !alter_opt_list. Qed.

Lemma detached_linked V L ls vn v l1 l2 k :
  lists_ok V L ls -> V !! vn = Some v -> ls (inlist v) = l1 ++ vn :: l2 -> 0 <= k < 3 ->
  linked (joined (vn_list <$> V) (last l1) (head l2)) (filter (fun q => q <> vn) (ls k)).
Proof.
  intros Hok Hv E Hk. destruct (lists_member V L ls vn v Hok Hv) as [Hr Hp]. pose proof (lo_links _ _ _ Hok _ Hk) as Hl.
  destruct (decide (k = inlist v)) as [->|Hne].
  - rewrite E in *. rewrite filter_out by apply (ln_nodup _ _ Hl). by apply (unlink _ l1 vn l2).
  - rewrite (filter_absent (ls k) vn).
    2:{ intros Hin. by apply Hne, (lists_disjoint V L ls vn k (inlist v)). }
    apply (linked_frame (vn_list <$> V)); [done|]. intros q Hq. apply (joined_frame _ l1 vn l2). rewrite <- E. intros Hq'.
    by apply Hne, (lists_disjoint V L ls q k (inlist v)).
Qed.

(** The ends of the lists. *)
Lemma detached_ends (L : list vnlist) i l1 l2 (vn : Z) :
  let L1 := match last l1 with Some _ => L | None => <[i := set_head (head l2) (vlist (l1 ++ vn :: l2))]> L end in
  L !! i = Some (vlist (l1 ++ vn :: l2)) ->
  exists x y, L1 !! i = Some x /\
    let L2 := match head l2 with Some _ => L1 | None => <[i := set_tail (last l1) x]> L1 end in
    L2 !! i = Some y /\ <[i := set_num (l_num y - 1) y]> L2 = <[i := vlist (l1 ++ l2)]> L.
Proof.
  intros L1 HL. pose proof (lookup_lt_Some _ _ _ HL) as Hlt. subst L1.
  destruct l1 as [|a l1 _] using rev_ind; [|rewrite last_snoc]; destruct l2 as [|b l2]; cbn [head last].
  - eexists _, _. rewrite list_lookup_insert_eq by done. split; [done|]. cbn zeta.
    rewrite list_lookup_insert_eq by (by rewrite length_insert). split; [done|]. by rewrite !list_insert_insert_eq.
  - eexists _, _. rewrite list_lookup_insert_eq by done. split; [done|]. cbn zeta. split; [done|].
    rewrite !list_insert_insert_eq. f_equal. unfold vlist, set_num, set_head. cbn. f_equal. unfold len. cbn [length]. lia.
  - eexists _, _. split; [done|]. cbn zeta. rewrite list_lookup_insert_eq by done. split; [done|].
    rewrite !list_insert_insert_eq. f_equal. unfold vlist, set_num, set_tail. cbn. rewrite app_nil_r, last_snoc. f_equal.
    + by destruct l1.
    + unfold len. rewrite !length_app. cbn [length]. lia.
  - eexists _, _. split; [done|]. cbn zeta. split; [done|]. f_equal. unfold vlist, set_num. cbn. f_equal.
    + by destruct l1.
    + by rewrite !last_app_cons.
    + unfold len. rewrite !length_app. cbn [length]. lia.
Qed.

Lemma attached_ends (L : list vnlist) i l (vn : Z) :
  let L1 := match last l with Some _ => L | None => <[i := set_head (Some vn) (vlist l)]> L end in
  L !! i = Some (vlist l) ->
  exists x, L1 !! i = Some x /\
    <[i := set_num (l_num (set_tail (Some vn) x) + 1) (set_tail (Some vn) x)]> (<[i := set_tail (Some vn) x]> L1) =
    <[i := vlist (l ++ [vn])]> L.
Proof.
  intros L1 HL. pose proof (lookup_lt_Some _ _ _ HL) as Hlt. subst L1.
  destruct l as [|a l _] using rev_ind; [|rewrite last_snoc]; eexists.
  - cbn [last]. rewrite list_lookup_insert_eq by done. split; [done|]. by rewrite !list_insert_insert_eq.
  - split; [done|]. rewrite list_insert_insert_eq. f_equal. unfold vlist, set_num, set_tail. cbn. rewrite last_snoc. f_equal.
    + by destruct l.
    + unfold len. rewrite !length_app. cbn [length]. lia.
Qed.

Lemma last_in (l : list Z) p : last l = Some p -> p ∈ l.
Proof. intros (k & ->)%last_elem. rewrite elem_of_app. right. by left. Qed.
Lemma head_in (l : list Z) p : head l = Some p -> p ∈ l.
Proof. intros (k & ->)%head_elem. by left. Qed.

(** ** Attaching *)

(** Putting at the tail of list [k] a vnode that is on none. *)
Definition attach_links (vn : Z) (t : option Z) (m : gmap Z vnlink) : gmap Z vnlink :=
  at_prev (set_next (Some vn)) t (<[vn := VnLink t None]> m).

Lemma attach_comm vn t m : t <> Some vn ->
  attach_links vn t m = <[vn := VnLink t None]> (at_prev (set_next (Some vn)) t m).
Proof.
  intros Hne. unfold attach_links. destruct t as [t|]; [|done]. apply map_eq. intros i. cbn.
  destruct (decide (i = t)) as [->|H1].
  - rewrite lookup_alter_eq, !lookup_insert_ne, lookup_alter_eq by congruence. done.
  - rewrite lookup_alter_ne by done. destruct (decide (i = vn)) as [->|H2]; [by rewrite !lookup_insert_eq|].
    by rewrite !lookup_insert_ne, lookup_alter_ne.
Qed.
Lemma attach_frame vn t m q : q <> vn -> t <> Some q -> attach_links vn t m !! q = m !! q.
Proof. intros H1 H2. unfold attach_links. rewrite at_prev_ne by done. by rewrite lookup_insert_ne. Qed.

(** The vnodes after the move. *)
Definition attach (vn k : Z) (t : option Z) (V : gmap Z vnode) : gmap Z vnode :=
  alter_opt (on_list (set_next (Some vn))) t
    (alter (on_list (set_prev t)) vn (alter (on_list (set_next None)) vn (alter (v_set_inlist k) vn V))).

Lemma attach_links_of vn k t V : is_Some (V !! vn) -> vn_list <$> attach vn k t V = attach_links vn t (vn_list <$> V).
Proof.
  intros [v Hv]. unfold attach, attach_links. rewrite alter_opt_list. f_equal. apply map_eq. intros i.
  rewrite lookup_fmap. destruct (decide (i = vn)) as [->|Hne].
  - by rewrite !lookup_alter_eq, Hv, lookup_insert_eq.
  - by rewrite !lookup_alter_ne, lookup_insert_ne, lookup_fmap.
Qed.

Lemma moved_lists V L ls vn v k l1 l2 :
  lists_ok V L ls -> V !! vn = Some v -> ls (inlist v) = l1 ++ vn :: l2 -> 0 <= k < 3 ->
  let l' := filter (fun q => q <> vn) (ls k) in
  lists_ok (attach vn k (last l') (detach (last l1) (head l2) V))
    (<[Z.to_nat k := vlist (l' ++ [vn])]> (<[Z.to_nat (inlist v) := vlist (l1 ++ l2)]> L)) (move_to vn k ls).
Proof.
  intros Hok Hv E Hk l'. destruct (lists_member V L ls vn v Hok Hv) as [Hr _]. pose proof Hok as [Hlen He Hl Hin Hrg].
  assert (forall j, vn ∉ filter (fun q => q <> vn) (ls j)) as Hout by (intros j; rewrite list_elem_of_filter; tauto).
  assert (filter (fun q => q <> vn) (ls (inlist v)) = l1 ++ l2) as Ef.
  { pose proof (ln_nodup _ _ (Hl _ Hr)) as Hnd. rewrite E in *. by apply filter_out. }
  assert (is_Some (detach (last l1) (head l2) V !! vn)) as Hsm by (by apply alter_opt_some, alter_opt_some; exists v).
  assert (inlist <$> attach vn k (last l') (detach (last l1) (head l2) V) = <[vn := k]> (inlist <$> V)) as Ein.
  { unfold attach. rewrite alter_opt_same, !(fmap_alter_same inlist (on_list _)) by done.
    rewrite (fmap_alter_to inlist _ (fun _ => k)) by done. unfold detach. rewrite !alter_opt_same by done.
    apply map_eq. intros i. destruct (decide (i = vn)) as [->|Hne]; [|by rewrite lookup_alter_ne, lookup_insert_ne].
    by rewrite lookup_alter_eq, lookup_insert_eq, lookup_fmap, Hv. }
  split.
  - by rewrite !length_insert.
  - intros j Hj. unfold move_to. destruct (decide (j = k)) as [->|Hne]; [by rewrite list_lookup_insert_eq by (rewrite length_insert; lia)|].
    rewrite list_lookup_insert_ne by lia. destruct (decide (j = inlist v)) as [->|Hne'].
    + by rewrite list_lookup_insert_eq, Ef by lia.
    + rewrite list_lookup_insert_ne, He by lia. rewrite filter_absent; [done|]. intros Hp.
      by apply Hne', (lists_disjoint V L ls vn j (inlist v)), (lists_member V L ls vn v).
  - intros j Hj. rewrite attach_links_of, detach_links by done. unfold move_to.
    destruct (decide (j = k)) as [->|Hne].
    + rewrite attach_comm by (intros Hp%last_in; by apply (Hout k)).
      apply link_tail; [by apply (detached_linked V L ls vn v)|apply Hout].
    + apply (linked_frame (joined (vn_list <$> V) (last l1) (head l2))); [by apply (detached_linked V L ls vn v)|].
      intros q Hq. apply attach_frame; [by intros ->; apply (Hout j)|]. intros Hp%last_in.
      apply list_elem_of_filter in Hq as [_ Hq], Hp as [_ Hp]. by apply Hne, (lists_disjoint V L ls q j k).
  - intros j p Hj. rewrite Ein. unfold move_to. destruct (decide (p = vn)) as [->|Hp].
    + rewrite lookup_insert_eq. destruct (decide (j = k)) as [->|Hne].
      * rewrite elem_of_app, list_elem_of_singleton. tauto.
      * split; [by intros ?%Hout|congruence].
    + rewrite lookup_insert_ne, <- Hin by done. destruct (decide (j = k)) as [->|Hne];
        rewrite ?elem_of_app, ?list_elem_of_singleton, list_elem_of_filter; tauto.
  - intros p j. rewrite Ein. destruct (decide (p = vn)) as [->|Hp]; [rewrite lookup_insert_eq; congruence|].
    rewrite lookup_insert_ne by done. apply Hrg.
Qed.

Lemma moved_body vn k a b t V : body <$> attach vn k t (detach a b V) = alter (v_set_inlist k) vn (body <$> V).
Proof.
  unfold attach, detach. rewrite alter_opt_same, !(fmap_alter_same body (on_list _)) by done.
  rewrite (fmap_alter_to body _ (v_set_inlist k)) by done. by rewrite !alter_opt_same.
Qed.
Lemma moved_nspace vn k a b t V : vn_nspace <$> attach vn k t (detach a b V) = vn_nspace <$> V.
Proof. unfold attach, detach. by rewrite alter_opt_same, !fmap_alter_same, !alter_opt_same. Qed.

(** ** Moving *)

Lemma move_vnode_wp vn v k ls (Q : unit -> layer -> Prop) V L N l :
  lists_ok V L ls -> V !! vn = Some v -> 0 <= k < 3 ->
  (forall V' L', lists_ok V' L' (move_to vn k ls) -> body <$> V' = alter (v_set_inlist k) vn (body <$> V) ->
    vn_nspace <$> V' = vn_nspace <$> V -> Q tt (st V' L' N l)) ->
  wp (move_vnode vn k) Q (st V L N l).
Proof.
  intros Hok Hv Hk HQ. destruct (lists_member V L ls vn v Hok Hv) as [Hr _]. pose proof Hok as [Hlen He Hl Hin Hrg].
  destruct (lists_split V L ls vn v Hok Hv) as (l1 & l2 & E & Ev).
  pose proof (ln_nodup _ _ (Hl _ Hr)) as Hnd. rewrite E in Hnd. destruct (NoDup_mid l1 l2 vn Hnd) as (Hn1 & Hn2 & _).
  assert (forall p j, 0 <= j < 3 -> p ∈ ls j -> is_Some (V !! p)) as Hsome by (intros; by eapply lists_some).
  pose proof (moved_lists V L ls vn v k l1 l2 Hok Hv E Hk) as Hmv. cbv zeta in Hmv.
  set (l' := filter (fun q => q <> vn) (ls k)) in *.
  assert (<[Z.to_nat (inlist v) := vlist (l1 ++ l2)]> L !! Z.to_nat k = Some (vlist l')) as HL3.
  { destruct (decide (k = inlist v)) as [->|Hne]; [rewrite list_lookup_insert_eq by lia; subst l'; by rewrite E, filter_out|].
    rewrite list_lookup_insert_ne, He by lia. subst l'. rewrite filter_absent; [done|]. intros Hp.
    by apply Hne, (lists_disjoint V L ls vn k (inlist v)), (lists_member V L ls vn v). }
  pose proof (He _ Hr) as HLi. rewrite E in HLi. destruct (detached_ends L _ l1 l2 vn HLi) as (x & y & Hx & Hy & HL2).
  destruct (attached_ends _ _ l' vn HL3) as (z & Hz & HL5).
  unfold move_vnode. wp_step. eapply get_vn_wp; [exact Hv|]. rewrite Ev. cbn [lk_prev lk_next].
  wp_step. eapply neighbour_wp; [intros p Hp%last_in; apply (Hsome p _ Hr); rewrite E, elem_of_app; by left|exact HLi|].
  wp_step. eapply (get_vn_wp _ v).
  { cbn. rewrite <- Hv. destruct (last l1) eqn:El; [|done]. cbn. apply lookup_alter_ne. intros ->. by apply Hn1, last_in. }
  rewrite Ev. cbn [lk_prev lk_next].
  wp_step. eapply neighbour_wp; [|exact Hx|].
  { intros p Hp%head_in. apply alter_opt_some, (Hsome p _ Hr). rewrite E, elem_of_app, elem_of_cons. auto. }
  wp_step. eapply upd_list_wp; [exact Hy|]. rewrite HL2.
  wp_step. apply upd_vn_wp; [by apply alter_opt_some, alter_opt_some; exists v|].
  wp_step. apply upd_vn_list_wp; [by apply lookup_alter_is_Some, alter_opt_some, alter_opt_some; exists v|].
  wp_step. eapply get_list_wp; [exact HL3|]. cbn [l_tail vlist].
  wp_step. apply upd_vn_list_wp; [by apply lookup_alter_is_Some, lookup_alter_is_Some, alter_opt_some, alter_opt_some; exists v|].
  wp_step. eapply neighbour_wp; [|exact HL3|].
  { intros p Hp%last_in. do 3 apply lookup_alter_is_Some. apply alter_opt_some, alter_opt_some, (Hsome p k Hk).
    by apply list_elem_of_filter in Hp as [_ Hp]. }
  wp_step. eapply upd_list_wp; [exact Hz|]. eapply upd_list_wp; [apply list_lookup_insert_eq|].
  { apply lookup_lt_Some in Hz. exact Hz. }
  rewrite HL5. apply HQ; [exact Hmv|apply moved_body|apply moved_nspace].
Qed.
