(* ===== verification/VnodeInv.v ===== *)
(** * VnodeInv: what the vnode layer keeps true (kernel.c)

    The invariant ties the three lists, the lists of the name spaces, the skip
    list and the table of name spaces to what the vnodes themselves say, so
    that an operation is described by what it does to vnodes without links. *)

From stdpp Require Import sorting.
From S2P Require Import Prelude Bytes Host SkipList Kernel Links Vnode VnodeLists.
Local Open Scope Z_scope.

#[export] Instance compare_vnode_ok : Comparison compare_vnode.
Proof.
  split; intros; unfold compare_vnode in *;
    repeat match goal with H : context [?a >? ?b] |- _ => destruct (Z.gtb_spec a b) | H : context [?a <? ?b] |- _ => destruct (Z.ltb_spec a b) | |- context [?a >? ?b] => destruct (Z.gtb_spec a b) | |- context [?a <? ?b] => destruct (Z.ltb_spec a b) end; lia.
Qed.

Lemma compare_vnode_0 x y : compare_vnode x y = 0 <-> k_vnid x = k_vnid y /\ k_nsid x = k_nsid y.
Proof.
  unfold compare_vnode.
  repeat match goal with |- context [?a >? ?b] => destruct (Z.gtb_spec a b) | |- context [?a <? ?b] => destruct (Z.ltb_spec a b) end; lia.
Qed.

(** ** Keys of a list without duplicates *)

Section strict.
Context {K : Type} (compare : K -> K -> Z) `{!Comparison compare}.

Lemma strict_equal ks x y : StronglySorted (key_order compare false) ks -> x ∈ ks -> y ∈ ks -> compare x y = 0 -> x = y.
Proof.
  intros Hs. induction Hs as [|k ks Hs IH Hall]; [by intros ?%elem_of_nil|].
  rewrite Forall_forall in Hall. intros [->|Hx]%elem_of_cons [->|Hy]%elem_of_cons E; [done|..|by apply IH].
  - specialize (Hall y Hy). cbn in Hall. lia.
  - specialize (Hall x Hx). cbn in Hall. apply cmp_sym in Hall. lia.
Qed.

Lemma remove_key_in ks k x :
  StronglySorted (key_order compare false) ks -> k ∈ ks -> (x ∈ remove_key compare k ks <-> x ∈ ks /\ x <> k).
Proof.
  intros Hs Hk. pose proof (sorted_cut compare false ks k Hs) as E. unfold remove_key.
  assert (k ∈ above compare k ks) as Ha.
  { unfold above. apply list_elem_of_filter. split; [|done]. by rewrite (cmp_refl compare). }
  destruct (above compare k ks) as [|y l] eqn:Eab; [by apply elem_of_nil in Ha|]. cbn [tail].
  pose proof Hs as Hs'. rewrite E in Hs'. apply StronglySorted_app in Hs' as (Hx & _ & Hb). inversion Hb as [|? ? Hb1 Hb2]; subst.
  rewrite Forall_forall in Hb2. assert (y = k) as ->.
  { apply elem_of_cons in Ha as [->|Ha]; [done|]. specialize (Hb2 k Ha). cbn in Hb2.
    assert (y ∈ above compare k ks) as Hy by (rewrite Eab; by left). apply list_elem_of_filter in Hy as [Hy _]. done. }
  assert (x ∈ ks <-> x ∈ below compare k ks \/ x = k \/ x ∈ l) as ->.
  { rewrite E at 1. by rewrite elem_of_app, elem_of_cons. }
  rewrite elem_of_app. split.
  - intros [Hin|Hin]; (split; [tauto|]); intros ->.
    + specialize (Hx k k Hin ltac:(by left)). cbn in Hx. rewrite (cmp_refl compare) in Hx. lia.
    + specialize (Hb2 k Hin). cbn in Hb2. rewrite (cmp_refl compare) in Hb2. lia.
  - tauto.
Qed.
End strict.

Lemma insert_key_in {K} (compare : K -> K -> Z) `{!Comparison compare} ks k x :
  StronglySorted (key_order compare false) ks -> (x ∈ below compare k ks ++ k :: above compare k ks <-> x = k \/ x ∈ ks).
Proof.
  intros Hs. assert (x ∈ ks <-> x ∈ below compare k ks \/ x ∈ above compare k ks) as ->.
  { rewrite (sorted_cut compare false ks k Hs) at 1. by rewrite elem_of_app. }
  rewrite elem_of_app, elem_of_cons. tauto.
Qed.

(** ** The invariant *)

Definition nbody (ns : nspace) : nspace := ns_set_vnodes (VnList None None 0) ns.

(** The vnode at [q] stands for vnode [num] of name space [id]. *)
Definition named (B : gmap Z vnode) (NB : gmap Z nspace) (q id num : Z) : Prop :=
  exists v p ns, B !! q = Some v /\ vn_ns v = Some p /\ NB !! p = Some ns /\ nsid ns = id /\ vnid v = num.

(** [u] is a vnode that has a name already but is not sorted in yet. *)
Record skip_ok (u : option Z) (B : gmap Z vnode) (NB : gmap Z nspace) (S : SkipList vkey) (ks : list vkey) : Prop := {
  sk_holds : holds compare_vnode S ks;
  sk_dup : allows_dup S = false;
  sk_keys : forall k, k ∈ ks <-> named B NB (k_vn k) (k_nsid k) (k_vnid k) /\ u <> Some (k_vn k);
}.

Record ns_ok (u : option Z) (V : gmap Z vnode) (N : gmap Z nspace) (nl : Z -> list Z) : Prop := {
  nk_ends : forall p ns, N !! p = Some ns -> l_head (ns_vnodes ns) = head (nl p) /\ l_tail (ns_vnodes ns) = last (nl p);
  nk_links : forall p, is_Some (N !! p) -> linked (vn_nspace <$> V) (nl p);
  nk_in : forall p q, is_Some (N !! p) -> (q ∈ nl p <-> (vn_ns <$> V) !! q = Some (Some p) /\ u <> Some q);
}.

Record tab_ok (NB : gmap Z nspace) (tab : list (option Z)) : Prop := {
  tk_len : 0 < len tab;
  tk_slot : forall i p, tab !! i = Some (Some p) -> is_Some (NB !! p);
  tk_ns : forall p ns, NB !! p = Some ns -> tab !! Z.to_nat (nsid ns mod len tab) = Some (Some p);
}.

(** [B] and [NB] are the vnodes and name spaces without their links. *)
Record core (u : option Z) (l : layer) (B : gmap Z vnode) (NB : gmap Z nspace) : Prop := {
  co_body : body <$> vns l = B;
  co_nbody : nbody <$> nspaces l = NB;
  co_lists : exists ls, lists_ok (vns l) (lists l) ls;
  co_skip : exists ks, skip_ok u B NB (skiplist l) ks;
  co_ns : exists nl, ns_ok u (vns l) (nspaces l) nl;
  co_tab : tab_ok NB (nstab l);
  co_dom : forall q v p, B !! q = Some v -> vn_ns v = Some p -> is_Some (NB !! p);
}.

(** What no operation on vnodes changes. *)
Definition rest_of (l : layer) : list (option Z) * Z * statics := (nstab l, usdvnnum l, kern l).

(** ** Changes of vnodes *)

Definition kept (l l' : layer) : Prop :=
  nstab l' = nstab l /\ vnlock l' = vnlock l /\ usdvnnum l' = usdvnnum l /\ kern l' = kern l /\
  dom (nodes (skiplist l')) ⊆ dom (nodes (skiplist l)).

Lemma stay_refl l : kept l l.
Proof. by unfold kept. Qed.
Lemma stay_trans a b c : kept a b -> kept b c -> kept a c.
Proof. unfold kept. intros (A1&A2&A3&A4&A5) (B1&B2&B3&B4&B5). rewrite B1, B2, B3, B4. split_and!; [done..|set_solver]. Qed.
Lemma kept_st V L N l : kept l (st V L N l).
Proof. by unfold kept. Qed.

Definition name_of (v : vnode) : Z * option Z := (vnid v, vn_ns v).

Lemma named_lookup B B' NB q id num : name_of <$> B' !! q = name_of <$> B !! q -> named B NB q id num -> named B' NB q id num.
Proof.
  intros E (v & p & ns & Hv & H). rewrite Hv in E. destruct (B' !! q) as [v'|] eqn:Ev; [|done].
  injection E as E1 E2. exists v', p, ns. rewrite E1, E2. tauto.
Qed.

Lemma skip_ok_names u B B' NB S ks :
  (forall q, u <> Some q -> name_of <$> B' !! q = name_of <$> B !! q) -> skip_ok u B NB S ks -> skip_ok u B' NB S ks.
Proof.
  intros E [H1 H2 H3]. split; [done..|]. intros k. rewrite H3. split; intros [Hn Hu]; (split; [|done]);
    (eapply named_lookup; [|exact Hn]); by rewrite E.
Qed.

Lemma core_vns u l B NB V' L' :
  core u l B NB -> (exists ls, lists_ok V' L' ls) -> vn_nspace <$> V' = vn_nspace <$> vns l ->
  (forall q, u <> Some q -> name_of <$> V' !! q = name_of <$> vns l !! q) ->
  (forall q v p, V' !! q = Some v -> vn_ns v = Some p -> is_Some (NB !! p)) ->
  core u (st V' L' (nspaces l) l) (body <$> V') NB.
Proof.
  intros [Hb Hn Hl [ks Hs] [nl Hns] Ht Hd] HL Hlk Hnm Hdm. split; cbn; try done.
  - exists ks. apply (skip_ok_names _ B); [|done]. intros q Hq. rewrite <- Hb, !lookup_fmap.
    specialize (Hnm q Hq). by destruct (V' !! q), (vns l !! q).
  - exists nl. destruct Hns as [N1 N2 N3]. split; [done|by rewrite Hlk|]. intros p q Hp. rewrite N3 by done.
    split; intros [Hq Hu]; (split; [|done]); rewrite lookup_fmap in *; specialize (Hnm q Hu);
      destruct (V' !! q), (vns l !! q); cbn in *; unfold name_of in *; congruence.
  - intros q v p. rewrite lookup_fmap. destruct (V' !! q) as [v'|] eqn:E; [|done]. intros [= <-]. by apply (Hdm q v').
Qed.

Lemma core_vn u l B NB q v : core u l B NB -> B !! q = Some v -> exists w, vns l !! q = Some w /\ v = body w.
Proof. intros [Hb _ _ _ _ _ _] Hv. rewrite <- Hb, lookup_fmap in Hv. destruct (vns l !! q) as [w|]; [|done]. injection Hv as <-. eauto. Qed.
Lemma core_nsp u l B NB p ns : core u l B NB -> NB !! p = Some ns -> exists w, nspaces l !! p = Some w /\ ns = nbody w.
Proof. intros [_ Hb _ _ _ _ _] Hv. rewrite <- Hb, lookup_fmap in Hv. destruct (nspaces l !! p) as [w|]; [|done]. injection Hv as <-. eauto. Qed.

Lemma move_core u l B NB vn k (Q : unit -> layer -> Prop) :
  core u l B NB -> is_Some (B !! vn) -> 0 <= k < 3 ->
  (forall l', core u l' (alter (v_set_inlist k) vn B) NB -> kept l l' -> Q tt l') -> wp (move_vnode vn k) Q l.
Proof.
  intros Hc [v Hv] Hk HQ. destruct (core_vn _ _ _ _ _ _ Hc Hv) as (w & Hw & _). pose proof (co_lists _ _ _ _ Hc) as [ls Hls].
  rewrite <- (st_id l). apply (move_vnode_wp vn w k ls); [done..|]. intros V' L' Hls' Hb Hn.
  pose proof (co_body _ _ _ _ Hc) as HB. rewrite HB in Hb.
  assert (forall q, name_of <$> V' !! q = name_of <$> vns l !! q) as Hnm.
  { intros q. assert ((body <$> V') !! q = alter (v_set_inlist k) vn B !! q) as E by (by rewrite Hb).
    rewrite lookup_fmap, <- HB in E. destruct (decide (vn = q)) as [<-|Hne];
      [rewrite lookup_alter_eq, lookup_fmap in E|rewrite lookup_alter_ne, lookup_fmap in E by done].
    - destruct (V' !! vn), (vns l !! vn); try done; exact (f_equal (fmap (M:=option) name_of) E).
    - destruct (V' !! q), (vns l !! q); try done; exact (f_equal (fmap (M:=option) name_of) E). }
  apply HQ; [|apply kept_st]. rewrite <- Hb. apply (core_vns u l B); [done|by eexists|done|by intros; apply Hnm|].
  intros q x p Hx Hp. specialize (Hnm q). rewrite Hx in Hnm. destruct (vns l !! q) as [y|] eqn:Ey; [|done].
  injection Hnm as _ E. apply (co_dom _ _ _ _ Hc q (body y)); [by rewrite <- HB, lookup_fmap, Ey|]. cbn. congruence.
Qed.

(** A change that leaves links and lists alone. *)
Record plain (f : vnode -> vnode) : Prop := {
  pl_body v : body (f v) = f (body v);
  pl_list v : vn_list (f v) = vn_list v;
  pl_nspace v : vn_nspace (f v) = vn_nspace v;
  pl_inlist v : inlist (f v) = inlist v;
}.

Lemma upd_core u l B NB vn f v (Q : unit -> layer -> Prop) :
  core u l B NB -> B !! vn = Some v -> plain f ->
  (u = Some vn \/ forall w, name_of (f w) = name_of w) -> (forall p, vn_ns (f v) = Some p -> is_Some (NB !! p)) ->
  (forall l', core u l' (alter f vn B) NB -> kept l l' -> Q tt l') -> wp (upd_vn vn f) Q l.
Proof.
  intros Hc Hv [P1 P2 P3 P4] Hu Hdm HQ. destruct (core_vn _ _ _ _ _ _ Hc Hv) as (w & Hw & ->).
  pose proof (co_body _ _ _ _ Hc) as HB. rewrite <- (st_id l). apply upd_vn_wp; [by exists w|]. apply HQ; [|apply kept_st].
  replace (alter f vn B) with (body <$> alter f vn (vns l)) by (rewrite (fmap_alter_to body f f), HB; done).
  apply (core_vns u l B); [done| | | |].
  - destruct (co_lists _ _ _ _ Hc) as [ls [L1 L2 L3 L4 L5]]. exists ls.
    split; rewrite ?(fmap_alter_same vn_list), ?(fmap_alter_same inlist) by done; done.
  - by rewrite fmap_alter_same.
  - intros q Hq. destruct (decide (q = vn)) as [->|Hne]; [|by rewrite lookup_alter_ne].
    rewrite lookup_alter_eq, Hw. cbn. destruct Hu as [->|Hu]; [done|by rewrite Hu].
  - intros q x p. destruct (decide (q = vn)) as [->|Hne].
    + rewrite lookup_alter_eq, Hw. intros [= <-]. intros E. apply Hdm. rewrite <- P1. exact E.
    + rewrite lookup_alter_ne by done. intros Hx Hp. apply (co_dom _ _ _ _ Hc q (body x)); [by rewrite <- HB, lookup_fmap, Hx|done].
Qed.

(** ** Look-up *)

Lemma named_unique u l B NB q q' id num :
  core u l B NB -> named B NB q id num -> named B NB q' id num -> u <> Some q -> u <> Some q' -> q = q'.
Proof.
  intros Hc H1 H2 Hu Hu'. destruct (co_skip _ _ _ _ Hc) as [ks [[ps Hok] Hd Hk]].
  pose proof (so_sorted _ _ _ _ Hok) as Hs. rewrite Hd in Hs.
  assert (VKey num id q = VKey num id q') as E; [|congruence].
  apply (strict_equal compare_vnode ks); [done|by apply Hk|by apply Hk|]. by apply compare_vnode_0.
Qed.

Lemma in_skiplist_wp {A} (m : M (SkipList vkey) A) (Q : A -> layer -> Prop) l :
  wp m (fun a s => Q a (set_skiplist s l)) (skiplist l) -> wp (in_skiplist m) Q l.
Proof. apply wp_zoom. Qed.
Lemma set_skiplist_id l : set_skiplist (skiplist l) l = l.
Proof. by destruct l. Qed.

Lemma lookup_vnode_wp u l B NB id num (Q : option Z -> layer -> Prop) :
  core u l B NB ->
  (forall q, named B NB q id num -> u <> Some q -> Q (Some q) l) ->
  ((forall q, named B NB q id num -> u = Some q) -> Q None l) -> wp (lookup_vnode id num) Q l.
Proof.
  intros Hc H1 H2. destruct (co_skip _ _ _ _ Hc) as [ks [Hh Hd Hk]]. unfold lookup_vnode. wp_step. apply in_skiplist_wp.
  eapply wp_mono; [by apply (search_spec compare_vnode _ ks)|]. intros r s' [-> ->]. rewrite set_skiplist_id. wp_step.
  destruct (List.find _ ks) as [k|] eqn:Ef.
  - apply List.find_some in Ef as [Hin Ek]. apply list_elem_of_In in Hin. apply Z.eqb_eq, compare_vnode_0 in Ek as [E1 E2].
    apply Hk in Hin as [Hn Hu]. cbn in E1, E2. subst. by apply H1.
  - apply H2. intros q Hq. destruct (decide (u = Some q)) as [|Hu]; [done|exfalso].
    pose proof (List.find_none _ _ Ef (VKey num id q)) as Hf. cbn beta in Hf. apply Z.eqb_neq in Hf; [|].
    + apply Hf. by apply compare_vnode_0.
    + apply list_elem_of_In, Hk. by split.
Qed.

Lemma nsidtons_wp u l B NB id (Q : option Z -> layer -> Prop) :
  core u l B NB ->
  (forall p ns, NB !! p = Some ns -> nsid ns = id -> ns_shutdown ns = false -> Q (Some p) l) ->
  ((forall p ns, NB !! p = Some ns -> nsid ns = id -> ns_shutdown ns = true) -> Q None l) -> wp (nsidtons id) Q l.
Proof.
  intros Hc H1 H2. pose proof (co_tab _ _ _ _ Hc) as [T1 T2 T3]. unfold nsidtons. wp_step. wp_step. wp_step.
  pose proof (Z.mod_pos_bound id (len (nstab l)) T1) as Hm.
  destruct (lookup_lt_is_Some_2 (nstab l) (Z.to_nat (id mod len (nstab l)))) as [slot Hslot]; [unfold len in *; lia|].
  rewrite Hslot. wp_step. destruct slot as [p|].
  - destruct (T2 _ _ Hslot) as [ns Hns]. destruct (core_nsp _ _ _ _ _ _ Hc Hns) as (w & Hw & ->).
    wp_step. apply (get_ns_wp p w); [done|]. change (Kernel.nsid w) with (nsid (nbody w)). change (ns_shutdown w) with (ns_shutdown (nbody w)).
    destruct (Z.eqb_spec (nsid (nbody w)) id) as [E|Hne]; cbn [negb orb].
    + destruct (ns_shutdown (nbody w)) eqn:Es; wp_step; [|by apply (H1 p (nbody w))].
      apply H2. intros p' ns' Hp' E'. specialize (T3 _ _ Hp'). rewrite E', Hslot in T3. congruence.
    + wp_step. apply H2. intros p' ns' Hp' E'. specialize (T3 _ _ Hp'). rewrite E', Hslot in T3. congruence.
  - wp_step. apply H2. intros p' ns' Hp' E'. specialize (T3 _ _ Hp'). rewrite E', Hslot in T3. congruence.
Qed.

Lemma steal_core u l B NB k (Q : option Z -> layer -> Prop) :
  core u l B NB -> 0 <= k < 3 ->
  (forall q v l', B !! q = Some v -> inlist v = k -> core u l' (alter (v_set_inlist LOCKED_LIST) q B) NB -> kept l l' -> Q (Some q) l') ->
  ((forall q v, B !! q = Some v -> inlist v <> k) -> Q None l) -> wp (steal_vnode k) Q l.
Proof.
  intros Hc Hk H1 H2. destruct (co_lists _ _ _ _ Hc) as [ls Hls]. pose proof Hls as [_ He _ Hin _].
  unfold steal_vnode. wp_step. rewrite <- (st_id l) at 1. eapply get_list_wp; [by apply He|]. rewrite (st_id l). cbn [l_head vlist].
  assert (forall q, (inlist <$> vns l) !! q = inlist <$> B !! q) as EB.
  { intros q. rewrite <- (co_body _ _ _ _ Hc), !lookup_fmap. by destruct (vns l !! q). }
  destruct (ls k) as [|q lk] eqn:Ek; cbn [head].
  - wp_step. apply H2. intros q v Hv Hq. assert (q ∈ ls k) as Hx; [|rewrite Ek in Hx; by apply elem_of_nil in Hx].
    apply Hin; [done|]. rewrite EB, Hv. cbn. congruence.
  - assert (q ∈ ls k) as Hq by (rewrite Ek; by left). apply Hin in Hq; [|done]. rewrite EB in Hq.
    destruct (B !! q) as [v|] eqn:Hv; [|done]. injection Hq as Hq.
    wp_step. apply (move_core u l B NB); [done|by exists v|done|]. intros l' Hc' Hr. wp_step. by apply (H1 q v).
Qed.

(** ** The list of a name space *)

Lemma vkey_of_wp u l B NB vn v p ns (Q : vkey -> layer -> Prop) :
  core u l B NB -> B !! vn = Some v -> vn_ns v = Some p -> NB !! p = Some ns ->
  Q (VKey (vnid v) (nsid ns) vn) l -> wp (vkey_of vn) Q l.
Proof.
  intros Hc Hv Hp Hns HQ. destruct (core_vn _ _ _ _ _ _ Hc Hv) as (w & Hw & ->). destruct (core_nsp _ _ _ _ _ _ Hc Hns) as (m & Hm & ->).
  unfold vkey_of. wp_step. apply (get_vn_wp vn w); [done|]. change (vn_ns w) with (vn_ns (body w)). rewrite Hp. wp_step. wp_step. wp_step.
  apply (get_ns_wp p m); [done|]. wp_step. exact HQ.
Qed.

Definition on_vnodes (f : vnlist -> vnlist) (ns : nspace) : nspace := ns_set_vnodes (f (ns_vnodes ns)) ns.

(** [p] is a name space whose list has these ends. *)
Definition ends_are (N : gmap Z nspace) (p : Z) (h t : option Z) : Prop :=
  exists ns, N !! p = Some ns /\ l_head (ns_vnodes ns) = h /\ l_tail (ns_vnodes ns) = t.
(** Only the list of [p] differs. *)
Definition same_but (p : Z) (N N' : gmap Z nspace) : Prop :=
  nbody <$> N' = nbody <$> N /\ forall q, q <> p -> N' !! q = N !! q.

Lemma same_but_refl p N : same_but p N N.
Proof. done. Qed.
Lemma same_but_set p N N' ns f : same_but p N N' -> N' !! p = Some ns -> same_but p N (<[p := on_vnodes f ns]> N').
Proof.
  intros [H1 H2] Hp. split.
  - rewrite fmap_insert, H1. apply insert_id. rewrite <- H1, lookup_fmap, Hp. done.
  - intros q Hq. rewrite lookup_insert_ne by done. by apply H2.
Qed.
Lemma same_but_dom p N N' q : same_but p N N' -> is_Some (N' !! q) <-> is_Some (N !! q).
Proof.
  intros [Hs _]. pose proof (f_equal (fun m => m !! q) Hs) as Hq. cbn in Hq. rewrite !lookup_fmap in Hq.
  destruct (N' !! q), (N !! q); cbn in Hq; try done; by split.
Qed.

Lemma upd_ns_vnodes_wp p f h t N0 (Q : unit -> layer -> Prop) V L N l :
  ends_are N p h t -> same_but p N0 N ->
  (forall N', ends_are N' p (l_head (f (VnList h t 0))) (l_tail (f (VnList h t 0))) -> same_but p N0 N' -> Q tt (st V L N' l)) ->
  (forall x n, l_head (f x) = l_head (f (set_num n x)) /\ l_tail (f x) = l_tail (f (set_num n x))) ->
  wp (upd_ns_vnodes p f) Q (st V L N l).
Proof.
  intros (ns & Hns & Hh & Ht) Hs HQ Hf. unfold upd_ns_vnodes. apply (upd_ns_wp p _ ns); [done|]. apply HQ.
  - eexists. rewrite lookup_insert_eq. split; [done|]. cbn. destruct (Hf (ns_vnodes ns) 0) as [-> ->].
    unfold set_num. by rewrite Hh, Ht.
  - by apply same_but_set.
Qed.

(** A neighbour in the list of [p], or an end of it, is set. *)
Lemma ns_neighbour_wp q f g p h t N0 (Q : unit -> layer -> Prop) V L N l :
  (forall r, q = Some r -> is_Some (V !! r)) -> ends_are N p h t -> same_but p N0 N ->
  (forall x n, l_head (g x) = l_head (g (set_num n x)) /\ l_tail (g x) = l_tail (g (set_num n x))) ->
  (forall N', same_but p N0 N' ->
    (match q with Some _ => ends_are N' p h t
     | None => ends_are N' p (l_head (g (VnList h t 0))) (l_tail (g (VnList h t 0))) end) ->
    Q tt (st (alter_opt (on_nspace f) q V) L N' l)) ->
  wp (match q with Some r => upd_vn_nspace r f | None => upd_ns_vnodes p g end) Q (st V L N l).
Proof.
  intros Hq He Hs Hg HQ. destruct q as [r|].
  - apply upd_vn_nspace_wp; [by apply Hq|]. by apply HQ.
  - eapply upd_ns_vnodes_wp; [exact He|exact Hs| |done]. intros N' He' Hs'. by apply HQ.
Qed.

Definition cleared (v : vnode) : vnode :=
  Vnode invalid_vnid None None false false (inlist v) no_link (vn_list v) 0 None.

Definition upd_nl (p : Z) (x : list Z) (nl : Z -> list Z) : Z -> list Z := fun q => if decide (q = p) then x else nl q.

(** The lists of the name spaces after a vnode is taken out. *)
Lemma ns_ok_clear V N N' nl vn p l1 l2 :
  ns_ok None V N nl -> (vn_ns <$> V) !! vn = Some (Some p) -> nl p = l1 ++ vn :: l2 ->
  is_Some (N !! p) -> same_but p N N' -> ends_are N' p (head (l1 ++ l2)) (last (l1 ++ l2)) ->
  ns_ok None (alter cleared vn (alter_opt (on_nspace (set_prev (last l1))) (head l2)
    (alter_opt (on_nspace (set_next (head l2))) (last l1) V))) N' (upd_nl p (l1 ++ l2) nl).
Proof.
  intros [N1 N2 N3] Hv E Hp Hsb (ns & Hns & He1 & He2).
  assert (forall q, is_Some (N' !! q) <-> is_Some (N !! q)) as Hdom by (intros q; by apply (same_but_dom p)). destruct Hsb as [Hs1 Hs2].
  pose proof (N2 p Hp) as Hlk. rewrite E in Hlk. pose proof (ln_nodup _ _ Hlk) as Hnd. destruct (NoDup_mid l1 l2 vn Hnd) as (Hx1 & Hx2 & _).
  assert (forall q r, q <> p -> is_Some (N !! q) -> r ∈ nl q -> r ∉ nl p) as Hdisj.
  { intros q r Hq Hq' H1 H2. apply N3 in H1 as [H1 _], H2 as [H2 _]; [|done..]. congruence. }
  set (V2 := alter_opt _ _ (alter_opt _ _ V)).
  assert (forall q, q <> vn -> (vn_nspace <$> alter cleared vn V2) !! q = joined (vn_nspace <$> V) (last l1) (head l2) !! q) as Hl2.
  { intros q Hq. rewrite lookup_fmap, lookup_alter_ne, <- lookup_fmap by done. unfold V2, joined. by rewrite !alter_opt_nspace. }
  assert (forall q, q <> vn -> (vn_ns <$> alter cleared vn V2) !! q = (vn_ns <$> V) !! q) as Hn2.
  { intros q Hq. rewrite lookup_fmap, lookup_alter_ne, <- lookup_fmap by done. unfold V2. by rewrite !alter_opt_same. }
  split.
  - intros q ns' Hq. unfold upd_nl. destruct (decide (q = p)) as [->|Hne]; [by simplify_eq|]. apply N1. by rewrite <- Hs2.
  - intros q Hq%Hdom. unfold upd_nl. destruct (decide (q = p)) as [->|Hne].
    + apply (linked_frame (joined (vn_nspace <$> V) (last l1) (head l2))); [by apply (unlink _ l1 vn l2)|].
      intros r Hr. apply Hl2. intros ->. apply elem_of_app in Hr. tauto.
    + apply (linked_frame (vn_nspace <$> V)); [by apply N2|]. intros r Hr. rewrite Hl2.
      * apply (joined_frame _ l1 vn l2). rewrite <- E. by apply (Hdisj q).
      * intros ->. apply (Hdisj q vn Hne Hq Hr). rewrite E, elem_of_app, elem_of_cons. auto.
  - intros q r Hq%Hdom. unfold upd_nl. destruct (decide (r = vn)) as [->|Hr].
    + split.
      * destruct (decide (q = p)) as [->|Hne]; [rewrite elem_of_app; tauto|]. intros Hin. exfalso.
        apply (Hdisj q vn Hne Hq Hin). rewrite E, elem_of_app, elem_of_cons. auto.
      * intros [Hc _]. rewrite lookup_fmap, lookup_alter_eq in Hc. by destruct (V2 !! vn).
    + rewrite Hn2, <- N3 by done. destruct (decide (q = p)) as [->|Hne]; [|done]. rewrite E, !elem_of_app, elem_of_cons. tauto.
Qed.

Lemma ns_members u l B NB vn v p ns :
  core u l B NB -> B !! vn = Some v -> vn_ns v = Some p -> NB !! p = Some ns -> u <> Some vn ->
  exists nl l1 l2 w, ns_ok u (vns l) (nspaces l) nl /\ nl p = l1 ++ vn :: l2 /\ vns l !! vn = Some w /\ v = body w /\
    vn_nspace w = VnLink (last l1) (head l2) /\ (forall r, r ∈ l1 ++ vn :: l2 -> is_Some (vns l !! r)) /\
    ends_are (nspaces l) p (head (nl p)) (last (nl p)) /\ is_Some (nspaces l !! p) /\ (vn ∉ l1) /\ (vn ∉ l2).
Proof.
  intros Hc Hv Hp Hns Hu. destruct (core_vn _ _ _ _ _ _ Hc Hv) as (w & Hw & ->). destruct (core_nsp _ _ _ _ _ _ Hc Hns) as (m & Hm & ->).
  destruct (co_ns _ _ _ _ Hc) as [nl [N1 N2 N3]]. assert (is_Some (nspaces l !! p)) as Hsp by (by exists m).
  assert (vn ∈ nl p) as Hin by (apply N3; [done|]; split; [by rewrite lookup_fmap, Hw; cbn in Hp |- *; rewrite Hp|done]).
  apply list_elem_of_split in Hin as (l1 & l2 & E). exists nl, l1, l2, w. split; [done|]. split; [done|]. split; [done|]. split; [done|].
  pose proof (ln_at _ _ (N2 p Hsp) l1 vn l2 E) as Hl. rewrite lookup_fmap, Hw in Hl. injection Hl as Hl. split; [done|]. split.
  - rewrite <- E. intros r Hr. apply N3 in Hr as [Hr _]; [|done]. rewrite lookup_fmap in Hr. by destruct (vns l !! r).
  - split; [exists m; split; [done|]; by apply N1|]. split; [done|]. pose proof (ln_nodup _ _ (N2 p Hsp)) as Hnd. rewrite E in Hnd.
    by destruct (NoDup_mid l1 l2 vn Hnd) as (? & ? & _).
Qed.

Lemma app_cons_ends (l1 l2 : list Z) x :
  match last l1 with Some _ => head (l1 ++ x :: l2) | None => head l2 end = head (l1 ++ l2) /\
  match head l2 with Some _ => last (l1 ++ x :: l2) | None => last l1 end = last (l1 ++ l2).
Proof.
  split.
  - destruct l1 as [|a l1 _] using rev_ind; [done|]. rewrite last_snoc. by destruct l1.
  - destruct l2 as [|b l2]; cbn [head]; [by rewrite app_nil_r|]. by rewrite !last_app_cons.
Qed.

Lemma alter_body_same f q V : body <$> alter_opt (on_nspace f) q V = body <$> V.
Proof. by apply alter_opt_same. Qed.

Lemma clear_core l B NB vn v p (Q : unit -> layer -> Prop) :
  core None l B NB -> B !! vn = Some v -> vn_ns v = Some p ->
  (forall l', core None l' (alter cleared vn B) NB -> kept l l' -> Q tt l') -> wp (clear_vnode vn) Q l.
Proof.
  intros Hc Hv Hp HQ. destruct (co_dom _ _ _ _ Hc vn v p Hv Hp) as [ns Hns].
  destruct (ns_members None l B NB vn v p ns Hc Hv Hp Hns ltac:(done)) as (nl & l1 & l2 & w & Hok & E & Hw & -> & Ew & Hsm & Hends & Hsp & Hx1 & Hx2).
  pose proof (co_skip _ _ _ _ Hc) as [ks [Hh Hd Hk]]. set (key := VKey (vnid (body w)) (nsid ns) vn).
  assert (key ∈ ks) as Hin by (apply Hk; split; [by exists (body w), p, ns|done]).
  unfold clear_vnode. wp_step. eapply vkey_of_wp; [done..|]. fold key. wp_step. apply in_skiplist_wp.
  eapply wp_mono; [by apply (delete_spec compare_vnode _ ks)|]. intros r S' (Hfl & Hdm & Hr).
  assert (holds compare_vnode S' (remove_key compare_vnode key ks)) as Hh'.
  { destruct Hr as [(_ & _ & Hh')|(_ & Hno & _)]; [done|]. destruct (Hno key Hin). by apply compare_vnode_0. }
  assert (StronglySorted (key_order compare_vnode false) ks) as Hss.
  { destruct Hh as [ps Hh]. pose proof (so_sorted _ _ _ _ Hh) as Hs. by rewrite Hd in Hs. }
  clear Hr. cbn beta.
  assert (set_skiplist S' l = st (vns l) (lists l) (nspaces l) (set_skiplist S' l)) as -> by done.
  wp_step. apply (get_vn_wp vn w); [done|]. change (vn_ns w) with (vn_ns (body w)). rewrite Hp. wp_step. wp_step. rewrite Ew. cbn [lk_prev lk_next].
  wp_step. eapply (ns_neighbour_wp _ _ _ p _ _ (nspaces l)); [|exact Hends|done|done|].
  { intros q Hq%last_in. apply Hsm. rewrite elem_of_app. by left. }
  intros N1 Hs1 He1. cbn [l_head l_tail set_head] in He1.
  assert (ends_are N1 p (match last l1 with Some _ => head (nl p) | None => head l2 end) (last (nl p))) as He1' by (by destruct (last l1)).
  wp_step. apply (get_vn_wp vn w).
  { cbn. rewrite <- Hw. destruct (last l1) eqn:El; [|done]. cbn. apply lookup_alter_ne. intros ->. by apply Hx1, last_in. }
  rewrite Ew. cbn [lk_prev lk_next].
  wp_step. eapply (ns_neighbour_wp _ _ _ p _ _ (nspaces l)); [|exact He1'|done|done|].
  { intros q Hq%head_in. apply alter_opt_some, Hsm. rewrite elem_of_app, elem_of_cons. auto. }
  intros N2 Hs2 He2. cbn [l_head l_tail set_tail] in He2.
  assert (ends_are N2 p (head (l1 ++ l2)) (last (l1 ++ l2))) as He2'.
  { destruct (app_cons_ends l1 l2 vn) as [<- <-]. rewrite <- E. by destruct (head l2). }
  set (V2 := alter_opt _ (head l2) _). assert (is_Some (V2 !! vn)) as HV2 by (by apply alter_opt_some, alter_opt_some; exists w).
  apply upd_vn_wp; [done|]. change (fun v : vnode => _) with cleared. apply HQ; [|by unfold kept].
  pose proof (co_body _ _ _ _ Hc) as HB. assert (body <$> V2 = B) as HB2 by (unfold V2; by rewrite !alter_body_same).
  split; cbn.
  - by rewrite (fmap_alter_to body cleared cleared), HB2.
  - destruct Hs2 as [-> _]. apply (co_nbody _ _ _ _ Hc).
  - destruct (co_lists _ _ _ _ Hc) as [ls [L1 L2 L3 L4 L5]]. exists ls.
    assert (inlist <$> alter cleared vn V2 = inlist <$> vns l) as E1 by (unfold V2; by rewrite fmap_alter_same, !alter_opt_same).
    assert (vn_list <$> alter cleared vn V2 = vn_list <$> vns l) as E2 by (unfold V2; by rewrite fmap_alter_same, !alter_opt_same).
    by split; rewrite ?E1, ?E2.
  - exists (remove_key compare_vnode key ks). split; [done|unfold allows_dup; by rewrite Hfl|].
    intros k. rewrite (remove_key_in compare_vnode ks key k Hss Hin), Hk. split.
    + intros [[Hn _] Hne]. split; [|done]. eapply named_lookup; [|exact Hn]. rewrite lookup_alter_ne; [done|]. intros Ekv.
      destruct Hn as (v' & p' & ns' & Hv' & Hp' & Hns' & E1 & E2). apply Hne. destruct k as [k1 k2 k3]. cbn [k_vn k_nsid k_vnid] in *. subst k3.
      assert (v' = body w) as -> by congruence. assert (p' = p) as -> by congruence. subst key. congruence.
    + intros [Hn _]. assert (k_vn k <> vn) as Hne.
      { intros Ek. rewrite Ek in Hn. destruct Hn as (v' & p' & ns' & Hv' & Hp' & _). rewrite lookup_alter_eq, Hv in Hv'. injection Hv' as <-. done. }
      split; [|intros ->; by apply Hne]. split; [|done]. eapply named_lookup; [|exact Hn]. by rewrite lookup_alter_ne.
  - exists (upd_nl p (l1 ++ l2) nl). apply (ns_ok_clear (vns l) (nspaces l)); try done.
    rewrite lookup_fmap, Hw. cbn. f_equal. exact Hp.
  - apply Hc.
  - intros q v' p'. destruct (decide (q = vn)) as [->|Hne]; [|rewrite lookup_alter_ne by done; apply Hc].
    rewrite lookup_alter_eq, Hv. by intros [= <-].
Qed.

Lemma ns_ok_sort V V' N N' nl vn p :
  ns_ok (Some vn) V N nl -> (vn_ns <$> V) !! vn = Some (Some p) -> is_Some (N !! p) -> same_but p N N' ->
  ends_are N' p (Some vn) (last (vn :: nl p)) ->
  vn_nspace <$> V' = at_prev (set_prev (Some vn)) (head (nl p)) (<[vn := VnLink None (head (nl p))]> (vn_nspace <$> V)) ->
  vn_ns <$> V' = vn_ns <$> V -> ns_ok None V' N' (upd_nl p (vn :: nl p) nl).
Proof.
  intros [N1 N2 N3] Hv Hp Hsb (ns & Hns & He1 & He2) Elk Ens.
  assert (forall q, is_Some (N' !! q) <-> is_Some (N !! q)) as Hdom by (intros q; by apply (same_but_dom p)). destruct Hsb as [Hs1 Hs2].
  assert (forall q, is_Some (N !! q) -> vn ∉ nl q) as Hout by (intros q Hq [_ Hu]%N3; done).
  split.
  - intros q ns' Hq. unfold upd_nl. destruct (decide (q = p)) as [->|Hne]; [by simplify_eq|]. apply N1. by rewrite <- Hs2.
  - intros q Hq%Hdom. rewrite Elk. unfold upd_nl. destruct (decide (q = p)) as [->|Hne]; [apply link_head; [by apply N2|by apply Hout]|].
    apply (linked_frame (vn_nspace <$> V)); [by apply N2|]. intros r Hr. rewrite at_prev_ne.
    + rewrite lookup_insert_ne; [done|]. intros ->. by apply (Hout q).
    + intros E%head_in. apply N3 in E as [E _], Hr as [Hr _]; [|done..]. congruence.
  - intros q r Hq%Hdom. rewrite Ens. unfold upd_nl. destruct (decide (q = p)) as [->|Hne].
    + rewrite elem_of_cons, N3 by done. split; [intros [->|[H _]]; by split|]. intros [H _].
      destruct (decide (r = vn)) as [|Hr]; [by left|right; split; [done|congruence]].
    + rewrite N3 by done. split; [intros [H _]; by split|]. intros [H _]. split; [done|]. intros [= <-]. congruence.
Qed.

(** What stays when a vnode is sorted in. *)
Definition like (l l' : layer) : Prop :=
  nstab l' = nstab l /\ vnlock l' = vnlock l /\ usdvnnum l' = usdvnnum l /\ kern l' = kern l.
Lemma kept_like l l' : kept l l' -> like l l'.
Proof. unfold kept, like. tauto. Qed.
Lemma like_trans a b c : like a b -> like b c -> like a c.
Proof. unfold like. intros (A1&A2&A3&A4) (B1&B2&B3&B4). rewrite B1, B2, B3, B4. done. Qed.

Section sorting.
Context {X : Type} (x_host : X -> host) (x_set_host : host -> X -> X).

Lemma in_layer_wp {A} (m : M layer A) (Q : A -> kstate -> Prop) l (x : X) :
  wp m (fun a l' => Q a (KS l' x)) l -> wp (in_layer m) Q (KS l x).
Proof. intros H. unfold in_layer. wp_step. exact H. Qed.

Lemma sort_core vn l x B NB v p ns (Q : Z -> kstate -> Prop) :
  core (Some vn) l B NB -> B !! vn = Some v -> vn_ns v = Some p -> NB !! p = Some ns ->
  (forall q, named B NB q (nsid ns) (vnid v) -> q = vn) ->
  allocated (skiplist l) (x_host x) -> no_oom (x_host x) ->
  (forall l' h, core None l' B NB -> like l l' -> allocated (skiplist l') h -> no_oom h -> h_brk (x_host x) <= h_brk h ->
    Q 0 (KS l' (x_set_host h x))) ->
  wp (sort_vnode x_host x_set_host vn) Q (KS l x).
Proof.
  intros Hc Hv Hp Hns Huniq Hal Hoom HQ. destruct (core_vn _ _ _ _ _ _ Hc Hv) as (w & Hw & ->).
  destruct (core_nsp _ _ _ _ _ _ Hc Hns) as (m & Hm & ->). pose proof (co_skip _ _ _ _ Hc) as [ks [Hh Hd Hk]].
  destruct (co_ns _ _ _ _ Hc) as [nl Hok]. pose proof (nk_ends _ _ _ _ Hok p m Hm) as [Eh Et].
  set (key := VKey (vnid (body w)) (nsid (nbody m)) vn).
  unfold sort_vnode. wp_step. apply in_layer_wp. eapply vkey_of_wp; [done..|]. fold key.
  wp_step. apply wp_zoom. cbn [k_layer k_ext]. eapply wp_mono; [by apply (insert_spec compare_vnode _ ks)|].
  intros r [S' h] (Hal' & Hfl & Hbrk & Hoom' & Hr). cbn [fst snd] in *.
  assert (StronglySorted (key_order compare_vnode false) ks) as Hss.
  { destruct Hh as [ps Hh]. pose proof (so_sorted _ _ _ _ Hh) as Hs. by rewrite Hd in Hs. }
  destruct Hr as [(_ & _ & (k & Hin & Ek) & _)|[(_ & _ & Ho)|(-> & Hh' & _)]].
  - exfalso. apply Hk in Hin as [Hn Hu]. apply compare_vnode_0 in Ek as [E1 E2]. cbn in E1, E2. rewrite E1, E2 in Hn.
    apply Hu. f_equal. symmetry. by apply Huniq.
  - unfold no_oom in Hoom. by rewrite Hoom in Ho.
  - cbn [Z.eqb]. apply in_layer_wp. cbn [k_layer].
    assert (set_skiplist S' l = st (vns l) (lists l) (nspaces l) (set_skiplist S' l)) as -> by done.
    wp_step. apply (get_vn_wp vn w); [done|]. change (vn_ns w) with (vn_ns (body w)). rewrite Hp. wp_step. wp_step.
    wp_step. apply (get_ns_wp p m); [done|]. rewrite Eh.
    wp_step. apply upd_vn_nspace_wp; [by exists w|].
    wp_step. eapply (ns_neighbour_wp _ _ _ p (head (nl p)) (last (nl p)) (nspaces l)); [|by exists m|done|done|].
    { intros q Hq%head_in. apply lookup_alter_is_Some. apply (nk_in _ _ _ _ Hok p q ltac:(by exists m)) in Hq as [Hq _].
      rewrite lookup_fmap in Hq. by destruct (vns l !! q). }
    intros N1 Hs1 He1. cbn [l_head l_tail set_tail] in He1.
    assert (ends_are N1 p (head (nl p)) (last (vn :: nl p))) as He1'.
    { destruct (nl p) as [|a k]; [exact He1|]. rewrite last_cons_cons. exact He1. }
    wp_step. eapply (upd_ns_vnodes_wp p _ _ _ (nspaces l)); [exact He1'|exact Hs1| |done].
    intros N2 He2 Hs2. cbn [l_head l_tail set_head] in He2. wp_step.
    set (V' := alter_opt _ _ _).
    assert (body <$> V' = B) as HB' by (unfold V'; rewrite alter_body_same, fmap_alter_same by done; apply Hc).
    apply HQ; [|by unfold like|exact Hal'|by apply Hoom'|done].
    split; cbn; [done| | | | |apply Hc|apply Hc].
    + destruct Hs2 as [-> _]. apply Hc.
    + destruct (co_lists _ _ _ _ Hc) as [ls [L1 L2 L3 L4 L5]]. exists ls.
      assert (inlist <$> V' = inlist <$> vns l) as E1 by (unfold V'; by rewrite alter_opt_same, fmap_alter_same).
      assert (vn_list <$> V' = vn_list <$> vns l) as E2 by (unfold V'; by rewrite alter_opt_same, fmap_alter_same).
      by split; rewrite ?E1, ?E2.
    + exists (below compare_vnode key ks ++ key :: above compare_vnode key ks). split; [done|unfold allows_dup; by rewrite Hfl|].
      intros k. rewrite (insert_key_in compare_vnode ks key k Hss), Hk. split.
      * intros [->|[Hn _]]; [|by split]. split; [|done]. by exists (body w), p, (nbody m).
      * intros [Hn _]. destruct (decide (k_vn k = vn)) as [Ek|Hne]; [left|right; split; [done|congruence]].
        destruct Hn as (v' & p' & ns' & Hv' & Hp' & Hns' & E1 & E2). destruct k as [k1 k2 k3]. cbn [k_vn k_nsid k_vnid] in *. subst k3.
        assert (v' = body w) as -> by congruence. assert (p' = p) as -> by congruence. subst key. congruence.
    + exists (upd_nl p (vn :: nl p) nl). apply (ns_ok_sort (vns l) _ (nspaces l)); try done.
      * rewrite lookup_fmap, Hw. cbn. f_equal. exact Hp.
      * unfold V'. rewrite alter_opt_nspace. f_equal. apply map_eq. intros i. rewrite lookup_fmap.
        destruct (decide (i = vn)) as [->|Hne]; [by rewrite lookup_alter_eq, Hw, lookup_insert_eq|].
        by rewrite lookup_alter_ne, lookup_insert_ne, lookup_fmap.
      * unfold V'. by rewrite alter_opt_same, fmap_alter_same.
Qed.
End sorting.
