(* ===== verification/VnodeStep.v ===== *)
(** * VnodeStep: what each operation of the vnode layer does (kernel.c)

    Over the invariant of VnodeInv.v: the vnodes at rest are free, used or
    locked as their counts say, and the vnodes in memory are a table of
    entries.  While an operation works on a vnode it is in its hands ([t]) and
    neither at rest nor in the table. *)

From stdpp Require Import sorting.
From S2P Require Import Prelude Bytes Host SkipList Kernel Links Vnode VnodeLists VnodeInv.
Local Open Scope Z_scope.

(** A vnode in memory as its users see it, and where it is. *)
Record entry := Entry { e_refs : Z; e_removed : bool; e_data : option Z; e_mounted : option Z; e_at : Z }.
Definition entry_of (q : Z) (v : vnode) : entry := Entry (rcnt v) (vn_remove v) (vdata v) (mounted v) q.
Abbreviation vkeys := (Z * Z)%type.
Abbreviation table := (gmap vkeys entry).

Definition resting (v : vnode) : Prop :=
  vn_busy v = false /\
  (inlist v = FREE_LIST /\ (vn_ns v = None /\ mounted v = None) /\ rcnt v = 0 /\ vn_remove v = false \/
   inlist v = USED_LIST /\ is_Some (vn_ns v) /\ rcnt v = 0 /\ vn_remove v = false \/
   inlist v = LOCKED_LIST /\ is_Some (vn_ns v) /\ 0 < rcnt v).

Definition all_resting (t : option Z) (B : gmap Z vnode) : Prop := forall q v, B !! q = Some v -> t <> Some q -> resting v.

Definition shows (t : option Z) (B : gmap Z vnode) (NB : gmap Z nspace) (A : table) : Prop :=
  forall k e, A !! k = Some e <-> exists q v, B !! q = Some v /\ t <> Some q /\ entry_of q v = e /\ named B NB q k.1 k.2.

(** ** Taking a vnode in hand and putting it back *)

Lemma all_resting_insert q v B : all_resting (Some q) B -> all_resting (Some q) (<[q := v]> B).
Proof. intros H r w Hr Hne. rewrite lookup_insert_ne in Hr by congruence. by apply (H r). Qed.
Lemma all_resting_focus q B : all_resting None B -> all_resting (Some q) B.
Proof. intros H r w Hr _. by apply (H r). Qed.
Lemma all_resting_back q v B : all_resting (Some q) B -> B !! q = Some v -> resting v -> all_resting None B.
Proof. intros H Hq Hv r w Hr _. destruct (decide (r = q)) as [->|Hne]; [congruence|]. apply (H r w Hr). congruence. Qed.

Lemma named_insert_ne B NB q v r id num : r <> q -> named (<[q := v]> B) NB r id num <-> named B NB r id num.
Proof. intros Hne. unfold named. rewrite lookup_insert_ne by done. done. Qed.

Lemma shows_insert q v B NB A : shows (Some q) B NB A -> shows (Some q) (<[q := v]> B) NB A.
Proof.
  intros H k e. rewrite (H k e). split; intros (r & w & Hr & Hne & He & Hn); exists r, w.
  - rewrite lookup_insert_ne, named_insert_ne by congruence. done.
  - rewrite lookup_insert_ne, named_insert_ne in * by congruence. done.
Qed.

Lemma shows_free q v B NB A : B !! q = Some v -> vn_ns v = None -> shows None B NB A <-> shows (Some q) B NB A.
Proof.
  intros Hq Hv.
  assert (forall k e, (exists r w, B !! r = Some w /\ None <> Some r /\ entry_of r w = e /\ named B NB r k.1 k.2) <->
    (exists r w, B !! r = Some w /\ Some q <> Some r /\ entry_of r w = e /\ named B NB r k.1 k.2)) as E.
  { intros k e. split; intros (r & w & Hr & Hne & He & Hn); exists r, w; split_and!; try done. intros [= <-].
    destruct Hn as (x & p & ns & Hx & Hp & _). congruence. }
  split; intros H k e; [by rewrite <- E|by rewrite E].
Qed.

Section unique.
Context (l : layer) (B : gmap Z vnode) (NB : gmap Z nspace) (A : table) (Hc : core None l B NB).

Lemma shows_lookup q v id num : shows None B NB A -> B !! q = Some v -> named B NB q id num -> A !! (id, num) = Some (entry_of q v).
Proof. intros H Hq Hn. apply H. by exists q, v. Qed.

Lemma shows_find k e : shows None B NB A -> A !! k = Some e -> exists q v, B !! q = Some v /\ entry_of q v = e /\ named B NB q k.1 k.2.
Proof. intros H Hk. apply H in Hk as (q & v & ? & _ & ? & ?). eauto. Qed.

Lemma shows_focus q v id num :
  shows None B NB A -> B !! q = Some v -> named B NB q id num -> shows (Some q) B NB (delete (id, num) A).
Proof.
  intros H Hq Hn k e. rewrite lookup_delete_Some, (H k e). split.
  - intros (Hne & r & w & Hr & _ & He & Hnr). exists r, w. split_and!; try done. intros [= <-].
    destruct Hn as (x & p & ns & Hx & Hp & Hns & E1 & E2), Hnr as (y & p' & ns' & Hy & Hp' & Hns' & E1' & E2').
    assert (y = x) as -> by congruence. assert (p' = p) as -> by congruence. destruct k; cbn in *. congruence.
  - intros (r & w & Hr & Hne & He & Hnr). split; [|by exists r, w]. intros <-. cbn in Hnr.
    apply Hne. f_equal. by apply (named_unique None l B NB q r id num).
Qed.
End unique.

Lemma shows_back q v id num B NB A :
  shows (Some q) B NB A -> B !! q = Some v -> named B NB q id num -> (forall r, named B NB r id num -> r = q) ->
  shows None B NB (<[(id, num) := entry_of q v]> A).
Proof.
  intros H Hq Hn Hu k e. rewrite lookup_insert_Some, (H k e). split.
  - intros [[<- <-]|(Hne & r & w & Hr & _ & He & Hnr)]; [by exists q, v|by exists r, w].
  - intros (r & w & Hr & _ & He & Hnr). destruct (decide (r = q)) as [->|Hne].
    + left. assert (w = v) as -> by congruence. split; [|done].
      destruct Hn as (x & p & ns & Hx & Hp & Hns & E1 & E2), Hnr as (y & p' & ns' & Hy & Hp' & Hns' & E1' & E2').
      assert (y = x) as -> by congruence. assert (p' = p) as -> by congruence. destruct k; cbn in *. congruence.
    + right. split; [intros <-; by apply Hne, Hu|]. exists r, w. split_and!; try done. congruence.
Qed.

Lemma core_focus l B NB q v : core None l B NB -> B !! q = Some v -> vn_ns v = None -> core (Some q) l B NB.
Proof.
  intros [C1 C2 C3 [ks [K1 K2 K3]] [nl [N1 N2 N3]] C6 C7] Hq Hv. split; try done.
  - exists ks. split; [done..|]. intros k. rewrite K3. split; intros [Hn _]; (split; [done|]); [|done].
    intros [= ->]. destruct Hn as (x & p & ns & Hx & Hp & _). congruence.
  - exists nl. split; [done..|]. intros p r Hp. rewrite N3 by done. split; intros [Hn _]; (split; [done|]); [|done].
    intros [= <-]. rewrite <- C1, lookup_fmap in Hq. rewrite lookup_fmap in Hn. destruct (vns l !! q); [|done].
    injection Hq as <-. cbn in *. congruence.
Qed.

Lemma resting_busy v : resting v -> vn_busy v = false.
Proof. by intros [H _]. Qed.
Lemma resting_named v : resting v -> is_Some (vn_ns v) -> vn_remove v = true \/ rcnt v <> 0 -> 0 < rcnt v /\ inlist v = LOCKED_LIST.
Proof. intros [_ [(_&[E _]&_)|[(_&_&E1&E2)|(E&_&Hr)]]] [p Hp] Ho; [congruence| |by split]. destruct Ho; congruence. Qed.

(** ** The whole state *)

(** A vnode as its file system knows it: the address of the operations, the
    data of the name space, the number. *)
Abbreviation fsname := (Z * Z * Z)%type.

(** What the vnode layer and the file systems below agree on. *)
Record contract (X : Type) := Contract {
  fc_good : X -> Prop;                          (** between two calls *)
  fc_space : Z -> Z -> Prop;                    (** operations and data of a mounted name space *)
  fc_owns : X -> fsname -> option Z -> Prop;    (** the data a file system has for a vnode *)
  fc_calls : bool -> Prop;                      (** on whose behalf calls may be made *)
  fc_quiet : X -> X -> Prop;                    (** what reading and writing vnodes may do *)
  fc_order : PreOrder fc_quiet;
  fc_ops : gmap Z Z;                            (** where the operations of a file system are *)
  fc_root : option Z;                           (** the vnode of the root *)
}.
Arguments fc_good {X}.
Arguments fc_space {X}.
Arguments fc_owns {X}.
Arguments fc_calls {X}.
Arguments fc_quiet {X}.
Arguments fc_order {X}.
Arguments fc_ops {X}.
Arguments fc_root {X}.

(** A call about [o] leaves a good state, gives back no memory, and leaves the
    data of every other vnode; unless it removes one ([rm]) it is quiet. *)
Definition moves {X} (x_host : X -> host) (fc : contract X) (rm : bool) (o : fsname) (x x' : X) : Prop :=
  fc_good fc x' /\ h_brk (x_host x) <= h_brk (x_host x') /\ (forall o' d, o' <> o -> fc_owns fc x o' d -> fc_owns fc x' o' d) /\
  (rm = false -> fc_quiet fc x x').

(** What of the kernel's other variables is fixed. *)
Definition fixed_of (k : statics) : gmap Z Z * option Z := (fs_vops <$> fsystems k, rootvn k).

(** Their operations return, called with the data they gave out themselves, on
    behalf of a file system always, on behalf of the kernel when [fc_calls]
    says so: they may then take locks a file system would hold. *)
Class FileSystems {X : Type} (x_host : X -> host) (x_set_host : host -> X -> X) (fs_table : Z -> fs_ops X) (fc : contract X) := {
  fs_host_set h x : x_host (x_set_host h x) = h;
  fs_memory x : fc_good fc x -> no_oom (x_host x);
  fs_set_good x h : fc_good fc x -> no_oom h -> h_brk (x_host x) <= h_brk h -> fc_good fc (x_set_host h x);
  fs_set_owns x h o d : fc_owns fc x o d -> fc_owns fc (x_set_host h x) o d;
  fs_set_quiet x h : h_brk (x_host x) <= h_brk h -> fc_quiet fc x (x_set_host h x);
  fs_reentrant : fc_calls fc true;
  fs_read a d num r x : fc_calls fc r -> fc_good fc x -> fc_space fc a d ->
    wp (op_read_vnode (fs_table a) d num r)
      (fun r x' => moves x_host fc false (a, d, num) x x' /\ (r.1 = 0 -> fc_owns fc x' (a, d, num) r.2)) x;
  fs_release a d num node r x : fc_calls fc r -> fc_good fc x -> fc_space fc a d -> fc_owns fc x (a, d, num) node ->
    wp (op_release_vnode (fs_table a) d node r) (fun _ x' => moves x_host fc false (a, d, num) x x') x;
  fs_remove a d num node r x : fc_calls fc r -> fc_good fc x -> fc_space fc a d -> fc_owns fc x (a, d, num) node ->
    wp (op_remove_vnode (fs_table a) d node r) (fun _ x' => moves x_host fc true (a, d, num) x x') x;
}.

(** The name spaces are mounted, each with data of its own. *)
Record spaces_ok {X} (fc : contract X) (NB : gmap Z nspace) : Prop := {
  sp_mounted p ns : NB !! p = Some ns -> exists a, fc_ops fc !! ns_fs ns = Some a /\ fc_space fc a (ns_data ns);
  sp_apart p p' ns ns' : NB !! p = Some ns -> NB !! p' = Some ns' ->
    fc_ops fc !! ns_fs ns = fc_ops fc !! ns_fs ns' -> ns_data ns = ns_data ns' -> p = p';
}.

Definition owner_of {X} (fc : contract X) (NB : gmap Z nspace) (v : vnode) : option fsname :=
  p ← vn_ns v; ns ← NB !! p; a ← fc_ops fc !! ns_fs ns; Some (a, ns_data ns, vnid v).

(** The file system's name of an entry of the table. *)
Definition fs_name {X} (fc : contract X) (NB : gmap Z nspace) (k : vkeys) (o : fsname) : Prop :=
  exists p ns a, NB !! p = Some ns /\ nsid ns = k.1 /\ fc_ops fc !! ns_fs ns = Some a /\ o = (a, ns_data ns, k.2).

Lemma owner_name {X} (fc : contract X) NB B q v id num o :
  B !! q = Some v -> named B NB q id num -> owner_of fc NB v = Some o -> fs_name fc NB (id, num) o.
Proof.
  intros Hq (w & p & ns & Hw & Hp & Hns & E1 & E2) Ho. assert (w = v) as -> by congruence. unfold owner_of in Ho.
  rewrite Hp in Ho. cbn in Ho. rewrite Hns in Ho. cbn in Ho. destruct (fc_ops fc !! ns_fs ns) as [a|] eqn:Ea; [|done].
  injection Ho as <-. exists p, ns, a. cbn. split_and!; [done|done|done|congruence].
Qed.

Lemma fs_name_inj {X} (fc : contract X) NB k k' o : spaces_ok fc NB -> fs_name fc NB k o -> fs_name fc NB k' o -> k = k'.
Proof.
  intros Hs (p & ns & a & H1 & H2 & H3 & ->) (p' & ns' & a' & G1 & G2 & G3 & [= -> E1 E2]).
  assert (p = p') as <- by (apply (sp_apart _ _ Hs p p' ns ns'); [done|done|congruence|done]).
  destruct k, k'; cbn in *. congruence.
Qed.

Lemma owner_at {X} (fc : contract X) NB v p ns a :
  vn_ns v = Some p -> NB !! p = Some ns -> fc_ops fc !! ns_fs ns = Some a -> owner_of fc NB v = Some (a, ns_data ns, vnid v).
Proof. intros Hp Hns Ha. unfold owner_of. rewrite Hp. cbn. rewrite Hns. cbn. by rewrite Ha. Qed.

(** From [x] to [x'] the file systems have only dealt with vnodes of [K]. *)
Definition framed {X} (x_host : X -> host) (fc : contract X) (NB : gmap Z nspace) (rm : bool) (K : vkeys -> Prop) (x x' : X) : Prop :=
  fc_good fc x' /\ h_brk (x_host x) <= h_brk (x_host x') /\
  (forall o d, (forall k, fs_name fc NB k o -> ~ K k) -> fc_owns fc x o d -> fc_owns fc x' o d) /\ (rm = false -> fc_quiet fc x x').

Lemma framed_refl {X} (x_host : X -> host) fc NB rm K x : fc_good fc x -> framed x_host fc NB rm K x x.
Proof. intros Hg. split; [done|]. split; [done|]. split; [done|]. intros _. apply fc_order. Qed.
Lemma framed_trans {X} (x_host : X -> host) fc NB rm K x y z :
  framed x_host fc NB rm K x y -> framed x_host fc NB rm K y z -> framed x_host fc NB rm K x z.
Proof.
  intros (A1 & A2 & A3 & A4) (B1 & B2 & B3 & B4). split; [done|]. split; [lia|]. split; [by eauto|]. intros E.
  eapply (@PreOrder_Transitive _ _ (fc_order fc)); [by apply A4|by apply B4].
Qed.
Lemma framed_mono {X} (x_host : X -> host) fc NB rm rm' (K K' : vkeys -> Prop) x y :
  (forall k, K k -> K' k) -> (rm' = false -> rm = false) -> framed x_host fc NB rm K x y -> framed x_host fc NB rm' K' x y.
Proof.
  intros HK Hr (A1 & A2 & A3 & A4). split; [done|]. split; [done|]. split; [|by eauto]. intros o d Ho. apply A3. intros k Hk Hk'. by apply (Ho k Hk), HK.
Qed.
Lemma framed_moves {X} (x_host : X -> host) fc NB rm (K : vkeys -> Prop) k o x y :
  fs_name fc NB k o -> K k -> moves x_host fc rm o x y -> framed x_host fc NB rm K x y.
Proof. intros Ho Hk (A1 & A2 & A3 & A4). split; [done|]. split; [done|]. split; [|done]. intros o' d Ho'. apply A3. intros ->. by apply (Ho' k). Qed.

Section steps.
Context {X : Type} (x_host : X -> host) (x_set_host : host -> X -> X) (fs_table : Z -> fs_ops X) (fc : contract X).
Context `{!FileSystems x_host x_set_host fs_table fc}.
Context (NB : gmap Z nspace).

(** [u]: named but not sorted in; [t]: in hand; [c]: the count of the lock. *)
Record inv (u t : option Z) (c : Z) (s : kstate (X := X)) (B : gmap Z vnode) (A : table) : Prop := {
  iv_core : core u (k_layer s) B NB;
  iv_rest : all_resting t B;
  iv_shows : shows t B NB A;
  iv_alloc : allocated (skiplist (k_layer s)) (x_host (k_ext s));
  iv_good : fc_good fc (k_ext s);
  iv_usd : 0 <= usdvnnum (k_layer s);
  iv_fixed : fixed_of (kern (k_layer s)) = (fc_ops fc, fc_root fc);
  iv_lock : l_c (vnlock (k_layer s)) = c;
  iv_spaces : spaces_ok fc NB;
  iv_owns q v o : B !! q = Some v -> t <> Some q -> owner_of fc NB v = Some o -> fc_owns fc (k_ext s) o (vdata v);
}.

Lemma iv_fs u t c s B A : inv u t c s B A -> fs_vops <$> fsystems (kern (k_layer s)) = fc_ops fc.
Proof. intros Hi. by injection (iv_fixed _ _ _ _ _ _ Hi). Qed.
Lemma iv_root u t c s B A : inv u t c s B A -> rootvn (kern (k_layer s)) = fc_root fc.
Proof. intros Hi. by injection (iv_fixed _ _ _ _ _ _ Hi). Qed.

Lemma inv_like u t c s B A u' t' l' B' A' :
  inv u t c s B A -> core u' l' B' NB -> kept (k_layer s) l' -> all_resting t' B' -> shows t' B' NB A' ->
  (forall q v, B' !! q = Some v -> t' <> Some q -> B !! q = Some v /\ t <> Some q) ->
  inv u' t' c (KS l' (k_ext s)) B' A'.
Proof.
  intros [I1 I2 I3 I4 I5 I6 I7 I8 I9 I10] Hc (K1 & K2 & K3 & K4 & K5) Hr Hs Ho.
  split; cbn; rewrite ?K2, ?K3, ?K4; try done.
  - intros p Hp. apply I4. by apply K5.
  - intros q v o Hq Ht. destruct (Ho q v Hq Ht) as [Hq' Ht']. by apply I10 with q.
Qed.

Lemma others_insert q w (B : gmap Z vnode) :
  forall r v, <[q := w]> B !! r = Some v -> Some q <> Some r -> B !! r = Some v /\ Some q <> Some r.
Proof. intros r v Hr Hne. split; [|done]. by rewrite lookup_insert_ne in Hr by congruence. Qed.

Lemma LOCK_vn_wp u t s B A (Q : unit -> kstate -> Prop) :
  inv u t 1 s B A -> (forall s', inv u t 0 s' B A -> k_ext s' = k_ext s -> Q tt s') -> wp LOCK_vn Q s.
Proof.
  intros [[C1 C2 C3 C4 C5 C6 C7] I2 I3 I4 I5 I6 I7 I8 I9 I10] HQ. unfold LOCK_vn, in_layer. wp_step. wp_step.
  eapply wp_mono; [by apply LOCK_wp|]. cbn beta. intros [] k ->. apply HQ; [|done]. by split.
Qed.
Lemma UNLOCK_vn_wp u t s B A (Q : unit -> kstate -> Prop) :
  inv u t 0 s B A -> (forall s', inv u t 1 s' B A -> k_ext s' = k_ext s -> Q tt s') -> wp UNLOCK_vn Q s.
Proof.
  intros [[C1 C2 C3 C4 C5 C6 C7] I2 I3 I4 I5 I6 I7 I8 I9 I10] HQ. unfold UNLOCK_vn, in_layer. wp_step. wp_step.
  eapply wp_mono; [by apply UNLOCK_wp|]. cbn beta. intros [] k ->. apply HQ; [|done]. by split.
Qed.

Lemma alter_is_insert {V} (f : V -> V) q v (B : gmap Z V) : B !! q = Some v -> alter f q B = <[q := f v]> B.
Proof.
  intros H. apply map_eq. intros i. destruct (decide (i = q)) as [->|Hne]; [by rewrite lookup_alter_eq, lookup_insert_eq, H|].
  by rewrite lookup_alter_ne, lookup_insert_ne.
Qed.

(** The operations on the vnode in hand. *)
Lemma upd_wp u q f v c s B A (Q : unit -> kstate -> Prop) :
  inv u (Some q) c s B A -> B !! q = Some v -> plain f -> (u = Some q \/ forall w, name_of (f w) = name_of w) ->
  (forall p, vn_ns (f v) = Some p -> is_Some (NB !! p)) ->
  (forall s', inv u (Some q) c s' (<[q := f v]> B) A -> k_ext s' = k_ext s -> Q tt s') -> wp (in_layer (upd_vn q f)) Q s.
Proof.
  intros Hi Hq Hf Hu Hn HQ. destruct s as [l x]. apply in_layer_wp. eapply (upd_core u l B NB); try done; [apply Hi|].
  intros l' Hc Hk. rewrite (alter_is_insert f q v) in Hc by done. apply HQ; [|done]. apply (inv_like u (Some q) c (KS l x) B A); try done.
  - apply all_resting_insert, Hi.
  - apply shows_insert, Hi.
  - apply others_insert.
Qed.

Lemma move_wp u q k v c s B A (Q : unit -> kstate -> Prop) :
  inv u (Some q) c s B A -> B !! q = Some v -> 0 <= k < 3 ->
  (forall s', inv u (Some q) c s' (<[q := v_set_inlist k v]> B) A -> k_ext s' = k_ext s -> Q tt s') ->
  wp (in_layer (move_vnode q k)) Q s.
Proof.
  intros Hi Hq Hk HQ. destruct s as [l x]. apply in_layer_wp. eapply (move_core u l B NB); [apply Hi|by exists v|done|].
  intros l' Hc Hkp. rewrite (alter_is_insert _ q v) in Hc by done. apply HQ; [|done]. apply (inv_like u (Some q) c (KS l x) B A); try done.
  - apply all_resting_insert, Hi.
  - apply shows_insert, Hi.
  - apply others_insert.
Qed.

Lemma clear_wp q v p c s B A (Q : unit -> kstate -> Prop) :
  inv None (Some q) c s B A -> B !! q = Some v -> vn_ns v = Some p ->
  (forall s', inv None (Some q) c s' (<[q := cleared v]> B) A -> k_ext s' = k_ext s -> Q tt s') ->
  wp (in_layer (clear_vnode q)) Q s.
Proof.
  intros Hi Hq Hp HQ. destruct s as [l x]. apply in_layer_wp. eapply (clear_core l B NB); [apply Hi|done|done|].
  intros l' Hc Hkp. rewrite (alter_is_insert _ q v) in Hc by done. apply HQ; [|done]. apply (inv_like None (Some q) c (KS l x) B A); try done.
  - apply all_resting_insert, Hi.
  - apply shows_insert, Hi.
  - apply others_insert.
Qed.

Lemma get_vn_k q u t c s B A v (Q : vnode -> kstate -> Prop) :
  inv u t c s B A -> B !! q = Some v -> (forall w, v = body w -> Q w s) -> wp (in_layer (get_vn q)) Q s.
Proof.
  intros Hi Hq HQ. destruct s as [l x]. destruct (core_vn _ _ _ _ _ _ (iv_core _ _ _ _ _ _ Hi) Hq) as (w & Hw & ->).
  apply in_layer_wp. apply (get_vn_wp q w); [done|]. by apply HQ.
Qed.

Lemma steal_wp k c s B A (Q : option Z -> kstate -> Prop) :
  inv None None c s B A -> 0 <= k < 3 ->
  (forall q v s', B !! q = Some v -> inlist v = k -> resting v -> core None (k_layer s') (<[q := v_set_inlist LOCKED_LIST v]> B) NB ->
    (forall A', shows (Some q) B NB A' -> inv None (Some q) c s' (<[q := v_set_inlist LOCKED_LIST v]> B) A') ->
    k_ext s' = k_ext s -> Q (Some q) s') ->
  ((forall q v, B !! q = Some v -> inlist v <> k) -> Q None s) -> wp (in_layer (steal_vnode k)) Q s.
Proof.
  intros Hi Hk H1 H2. destruct s as [l x]. apply in_layer_wp. eapply (steal_core None l B NB); [apply Hi|done| |done].
  intros q v l' Hq Hl Hc Hkp. rewrite (alter_is_insert _ q v) in Hc by done.
  apply (H1 q v); try done; [by apply (iv_rest _ _ _ _ _ _ Hi q v)|]. intros A' HA'.
  apply (inv_like None None c (KS l x) B A); try done.
  - apply all_resting_insert, all_resting_focus, Hi.
  - by apply shows_insert.
  - intros r w Hr Hne. split; [|done]. by apply (others_insert q (v_set_inlist LOCKED_LIST v) B).
Qed.

(** The operations of the file system of a vnode. *)
Lemma vn_fs_wp u t c s B A q v p ns (Q : fs_ops X * Z -> kstate -> Prop) :
  inv u t c s B A -> B !! q = Some v -> vn_ns v = Some p -> NB !! p = Some ns ->
  (forall a, fc_ops fc !! ns_fs ns = Some a -> fc_space fc a (ns_data ns) -> owner_of fc NB v = Some (a, ns_data ns, vnid v) ->
     Q (fs_table a, ns_data ns) s) -> wp (in_layer (vn_fs fs_table q)) Q s.
Proof.
  intros Hi Hq Hp Hns HQ. destruct s as [l x]. destruct (core_vn _ _ _ _ _ _ (iv_core _ _ _ _ _ _ Hi) Hq) as (w & Hw & ->).
  destruct (core_nsp _ _ _ _ _ _ (iv_core _ _ _ _ _ _ Hi) Hns) as (m & Hm & ->).
  destruct (sp_mounted _ _ (iv_spaces _ _ _ _ _ _ Hi) p _ Hns) as (a & Ha & Hsp).
  pose proof (owner_at fc NB (body w) p (nbody m) a Hp Hns Ha) as Ho. pose proof Ha as Ha'. rewrite <- (iv_fs _ _ _ _ _ _ Hi), lookup_fmap in Ha'.
  cbn in Ha', Hp. destruct (fsystems (kern l) !! ns_fs m) as [f|] eqn:Hf; [|done]. injection Ha' as Ef.
  apply in_layer_wp. unfold vn_fs. wp_step. apply (get_vn_wp q w); [done|]. rewrite Hp. wp_step. wp_step.
  wp_step. apply (get_ns_wp p m); [done|]. wp_step. unfold get_fs. wp_step. wp_step. rewrite Hf. wp_step. wp_step. rewrite Ef. by apply HQ.
Qed.

(** Two vnodes are not the same to the file systems. *)
Lemma owner_unique t c s B A q v r w o :
  inv None t c s B A -> B !! q = Some v -> B !! r = Some w -> owner_of fc NB v = Some o -> owner_of fc NB w = Some o -> q = r.
Proof.
  intros Hi Hq Hr Hv Hw. unfold owner_of in Hv, Hw.
  destruct (vn_ns v) as [p|] eqn:Ep; [|done]. destruct (vn_ns w) as [p'|] eqn:Ep'; [|done]. cbn in Hv, Hw.
  destruct (NB !! p) as [ns|] eqn:En; [|done]. destruct (NB !! p') as [ns'|] eqn:En'; [|done]. cbn in Hv, Hw.
  destruct (fc_ops fc !! ns_fs ns) as [a|] eqn:Ea; [|done]. destruct (fc_ops fc !! ns_fs ns') as [a'|] eqn:Ea'; [|done].
  cbn in Hv, Hw. injection Hv as <-. injection Hw as E1 E2 E3.
  assert (p = p') as -> by (apply (sp_apart _ _ (iv_spaces _ _ _ _ _ _ Hi) p p' ns ns'); [done|done|congruence|done]).
  apply (named_unique None (k_layer s) B NB q r (nsid ns) (vnid v)); [apply Hi| | |done|done].
  - by exists v, p', ns.
  - exists w, p', ns'. split_and!; try done. congruence.
Qed.

(** A call about the vnode in hand. *)
Lemma in_ext_wp {R} rm (m : M X R) (P : R -> X -> Prop) q v o c s B A (Q : R -> kstate -> Prop) :
  inv None (Some q) c s B A -> B !! q = Some v -> owner_of fc NB v = Some o ->
  wp m (fun r x' => moves x_host fc rm o (k_ext s) x' /\ P r x') (k_ext s) ->
  (forall r s', m (k_ext s) = Done (r, k_ext s') -> inv None (Some q) c s' B A -> moves x_host fc rm o (k_ext s) (k_ext s') -> P r (k_ext s') -> Q r s') ->
  wp (in_ext m) Q s.
Proof.
  intros Hi Hq Ho (r & x' & E & Hm & HP)%wp_done HQ. pose proof Hi as [I1 I2 I3 I4 I5 I6 I7 I8 I9 I10]. pose proof Hm as (Hg & Hb & Hk & _).
  unfold in_ext. wp_step. eapply wp_run; [exact E|].
  apply HQ; [done| |done|done]. split; cbn; try done.
  - intros p Hp. specialize (I4 p Hp). lia.
  - intros z w o' Hz Hne Ho'. apply Hk; [|by apply (I10 z)]. intros ->. apply Hne. f_equal. by apply (owner_unique _ _ _ _ _ q v z w o Hi).
Qed.
End steps.
