(* ===== verification/VnodeTable.v ===== *)
(** * VnodeTable: the vnode layer as a table of entries (kernel.c)

    [load_vnode], [get_vnode], [put_vnode], [new_vnode] and the rest, over the
    invariant of VnodeStep.v: what they answer and how the table changes. *)

From stdpp Require Import sorting.
From S2P Require Import Prelude Bytes Host SkipList Kernel Links Vnode VnodeLists VnodeInv VnodeStep.
Local Open Scope Z_scope.

Lemma plain_busy b : plain (v_set_busy b). Proof. by split. Qed.
Lemma plain_rcnt f : plain (fun v => v_set_rcnt (f (rcnt v)) v). Proof. by split. Qed.
Lemma plain_remove b : plain (v_set_remove b). Proof. by split. Qed.
Lemma plain_data d : plain (v_set_data d). Proof. by split. Qed.
Lemma plain_ns n : plain (v_set_ns n). Proof. by split. Qed.
Lemma plain_vnid n : plain (v_set_vnid n). Proof. by split. Qed.
#[export] Hint Resolve plain_busy plain_remove plain_data plain_ns plain_vnid : core.

(** An entry without references may go at any time. *)
Definition evicted (A A' : table) : Prop :=
  A' = A \/ exists k e, A !! k = Some e /\ e_refs e = 0 /\ A' = delete k A.

Lemma evicted_none A A' k : evicted A A' -> A !! k = None -> A' !! k = None.
Proof. intros [->|(k' & e & _ & _ & ->)] H; [done|]. by apply lookup_delete_None; right. Qed.

Lemma find_or_steal_S {X} (fs_table : Z -> fs_ops X) fuel id num r :
  find_or_steal fs_table (S fuel) id num r =
    (vn ← in_layer (lookup_vnode id num);
     match vn with
     | Some vn => v ← in_layer (get_vn vn); if vn_busy v then hang else mret vn
     | None =>
         vn ← in_layer (steal_vnode FREE_LIST);
         match vn with
         | Some vn => mret vn
         | None =>
             vn ← in_layer (steal_vnode USED_LIST);
             vn ← opt vn;
             _ ← flush_vnode fs_table vn r;
             _ ← in_layer (move_vnode vn FREE_LIST);
             find_or_steal fs_table fuel id num r
         end
     end).
Proof. done. Qed.

Lemma wp_assoc {S A B} (m : M S A) (n : M S B) {C} (k : B -> M S C) (Q : C -> S -> Prop) s :
  wp (b ← (_ ← m; n); k b) Q s -> wp (_ ← m; b ← n; k b) Q s.
Proof. unfold wp, mbind, M_bind. by destruct (m s) as [[a s']| |]. Qed.

Lemma classic_free (B : gmap Z vnode) :
  (exists q v, B !! q = Some v /\ inlist v = FREE_LIST) \/ (forall q v, B !! q = Some v -> inlist v <> FREE_LIST).
Proof.
  destruct (decide (map_Forall (fun _ v => inlist v <> FREE_LIST) B)) as [H|H]; [right; exact H|left].
  apply map_not_Forall in H as (q & v & Hq & Hv); [|apply _]. exists q, v. split; [done|]. by apply dec_stable.
Qed.

Section table.
Context {X : Type} (x_host : X -> host) (x_set_host : host -> X -> X) (fs_table : Z -> fs_ops X) (fc : contract X).
Context `{!FileSystems x_host x_set_host fs_table fc}.
Context (NB : gmap Z nspace).
Abbreviation kstate := (Vnode.kstate (X := X)).
Abbreviation inv := (VnodeStep.inv x_host fc NB).
Abbreviation framed := (VnodeStep.framed x_host fc NB).
Abbreviation owner_of := (VnodeStep.owner_of fc NB).
Abbreviation fs_name := (VnodeStep.fs_name fc NB).
Abbreviation named B := (VnodeInv.named B NB).

(** The data of a vnode is its file system's. *)
Definition owned (v : vnode) (x : X) : Prop := forall o, owner_of v = Some o -> fc_owns fc x o (vdata v).
(** The vnodes in memory, and one more. *)
Definition inside (A : table) (k : vkeys) : Prop := is_Some (A !! k).
Definition asked (A : table) (k0 k : vkeys) : Prop := inside A k \/ k = k0.

(** ** Putting the vnode in hand back *)

Lemma free_back q v c (s : kstate) B A :
  inv None (Some q) c s B A -> B !! q = Some v -> resting v -> vn_ns v = None -> inv None None c s B A.
Proof.
  intros [I1 I2 I3 I4 I5 I6 I7 I8 I9 I10] Hq Hr Hn. split; try done; [by apply (all_resting_back q v)|by apply (shows_free q v)|].
  intros r w o Hw _ Ho. destruct (decide (r = q)) as [->|Hne]; [|by apply (I10 r); [|congruence|]].
  assert (w = v) as -> by congruence. unfold VnodeStep.owner_of in Ho. by rewrite Hn in Ho.
Qed.
Lemma name_back q v id num c (s : kstate) B A :
  inv None (Some q) c s B A -> B !! q = Some v -> resting v -> named B q id num -> owned v (k_ext s) ->
  inv None None c s B (<[(id, num) := entry_of q v]> A).
Proof.
  intros [I1 I2 I3 I4 I5 I6 I7 I8 I9 I10] Hq Hr Hn Hown. split; try done; [by apply (all_resting_back q v)| |].
  - apply (shows_back q); try done. intros r Hr'. by apply (named_unique None (k_layer s) B NB r q id num).
  - intros r w o Hw _ Ho. destruct (decide (r = q)) as [->|Hne]; [|by apply (I10 r); [|congruence|]].
    assert (w = v) as -> by congruence. by apply Hown.
Qed.
Lemma take_up q v id num c (s : kstate) B A :
  inv None None c s B A -> B !! q = Some v -> named B q id num -> inv None (Some q) c s B (delete (id, num) A).
Proof.
  intros [I1 I2 I3 I4 I5 I6 I7 I8 I9 I10] Hq Hn. split; try done; [by apply all_resting_focus|by apply (shows_focus (k_layer s) B NB A I1 q v)|].
  intros r w o Hw _ Ho. by apply (I10 r).
Qed.
Lemma inv_owned q v u c (s : kstate) B A : inv u None c s B A -> B !! q = Some v -> owned v (k_ext s).
Proof. intros Hi Hq o Ho. by apply (iv_owns _ _ _ _ _ _ _ _ _ Hi q). Qed.
Lemma inv_framed rm K u t c (s : kstate) B A x : inv u t c s B A -> x = k_ext s -> framed rm K (k_ext s) x.
Proof. intros Hi ->. apply framed_refl, Hi. Qed.

Lemma named_at (B : gmap Z vnode) q v p : B !! q = Some v -> vn_ns v = Some p -> is_Some (NB !! p) ->
  exists ns, NB !! p = Some ns /\ named B q (nsid ns) (vnid v).
Proof. intros Hq Hp [ns Hns]. exists ns. split; [done|]. by exists v, p, ns. Qed.
Lemma named_set (B : gmap Z vnode) q v w id num : B !! q = Some v -> name_of w = name_of v -> named B q id num -> named (<[q := w]> B) q id num.
Proof.
  intros Hq E (v' & p & ns & Hv' & Hp & Hns & E1 & E2). injection E as Ea Eb. assert (v' = v) as -> by congruence.
  exists w, p, ns. rewrite lookup_insert_eq. split_and!; congruence.
Qed.

(** ** Flushing *)

Lemma flush_wp q v p (s : kstate) B A r (Q : unit -> kstate -> Prop) :
  fc_calls fc r -> inv None (Some q) 0 s B A -> B !! q = Some v -> vn_ns v = Some p -> owned v (k_ext s) ->
  (forall o s', inv None (Some q) 0 s' (<[q := cleared v]> B) A -> owner_of v = Some o -> moves x_host fc false o (k_ext s) (k_ext s') -> Q tt s') ->
  wp (flush_vnode fs_table q r) Q s.
Proof.
  intros Hcl Hi Hq Hp Hown HQ. pose proof (co_dom _ _ _ _ (iv_core _ _ _ _ _ _ _ _ _ Hi) q v p Hq Hp) as [ns Hns].
  assert (forall r, vn_ns v = Some r -> is_Some (NB !! r)) as Hdm by (intros z Hz; exists ns; congruence).
  unfold flush_vnode. wp_step. eapply (upd_wp x_host fc NB None q _ v); [done|done|done|by right|done|]. intros s1 Hi1 Hx1. wp_step.
  eapply UNLOCK_vn_wp; [done|]. intros s2 Hi2 Hx2. wp_step.
  eapply (vn_fs_wp x_host fs_table fc NB _ _ _ s2 _ _ q); [done|apply lookup_insert_eq|exact Hp|exact Hns|]. intros a Ha Hsp Ho. wp_step.
  eapply get_vn_k; [done|apply lookup_insert_eq|]. intros w Ew. wp_step.
  assert (vdata w = vdata v) as -> by exact (eq_sym (f_equal vdata Ew)).
  eapply (in_ext_wp x_host fc NB false _ (fun _ _ => True) q _ _ _ s2); [exact Hi2|apply lookup_insert_eq|exact Ho| |].
  { eapply wp_mono; [apply (fs_release a (ns_data ns) (vnid v)); [done|apply Hi2|done|]|by intros rr x' Hm; split]. rewrite Hx2, Hx1. by apply Hown. }
  intros rr s3 _ Hi3 Hm _. wp_step.
  eapply LOCK_vn_wp; [done|]. intros s4 Hi4 Hx4. wp_step.
  eapply upd_wp; [done|apply lookup_insert_eq|done|by right|done|]. intros s5 Hi5 Hx5. rewrite insert_insert_eq in Hi5.
  eapply clear_wp; [done|apply lookup_insert_eq|exact Hp|]. intros s6 Hi6 Hx6. rewrite insert_insert_eq in Hi6.
  eapply HQ; [done|exact Ho|]. rewrite Hx6, Hx5, Hx4. by rewrite Hx2, Hx1 in Hm.
Qed.

Lemma steal_entry k c (s : kstate) B A (Q : option Z -> kstate -> Prop) :
  inv None None c s B A -> 0 <= k < 3 ->
  (forall q v s' A', B !! q = Some v -> inlist v = k -> resting v ->
    inv None (Some q) c s' (<[q := v_set_inlist LOCKED_LIST v]> B) A' -> k_ext s' = k_ext s ->
    (vn_ns v = None -> A' = A) -> owned v (k_ext s') ->
    (forall p, vn_ns v = Some p -> exists e key, e_refs e = rcnt v /\ A !! key = Some e /\ A' = delete key A /\
       forall o, owner_of v = Some o -> fs_name key o) ->
    Q (Some q) s') ->
  ((forall q v, B !! q = Some v -> inlist v <> k) -> Q None s) -> wp (in_layer (steal_vnode k)) Q s.
Proof.
  intros Hi Hk H1 H2. pose proof (iv_core _ _ _ _ _ _ _ _ _ Hi) as Hc. pose proof (iv_shows _ _ _ _ _ _ _ _ _ Hi) as Hs.
  eapply steal_wp; [done|done| |done]. intros q v s' Hq Hl Hr _ Hi' Hx.
  assert (owned v (k_ext s')) as Hown by (rewrite Hx; by eapply inv_owned). destruct (vn_ns v) as [p|] eqn:Ep.
  - destruct (named_at B q v p Hq Ep (co_dom _ _ _ _ Hc q v p Hq Ep)) as (ns & Hns & Hn).
    apply (H1 q v s' (delete (nsid ns, vnid v) A)); try done; [by apply Hi', (shows_focus (k_layer s) B NB A Hc q v)|congruence|].
    intros _ _. exists (entry_of q v), (nsid ns, vnid v). split; [done|]. split; [by apply (shows_lookup B NB A q v)|]. split; [done|].
    intros o. by apply (owner_name fc NB B q v).
  - apply (H1 q v s' A); try done; [|congruence]. apply Hi'. by apply (shows_free q v).
Qed.

(** A used vnode is given back to the free ones. *)
Lemma freed_back q v (s : kstate) B A (Q : unit -> kstate -> Prop) :
  inv None (Some q) 0 s B A -> B !! q = Some v -> v = cleared v ->
  (forall s', inv None None 0 s' (<[q := v_set_inlist FREE_LIST v]> B) A -> k_ext s' = k_ext s -> Q tt s') ->
  wp (in_layer (move_vnode q FREE_LIST)) Q s.
Proof.
  intros Hi Hq Hv HQ. eapply move_wp; [done|done|done|]. intros s' Hi' Hx. apply HQ; [|done].
  eapply free_back; [done|apply lookup_insert_eq| |]; rewrite Hv; [|done]. split; [done|]. by left.
Qed.
(** A used vnode is flushed and set free. *)
Lemma evict_wp (s : kstate) B A q v r (Q : unit -> kstate -> Prop) A0 :
  fc_calls fc r -> inv None (Some q) 0 s (<[q := v_set_inlist LOCKED_LIST v]> B) A0 -> B !! q = Some v -> inlist v = USED_LIST -> resting v ->
  owned v (k_ext s) ->
  (forall p, vn_ns v = Some p -> exists e key, e_refs e = rcnt v /\ A !! key = Some e /\ A0 = delete key A /\
     forall o, owner_of v = Some o -> fs_name key o) ->
  (forall s' v', evicted A A0 -> framed false (inside A) (k_ext s) (k_ext s') -> inv None None 0 s' (<[q := v']> B) A0 -> inlist v' = FREE_LIST -> Q tt s') ->
  wp (_ ← flush_vnode fs_table q r; in_layer (move_vnode q FREE_LIST)) Q s.
Proof.
  intros Hcl Hi Hq Hu Hr Hown HA HQ. destruct Hr as [_ [(E&_)|[(_ & [p Hp] & Hr0 & _)|(E&_)]]]; [by rewrite Hu in E| |by rewrite Hu in E].
  wp_step. eapply (flush_wp q _ p); [done|done|apply lookup_insert_eq|done|done|]. intros o s1 Hi1 Ho Hm. rewrite insert_insert_eq in Hi1.
  destruct (HA p Hp) as (e & key & He & Hk & -> & Hn).
  eapply freed_back; [done|apply lookup_insert_eq|done|]. intros s2 Hi2 Hx2. rewrite insert_insert_eq in Hi2.
  eapply HQ; [| |done|done].
  - right. exists key, e. split_and!; [done|congruence|done].
  - rewrite Hx2. eapply framed_moves; [by apply Hn|by eexists|exact Hm].
Qed.

(** A vnode for the caller, taken from the free ones. *)
Definition fresh (v : vnode) : Prop :=
  vn_ns v = None /\ rcnt v = 0 /\ vn_remove v = false /\ vn_busy v = false /\ inlist v = LOCKED_LIST /\ mounted v = None.

Definition absent (A : table) (id num : Z) : Prop := A !! (id, num) = None.

Lemma absent_named (s : kstate) B A id num q :
  inv None None 0 s B A -> absent A id num -> named B q id num -> False.
Proof.
  intros Hi Ha Hn. pose proof Hn as (v & _ & _ & Hq & _).
  pose proof (shows_lookup B NB A q v id num (iv_shows _ _ _ _ _ _ _ _ _ Hi) Hq Hn). unfold absent in Ha. congruence.
Qed.

(** One round of [load_vnode] when a vnode is free. *)
Lemma round_free fuel id num r (s : kstate) B A q0 v0 (Q : Z -> kstate -> Prop) :
  inv None None 0 s B A -> absent A id num -> B !! q0 = Some v0 -> inlist v0 = FREE_LIST ->
  (forall q v s', B !! q = Some v -> fresh (v_set_inlist LOCKED_LIST v) -> inv None (Some q) 0 s' (<[q := v_set_inlist LOCKED_LIST v]> B) A ->
    k_ext s' = k_ext s -> Q q s') ->
  wp (find_or_steal fs_table (S fuel) id num r) Q s.
Proof.
  intros Hi Ha Hq0 Hf HQ. destruct s as [l x]. cbn [find_or_steal]. wp_step. apply in_layer_wp.
  eapply (lookup_vnode_wp None l B NB); [apply (iv_core _ _ _ _ _ _ _ _ _ Hi)| |].
  { intros q Hn _. by destruct (absent_named _ _ _ _ _ _ Hi Ha Hn). }
  intros _. wp_step. eapply steal_entry; [done|done| |].
  - intros q v s' A' Hq Hl Hr Hi' Hx HA _ _. destruct Hr as [Hb [(_ & [Hn Hmt] & Hr0 & Hrm)|[(E&_)|(E&_)]]]; [|by rewrite Hl in E..].
    wp_step. apply (HQ q v); [done|by split_and!| |done]. by rewrite <- (HA Hn).
  - intros Hno. by destruct (Hno q0 v0 Hq0).
Qed.

Definition spare (B : gmap Z vnode) : Prop := exists q v, B !! q = Some v /\ rcnt v = 0.

Lemma spare_case (s : kstate) B A :
  inv None None 0 s B A -> spare B -> (forall q v, B !! q = Some v -> inlist v <> FREE_LIST) -> exists q v, B !! q = Some v /\ inlist v = USED_LIST.
Proof.
  intros Hi (q & v & Hq & Hr0) Hno. exists q, v. split; [done|].
  destruct (iv_rest _ _ _ _ _ _ _ _ _ Hi q v Hq ltac:(done)) as [_ [(E&_)|[(E&_)|(_&_&E)]]]; [by destruct (Hno q v Hq)|done|lia].
Qed.

Lemma find_or_steal_wp id num (s : kstate) B A r (Q : Z -> kstate -> Prop) :
  fc_calls fc r -> inv None None 0 s B A -> (absent A id num -> spare B) ->
  (forall q v, B !! q = Some v -> named B q id num -> Q q s) ->
  (forall q v s' B' A', absent A id num -> evicted A A' -> framed false (inside A) (k_ext s) (k_ext s') ->
     inv None (Some q) 0 s' B' A' -> B' !! q = Some v -> fresh v -> dom B' = dom B -> Q q s') ->
  wp (find_or_steal fs_table 3 id num r) Q s.
Proof.
  intros Hcl Hi Hsp H1 H2. destruct (A !! (id, num)) as [e|] eqn:Ea.
  { destruct (shows_find B NB A _ _ (iv_shows _ _ _ _ _ _ _ _ _ Hi) Ea) as (q & v & Hq & _ & Hn). cbn in Hn.
    destruct s as [l x]. cbn [find_or_steal]. wp_step. apply in_layer_wp.
    eapply (lookup_vnode_wp None l B NB); [apply (iv_core _ _ _ _ _ _ _ _ _ Hi)| |]; [|intros Hno; by specialize (Hno q Hn)].
    intros q' Hn' _. pose proof Hn' as (v' & _ & _ & Hq' & _). wp_step. eapply get_vn_k; [done|exact Hq'|]. intros w ->.
    pose proof (resting_busy _ (iv_rest _ _ _ _ _ _ _ _ _ Hi q' _ Hq' ltac:(done))) as Hb. cbn in Hb. rewrite Hb. wp_step. by eapply H1. }
  specialize (Hsp Ea).
  destruct (classic_free B) as [(q0 & v0 & Hq0 & Hf)|Hno].
  { eapply round_free; [done|done|done|done|]. intros q v s' Hq Hv Hi' Hx.
    eapply (H2 q); [done|by left|by eapply inv_framed|done|apply lookup_insert_eq|done|].
    apply dom_insert_lookup_L. by exists v. }
  destruct (spare_case s B A Hi Hsp Hno) as (q0 & v0 & Hq0 & Hu).
  destruct s as [l x]. rewrite find_or_steal_S. wp_step. apply in_layer_wp.
  eapply (lookup_vnode_wp None l B NB); [apply (iv_core _ _ _ _ _ _ _ _ _ Hi)| |].
  { intros q Hn _. by destruct (absent_named _ _ _ _ _ _ Hi Ea Hn). }
  intros _. wp_step. eapply steal_entry; [done|done| |].
  { intros q v s' A' Hq Hl. by destruct (Hno q v Hq). }
  intros _. wp_step. eapply steal_entry; [done|done| |]; [|intros Hno'; by destruct (Hno' q0 v0 Hq0)].
  intros q v s' A' Hq Hl Hr Hi' Hx _ Hown HA. wp_step. wp_step. apply wp_assoc. wp_step. eapply (evict_wp s' B A q v); try done.
  intros s2 v' Hev Hfr Hi2 Hf. eapply round_free; [done|by apply (evicted_none A)|apply lookup_insert_eq|done|].
  intros q1 v1 s3 Hq1 Hv1 Hi3 Hx3. eapply (H2 q1); [done|done|by rewrite Hx3, <- Hx|done|apply lookup_insert_eq|done|].
  rewrite dom_insert_lookup_L by (by exists v1). apply dom_insert_lookup_L. by exists v.
Qed.

(** ** Loading *)

Definition mounted_at (id p : Z) (ns : nspace) : Prop := NB !! p = Some ns /\ nsid ns = id /\ ns_shutdown ns = false.

(** The table after a vnode is asked for: the result, and what the file system
    was asked if it was not there. *)
Definition load_post (r : bool) (id num : Z) (A A' : table) (err : Z) (d : option Z) (x x' : X) : Prop :=
  match A !! (id, num) with
  | Some e => err = 0 /\ d = e_data e /\ x' = x /\ A' = <[(id, num) := Entry (e_refs e + 1) (e_removed e) (e_data e) (e_mounted e) (e_at e)]> A
  | None => framed false (asked A (id, num)) x x' /\ exists A0, evicted A A0 /\
      (err = ENOENT /\ A' = A0 /\ (forall p ns, ~ mounted_at id p ns) \/
       exists p ns a xr d', mounted_at id p ns /\ fc_ops fc !! ns_fs ns = Some a /\ framed false (asked A (id, num)) x xr /\
         op_read_vnode (fs_table a) (ns_data ns) num r xr = Done ((err, d'), x') /\
         (err = 0 /\ d = d' /\ (exists q, A' = <[(id, num) := Entry 1 false d None q]> A0) \/ err <> 0 /\ A' = A0))
  end.

Lemma load_found r id num (s : kstate) B A q v (Q : Z * option Z -> kstate -> Prop) :
  inv None None 0 s B A -> B !! q = Some v -> named B q id num ->
  (forall s' w A', inv None None 1 s' (<[q := w]> B) A' -> load_post r id num A A' 0 (vdata w) (k_ext s) (k_ext s') -> Q (0, Some q) s') ->
  wp (_ ← in_layer (upd_vn q (fun v => v_set_rcnt (rcnt v + 1) v));
      _ ← (if rcnt v + 1 =? 1 then in_layer (move_vnode q LOCKED_LIST) else mret tt);
      _ ← UNLOCK_vn; mret (0, Some q)) Q s.
Proof.
  intros Hi Hq Hn HQ. pose proof (iv_rest _ _ _ _ _ _ _ _ _ Hi q v Hq ltac:(done)) as Hr.
  pose proof (shows_lookup B NB A q v id num (iv_shows _ _ _ _ _ _ _ _ _ Hi) Hq Hn) as HA.
  assert (is_Some (vn_ns v)) as [p Hp].
  { destruct Hn as (v' & p & _ & Hq' & Hp & _). exists p. congruence. }
  pose proof (take_up q v id num 0 s B A Hi Hq Hn) as Hi0. wp_step.
  eapply (upd_wp x_host fc NB None q _ v); [done|done|exact (plain_rcnt (fun n => n + 1))|by right| |].
  { intros z Hz. eapply (co_dom _ _ _ _ (iv_core _ _ _ _ _ _ _ _ _ Hi)); [exact Hq|exact Hz]. }
  intros s1 Hi1 Hx1. wp_step.
  set (w := v_set_inlist LOCKED_LIST (v_set_rcnt (rcnt v + 1) v)).
  assert (forall s2, inv None (Some q) 0 s2 (<[q := w]> B) (delete (id, num) A) -> k_ext s2 = k_ext s ->
    wp (_ ← UNLOCK_vn; mret (0, Some q)) Q s2) as Hend.
  { intros s2 Hi2 Hx2. wp_step. eapply UNLOCK_vn_wp; [exact Hi2|]. intros s3 Hi3 Hx3. wp_step.
    eapply (HQ s3 w); [eapply (name_back q w id num); [done|apply lookup_insert_eq| |by eapply named_set|]|].
    - destruct Hr as [Hb Hr]. split; [done|]. right. right. split; [done|]. split; [by exists p|]. cbn.
      destruct Hr as [(_&_&->&_)|[(_&_&->&_)|(_&_&?)]]; lia.
    - rewrite Hx3, Hx2. by apply (inv_owned q v None 0 s B A Hi).
    - unfold load_post. rewrite HA, insert_delete_eq, Hx3, Hx2. done. }
  destruct (Z.eqb_spec (rcnt v + 1) 1) as [E1|E1].
  - eapply move_wp; [done|apply lookup_insert_eq|done|]. rewrite insert_insert_eq. intros s2 Hi2 Hx2. apply Hend; [done|congruence].
  - wp_step. apply Hend; [|done]. destruct Hr as [Hb [(_&_&E&_)|[(_&_&E&_)|(El&_&_)]]]; [lia..|].
    replace w with (v_set_rcnt (rcnt v + 1) v); [done|]. subst w. unfold v_set_inlist. cbn. by rewrite <- El.
Qed.

(** What is left of a vnode that could not be loaded. *)
Lemma load_failed q v err (s : kstate) B A (Q : Z * option Z -> kstate -> Prop) :
  inv None (Some q) 0 s B A -> B !! q = Some v -> fresh v ->
  (forall s' w, inv None None 1 s' (<[q := w]> B) A -> k_ext s' = k_ext s -> Q (err, None) s') ->
  wp (_ ← in_layer (move_vnode q FREE_LIST); _ ← UNLOCK_vn; mret (err, None)) Q s.
Proof.
  intros Hi Hq (F1 & F2 & F3 & F4 & F5 & F6) HQ. wp_step. eapply move_wp; [done|done|done|]. intros s1 Hi1 Hx1. wp_step.
  eapply UNLOCK_vn_wp.
  { eapply free_back; [done|apply lookup_insert_eq| |exact F1]. split; [done|]. left. done. }
  intros s2 Hi2 Hx2. wp_step. eapply HQ; [done|congruence].
Qed.

Lemma inv_focus q v c (s : kstate) B A :
  inv None (Some q) c s B A -> B !! q = Some v -> vn_ns v = None -> inv (Some q) (Some q) c s B A.
Proof. intros [I1 I2 I3 I4 I5 I6 I7 I8 I9 I10] Hq Hn. split; try done. by apply (core_focus (k_layer s) B NB q v). Qed.

(** A vnode is sorted in: no other has its name. *)
Lemma sort_wp q v p ns id num c (s : kstate) B A (Q : Z -> kstate -> Prop) :
  inv (Some q) (Some q) c s B A -> B !! q = Some v -> vn_ns v = Some p -> NB !! p = Some ns -> nsid ns = id -> vnid v = num ->
  absent A id num -> (forall s', inv None (Some q) c s' B A -> (forall K, framed false K (k_ext s) (k_ext s')) -> Q 0 s') ->
  wp (sort_vnode x_host x_set_host q) Q s.
Proof.
  intros Hi Hq Hp Hns Eid Enum Ha HQ. pose proof Hi as [I1 I2 I3 I4 I5 I6 I7 I8 I9 I10]. destruct s as [l x]. cbn in *.
  eapply (sort_core x_host x_set_host q l x B NB v p ns); try done.
  - intros r Hr. rewrite Eid, Enum in Hr. destruct (decide (r = q)) as [|Hne]; [done|exfalso].
    pose proof Hr as (w & _ & _ & Hw & _). assert (A !! (id, num) = Some (entry_of r w)) as HA; [|unfold absent in Ha; congruence].
    apply I3. exists r, w. split_and!; try done. congruence.
  - by apply (fs_memory x).
  - intros l' h Hc (L1 & L2 & L3 & L4) Hal Hoom Hbrk. apply HQ.
    + split; cbn; rewrite ?L2, ?L3, ?L4; try done.
      * by rewrite (fs_host_set (FileSystems := FileSystems0)).
      * by apply fs_set_good.
      * intros r w o Hw Hne Ho. apply fs_set_owns. by apply (I10 r).
    + intros K. cbn. split; [by apply fs_set_good|]. rewrite (fs_host_set (FileSystems := FileSystems0)). split; [done|].
      split; [intros o d' _; by apply fs_set_owns|]. intros _. by apply fs_set_quiet.
Qed.

Lemma load_fresh id num x0 q v (s : kstate) B A0 A r (Q : Z * option Z -> kstate -> Prop) :
  fc_calls fc r -> absent A id num -> evicted A A0 -> framed false (inside A) x0 (k_ext s) -> inv None (Some q) 0 s B A0 -> B !! q = Some v -> fresh v ->
  (forall s' w A' err d, inv None None 1 s' (<[q := w]> B) A' -> load_post r id num A A' err d x0 (k_ext s') ->
     (err = 0 -> d = vdata w) -> Q (err, if err =? 0 then Some q else None) s') ->
  wp (ns ← in_layer (nsidtons id);
      match ns with
      | None => _ ← in_layer (move_vnode q FREE_LIST); _ ← UNLOCK_vn; mret (ENOENT, None)
      | Some ns =>
          _ ← in_layer (upd_vn q (v_set_ns (Some ns)));
          _ ← in_layer (upd_vn q (v_set_vnid num));
          _ ← in_layer (upd_vn q (v_set_busy true));
          err ← sort_vnode x_host x_set_host q;
          if negb (err =? 0) then
            _ ← in_layer (clear_vnode q);
            _ ← in_layer (move_vnode q FREE_LIST); _ ← UNLOCK_vn; mret (err, None)
          else
          _ ← in_layer (move_vnode q LOCKED_LIST);
          _ ← UNLOCK_vn;
          '(ops, data) ← in_layer (vn_fs fs_table q);
          '(err, d) ← in_ext (op_read_vnode ops data num r);
          _ ← in_layer (upd_vn q (fun v => if err =? 0 then v_set_data d v else v));
          _ ← LOCK_vn;
          _ ← in_layer (upd_vn q (v_set_busy false));
          if negb (err =? 0) then
            _ ← in_layer (clear_vnode q);
            _ ← in_layer (move_vnode q FREE_LIST); _ ← UNLOCK_vn; mret (err, None)
          else
          _ ← in_layer (upd_vn q (v_set_rcnt 1));
          _ ← UNLOCK_vn; mret (0, Some q)
      end) Q s.
Proof.
  intros Hcl Ha Hev Hfx Hi Hq Hfr HQ. assert (framed false (asked A (id, num)) x0 (k_ext s)) as Hfx' by (eapply framed_mono; [|exact (fun E => E)|exact Hfx]; by left).
  destruct s as [l x]. pose proof Hfr as (F1 & F2 & F3 & F4 & F5 & F6). wp_step. apply in_layer_wp.
  eapply (nsidtons_wp None l B NB); [apply (iv_core _ _ _ _ _ _ _ _ _ Hi)| |].
  2: { intros Hno. eapply load_failed; [done|done|done|]. intros s' w Hi' Hx'.
       eapply (HQ s' w A0 ENOENT None); [done| |done]. unfold load_post. rewrite Ha, Hx'. split; [done|]. exists A0. split; [done|]. left. split; [done|].
       split; [done|]. intros p ns (H1 & H2 & H3). specialize (Hno p ns H1 H2). congruence. }
  intros p ns Hns Eid Hsd.
  assert (is_Some (NB !! p)) as Hsp by (by exists ns).
  pose proof (inv_focus q v 0 _ B A0 Hi Hq F1) as Hi0.
  wp_step. eapply upd_wp; [done|done|done|by left|by intros z [= <-]|]. intros s1 Hi1 Hx1.
  wp_step. eapply upd_wp; [done|apply lookup_insert_eq|done|by left|by intros z [= <-]|]. rewrite insert_insert_eq. intros s2 Hi2 Hx2.
  wp_step. eapply upd_wp; [done|apply lookup_insert_eq|done|by left|by intros z [= <-]|]. rewrite insert_insert_eq. intros s3 Hi3 Hx3.
  wp_step. eapply (sort_wp q _ p ns id num); [done|apply lookup_insert_eq|done|done|done|done|by apply (evicted_none A)|]. intros s4 Hi4 Hx4. cbn [negb Z.eqb].
  wp_step. eapply move_wp; [done|apply lookup_insert_eq|done|]. rewrite insert_insert_eq. intros s5 Hi5 Hx5.
  wp_step. eapply UNLOCK_vn_wp; [done|]. intros s6 Hi6 Hx6.
  assert (framed false (asked A (id, num)) x0 (k_ext s6)) as Hf6.
  { eapply framed_trans; [exact Hfx'|]. rewrite Hx6, Hx5. rewrite Hx3, Hx2, Hx1 in Hx4. apply Hx4. }
  wp_step. eapply (vn_fs_wp x_host fs_table fc NB _ _ _ s6 _ _ q); [done|apply lookup_insert_eq|done|exact Hns|]. intros a Ha' Hsp' Ho.
  wp_step. eapply (in_ext_wp x_host fc NB false _ (fun r x' => r.1 = 0 -> fc_owns fc x' (a, ns_data ns, num) r.2) q _ _ _ s6);
    [exact Hi6|apply lookup_insert_eq|exact Ho|apply fs_read; [done|apply Hi6|done]|].
  intros [err d] s7 Hrd Hi7 Hm Hown. cbv beta iota. cbn [fst snd] in Hown.
  assert (framed false (asked A (id, num)) x0 (k_ext s7)) as Hf7.
  { eapply framed_trans; [exact Hf6|]. eapply (framed_moves x_host fc NB _ _ (id, num)); [|by right|exact Hm].
    exists p, ns, a. split_and!; [done|done|done|done]. }
  wp_step. eapply upd_wp; [done|apply lookup_insert_eq|by split; destruct (err =? 0)|right; intros; by destruct (err =? 0)|intros z; by destruct (err =? 0); intros [= <-]|].
  rewrite insert_insert_eq. intros s8 Hi8 Hx8.
  wp_step. eapply LOCK_vn_wp; [done|]. intros s9 Hi9 Hx9.
  wp_step. eapply upd_wp; [done|apply lookup_insert_eq|done|by right|intros z; by destruct (err =? 0); intros [= <-]|].
  rewrite insert_insert_eq. intros s10 Hi10 Hx10. assert (k_ext s10 = k_ext s7) as Hx by congruence.
  destruct (Z.eqb_spec err 0) as [->|He]; cbn [negb].
  - wp_step. eapply (upd_wp x_host fc NB None q (v_set_rcnt 1)); [done|apply lookup_insert_eq|exact (plain_rcnt (fun _ => 1))|by right|by intros z [= <-]|].
    rewrite insert_insert_eq. intros s11 Hi11 Hx11.
    wp_step. eapply UNLOCK_vn_wp.
    { eapply (name_back q _ id num); [done|apply lookup_insert_eq| | |].
      - split; [done|]. right. right. split; [done|]. split; [by exists p|done].
      - eexists _, p, ns. rewrite lookup_insert_eq. done.
      - intros o Ho'. assert (o = (a, ns_data ns, num)) as -> by (rewrite (owner_at fc NB _ p ns a) in Ho' by done; by injection Ho' as <-).
        rewrite Hx11, Hx. by apply Hown. }
    intros s12 Hi12 Hx12. wp_step. eapply (HQ s12 _ _ 0 d); [exact Hi12| |done].
    unfold load_post. rewrite Ha. rewrite Hx12, Hx11, Hx. split; [done|]. exists A0. split; [done|]. right. exists p, ns, a, (k_ext s6), d.
    split; [done|]. split; [done|]. split; [done|]. split; [done|]. left. split; [done|]. split; [done|]. exists q. unfold entry_of. cbn. by rewrite F3, F6.
  - wp_step. eapply clear_wp; [done|apply lookup_insert_eq|done|]. rewrite insert_insert_eq. intros s11 Hi11 Hx11.
    eapply load_failed; [done|apply lookup_insert_eq|done|]. intros s12 w Hi12 Hx12; rewrite insert_insert_eq in Hi12.
    pose proof (HQ s12 w A0 err None Hi12) as HQ'. rewrite (proj2 (Z.eqb_neq err 0)) in HQ' by done. apply HQ'; [|done].
    unfold load_post. rewrite Ha. rewrite Hx12, Hx11, Hx. split; [done|]. exists A0. split; [done|]. right.
    exists p, ns, a, (k_ext s6), d. split_and!; [done..|]. by right.
Qed.

Lemma load_vnode_wp id num (s : kstate) B A r (Q : Z * option Z -> kstate -> Prop) :
  fc_calls fc r -> inv None None 1 s B A -> (absent A id num -> spare B) ->
  (forall s' B' q w A' err d, inv None None 1 s' B' A' -> dom B' = dom B -> load_post r id num A A' err d (k_ext s) (k_ext s') ->
     (err = 0 -> B' !! q = Some w /\ d = vdata w) -> Q (err, if err =? 0 then Some q else None) s') ->
  wp (load_vnode x_host x_set_host fs_table id num r) Q s.
Proof.
  intros Hcl Hi Hsp HQ. unfold load_vnode. wp_step. eapply LOCK_vn_wp; [done|]. intros s1 Hi1 Hx1. wp_step.
  eapply find_or_steal_wp; [done|done|done|..].
  - intros q v Hq Hn. wp_step. eapply get_vn_k; [done|done|]. intros w ->.
    pose proof Hn as (v' & p & ns & Hq' & Hp & _). assert (v' = body w) as -> by congruence. cbn in Hp. rewrite Hp.
    eapply (load_found r id num s1 B A q (body w)); [done|done|done|]. intros s2 w' A' Hi2 Hpost. rewrite Hx1 in Hpost.
    eapply (HQ s2 _ q w' A' 0); [done|apply dom_insert_lookup_L; by eexists|done|by rewrite lookup_insert_eq].
  - intros q v s2 B' A' Ha Hev Hfx Hi2 Hq Hfr Hdom. rewrite Hx1 in Hfx. wp_step. eapply get_vn_k; [done|done|]. intros w ->.
    pose proof Hfr as (F1 & _). cbn in F1. rewrite F1. eapply (load_fresh id num (k_ext s)); [done|done|done|done|done|done|done|].
    intros s3 w' A2 err d Hi3 Hpost Hd. eapply (HQ s3 _ q w' A2 err d); [done|rewrite <- Hdom; apply dom_insert_lookup_L; by eexists| |].
    + unfold load_post in *. unfold absent in Ha. by rewrite Ha in *.
    + intros E. by rewrite lookup_insert_eq, Hd.
Qed.
Lemma get_vnode_wp id num (s : kstate) B A (Q : Z * option Z -> kstate -> Prop) :
  inv None None 1 s B A -> (absent A id num -> spare B) ->
  (forall s' B' A' err d, inv None None 1 s' B' A' -> dom B' = dom B -> load_post true id num A A' err d (k_ext s) (k_ext s') -> Q (err, d) s') ->
  wp (get_vnode x_host x_set_host fs_table id num) Q s.
Proof.
  intros Hi Hsp HQ. unfold get_vnode. wp_step. eapply load_vnode_wp; [exact fs_reentrant|done|done|].
  intros s' B' q w A' err d Hi' Hdom Hpost Hd. cbv beta iota. destruct (Z.eqb_spec err 0) as [->|He]; cbn [negb].
  - destruct (Hd eq_refl) as [Hw ->]. wp_step. wp_step. wp_step. eapply get_vn_k; [done|done|]. intros v ->. wp_step. by eapply HQ.
  - wp_step. eapply HQ; [done|done|]. unfold load_post in *. destruct (A !! (id, num)) as [e|]; [by destruct Hpost|].
    destruct Hpost as (Hf & A0 & Hev & [H|(p & ns & a & xr & d' & Hm & Ha & Hfr & Hr & [(? & _)|H])]); [|done|]; (split; [exact Hf|]).
    + exists A0. split; [done|]. by left.
    + exists A0. split; [done|]. right. exists p, ns, a, xr, d'. split_and!; [done..|]. by right.
Qed.

(** ** Giving back *)

(** The table after a reference is given back. *)
Definition dec_post (k : Z * Z) (e : entry) (A A' : table) : Prop :=
  if e_refs e =? 1 then
    if e_removed e then A' = delete k A else evicted (<[k := Entry 0 false (e_data e) (e_mounted e) (e_at e)]> A) A'
  else A' = <[k := Entry (e_refs e - 1) (e_removed e) (e_data e) (e_mounted e) (e_at e)]> A.

Lemma remove_last q v p (s : kstate) B A r (Q : unit -> kstate -> Prop) :
  fc_calls fc r -> inv None (Some q) 0 s B A -> B !! q = Some v -> vn_ns v = Some p -> owned v (k_ext s) ->
  (forall o s' w, inv None None 0 s' (<[q := w]> B) A -> owner_of v = Some o -> moves x_host fc true o (k_ext s) (k_ext s') -> Q tt s') ->
  wp (_ ← in_layer (upd_vn q (v_set_busy true));
      _ ← in_layer (move_vnode q LOCKED_LIST);
      _ ← UNLOCK_vn;
      '(ops, data) ← in_layer (vn_fs fs_table q);
      v ← in_layer (get_vn q);
      _ ← in_ext (op_remove_vnode ops data (vdata v) r);
      _ ← LOCK_vn;
      _ ← in_layer (clear_vnode q);
      in_layer (move_vnode q FREE_LIST)) Q s.
Proof.
  intros Hcl Hi Hq Hp Hown HQ. pose proof (co_dom _ _ _ _ (iv_core _ _ _ _ _ _ _ _ _ Hi) q v p Hq Hp) as [ns Hns].
  assert (forall r, vn_ns v = Some r -> is_Some (NB !! r)) as Hdm by (intros z Hz; exists ns; congruence).
  wp_step. eapply (upd_wp x_host fc NB None q _ v); [done|done|done|by right|done|]. intros s1 Hi1 Hx1.
  wp_step. eapply move_wp; [done|apply lookup_insert_eq|done|]. rewrite insert_insert_eq. intros s2 Hi2 Hx2.
  wp_step. eapply UNLOCK_vn_wp; [done|]. intros s3 Hi3 Hx3.
  wp_step. eapply (vn_fs_wp x_host fs_table fc NB _ _ _ s3 _ _ q); [done|apply lookup_insert_eq|exact Hp|exact Hns|]. intros a Ha Hsp Ho.
  wp_step. eapply get_vn_k; [done|apply lookup_insert_eq|]. intros w Ew.
  assert (vdata w = vdata v) as -> by exact (eq_sym (f_equal vdata Ew)). wp_step.
  eapply (in_ext_wp x_host fc NB true _ (fun _ _ => True) q _ _ _ s3); [exact Hi3|apply lookup_insert_eq|exact Ho| |].
  { eapply wp_mono; [apply (fs_remove a (ns_data ns) (vnid v)); [done|apply Hi3|done|]|by intros rr x' Hm; split]. rewrite Hx3, Hx2, Hx1. by apply Hown. }
  intros rr s4 _ Hi4 Hm _.
  wp_step. eapply LOCK_vn_wp; [done|]. intros s5 Hi5 Hx5.
  wp_step. eapply clear_wp; [done|apply lookup_insert_eq|exact Hp|]. rewrite insert_insert_eq. intros s6 Hi6 Hx6.
  eapply freed_back; [done|apply lookup_insert_eq|done|]. rewrite insert_insert_eq. intros s7 Hi7 Hx7. eapply HQ; [done|exact Ho|].
  rewrite Hx7, Hx6, Hx5. by rewrite Hx3, Hx2, Hx1 in Hm.
Qed.

(** The used vnodes are kept below their number. *)
Lemma trim_used (s : kstate) B A q0 v0 r (Q : unit -> kstate -> Prop) :
  fc_calls fc r -> inv None None 0 s B A -> B !! q0 = Some v0 -> inlist v0 = USED_LIST ->
  (forall s' B' A', inv None None 0 s' B' A' -> evicted A A' -> framed false (inside A) (k_ext s) (k_ext s') -> dom B' = dom B -> Q tt s') ->
  wp (used ← in_layer (get_list USED_LIST);
      l ← in_layer get;
      if l_num used >? usdvnnum l then
        ovn ← in_layer (steal_vnode USED_LIST);
        ovn ← opt ovn;
        _ ← flush_vnode fs_table ovn r;
        in_layer (move_vnode ovn FREE_LIST)
      else mret tt) Q s.
Proof.
  intros Hcl Hi Hq0 Hl0 HQ. destruct s as [l x]. destruct (co_lists _ _ _ _ (iv_core _ _ _ _ _ _ _ _ _ Hi)) as [ls Hls].
  wp_step. apply in_layer_wp. cbn in Hls. rewrite <- (st_id l) at 1. eapply get_list_wp; [by apply (lo_ends _ _ _ Hls)|]. rewrite (st_id l).
  wp_step. apply in_layer_wp. wp_step. destruct (_ >? _).
  - wp_step. eapply steal_entry; [exact Hi|done| |intros Hno; by destruct (Hno q0 v0 Hq0)].
    intros q v s1 A1 Hq Hl Hr Hi1 Hx1 _ Hown HA. wp_step. wp_step. eapply (evict_wp s1 B A q v); try done.
    intros s2 v' Hev Hfr Hi2 _. eapply HQ; [done|done|by rewrite <- Hx1|]. apply dom_insert_lookup_L. by exists v.
  - wp_step. eapply HQ; [done|by left|by eapply inv_framed|done].
Qed.

Lemma dec_vnode_wp q v id num e (s : kstate) B A r (Q : unit -> kstate -> Prop) :
  fc_calls fc r -> inv None None 1 s B A -> B !! q = Some v -> named B q id num -> A !! (id, num) = Some e -> 0 < e_refs e ->
  (forall s' B' A', inv None None 1 s' B' A' -> dom B' = dom B -> dec_post (id, num) e A A' -> framed (e_removed e) (inside A) (k_ext s) (k_ext s') -> Q tt s') ->
  wp (dec_vnode fs_table q r) Q s.
Proof.
  intros Hcl Hi Hq Hn He Hpos HQ. pose proof (iv_rest _ _ _ _ _ _ _ _ _ Hi q v Hq ltac:(done)) as Hr.
  pose proof (shows_lookup B NB A q v id num (iv_shows _ _ _ _ _ _ _ _ _ Hi) Hq Hn) as HA.
  assert (e = entry_of q v) as -> by congruence. cbn in Hpos.
  assert (inlist v = LOCKED_LIST /\ vn_busy v = false) as [Hl Hb] by (destruct Hr as [? [(_&_&E&_)|[(_&_&E&_)|(E&_)]]]; [lia..|done]).
  assert (exists p, vn_ns v = Some p) as [p Hp] by (destruct Hn as (v' & p & _ & Hq' & Hp & _); exists p; congruence).
  pose proof (co_dom _ _ _ _ (iv_core _ _ _ _ _ _ _ _ _ Hi) q v p Hq Hp) as Hsp.
  pose proof (inv_owned q v _ _ s B A Hi Hq) as Hown.
  unfold dec_vnode. wp_step. eapply LOCK_vn_wp; [done|]. intros s1 Hi1 Hx1.
  pose proof (take_up q v id num 0 s1 B A Hi1 Hq Hn) as Hi1'.
  wp_step. eapply (upd_wp x_host fc NB None q _ v); [done|done|exact (plain_rcnt (fun n => n - 1))|by right|intros z Hz; by simplify_eq/=|].
  intros s2 Hi2 Hx2. set (v1 := v_set_rcnt (rcnt v - 1) v) in *.
  assert (forall w, dom (<[q := w]> B) = dom B) as Hdom by (intros w; apply dom_insert_lookup_L; by exists v).
  assert (forall w, name_of w = name_of v -> named (<[q := w]> B) q id num) as Hnm by (intros w Hw; by eapply named_set).
  wp_step. eapply get_vn_k; [done|apply lookup_insert_eq|]. intros w Ew.
  assert (rcnt w = rcnt v - 1 /\ vn_remove w = vn_remove v) as [-> ->] by (split; [exact (eq_sym (f_equal rcnt Ew))|exact (eq_sym (f_equal vn_remove Ew))]).
  unfold dec_post in HQ. cbn [e_refs e_removed e_data entry_of] in HQ. wp_step. destruct (Z.eqb_spec (rcnt v - 1) 0) as [E|E].
  - rewrite (proj2 (Z.eqb_eq (rcnt v) 1)) in HQ by lia. destruct (vn_remove v) eqn:Erm.
    + eapply (remove_last q v1 p); [done|done|apply lookup_insert_eq|done|by rewrite Hx2, Hx1|]. intros o s3 w'. rewrite insert_insert_eq.
      intros Hi3 Ho Hm. eapply UNLOCK_vn_wp; [done|]. intros s4 Hi4 Hx4. eapply HQ; [done|done|done|].
      rewrite Hx4. rewrite Hx2, Hx1 in Hm. eapply framed_moves; [by apply (owner_name fc NB B q v id num)|by eexists|exact Hm].
    + wp_step. eapply move_wp; [done|apply lookup_insert_eq|done|]. rewrite insert_insert_eq. intros s3 Hi3 Hx3.
      pose proof (name_back q _ id num 0 s3 _ _ Hi3 (lookup_insert_eq _ _ _)) as Hi3'.
      assert (entry_of q (v_set_inlist USED_LIST v1) = Entry 0 false (vdata v) (mounted v) q) as Ee by (unfold entry_of, v1; cbn; by rewrite E, Erm).
      rewrite Ee, insert_delete_eq in Hi3'.
      assert (resting (v_set_inlist USED_LIST v1)) as Hr1 by (split; [done|]; right; left; split_and!; [done|by exists p|done|done]).
      assert (k_ext s3 = k_ext s) as Hx by congruence.
      specialize (Hi3' Hr1 (Hnm (v_set_inlist USED_LIST v1) eq_refl) ltac:(rewrite Hx; exact Hown)).
      eapply trim_used; [done|exact Hi3'|apply lookup_insert_eq|done|].
      intros s4 B' A' Hi4 Hev Hfr Hd. eapply UNLOCK_vn_wp; [done|]. intros s5 Hi5 Hx5. eapply HQ; [done|by rewrite Hd|done|].
      rewrite Hx5, <- Hx. eapply framed_mono; [|exact (fun E => E)|exact Hfr]. intros k [e He']. destruct (decide (k = (id, num))) as [->|Hne]; [by eexists|].
      exists e. by rewrite lookup_insert_ne in He' by done.
  - rewrite (proj2 (Z.eqb_neq (rcnt v) 1)) in HQ by lia. wp_step. eapply UNLOCK_vn_wp.
    { eapply (name_back q v1 id num); [done|apply lookup_insert_eq| |by apply Hnm|by rewrite Hx2, Hx1]. split; [done|]. right. right.
      split; [done|]. split; [by exists p|cbn; lia]. }
    intros s3 Hi3 Hx3. rewrite insert_delete_eq in Hi3. eapply HQ; [done|done|done|]. eapply inv_framed; [exact Hi|congruence].
Qed.
(** ** Operations by name *)

Lemma lookup_wp id num c (s : kstate) B A (Q : option Z -> kstate -> Prop) :
  inv None None c s B A ->
  (forall q v, B !! q = Some v -> named B q id num -> A !! (id, num) = Some (entry_of q v) -> Q (Some q) s) ->
  (absent A id num -> Q None s) -> wp (in_layer (lookup_vnode id num)) Q s.
Proof.
  intros Hi H1 H2. destruct s as [l x]. apply in_layer_wp. eapply (lookup_vnode_wp None l B NB); [apply (iv_core _ _ _ _ _ _ _ _ _ Hi)| |].
  - intros q Hn _. pose proof Hn as (v & _ & _ & Hq & _). apply (H1 q v); [done|done|]. by apply (shows_lookup B NB A q v _ _ (iv_shows _ _ _ _ _ _ _ _ _ Hi)).
  - intros Hno. apply H2. unfold absent. destruct (A !! (id, num)) as [e|] eqn:E; [|done].
    destruct (shows_find B NB A _ _ (iv_shows _ _ _ _ _ _ _ _ _ Hi) E) as (q & v & _ & _ & Hn). by specialize (Hno q Hn).
Qed.

Lemma put_vnode_wp id num (s : kstate) B A (Q : Z -> kstate -> Prop) :
  inv None None 1 s B A -> (forall e, A !! (id, num) = Some e -> 0 < e_refs e) ->
  (absent A id num -> forall s', inv None None 1 s' B A -> k_ext s' = k_ext s -> Q ENOENT s') ->
  (forall e s' B' A', A !! (id, num) = Some e -> inv None None 1 s' B' A' -> dom B' = dom B -> dec_post (id, num) e A A' ->
     framed (e_removed e) (inside A) (k_ext s) (k_ext s') -> Q 0 s') ->
  wp (put_vnode fs_table id num) Q s.
Proof.
  intros Hi Hpos H1 H2. unfold put_vnode. wp_step. eapply LOCK_vn_wp; [done|]. intros s1 Hi1 Hx1. wp_step. eapply lookup_wp; [done|..].
  - intros q v Hq Hn HA. wp_step. eapply UNLOCK_vn_wp; [done|]. intros s2 Hi2 Hx2. wp_step.
    eapply dec_vnode_wp; [exact fs_reentrant|done|done|done|done|by apply Hpos|]. intros s3 B' A' Hi3 Hd Hp Hfr. wp_step. rewrite Hx2, Hx1 in Hfr. by eapply H2.
  - intros Ha. wp_step. eapply UNLOCK_vn_wp; [done|]. intros s2 Hi2 Hx2. wp_step. apply H1; [done|done|congruence].
Qed.

Lemma set_removed_wp b id num (s : kstate) B A (Q : Z -> kstate -> Prop) :
  inv None None 1 s B A ->
  ((forall e, A !! (id, num) = Some e -> e_refs e = 0) -> forall s', inv None None 1 s' B A -> k_ext s' = k_ext s -> Q ENOENT s') ->
  (forall e s' B', A !! (id, num) = Some e -> 0 < e_refs e -> inv None None 1 s' B' (<[(id, num) := Entry (e_refs e) b (e_data e) (e_mounted e) (e_at e)]> A) ->
     dom B' = dom B -> k_ext s' = k_ext s -> Q 0 s') ->
  wp (set_removed b id num) Q s.
Proof.
  intros Hi H1 H2. unfold set_removed. wp_step. eapply LOCK_vn_wp; [done|]. intros s1 Hi1 Hx1. wp_step. eapply lookup_wp; [done|..].
  - intros q v Hq Hn HA. wp_step. eapply get_vn_k; [done|done|]. intros w ->. change (rcnt w) with (rcnt (body w)).
    destruct (Z.eqb_spec (rcnt (body w)) 0) as [E|E].
    + wp_step. eapply UNLOCK_vn_wp; [done|]. intros s2 Hi2 Hx2. wp_step. apply H1; [|done|congruence].
      intros e He. assert (e = entry_of q (body w)) as -> by congruence. done.
    + pose proof (iv_rest _ _ _ _ _ _ _ _ _ Hi1 q _ Hq ltac:(done)) as [Hb [(_&_&?&_)|[(_&_&?&_)|(Hl & Hp & Hr)]]]; [congruence..|].
      wp_step. eapply (upd_wp x_host fc NB None q _ (body w)); [by eapply take_up|done|done|by right| |].
      { intros r Hr'. eapply (co_dom _ _ _ _ (iv_core _ _ _ _ _ _ _ _ _ Hi)); [exact Hq|exact Hr']. }
      intros s2 Hi2 Hx2. wp_step. eapply UNLOCK_vn_wp.
      { eapply (name_back q _ id num); [done|apply lookup_insert_eq| |by eapply named_set|].
        - split; [done|]. by right; right.
        - rewrite Hx2. exact (inv_owned q (body w) None 0 s1 B A Hi1 Hq). }
      intros s3 Hi3 Hx3. wp_step. rewrite insert_delete_eq in Hi3. eapply H2; [exact HA|done|exact Hi3| |congruence]. apply dom_insert_lookup_L. by eexists.
  - intros Ha. wp_step. eapply UNLOCK_vn_wp; [done|]. intros s2 Hi2 Hx2. wp_step. apply H1; [|done|congruence]. unfold absent in Ha. congruence.
Qed.

Lemma is_vnode_removed_wp id num (s : kstate) B A (Q : Z -> kstate -> Prop) :
  inv None None 1 s B A ->
  (forall s', inv None None 1 s' B A -> k_ext s' = k_ext s ->
    Q (match A !! (id, num) with Some e => if e_removed e then 1 else 0 | None => ENOENT end) s') ->
  wp (is_vnode_removed id num) Q s.
Proof.
  intros Hi HQ. unfold is_vnode_removed. wp_step. eapply LOCK_vn_wp; [done|]. intros s1 Hi1 Hx1. wp_step. eapply lookup_wp; [done|..].
  - intros q v Hq Hn HA. rewrite HA in HQ. wp_step. eapply get_vn_k; [done|done|]. intros w ->. wp_step.
    eapply UNLOCK_vn_wp; [done|]. intros s2 Hi2 Hx2. wp_step. apply HQ; [done|congruence].
  - intros Ha. unfold absent in Ha. rewrite Ha in HQ. wp_step. eapply UNLOCK_vn_wp; [done|]. intros s2 Hi2 Hx2. wp_step. apply HQ; [done|congruence].
Qed.

(** A vnode for [new_vnode]. *)
Lemma grab_wp {R} (k : option Z -> M kstate R) (s : kstate) B A (Q : R -> kstate -> Prop) :
  inv None None 0 s B A -> spare B ->
  (forall q v s' B' A', evicted A A' -> framed false (inside A) (k_ext s) (k_ext s') -> inv None (Some q) 0 s' B' A' -> B' !! q = Some v ->
     fresh v -> dom B' = dom B -> wp (k (Some q)) Q s') ->
  wp (vn ← in_layer (steal_vnode FREE_LIST);
      vn ← (match vn with
      | Some vn => mret (Some vn)
      | None =>
          vn ← in_layer (steal_vnode USED_LIST);
          match vn with
          | Some vn => _ ← flush_vnode fs_table vn true; mret (Some vn)
          | None => mret None
          end
      end);
      k vn) Q s.
Proof.
  intros Hi Hsp HQ. wp_step. eapply steal_entry; [done|done| |].
  - intros q v s' A' Hq Hl Hr Hi' Hx HA _ _. destruct Hr as [Hb [(_ & [Hn Hmt] & Hr0 & Hrm)|[(E&_)|(E&_)]]]; [|by rewrite Hl in E..].
    wp_step. wp_step. rewrite (HA Hn) in Hi'. eapply (HQ q); [by left|by eapply inv_framed|done|apply lookup_insert_eq|done|]. apply dom_insert_lookup_L. by exists v.
  - intros Hno. destruct (spare_case s B A Hi Hsp Hno) as (q0 & v0 & Hq0 & Hu). wp_step. wp_step.
    eapply steal_entry; [done|done| |intros Hno'; by destruct (Hno' q0 v0 Hq0)].
    intros q v s1 A1 Hq Hl Hr Hi1 Hx1 _ Hown HA. destruct Hr as [_ [(E&_)|[(_ & [p Hp] & Hr0 & _)|(E&_)]]]; [by rewrite Hl in E| |by rewrite Hl in E].
    destruct (HA p Hp) as (e & key & He & Hk & -> & Hn).
    wp_step. eapply (flush_wp q _ p); [exact fs_reentrant|done|apply lookup_insert_eq|done|done|]. rewrite insert_insert_eq. intros o s2 Hi2 Ho Hm. wp_step.
    eapply (HQ q); [| |done|apply lookup_insert_eq|done|apply dom_insert_lookup_L; by exists v].
    + right. exists key, e. split_and!; [done|congruence|done].
    + rewrite <- Hx1. eapply framed_moves; [by apply Hn|by eexists|exact Hm].
Qed.

Lemma new_vnode_wp id num d p ns (s : kstate) B A (Q : Z -> kstate -> Prop) :
  inv None None 1 s B A -> spare B -> absent A id num -> mounted_at id p ns ->
  (forall o, fs_name (id, num) o -> fc_owns fc (k_ext s) o d) ->
  (forall s' B' A0 q, evicted A A0 -> inv None None 1 s' B' (<[(id, num) := Entry 1 false d None q]> A0) -> dom B' = dom B ->
     framed false (asked A (id, num)) (k_ext s) (k_ext s') -> Q 0 s') ->
  wp (new_vnode x_host x_set_host fs_table id num d) Q s.
Proof.
  intros Hi Hsp Ha (Hns & Eid & Hsd) Hd HQ. unfold new_vnode. wp_step. eapply LOCK_vn_wp; [done|]. intros s1 Hi1 Hx1.
  eapply grab_wp; [done|done|]. intros q v s2 B' A0 Hev Hf2 Hi2 Hq (F1 & F2 & F3 & F4 & F5 & F6) Hdom. cbv beta iota.
  assert (is_Some (NB !! p)) as Hsp' by (by exists ns). destruct s2 as [l x].
  wp_step. apply in_layer_wp. eapply (nsidtons_wp None l B' NB); [apply (iv_core _ _ _ _ _ _ _ _ _ Hi2)| |].
  2: { intros Hno. specialize (Hno p ns Hns Eid). congruence. }
  intros p' ns' Hns' Eid' _. pose proof (inv_focus q v 0 _ B' A0 Hi2 Hq F1) as Hi3. assert (is_Some (NB !! p')) as Hsp2 by (by exists ns').
  wp_step. eapply upd_wp; [done|done|done|by left|by intros z [= <-]|]. intros s3 Hi4 Hx3.
  wp_step. eapply upd_wp; [done|apply lookup_insert_eq|done|by left|by intros z [= <-]|]. rewrite insert_insert_eq. intros s4 Hi5 Hx4.
  wp_step. eapply upd_wp; [done|apply lookup_insert_eq|done|by left|by intros z [= <-]|]. rewrite insert_insert_eq. intros s5 Hi6 Hx5.
  wp_step. eapply (upd_wp x_host fc NB _ q (v_set_rcnt 1)); [done|apply lookup_insert_eq|exact (plain_rcnt (fun _ => 1))|by right|by intros z [= <-]|].
  rewrite insert_insert_eq. intros s6 Hi7 Hx6.
  wp_step. eapply (sort_wp q _ p' ns' id num); [done|apply lookup_insert_eq|done|done|done|done|by apply (evicted_none A)|]. intros s7 Hi8 Hf7.
  rewrite Hx6, Hx5, Hx4, Hx3 in Hf7. rewrite Hx1 in Hf2.
  wp_step. eapply UNLOCK_vn_wp.
  { eapply (name_back q _ id num); [done|apply lookup_insert_eq| | |].
    - split; [done|]. right. right. split; [done|]. split; [by exists p'|done].
    - eexists _, p', ns'. rewrite lookup_insert_eq. done.
    - intros o Ho. destruct (sp_mounted _ _ (iv_spaces _ _ _ _ _ _ _ _ _ Hi) p' ns' Hns') as (a & Ha' & _).
      rewrite (owner_at fc NB _ p' ns' a) in Ho by done. injection Ho as <-. 
      cbn [vdata vnid v_set_rcnt v_set_data v_set_vnid v_set_ns].
      assert (fs_name (id, num) (a, ns_data ns', num)) as Hn by (exists p', ns', a; done).
      apply (Hf7 (fun _ => False)); [tauto|]. apply Hf2; [|by apply Hd]. intros k Hk [e He].
      assert (k = (id, num)) as -> by (eapply (fs_name_inj fc NB); [apply Hi|done|done]). unfold absent in Ha. congruence. }
  intros s8 Hi9 Hx8. wp_step. eapply (HQ s8 _ A0 q); [done| | |].
  - assert (forall w, entry_of q (v_set_rcnt 1 (v_set_data d w)) = Entry 1 (vn_remove w) d (mounted w) q) as Ee by done. rewrite Ee in Hi9. cbn in Hi9.
    rewrite F3, F6 in Hi9. exact Hi9.
  - rewrite <- Hdom. apply dom_insert_lookup_L. by exists v.
  - rewrite Hx8. eapply framed_trans; [|apply Hf7]. eapply framed_mono; [|exact (fun E => E)|exact Hf2]. by left.
Qed.
End table.
