(* ===== verification/VnodeSpec.v ===== *)
(** * VnodeSpec: the contract of the vnode layer (kernel.c)

    File systems and system calls use the vnode layer through numbers: they
    ask for vnode [num] of name space [id], get its data and a reference, and
    give the reference back.  The contract is a table of entries that counts
    references; what is cached without references may vanish at any time. *)

From stdpp Require Import sorting.
From S2P Require Import Prelude Bytes Host SkipList Kernel Links Vnode VnodeLists VnodeInv VnodeStep VnodeTable.
Local Open Scope Z_scope.

(** ** Clients

    The calls of a file system, and what it does with its own state between
    them ([Work]). *)

Inductive cmd (X : Type) :=
  | Get (id num : Z)
  | Put (id num : Z)
  | New (id num : Z) (d : option Z)
  | Remove (id num : Z)
  | Unremove (id num : Z)
  | IsRemoved (id num : Z)
  | Work (m : M X Z).
Arguments Get {X}. Arguments Put {X}. Arguments New {X}. Arguments Remove {X}. Arguments Unremove {X}.
Arguments IsRemoved {X}. Arguments Work {X}.

Abbreviation result := (Z * option Z)%type.

(** A client chooses its next command by the results so far. *)
Inductive client (X : Type) :=
  | Stop
  | Do (c : cmd X) (k : result -> client X).
Arguments Stop {X}. Arguments Do {X}.

Definition key_of {X} (c : cmd X) : option (Z * Z) :=
  match c with
  | Get id num | Put id num | New id num _ | Remove id num | Unremove id num | IsRemoved id num => Some (id, num)
  | Work _ => None
  end.

(** The vnode of an entry, its count and its mark for removal aside. *)
Definition same_vnode (e e' : entry) : Prop := e_data e' = e_data e /\ e_mounted e' = e_mounted e /\ e_at e' = e_at e.

(** The entries with references. *)
Definition is_held (e : entry) : Prop := 0 < e_refs e.
#[export] Instance is_held_dec e : Decision (is_held e) := decide (0 < e_refs e).
Definition held (A : table) : gset (Z * Z) := dom (filter (fun ke => is_held ke.2) A).

Lemma elem_of_held A k : k ∈ held A <-> exists e, A !! k = Some e /\ is_held e.
Proof. unfold held. rewrite elem_of_dom. split; [intros [e [H1 H2]%map_lookup_filter_Some]; eauto|intros (e & H1 & H2); exists e; by apply map_lookup_filter_Some]. Qed.

Section spec.
Context {X : Type} (x_host : X -> host) (x_set_host : host -> X -> X) (fs_table : Z -> fs_ops X) (fc : contract X).
Context `{!FileSystems x_host x_set_host fs_table fc}.
Context (NB : gmap Z nspace).
Abbreviation kstate := (Vnode.kstate (X := X)).

Definition run_cmd (c : cmd X) : M kstate result :=
  match c with
  | Get id num => get_vnode x_host x_set_host fs_table id num
  | Put id num => err ← put_vnode fs_table id num; mret (err, None)
  | New id num d => err ← new_vnode x_host x_set_host fs_table id num d; mret (err, None)
  | Remove id num => err ← remove_vnode id num; mret (err, None)
  | Unremove id num => err ← unremove_vnode id num; mret (err, None)
  | IsRemoved id num => err ← is_vnode_removed id num; mret (err, None)
  | Work m => err ← in_ext m; mret (err, None)
  end.

Fixpoint run_client (p : client X) : M kstate (list (cmd X * result)) :=
  match p with
  | Stop => mret []
  | Do c k => r ← run_cmd c; tr ← run_client (k r); mret ((c, r) :: tr)
  end.

(** ** The table *)

Definition flag_post (b : bool) (k : Z * Z) (A : table) (r : result) (A' : table) : Prop :=
  match A !! k with
  | Some e => if decide (is_held e) then r = (0, None) /\ A' = <[k := Entry (e_refs e) b (e_data e) (e_mounted e) (e_at e)]> A else r = (ENOENT, None) /\ A' = A
  | None => r = (ENOENT, None) /\ A' = A
  end.

Lemma flag_refs b k A r A' j : flag_post b k A r A' -> match A' !! j with Some e => e_refs e | None => 0 end = match A !! j with Some e => e_refs e | None => 0 end.
Proof.
  unfold flag_post. destruct (A !! k) as [e|] eqn:E; [|by intros [_ ->]]. destruct (decide (is_held e)); intros [_ ->]; [|done].
  destruct (decide (k = j)) as [<-|Hne]; [by rewrite lookup_insert_eq, E|by rewrite lookup_insert_ne].
Qed.

Lemma flag_keeps b j A r A' k e :
  flag_post b j A r A' -> A !! k = Some e -> is_held e -> exists e', A' !! k = Some e' /\ is_held e' /\ same_vnode e e'.
Proof.
  unfold flag_post. intros Hst Hk Hh. destruct (A !! j) as [e0|] eqn:E; [|destruct Hst as [_ ->]; by exists e].
  destruct (decide (is_held e0)); destruct Hst as [_ ->]; [|by exists e].
  destruct (decide (j = k)) as [->|Hne]; [|exists e; by rewrite lookup_insert_ne].
  assert (e0 = e) as -> by congruence. eexists. by rewrite lookup_insert_eq.
Qed.

(** The state of the machine: the table, and the file systems' own state,
    which the layer changes only by asking them for vnodes of the table and
    the one that is asked for. *)
Definition step (A : table) (x : X) (c : cmd X) (r : result) (A' : table) (x' : X) : Prop :=
  match c with
  | Get id num => load_post x_host fs_table fc NB true id num A A' r.1 r.2 x x'
  | Put id num =>
      match A !! (id, num) with
      | Some e => r = (0, None) /\ dec_post (id, num) e A A' /\ framed x_host fc NB (e_removed e) (inside A) x x'
      | None => r = (ENOENT, None) /\ A' = A /\ x' = x
      end
  | New id num d =>
      r = (0, None) /\ (exists A0 q, evicted A A0 /\ A' = <[(id, num) := Entry 1 false d None q]> A0) /\ framed x_host fc NB false (asked A (id, num)) x x'
  | Remove id num => flag_post true (id, num) A r A' /\ x' = x
  | Unremove id num => flag_post false (id, num) A r A' /\ x' = x
  | IsRemoved id num =>
      r = (match A !! (id, num) with Some e => if e_removed e then 1 else 0 | None => ENOENT end, None) /\ A' = A /\ x' = x
  | Work m => A' = A /\ exists v, r = (v, None) /\ m x = Done (v, x')
  end.

(** The file systems are in a good state and the data of the table is theirs. *)
Definition tended (A : table) (x : X) : Prop :=
  fc_good fc x /\ forall k e o, A !! k = Some e -> fs_name fc NB k o -> fc_owns fc x o (e_data e).

(** What a client owes: [n] is the number of vnodes. *)
Definition allowed (n : nat) (A : table) (x : X) (c : cmd X) : Prop :=
  match c with
  | Get id num => A !! (id, num) = None -> (size (held A) < n)%nat
  | Put id num => forall e, A !! (id, num) = Some e -> is_held e
  | New id num d => A !! (id, num) = None /\ (exists p ns, mounted_at NB id p ns) /\ (size (held A) < n)%nat /\
      forall o, fs_name fc NB (id, num) o -> fc_owns fc x o d
  | Work m => wp m (fun _ x' => tended A x' /\ h_brk (x_host x) <= h_brk (x_host x')) x
  | _ => True
  end.

(** The client keeps to that whatever the machine answers. *)
Fixpoint safe (n : nat) (A : table) (x : X) (p : client X) : Prop :=
  match p with
  | Stop => True
  | Do c k => allowed n A x c /\ forall r A' x', step A x c r A' x' -> tended A' x' -> safe n A' x' (k r)
  end.

Fixpoint steps (A : table) (x : X) (tr : list (cmd X * result)) (A' : table) (x' : X) : Prop :=
  match tr with
  | [] => A' = A /\ x' = x
  | (c, r) :: tr => exists A1 x1, step A x c r A1 x1 /\ steps A1 x1 tr A' x'
  end.

(** ** The layer stands for a table *)

Definition stands (n : nat) (s : kstate) (A : table) : Prop :=
  exists B, inv x_host fc NB None None 1 s B A /\ size (dom B) = n.

(** With fewer entries held than there are vnodes, one is not in use. *)
Lemma count_spare s B A : inv x_host fc NB None None 1 s B A -> (size (held A) < size (dom B))%nat -> spare B.
Proof.
  intros Hi Hlt. destruct (decide (map_Forall (fun _ v => rcnt v <> 0) B)) as [Hall|Hno].
  2: { apply map_not_Forall in Hno as (q & v & Hq & Hv); [|apply _]. exists q, v. split; [done|]. by apply dec_stable. }
  exfalso. pose proof (iv_core _ _ _ _ _ _ _ _ _ Hi) as Hc.
  assert (forall q, q ∈ dom B -> exists k v, B !! q = Some v /\ named B NB q k.1 k.2 /\ k ∈ held A) as Hk.
  { intros q [v Hq]%elem_of_dom. pose proof (Hall q v Hq) as Hr. cbn in Hr.
    destruct (iv_rest _ _ _ _ _ _ _ _ _ Hi q v Hq ltac:(done)) as [_ [(_&_&?&_)|[(_&_&?&_)|(_ & [p Hp] & Hpos)]]]; [done..|].
    destruct (named_at NB B q v p Hq Hp (co_dom _ _ _ _ Hc q v p Hq Hp)) as (ns & Hns & Hn). exists (nsid ns, vnid v), v.
    split; [done|]. split; [done|]. apply elem_of_held. exists (entry_of q v). split; [|done].
    by apply (shows_lookup B NB A q v _ _ (iv_shows _ _ _ _ _ _ _ _ _ Hi)). }
  set (nm := fun q => match B !! q with
    | Some v => match vn_ns v with Some p => match NB !! p with Some ns => (nsid ns, vnid v) | None => (0, 0) end | None => (0, 0) end
    | None => (0, 0) end).
  assert (forall q k, named B NB q k.1 k.2 -> nm q = k) as Hnm.
  { intros q [k1 k2] (v & p & ns & Hq & Hp & Hns & E1 & E2). cbn in *. unfold nm. rewrite Hq, Hp, Hns. congruence. }
  assert (NoDup (nm <$> elements (dom B))) as Hnd.
  { apply NoDup_fmap_2_strong; [|apply NoDup_elements]. intros q q' Hq%elem_of_elements Hq'%elem_of_elements E.
    destruct (Hk q Hq) as (k & v & _ & Hn & _), (Hk q' Hq') as (k' & v' & _ & Hn' & _).
    rewrite (Hnm q k Hn), (Hnm q' k' Hn') in E. subst k'. by apply (named_unique None (k_layer s) B NB q q' k.1 k.2). }
  assert ((nm <$> elements (dom B)) ⊆+ elements (held A)) as Hsub.
  { apply NoDup_submseteq; [done|]. intros k (q & -> & Hq%elem_of_elements)%list_elem_of_fmap.
    destruct (Hk q Hq) as (k & v & _ & Hn & Hh). rewrite (Hnm q k Hn). by apply elem_of_elements. }
  apply submseteq_length in Hsub. rewrite length_fmap in Hsub. unfold size, set_size in Hlt. cbn in Hlt. lia.
Qed.

Lemma stands_intro s B A (D : gset Z) n : inv x_host fc NB None None 1 s B A -> dom B = D -> size D = n -> stands n s A.
Proof. intros Hi <- Hn. by exists B. Qed.

Lemma inv_tended s B A : inv x_host fc NB None None 1 s B A -> tended A (k_ext s).
Proof.
  intros Hi. split; [apply Hi|]. intros k e o Hk (p' & ns' & a' & H1 & H2 & H3 & ->).
  destruct (shows_find B NB A k e (iv_shows _ _ _ _ _ _ _ _ _ Hi) Hk) as (q & v & Hq & <- & Hn).
  destruct Hn as (w & p & ns & Hw & Hp & Hns & E1 & E2). assert (w = v) as -> by congruence.
  apply (iv_owns _ _ _ _ _ _ _ _ _ Hi q); [done|done|].
  pose proof (co_tab _ _ _ _ (iv_core _ _ _ _ _ _ _ _ _ Hi)) as [_ _ Ht].
  pose proof (Ht p ns Hns) as G1. pose proof (Ht p' ns' H1) as G2. rewrite E1 in G1. rewrite H2, G1 in G2. injection G2 as <-.
  assert (ns' = ns) as -> by congruence. rewrite <- E2. by apply (owner_at fc NB v p ns a').
Qed.

(** The file systems have changed, but not what the layer has of them. *)
Lemma inv_work s B A x :
  inv x_host fc NB None None 1 s B A -> tended A x -> h_brk (x_host (k_ext s)) <= h_brk (x_host x) ->
  inv x_host fc NB None None 1 (KS (k_layer s) x) B A.
Proof.
  intros [I1 I2 I3 I4 I5 I6 I7 I8 I9 I10] [Hg Ht] Hb. split; cbn; try done.
  - intros p Hp. specialize (I4 p Hp). lia.
  - intros q v o Hq _ Ho. assert (exists p, vn_ns v = Some p) as [p Hp].
    { unfold owner_of in Ho. destruct (vn_ns v) as [p|]; [by exists p|done]. }
    destruct (named_at NB B q v p Hq Hp (co_dom _ _ _ _ I1 q v p Hq Hp)) as (ns & Hns & Hn).
    change (vdata v) with (e_data (entry_of q v)). apply (Ht (nsid ns, vnid v)); [by apply (shows_lookup B NB A q v)|].
    by apply (owner_name fc NB B q v).
Qed.

Lemma set_removed_step b id num s B A n :
  inv x_host fc NB None None 1 s B A -> size (dom B) = n ->
  wp (set_removed b id num) (fun err s' => exists A', flag_post b (id, num) A (err, None) A' /\ k_ext s' = k_ext s /\ stands n s' A') s.
Proof.
  intros Hi Hn. eapply (set_removed_wp x_host fc NB); [done|..].
  - intros Ha s' Hi' Hx. exists A. split; [|split; [done|by exists B]]. unfold flag_post. destruct (A !! (id, num)) as [e|]; [|done].
    rewrite decide_False; [done|]. unfold is_held. rewrite (Ha e); [lia|done].
  - intros e s' B' He Hpos Hi' Hd Hx. eexists. split; [|split; [done|by apply (stands_intro s' B' _ (dom B))]]. unfold flag_post.
    rewrite He. by rewrite decide_True.
Qed.

Lemma run_cmd_wp n c s A :
  stands n s A -> allowed n A (k_ext s) c -> wp (run_cmd c) (fun r s' => exists A', step A (k_ext s) c r A' (k_ext s') /\ stands n s' A') s.
Proof.
  intros (B & Hi & Hn) Hal. destruct c as [id num|id num|id num d|id num|id num|id num|m]; cbn [run_cmd step allowed] in *.
  - eapply (get_vnode_wp x_host x_set_host fs_table fc NB); [done|intros Ha; eapply count_spare; [done|]; rewrite Hn; by apply Hal|].
    intros s' B' A' err d Hi' Hd Hp. exists A'. split; [done|]. by apply (stands_intro s' B' A' (dom B)).
  - wp_step. eapply (put_vnode_wp x_host x_set_host fs_table fc NB); [done|done|..].
    + intros Ha s' Hi' Hx. wp_step. exists A. unfold absent in Ha. rewrite Ha. split; [done|]. by exists B.
    + intros e s' B' A' He Hi' Hd Hp Hf. wp_step. exists A'. rewrite He. split; [done|]. by apply (stands_intro s' B' A' (dom B)).
  - destruct Hal as (Ha & (p & ns & Hm) & Hlt & Hd). wp_step.
    eapply (new_vnode_wp x_host x_set_host fs_table fc NB); [done|eapply count_spare; [done|by rewrite Hn]|done|done|done|].
    intros s' B' A0 q Hev Hi' Hd' Hf. wp_step. eexists. split; [split; [done|split; [by exists A0, q|done]]|].
    by apply (stands_intro s' B' _ (dom B)).
  - wp_step. eapply wp_mono; [by apply (set_removed_step true id num s B A n)|]. cbn beta. intros err s' (A' & ? & ? & ?). wp_step. by exists A'.
  - wp_step. eapply wp_mono; [by apply (set_removed_step false id num s B A n)|]. cbn beta. intros err s' (A' & ? & ? & ?). wp_step. by exists A'.
  - wp_step. eapply (is_vnode_removed_wp x_host fc NB); [done|]. intros s' Hi' Hx. wp_step. exists A. split; [done|]. by exists B.
  - apply wp_done in Hal as (v & x' & E & Ht & Hb). wp_step. unfold in_ext. wp_step. eapply wp_run; [exact E|]. wp_step.
    exists A. split; [split; [done|by exists v]|]. exists B. split; [by apply inv_work|done].
Qed.
Lemma run_client_wp n p s A :
  stands n s A -> safe n A (k_ext s) p ->
  wp (run_client p) (fun tr s' => exists A', steps A (k_ext s) tr A' (k_ext s') /\ stands n s' A') s.
Proof.
  revert s A. induction p as [|c k IH]; intros s A Hs Hsafe; cbn [run_client].
  - wp_step. by exists A.
  - destruct Hsafe as [Hal Hk]. wp_step. eapply wp_mono; [by apply (run_cmd_wp n c s A)|]. intros r s1 (A1 & Hst & Hs1).
    pose proof Hs1 as (B1 & Hi1 & _).
    wp_step. eapply wp_mono; [apply (IH r s1 A1 Hs1), (Hk r A1 _ Hst); by eapply inv_tended|]. intros tr s2 (A2 & Htr & Hs2). wp_step.
    exists A2. split; [by exists A1, (k_ext s1)|done].
Qed.

(** ** Counting references *)

Definition refs (A : table) (k : Z * Z) : Z := match A !! k with Some e => e_refs e | None => 0 end.

(** What a command adds to the references of [k]. *)
Definition delta (k : Z * Z) (c : cmd X) (r : result) : Z :=
  if decide (key_of c = Some k) then
    match c with Get _ _ | New _ _ _ => if r.1 =? 0 then 1 else 0 | Put _ _ => if r.1 =? 0 then -1 else 0 | _ => 0 end
  else 0.
Definition balance (k : Z * Z) (tr : list (cmd X * result)) : Z := foldr (fun cr n => delta k cr.1 cr.2 + n) 0 tr.

Lemma refs_insert A k e j : refs (<[k := e]> A) j = if decide (k = j) then e_refs e else refs A j.
Proof. unfold refs. destruct (decide (k = j)) as [->|Hne]; [by rewrite lookup_insert_eq|by rewrite lookup_insert_ne]. Qed.
Lemma refs_evicted A A' j : evicted A A' -> refs A' j = refs A j.
Proof.
  intros [->|(k & e & Hk & He & ->)]; [done|]. unfold refs. destruct (decide (k = j)) as [->|Hne]; [by rewrite lookup_delete_eq, Hk|].
  by rewrite lookup_delete_ne.
Qed.

Ltac own_key := repeat match goal with |- context [decide (?a = ?b)] => destruct (decide (a = b)) end; simplify_eq; try lia.

Lemma step_refs n A x c r A' x' j : allowed n A x c -> step A x c r A' x' -> refs A' j = refs A j + delta j c r.
Proof.
  intros Hal Hst. unfold delta. destruct c as [id num|id num|id num d|id num|id num|id num|m]; cbn [step allowed key_of] in *.
  - unfold load_post in Hst. destruct (A !! (id, num)) as [e|] eqn:E.
    + destruct Hst as (-> & _ & _ & ->). assert (refs A (id, num) = e_refs e) as E0 by (unfold refs; by rewrite E).
      rewrite refs_insert. own_key; cbn; lia.
    + assert (refs A (id, num) = 0) as E0 by (unfold refs; by rewrite E).
      destruct Hst as (_ & A0 & Hev & [(-> & -> & _)|(p & ns & a & xr & d' & _ & _ & _ & _ & [(-> & _ & z & ->)|(Hne & ->)])]);
        pose proof (refs_evicted A A0 j Hev) as Hr; rewrite ?refs_insert.
      * own_key; cbn; lia.
      * own_key; cbn; lia.
      * rewrite (proj2 (Z.eqb_neq r.1 0)) by done. own_key; lia.
  - destruct (A !! (id, num)) as [e|] eqn:E.
    + destruct Hst as (-> & Hp & _). assert (refs A (id, num) = e_refs e) as E0 by (unfold refs; by rewrite E). unfold dec_post in Hp. cbn [fst].
      destruct (Z.eqb_spec (e_refs e) 1) as [E1|E1]; [destruct (e_removed e)|].
      * subst A'. destruct (decide (j = (id, num))) as [->|Hne]; unfold refs in *; [rewrite lookup_delete_eq|rewrite lookup_delete_ne by done];
          own_key; cbn; lia.
      * rewrite (refs_evicted _ _ j Hp), refs_insert. own_key; cbn; lia.
      * subst A'. rewrite refs_insert. own_key; cbn; lia.
    + destruct Hst as (-> & -> & _). own_key; cbn; lia.
  - destruct Hal as [Ha _], Hst as (-> & (A0 & z & Hev & ->) & _). assert (refs A (id, num) = 0) as E0 by (unfold refs; by rewrite Ha).
    pose proof (refs_evicted A A0 j Hev) as Hr. rewrite refs_insert. own_key; cbn; lia.
  - unfold refs. rewrite (flag_refs _ _ _ _ _ j (proj1 Hst)). own_key; lia.
  - unfold refs. rewrite (flag_refs _ _ _ _ _ j (proj1 Hst)). own_key; lia.
  - destruct Hst as (_ & -> & _). own_key; lia.
  - destruct Hst as (-> & _). own_key; lia.
Qed.

Lemma run_client_balance n p s A :
  stands n s A -> safe n A (k_ext s) p ->
  wp (run_client p) (fun tr s' => exists A', stands n s' A' /\ forall k, refs A' k = refs A k + balance k tr) s.
Proof.
  revert s A. induction p as [|c k IH]; intros s A Hs Hsafe; cbn [run_client].
  - wp_step. exists A. split; [done|]. intros k. cbn. lia.
  - destruct Hsafe as [Hal Hk]. wp_step. eapply wp_mono; [by apply (run_cmd_wp n c s A)|]. intros r s1 (A1 & Hst & Hs1).
    pose proof Hs1 as (B1 & Hi1 & _).
    wp_step. eapply wp_mono; [apply (IH r s1 A1 Hs1), (Hk r A1 _ Hst); by eapply inv_tended|]. intros tr s2 (A2 & Hs2 & Hb).
    wp_step. exists A2. split; [done|].
    intros j. rewrite Hb, (step_refs n A (k_ext s) c r A1 (k_ext s1) j) by done. change (balance j ((c, r) :: tr)) with (delta j c r + balance j tr). lia.
Qed.

(** An entry that is held keeps its data. *)
Lemma evicted_held A A' k e : evicted A A' -> A !! k = Some e -> is_held e -> A' !! k = Some e.
Proof.
  intros [->|(j & e' & Hj & He & ->)] Hk Hh; [done|]. rewrite lookup_delete_ne; [done|]. intros ->. unfold is_held in Hh.
  assert (e' = e) by congruence. subst. lia.
Qed.

Definition keeps (k : Z * Z) (e : entry) (A' : table) : Prop := exists e', A' !! k = Some e' /\ is_held e' /\ same_vnode e e'.

Lemma keeps_same k e A' : A' !! k = Some e -> is_held e -> keeps k e A'.
Proof. intros H1 H2. by exists e. Qed.
Lemma keeps_insert k e j e' A' :
  (k = j -> is_held e' /\ same_vnode e e') -> (k <> j -> keeps k e A') -> keeps k e (<[j := e']> A').
Proof.
  intros H1 H2. destruct (decide (k = j)) as [->|Hne]; [exists e'; rewrite lookup_insert_eq; by destruct (H1 eq_refl)|].
  destruct (H2 Hne) as (x & Hx & ?). exists x. by rewrite lookup_insert_ne.
Qed.

Lemma step_keeps n A x c r A' x' k e :
  allowed n A x c -> step A x c r A' x' -> A !! k = Some e -> is_held e -> (c = Put k.1 k.2 -> 1 < e_refs e) -> keeps k e A'.
Proof.
  intros Hal Hst Hk Hh Hp. destruct c as [id num|id num|id num d|id num|id num|id num|m]; cbn [step allowed] in *.
  - unfold load_post in Hst. destruct (A !! (id, num)) as [e0|] eqn:E.
    + destruct Hst as (_ & _ & _ & ->). apply keeps_insert; [|intros; by apply keeps_same]. intros ->.
      assert (e0 = e) as -> by congruence. unfold is_held in *. cbn. split; [lia|done].
    + destruct Hst as (_ & A0 & Hev & Hst). pose proof (evicted_held A A0 k e Hev Hk Hh) as Hk0.
      destruct Hst as [(_ & -> & _)|(p & ns & a & xr & d' & _ & _ & _ & _ & [(_ & _ & z & ->)|(_ & ->)])]; [by apply keeps_same| |by apply keeps_same].
      apply keeps_insert; [intros ->; congruence|intros; by apply keeps_same].
  - destruct (A !! (id, num)) as [e0|] eqn:E; [|destruct Hst as (_ & -> & _); by apply keeps_same]. destruct Hst as (_ & Hst & _).
    assert (k = (id, num) -> 1 < e_refs e /\ e0 = e) as Hsame.
    { intros ->. split; [by apply Hp|congruence]. }
    unfold dec_post in Hst. destruct (Z.eqb_spec (e_refs e0) 1) as [E1|E1].
    + assert (k <> (id, num)) as Hne by (intros Ek; destruct (Hsame Ek) as [H1 ->]; lia). destruct (e_removed e0).
      * subst A'. apply keeps_same; [|done]. by rewrite lookup_delete_ne.
      * apply keeps_same; [|done]. eapply evicted_held; [done| |done]. by rewrite lookup_insert_ne.
    + subst A'. apply keeps_insert; [|intros; by apply keeps_same]. intros Ek. destruct (Hsame Ek) as [H1 ->]. unfold is_held. cbn. split; [lia|done].
  - destruct Hal as [Ha _], Hst as (_ & (A0 & z & Hev & ->) & _). apply keeps_insert; [intros ->; congruence|]. intros _.
    apply keeps_same; [|done]. by apply (evicted_held A A0).
  - destruct Hst as [Hst _]. eapply flag_keeps; done.
  - destruct Hst as [Hst _]. eapply flag_keeps; done.
  - destruct Hst as (_ & -> & _). by apply keeps_same.
  - destruct Hst as (-> & _). by apply keeps_same.
Qed.
End spec.
