(* ===== verification/VnodeInit.v ===== *)
(** * VnodeInit: the state the vnode layer starts in (kernel.c)

    [init_vnode_layer] puts every vnode on the free list; name spaces start
    without vnodes.  From there the layer stands for the empty table, and the
    theorems of the contract hold of every client. *)

From stdpp Require Import sorting.
From S2P Require Import Prelude Bytes Host SkipList Kernel Links Vnode VnodeLists VnodeInv VnodeStep VnodeTable VnodeSpec.
Local Open Scope Z_scope.

(** ** All vnodes free *)

Definition free_vn (i n : Z) : vnode :=
  Vnode invalid_vnid None None false false FREE_LIST no_link
    (VnLink (if i =? 0 then None else Some i) (if i =? n - 1 then None else Some (i + 2))) 0 None.

Lemma init_vns_lookup n i m p :
  init_vns n i m !! p = if decide (i < p <= i + Z.of_nat n) then Some (free_vn (p - 1) m) else None.
Proof.
  revert i. induction n as [|n IH]; intros i; cbn [init_vns].
  - rewrite decide_False by lia. apply lookup_empty.
  - destruct (decide (p = i + 1)) as [->|Hne].
    + rewrite lookup_insert_eq, decide_True by lia. unfold free_vn. replace (i + 1 - 1) with i by lia. done.
    + rewrite lookup_insert_ne, IH by done. destruct (decide (i < p <= i + Z.of_nat (S n))).
      * by rewrite decide_True by lia.
      * by rewrite decide_False by lia.
Qed.

Lemma seqZ_split n l1 p l2 : seqZ 1 n = l1 ++ p :: l2 ->
  p = 1 + len l1 /\ last l1 = (if p - 1 =? 0 then None else Some (p - 1)) /\ head l2 = (if p =? n then None else Some (p + 1)).
Proof.
  intros E. assert (forall i q, (l1 ++ p :: l2) !! i = Some q -> q = 1 + Z.of_nat i) as Hat.
  { intros i q. rewrite <- E. intros [-> _]%lookup_seqZ. done. }
  assert (p = 1 + len l1) as Ep.
  { apply Hat. by rewrite lookup_app_r, Nat.sub_diag by lia. }
  split; [done|]. split.
  - destruct l1 as [|a l1 _] using rev_ind; [unfold len in Ep; cbn in Ep; by rewrite (proj2 (Z.eqb_eq _ _)) by lia|].
    rewrite last_snoc. unfold len in Ep. rewrite length_app in Ep. cbn [length] in Ep. rewrite (proj2 (Z.eqb_neq _ _)) by lia. f_equal.
    rewrite (Hat (length l1) a); [lia|]. rewrite <- app_assoc. by rewrite lookup_app_r, Nat.sub_diag by lia.
  - pose proof (f_equal length E) as El. rewrite length_seqZ, length_app in El. unfold len in Ep. destruct l2 as [|b l2]; cbn [head length] in *.
    + by rewrite (proj2 (Z.eqb_eq _ _)) by lia.
    + rewrite (proj2 (Z.eqb_neq _ _)) by lia. f_equal. rewrite (Hat (S (length l1)) b); [lia|].
      rewrite lookup_app_r by lia. by replace (S (length l1) - length l1)%nat with 1%nat by lia.
Qed.

Definition init_ls (n : Z) : Z -> list Z := fun k => if k =? FREE_LIST then seqZ 1 n else [].

Lemma init_lists_ok n : 0 < n -> lists_ok (init_vns (Z.to_nat n) 0 n) (init_lists n) (init_ls n).
Proof.
  intros Hn. assert (forall p, init_vns (Z.to_nat n) 0 n !! p = if decide (0 < p <= n) then Some (free_vn (p - 1) n) else None) as Hl.
  { intros p. rewrite init_vns_lookup. replace (0 + Z.of_nat (Z.to_nat n)) with n by lia. done. }
  split.
  - done.
  - intros k Hk. unfold init_ls. assert (k = 0 \/ k = 1 \/ k = 2) as [->|[->| ->]] by lia; [|done..].
    change (init_lists n !! Z.to_nat 0) with (Some (VnList (Some 1) (Some n) n)). f_equal. unfold vlist, len. cbn [Z.eqb FREE_LIST].
    rewrite length_seqZ. f_equal; [| |lia].
    + by rewrite seqZ_cons by lia.
    + rewrite last_lookup, length_seqZ, lookup_seqZ_lt by lia. f_equal. lia.
  - intros k Hk. unfold init_ls. destruct (Z.eqb_spec k FREE_LIST) as [->|]; [|apply linked_nil]. split; [apply NoDup_seqZ|].
    intros l1 p l2 E. destruct (seqZ_split n l1 p l2 E) as (Ep & -> & ->).
    assert (p ∈ seqZ 1 n) as Hp by (rewrite E, elem_of_app, elem_of_cons; auto). apply elem_of_seqZ in Hp.
    rewrite lookup_fmap, Hl, decide_True by lia. cbn [fmap option_fmap option_map free_vn vn_list]. do 2 f_equal.
    destruct (Z.eqb_spec p n), (Z.eqb_spec (p - 1) (n - 1)); try lia; [done|f_equal; lia].
  - intros k p Hk. rewrite lookup_fmap, Hl. unfold init_ls. destruct (Z.eqb_spec k FREE_LIST) as [->|Hne].
    + rewrite elem_of_seqZ. destruct (decide (0 < p <= n)); cbn; split; try lia; done.
    + split; [by intros ?%elem_of_nil|]. destruct (decide (0 < p <= n)); cbn; [|done]. intros [= <-]. done.
  - intros p k. rewrite lookup_fmap, Hl. destruct (decide (0 < p <= n)); cbn; [|done]. by intros [= <-].
Qed.

(** A name space without vnodes. *)
Definition no_vnodes (ns : nspace) : Prop := l_head (ns_vnodes ns) = None /\ l_tail (ns_vnodes ns) = None.

Section init.
Context {X : Type} (x_host : X -> host) (x_set_host : host -> X -> X) (fs_table : Z -> fs_ops X) (fc : contract X).
Context `{!FileSystems x_host x_set_host fs_table fc}.
Abbreviation kstate := (Vnode.kstate (X := X)).

(** [n] vnodes as [init_vnode_layer] leaves them. *)
Record starting (n : Z) (s : kstate) : Prop := {
  sg_vns : vns (k_layer s) = init_vns (Z.to_nat n) 0 n;
  sg_lists : lists (k_layer s) = init_lists n;
  sg_skip : holds compare_vnode (skiplist (k_layer s)) [];
  sg_dup : allows_dup (skiplist (k_layer s)) = false;
  sg_ns : forall p ns, nspaces (k_layer s) !! p = Some ns -> no_vnodes ns;
  sg_tab : tab_ok (nbody <$> nspaces (k_layer s)) (nstab (k_layer s));
  sg_usd : 0 <= usdvnnum (k_layer s);
  sg_fixed : fixed_of (kern (k_layer s)) = (fc_ops fc, fc_root fc);
  sg_spaces : spaces_ok fc (nbody <$> nspaces (k_layer s));
  sg_lock : l_c (vnlock (k_layer s)) = 1;
  sg_alloc : allocated (skiplist (k_layer s)) (x_host (k_ext s));
  sg_good : fc_good fc (k_ext s);
}.

Lemma starting_stands n s :
  0 < n -> starting n s -> stands x_host fc (nbody <$> nspaces (k_layer s)) (Z.to_nat n) s ∅.
Proof.
  intros Hn [S1 S2 S3 S4 S5 S6 S7 S8 S9 S10 S11 S12]. destruct s as [l x]. cbn in *.
  assert (forall p v, (body <$> vns l) !! p = Some v -> 0 < p <= n /\ v = body (free_vn (p - 1) n)) as HB.
  { intros p v. rewrite lookup_fmap, S1, init_vns_lookup. replace (0 + Z.of_nat (Z.to_nat n)) with n by lia.
    destruct (decide (0 < p <= n)); cbn; [|done]. by intros [= <-]. }
  assert (forall q id num, ~ named (body <$> vns l) (nbody <$> nspaces l) q id num) as Hno.
  { intros q id num (v & p & ns & Hv & Hp & _). apply HB in Hv as [_ ->]. done. }
  exists (body <$> vns l). split.
  - split; cbn; try done.
    + split; try done.
      * exists (init_ls n). rewrite S1, S2. by apply init_lists_ok.
      * exists []. split; [done..|]. intros k. split; [by intros ?%elem_of_nil|]. intros [H _]. by destruct (Hno _ _ _ H).
      * exists (fun _ => []). split; [intros p ns Hns; apply (S5 p ns Hns)|intros; apply linked_nil|].
        intros p q Hp. split; [by intros ?%elem_of_nil|]. intros [H _]. rewrite lookup_fmap, S1, init_vns_lookup in H.
        by destruct (decide _).
      * intros q v p Hq Hp. apply HB in Hq as [_ ->]. done.
    + intros q v Hq _. apply HB in Hq as [_ ->]. split; [done|]. by left.
    + intros k e. rewrite lookup_empty. split; [done|]. intros (q & v & _ & _ & _ & H). by destruct (Hno _ _ _ H).
    + intros q v o Hq _ Ho. apply HB in Hq as [_ ->]. done.
  - rewrite dom_fmap_L, S1. assert (dom (init_vns (Z.to_nat n) 0 n) = list_to_set (seqZ 1 n)) as ->.
    { apply set_eq. intros p. rewrite elem_of_dom, init_vns_lookup, elem_of_list_to_set, elem_of_seqZ.
      destruct (decide _); split; intros H; [lia|by eexists|by destruct H|lia]. }
    rewrite size_list_to_set by apply NoDup_seqZ. by rewrite length_seqZ.
Qed.
End init.

(** ** Properties *)

Section properties.
Context {X : Type} (x_host : X -> host) (x_set_host : host -> X -> X) (fs_table : Z -> fs_ops X) (fc : contract X).
Context `{!FileSystems x_host x_set_host fs_table fc}.
Context (NB : gmap Z nspace).
Abbreviation kstate := (Vnode.kstate (X := X)).
Abbreviation stands := (VnodeSpec.stands x_host fc NB).

(** The vnodes [init_vnode_layer] sets up, all on the free list in order,
    with an empty skip list and name spaces without vnodes, stand for the
    empty table: every list is linked in both directions, counted and closed,
    and the vnodes say what their lists say. *)
Theorem init_vnodes_stand n (s : kstate) :
  0 < n -> starting x_host fc n s ->
  VnodeSpec.stands x_host fc (nbody <$> nspaces (k_layer s)) (Z.to_nat n) s ∅.
Proof. apply starting_stands. Qed.

(** C9. The vnode layer implements the table of references.  Any client that
    keeps to its side of the contract - gives back only what it holds, makes
    only vnodes that are not in memory, and leaves a vnode for the next - gets
    from the code the answers of the table, however the vnodes are stolen,
    flushed and reused underneath. *)
Theorem vnode_layer_refines_table n (p : client X) (s : kstate) A :
  stands n s A -> safe x_host fs_table fc NB n A (k_ext s) p ->
  wp (run_client x_host x_set_host fs_table p) (fun tr s' => exists A', steps x_host fs_table fc NB A (k_ext s) tr A' (k_ext s') /\ stands n s' A') s.
Proof. by apply (run_client_wp x_host x_set_host fs_table fc NB). Qed.

(** C25. [get_vnode]: a vnode in memory gets one more reference and no file
    system is called; otherwise, with a vnode to spare, the file system of its
    name space reads it and what that answers is the answer, ENOENT where no
    such name space is mounted; at most one entry without references went. *)
Theorem get_vnode_exact n id num (s : kstate) A :
  stands n s A -> (A !! (id, num) = None -> (size (held A) < n)%nat) ->
  wp (get_vnode x_host x_set_host fs_table id num) (fun r s' => exists A',
    load_post x_host fs_table fc NB true id num A A' r.1 r.2 (k_ext s) (k_ext s') /\ stands n s' A') s.
Proof.
  intros (B & Hi & Hn) Hal. eapply (get_vnode_wp x_host x_set_host fs_table fc NB); [exact Hi| |].
  - intros Ha. eapply count_spare; [exact Hi|]. rewrite Hn. by apply Hal.
  - intros s' B' A' err d Hi' Hd Hp. exists A'. split; [done|]. by apply (stands_intro x_host fc NB s' B' A' (dom B) n).
Qed.

(** C26. [put_vnode] of a vnode that is held: the count goes down by one; the
    last reference of a vnode marked for removal removes it from memory, and
    of another leaves it in memory, where it or one entry like it may go.  The
    file systems are asked only about vnodes of the table. *)
Theorem put_vnode_exact n id num e (s : kstate) A :
  stands n s A -> A !! (id, num) = Some e -> 0 < e_refs e ->
  wp (put_vnode fs_table id num) (fun err s' => err = 0 /\ framed x_host fc NB (e_removed e) (inside A) (k_ext s) (k_ext s') /\
    exists A', dec_post (id, num) e A A' /\ stands n s' A') s.
Proof.
  intros (B & Hi & Hn) He Hpos. eapply (put_vnode_wp x_host x_set_host fs_table fc NB); [exact Hi|..].
  - intros e' He'. by assert (e' = e) as -> by congruence.
  - intros Ha. unfold absent in Ha. congruence.
  - intros e' s' B' A' He' Hi' Hd Hp Hf. assert (e' = e) as -> by congruence. split; [done|]. split; [done|]. exists A'. split; [done|].
    by apply (stands_intro x_host fc NB s' B' A' (dom B) n).
Qed.

(** C23. No reference is lost or made up: after any client, the references of
    every vnode are those it had, plus one for each successful [get_vnode] and
    [new_vnode], minus one for each successful [put_vnode]. *)
Theorem references_balance n (p : client X) (s : kstate) A :
  stands n s A -> safe x_host fs_table fc NB n A (k_ext s) p ->
  wp (run_client x_host x_set_host fs_table p)
    (fun tr s' => exists A', stands n s' A' /\ forall k, refs A' k = refs A k + balance k tr) s.
Proof. by apply (run_client_balance x_host x_set_host fs_table fc NB). Qed.

(** C24. A vnode with references is not taken away: whatever else the layer is
    asked, short of giving back the last reference, it is still there after,
    at the same address with the same data, and that is still the data its
    file system has for it. *)
Theorem held_vnode_stays n (c : cmd X) k e (s : kstate) A :
  stands n s A -> allowed x_host fc NB n A (k_ext s) c -> A !! k = Some e -> is_held e -> (c = Put k.1 k.2 -> 1 < e_refs e) ->
  wp (run_cmd x_host x_set_host fs_table c)
    (fun _ s' => exists A' e', stands n s' A' /\ A' !! k = Some e' /\ is_held e' /\ same_vnode e e' /\
       forall o, fs_name fc NB k o -> fc_owns fc (k_ext s') o (e_data e)) s.
Proof.
  intros Hs Hal Hk Hh Hp. eapply wp_mono; [by apply (run_cmd_wp x_host x_set_host fs_table fc NB n c s A)|].
  intros r s' (A' & Hst & Hs'). destruct (step_keeps x_host fs_table fc NB n A (k_ext s) c r A' (k_ext s') k e Hal Hst Hk Hh Hp) as (e' & Hk' & Hh' & Hd).
  exists A', e'. split; [done|]. split; [done|]. split; [done|]. split; [done|]. intros o Ho. destruct Hd as [<- _]. destruct Hs' as (B' & Hi' & _).
  by apply (proj2 (inv_tended x_host fc NB s' B' A' Hi') k).
Qed.
End properties.

(** ** At a concrete layer: two vnodes, one name space *)

(** Vnodes below 100 can be read; their data is their number plus 1000. *)
Definition sample_fs : fs_ops host :=
  FsOps host (fun _ num _ => mret (if num <? 100 then (0, Some (num + 1000)) else (ENOENT, None)))
    (fun _ _ _ => mret 0) (fun _ _ _ => mret 0).

Definition any_change (h h' : host) : Prop := True.
Lemma any_order : PreOrder any_change.
Proof. by split. Qed.
Definition any_caller (r : bool) : Prop := True.
Definition sample_contract : contract host :=
  Contract host no_oom (fun a d => a = 80 /\ d = 70) (fun _ o d => d = Some (o.2 + 1000)) any_caller any_change any_order {[60 := 80]} None.

#[export] Instance sample_fs_ok : FileSystems (fun h : host => h) (fun h _ => h) (fun _ => sample_fs) sample_contract.
Proof. split; try done; intros; cbn; apply wp_ret; unfold moves; by destruct (_ <? _). Qed.

Definition empty_keys : SkipList vkey * host :=
  match NewSL [] NO_DUPLICATES (Host 0 0 0 1000 [] []) with
  | Done (Some l, h) => (l, h)
  | _ => (SL ∅ 0 0 0 0 [], Host 0 0 0 0 [] [])
  end.

Lemma empty_keys_ok : holds compare_vnode empty_keys.1 [] /\ allocated empty_keys.1 empty_keys.2 /\ allows_dup empty_keys.1 = false /\ no_oom empty_keys.2.
Proof.
  pose proof (new_spec compare_vnode [] NO_DUPLICATES (Host 0 0 0 1000 [] []) eq_refl) as H.
  unfold wp in H. unfold empty_keys. destruct (NewSL _ _ _) as [[r h0]| |] eqn:E; [|by destruct H|by destruct H].
  destruct H as (l0 & -> & Hl0 & Ha0 & Hf). cbn. split_and!; [done|done|unfold allows_dup; by rewrite Hf|].
  apply (f_equal (fun o => match o with Done (_, h) => h_oom h | _ => [true] end)) in E. by vm_compute in E.
Qed.

Definition sample_ns : nspace := Nspace 1 60 (VnList None None 0) 70 None None false 0 0 None None.
Definition sample_layer : kstate (X := host) :=
  KS (Layer (init_vns 2 0 2) (init_lists 2) empty_keys.1 {[50 := sample_ns]} [None; Some 50; None; None] (Lock 1 SemNull) 0
       (Statics None (Some 50) 2 [] {[60 := Fsystem 1 true (-1) [] 1 80]} (Lock 1 SemNull) 1 None ∅ ∅ (Ioctx (Lock 0 SemNull) None None)))
     empty_keys.2.

Definition sample_names : gmap Z nspace := nbody <$> {[50 := sample_ns]}.

Lemma sample_tab_ok : tab_ok sample_names [None; Some 50; None; None].
Proof.
  split; [done| |].
  - intros i p Hi. do 4 (destruct i as [|i]; [try discriminate; injection Hi as <-; by eexists|]). done.
  - intros p ns. unfold sample_names. rewrite map_fmap_singleton. intros [<- <-]%lookup_singleton_Some. done.
Qed.

Lemma sample_spaces_ok : spaces_ok sample_contract sample_names.
Proof.
  split.
  - intros p ns. unfold sample_names. rewrite map_fmap_singleton. intros [<- <-]%lookup_singleton_Some. exists 80. split; [|done].
    apply lookup_singleton_eq.
  - intros p p' ns ns'. unfold sample_names. rewrite map_fmap_singleton. by intros [<- _]%lookup_singleton_Some [<- _]%lookup_singleton_Some.
Qed.

Lemma sample_starting : starting (fun h => h) sample_contract 2 sample_layer.
Proof.
  destruct empty_keys_ok as (H1 & H2 & H3 & H4). split; try done.
  - intros p ns H. cbn in H. apply lookup_singleton_Some in H as [<- <-]. done.
  - apply sample_tab_ok.
  - apply sample_spaces_ok.
Qed.

Abbreviation sample_stands := (VnodeSpec.stands (fun h : host => h) sample_contract sample_names).
Lemma sample_layer_stands : sample_stands 2 sample_layer ∅.
Proof. apply (starting_stands (fun h => h) sample_contract 2 sample_layer); [done|apply sample_starting]. Qed.

Lemma init_vnodes_stand_witness : starting (fun h => h) sample_contract 2 sample_layer /\ sample_stands 2 sample_layer ∅.
Proof. split; [exact sample_starting|]. apply (init_vnodes_stand (fun h => h) sample_contract 2 sample_layer); [reflexivity|exact sample_starting]. Defined.

(** A client that gets vnode 7 and, when that succeeds, gives it back. *)
Definition sample_client : client host :=
  Do (Get 1 7) (fun r => if r.1 =? 0 then Do (Put 1 7) (fun _ => Stop) else Stop).

Lemma held_none : held ∅ = ∅.
Proof. apply set_eq. intros k. rewrite elem_of_held. split; [intros (e & H & _); by rewrite lookup_empty in H|set_solver]. Qed.

Lemma sample_client_safe : safe (fun h : host => h) (fun _ => sample_fs) sample_contract sample_names 2 ∅ (k_ext sample_layer) sample_client.
Proof.
  split; [intros _; rewrite held_none, size_empty; lia|]. intros r A' x' Hst _. cbn [step] in Hst. unfold load_post in Hst. rewrite lookup_empty in Hst.
  destruct Hst as (_ & A0 & _ & [(-> & -> & _)|(p & ns & a & xr & d' & _ & _ & _ & _ & [(-> & _ & z & ->)|(Hne & ->)])]); [done| |].
  - cbn [Z.eqb]. split; [|intros; exact I]. cbn. intros e. rewrite lookup_insert_eq. intros [= <-]. done.
  - rewrite (proj2 (Z.eqb_neq r.1 0)) by done. exact I.
Qed.

Lemma vnode_layer_refines_table_witness :
  wp (run_client (fun h : host => h) (fun h _ => h) (fun _ => sample_fs) sample_client)
    (fun tr s' => exists A', steps (fun h : host => h) (fun _ => sample_fs) sample_contract sample_names ∅ (k_ext sample_layer) tr A' (k_ext s') /\ sample_stands 2 s' A') sample_layer.
Proof.
  apply (vnode_layer_refines_table (fun h : host => h) (fun h _ => h) (fun _ => sample_fs) sample_contract sample_names 2 sample_client);
    [exact sample_layer_stands|exact sample_client_safe].
Defined.

Lemma references_balance_witness :
  wp (run_client (fun h : host => h) (fun h _ => h) (fun _ => sample_fs) sample_client)
    (fun tr s' => exists A', sample_stands 2 s' A' /\ forall k, refs A' k = refs ∅ k + balance k tr) sample_layer.
Proof.
  apply (references_balance (fun h : host => h) (fun h _ => h) (fun _ => sample_fs) sample_contract sample_names 2 sample_client);
    [exact sample_layer_stands|exact sample_client_safe].
Defined.

Lemma get_vnode_exact_witness :
  wp (get_vnode (fun h : host => h) (fun h _ => h) (fun _ => sample_fs) 1 7) (fun r s' => exists A',
    load_post (fun h : host => h) (fun _ => sample_fs) sample_contract sample_names true 1 7 ∅ A' r.1 r.2 (k_ext sample_layer) (k_ext s') /\ sample_stands 2 s' A') sample_layer.
Proof.
  apply (get_vnode_exact (fun h : host => h) (fun h _ => h) (fun _ => sample_fs) sample_contract sample_names 2 1 7);
    [exact sample_layer_stands|intros _; rewrite held_none, size_empty; lia].
Defined.

(** The layer with vnode 7 held once. *)
Definition sample_entry (q : Z) : entry := Entry 1 false (Some 1007) None q.
Lemma sample_held : exists s q, sample_stands 2 s {[(1, 7) := sample_entry q]}.
Proof.
  pose proof (run_cmd_wp (fun h : host => h) (fun h _ => h) (fun _ => sample_fs) sample_contract sample_names 2 (New 1 7 (Some 1007)) sample_layer ∅
    sample_layer_stands) as H. apply wp_done in H as (r & s & _ & A' & Hst & Hs).
  - exists s. destruct Hst as (_ & (A0 & q & [->|(k & e & He & _)] & ->) & _); [exists q; exact Hs|by rewrite lookup_empty in He].
  - split; [apply lookup_empty|]. split; [|split; [rewrite held_none, size_empty; lia|by intros o (p & ns & a & _ & _ & _ & ->)]]. exists 50, (nbody sample_ns).
    split; [|done]. unfold sample_names. by rewrite map_fmap_singleton, lookup_singleton_eq.
Qed.

Lemma put_vnode_exact_witness : exists s q,
  wp (put_vnode (fun _ => sample_fs) 1 7) (fun err s' => err = 0 /\
    framed (fun h : host => h) sample_contract sample_names false (inside {[(1, 7) := sample_entry q]}) (k_ext s) (k_ext s') /\ exists A',
    dec_post (1, 7) (sample_entry q) {[(1, 7) := sample_entry q]} A' /\ sample_stands 2 s' A') s.
Proof.
  destruct sample_held as (s & q & Hs). exists s, q.
  apply (put_vnode_exact (fun h : host => h) (fun h _ => h) (fun _ => sample_fs) sample_contract sample_names 2 1 7
    (sample_entry q) s {[(1, 7) := sample_entry q]});
    [exact Hs|apply lookup_singleton_eq|reflexivity].
Defined.

Lemma held_vnode_stays_witness : exists (s : kstate (X := host)) q,
  wp (run_cmd (fun h : host => h) (fun h _ => h) (fun _ => sample_fs) (Get 1 8))
    (fun _ s' => exists A' e', sample_stands 2 s' A' /\ A' !! (1, 7) = Some e' /\ is_held e' /\ same_vnode (sample_entry q) e' /\
       forall o, fs_name sample_contract sample_names (1, 7) o -> fc_owns sample_contract (k_ext s') o (Some 1007)) s.
Proof.
  destruct sample_held as (s & q & Hs). exists s, q.
  apply (held_vnode_stays (fun h : host => h) (fun h _ => h) (fun _ => sample_fs) sample_contract sample_names 2 (Get 1 8) (1, 7)
    (sample_entry q) s {[(1, 7) := sample_entry q]}); [exact Hs| |apply lookup_singleton_eq|reflexivity|discriminate].
  intros _. unfold held. rewrite map_filter_singleton_True by reflexivity. rewrite dom_singleton_L, size_singleton. lia.
Defined.
