(* ===== verification/VnodeOps.v ===== *)
(** * VnodeOps: the operations of a file system (fsproto.h)

    A file system is a table of functions the vnode layer calls with the data
    pointers of the name space and of a vnode; most may be missing (NULL).
    They run over the whole state, because they call back into the vnode layer
    ([get_vnode] and the like). *)

From S2P Require Import Prelude Bytes Compat Host SkipList Kernel Vnode.
Local Open Scope Z_scope.

Section ops.
Context (X : Type).
Abbreviation KS := (M (kstate (X := X))).

(** [walk]: the file name and whether symbolic links are to be followed; the
    result, the path of a link that was met, and the number of the vnode.
    [create], [open] and [opendir] also give a cookie. *)
Record vnode_ops := VnodeOps {
  vo_core : fs_ops X;
  vo_walk : option (Z -> option Z -> list byte -> bool -> KS (Z * option (list byte) * Z));
  vo_access : option (Z -> option Z -> Z -> KS Z);
  vo_create : option (Z -> option Z -> list byte -> Z -> Z -> KS (Z * Z * option Z));
  vo_mkdir : option (Z -> option Z -> list byte -> Z -> KS Z);
  vo_symlink : option (Z -> option Z -> list byte -> option (list byte) -> KS Z);
  vo_link : option (Z -> option Z -> list byte -> option Z -> KS Z);
  vo_rename : option (Z -> option Z -> list byte -> option Z -> list byte -> KS Z);
  vo_unlink : option (Z -> option Z -> list byte -> KS Z);
  vo_rmdir : option (Z -> option Z -> list byte -> KS Z);
  vo_readlink : option (Z -> option Z -> Z -> KS (Z * Z * list byte));
  vo_opendir : option (Z -> option Z -> KS (Z * option Z));
  vo_closedir : option (Z -> option Z -> option Z -> KS Z);
  vo_free_dircookie : option (Z -> option Z -> option Z -> KS Z);
  vo_rewinddir : option (Z -> option Z -> option Z -> KS Z);
  vo_readdir : option (Z -> option Z -> option Z -> Z -> Z -> KS (Z * list my_dirent));
  vo_open : option (Z -> option Z -> Z -> KS (Z * option Z));
  vo_close : option (Z -> option Z -> option Z -> KS Z);
  vo_free_cookie : option (Z -> option Z -> option Z -> KS Z);
  vo_read : option (Z -> option Z -> option Z -> Z -> Z -> KS (Z * Z * list byte));
  vo_write : option (Z -> option Z -> option Z -> Z -> list byte -> Z -> KS (Z * Z));
  vo_ioctl : option (Z -> option Z -> option Z -> Z -> option Z -> Z -> KS Z);
  vo_rstat : option (Z -> option Z -> KS (Z * my_stat));
  vo_wstat : option (Z -> option Z -> my_stat -> Z -> KS Z);
  vo_fsync : option (Z -> option Z -> KS Z);
  vo_mount : option (Z -> option (list byte) -> Z -> option Z -> Z -> KS (Z * Z * Z));
  vo_unmount : option (Z -> KS Z);
  vo_sync : option (Z -> KS Z);
}.
End ops.
Arguments VnodeOps {X}.
Arguments vo_core {X}. Arguments vo_walk {X}. Arguments vo_access {X}. Arguments vo_create {X}.
Arguments vo_mkdir {X}. Arguments vo_symlink {X}. Arguments vo_link {X}. Arguments vo_rename {X}.
Arguments vo_unlink {X}. Arguments vo_rmdir {X}. Arguments vo_readlink {X}. Arguments vo_opendir {X}.
Arguments vo_closedir {X}. Arguments vo_free_dircookie {X}. Arguments vo_rewinddir {X}. Arguments vo_readdir {X}.
Arguments vo_open {X}. Arguments vo_close {X}. Arguments vo_free_cookie {X}. Arguments vo_read {X}.
Arguments vo_write {X}. Arguments vo_ioctl {X}. Arguments vo_rstat {X}. Arguments vo_wstat {X}.
Arguments vo_fsync {X}. Arguments vo_mount {X}. Arguments vo_unmount {X}. Arguments vo_sync {X}.

Section calls.
Context {X : Type} (ops_table : Z -> vnode_ops X).
Abbreviation KS := (M (kstate (X := X))).

(** The three operations the vnode layer itself calls. *)
Definition core_table (a : Z) : fs_ops X := vo_core (ops_table a).

(** [vn->ns->fs->ops], [vn->ns->data] and [vn->data]. *)
Definition ops_of (vn : Z) : KS (vnode_ops X * Z * option Z) :=
  in_layer (
    v ← get_vn vn;
    nsp ← opt (vn_ns v);
    ns ← get_ns nsp;
    fs ← get_fs (ns_fs ns);
    mret (ops_table (fs_vops fs), ns_data ns, vdata v)).

Definition dec_vnode (vn : Z) : KS unit := Vnode.dec_vnode core_table vn false.
End calls.
