(* ===== verification/Descriptors.v ===== *)
(** * Descriptors: open files and tables of descriptors (kernel.c)

    A table is an array of pointers to open files, with two bit maps in words
    of [ulong] of which 32 bits are used.  Open files are counted twice: the
    descriptors that name them, and those and the calls that use them. *)

From S2P Require Import Prelude Bytes Compat Host SkipList Kernel Vnode VnodeOps.
Local Open Scope Z_scope.

(** ** The bit maps

    The shifts are of [int]s, which are extended to the word. *)
Definition int_bit (i : Z) : Z := i32 (Z.shiftl 1 (i mod 32)).
Definition set_bit_in (w i v : Z) : Z :=
  Z.lor (Z.land w (u64 (Z.lnot (int_bit i)))) (u64 (i32 (Z.shiftl v (i mod 32)))).
Definition get_bit_in (w i : Z) : Z := Z.shiftr (Z.land w (u64 (int_bit i))) (i mod 32).

Definition SETBIT (a : list Z) (i v : Z) : option (list Z) :=
  w ← a !! Z.to_nat (i / 32); Some (<[Z.to_nat (i / 32) := set_bit_in w i v]> a).
Definition GETBIT (a : list Z) (i : Z) : option Z :=
  w ← a !! Z.to_nat (i / 32); Some (get_bit_in w i).

Definition BITSZ (n : Z) : Z := Z.land (n + 31) (Z.lnot 31).

(** The first clear bit of [n] from [i] on; the outer [None] is an access
    outside the map. *)
Fixpoint scan_bits (n : nat) (a : list Z) (i : Z) : option (option Z) :=
  match n with
  | O => Some None
  | S n => b ← GETBIT a i; if b =? 0 then Some (Some i) else scan_bits n a (i + 1)
  end.

(** Word by word, the full ones skipped. *)
Fixpoint scan_words (n : nat) (a : list Z) (j : Z) : option (option Z) :=
  match n with
  | O => Some None
  | S n =>
      w ← a !! Z.to_nat (j / 32);
      r ← (if negb (w =? 0xffffffff) then scan_bits 32 a j else Some None);
      match r with Some i => Some (Some i) | None => scan_words n a (j + 32) end
  end.

Definition find_fd (a : list Z) (num : Z) : option (option Z) :=
  let end_ := Z.land num (Z.lnot 31) in
  r ← scan_words (Z.to_nat (end_ / 32)) a 0;
  match r with Some i => Some (Some i) | None => scan_bits (Z.to_nat (num - end_)) a end_ end.

(** ** Open files *)

Section descriptors.
Context {X : Type} (x_host : X -> host) (x_set_host : host -> X -> X) (ops_table : Z -> vnode_ops X).
Abbreviation KS := (M (kstate (X := X))).
Abbreviation dec_vnode := (VnodeOps.dec_vnode ops_table).
Abbreviation ops_of := (VnodeOps.ops_of ops_table).

Definition k_malloc (n : Z) : KS (option Z) :=
  in_ext (zoom x_host x_set_host (malloc n)).
Definition k_new_lock : KS lock := in_ext (zoom x_host x_set_host ('(_, l) ← new_lock; mret l)).

Definition the_ofile (f : Z) : KS ofile := in_layer (in_ofile f get).
Definition add_rcnt (f n : Z) : KS Z := in_layer (in_ofile f (zoom of_rcnt of_set_rcnt (atomic_add n))).
Definition add_ocnt (f n : Z) : KS Z := in_layer (in_ofile f (zoom of_ocnt of_set_ocnt (atomic_add n))).
Definition free_ofile (f : Z) : KS unit :=
  in_layer (_ ← in_ofile f get; upd_kern (fun k => set_ofiles (delete f (ofiles k)) k)).

Definition the_fds (a : Z) : KS fdarray := in_layer (in_fds a get).
Definition LOCK_fds (a : Z) : KS unit := in_layer (in_fds a (zoom fd_lock fd_set_lock LOCK)).
Definition UNLOCK_fds (a : Z) : KS unit := in_layer (in_fds a (zoom fd_lock fd_set_lock UNLOCK)).
Definition put_slot (a fd : Z) (f : option Z) : KS unit :=
  in_layer (in_fds a (modify (fun t => fd_set_fds (<[Z.to_nat fd := f]> (fd_fds t)) t))).
Definition set_alloc_bit (a i v : Z) : KS unit :=
  in_layer (in_fds a (t ← get; m ← opt (SETBIT (fd_alloc t) i v); modify (fd_set_alloc m))).
Definition set_coes_bit (a i v : Z) : KS unit :=
  in_layer (in_fds a (t ← get; m ← opt (SETBIT (fd_coes t) i v); modify (fd_set_coes m))).

(** The table of a call: [kernel ? global_fds : get_cur_ioctx()->fds]. *)
Definition fds_of (kernel : bool) : KS Z :=
  k ← in_layer (gets kern); opt (if kernel then global_fds k else io_fds (io k)).

(** The open file at [fd], if the descriptor is in the table. *)
Definition slot_at (a fd : Z) : KS (option Z) :=
  t ← the_fds a;
  if (fd >=? 0) && (fd <? fd_num t) then opt (fd_fds t !! Z.to_nat fd) else mret None.

Definition invoke_close (f : Z) : KS Z :=
  o ← the_ofile f;
  vn ← opt (of_vn o);
  '(ops, data, vd) ← ops_of vn;
  if of_type o =? FD_FILE then op ← opt (vo_close ops); op data vd (of_cookie o)
  else if of_type o =? FD_DIR then op ← opt (vo_closedir ops); op data vd (of_cookie o)
  else mret 0.

Definition invoke_free (f : Z) : KS Z :=
  o ← the_ofile f;
  vn ← opt (of_vn o);
  '(ops, data, vd) ← ops_of vn;
  let op := if of_type o =? FD_FILE then vo_free_cookie ops
            else if of_type o =? FD_DIR then vo_free_dircookie ops else None in
  _ ← (match op with Some op => op data vd (of_cookie o) | None => mret 0 end);
  _ ← dec_vnode vn;
  _ ← free_ofile f;
  mret 0.

(** One use less; the last one frees the file. *)
Definition drop_rcnt (f : Z) : KS unit :=
  cnt ← add_rcnt f (-1);
  if cnt =? 1 then _ ← invoke_free f; mret tt else mret tt.
(** One descriptor less; the last one closes the file. *)
Definition drop_ocnt (f : Z) : KS Z :=
  cnt ← add_ocnt f (-1);
  if cnt =? 1 then invoke_close f else mret 0.

Definition put_fd (f : Z) : KS Z := _ ← drop_rcnt f; mret 0.

Definition get_fd (kernel : bool) (fd type : Z) : KS (option Z) :=
  a ← fds_of kernel;
  _ ← LOCK_fds a;
  f ← slot_at a fd;
  r ← (match f with
       | None => mret None
       | Some f =>
           o ← the_ofile f;
           if negb (Z.land (of_type o) type =? 0) then _ ← add_rcnt f 1; mret (Some f) else mret None
       end);
  _ ← UNLOCK_fds a;
  mret r.

(** The descriptor, or the number of an error, which is positive too. *)
Definition new_fd (kernel : bool) (nfd : Z) (f : option Z) (fd coe : Z) : KS Z :=
  a ← fds_of kernel;
  _ ← LOCK_fds a;
  t ← the_fds a;
  let num := fd_num t in
  let error1 err := _ ← UNLOCK_fds a; mret err in
  f ← (match f with
       | Some f => mret (Some f)
       | None => if (fd <? 0) || (fd >=? num) then mret None else opt (fd_fds t !! Z.to_nat fd)
       end);
  match f with
  | None => error1 EBADF
  | Some f =>
      _ ← add_rcnt f 1;
      _ ← add_ocnt f 1;
      let error2 err := _ ← add_rcnt f (-1); _ ← add_ocnt f (-1); error1 err in
      if nfd >=? 0 then
        if nfd >=? num then error2 EBADF else
        old ← opt (fd_fds t !! Z.to_nat nfd);
        _ ← put_slot a nfd (Some f);
        _ ← set_alloc_bit a nfd 1;
        _ ← set_coes_bit a nfd coe;
        _ ← UNLOCK_fds a;
        _ ← (match old with Some p => _ ← drop_ocnt p; drop_rcnt p | None => mret tt end);
        mret nfd
      else
        i ← opt (find_fd (fd_alloc t) num);
        match i with
        | None => error2 EMFILE
        | Some i =>
            _ ← set_alloc_bit a i 1;
            _ ← put_slot a i (Some f);
            _ ← set_coes_bit a i coe;
            _ ← UNLOCK_fds a;
            mret i
        end
  end.

Definition remove_fd (kernel : bool) (fd type : Z) : KS Z :=
  a ← fds_of kernel;
  _ ← LOCK_fds a;
  f ← slot_at a fd;
  r ← (match f with
       | None => mret None
       | Some f =>
           o ← the_ofile f;
           if of_type o =? type then
             _ ← set_alloc_bit a fd 0; _ ← put_slot a fd None; mret (Some f)
           else mret None
       end);
  _ ← UNLOCK_fds a;
  match r with
  | None => mret EBADF
  | Some f => err ← drop_ocnt f; _ ← drop_rcnt f; mret err
  end.

(** What the three accessors of a descriptor share. *)
Definition at_fd {A} (kernel : bool) (fd type : Z) (k : Z -> Z -> KS A) : KS (option A) :=
  a ← fds_of kernel;
  _ ← LOCK_fds a;
  f ← slot_at a fd;
  r ← (match f with
       | None => mret None
       | Some f =>
           o ← the_ofile f;
           if of_type o =? type then x ← k a f; mret (Some x) else mret None
       end);
  _ ← UNLOCK_fds a;
  mret r.

(** The result and [*coe]. *)
Definition get_coe (kernel : bool) (fd type : Z) : KS (Z * Z) :=
  r ← at_fd kernel fd type (fun a _ => t ← the_fds a; opt (GETBIT (fd_coes t) fd));
  mret (match r with Some c => (0, c) | None => (EBADF, 0) end).
Definition set_coe (kernel : bool) (fd type coe : Z) : KS Z :=
  r ← at_fd kernel fd type (fun a _ => set_coes_bit a fd coe);
  mret (match r with Some _ => 0 | None => EBADF end).
(** The result and [*omode]. *)
Definition get_omode (kernel : bool) (fd type : Z) : KS (Z * Z) :=
  r ← at_fd kernel fd type (fun _ f => o ← the_ofile f; mret (of_omode o));
  mret (match r with Some m => (0, m) | None => (EBADF, 0) end).

(** [calloc] of an open file. *)
Definition new_ofile (o : ofile) : KS (option Z) :=
  p ← k_malloc 56;
  match p with
  | None => mret None
  | Some p => _ ← in_layer (upd_kern (fun k => set_ofiles (<[p := o]> (ofiles k)) k)); mret (Some p)
  end.

(** The result and [*fdp]. *)
Definition alloc_wd_fd (kernel : bool) (vn coe : Z) : KS (Z * Z) :=
  f ← new_ofile (Ofile FD_WD (Some vn) None 0 0 0 0);
  match f with
  | None => mret (ENOMEM, 0)
  | Some f =>
      nfd ← new_fd kernel (-1) (Some f) (-1) coe;
      if nfd <? 0 then _ ← free_ofile f; mret (EMFILE, 0) else mret (0, nfd)
  end.

Definition sizeof_fdarray : Z := 56.

Definition new_fds (num : Z) : KS (option Z) :=
  p ← k_malloc (sizeof_fdarray + (num - 1) * 8 + 2 * BITSZ num);
  match p with
  | None => mret None
  | Some p =>
      l ← k_new_lock;
      let words := replicate (Z.to_nat (BITSZ num / 8)) 0 in
      let t := Fdarray 1 l num words words (replicate (Z.to_nat num) None) in
      _ ← in_layer (upd_kern (fun k => set_fdarrays (<[p := t]> (fdarrays k)) k));
      mret (Some p)
  end.

Fixpoint drop_all (l : list (option Z)) : KS unit :=
  match l with
  | [] => mret tt
  | None :: l => drop_all l
  | Some f :: l => _ ← drop_ocnt f; _ ← drop_rcnt f; drop_all l
  end.

Definition free_fds (a : Z) : KS Z :=
  t ← the_fds a;
  _ ← drop_all (fd_fds t);
  _ ← in_ext (zoom x_host x_set_host (delete_sem (l_s (fd_lock t))));
  _ ← in_layer (upd_kern (fun k => set_fdarrays (delete a (fdarrays k)) k));
  mret 0.
End descriptors.

(** ** The bit maps are sets *)

(** The bits of a word that belong to bit [k]: the highest one owns what sign
    extension makes of it. *)
Definition owns (k n : Z) : bool := if k <? 31 then n =? k else 31 <=? n.

Definition int_bit_table : bool :=
  forallb (fun k => forallb (fun n => Bool.eqb (Z.testbit (i32 (Z.shiftl 1 k)) n) (owns k n)) (seqZ 0 64)) (seqZ 0 32).

Lemma int_bit_spec i n : 0 <= n < 64 -> Z.testbit (int_bit i) n = owns (i mod 32) n.
Proof.
  intros Hn. pose proof (Z.mod_pos_bound i 32 ltac:(lia)) as Hk. unfold int_bit.
  assert (int_bit_table = true) as Ht by (vm_compute; done).
  unfold int_bit_table in Ht. rewrite forallb_forall in Ht.
  specialize (Ht (i mod 32) ltac:(apply list_elem_of_In, elem_of_seqZ; lia)). rewrite forallb_forall in Ht.
  by apply eqb_true_iff, Ht, list_elem_of_In, elem_of_seqZ; lia.
Qed.

Lemma u64_testbit x n : 0 <= n < 64 -> Z.testbit (u64 x) n = Z.testbit x n.
Proof. intros Hn. unfold u64. apply Z.mod_pow2_bits_low. lia. Qed.
Lemma u64_testbit_high x n : 64 <= n -> Z.testbit (u64 x) n = false.
Proof. intros Hn. unfold u64. apply Z.mod_pow2_bits_high. lia. Qed.

Lemma set_bit_spec w i v n :
  v = 0 \/ v = 1 -> 0 <= n < 64 ->
  Z.testbit (set_bit_in w i v) n = if owns (i mod 32) n then v =? 1 else Z.testbit w n.
Proof.
  intros Hv Hn. unfold set_bit_in. rewrite Z.lor_spec, Z.land_spec, !u64_testbit, Z.lnot_spec, int_bit_spec by lia.
  destruct Hv as [-> | ->].
  - rewrite Z.shiftl_0_l. change (i32 0) with 0. rewrite Z.bits_0, orb_false_r. by destruct (owns _ _); cbn; rewrite ?andb_false_r, ?andb_true_r.
  - change (i32 (Z.shiftl 1 (i mod 32))) with (int_bit i). rewrite int_bit_spec by lia.
    by destruct (owns _ _); cbn; rewrite ?andb_false_r, ?andb_true_r, ?orb_false_r, ?orb_true_r.
Qed.

(** Whether bit [i] of a map is set. *)
Definition bit_on (w i : Z) : bool := negb (get_bit_in w i =? 0).

Lemma bit_on_spec w i : bit_on w i = true <-> exists n, 0 <= n < 64 /\ owns (i mod 32) n = true /\ Z.testbit w n = true.
Proof.
  pose proof (Z.mod_pos_bound i 32 ltac:(lia)) as Hk. unfold bit_on, get_bit_in. rewrite negb_true_iff, Z.eqb_neq.
  assert (forall n, Z.testbit (Z.land w (u64 (int_bit i))) n = true -> 0 <= n < 64 /\ owns (i mod 32) n = true /\ Z.testbit w n = true) as Hbit.
  { intros n. rewrite Z.land_spec, andb_true_iff. intros [Hw Hb]. assert (0 <= n < 64) as Hn.
    { split; [by destruct (decide (n < 0)); [rewrite Z.testbit_neg_r in Hw|lia]|].
      destruct (decide (n < 64)); [done|]. rewrite u64_testbit_high in Hb by lia. done. }
    by rewrite u64_testbit, int_bit_spec in Hb. }
  split.
  - intros Hne. destruct (decide (Z.land w (u64 (int_bit i)) = 0)) as [E|Hne']; [by rewrite E, Z.shiftr_0_l in Hne|].
    destruct (Z.bits_inj_iff (Z.land w (u64 (int_bit i))) 0) as [_ Hz].
    assert (exists n, Z.testbit (Z.land w (u64 (int_bit i))) n = true) as [n Hn]; [|exists n; by apply Hbit].
    assert (0 <= Z.land w (u64 (int_bit i))) as Hpos by (apply Z.land_nonneg; right; unfold u64; apply Z.mod_pos_bound; lia).
    exists (Z.log2 (Z.land w (u64 (int_bit i)))). apply Z.bit_log2. lia.
  - intros (n & Hn & Ho & Hw) E. assert (Z.testbit (Z.shiftr (Z.land w (u64 (int_bit i))) (i mod 32)) (n - i mod 32) = true) as Hb.
    { assert (i mod 32 <= n) by (unfold owns in Ho; destruct (i mod 32 <? 31) eqn:E2; zcases; lia).
      rewrite Z.shiftr_spec by lia. replace (n - i mod 32 + i mod 32) with n by lia.
      by rewrite Z.land_spec, u64_testbit, int_bit_spec, Ho, Hw by lia. }
    by rewrite E, Z.bits_0 in Hb.
Qed.

Lemma owns_own k : 0 <= k < 32 -> owns k k = true.
Proof. unfold owns. intros Hk. destruct (k <? 31) eqn:E; zcases; lia. Qed.
Lemma owns_inj k k' n : 0 <= k < 32 -> 0 <= k' < 32 -> owns k n = true -> owns k' n = true -> k = k'.
Proof. unfold owns. intros Hk Hk'. destruct (k <? 31) eqn:E, (k' <? 31) eqn:E'; intros; zcases; lia. Qed.

Lemma bit_on_set w i j v :
  v = 0 \/ v = 1 -> bit_on (set_bit_in w i v) j = if decide (i mod 32 = j mod 32) then v =? 1 else bit_on w j.
Proof.
  intros Hv. pose proof (Z.mod_pos_bound i 32 ltac:(lia)) as Hk. pose proof (Z.mod_pos_bound j 32 ltac:(lia)) as Hk'.
  apply eq_bool_prop_intro. rewrite !Is_true_true. rewrite bit_on_spec. destruct (decide (i mod 32 = j mod 32)) as [E|Hne].
  - split.
    + intros (n & Hn & Ho & Hb). by rewrite set_bit_spec, E, Ho in Hb.
    + intros Hv1. exists (j mod 32). rewrite set_bit_spec, E, owns_own by (done || lia). repeat split; [lia|lia|done].
  - rewrite bit_on_spec. split; intros (n & Hn & Ho & Hb); exists n; (split; [done|]); (split; [done|]).
    + rewrite set_bit_spec in Hb by done. destruct (owns (i mod 32) n) eqn:E; [|done]. exfalso. by eapply Hne, owns_inj.
    + rewrite set_bit_spec by done. destruct (owns (i mod 32) n) eqn:E; [|done]. exfalso. by eapply Hne, owns_inj.
Qed.

Lemma full_word j : bit_on 0xffffffff j = true.
Proof.
  pose proof (Z.mod_pos_bound j 32 ltac:(lia)) as Hk. apply bit_on_spec. exists (j mod 32). split; [lia|].
  split; [by apply owns_own|]. change 0xffffffff with (Z.ones 32). rewrite Z.ones_spec_low; lia.
Qed.

Definition bit_of (a : list Z) (i : Z) : bool :=
  match a !! Z.to_nat (i / 32) with Some w => bit_on w i | None => false end.

Lemma word_at (a : list Z) i : 0 <= i < 32 * len a -> exists w, a !! Z.to_nat (i / 32) = Some w.
Proof.
  intros Hi. apply lookup_lt_is_Some_2. assert (i / 32 < len a) by (apply Z.div_lt_upper_bound; lia).
  assert (0 <= i / 32) by (apply Z.div_pos; lia). unfold len in *. lia.
Qed.

Lemma GETBIT_spec a i : 0 <= i < 32 * len a -> exists b, GETBIT a i = Some b /\ (b =? 0) = negb (bit_of a i).
Proof.
  intros Hi. destruct (word_at a i Hi) as [w Hw]. unfold GETBIT, bit_of. rewrite Hw. cbn. eexists. split; [done|].
  unfold bit_on. by rewrite negb_involutive.
Qed.

Lemma SETBIT_spec a i v :
  0 <= i < 32 * len a -> v = 0 \/ v = 1 ->
  exists a', SETBIT a i v = Some a' /\ len a' = len a /\
    forall j, 0 <= j -> bit_of a' j = if decide (j = i) then v =? 1 else bit_of a j.
Proof.
  intros Hi Hv. destruct (word_at a i Hi) as [w Hw]. unfold SETBIT. rewrite Hw. cbn. eexists. split; [done|].
  split; [unfold len; by rewrite length_insert|]. intros j Hj. unfold bit_of.
  destruct (decide (i / 32 = j / 32)) as [E|Hne].
  - rewrite <- E, list_lookup_insert_eq, Hw by (by eapply lookup_lt_Some). rewrite bit_on_set by done.
    pose proof (Z.div_mod i 32 ltac:(lia)). pose proof (Z.div_mod j 32 ltac:(lia)).
    destruct (decide (i mod 32 = j mod 32)), (decide (j = i)); try done; subst; lia.
  - rewrite list_lookup_insert_ne; [|intros E; apply Hne, Z2Nat.inj; [apply Z.div_pos; lia|apply Z.div_pos; lia|done]].
    by rewrite decide_False by congruence.
Qed.

(** The first clear bit of a range, if it has one. *)
Definition first_clear (a : list Z) (lo hi : Z) (r : option Z) : Prop :=
  match r with
  | Some i => lo <= i < hi /\ bit_of a i = false /\ forall j, lo <= j < i -> bit_of a j = true
  | None => forall j, lo <= j < hi -> bit_of a j = true
  end.

Lemma first_clear_app a lo mid hi r :
  lo <= mid <= hi -> first_clear a lo mid None -> first_clear a mid hi r -> first_clear a lo hi r.
Proof.
  intros Hm Hlo. destruct r as [i|]; cbn; [intros (Hi & Hb & Hj)|intros Hj].
  - split; [lia|]. split; [done|]. intros j Hjl. destruct (decide (j < mid)); [apply Hlo|apply Hj]; lia.
  - intros j Hjl. destruct (decide (j < mid)); [apply Hlo|apply Hj]; lia.
Qed.
Lemma first_clear_mono a lo hi hi' i : hi <= hi' -> first_clear a lo hi (Some i) -> first_clear a lo hi' (Some i).
Proof. intros H (Hi & Hb & Hj). split; [lia|done]. Qed.

Lemma scan_bits_spec n a i :
  0 <= i -> i + Z.of_nat n <= 32 * len a ->
  exists r, scan_bits n a i = Some r /\ first_clear a i (i + Z.of_nat n) r.
Proof.
  revert i. induction n as [|n IH]; intros i Hi Hn; cbn [scan_bits].
  - exists None. split; [done|]. intros j Hj. lia.
  - destruct (GETBIT_spec a i ltac:(lia)) as (b & -> & Hb). cbn. rewrite Hb. destruct (bit_of a i) eqn:E; cbn.
    + destruct (IH (i + 1) ltac:(lia) ltac:(lia)) as (r & -> & Hr). exists r. split; [done|].
      apply (first_clear_app a i (i + 1)); [lia| |by replace (i + Z.of_nat (S n)) with (i + 1 + Z.of_nat n) by lia].
      intros j Hj. by replace j with i by lia.
    + exists (Some i). split; [done|]. split; [lia|]. split; [done|]. lia.
Qed.

Lemma scan_words_spec n a m :
  0 <= m -> 32 * m + 32 * Z.of_nat n <= 32 * len a ->
  exists r, scan_words n a (32 * m) = Some r /\ first_clear a (32 * m) (32 * m + 32 * Z.of_nat n) r.
Proof.
  revert m. induction n as [|n IH]; intros m Hm Hn; cbn -[scan_bits].
  - exists None. split; [done|]. intros j Hj. lia.
  - destruct (word_at a (32 * m) ltac:(lia)) as [w Hw]. rewrite Hw. cbn -[scan_bits].
    assert (exists r, (if negb (w =? 4294967295) then scan_bits 32 a (32 * m) else Some None) = Some r /\
      first_clear a (32 * m) (32 * m + 32) r) as (r & -> & Hr).
    { destruct (w =? 4294967295) eqn:E; cbn -[scan_bits]; [|apply scan_bits_spec; lia]. exists None. split; [done|]. intros j Hj.
      apply Z.eqb_eq in E. unfold bit_of. replace (j / 32) with (32 * m / 32); [rewrite Hw, E; apply full_word|].
      rewrite Z.mul_comm, Z.div_mul by lia. apply (Z.div_unique j 32 m (j - 32 * m)); lia. }
    cbn -[scan_bits]. destruct r as [i|]; [exists (Some i); split; [done|]; by eapply first_clear_mono; [|exact Hr]; lia|].
    replace (32 * m + 32) with (32 * (m + 1)) in * by lia.
    destruct (IH (m + 1) ltac:(lia) ltac:(lia)) as (r & -> & Hr'). exists r. split; [done|].
    eapply first_clear_app; [|exact Hr|replace (32 * m + 32 * Z.of_nat (S n)) with (32 * (m + 1) + 32 * Z.of_nat n) by lia; exact Hr']. lia.
Qed.

Lemma land_not31 n : 0 <= n -> Z.land n (Z.lnot 31) = 32 * (n / 32).
Proof.
  intros Hn. change 31 with (Z.ones 5). rewrite <- Z.ldiff_land, Z.ldiff_ones_r, Z.shiftr_div_pow2, Z.shiftl_mul_pow2 by lia.
  change (2 ^ 5) with 32. lia.
Qed.

Lemma find_fd_spec a num :
  0 <= num <= 32 * len a -> exists r, find_fd a num = Some r /\ first_clear a 0 num r.
Proof.
  intros Hn. unfold find_fd. rewrite land_not31 by lia. rewrite Z.mul_comm, Z.div_mul by lia. rewrite Z.mul_comm.
  pose proof (Z.div_mod num 32 ltac:(lia)) as Hd. pose proof (Z.mod_pos_bound num 32 ltac:(lia)) as Hm.
  assert (0 <= num / 32) as Hq by (apply Z.div_pos; lia).
  destruct (scan_words_spec (Z.to_nat (num / 32)) a 0) as (r & E & Hr); [lia|lia|].
  change (32 * 0) with 0 in E, Hr. rewrite E. cbn -[scan_bits].
  destruct r as [i|]; [exists (Some i); split; [done|]; by eapply first_clear_mono; [|exact Hr]; lia|].
  destruct (scan_bits_spec (Z.to_nat (num - 32 * (num / 32))) a (32 * (num / 32))) as (r & -> & Hr'); [lia|lia|].
  exists r. split; [done|]. eapply first_clear_app; [|exact Hr|]; [lia|].
  replace (0 + 32 * Z.of_nat (Z.to_nat (num / 32))) with (32 * (num / 32)) by lia.
  by replace (32 * (num / 32) + Z.of_nat (Z.to_nat (num - 32 * (num / 32)))) with num in Hr' by lia.
Qed.

(** ** The table of a state *)

Section tables.
Context {X : Type} (ops_table : Z -> vnode_ops X).
Abbreviation S := (kstate (X := X)).
Implicit Types (s : S).

Definition tables (s : S) : gmap Z fdarray := fdarrays (kern (k_layer s)).
Definition files (s : S) : gmap Z ofile := ofiles (kern (k_layer s)).
Definition put_table (a : Z) (t : fdarray) (s : S) : S :=
  KS (set_kern (set_fdarrays (<[a := t]> (tables s)) (kern (k_layer s))) (k_layer s)) (k_ext s).
Definition put_file (f : Z) (o : ofile) (s : S) : S :=
  KS (set_kern (set_ofiles (<[f := o]> (files s)) (kern (k_layer s))) (k_layer s)) (k_ext s).

Lemma put_table_id a t s : tables s !! a = Some t -> put_table a t s = s.
Proof.
  intros H. unfold put_table. rewrite insert_id by done.
  destruct s as [[? ? ? ? ? ? ? [? ? ? ? ? ? ? ? ? ? ?]] ?]. done.
Qed.
Lemma put_file_id f o s : files s !! f = Some o -> put_file f o s = s.
Proof.
  intros H. unfold put_file. rewrite insert_id by done.
  destruct s as [[? ? ? ? ? ? ? [? ? ? ? ? ? ? ? ? ? ?]] ?]. done.
Qed.
Lemma put_table_twice a t t' s : put_table a t' (put_table a t s) = put_table a t' s.
Proof. unfold put_table, tables. cbn. by rewrite insert_insert_eq. Qed.
Lemma put_file_twice f o o' s : put_file f o' (put_file f o s) = put_file f o' s.
Proof. unfold put_file, files. cbn. by rewrite insert_insert_eq. Qed.
Lemma tables_put a t s : tables (put_table a t s) !! a = Some t.
Proof. apply lookup_insert_eq. Qed.
Lemma files_put f o s : files (put_file f o s) !! f = Some o.
Proof. apply lookup_insert_eq. Qed.

Lemma in_fds_wp {A} a (m : M fdarray A) t (Q : A -> S -> Prop) s :
  tables s !! a = Some t -> wp m (fun r t' => Q r (put_table a t' s)) t -> wp (in_layer (in_fds a m)) Q s.
Proof. intros Ht Hm. unfold in_layer, in_fds, in_kern. apply wp_zoom, wp_zoom. by eapply zoom_at_wp. Qed.
Lemma in_ofile_wp {A} f (m : M ofile A) o (Q : A -> S -> Prop) s :
  files s !! f = Some o -> wp m (fun r o' => Q r (put_file f o' s)) o -> wp (in_layer (in_ofile f m)) Q s.
Proof. intros Ho Hm. unfold in_layer, in_ofile, in_kern. apply wp_zoom, wp_zoom. by eapply zoom_at_wp. Qed.

Lemma put_file_table f o a t s : put_file f o (put_table a t s) = put_table a t (put_file f o s).
Proof. done. Qed.

Lemma the_fds_wp a t (Q : fdarray -> S -> Prop) s : tables s !! a = Some t -> Q t s -> wp (the_fds a) Q s.
Proof. intros Ht HQ. unfold the_fds. eapply in_fds_wp; [done|]. apply wp_get. by rewrite put_table_id. Qed.
Lemma the_ofile_wp f o (Q : ofile -> S -> Prop) s : files s !! f = Some o -> Q o s -> wp (the_ofile f) Q s.
Proof. intros Ho HQ. unfold the_ofile. eapply in_ofile_wp; [done|]. apply wp_get. by rewrite put_file_id. Qed.

Lemma add_rcnt_wp f n o (Q : Z -> S -> Prop) s :
  files s !! f = Some o -> Q (i32 (of_rcnt o)) (put_file f (of_set_rcnt (of_rcnt o + n) o) s) -> wp (add_rcnt f n) Q s.
Proof. intros Ho HQ. unfold add_rcnt. eapply in_ofile_wp; [done|]. apply wp_zoom. unfold atomic_add. by wp_steps. Qed.
Lemma add_ocnt_wp f n o (Q : Z -> S -> Prop) s :
  files s !! f = Some o -> Q (i32 (of_ocnt o)) (put_file f (of_set_ocnt (of_ocnt o + n) o) s) -> wp (add_ocnt f n) Q s.
Proof. intros Ho HQ. unfold add_ocnt. eapply in_ofile_wp; [done|]. apply wp_zoom. unfold atomic_add. by wp_steps. Qed.

Definition held (t : fdarray) : fdarray := fd_set_lock (Lock 0 (l_s (fd_lock t))) t.

Lemma LOCK_fds_wp a t (Q : unit -> S -> Prop) s :
  tables s !! a = Some t -> l_c (fd_lock t) = 1 -> Q tt (put_table a (held t) s) -> wp (LOCK_fds a) Q s.
Proof.
  intros Ht Hl HQ. unfold LOCK_fds. eapply in_fds_wp; [done|]. apply wp_zoom. eapply wp_mono; [by apply LOCK_wp|]. by intros [] l ->.
Qed.
Lemma UNLOCK_fds_wp a t (Q : unit -> S -> Prop) s :
  tables s !! a = Some t -> l_c (fd_lock t) = 0 ->
  Q tt (put_table a (fd_set_lock (Lock 1 (l_s (fd_lock t))) t) s) -> wp (UNLOCK_fds a) Q s.
Proof.
  intros Ht Hl HQ. unfold UNLOCK_fds. eapply in_fds_wp; [done|]. apply wp_zoom. eapply wp_mono; [by apply UNLOCK_wp|]. by intros [] l ->.
Qed.
Lemma fds_of_wp (kernel : bool) a (Q : Z -> S -> Prop) s :
  (if kernel then global_fds (kern (k_layer s)) else io_fds (io (kern (k_layer s)))) = Some a -> Q a s -> wp (fds_of kernel) Q s.
Proof.
  intros Ha HQ. unfold fds_of, in_layer. wp_step. apply wp_zoom, wp_gets. rewrite Ha.
  replace (KS (k_layer s) (k_ext s)) with s by (by destruct s). by wp_step.
Qed.

(** The table a call uses. *)
Definition table_of (kernel : bool) (a : Z) (s : S) : Prop :=
  (if kernel then global_fds (kern (k_layer s)) else io_fds (io (kern (k_layer s)))) = Some a.

Lemma put_slot_wp a t fd f (Q : unit -> S -> Prop) s :
  tables s !! a = Some t -> Q tt (put_table a (fd_set_fds (<[Z.to_nat fd := f]> (fd_fds t)) t) s) -> wp (put_slot a fd f) Q s.
Proof. intros Ht HQ. unfold put_slot. eapply in_fds_wp; [done|]. by apply wp_modify. Qed.
Lemma set_alloc_bit_wp a t i v m (Q : unit -> S -> Prop) s :
  tables s !! a = Some t -> SETBIT (fd_alloc t) i v = Some m -> Q tt (put_table a (fd_set_alloc m t) s) -> wp (set_alloc_bit a i v) Q s.
Proof. intros Ht Hm HQ. unfold set_alloc_bit. eapply in_fds_wp; [done|]. wp_step. wp_step. rewrite Hm. wp_step. by apply wp_modify. Qed.
Lemma set_coes_bit_wp a t i v m (Q : unit -> S -> Prop) s :
  tables s !! a = Some t -> SETBIT (fd_coes t) i v = Some m -> Q tt (put_table a (fd_set_coes m t) s) -> wp (set_coes_bit a i v) Q s.
Proof. intros Ht Hm HQ. unfold set_coes_bit. eapply in_fds_wp; [done|]. wp_step. wp_step. rewrite Hm. wp_step. by apply wp_modify. Qed.

(** A table between two calls: free, with maps that cover it, and the bit of a
    descriptor set when it is in use. *)
Record table_ok (t : fdarray) : Prop := {
  to_lock : l_c (fd_lock t) = 1;
  to_num : 0 <= fd_num t /\ len (fd_fds t) = fd_num t;
  to_maps : fd_num t <= 32 * len (fd_alloc t) /\ fd_num t <= 32 * len (fd_coes t);
  to_used : forall i, 0 <= i < fd_num t -> bit_of (fd_alloc t) i = bool_decide (is_Some (mjoin (fd_fds t !! Z.to_nat i)));
}.

(** What a descriptor names. *)
Definition descr (t : fdarray) (i : Z) : option Z :=
  if (0 <=? i) && (i <? fd_num t) then mjoin (fd_fds t !! Z.to_nat i) else None.

(** [t'] is [t] with descriptor [i] naming [f], its close-on-exec bit [coe]. *)
Record assigned (t : fdarray) (i : Z) (f : option Z) (coe : option Z) (t' : fdarray) : Prop := {
  as_ok : table_ok t';
  as_num : fd_num t' = fd_num t;
  as_lock : fd_lock t' = fd_lock t;
  as_descr : forall j, descr t' j = if decide (j = i) then f else descr t j;
  as_coes : forall j, 0 <= j -> bit_of (fd_coes t') j =
    match coe with Some c => if decide (j = i) then c =? 1 else bit_of (fd_coes t) j | None => bit_of (fd_coes t) j end;
}.

Lemma lookup_slot t i : table_ok t -> 0 <= i < fd_num t -> exists x, fd_fds t !! Z.to_nat i = Some x.
Proof. intros [_ [H1 H2] _ _] Hi. apply lookup_lt_is_Some_2. unfold len in *. lia. Qed.

Lemma assign t i (f : option Z) v (coe : option Z) a m :
  table_ok t -> 0 <= i < fd_num t -> (v = match f with Some _ => 1 | None => 0 end) ->
  SETBIT (fd_alloc t) i v = Some a ->
  match coe with Some c => (c = 0 \/ c = 1) /\ SETBIT (fd_coes t) i c = Some m | None => m = fd_coes t end ->
  assigned t i f coe (Fdarray (fd_rcnt t) (fd_lock t) (fd_num t) a m (<[Z.to_nat i := f]> (fd_fds t))).
Proof.
  intros [H1 [H2 H2'] [H3 H3'] H4] Hi Hv Ha Hm.
  assert (v = 0 \/ v = 1) as Hv' by (destruct f; auto).
  destruct (SETBIT_spec (fd_alloc t) i v ltac:(lia) Hv') as (a' & Ea & Hal & Hab). rewrite Ha in Ea. injection Ea as <-.
  assert (len m = len (fd_coes t) /\ forall j, 0 <= j -> bit_of m j =
    match coe with Some c => if decide (j = i) then c =? 1 else bit_of (fd_coes t) j | None => bit_of (fd_coes t) j end) as [Hml Hmb].
  { destruct coe as [c|]; [|by subst m]. destruct Hm as [Hc Hm].
    destruct (SETBIT_spec (fd_coes t) i c ltac:(lia) Hc) as (m' & Em & ? & ?). by rewrite Hm in Em; injection Em as <-. }
  assert (Z.to_nat i < length (fd_fds t))%nat as Hlt by (unfold len in H2'; lia).
  split; cbn.
  - split; cbn; [done|unfold len in *; rewrite length_insert; lia|lia|]. intros j Hj. rewrite Hab by lia.
    destruct (decide (j = i)) as [->|Hne].
    + rewrite list_lookup_insert_eq by done. cbn. subst v. destruct f; [by rewrite bool_decide_true by eauto|].
      by rewrite bool_decide_false by (by intros [? ?]).
    + rewrite list_lookup_insert_ne by lia. by apply H4.
  - done.
  - done.
  - intros j. unfold descr. cbn. destruct (decide (j = i)) as [->|Hne].
    + rewrite list_lookup_insert_eq by done. replace (0 <=? i) with true by (symmetry; apply Z.leb_le; lia).
      by replace (i <? fd_num t) with true by (symmetry; apply Z.ltb_lt; lia).
    + destruct ((0 <=? j) && (j <? fd_num t)) eqn:E; [|done]. apply andb_true_iff in E as [E1 E2]. zcases.
      by rewrite list_lookup_insert_ne by lia.
  - done.
Qed.

(** ** What the calls do to the table *)

Lemma new_fd_wp kernel a t f o coe (Q : Z -> S -> Prop) s :
  table_of kernel a s -> tables s !! a = Some t -> table_ok t -> files s !! f = Some o -> coe = 0 \/ coe = 1 ->
  (forall i t', 0 <= i < fd_num t -> descr t i = None -> (forall j, 0 <= j < i -> descr t j <> None) ->
     assigned t i (Some f) (Some coe) t' ->
     Q i (put_table a t' (put_file f (of_set_ocnt (of_ocnt o + 1) (of_set_rcnt (of_rcnt o + 1) o)) s))) ->
  ((forall j, 0 <= j < fd_num t -> descr t j <> None) -> Q EMFILE s) ->
  wp (new_fd ops_table kernel (-1) (Some f) (-1) coe) Q s.
Proof.
  intros Ha Ht Hok Ho Hcoe HQ HQfull. pose proof Hok as [H1 [H2 H2'] [H3 H3'] H4]. unfold new_fd.
  wp_step. eapply fds_of_wp; [exact Ha|]. wp_step. eapply LOCK_fds_wp; [done|done|].
  wp_step. eapply the_fds_wp; [apply tables_put|]. cbv zeta. wp_step. wp_step.
  wp_step. eapply add_rcnt_wp; [exact Ho|]. wp_step. eapply add_ocnt_wp; [apply files_put|]. rewrite put_file_twice.
  cbn [of_ocnt of_set_rcnt]. change (-1 >=? 0) with false. cbv iota.
  assert (forall j, 0 <= j < fd_num t -> (descr t j <> None) <-> bit_of (fd_alloc t) j = true) as Hd.
  { intros j Hj. rewrite H4, bool_decide_eq_true by done. unfold descr.
    replace (0 <=? j) with true by (symmetry; apply Z.leb_le; lia). replace (j <? fd_num t) with true by (symmetry; apply Z.ltb_lt; lia).
    cbn. by rewrite not_eq_None_Some. }
  change (fd_alloc (held t)) with (fd_alloc t). change (fd_num (held t)) with (fd_num t).
  destruct (find_fd_spec (fd_alloc t) (fd_num t) ltac:(lia)) as (r & -> & Hr). wp_step. wp_step. destruct r as [i|].
  - destruct Hr as (Hi & Hb & Hlow).
    destruct (SETBIT_spec (fd_alloc t) i 1 ltac:(lia) ltac:(lia)) as (al & Eal & _).
    destruct (SETBIT_spec (fd_coes t) i coe ltac:(lia) Hcoe) as (co & Eco & _).
    wp_step. eapply (set_alloc_bit_wp a (held t)); [apply lookup_insert_eq|exact Eal|].
    wp_step. eapply put_slot_wp; [apply lookup_insert_eq|]. rewrite put_table_twice.
    wp_step. eapply set_coes_bit_wp; [apply lookup_insert_eq|exact Eco|]. rewrite put_table_twice.
    wp_step. eapply UNLOCK_fds_wp; [apply lookup_insert_eq|done|]. rewrite put_table_twice. wp_step.
    pose proof (assign t i (Some f) 1 (Some coe) al co Hok Hi eq_refl Eal (conj Hcoe Eco)) as Has.
    rewrite put_file_table, put_table_twice.
    replace (fd_set_lock _ _) with (Fdarray (fd_rcnt t) (fd_lock t) (fd_num t) al co (<[Z.to_nat i := Some f]> (fd_fds t)))
      by (destruct t as [? [? ?]]; cbn in *; by subst).
    apply HQ; [done| |by intros j Hj; apply Hd; [lia|apply Hlow; lia]|done].
    destruct (descr t i) eqn:E; [|done]. assert (descr t i <> None) as Hne by congruence. apply Hd in Hne; [congruence|done].
  - wp_step. eapply add_rcnt_wp; [apply files_put|]. wp_step. eapply add_ocnt_wp; [apply files_put|].
    wp_step. eapply UNLOCK_fds_wp; [apply lookup_insert_eq|done|]. wp_step.
    rewrite !put_file_twice, !put_file_table, put_table_twice. cbn.
    replace (fd_set_lock _ _) with t by (destruct t as [? [? ?]]; cbn in *; by subst).
    replace (of_set_ocnt _ _) with o by (destruct o; unfold of_set_ocnt, of_set_rcnt; cbn; f_equal; lia).
    rewrite (put_file_id f o) by done. rewrite put_table_id by done. apply HQfull. intros j Hj. by apply Hd, Hr.
Qed.
Lemma slot_at_wp a t fd (Q : option Z -> S -> Prop) s :
  tables s !! a = Some t -> len (fd_fds t) = fd_num t -> Q (descr t fd) s -> wp (slot_at a fd) Q s.
Proof.
  intros Ht Hn HQ. unfold slot_at. wp_step. eapply the_fds_wp; [done|]. rewrite Z.geb_leb. unfold descr in HQ.
  destruct ((0 <=? fd) && (fd <? fd_num t)) eqn:E; [|by wp_step]. apply andb_true_iff in E as [E1 E2]. zcases.
  destruct (fd_fds t !! Z.to_nat fd) as [x|] eqn:Ex; [by wp_step|]. apply lookup_ge_None in Ex. unfold len in Hn. lia.
Qed.

Lemma descr_held t fd : descr (held t) fd = descr t fd.
Proof. done. Qed.
Lemma unlock_held t : l_c (fd_lock t) = 1 -> fd_set_lock (Lock 1 (l_s (fd_lock (held t)))) (held t) = t.
Proof. destruct t as [? [? ?]]; cbn. by intros ->. Qed.

Lemma get_fd_wp kernel a t fd type (Q : option Z -> S -> Prop) s :
  table_of kernel a s -> tables s !! a = Some t -> table_ok t ->
  (forall f, descr t fd = Some f -> exists o, files s !! f = Some o /\
     if Z.land (of_type o) type =? 0 then Q None s else Q (Some f) (put_file f (of_set_rcnt (of_rcnt o + 1) o) s)) ->
  (descr t fd = None -> Q None s) ->
  wp (get_fd kernel fd type) Q s.
Proof.
  intros Ha Ht Hok HQ HN. pose proof Hok as [H1 [H2 H2'] _ _]. unfold get_fd.
  wp_step. eapply fds_of_wp; [exact Ha|]. wp_step. eapply LOCK_fds_wp; [done|done|].
  wp_step. eapply (slot_at_wp a (held t)); [apply lookup_insert_eq|done|]. rewrite descr_held.
  assert (forall s', tables s' !! a = Some (held t) -> wp (UNLOCK_fds a) (fun _ s'' => s'' = put_table a t s') s') as Hun.
  { intros s' Hs'. eapply UNLOCK_fds_wp; [done|done|]. by rewrite unlock_held. }
  destruct (descr t fd) as [f|] eqn:Ed.
  - destruct (HQ f eq_refl) as (o & Ho & HQ'). wp_step. wp_step. eapply (the_ofile_wp f o); [done|].
    destruct (Z.land (of_type o) type =? 0); cbn [negb].
    + wp_step. wp_step. eapply wp_mono; [by apply Hun, lookup_insert_eq|]. intros _ s' ->. wp_step. by rewrite put_table_twice, put_table_id.
    + wp_step. eapply (add_rcnt_wp f 1 o); [done|]. wp_step. wp_step.
      eapply wp_mono; [by apply Hun; rewrite put_file_table; apply lookup_insert_eq|]. intros _ s' ->. wp_step.
      rewrite put_file_table, put_table_twice. by rewrite (put_table_id a t).
  - wp_step. wp_step. wp_step. eapply wp_mono; [by apply Hun, lookup_insert_eq|]. intros _ s' ->. wp_step. rewrite put_table_twice, put_table_id by done. by apply HN.
Qed.

Lemma remove_fd_wp kernel a t fd type (Q : Z -> S -> Prop) s :
  table_of kernel a s -> tables s !! a = Some t -> table_ok t ->
  (forall f, descr t fd = Some f -> exists o, files s !! f = Some o /\
     if of_type o =? type then
       forall t', assigned t fd None None t' ->
       wp (err ← drop_ocnt ops_table f; _ ← drop_rcnt ops_table f; mret err) Q (put_table a t' s)
     else Q EBADF s) ->
  (descr t fd = None -> Q EBADF s) ->
  wp (remove_fd ops_table kernel fd type) Q s.
Proof.
  intros Ha Ht Hok HQ HN. pose proof Hok as [H1 [H2 H2'] [H3 H3'] _]. unfold remove_fd.
  wp_step. eapply fds_of_wp; [exact Ha|]. wp_step. eapply LOCK_fds_wp; [done|done|].
  wp_step. eapply (slot_at_wp a (held t)); [apply lookup_insert_eq|done|]. rewrite descr_held.
  assert (wp (UNLOCK_fds a) (fun _ s' => s' = s) (put_table a (held t) s)) as Hun.
  { eapply UNLOCK_fds_wp; [apply lookup_insert_eq|done|]. rewrite unlock_held, put_table_twice by done. by apply put_table_id. }
  destruct (descr t fd) as [f|] eqn:Ed.
  - destruct (HQ f eq_refl) as (o & Ho & HQ'). wp_step. wp_step. eapply (the_ofile_wp f o); [done|].
    destruct (of_type o =? type).
    + assert (0 <= fd < fd_num t) as Hfd.
      { unfold descr in Ed. destruct ((0 <=? fd) && (fd <? fd_num t)) eqn:E; [|done]. apply andb_true_iff in E as [E1 E2]. zcases. lia. }
      destruct (SETBIT_spec (fd_alloc t) fd 0 ltac:(lia) ltac:(lia)) as (al & Eal & _).
      wp_step. eapply (set_alloc_bit_wp a (held t)); [apply lookup_insert_eq|exact Eal|].
      wp_step. eapply put_slot_wp; [apply lookup_insert_eq|]. wp_step. wp_step.
      eapply UNLOCK_fds_wp; [apply lookup_insert_eq|done|]. rewrite !put_table_twice.
      replace (fd_set_lock _ _) with (Fdarray (fd_rcnt t) (fd_lock t) (fd_num t) al (fd_coes t) (<[Z.to_nat fd := None]> (fd_fds t)))
        by (destruct t as [? [? ?]]; cbn in *; by subst).
      apply HQ'. by apply (assign t fd None 0 None al).
    + wp_step. wp_step. eapply wp_mono; [exact Hun|]. intros _ s' ->. by wp_step.
  - wp_step. wp_step. wp_step. eapply wp_mono; [exact Hun|]. intros _ s' ->. wp_step. by apply HN.
Qed.
End tables.

(** ** Theorems *)

(** C34. [new_fd] takes the lowest descriptor that is not in use, makes it name
    the file, counts the file once more as named and once more as used, and
    changes no other descriptor. *)
Theorem new_fd_lowest {X} (ops_table : Z -> vnode_ops X) kernel a t f o coe (s : kstate) :
  table_of kernel a s -> tables s !! a = Some t -> table_ok t -> files s !! f = Some o -> coe = 0 \/ coe = 1 ->
  (exists j, 0 <= j < fd_num t /\ descr t j = None) ->
  wp (new_fd ops_table kernel (-1) (Some f) (-1) coe) (fun i s' =>
    0 <= i < fd_num t /\ descr t i = None /\ (forall j, 0 <= j < i -> descr t j <> None) /\
    (exists t', tables s' !! a = Some t' /\ assigned t i (Some f) (Some coe) t') /\
    files s' !! f = Some (of_set_ocnt (of_ocnt o + 1) (of_set_rcnt (of_rcnt o + 1) o))) s.
Proof.
  intros Ha Ht Hok Ho Hcoe (j & Hj & Hfree). eapply new_fd_wp; [done..| |].
  - intros i t' Hi Hd Hlow Has. split; [done|]. split; [done|]. split; [done|]. split; [exists t'; split; [apply tables_put|done]|].
    apply files_put.
  - intros Hfull. by destruct (Hfull j Hj).
Qed.

(** The descriptor [new_fd] gives finds the file again, for every call that
    accepts files of its kind, and keeps it from being freed meanwhile. *)
Theorem new_fd_then_get_fd {X} (ops_table : Z -> vnode_ops X) kernel a t f o coe type (s : kstate) :
  table_of kernel a s -> tables s !! a = Some t -> table_ok t -> files s !! f = Some o -> coe = 0 \/ coe = 1 ->
  (exists j, 0 <= j < fd_num t /\ descr t j = None) -> Z.land (of_type o) type <> 0 ->
  wp (i ← new_fd ops_table kernel (-1) (Some f) (-1) coe; get_fd kernel i type)
    (fun r s' => r = Some f /\ files s' !! f = Some (of_set_ocnt (of_ocnt o + 1) (of_set_rcnt (of_rcnt o + 2) o))) s.
Proof.
  intros Ha Ht Hok Ho Hcoe (j & Hj & Hfree) Hty. wp_step. eapply new_fd_wp; [done..| |].
  - intros i t' Hi Hd Hlow Has. eapply (get_fd_wp kernel a t'); [by destruct kernel|apply tables_put|apply Has| |].
    + intros f'. rewrite (as_descr _ _ _ _ _ Has), decide_True by done. intros [= <-]. eexists. split; [apply files_put|].
      rewrite (proj2 (Z.eqb_neq _ _)) by done. split; [done|]. rewrite files_put. cbn. unfold of_set_ocnt, of_set_rcnt. cbn.
      do 2 f_equal. lia.
    + rewrite (as_descr _ _ _ _ _ Has), decide_True by done. done.
  - intros Hfull. by destruct (Hfull j Hj).
Qed.

(** C35. When every descriptor is in use [new_fd] changes nothing and answers
    the error number 24, which is a valid descriptor of a table of more than
    24: its callers, which test for a negative number, take it for one. *)
Theorem new_fd_full {X} (ops_table : Z -> vnode_ops X) kernel a t f o coe (s : kstate) :
  table_of kernel a s -> tables s !! a = Some t -> table_ok t -> files s !! f = Some o -> coe = 0 \/ coe = 1 ->
  (forall j, 0 <= j < fd_num t -> descr t j <> None) -> 24 < fd_num t ->
  wp (new_fd ops_table kernel (-1) (Some f) (-1) coe) (fun r s' => r = 24 /\ s' = s /\ exists g, descr t r = Some g) s.
Proof.
  intros Ha Ht Hok Ho Hcoe Hfull Hn. eapply new_fd_wp; [done..| |].
  - intros i t' Hi Hd _ _. by destruct (Hfull i Hi).
  - intros _. change EMFILE with 24. split; [done|]. split; [done|]. apply not_eq_None_Some, Hfull. lia.
Qed.

(** *** At a concrete table: 40 descriptors, one or all in use *)

Definition no_ops : vnode_ops host :=
  VnodeOps (FsOps host (fun _ _ _ => fault) (fun _ _ _ => fault) (fun _ _ _ => fault)) None None None None None None None None None
    None None None None None None None None None None None None None None None None None None.
Definition a_file : ofile := Ofile FD_FILE (Some 1) None 0 0 0 0.
Definition state_with (t : fdarray) : kstate (X := host) :=
  KS (Layer ∅ [] (SL ∅ 0 0 1 0 []) ∅ [] (Lock 1 SemNull) 0
       (Statics None None 1 [] ∅ (Lock 1 SemNull) 1 (Some 7) {[7 := t]} {[9 := a_file]} (Ioctx (Lock 0 SemNull) None None)))
     (Host 0 0 0 4096 [] []).
Definition one_used : fdarray :=
  Fdarray 1 (Lock 1 SemNull) 40 (1 :: replicate 7 0) (replicate 8 0) (Some 9 :: replicate 39 None).
Definition all_used : fdarray :=
  Fdarray 1 (Lock 1 SemNull) 40 (0xffffffff :: (255 :: replicate 6 0)) (replicate 8 0) (replicate 40 (Some 9)).

Definition used_right (t : fdarray) : bool :=
  forallb (fun i => Bool.eqb (bit_of (fd_alloc t) i) (bool_decide (is_Some (mjoin (fd_fds t !! Z.to_nat i))))) (seqZ 0 (fd_num t)).
Lemma used_right_ok t : used_right t = true ->
  forall i, 0 <= i < fd_num t -> bit_of (fd_alloc t) i = bool_decide (is_Some (mjoin (fd_fds t !! Z.to_nat i))).
Proof.
  unfold used_right. rewrite forallb_forall. intros H i Hi. apply eqb_true_iff, H, list_elem_of_In, elem_of_seqZ. lia.
Qed.
Lemma one_used_ok : table_ok one_used.
Proof.
  split; [done|vm_compute; split; congruence|vm_compute; split; congruence|apply used_right_ok; vm_compute; reflexivity].
Qed.
Lemma all_used_ok : table_ok all_used.
Proof.
  split; [done|vm_compute; split; congruence|vm_compute; split; congruence|apply used_right_ok; vm_compute; reflexivity].
Qed.

Lemma new_fd_lowest_witness :
  wp (new_fd (fun _ => no_ops) true (-1) (Some 9) (-1) 0) (fun i _ => 0 <= i < 40 /\ descr one_used i = None) (state_with one_used).
Proof.
  eapply wp_mono; [apply (new_fd_lowest (fun _ => no_ops) true 7 one_used 9 a_file 0 (state_with one_used));
    [reflexivity|reflexivity|exact one_used_ok|reflexivity|left; reflexivity|exists 1; split; [vm_compute; split; congruence|reflexivity]]|].
  cbv beta. intros i s' (H1 & H2 & _). split; [exact H1|exact H2].
Defined.

Lemma new_fd_then_get_fd_witness :
  wp (i ← new_fd (fun _ => no_ops) true (-1) (Some 9) (-1) 0; get_fd true i FD_ALL) (fun r _ => r = Some 9) (state_with one_used).
Proof.
  eapply wp_mono; [apply (new_fd_then_get_fd (fun _ => no_ops) true 7 one_used 9 a_file 0 FD_ALL (state_with one_used));
    [reflexivity|reflexivity|exact one_used_ok|reflexivity|left; reflexivity
    |exists 1; split; [vm_compute; split; congruence|reflexivity]|vm_compute; congruence]|].
  cbv beta. intros r s' [H _]. exact H.
Defined.

Lemma new_fd_full_witness :
  wp (new_fd (fun _ => no_ops) true (-1) (Some 9) (-1) 0) (fun r s' => r = 24 /\ s' = state_with all_used /\ exists g, descr all_used r = Some g)
    (state_with all_used).
Proof.
  apply (new_fd_full (fun _ => no_ops) true 7 all_used 9 a_file 0 (state_with all_used));
    [reflexivity|reflexivity|exact all_used_ok|reflexivity|left; reflexivity| |vm_compute; reflexivity].
  intros j Hj. cbn [all_used fd_num] in Hj. unfold descr. cbn [all_used fd_num fd_fds].
  rewrite (proj2 (Z.leb_le 0 j)), (proj2 (Z.ltb_lt j 40)) by lia. cbn [andb].
  rewrite lookup_replicate_2 by lia. discriminate.
Defined.
