(* ===== verification/Paths.v ===== *)
(** * Paths: from path names to vnodes (kernel.c)

    A path is copied ([new_path]) and eaten component by component by the
    file systems ([parse_path]); symbolic links splice their text in front of
    what is left, [..] at the root of a name space and mount points move to
    another name space. *)

From S2P Require Import Prelude Bytes Compat Host SkipList Kernel Vnode VnodeOps Descriptors.
Local Open Scope Z_scope.

Definition MAXPATHLEN : Z := 4096.
Definition MAX_SYM_LINKS : Z := 16.
Definition slash : byte := x2f.
Definition dot : byte := x2e.
Definition is_slash (c : byte) : bool := bool_decide (c = slash).

(** ** Strings: lists of bytes without the NUL *)

Fixpoint skip_slashes (p : list byte) : list byte :=
  match p with
  | [] => []
  | c :: q => if is_slash c then skip_slashes q else p
  end.

(** The bytes up to the first slash, and the rest from it on. *)
Fixpoint span_slash (p : list byte) : list byte * list byte :=
  match p with
  | [] => ([], [])
  | c :: q => if is_slash c then ([], p) else let '(a, b) := span_slash q in (c :: a, b)
  end.

(** [strrchr(p, '/')]: what comes before the last slash, and after it. *)
Fixpoint last_slash (p : list byte) : option (list byte * list byte) :=
  match p with
  | [] => None
  | c :: q =>
      match last_slash q with
      | Some (a, b) => Some (c :: a, b)
      | None => if is_slash c then Some ([], q) else None
      end
  end.

(** Whether a component of the path is too long. *)
Fixpoint long_name (fuel : nat) (q : list byte) : bool :=
  match q, fuel with
  | [], _ => false
  | _, O => false
  | _, S fuel =>
      let '(name, rest) := span_slash (skip_slashes q) in
      if len name >=? FILE_NAME_LENGTH then true else long_name fuel rest
  end.

(** The next component and what follows it.  The component starts at [p], be
    it a slash, and the slashes after it are skipped. *)
Definition split_path (p : list byte) : list byte * list byte :=
  match p with
  | [] => ([], [])
  | c :: q => let '(a, b) := span_slash q in (c :: a, skip_slashes b)
  end.

Definition cat_path (a b : list byte) : list byte := a ++ slash :: b.

Section paths.
Context {X : Type} (x_host : X -> host) (x_set_host : host -> X -> X) (ops_table : Z -> vnode_ops X).
Abbreviation KS := (M (kstate (X := X))).
Abbreviation dec_vnode := (VnodeOps.dec_vnode ops_table).
Abbreviation ops_of := (VnodeOps.ops_of ops_table).
Abbreviation k_malloc := (Descriptors.k_malloc x_host x_set_host).
Abbreviation get_fd := (Descriptors.get_fd).
Abbreviation put_fd := (Descriptors.put_fd ops_table).

(** The result and [*copy]. *)
Definition new_path (path : option (list byte)) : KS (Z * option (list byte)) :=
  match path with
  | None => mret (0, None)
  | Some path =>
      let l := len path in
      if l =? 0 then mret (ENOENT, None) else
      let ends := match last path with Some c => is_slash c | None => false end in
      let s := if ends then l + 1 else l in
      if l >=? MAXPATHLEN then mret (ENAMETOOLONG, None) else
      if long_name (length path) path then mret (ENAMETOOLONG, None) else
      p ← k_malloc (s + 1);
      match p with
      | None => mret (ENOMEM, None)
      | Some _ => mret (0, Some (if ends then path ++ [dot] else path))
      end
  end.

(** [realloc] of [a]. *)
Definition cat_paths (a b : list byte) : KS (option (list byte)) :=
  p ← k_malloc (len a + len b + 2);
  match p with None => mret None | Some _ => mret (Some (cat_path a b)) end.

Definition the_root : KS Z := k ← in_layer (gets kern); opt (rootvn k).

(** [vn = lookup_vnode(bvn->ns->nsid, vnid)], under the lock. *)
Definition lookup_beside (bvn vnid : Z) : KS (option Z) :=
  _ ← LOCK_vn;
  vn ← in_layer (
    v ← get_vn bvn;
    nsp ← opt (vn_ns v);
    ns ← get_ns nsp;
    lookup_vnode (nsid ns) vnid);
  _ ← UNLOCK_vn;
  mret vn.

(** The vnode to look a component up in: [..] at the root of a name space
    leaves it for the vnode it is mounted on. *)
Definition dotdot_base (bvn : Z) (name : list byte) : KS Z :=
  if bool_decide (name = [dot; dot]) then
    '(r, vn) ← is_root bvn;
    if (r : bool) then _ ← dec_vnode bvn; opt vn else mret bvn
  else mret bvn.

(** The loop of [parse_path] up to the first symbolic link, which [follow]
    takes over with the vnode it was found in, its text and what is left of
    the path.  [fuel] is the length of the path. *)
Fixpoint parse_components (eatsymlink : bool) (follow : Z -> list byte -> list byte -> KS (Z * option Z))
    (fuel : nat) (bvn : Z) (p : list byte) : KS (Z * option Z) :=
  match p, fuel with
  | [], _ => mret (0, Some bvn)
  | _, O => hang
  | _, S fuel =>
      let '(name, np) := split_path p in
      bvn ← dotdot_base bvn name;
      let fred := eatsymlink || negb (bool_decide (np = [])) in
      '(ops, data, vd) ← ops_of bvn;
      op ← opt (vo_walk ops);
      '(err, newpath, vnid) ← op data vd name fred;
      if negb (err =? 0) then _ ← dec_vnode bvn; mret (err, None) else
      match (if fred then newpath else None) with
      | Some link => follow bvn link np
      | None =>
          vn ← lookup_beside bvn vnid;
          _ ← dec_vnode bvn;
          vn ← opt vn;
          '(m, root) ← is_mount_vnode vn;
          if (m : bool) then
            _ ← dec_vnode vn;
            root ← opt root;
            parse_components eatsymlink follow fuel root np
          else parse_components eatsymlink follow fuel vn np
      end
  end.

(** [links] symbolic links may still be followed. *)
Fixpoint parse_links (links : nat) (eatsymlink : bool) (bvn : Z) (p : list byte) : KS (Z * option Z) :=
  parse_components eatsymlink
    (fun vn link np =>
       match links with
       | O => _ ← dec_vnode vn; mret (ELOOP, None)
       | S links =>
           p ← cat_paths link np;
           match p with
           | None => _ ← dec_vnode vn; mret (ENOMEM, None)
           | Some p =>
               if bool_decide (head p = Some slash) then
                 _ ← dec_vnode vn;
                 root ← the_root;
                 _ ← inc_vnode root;
                 parse_links links eatsymlink root (skip_slashes p)
               else parse_links links eatsymlink vn p
           end
       end)
    (length p) bvn p.

(** The result and [*vnp]. *)
Definition parse_path (bvn : Z) (path : option (list byte)) (eatsymlink : bool) : KS (Z * option Z) :=
  match path with
  | None => mret (0, Some bvn)
  | Some p => parse_links (Z.to_nat MAX_SYM_LINKS) eatsymlink bvn p
  end.

(** An absolute path starts at the root. *)
Definition from_root (p : list byte) (eatsymlink : bool) : KS (Z * option Z) :=
  bvn ← the_root;
  _ ← inc_vnode bvn;
  parse_path bvn (Some (skip_slashes p)) eatsymlink.
Definition is_absolute (path : option (list byte)) : option (list byte) :=
  p ← path; if bool_decide (head p = Some slash) then Some p else None.

Definition parse_path_fd (kernel : bool) (fd : Z) (path : option (list byte)) (eatsymlink : bool)
  : KS (Z * option Z) :=
  match is_absolute path with
  | Some p => from_root p eatsymlink
  | None =>
      if fd >=? 0 then
        f ← get_fd kernel fd FD_ALL;
        match f with
        | None => mret (EBADF, None)
        | Some f =>
            o ← the_ofile f;
            bvn ← opt (of_vn o);
            _ ← inc_vnode bvn;
            _ ← put_fd f;
            parse_path bvn path eatsymlink
        end
      else
        _ ← in_layer (in_io (zoom io_lock (fun l i => Ioctx l (io_cwd i) (io_fds i)) LOCK));
        i ← in_layer (in_io get);
        bvn ← opt (io_cwd i);
        _ ← inc_vnode bvn;
        _ ← in_layer (in_io (zoom io_lock (fun l i => Ioctx l (io_cwd i) (io_fds i)) UNLOCK));
        parse_path bvn path eatsymlink
  end.

Definition parse_path_vn (nsid vnid : Z) (path : option (list byte)) (eatsymlink : bool) : KS (Z * option Z) :=
  match is_absolute path with
  | Some p => from_root p eatsymlink
  | None =>
      '(err, bvn) ← load_vnode x_host x_set_host (core_table ops_table) nsid vnid false;
      if negb (err =? 0) then mret (err, None) else
      bvn ← opt bvn;
      parse_path bvn path eatsymlink
  end.

(** The vnode of the directory, and the name of the file in it. *)
Definition get_dir_fd (kernel : bool) (fd : Z) (path : option (list byte)) : KS (Z * list byte * option Z) :=
  '(err, p) ← new_path path;
  if negb (err =? 0) then mret (err, [], None) else
  p ← opt p;
  let '(filename, dir) :=
    match last_slash p with
    | None => (p, [dot])
    | Some (a, b) => (b, a ++ [slash; dot])
    end in
  '(err, dvn) ← parse_path_fd kernel fd (Some dir) true;
  mret (err, filename, dvn).

Definition get_file_fd (kernel : bool) (fd : Z) (path : option (list byte)) (eatsymlink : bool)
  : KS (Z * option Z) :=
  '(err, p) ← new_path path;
  if negb (err =? 0) then mret (err, None) else
  parse_path_fd kernel fd p eatsymlink.

Definition get_file_vn (nsid vnid : Z) (path : option (list byte)) (eatsymlink : bool) : KS (Z * option Z) :=
  '(err, p) ← new_path path;
  if negb (err =? 0) then mret (err, None) else
  parse_path_vn nsid vnid p eatsymlink.
End paths.
