(* ===== verification/VnodeRefs.v ===== *)
(** * VnodeRefs: references by address (kernel.c)

    Inside the kernel a vnode is held by its address.  What the functions on
    addresses do to the table of VnodeSpec.v: taking and giving back a
    reference, finding a vnode of the same name space, looking for mount
    points and the operations of the file system. *)

From stdpp Require Import sorting.
From S2P Require Import Prelude Bytes Host SkipList Kernel Links Vnode VnodeLists VnodeInv VnodeStep VnodeTable VnodeSpec VnodeOps Descriptors Paths.
Local Open Scope Z_scope.

(** One reference more. *)
Definition more (e : entry) : entry := Entry (e_refs e + 1) (e_removed e) (e_data e) (e_mounted e) (e_at e).

(** Nothing in memory is marked for removal or mounted on. *)
Definition calm (A : table) : Prop := forall k e, A !! k = Some e -> e_removed e = false /\ e_mounted e = None.
Definition one (k j : Z * Z) : Z := if decide (k = j) then 1 else 0.

(** The counts change by [d]; what is held afterwards is what it was. *)
Record onward (d : Z * Z -> Z) (A A' : table) : Prop := {
  on_refs j : refs A' j = refs A j + d j;
  on_calm : calm A -> calm A';
  on_same k e : A !! k = Some e -> 0 < refs A' k -> exists e', A' !! k = Some e' /\ same_vnode e e';
}.

Lemma refs_at A k e : A !! k = Some e -> refs A k = e_refs e.
Proof. unfold refs. by intros ->. Qed.
Lemma held_at A k : 0 < refs A k -> exists e, A !! k = Some e /\ e_refs e = refs A k.
Proof. unfold refs. destruct (A !! k) as [e|]; [by exists e|lia]. Qed.

Lemma one_refs k j : one k j = if decide (k = j) then 1 else 0.
Proof. done. Qed.

Lemma onward_put k e e' A :
  A !! k = Some e -> same_vnode e e' -> e_removed e' = e_removed e -> onward (fun j => one k j * (e_refs e' - e_refs e)) A (<[k := e']> A).
Proof.
  intros Hk Hs Hr. split.
  - intros j. rewrite refs_insert. unfold one. destruct (decide (k = j)) as [<-|]; [rewrite (refs_at A k e Hk)|]; lia.
  - intros Hc j x [[<- <-]|[_ Hx]]%lookup_insert_Some; [|by apply (Hc j)]. destruct (Hc k e Hk) as [H1 H2]. destruct Hs as (_ & -> & _). by rewrite Hr.
  - intros j x Hx _. destruct (decide (k = j)) as [<-|Hne]; [|exists x; by rewrite lookup_insert_ne].
    assert (x = e) as -> by congruence. exists e'. by rewrite lookup_insert_eq.
Qed.

Lemma onward_evicted A A' : evicted A A' -> onward (fun _ => 0) A A'.
Proof.
  intros Hev. split.
  - intros j. rewrite (refs_evicted _ _ j Hev). lia.
  - intros Hc j x Hx. apply (Hc j). destruct Hev as [->|(k & e & _ & _ & ->)]; [done|]. by apply lookup_delete_Some in Hx as [_ Hx].
  - intros k e Hk Hp. rewrite (refs_evicted _ _ k Hev), (refs_at A k e Hk) in Hp. exists e. split; [|done]. by eapply evicted_held.
Qed.

Lemma onward_more k e A : A !! k = Some e -> onward (one k) A (<[k := more e]> A).
Proof. intros Hk. destruct (onward_put k e (more e) A Hk) as [H1 H2 H3]; [done..|]. split; [|done..]. intros j. rewrite H1. cbn. lia. Qed.

Lemma onward_new k e A A0 :
  A !! k = None -> evicted A A0 -> e_refs e = 1 -> e_removed e = false -> e_mounted e = None -> onward (one k) A (<[k := e]> A0).
Proof.
  intros Hk Hev H1 H2 H3. destruct (onward_evicted A A0 Hev) as [E1 E2 E3]. split.
  - intros j. rewrite refs_insert, (E1 j), H1. unfold one. destruct (decide (k = j)) as [<-|]; [|lia]. unfold refs. rewrite Hk. lia.
  - intros Hc j x [[<- <-]|[_ Hx]]%lookup_insert_Some; [done|]. by apply (E2 Hc j).
  - intros j x Hx Hp. assert (k <> j) as Hne by congruence. rewrite lookup_insert_ne by done.
    rewrite refs_insert, decide_False in Hp by done. by apply E3.
Qed.

Lemma onward_given k e A A' :
  A !! k = Some e -> e_removed e = false -> dec_post k e A A' -> onward (fun j => - one k j) A A'.
Proof.
  intros Hk Hr Hp. unfold dec_post in Hp. rewrite Hr in Hp. destruct (Z.eqb_spec (e_refs e) 1) as [E|E].
  - destruct (onward_put k e (Entry 0 false (e_data e) (e_mounted e) (e_at e)) A Hk) as [H1 H2 H3]; [done|done|].
    destruct (onward_evicted _ _ Hp) as [G1 G2 G3]. split.
    + intros j. rewrite G1, H1, E. cbn. lia.
    + intros Hc. by apply G2, H2.
    + intros j x Hx Hj. assert (0 < refs (<[k := Entry 0 false (e_data e) (e_mounted e) (e_at e)]> A) j) as Hj' by (rewrite G1 in Hj; lia).
      destruct (H3 j x Hx Hj') as (y & Hy & S1 & S2 & S3). destruct (G3 j y Hy Hj) as (z & Hz & T1 & T2 & T3). exists z. split; [done|].
      unfold same_vnode. split_and!; congruence.
  - subst A'. destruct (onward_put k e (Entry (e_refs e - 1) false (e_data e) (e_mounted e) (e_at e)) A Hk) as [H1 H2 H3]; [done|done|].
    split; [|done..]. intros j. rewrite H1. cbn. lia.
Qed.

Section refs.
Context {X : Type} (x_host : X -> host) (x_set_host : host -> X -> X) (ops_table : Z -> vnode_ops X) (fc : contract X).
Context `{!FileSystems x_host x_set_host (core_table ops_table) fc}.
Context (NB : gmap Z nspace) (n : nat).
Abbreviation kstate := (Vnode.kstate (X := X)).
Abbreviation stands := (VnodeSpec.stands x_host fc NB n).
Abbreviation inv := (VnodeStep.inv x_host fc NB).

Lemma entry_at (s : kstate) c B A k e :
  inv None None c s B A -> A !! k = Some e -> exists v, B !! e_at e = Some v /\ entry_of (e_at e) v = e /\ named B NB (e_at e) k.1 k.2.
Proof. intros Hi Hk. destruct (shows_find B NB A k e (iv_shows _ _ _ _ _ _ _ _ _ Hi) Hk) as (q & v & Hq & <- & Hn). by exists v. Qed.

(** [inc_vnode] of a vnode that is held. *)
Lemma inc_vnode_wp k e (s : kstate) A (Q : unit -> kstate -> Prop) :
  stands s A -> A !! k = Some e -> 0 < e_refs e ->
  (forall s', stands s' (<[k := more e]> A) -> k_ext s' = k_ext s -> Q tt s') -> wp (inc_vnode (e_at e)) Q s.
Proof.
  intros (B & Hi & Hn) Hk Hpos HQ. unfold inc_vnode. wp_step. eapply LOCK_vn_wp; [done|]. intros s1 Hi1 Hx1.
  destruct (entry_at s1 0 B A k e Hi1 Hk) as (v & Hq & Ee & Hnm). set (q := e_at e) in *.
  pose proof (take_up x_host fc NB q v k.1 k.2 0 s1 B A Hi1 Hq Hnm) as Hi2.
  wp_step. eapply (upd_wp x_host fc NB None q _ v); [done|done|exact (plain_rcnt (fun z => z + 1))|by right| |].
  { intros p Hp. eapply (co_dom _ _ _ _ (iv_core _ _ _ _ _ _ _ _ _ Hi1)); [exact Hq|exact Hp]. }
  intros s2 Hi3 Hx2. set (w := v_set_rcnt (rcnt v + 1) v) in *. eapply UNLOCK_vn_wp.
  { eapply (name_back x_host fc NB q w k.1 k.2); [done|apply lookup_insert_eq| |by eapply named_set|].
    - assert (0 < rcnt v) as Hr by (by rewrite <- Ee in Hpos).
      destruct (iv_rest _ _ _ _ _ _ _ _ _ Hi1 q v Hq ltac:(done)) as [Hb [(_&_&?&_)|[(_&_&?&_)|(Hl & Hp & _)]]]; [lia..|].
      split; [done|]. right. right. split; [done|]. split; [done|]. cbn. lia.
    - rewrite Hx2. exact (inv_owned x_host fc NB q v None 0 s1 B A Hi1 Hq). }
  intros s3 Hi4 Hx3. rewrite insert_delete_eq in Hi4. apply HQ; [|congruence]. exists (<[q := w]> B).
  rewrite dom_insert_lookup_L by (by exists v). split; [|done]. destruct k as [id num]. cbn in Hi4.
  assert (more e = entry_of q w) as -> by (by rewrite <- Ee). done.
Qed.

(** [dec_vnode] of a vnode that is held. *)
Lemma dec_vnode_at k e r (s : kstate) A (Q : unit -> kstate -> Prop) :
  fc_calls fc r -> stands s A -> A !! k = Some e -> 0 < e_refs e ->
  (forall s' A', stands s' A' -> dec_post k e A A' -> framed x_host fc NB (e_removed e) (inside A) (k_ext s) (k_ext s') -> Q tt s') ->
  wp (Vnode.dec_vnode (core_table ops_table) (e_at e) r) Q s.
Proof.
  intros Hcl (B & Hi & Hn) Hk Hpos HQ. destruct (entry_at s 1 B A k e Hi Hk) as (v & Hq & Ee & Hnm). destruct k as [id num].
  eapply (dec_vnode_wp x_host x_set_host (core_table ops_table) fc NB); [done|done|done|exact Hnm|exact Hk|done|].
  intros s' B' A' Hi' Hd Hp Hf. apply (HQ s' A'); [|done|done]. exists B'. by rewrite Hd.
Qed.

(** A vnode of the same name space. *)
Lemma lookup_beside_wp id n0 num e e' (s : kstate) A (Q : option Z -> kstate -> Prop) :
  stands s A -> A !! (id, n0) = Some e -> A !! (id, num) = Some e' ->
  (forall s', stands s' A -> k_ext s' = k_ext s -> Q (Some (e_at e')) s') -> wp (lookup_beside (e_at e) num) Q s.
Proof.
  intros (B & Hi & Hn) Hk Hk' HQ. unfold lookup_beside. wp_step. eapply LOCK_vn_wp; [done|]. intros s1 Hi1 Hx1.
  destruct (entry_at s1 0 B A _ e Hi1 Hk) as (v & Hq & Ee & (v' & p & ns & Hv' & Hp & Hns & Eid & _)). cbn in Eid.
  assert (v' = v) as -> by congruence. destruct s1 as [l x].
  destruct (core_vn _ _ _ _ _ _ (iv_core _ _ _ _ _ _ _ _ _ Hi1) Hq) as (w & Hw & ->).
  destruct (core_nsp _ _ _ _ _ _ (iv_core _ _ _ _ _ _ _ _ _ Hi1) Hns) as (m & Hm & ->).
  wp_step. apply in_layer_wp. wp_step. apply (get_vn_wp (e_at e) w); [done|]. cbn in Hp. rewrite Hp. wp_step. wp_step.
  wp_step. apply (get_ns_wp p m); [done|]. cbn in Eid. rewrite Eid.
  assert (wp (in_layer (lookup_vnode id num)) (fun r s2 => r = Some (e_at e') /\ s2 = KS l x) (KS l x)) as Hlk.
  { eapply (lookup_wp x_host fc NB); [exact Hi1|..].
    - intros q y Hy Hny HA. assert (entry_of q y = e') as <- by congruence. done.
    - intros Ha. unfold absent in Ha. congruence. }
  apply wp_done in Hlk as (r & s2 & Elk & -> & ->). unfold in_layer, zoom in Elk. cbn in Elk.
  destruct (lookup_vnode id num l) as [[r l2]| |] eqn:E2; [|done|done]. injection Elk as -> <-.
  eapply wp_run; [exact E2|]. wp_step. eapply UNLOCK_vn_wp; [exact Hi1|]. intros s3 Hi3 Hx3. wp_step. apply HQ; [by exists B|congruence].
Qed.

(** A vnode that nothing is mounted on. *)
Lemma is_mount_vnode_wp k e (s : kstate) A (Q : bool * option Z -> kstate -> Prop) :
  stands s A -> A !! k = Some e -> e_mounted e = None ->
  (forall s', stands s' A -> k_ext s' = k_ext s -> Q (false, None) s') -> wp (is_mount_vnode (e_at e)) Q s.
Proof.
  intros (B & Hi & Hn) Hk Hm HQ. unfold is_mount_vnode. wp_step. eapply LOCK_vn_wp; [done|]. intros s1 Hi1 Hx1.
  destruct (entry_at s1 0 B A k e Hi1 Hk) as (v & Hq & Ee & _). wp_step. eapply get_vn_k; [done|exact Hq|]. intros w ->.
  assert (mounted w = None) as -> by (by rewrite <- Ee in Hm). wp_step. eapply UNLOCK_vn_wp; [done|]. intros s2 Hi2 Hx2. wp_step.
  apply HQ; [by exists B|congruence].
Qed.

(** A name space that is not mounted on a vnode. *)
Lemma is_root_wp id num p ns e (s : kstate) A (Q : bool * option Z -> kstate -> Prop) :
  stands s A -> A !! (id, num) = Some e -> mounted_at NB id p ns -> ns_mount ns = None -> Q (false, None) s -> wp (is_root (e_at e)) Q s.
Proof.
  intros (B & Hi & Hn) Hk (Hp & Eid & _) Hm HQ. destruct (entry_at s 1 B A _ e Hi Hk) as (v & Hq & _ & (v' & p' & ns' & Hv' & Hp' & Hns' & Eid' & _)).
  cbn in Eid'. assert (v' = v) as -> by congruence. pose proof (iv_core _ _ _ _ _ _ _ _ _ Hi) as Hc.
  pose proof (co_tab _ _ _ _ Hc) as [_ _ Ht]. pose proof (Ht p ns Hp) as G1. pose proof (Ht p' ns' Hns') as G2.
  rewrite Eid in G1. rewrite Eid', G1 in G2. injection G2 as <-. assert (ns' = ns) as -> by congruence.
  destruct (core_nsp _ _ _ _ _ _ Hc Hns') as (m & Hm' & ->). unfold is_root. wp_step. eapply get_vn_k; [done|exact Hq|]. intros w ->.
  cbn in Hp'. rewrite Hp'. wp_step. wp_step. wp_step. destruct s as [l x]. apply in_layer_wp. apply (get_ns_wp p m); [done|].
  cbn in Hm. rewrite Hm. by wp_step.
Qed.

Lemma the_root_wp root (s : kstate) A (Q : Z -> kstate -> Prop) :
  stands s A -> fc_root fc = Some root -> Q root s -> wp the_root Q s.
Proof.
  intros (B & Hi & _) Hr HQ. unfold the_root. wp_step. destruct s as [l x]. apply in_layer_wp. wp_step.
  pose proof (iv_root _ _ _ _ _ _ _ _ _ Hi) as E. cbn in E. rewrite E, Hr. by wp_step.
Qed.

(** The operations, the data of the name space and of the vnode. *)
Lemma ops_of_wp id num p ns e (s : kstate) A (Q : vnode_ops X * Z * option Z -> kstate -> Prop) :
  stands s A -> A !! (id, num) = Some e -> mounted_at NB id p ns ->
  (forall a, fc_ops fc !! ns_fs ns = Some a -> fc_space fc a (ns_data ns) -> Q (ops_table a, ns_data ns, e_data e) s) ->
  wp (ops_of ops_table (e_at e)) Q s.
Proof.
  intros (B & Hi & Hn) Hk (Hp & Eid & _) HQ. destruct (entry_at s 1 B A _ e Hi Hk) as (v & Hq & Ee & (v' & p' & ns' & Hv' & Hp' & Hns' & Eid' & _)).
  cbn in Eid'. assert (v' = v) as -> by congruence. pose proof (iv_core _ _ _ _ _ _ _ _ _ Hi) as Hc.
  pose proof (co_tab _ _ _ _ Hc) as [_ _ Ht]. pose proof (Ht p ns Hp) as G1. pose proof (Ht p' ns' Hns') as G2.
  rewrite Eid in G1. rewrite Eid', G1 in G2. injection G2 as <-. assert (ns' = ns) as -> by congruence.
  destruct s as [l x]. destruct (core_vn _ _ _ _ _ _ Hc Hq) as (w & Hw & ->). destruct (core_nsp _ _ _ _ _ _ Hc Hns') as (m & Hm & ->).
  destruct (sp_mounted _ _ (iv_spaces _ _ _ _ _ _ _ _ _ Hi) p _ Hns') as (a & Ha & Hsp).
  pose proof Ha as Ha'. rewrite <- (iv_fs _ _ _ _ _ _ _ _ _ Hi), lookup_fmap in Ha'. cbn in Ha', Hp'.
  destruct (fsystems (kern l) !! ns_fs m) as [f|] eqn:Hf; [|done]. injection Ha' as Ef.
  unfold ops_of. apply in_layer_wp. wp_step. apply (get_vn_wp (e_at e) w); [done|]. rewrite Hp'. wp_step. wp_step.
  wp_step. apply (get_ns_wp p m); [done|]. wp_step. unfold get_fs. wp_step. wp_step. rewrite Hf. wp_step. wp_step. rewrite Ef.
  assert (vdata w = e_data e) as -> by (by rewrite <- Ee). by apply HQ.
Qed.
End refs.
