(* ===== verification/Syscalls.v ===== *)
(** * Syscalls: the operations on files and directories (kernel.c)

    Every call finds vnodes by descriptor or path, asks their file system and
    gives the vnodes back.  Results are those of C: a number that is 0 or an
    error, or a descriptor or size. *)

From S2P Require Import Prelude Bytes Compat Host SkipList Kernel Vnode VnodeOps Descriptors Paths.
Local Open Scope Z_scope.

(** fcntl.h and unistd.h (Linux). *)
Definition O_RDONLY : Z := 0.
Definition O_WRONLY : Z := 1.
Definition O_RDWR : Z := 2.
Definition O_CREAT : Z := 64.
Definition O_APPEND : Z := 1024.
Definition OMODE_MASK : Z := Z.lor O_RDONLY (Z.lor O_WRONLY O_RDWR).
Definition SEEK_SET : Z := 0.
Definition SEEK_CUR : Z := 1.
Definition SEEK_END : Z := 2.
Definition EXDEV : Z := 18.

(** "a hack for linux": an error becomes negative. *)
Definition negative (err : Z) : Z := if err >? 0 then - err else err.

Section syscalls.
Context {X : Type} (x_host : X -> host) (x_set_host : host -> X -> X) (ops_table : Z -> vnode_ops X).
Abbreviation KS := (M (kstate (X := X))).
Abbreviation dec_vnode := (VnodeOps.dec_vnode ops_table).
Abbreviation ops_of := (VnodeOps.ops_of ops_table).
Abbreviation new_ofile := (Descriptors.new_ofile x_host x_set_host).
Abbreviation new_fd := (Descriptors.new_fd ops_table).
Abbreviation get_fd := (Descriptors.get_fd).
Abbreviation put_fd := (Descriptors.put_fd ops_table).
Abbreviation remove_fd := (Descriptors.remove_fd ops_table).
Abbreviation get_file_fd := (Paths.get_file_fd x_host x_set_host ops_table).
Abbreviation get_dir_fd := (Paths.get_dir_fd x_host x_set_host ops_table).
Abbreviation path := (option (list byte)).

(** A call on the vnode of a path: [op] is its operation, if its file system
    has one; the vnode is given back whatever happens. *)
Definition with_file {A} (kernel : bool) (fd : Z) (p : path) (eatsymlink : bool) (none : A)
    (op : vnode_ops X -> option (Z -> option Z -> KS (Z * A))) : KS (Z * A) :=
  '(err, vn) ← get_file_fd kernel fd p eatsymlink;
  if negb (err =? 0) then mret (err, none) else
  vn ← opt vn;
  '(ops, data, vd) ← ops_of vn;
  match op ops with
  | None => _ ← dec_vnode vn; mret (EINVAL, none)
  | Some f => r ← f data vd; _ ← dec_vnode vn; mret r
  end.

(** A call on the directory of a path and the name in it. *)
Definition with_dir (kernel : bool) (fd : Z) (p : path)
    (op : vnode_ops X -> option (Z -> option Z -> list byte -> KS Z)) : KS Z :=
  '(err, name, dvn) ← get_dir_fd kernel fd p;
  if negb (err =? 0) then mret err else
  dvn ← opt dvn;
  '(ops, data, vd) ← ops_of dvn;
  match op ops with
  | None => _ ← dec_vnode dvn; mret EINVAL
  | Some f => r ← f data vd name; _ ← dec_vnode dvn; mret r
  end.

(** Adapts an operation that has no other result. *)
Definition no_more (f : Z -> option Z -> KS Z) : Z -> option Z -> KS (Z * unit) :=
  fun data vd => r ← f data vd; mret (r, tt).

Definition sys_access (kernel : bool) (fd : Z) (p : path) (mode : Z) : KS Z :=
  '(r, _) ← with_file kernel fd p true tt
     (fun ops => op ← vo_access ops; Some (no_more (fun data vd => op data vd mode)));
  mret r.

(** The result and [*st]. *)
Definition sys_rstat (kernel : bool) (fd : Z) (p : path) (eatlink : bool) : KS (Z * option my_stat) :=
  with_file kernel fd p eatlink None
    (fun ops => op ← vo_rstat ops; Some (fun data vd => '(r, st) ← op data vd; mret (r, Some st))).

Definition sys_wstat (kernel : bool) (fd : Z) (p : path) (st : my_stat) (mask : Z) (eatlink : bool) : KS Z :=
  '(r, _) ← with_file kernel fd p eatlink tt
     (fun ops => op ← vo_wstat ops; Some (no_more (fun data vd => op data vd st mask)));
  mret r.

(** The size of the link's text, or an error; and the text. *)
Definition sys_readlink (kernel : bool) (fd : Z) (p : path) (bufsize : Z) : KS (Z * list byte) :=
  '(r, (sz, buf)) ← with_file kernel fd p false (0, [])
     (fun ops => op ← vo_readlink ops;
        Some (fun data vd => '(r, sz, buf) ← op data vd bufsize; mret (r, (sz, buf))));
  mret (if negb (r =? 0) then r else sz, buf).

Definition sys_mkdir (kernel : bool) (fd : Z) (p : path) (perms : Z) : KS Z :=
  with_dir kernel fd p (fun ops => op ← vo_mkdir ops; Some (fun data vd name => op data vd name perms)).
Definition sys_unlink (kernel : bool) (fd : Z) (p : path) : KS Z := with_dir kernel fd p vo_unlink.
Definition sys_rmdir (kernel : bool) (fd : Z) (p : path) : KS Z := with_dir kernel fd p vo_rmdir.

Definition sys_symlink (kernel : bool) (oldpath : path) (nfd : Z) (newpath : path) : KS Z :=
  '(err, name, dvn) ← get_dir_fd kernel nfd newpath;
  if negb (err =? 0) then mret err else
  dvn ← opt dvn;
  '(err, buf) ← new_path x_host x_set_host oldpath;
  if negb (err =? 0) then _ ← dec_vnode dvn; mret err else
  '(ops, data, vd) ← ops_of dvn;
  match vo_symlink ops with
  | None => _ ← dec_vnode dvn; mret EINVAL
  | Some op => r ← op data vd name buf; _ ← dec_vnode dvn; mret r
  end.

(** Whether two vnodes are of one name space. *)
Definition same_ns (vn dvn : Z) : KS bool :=
  in_layer (v ← get_vn vn; d ← get_vn dvn; mret (bool_decide (vn_ns v = vn_ns d))).

Definition sys_link (kernel : bool) (ofd : Z) (oldpath : path) (nfd : Z) (newpath : path) : KS Z :=
  '(err, vn) ← get_file_fd kernel ofd oldpath true;
  if negb (err =? 0) then mret err else
  vn ← opt vn;
  '(err, name, dvn) ← get_dir_fd kernel nfd newpath;
  if negb (err =? 0) then _ ← dec_vnode vn; mret err else
  dvn ← opt dvn;
  same ← same_ns vn dvn;
  let done err := _ ← dec_vnode dvn; _ ← dec_vnode vn; mret err in
  if negb same then done EXDEV else
  '(ops, data, vd) ← ops_of dvn;
  match vo_link ops with
  | None => done EINVAL
  | Some op => v ← in_layer (get_vn vn); r ← op data vd name (vdata v); done r
  end.

(** Across name spaces the second directory is not given back. *)
Definition sys_rename (kernel : bool) (ofd : Z) (oldpath : path) (nfd : Z) (newpath : path) : KS Z :=
  '(err, oldname, odvn) ← get_dir_fd kernel ofd oldpath;
  if negb (err =? 0) then mret err else
  odvn ← opt odvn;
  let error2 err := _ ← dec_vnode odvn; mret err in
  '(err, newname, ndvn) ← get_dir_fd kernel nfd newpath;
  if negb (err =? 0) then error2 err else
  ndvn ← opt ndvn;
  same ← same_ns odvn ndvn;
  if negb same then error2 EXDEV else
  '(ops, data, vd) ← ops_of odvn;
  let error3 err := _ ← dec_vnode ndvn; error2 err in
  match vo_rename ops with
  | None => error3 EINVAL
  | Some op =>
      n ← in_layer (get_vn ndvn);
      r ← op data vd oldname (vdata n) newname;
      if negb (r =? 0) then error3 r else
      _ ← dec_vnode odvn;
      _ ← dec_vnode ndvn;
      mret 0
  end.

Definition sys_chdir (kernel : bool) (fd : Z) (p : path) : KS Z :=
  '(err, vn) ← get_file_fd kernel fd p true;
  if negb (err =? 0) then mret err else
  vn ← opt vn;
  '(ops, data, vd) ← ops_of vn;
  let error2 err := _ ← dec_vnode vn; mret err in
  match vo_rstat ops with
  | None => error2 EINVAL
  | Some op =>
      '(err, st) ← op data vd;
      if negb (err =? 0) then error2 err else
      if negb (MY_S_ISDIR (st_mode st)) then error2 ENOTDIR else
      let upd_lock l i := Ioctx l (io_cwd i) (io_fds i) in
      _ ← in_layer (in_io (zoom io_lock upd_lock LOCK));
      i ← in_layer (in_io get);
      cwd ← opt (io_cwd i);
      _ ← dec_vnode cwd;
      _ ← in_layer (in_io (modify (fun i => Ioctx (io_lock i) (Some vn) (io_fds i))));
      _ ← in_layer (in_io (zoom io_lock upd_lock UNLOCK));
      mret 0
  end.

(** ** Opening *)

(** The end of [sys_opendir] and [sys_open]: a descriptor for the cookie, or
    [fail] with the error. *)
Definition open_fd (kernel : bool) (o : ofile) (coe : Z) (fail : Z -> KS Z) : KS Z :=
  f ← new_ofile o;
  match f with
  | None => fail ENOMEM
  | Some f =>
      nfd ← new_fd kernel (-1) (Some f) (-1) coe;
      if nfd <? 0 then _ ← free_ofile f; fail EMFILE else mret nfd
  end.

Definition sys_opendir (kernel : bool) (fd : Z) (p : path) (coe : Z) : KS Z :=
  '(err, vn) ← get_file_fd kernel fd p true;
  if negb (err =? 0) then mret (negative err) else
  vn ← opt vn;
  '(ops, data, vd) ← ops_of vn;
  let error2 err := _ ← dec_vnode vn; mret (negative err) in
  match vo_opendir ops with
  | None => error2 EINVAL
  | Some op =>
      '(err, cookie) ← op data vd;
      if negb (err =? 0) then error2 err else
      open_fd kernel (Ofile FD_DIR (Some vn) cookie 0 0 0 0) coe (fun err =>
        op ← opt (vo_closedir ops);
        _ ← op data vd cookie;
        _ ← (match vo_free_dircookie ops with Some op => op data vd cookie | None => mret 0 end);
        error2 err)
  end.

Definition sys_closedir (kernel : bool) (fd : Z) : KS Z := remove_fd kernel fd FD_DIR.

(** The exits of [sys_open] once the file is open but has no descriptor. *)
Definition open_failed (vn : option Z) (cookie : option Z) (rest : Z -> Z -> KS Z) (err : Z) : KS Z :=
  vn ← opt vn;
  '(ops, data, vd) ← ops_of vn;
  op ← opt (vo_close ops);
  _ ← op data vd cookie;
  _ ← (match vo_free_cookie ops with Some op => op data vd cookie | None => mret 0 end);
  rest vn err.

Definition sys_open (kernel : bool) (fd : Z) (p : path) (omode perms coe : Z) : KS Z :=
  if negb (Z.land omode O_CREAT =? 0) then
    '(err, name, dvn) ← get_dir_fd kernel fd p;
    if negb (err =? 0) then mret (negative err) else
    dvn ← opt dvn;
    let errorB err := _ ← dec_vnode dvn; mret (negative err) in
    '(ops, data, vd) ← ops_of dvn;
    match vo_create ops with
    | None => errorB EINVAL
    | Some op =>
        '(err, vnid, cookie) ← op data vd name omode perms;
        if negb (err =? 0) then errorB err else
        vn ← lookup_beside dvn vnid;
        _ ← dec_vnode dvn;
        open_fd kernel (Ofile FD_FILE vn cookie 0 0 0 omode) coe
          (open_failed vn cookie (fun vn err =>
             '(ops, _, _) ← ops_of vn;
             '(_, data, vd) ← ops_of dvn;
             op ← opt (vo_unlink ops);
             _ ← op data vd name;
             _ ← dec_vnode vn;
             errorB err))
    end
  else
    '(err, vn) ← get_file_fd kernel fd p true;
    if negb (err =? 0) then mret err else
    vn ← opt vn;
    '(ops, data, vd) ← ops_of vn;
    let error2 err := _ ← dec_vnode vn; mret err in
    match vo_open ops with
    | None => error2 EINVAL
    | Some op =>
        '(err, cookie) ← op data vd omode;
        if negb (err =? 0) then error2 err else
        open_fd kernel (Ofile FD_FILE (Some vn) cookie 0 0 0 omode) coe
          (open_failed (Some vn) cookie (fun _ err => error2 err))
    end.

Definition sys_close (kernel : bool) (fd : Z) : KS Z := remove_fd kernel fd FD_FILE.

(** ** Using *)

(** Runs a call on the file behind a descriptor and gives the file back. *)
Definition with_fd {A} (kernel : bool) (fd type : Z) (bad : A) (k : Z -> ofile -> KS A) : KS A :=
  f ← get_fd kernel fd type;
  match f with
  | None => mret bad
  | Some f => o ← the_ofile f; r ← k f o; _ ← put_fd f; mret r
  end.

(** The operations and data pointers of the vnode of an open file. *)
Definition ofile_ops (o : ofile) : KS (vnode_ops X * Z * option Z) := vn ← opt (of_vn o); ops_of vn.
Definition set_pos (f p : Z) : KS unit := in_layer (in_ofile f (modify (of_set_pos p))).

(** The end of [sys_lseek], at a new position. *)
Definition seek_to (f p : Z) : KS Z :=
  _ ← set_pos f p;
  if p <? 0 then _ ← set_pos f 0; mret EINVAL else mret p.
(** The position counted from the end of the file. *)
Definition seek_end (f : Z) (o : ofile) (p : Z) : KS Z :=
  '(ops, data, vd) ← ofile_ops o;
  match vo_rstat ops with
  | None => mret EINVAL
  | Some op =>
      '(err, st) ← op data vd;
      if negb (err =? 0) then mret err else seek_to f (i64 (p + st_size st))
  end.

Definition sys_lseek (kernel : bool) (fd p whence : Z) : KS Z :=
  with_fd kernel fd FD_FILE EBADF (fun f o =>
    if whence =? SEEK_SET then seek_to f p
    else if whence =? SEEK_CUR then
      if Z.land (of_omode o) O_APPEND =? 0 then seek_to f (i64 (of_pos o + p)) else seek_end f o p
    else if whence =? SEEK_END then seek_end f o p
    else mret EINVAL).

(** The size read or an error, and the bytes put in [buf]. *)
Definition sys_read (kernel : bool) (fd len : Z) : KS (Z * list byte) :=
  with_fd kernel fd FD_FILE (EBADF, []) (fun f o =>
    if Z.land (of_omode o) OMODE_MASK =? O_WRONLY then mret (EBADF, []) else
    '(ops, data, vd) ← ofile_ops o;
    op ← opt (vo_read ops);
    '(err, sz, buf) ← op data vd (of_cookie o) (of_pos o) len;
    if negb (err =? 0) then mret (err, buf) else
    o ← the_ofile f;
    _ ← set_pos f (i64 (of_pos o + sz));
    mret (sz, buf)).

Definition sys_write (kernel : bool) (fd : Z) (buf : list byte) (len : Z) : KS Z :=
  with_fd kernel fd FD_FILE EBADF (fun f o =>
    if Z.land (of_omode o) OMODE_MASK =? O_RDONLY then mret EBADF else
    '(ops, data, vd) ← ofile_ops o;
    op ← opt (vo_write ops);
    '(err, sz) ← op data vd (of_cookie o) (of_pos o) buf len;
    if negb (err =? 0) then mret err else
    o ← the_ofile f;
    _ ← set_pos f (i64 (of_pos o + sz));
    mret sz).

Definition sys_ioctl (kernel : bool) (fd cmd : Z) (arg : option Z) (sz : Z) : KS Z :=
  with_fd kernel fd FD_FILE EBADF (fun f o =>
    '(ops, data, vd) ← ofile_ops o;
    match vo_ioctl ops with
    | None => mret EINVAL
    | Some op => op data vd (of_cookie o) cmd arg sz
    end).

Definition sys_rewinddir (kernel : bool) (fd : Z) : KS Z :=
  with_fd kernel fd FD_DIR EBADF (fun f o =>
    '(ops, data, vd) ← ofile_ops o;
    op ← opt (vo_rewinddir ops);
    op data vd (of_cookie o)).

(** The number of the root of what is mounted on a vnode of the name space. *)
Fixpoint mount_vnid_from (fuel : nat) (ns : option Z) (nsid_ vnid_ : Z) : M layer (option Z) :=
  match ns, fuel with
  | None, _ => mret None
  | Some _, O => hang
  | Some p, S fuel =>
      ns ← get_ns p;
      match ns_mount ns with
      | None => mount_vnid_from fuel (ns_next ns) nsid_ vnid_
      | Some m =>
          m ← get_vn m;
          mnsp ← opt (vn_ns m);
          mns ← get_ns mnsp;
          if negb (nsid mns =? nsid_) then mount_vnid_from fuel (ns_next ns) nsid_ vnid_ else
          if negb (vnid m =? vnid_) then mount_vnid_from fuel (ns_next ns) nsid_ vnid_ else
          root ← opt (ns_root ns);
          r ← get_vn root;
          mret (Some (vnid r))
      end
  end.
Definition is_mount_vnid (nsid_ vnid_ : Z) : M layer (option Z) :=
  l ← get; mount_vnid_from (S (size (nspaces l))) (nshead (kern l)) nsid_ vnid_.

Definition set_ino (ino : Z) (d : my_dirent) : my_dirent := Dirent (d_dev d) ino (d_reclen d) (d_name d).

(** Patches the entries that are mount points, and the parent of a mounted
    root; the name space lock is held. *)
Fixpoint patch_entries (kernel : bool) (fd : Z) (vn : Z) (nsid_ : Z) (l : list my_dirent)
  : KS (Z * list my_dirent) :=
  match l with
  | [] => mret (0, [])
  | p :: l =>
      m ← in_layer (is_mount_vnid nsid_ (d_ino p));
      let p := match m with Some vnid => set_ino vnid p | None => p end in
      ns ← in_layer (v ← get_vn vn; nsp ← opt (vn_ns v); get_ns nsp);
      '(err, p) ← (if bool_decide (is_Some (ns_mount ns)) && bool_decide (d_name p = [dot; dot]) then
                     _ ← UNLOCK_vn;
                     '(err, st) ← sys_rstat kernel fd (Some [dot; dot]) false;
                     if negb (err =? 0) then mret (err, p) else
                     st ← opt st;
                     _ ← LOCK_vn;
                     mret (0, set_ino (st_ino st) p)
                   else mret (0, p));
      if negb (err =? 0) then mret (err, []) else
      '(err, l) ← patch_entries kernel fd vn nsid_ l;
      mret (err, p :: l)
  end.

(** The number of entries or an error, and the entries.  When the file
    system fails the file is not given back. *)
Definition sys_readdir (kernel : bool) (fd bufsize count : Z) : KS (Z * list my_dirent) :=
  f ← get_fd kernel fd FD_DIR;
  match f with
  | None => mret (EBADF, [])
  | Some f =>
      o ← the_ofile f;
      vn ← opt (of_vn o);
      '(ops, data, vd) ← ops_of vn;
      op ← opt (vo_readdir ops);
      '(err, ents) ← op data vd (of_cookie o) count bufsize;
      if negb (err =? 0) then mret (err, []) else
      _ ← LOCK_vn;
      ns ← in_layer (v ← get_vn vn; nsp ← opt (vn_ns v); get_ns nsp);
      '(err, l) ← patch_entries kernel fd vn (nsid ns) ents;
      if negb (err =? 0) then _ ← put_fd f; mret (err, []) else
      _ ← UNLOCK_vn;
      _ ← put_fd f;
      mret (len ents, l)
  end.
End syscalls.
