(* ===== verification/Mounts.v ===== *)
(** * Mounts: file systems and name spaces (kernel.c)

    The table of installed file systems, mounting and unmounting, and the
    start of the vnode layer. *)

From S2P Require Import Prelude Bytes Compat Host SkipList Kernel Vnode VnodeOps Descriptors Paths Syscalls.
Local Open Scope Z_scope.

Definition ns_set_data x ns := Nspace (nsid ns) (ns_fs ns) (ns_vnodes ns) x (ns_root ns) (ns_mount ns) (ns_shutdown ns)
  (ns_dev ns) (ns_ino ns) (ns_prev ns) (ns_next ns).
Definition ns_set_root x ns := Nspace (nsid ns) (ns_fs ns) (ns_vnodes ns) (ns_data ns) x (ns_mount ns) (ns_shutdown ns)
  (ns_dev ns) (ns_ino ns) (ns_prev ns) (ns_next ns).
Definition ns_set_mount x ns := Nspace (nsid ns) (ns_fs ns) (ns_vnodes ns) (ns_data ns) (ns_root ns) x (ns_shutdown ns)
  (ns_dev ns) (ns_ino ns) (ns_prev ns) (ns_next ns).
Definition ns_set_shutdown x ns := Nspace (nsid ns) (ns_fs ns) (ns_vnodes ns) (ns_data ns) (ns_root ns) (ns_mount ns) x
  (ns_dev ns) (ns_ino ns) (ns_prev ns) (ns_next ns).
Definition ns_set_prev x ns := Nspace (nsid ns) (ns_fs ns) (ns_vnodes ns) (ns_data ns) (ns_root ns) (ns_mount ns) (ns_shutdown ns)
  (ns_dev ns) (ns_ino ns) x (ns_next ns).
Definition ns_set_next x ns := Nspace (nsid ns) (ns_fs ns) (ns_vnodes ns) (ns_data ns) (ns_root ns) (ns_mount ns) (ns_shutdown ns)
  (ns_dev ns) (ns_ino ns) (ns_prev ns) x.
Definition v_set_mounted n v := Vnode (vnid v) (vn_ns v) n (vn_remove v) (vn_busy v) (inlist v)
  (vn_nspace v) (vn_list v) (rcnt v) (vdata v).
Definition fs_set_fsid x f := Fsystem x (fixed f) (aid f) (fs_name f) (fs_rcnt f) (fs_vops f).
Definition fs_set_rcnt x f := Fsystem (fsid f) (fixed f) (aid f) (fs_name f) x (fs_vops f).

(** A free slot of a table used round-robin: the index, and the identifier
    for the next time. *)
Fixpoint find_slot (n : nat) (tab : list (option Z)) (id : Z) : option (option Z * Z) :=
  match n with
  | O => Some (None, id)
  | S n =>
      slot ← tab !! Z.to_nat (id mod len tab);
      match slot with
      | None => Some (Some id, u64 (id + 1))
      | Some _ => find_slot n tab (u64 (id + 1))
      end
  end.
Definition slot_of (tab : list (option Z)) (id : Z) : nat := Z.to_nat (id mod len tab).

Section mounts.
Context {X : Type} (x_host : X -> host) (x_set_host : host -> X -> X) (ops_table : Z -> vnode_ops X).
Abbreviation KS := (M (kstate (X := X))).
Abbreviation dec_vnode := (VnodeOps.dec_vnode ops_table).
Abbreviation ops_of := (VnodeOps.ops_of ops_table).
Abbreviation k_malloc := (Descriptors.k_malloc x_host x_set_host).
Abbreviation new_fds := (Descriptors.new_fds x_host x_set_host).
Abbreviation get_file_fd := (Paths.get_file_fd x_host x_set_host ops_table).
Abbreviation path := (option (list byte)).

Definition k_statics : KS statics := in_layer (gets kern).
Definition upd_statics (f : statics -> statics) : KS unit := in_layer (upd_kern f).
Definition upd_fs (p : Z) (f : fsystem -> fsystem) : KS unit :=
  in_layer (x ← get_fs p; upd_kern (fun k => set_fsystems (<[p := f x]> (fsystems k)) k)).
Definition LOCK_fstab : KS unit := in_layer (in_kern (zoom fstablock set_fstablock LOCK)).
Definition UNLOCK_fstab : KS unit := in_layer (in_kern (zoom fstablock set_fstablock UNLOCK)).

(** ** File systems *)

(** NULL when memory or the table is full; a name that does not fit the
    structure is written past it. *)
Definition install_file_system (vops : Z) (name : list byte) (fixed : bool) (aid : Z) : KS (option Z) :=
  p ← k_malloc 304;
  match p with
  | None => mret None
  | Some p =>
      if len name >=? 32 then fault else
      k ← k_statics;
      '(slot, nx) ← opt (find_slot (length (fstab k)) (fstab k) (nxfsid k));
      _ ← upd_statics (set_nxfsid nx);
      match slot with
      | None => mret None
      | Some id =>
          _ ← upd_statics (fun k => set_fsystems (<[p := Fsystem id fixed aid name 1 vops]> (fsystems k)) k);
          _ ← upd_statics (fun k => set_fstab (<[slot_of (fstab k) id := Some p]> (fstab k)) k);
          mret (Some p)
      end
  end.

Definition load_file_system (name : list byte) : KS (option Z) := mret None.

Definition unload_file_system (p : Z) : KS Z :=
  fs ← in_layer (get_fs p);
  _ ← upd_statics (fun k => set_fstab (<[slot_of (fstab k) (fsid fs) := None]> (fstab k)) k);
  _ ← upd_statics (fun k => set_fsystems (delete p (fsystems k)) k);
  mret 0.

(** The first file system of the table with the name. *)
Fixpoint find_fs (l : list (option Z)) (name : list byte) : KS (option Z) :=
  match l with
  | [] => mret None
  | None :: l => find_fs l name
  | Some p :: l =>
      fs ← in_layer (get_fs p);
      if bool_decide (fs_name fs = name) then mret (Some p) else find_fs l name
  end.

Definition inc_file_system (name : list byte) : KS (option Z) :=
  _ ← LOCK_fstab;
  k ← k_statics;
  p ← find_fs (fstab k) name;
  p ← (match p with
       | Some p => _ ← upd_fs p (fun f => fs_set_rcnt (fs_rcnt f + 1) f); mret (Some p)
       | None => load_file_system name
       end);
  _ ← UNLOCK_fstab;
  mret p.

Definition dec_file_system (p : Z) : KS Z :=
  _ ← LOCK_fstab;
  _ ← upd_fs p (fun f => fs_set_rcnt (fs_rcnt f - 1) f);
  fs ← in_layer (get_fs p);
  _ ← (if negb (fixed fs) && (fs_rcnt fs =? 0) then _ ← unload_file_system p; mret tt else mret tt);
  _ ← UNLOCK_fstab;
  mret 0.

(** ** Name spaces *)

(** Takes a name space out of the list. *)
Definition unlink_ns (p : Z) : M layer unit :=
  ns ← get_ns p;
  _ ← (match ns_prev ns with
       | Some q => upd_ns q (ns_set_next (ns_next ns))
       | None => upd_kern (set_nshead (ns_next ns))
       end);
  match ns_next ns with
  | Some q => upd_ns q (ns_set_prev (ns_prev ns))
  | None => mret tt
  end.

Definition clear_nstab (id : Z) : M layer unit :=
  modify (fun l => set_nstab (<[slot_of (nstab l) id := None]> (nstab l)) l).
Definition free_ns (p : Z) : M layer unit := modify (fun l => set_nspaces (delete p (nspaces l)) l).

(** Whether the device is mounted already. *)
Fixpoint mounted_from (fuel : nat) (ns : option Z) (dev ino : Z) : M layer bool :=
  match ns, fuel with
  | None, _ => mret false
  | Some _, O => hang
  | Some p, S fuel =>
      ns ← get_ns p;
      if (ns_dev ns =? dev) && (ns_ino ns =? ino) then mret true
      else mounted_from fuel (ns_next ns) dev ino
  end.
Definition is_mounted (dev ino : Z) : M layer bool :=
  l ← get; mounted_from (S (size (nspaces l))) (nshead (kern l)) dev ino.

(** [stat] of the C library: an error, or device and inode number of a file. *)
Context (stat : list byte -> Z + (Z * Z)).

(** The steps of [sys_mount] from [error6] to [error3]: each label undoes one
    step more than the one after it. *)
Definition error3 (ns mount err : Z) : KS (Z * Z) := _ ← dec_vnode mount; mret (0, err).
Definition error4 (fs ns mount err : Z) : KS (Z * Z) := _ ← dec_file_system fs; error3 ns mount err.
Definition error5 (fs ns mount err : Z) : KS (Z * Z) :=
  _ ← LOCK_vn;
  n ← in_layer (get_ns ns);
  _ ← in_layer (clear_nstab (nsid n));
  _ ← in_layer (unlink_ns ns);
  _ ← UNLOCK_vn;
  _ ← dec_file_system fs;
  _ ← in_layer (free_ns ns);
  error3 ns mount err.
Definition error6 (fs ns mount data err : Z) : KS (Z * Z) :=
  n ← in_layer (get_ns ns);
  root ← opt (ns_root n);
  _ ← dec_vnode root;
  f ← in_layer (get_fs fs);
  op ← opt (vo_unmount (ops_table (fs_vops f)));
  _ ← op data;
  error5 fs ns mount err.

(** Enters a new name space in the table and at the head of the list. *)
Definition enter_ns (ns id fs dev ino : Z) : M layer unit :=
  l ← get;
  let head := nshead (kern l) in
  _ ← modify (fun l => set_nstab (<[slot_of (nstab l) id := Some ns]> (nstab l)) l);
  _ ← modify (fun l => set_nspaces
        (<[ns := Nspace id fs (VnList None None 0) 0 None None false dev ino None head]> (nspaces l)) l);
  _ ← (match head with Some h => upd_ns h (ns_set_prev (Some ns)) | None => mret tt end);
  upd_kern (set_nshead (Some ns)).

(** The data of the file system, 0 for NULL, and [errno]. *)
Definition sys_mount (kernel : bool) (filesystem : list byte) (fd : Z) (where_ : path) (device : path)
    (flags : Z) (parms : option Z) (plen : Z) : KS (Z * Z) :=
  match (match device with Some d => stat d | None => inr (-1, -1) end) with
  | inl errno => mret (0, errno)
  | inr (dev, ino) =>
      '(err, mount) ← get_file_fd true fd where_ true;
      if negb (err =? 0) then mret (0, err) else
      mount ← opt mount;
      let error2 err := _ ← dec_vnode mount; mret (0, err) in
      '(mops, mdata, mvd) ← ops_of mount;
      op ← opt (vo_rstat mops);
      '(err, mst) ← op mdata mvd;
      if negb (err =? 0) then error2 err else
      if negb (MY_S_ISDIR (st_mode mst)) then error2 ENOTDIR else
      ns ← k_malloc 104;
      match ns with
      | None => error2 ENOMEM
      | Some ns =>
          fs ← inc_file_system filesystem;
          match fs with
          | None => error3 ns mount ENODEV
          | Some fs =>
              _ ← LOCK_vn;
              twice ← (match device with Some _ => in_layer (is_mounted dev ino) | None => mret false end);
              if (twice : bool) then _ ← UNLOCK_vn; error4 fs ns mount ENODEV else
              l ← in_layer get;
              '(slot, nx) ← opt (find_slot (length (nstab l)) (nstab l) (nxnsid (kern l)));
              _ ← upd_statics (set_nxnsid nx);
              match slot with
              | None => _ ← UNLOCK_vn; error4 fs ns mount EMFILE
              | Some id =>
                  _ ← in_layer (enter_ns ns id fs dev ino);
                  _ ← UNLOCK_vn;
                  f ← in_layer (get_fs fs);
                  op ← opt (vo_mount (ops_table (fs_vops f)));
                  '(err, data, vnid) ← op id device flags parms plen;
                  if negb (err =? 0) then error5 fs ns mount err else
                  _ ← LOCK_vn;
                  root ← in_layer (lookup_vnode id vnid);
                  _ ← in_layer (upd_ns ns (ns_set_root root));
                  _ ← in_layer (upd_ns ns (ns_set_data data));
                  k ← k_statics;
                  m ← in_layer (get_vn mount);
                  if bool_decide (rootvn k = Some mount) || bool_decide (is_Some (mounted m)) then
                    error6 fs ns mount data EBUSY
                  else
                    _ ← in_layer (upd_vn mount (v_set_mounted (Some ns)));
                    _ ← in_layer (upd_ns ns (ns_set_mount (Some mount)));
                    _ ← UNLOCK_vn;
                    mret (data, 0)
              end
          end
      end
  end.

(** ** Unmounting *)

(** Whether a vnode of the list is in use. *)
Fixpoint some_in_use (fuel : nat) (vn : option Z) : M layer bool :=
  match vn, fuel with
  | None, _ => mret false
  | Some _, O => hang
  | Some p, S fuel =>
      v ← get_vn p;
      if vn_busy v || negb (rcnt v =? 0) then mret true else some_in_use fuel (lk_next (vn_nspace v))
  end.
Fixpoint mark_busy (fuel : nat) (vn : option Z) : M layer unit :=
  match vn, fuel with
  | None, _ => mret tt
  | Some _, O => hang
  | Some p, S fuel =>
      _ ← upd_vn p (v_set_busy true);
      v ← get_vn p;
      mark_busy fuel (lk_next (vn_nspace v))
  end.
(** Releases the vnodes of a name space; an error is only reported. *)
Fixpoint release_all (fuel : nat) (ns fs : Z) : KS unit :=
  n ← in_layer (get_ns ns);
  match l_head (ns_vnodes n), fuel with
  | None, _ => mret tt
  | Some _, O => hang
  | Some vn, S fuel =>
      _ ← UNLOCK_vn;
      f ← in_layer (get_fs fs);
      v ← in_layer (get_vn vn);
      _ ← in_ext (op_release_vnode (core_table ops_table (fs_vops f)) (ns_data n) (vdata v) false);
      _ ← LOCK_vn;
      _ ← in_layer (upd_vn vn (v_set_busy false));
      _ ← in_layer (clear_vnode vn);
      _ ← in_layer (move_vnode vn FREE_LIST);
      release_all fuel ns fs
  end.

Definition sys_unmount (kernel : bool) (fd : Z) (where_ : path) : KS Z :=
  '(err, root) ← get_file_fd true fd where_ true;
  if negb (err =? 0) then mret err else
  root ← opt root;
  _ ← LOCK_vn;
  let error2 err := _ ← UNLOCK_vn; mret err in
  v ← in_layer (get_vn root);
  nsp ← opt (vn_ns v);
  ns ← in_layer (get_ns nsp);
  let fs := ns_fs ns in
  if negb (bool_decide (ns_root ns = Some root)) then error2 EINVAL else
  k ← k_statics;
  if bool_decide (rootvn k = Some root) then error2 EBUSY else
  _ ← in_layer (upd_vn root (fun v => v_set_rcnt (rcnt v - 2) v));
  l ← in_layer get;
  let n := S (size (vns l)) in
  used ← in_layer (some_in_use n (l_head (ns_vnodes ns)));
  if (used : bool) then
    _ ← in_layer (upd_vn root (fun v => v_set_rcnt (rcnt v + 1) v));
    error2 EBUSY
  else
    mount ← opt (ns_mount ns);
    _ ← in_layer (upd_vn mount (v_set_mounted None));
    _ ← in_layer (upd_ns nsp (ns_set_shutdown true));
    _ ← in_layer (mark_busy n (l_head (ns_vnodes ns)));
    _ ← release_all n nsp fs;
    _ ← in_layer (unlink_ns nsp);
    _ ← in_layer (clear_nstab (nsid ns));
    _ ← UNLOCK_vn;
    f ← in_layer (get_fs fs);
    op ← opt (vo_unmount (ops_table (fs_vops f)));
    _ ← op (ns_data ns);
    _ ← in_layer (free_ns nsp);
    _ ← dec_file_system fs;
    _ ← dec_vnode mount;
    mret 0.

Fixpoint sync_from (fuel : nat) (ns : option Z) : KS unit :=
  match ns, fuel with
  | None, _ => mret tt
  | Some _, O => hang
  | Some p, S fuel =>
      ns ← in_layer (get_ns p);
      root ← opt (ns_root ns);
      _ ← in_layer (upd_vn root (fun v => v_set_rcnt (rcnt v + 1) v));
      _ ← UNLOCK_vn;
      f ← in_layer (get_fs (ns_fs ns));
      _ ← (match vo_sync (ops_table (fs_vops f)) with Some op => op (ns_data ns) | None => mret 0 end);
      _ ← LOCK_vn;
      ns ← in_layer (get_ns p);
      root ← opt (ns_root ns);
      _ ← in_layer (upd_vn root (fun v => v_set_rcnt (rcnt v - 1) v));
      sync_from fuel (ns_next ns)
  end.

Definition sys_sync : KS Z :=
  _ ← LOCK_vn;
  l ← in_layer get;
  _ ← sync_from (S (size (nspaces l))) (nshead (kern l));
  _ ← UNLOCK_vn;
  mret 0.

(** ** Start *)

Definition zero_io : ioctx := Ioctx (Lock 0 SemNull) None None.

(** [rootfs] is the address of the operations of the root file system; the
    identity of its device is never set. *)
Definition init_vnode_layer (memsize : Z) (rand : list Z) (rootfs : Z) (rootfs_name : list byte) : KS Z :=
  let vnnum := Z.shiftr memsize 15 in
  let nns := Z.shiftr memsize 17 in
  let nfs := Z.shiftr memsize 18 in
  p ← k_malloc (vnnum * 104);
  _ ← opt p;
  sl ← in_ext (zoom x_host x_set_host (NewSL rand NO_DUPLICATES));
  sl ← opt sl;
  t ← k_malloc (nns * 8); _ ← opt t;
  t ← k_malloc (nfs * 8); _ ← opt t;
  vl ← k_new_lock x_host x_set_host;
  fl ← k_new_lock x_host x_set_host;
  _ ← in_layer (modify (fun l =>
        Layer (init_vns (Z.to_nat vnnum) 0 vnnum) (init_lists vnnum) sl ∅
          (replicate (Z.to_nat nns) None) vl (Z.shiftr vnnum 2)
          (Statics None None 1 (replicate (Z.to_nat nfs) None) ∅ fl 1 None ∅ ∅ zero_io)));
  g ← new_fds (Z.shiftr memsize 15);
  _ ← upd_statics (set_global_fds g);
  _ ← install_file_system rootfs rootfs_name true (-1);
  fs ← inc_file_system rootfs_name;
  ns ← k_malloc 104;
  ns ← opt ns;
  '(dev, ino) ← in_ext (zoom x_host x_set_host (d ← junk 12; mret (sle (take 4 d), sle (drop 4 d))));
  _ ← in_layer (enter_ns ns 1 (default 0 fs) dev ino);
  _ ← upd_statics (set_nxnsid 2);
  fs ← opt fs;
  f ← in_layer (get_fs fs);
  op ← opt (vo_mount (ops_table (fs_vops f)));
  '(err, data, vnid) ← op 1 None 0 None 0;
  _ ← in_layer (upd_ns ns (ns_set_data data));
  root ← in_layer (lookup_vnode 1 vnid);
  _ ← in_layer (upd_ns ns (ns_set_root root));
  _ ← upd_statics (set_rootvn root);
  mret 0.
End mounts.
