(* ===== verification/Rootfs.v ===== *)
(** * Rootfs: the file system in memory at the top of the name space (rootfs.c)

    Directories and symbolic links only; each directory keeps its nodes in a
    doubly linked list sorted by name, and a skip list finds a node by number.
    The first half runs on the state of the file system and the host; walking,
    renaming, removing and mounting call back into the vnode layer. *)

From S2P Require Import Prelude Bytes Compat Host SkipList Kernel Vnode VnodeOps Descriptors Paths.
Local Open Scope Z_scope.

(** Strings are lists of bytes without the NUL, compared as unsigned bytes. *)
Fixpoint strcmp (a b : list byte) : Z :=
  match a, b with
  | [], [] => 0
  | [], _ :: _ => -1
  | _ :: _, [] => 1
  | x :: a, y :: b => if bZ x =? bZ y then strcmp a b else if bZ x <? bZ y then -1 else 1
  end.

(** A string on the heap; [Freed] is a pointer to memory given back. *)
Inductive cstr := Null | Freed | Str (s : list byte).
Definition str_of (c : cstr) : option (list byte) := match c with Str s => Some s | _ => None end.

Record rnode := RNode {
  rn_name : cstr;
  rn_removed : bool;
  rn_ns : Z;
  rn_vnid : Z;
  rn_parent : Z;
  rn_mtime : Z;
  rn_uid : Z;
  rn_gid : Z;
  rn_mode : Z;
  rn_next : option Z;
  rn_prev : option Z;
  rn_head : option Z;
  rn_symlink : cstr;
}.

(** A key of the skip list: the node at [rk_vn], whose number is fixed. *)
Record rkey := RKey { rk_vnid : Z; rk_vn : Z }.

Record rspace := RSpace {
  rs_nsid : Z;
  rs_vnnum : Z;
  rs_root : Z;
  rs_nxvnid : Z;
  rs_lock : lock;
  rs_skiplist : SkipList rkey;
}.

Record dirpos := DirPos { dp_lock : lock; dp_pos : Z; dp_name : list byte }.

(** [r_rand]: the results of [rand] the next skip list gets. *)
Record rstate := RState {
  r_nodes : gmap Z rnode;
  r_spaces : gmap Z rspace;
  r_cookies : gmap Z dirpos;
  r_rand : list Z;
  r_host : host;
}.

Definition rset_nodes x s := RState x (r_spaces s) (r_cookies s) (r_rand s) (r_host s).
Definition rset_spaces x s := RState (r_nodes s) x (r_cookies s) (r_rand s) (r_host s).
Definition rset_cookies x s := RState (r_nodes s) (r_spaces s) x (r_rand s) (r_host s).
Definition rset_host x s := RState (r_nodes s) (r_spaces s) (r_cookies s) (r_rand s) x.

Definition n_set_name x n := RNode x (rn_removed n) (rn_ns n) (rn_vnid n) (rn_parent n) (rn_mtime n) (rn_uid n) (rn_gid n) (rn_mode n) (rn_next n) (rn_prev n) (rn_head n) (rn_symlink n).
Definition n_set_removed x n := RNode (rn_name n) x (rn_ns n) (rn_vnid n) (rn_parent n) (rn_mtime n) (rn_uid n) (rn_gid n) (rn_mode n) (rn_next n) (rn_prev n) (rn_head n) (rn_symlink n).
Definition n_set_parent x n := RNode (rn_name n) (rn_removed n) (rn_ns n) (rn_vnid n) x (rn_mtime n) (rn_uid n) (rn_gid n) (rn_mode n) (rn_next n) (rn_prev n) (rn_head n) (rn_symlink n).
Definition n_set_mtime x n := RNode (rn_name n) (rn_removed n) (rn_ns n) (rn_vnid n) (rn_parent n) x (rn_uid n) (rn_gid n) (rn_mode n) (rn_next n) (rn_prev n) (rn_head n) (rn_symlink n).
Definition n_set_uid x n := RNode (rn_name n) (rn_removed n) (rn_ns n) (rn_vnid n) (rn_parent n) (rn_mtime n) x (rn_gid n) (rn_mode n) (rn_next n) (rn_prev n) (rn_head n) (rn_symlink n).
Definition n_set_gid x n := RNode (rn_name n) (rn_removed n) (rn_ns n) (rn_vnid n) (rn_parent n) (rn_mtime n) (rn_uid n) x (rn_mode n) (rn_next n) (rn_prev n) (rn_head n) (rn_symlink n).
Definition n_set_mode x n := RNode (rn_name n) (rn_removed n) (rn_ns n) (rn_vnid n) (rn_parent n) (rn_mtime n) (rn_uid n) (rn_gid n) x (rn_next n) (rn_prev n) (rn_head n) (rn_symlink n).
Definition n_set_next x n := RNode (rn_name n) (rn_removed n) (rn_ns n) (rn_vnid n) (rn_parent n) (rn_mtime n) (rn_uid n) (rn_gid n) (rn_mode n) x (rn_prev n) (rn_head n) (rn_symlink n).
Definition n_set_prev x n := RNode (rn_name n) (rn_removed n) (rn_ns n) (rn_vnid n) (rn_parent n) (rn_mtime n) (rn_uid n) (rn_gid n) (rn_mode n) (rn_next n) x (rn_head n) (rn_symlink n).
Definition n_set_head x n := RNode (rn_name n) (rn_removed n) (rn_ns n) (rn_vnid n) (rn_parent n) (rn_mtime n) (rn_uid n) (rn_gid n) (rn_mode n) (rn_next n) (rn_prev n) x (rn_symlink n).
Definition n_set_symlink x n := RNode (rn_name n) (rn_removed n) (rn_ns n) (rn_vnid n) (rn_parent n) (rn_mtime n) (rn_uid n) (rn_gid n) (rn_mode n) (rn_next n) (rn_prev n) (rn_head n) x.

Definition s_set_vnnum x s := RSpace (rs_nsid s) x (rs_root s) (rs_nxvnid s) (rs_lock s) (rs_skiplist s).
Definition s_set_nxvnid x s := RSpace (rs_nsid s) (rs_vnnum s) (rs_root s) x (rs_lock s) (rs_skiplist s).
Definition s_set_lock x s := RSpace (rs_nsid s) (rs_vnnum s) (rs_root s) (rs_nxvnid s) x (rs_skiplist s).
Definition s_set_skiplist x s := RSpace (rs_nsid s) (rs_vnnum s) (rs_root s) (rs_nxvnid s) (rs_lock s) x.

Abbreviation RM := (M rstate).

Definition in_host {A} (m : M host A) : RM A := zoom r_host rset_host m.
Definition get_node (p : Z) : RM rnode := s ← get; opt (r_nodes s !! p).
Definition upd_node (p : Z) (f : rnode -> rnode) : RM unit :=
  n ← get_node p; modify (fun s => rset_nodes (<[p := f n]> (r_nodes s)) s).
Definition in_space {A} (p : Z) (m : M rspace A) : RM A := zoom_at r_spaces rset_spaces p m.
Definition the_space (p : Z) : RM rspace := in_space p get.
Definition in_cookie {A} (p : Z) (m : M dirpos A) : RM A := zoom_at r_cookies rset_cookies p m.
Definition LOCK_ns (ns : Z) : RM unit := in_space ns (zoom rs_lock s_set_lock LOCK).
Definition UNLOCK_ns (ns : Z) : RM unit := in_space ns (zoom rs_lock s_set_lock UNLOCK).
Definition dp_set_lock l (d : dirpos) := DirPos l (dp_pos d) (dp_name d).
Definition LOCK_cookie (c : Z) : RM unit := in_cookie c (zoom dp_lock dp_set_lock LOCK).
Definition UNLOCK_cookie (c : Z) : RM unit := in_cookie c (zoom dp_lock dp_set_lock UNLOCK).
Definition free_node (p : Z) : RM unit := modify (fun s => rset_nodes (delete p (r_nodes s)) s).
Definition free_str (c : cstr) : RM unit := match c with Freed => fault | _ => mret tt end.

Definition compare_vnode (vna vnb : rkey) : Z :=
  if rk_vnid vna >? rk_vnid vnb then 1 else if rk_vnid vna <? rk_vnid vnb then -1 else 0.

(** [sizeof] of the structures. *)
Definition sizeof_vnode : Z := 104.
Definition sizeof_nspace : Z := 56.
Definition sizeof_dirpos : Z := 280.
Definition sizeof_my_dirent : Z := 24.

(** A chain of nodes has at most this many. *)
Definition chain_fuel : RM nat := gets (fun s => S (size (r_nodes s))).

(** [while (vn) { if (!strcmp(vn->name, name)) break; vn = vn->next; }] *)
Fixpoint find_name (fuel : nat) (name : list byte) (vn : option Z) : RM (option Z) :=
  match vn, fuel with
  | None, _ => mret None
  | _, O => hang
  | Some p, S fuel =>
      n ← get_node p;
      nm ← opt (str_of (rn_name n));
      if strcmp nm name =? 0 then mret (Some p) else find_name fuel name (rn_next n)
  end.
Definition lookup_name (dir : Z) (name : list byte) : RM (option Z) :=
  d ← get_node dir; fuel ← chain_fuel; find_name fuel name (rn_head d).

(** The loop of [do_create], which also stops where the name would be. *)
Fixpoint find_sorted (fuel : nat) (name : list byte) (vn : option Z) : RM (option Z) :=
  match vn, fuel with
  | None, _ => mret None
  | _, O => hang
  | Some p, S fuel =>
      n ← get_node p;
      nm ← opt (str_of (rn_name n));
      let c := strcmp name nm in
      let vn := if c <? 0 then None else Some p in
      if c <=? 0 then mret vn else find_sorted fuel name (rn_next n)
  end.

(** The final [pvn] and [nvn]. *)
Fixpoint insert_point (fuel : nat) (name : list byte) (pvn nvn : option Z) : RM (option Z * option Z) :=
  match nvn, fuel with
  | None, _ => mret (pvn, None)
  | _, O => hang
  | Some p, S fuel =>
      n ← get_node p;
      nm ← opt (str_of (rn_name n));
      if strcmp name nm >? 0 then insert_point fuel name (Some p) (rn_next n) else mret (pvn, Some p)
  end.

(** From [pvn = NULL] to [dir->head = vn]. *)
Definition link_sorted (dir vn : Z) (name : list byte) : RM unit :=
  d ← get_node dir;
  fuel ← chain_fuel;
  '(pvn, nvn) ← insert_point fuel name None (rn_head d);
  _ ← upd_node vn (n_set_next nvn);
  _ ← (match nvn with Some q => upd_node q (n_set_prev (Some vn)) | None => mret tt end);
  _ ← upd_node vn (n_set_prev pvn);
  match pvn with
  | Some q => upd_node q (n_set_next (Some vn))
  | None => upd_node dir (n_set_head (Some vn))
  end.

(** Out of the list, whose head is the parent's. *)
Definition unlink_node (vn : Z) : RM unit :=
  v ← get_node vn;
  _ ← (match rn_prev v with
       | Some q => upd_node q (n_set_next (rn_next v))
       | None => upd_node (rn_parent v) (n_set_head (rn_next v))
       end);
  v ← get_node vn;
  match rn_next v with
  | Some q => upd_node q (n_set_prev (rn_prev v))
  | None => mret tt
  end.

Definition insert_key (ns : Z) (k : rkey) : RM Z :=
  sp ← the_space ns;
  h ← gets r_host;
  match InsertSL compare_vnode k (rs_skiplist sp, h) with
  | Done (r, (sl, h)) =>
      _ ← in_space ns (modify (s_set_skiplist sl));
      _ ← modify (rset_host h);
      mret r
  | Hang => hang
  | Fault => fault
  end.

(** The result and [*vnp].  The result of [InsertSL] is ignored. *)
Definition do_create (ns dir : Z) (name : list byte) (mode : Z) : RM (Z * option Z) :=
  d ← get_node dir;
  if negb (MY_S_ISDIR (rn_mode d)) then mret (ENOTDIR, None) else
  if rn_removed d then mret (ENOENT, None) else
  if (strcmp name [dot] =? 0) || (strcmp name [dot; dot] =? 0) then mret (EEXIST, None) else
  fuel ← chain_fuel;
  vn ← find_sorted fuel name (rn_head d);
  match vn with
  | Some _ => mret (EEXIST, None)
  | None =>
      vn ← in_host (malloc sizeof_vnode);
      buf ← in_host (malloc (len name + 1));
      match vn, buf with
      | Some vn, Some _ =>
          _ ← in_space ns (modify (fun s => s_set_nxvnid (i64 (rs_nxvnid s + 1)) s));
          sp ← the_space ns;
          now ← in_host time_null;
          _ ← modify (fun s => rset_nodes (<[vn :=
                 RNode (Str name) false ns (rs_nxvnid sp) dir now 0 0 mode None None None Null]> (r_nodes s)) s);
          _ ← upd_node dir (n_set_mtime now);
          _ ← link_sorted dir vn name;
          _ ← in_space ns (zoom rs_vnnum s_set_vnnum (atomic_add 1));
          _ ← insert_key ns (RKey (rs_nxvnid sp) vn);
          mret (0, Some vn)
      | _, _ => mret (ENOMEM, None)
      end
  end.

Definition rootfs_mkdir (ns : Z) (dir : option Z) (name : list byte) (perms : Z) : RM Z :=
  dir ← opt dir;
  _ ← LOCK_ns ns;
  '(err, _) ← do_create ns dir name (u32 (Z.lor (Z.land perms (Z.lnot MY_S_IFMT)) MY_S_IFDIR));
  _ ← UNLOCK_ns ns;
  mret err.

(** On an error the copy of the path is not freed. *)
Definition rootfs_symlink (ns : Z) (dir : option Z) (name : list byte) (path : option (list byte)) : RM Z :=
  dir ← opt dir;
  path ← opt path;
  buf ← in_host (malloc (len path + 1));
  match buf with
  | None => mret ENOMEM
  | Some _ =>
      _ ← LOCK_ns ns;
      '(err, vn) ← do_create ns dir name MY_S_IFLNK;
      if negb (err =? 0) then _ ← UNLOCK_ns ns; mret err else
      vn ← opt vn;
      _ ← upd_node vn (n_set_symlink (Str path));
      _ ← UNLOCK_ns ns;
      mret 0
  end.

(** The result and [*node].  Called by the kernel ([r] false) it takes the
    lock; called on behalf of a file system the lock is held. *)
Definition rootfs_read_vnode (ns vnid : Z) (r : bool) : RM (Z * option Z) :=
  _ ← (if r then mret tt else LOCK_ns ns);
  vn ← in_space ns (zoom rs_skiplist s_set_skiplist (SearchSL compare_vnode (RKey vnid 0)));
  _ ← (if r then mret tt else UNLOCK_ns ns);
  mret (match vn with Some k => (0, Some (rk_vn k)) | None => (ENOENT, None) end).

Definition rootfs_write_vnode (ns : Z) (node : option Z) (r : bool) : RM Z := mret 0.

Definition rootfs_remove_vnode (ns : Z) (node : option Z) (r : bool) : RM Z :=
  node ← opt node;
  _ ← (if r then mret tt else LOCK_ns ns);
  n ← get_node node;
  _ ← in_space ns (zoom rs_skiplist s_set_skiplist (DeleteSL compare_vnode (RKey (rn_vnid n) node)));
  _ ← (if r then mret tt else UNLOCK_ns ns);
  _ ← in_space ns (zoom rs_vnnum s_set_vnnum (atomic_add (-1)));
  n ← get_node node;
  _ ← free_str (rn_symlink n);
  _ ← free_str (rn_name n);
  _ ← free_node node;
  mret 0.

(** The result, [*bufsize] and what is written to [buf]. *)
Definition rootfs_readlink (ns : Z) (node : option Z) (bufsize : Z) : RM (Z * Z * list byte) :=
  node ← opt node;
  n ← get_node node;
  if negb (MY_S_ISLNK (rn_mode n)) then mret (EINVAL, bufsize, []) else
  link ← opt (str_of (rn_symlink n));
  let l := len link in
  mret (0, l, if l >? bufsize then take (Z.to_nat bufsize) link else link).

(** ** Reading directories *)

(** The result and [*cookie]. *)
Definition rootfs_opendir (ns : Z) (node : option Z) : RM (Z * option Z) :=
  node ← opt node;
  n ← get_node node;
  if negb (MY_S_ISDIR (rn_mode n)) then mret (ENOTDIR, None) else
  pos ← in_host (malloc sizeof_dirpos);
  match pos with
  | None => mret (ENOMEM, None)
  | Some pos =>
      '(r, l) ← in_host new_lock;
      if r <? 0 then mret (EINVAL, None) else
      _ ← modify (fun s => rset_cookies (<[pos := DirPos l 0 []]> (r_cookies s)) s);
      mret (0, Some pos)
  end.

Definition rootfs_closedir (ns : Z) (node cookie : option Z) : RM Z := mret 0.

Definition rootfs_free_dircookie (ns : Z) (node cookie : option Z) : RM Z :=
  cookie ← opt cookie;
  c ← in_cookie cookie get;
  _ ← in_host (free_lock (dp_lock c));
  _ ← modify (fun s => rset_cookies (delete cookie (r_cookies s)) s);
  mret 0.

Definition rootfs_rewinddir (ns : Z) (node cookie : option Z) : RM Z :=
  cookie ← opt cookie;
  _ ← LOCK_cookie cookie;
  _ ← in_cookie cookie (modify (fun d => DirPos (dp_lock d) 0 []));
  _ ← UNLOCK_cookie cookie;
  mret 0.

(** [while (vn && (strcmp(cookie->name, vn->name) >= 0)) vn = vn->next;] *)
Fixpoint skip_names (fuel : nat) (name : list byte) (vn : option Z) : RM (option Z) :=
  match vn, fuel with
  | None, _ => mret None
  | _, O => hang
  | Some p, S fuel =>
      n ← get_node p;
      nm ← opt (str_of (rn_name n));
      if strcmp name nm >=? 0 then skip_names fuel name (rn_next n) else mret (Some p)
  end.

(** The name and number of the entry at the position, and the node after it. *)
Definition entry_at (node : Z) (pos : Z) (vn : option Z) : RM (list byte * Z * option Z) :=
  if pos =? 0 then n ← get_node node; mret ([dot], rn_vnid n, vn)
  else if pos =? 1 then
    n ← get_node node;
    p ← get_node (rn_parent n);
    mret ([dot; dot], rn_vnid p, vn)
  else
    vn ← opt vn;
    v ← get_node vn;
    nm ← opt (str_of (rn_name v));
    mret (nm, rn_vnid v, rn_next v).

(** [d_dev] is not assigned: it is what the buffer held there. *)
Definition dirent_at (buf : list byte) (off vnid : Z) (name : list byte) : my_dirent :=
  Dirent (sle (slice off 4 buf)) vnid (Z.land (sizeof_my_dirent + len name + 7) (Z.lnot 7)) name.

(** The [for] loop, with [i] entries written up to [off]: the final position,
    [last] and the entries from here on.  [left] is [*num - i]. *)
Fixpoint readdir_loop (fuel : nat) (node : Z) (buf : list byte) (bufsize left off : Z) (vn : option Z) (pos : Z)
    (last : list byte) : RM (Z * list byte * list my_dirent) :=
  if negb ((0 <? left) && ((pos <? 2) || bool_decide (is_Some vn))) then mret (pos, last, []) else
  match fuel with
  | O => hang
  | S fuel =>
      '(name, vnid, vn) ← entry_at node pos vn;
      let rl := sizeof_my_dirent + len name in
      if off + rl >? bufsize then mret (pos, last, []) else
      let e := dirent_at buf off vnid name in
      '(pos, last, es) ← readdir_loop fuel node buf bufsize (left - 1) (off + d_reclen e) vn (pos + 1) name;
      mret (pos, last, e :: es)
  end.

(** [strcpy] to the name of a cookie. *)
Definition set_cookie_name (c : Z) (name : list byte) : RM unit :=
  if len name <? FILE_NAME_LENGTH then in_cookie c (modify (fun d => DirPos (dp_lock d) (dp_pos d) name)) else fault.

(** The result and the entries, whose number is the final [*num]. *)
Definition rootfs_readdir (ns : Z) (node cookie : option Z) (num bufsize : Z) : RM (Z * list my_dirent) :=
  node ← opt node;
  cookie ← opt cookie;
  _ ← LOCK_ns ns;
  _ ← LOCK_cookie cookie;
  n ← get_node node;
  c ← in_cookie cookie get;
  fuel ← chain_fuel;
  vn ← (if dp_pos c >? 2 then skip_names fuel (dp_name c) (rn_head n) else mret (rn_head n));
  buf ← in_host (junk bufsize);
  '(pos, last, es) ← readdir_loop (S (S fuel)) node buf bufsize num 0 vn (dp_pos c) [];
  _ ← in_cookie cookie (modify (fun d => DirPos (dp_lock d) pos (dp_name d)));
  _ ← (if (pos >? 2) && (len es >? 0) then set_cookie_name cookie last else mret tt);
  _ ← UNLOCK_cookie cookie;
  _ ← UNLOCK_ns ns;
  mret (0, es).

(** ** Attributes *)

(** [crtime] is not assigned. *)
Definition rootfs_rstat (ns : Z) (node : option Z) : RM (Z * my_stat) :=
  node ← opt node;
  _ ← LOCK_ns ns;
  sp ← the_space ns;
  n ← get_node node;
  crtime ← in_host (junk 8);
  _ ← UNLOCK_ns ns;
  mret (0, Stat (i32 (rs_nsid sp)) (rn_vnid n) (i32 (rn_mode n)) 1 (i32 (rn_uid n)) (i32 (rn_gid n)) 0 0
             (rn_mtime n) (rn_mtime n) (rn_mtime n) (sle crtime)).

Definition has (mask bit : Z) : bool := negb (Z.land mask bit =? 0).

Definition rootfs_wstat (ns : Z) (node : option Z) (st : my_stat) (mask : Z) : RM Z :=
  node ← opt node;
  if has mask WSTAT_SIZE then mret EINVAL else
  _ ← LOCK_ns ns;
  let set (bit : Z) (f : rnode -> rnode) := if has mask bit then upd_node node f else mret tt in
  _ ← set WSTAT_MODE (fun n => n_set_mode (u32 (Z.lor (Z.land (rn_mode n) MY_S_IFMT) (Z.land (st_mode st) (Z.lnot MY_S_IFMT)))) n);
  _ ← set WSTAT_UID (n_set_uid (u32 (st_uid st)));
  _ ← set WSTAT_GID (n_set_gid (u32 (st_gid st)));
  _ ← set WSTAT_MTIME (n_set_mtime (st_mtime st));
  _ ← set WSTAT_ATIME (n_set_mtime (st_atime st));
  _ ← UNLOCK_ns ns;
  mret 0.

Definition rootfs_access (ns : Z) (node : option Z) (mode : Z) : RM Z := mret 0.

(** ** Unmounting *)

(** [while (vn->head) vn = vn->head;] *)
Fixpoint deepest (fuel : nat) (vn : Z) : RM Z :=
  n ← get_node vn;
  match rn_head n, fuel with
  | None, _ => mret vn
  | _, O => hang
  | Some h, S fuel => deepest fuel h
  end.

(** The loop of [rootfs_unmount].  It ends at the first leaf whose parent is
    the root; nodes left then are leaked. *)
Fixpoint remove_leaves (fuel : nat) (ns root vn : Z) : RM unit :=
  match fuel with
  | O => hang
  | S fuel =>
      depth ← chain_fuel;
      vn ← deepest depth vn;
      v ← get_node vn;
      let vn := rn_parent v in
      if vn =? root then mret tt else
      v ← get_node vn;
      avn ← opt (rn_head v);
      a ← get_node avn;
      _ ← (match rn_prev a with
           | Some q => upd_node q (n_set_next (rn_next a))
           | None => upd_node vn (n_set_head (rn_next a))
           end);
      a ← get_node avn;
      _ ← (match rn_next a with
           | Some q => upd_node q (n_set_prev (rn_prev a))
           | None => mret tt
           end);
      _ ← rootfs_remove_vnode ns (Some avn) true;
      remove_leaves fuel ns root vn
  end.

(** [FreeSL] and [free] of a name space. *)
Definition free_space (ns : Z) : RM unit :=
  sp ← the_space ns;
  _ ← in_host (free_lock (rs_lock sp));
  _ ← (match FreeSL (rs_skiplist sp) with Done _ => mret tt | Hang => hang | Fault => fault end);
  modify (fun s => rset_spaces (delete ns (r_spaces s)) s).

Definition rootfs_unmount (ns : Z) : RM Z :=
  sp ← the_space ns;
  fuel ← chain_fuel;
  _ ← remove_leaves fuel ns (rs_root sp) (rs_root sp);
  _ ← free_node (rs_root sp);
  _ ← free_space ns;
  mret 0.

(** ** Operations that call the vnode layer

    [X] is the state of all file systems, this one's among it; [fs_table] has
    the operations the vnode layer itself calls back. *)

Section vnode_layer.
Context {X : Type} (x_host : X -> host) (x_set_host : host -> X -> X).
Context (x_rootfs : X -> rstate) (x_set_rootfs : rstate -> X -> X).
Context (fs_table : Z -> fs_ops X).
Abbreviation KS := (M (kstate (X := X))).
Abbreviation get_vnode := (Vnode.get_vnode x_host x_set_host fs_table).
Abbreviation put_vnode := (Vnode.put_vnode fs_table).
Abbreviation new_vnode := (Vnode.new_vnode x_host x_set_host fs_table).
Abbreviation new_path := (Paths.new_path x_host x_set_host).

(** The host is shared with the rest of the program. *)
Definition in_rootfs {A} (m : RM A) : M X A :=
  zoom (fun x => rset_host (x_host x) (x_rootfs x)) (fun s x => x_set_host (r_host s) (x_set_rootfs s x)) m.
Definition in_fs {A} (m : RM A) : KS A := in_ext (in_rootfs m).

(** [get_vnode] of a node's number; the number it gives back. *)
Definition walk_get (nsid num : Z) : KS (Z * option (list byte) * Z) :=
  '(err, vn) ← get_vnode nsid num;
  if negb (err =? 0) then mret (err, None, 0) else
  vn ← opt vn;
  v ← in_fs (get_node vn);
  mret (0, None, rn_vnid v).

(** From the checks of [base] to [exit]. *)
Definition walk_locked (nsid base : Z) (b : rnode) (file : list byte) (fred : bool) : KS (Z * option (list byte) * Z) :=
  if negb (MY_S_ISDIR (rn_mode b)) then mret (ENOTDIR, None, 0) else
  if rn_removed b then mret (ENOENT, None, 0) else
  if strcmp file [dot] =? 0 then
    '(err, _) ← get_vnode nsid (rn_vnid b);
    b ← in_fs (get_node base);
    mret (err, None, if err =? 0 then rn_vnid b else 0)
  else if strcmp file [dot; dot] =? 0 then
    p ← in_fs (get_node (rn_parent b));
    walk_get nsid (rn_vnid p)
  else
    vn ← in_fs (lookup_name base file);
    match vn with
    | None => mret (ENOENT, None, 0)
    | Some vn =>
        v ← in_fs (get_node vn);
        if MY_S_ISLNK (rn_mode v) && fred then
          '(err, np) ← new_path (str_of (rn_symlink v));
          mret (err, if err =? 0 then np else None, 0)
        else walk_get nsid (rn_vnid v)
    end.

(** The result, [*newpath] and [*vnid]; [fred] says whether [newpath] is given. *)
Definition rootfs_walk (ns : Z) (base : option Z) (file : list byte) (fred : bool) : KS (Z * option (list byte) * Z) :=
  base ← opt base;
  _ ← in_fs (LOCK_ns ns);
  sp ← in_fs (the_space ns);
  b ← in_fs (get_node base);
  r ← walk_locked (rs_nsid sp) base b file fred;
  _ ← in_fs (UNLOCK_ns ns);
  mret r.

(** Makes sure the node may go, and marks it: the node as [get_vnode] gives it
    back, or an error. *)
Definition take_for_removal (nsid vn : Z) : KS (Z * Z) :=
  v ← in_fs (get_node vn);
  '(err, d) ← get_vnode nsid (rn_vnid v);
  if negb (err =? 0) then mret (err, vn) else
  d ← opt d;
  v ← in_fs (get_node d);
  err ← remove_vnode nsid (rn_vnid v);
  mret (err, d).

Definition do_unlink (ns : Z) (dir : option Z) (name : list byte) (isdir : bool) : KS Z :=
  dir ← opt dir;
  _ ← in_fs (LOCK_ns ns);
  sp ← in_fs (the_space ns);
  let error1 err := _ ← in_fs (UNLOCK_ns ns); mret err in
  d ← in_fs (get_node dir);
  if negb (MY_S_ISDIR (rn_mode d)) then error1 ENOTDIR else
  if (strcmp name [dot; dot] =? 0) || (strcmp name [dot] =? 0) then error1 EINVAL else
  vn ← in_fs (lookup_name dir name);
  match vn with
  | None => error1 ENOENT
  | Some vn =>
      v ← in_fs (get_node vn);
      if isdir && (Z.land (rn_mode v) MY_S_IFDIR =? 0) then error1 ENOTDIR else
      if negb isdir && negb (Z.land (rn_mode v) MY_S_IFDIR =? 0) then error1 EISDIR else
      vsp ← in_fs (the_space (rn_ns v));
      if vn =? rs_root vsp then error1 EBUSY else
      if MY_S_ISDIR (rn_mode v) && bool_decide (is_Some (rn_head v)) then error1 ENOTEMPTY else
      '(err, vn) ← take_for_removal (rs_nsid sp) vn;
      if negb (err =? 0) then error1 err else
      _ ← in_fs (
        _ ← unlink_node vn;
        _ ← upd_node vn (n_set_next None);
        _ ← upd_node vn (n_set_prev None);
        _ ← upd_node vn (n_set_removed true);
        now ← in_host time_null;
        upd_node dir (n_set_mtime now));
      v ← in_fs (get_node vn);
      _ ← put_vnode (rs_nsid sp) (rn_vnid v);
      _ ← in_fs (UNLOCK_ns ns);
      mret 0
  end.

Definition rootfs_unlink (ns : Z) (dir : option Z) (name : list byte) : KS Z := do_unlink ns dir name false.
Definition rootfs_rmdir (ns : Z) (dir : option Z) (name : list byte) : KS Z := do_unlink ns dir name true.

(** Whether the way from [avn] to the root meets [olddir] above [avn]. *)
Fixpoint below_olddir (fuel : nat) (root olddir avn : Z) : RM bool :=
  if avn =? root then mret false else
  match fuel with
  | O => hang
  | S fuel =>
      a ← get_node avn;
      if rn_parent a =? olddir then mret true else below_olddir fuel root olddir (rn_parent a)
  end.

(** Room for the new name; [None] when there is no memory.  A larger block
    leaves [vn->name] dangling until it is assigned. *)
Definition grow_name (vn : Z) (newname : list byte) : RM bool :=
  v ← get_node vn;
  nm ← opt (str_of (rn_name v));
  if len newname >? len nm then
    p ← in_host (malloc (len newname + 1));
    match p with
    | None => mret false
    | Some _ => _ ← upd_node vn (n_set_name Freed); mret true
    end
  else mret true.

(** The end of [rootfs_rename], from taking the node out of its directory. *)
Definition move_node (vn olddir newdir : Z) (newname : list byte) : RM unit :=
  _ ← unlink_node vn;
  _ ← link_sorted newdir vn newname;
  _ ← upd_node vn (n_set_parent newdir);
  now ← in_host time_null;
  _ ← upd_node olddir (n_set_mtime now);
  _ ← upd_node newdir (n_set_mtime now);
  upd_node vn (n_set_name (Str newname)).

Definition rootfs_rename (ns : Z) (olddir : option Z) (oldname : list byte) (newdir : option Z) (newname : list byte) : KS Z :=
  olddir ← opt olddir;
  newdir ← opt newdir;
  _ ← in_fs (LOCK_ns ns);
  sp ← in_fs (the_space ns);
  let error1 err := _ ← in_fs (UNLOCK_ns ns); mret err in
  od ← in_fs (get_node olddir);
  nd ← in_fs (get_node newdir);
  if negb (MY_S_ISDIR (rn_mode od)) || negb (MY_S_ISDIR (rn_mode nd)) then error1 ENOTDIR else
  if (strcmp oldname [dot] =? 0) || (strcmp oldname [dot; dot] =? 0) then error1 EPERM else
  vn ← in_fs (lookup_name olddir oldname);
  match vn with
  | None => error1 ENOENT
  | Some vn =>
      if (strcmp newname [dot] =? 0) || (strcmp newname [dot; dot] =? 0) then error1 EPERM else
      nvn ← in_fs (lookup_name newdir newname);
      if bool_decide (nvn = Some vn) then error1 0 else
      sub ← in_fs (fuel ← chain_fuel; below_olddir fuel (rs_root sp) olddir newdir);
      if sub : bool then error1 EINVAL else
      ok ← in_fs (grow_name vn newname);
      if negb ok then error1 ENOMEM else
      err ← (match nvn with
             | None => mret 0
             | Some nvn =>
                 v ← in_fs (get_node nvn);
                 vsp ← in_fs (the_space (rn_ns v));
                 if nvn =? rs_root vsp then mret EBUSY else
                 if MY_S_ISDIR (rn_mode v) && bool_decide (is_Some (rn_head v)) then mret ENOTEMPTY else
                 '(err, nvn) ← take_for_removal (rs_nsid sp) nvn;
                 if negb (err =? 0) then mret err else
                 _ ← in_fs (
                   _ ← unlink_node nvn;
                   _ ← upd_node nvn (n_set_next None);
                   upd_node nvn (n_set_prev None));
                 v ← in_fs (get_node nvn);
                 _ ← put_vnode (rs_nsid sp) (rn_vnid v);
                 mret 0
             end);
      if negb (err =? 0) then error1 err else
      _ ← in_fs (move_node vn olddir newdir newname);
      error1 0
  end.

(** The result, [*data] and [*vnid].  The root is not in the skip list. *)
Definition rootfs_mount (nsid : Z) (device : option (list byte)) (flags : Z) (parms : option Z) (len : Z) : KS (Z * Z * Z) :=
  if bool_decide (is_Some device) || bool_decide (is_Some parms) || negb (len =? 0) then mret (EINVAL, 0, 0) else
  ns ← in_fs (in_host (malloc sizeof_nspace));
  match ns with
  | None => mret (ENOMEM, 0, 0)
  | Some ns =>
      root ← in_fs (in_host (malloc sizeof_vnode));
      match root with
      | None => mret (ENOMEM, 0, 0)
      | Some root =>
          let rvnid := 1 in
          '(r, l) ← in_fs (in_host new_lock);
          if r <? 0 then mret (-1, 0, 0) else
          rand ← in_fs (gets r_rand);
          sl ← in_fs (in_host (NewSL rand NO_DUPLICATES));
          match sl with
          | None => _ ← in_fs (in_host (free_lock l)); mret (-1, 0, 0)
          | Some sl =>
              _ ← in_fs (
                now ← in_host time_null;
                _ ← modify (fun s => rset_nodes (<[root :=
                       RNode Null false ns rvnid root now 0 0 (Z.lor MY_S_IFDIR 0x1FF) None None None Null]> (r_nodes s)) s);
                modify (fun s => rset_spaces (<[ns := RSpace nsid 0 root rvnid l sl]> (r_spaces s)) s));
              err ← new_vnode nsid rvnid (Some root);
              if negb (err =? 0) then
                _ ← in_fs (free_space ns);
                _ ← in_fs (free_node root);
                mret (err, 0, 0)
              else mret (0, ns, rvnid)
          end
      end
  end.

(** ** The table of operations *)

Definition rootfs_core : fs_ops X :=
  FsOps X (fun ns vnid r => in_rootfs (rootfs_read_vnode ns vnid r))
    (fun ns node r => in_rootfs (rootfs_write_vnode ns node r))
    (fun ns node r => in_rootfs (rootfs_remove_vnode ns node r)).

Definition rootfs : vnode_ops X := {|
  vo_core := rootfs_core;
  vo_walk := Some rootfs_walk;
  vo_access := Some (fun ns node mode => in_fs (rootfs_access ns node mode));
  vo_create := None;
  vo_mkdir := Some (fun ns dir name perms => in_fs (rootfs_mkdir ns dir name perms));
  vo_symlink := Some (fun ns dir name path => in_fs (rootfs_symlink ns dir name path));
  vo_link := None;
  vo_rename := Some rootfs_rename;
  vo_unlink := Some rootfs_unlink;
  vo_rmdir := Some rootfs_rmdir;
  vo_readlink := Some (fun ns node bufsize => in_fs (rootfs_readlink ns node bufsize));
  vo_opendir := Some (fun ns node => in_fs (rootfs_opendir ns node));
  vo_closedir := Some (fun ns node cookie => in_fs (rootfs_closedir ns node cookie));
  vo_free_dircookie := Some (fun ns node cookie => in_fs (rootfs_free_dircookie ns node cookie));
  vo_rewinddir := Some (fun ns node cookie => in_fs (rootfs_rewinddir ns node cookie));
  vo_readdir := Some (fun ns node cookie num bufsize => in_fs (rootfs_readdir ns node cookie num bufsize));
  vo_open := None;
  vo_close := None;
  vo_free_cookie := None;
  vo_read := None;
  vo_write := None;
  vo_ioctl := None;
  vo_rstat := Some (fun ns node => in_fs (rootfs_rstat ns node));
  vo_wstat := Some (fun ns node st mask => in_fs (rootfs_wstat ns node st mask));
  vo_fsync := None;
  vo_mount := Some rootfs_mount;
  vo_unmount := Some (fun ns => in_fs (rootfs_unmount ns));
  vo_sync := None;
|}.
End vnode_layer.
