(* ===== verification/RootfsTree.v ===== *)
(** * RootfsTree: the tree of the root file system (rootfs.c)

    A directory's list is doubly linked, sorted by name, and its nodes know
    their parent; the skip list has the numbers of all nodes but the root.
    Creating, finding, reading directories and links are proved against this. *)

From stdpp Require Import sorting.
From S2P Require Import Prelude Bytes Compat Host SkipList Kernel Links Vnode VnodeOps Descriptors Paths Rootfs.
From S2P Require VnodeInv.
Local Open Scope Z_scope.

(** ** The order of names *)

Lemma strcmp_refl a : strcmp a a = 0.
Proof. induction a as [|x a IH]; [done|]. cbn. by rewrite Z.eqb_refl. Qed.
Lemma strcmp_eq a b : strcmp a b = 0 -> a = b.
Proof.
  revert b. induction a as [|x a IH]; intros [|y b]; cbn; try done. destruct (Z.eqb_spec (bZ x) (bZ y)) as [E|].
  - intros ->%IH. apply bZ_inj in E as ->. done.
  - by destruct (bZ x <? bZ y).
Qed.
Lemma strcmp_opp a b : strcmp b a = - strcmp a b.
Proof.
  revert b. induction a as [|x a IH]; intros [|y b]; cbn; try done.
  destruct (Z.eqb_spec (bZ x) (bZ y)) as [E|E]; [rewrite E, Z.eqb_refl; apply IH|].
  rewrite (proj2 (Z.eqb_neq _ _)) by congruence.
  destruct (Z.ltb_spec (bZ x) (bZ y)), (Z.ltb_spec (bZ y) (bZ x)); lia.
Qed.
Lemma strcmp_trans a b c : strcmp a b < 0 -> strcmp b c < 0 -> strcmp a c < 0.
Proof.
  revert b c. induction a as [|x a IH]; intros [|y b] [|z c]; cbn; try done.
  destruct (Z.eqb_spec (bZ x) (bZ y)) as [->|E1]; destruct (Z.eqb_spec (bZ y) (bZ z)) as [E2|E2]; [eauto| | |].
  - done.
  - rewrite <- E2. rewrite (proj2 (Z.eqb_neq _ _)) by done. done.
  - intros H1 H2. destruct (Z.ltb_spec (bZ x) (bZ y)); [|done]. destruct (Z.ltb_spec (bZ y) (bZ z)); [|done].
    rewrite (proj2 (Z.eqb_neq _ _)), (proj2 (Z.ltb_lt _ _)) by lia. done.
Qed.
#[export] Instance strcmp_order : Comparison strcmp.
Proof.
  split.
  - intros x y. rewrite (strcmp_opp x y). lia.
  - apply strcmp_trans.
  - by intros x y z ->%strcmp_eq.
Qed.
#[export] Instance rkey_order : Comparison Rootfs.compare_vnode.
Proof.
  assert (forall x y, Rootfs.compare_vnode x y = Z.sgn (rk_vnid x - rk_vnid y)) as E.
  { intros x y. unfold Rootfs.compare_vnode. rewrite Z.gtb_ltb. destruct (Z.ltb_spec (rk_vnid y) (rk_vnid x)), (Z.ltb_spec (rk_vnid x) (rk_vnid y)); lia. }
  split; intros *; rewrite !E; lia.
Qed.

Definition before (a b : list byte) : Prop := strcmp a b < 0.

(** ** Trees

    The nodes without their place in the lists, the links, and the heads. *)
Definition strip (n : rnode) : rnode := n_set_next None (n_set_prev None (n_set_head None n)).
Definition lnk (n : rnode) : vnlink := VnLink (rn_prev n) (rn_next n).

Definition name_of (n : rnode) : list byte := default [] (str_of (rn_name n)).
Definition name_at (K : gmap Z rnode) (p : Z) : list byte := match K !! p with Some n => name_of n | None => [] end.
Definition names (K : gmap Z rnode) (ps : list Z) : list (list byte) := name_at K <$> ps.

(** [C d]: the nodes of directory [d], in order. *)
Record tree (K : gmap Z rnode) (L : links) (H : gmap Z (option Z)) (C : Z -> list Z) : Prop := {
  tr_linked d : linked L (C d);
  tr_head d h : H !! d = Some h -> h = head (C d);
  tr_child d c : c ∈ C d -> exists n nm, K !! c = Some n /\ rn_name n = Str nm /\ len nm < FILE_NAME_LENGTH /\ rn_parent n = d;
  tr_dir d : C d <> [] -> exists n, K !! d = Some n /\ MY_S_ISDIR (rn_mode n) = true;
  tr_sorted d : StronglySorted before (names K (C d));
}.
Definition tree_of (N : gmap Z rnode) : (Z -> list Z) -> Prop := tree (strip <$> N) (lnk <$> N) (rn_head <$> N).

Definition upd_dir (d : Z) (ps : list Z) (C : Z -> list Z) : Z -> list Z := fun e => if decide (e = d) then ps else C e.
Lemma upd_dir_eq d ps C : upd_dir d ps C d = ps.
Proof. unfold upd_dir. by rewrite decide_True. Qed.
Lemma upd_dir_ne d e ps C : e <> d -> upd_dir d ps C e = C e.
Proof. intros. unfold upd_dir. by rewrite decide_False. Qed.

Lemma name_at_strip N p : name_at (strip <$> N) p = name_at N p.
Proof. unfold name_at. rewrite lookup_fmap. by destruct (N !! p). Qed.
Lemma names_strip N ps : names (strip <$> N) ps = names N ps.
Proof. apply list_fmap_ext. intros ? p _. apply name_at_strip. Qed.

(** What the tree needs of a node. *)
Definition like (n n' : rnode) : Prop := rn_name n' = rn_name n /\ rn_parent n' = rn_parent n /\ rn_mode n' = rn_mode n.

Lemma name_at_like K K' p n n' : K !! p = Some n -> K' !! p = Some n' -> like n n' -> name_at K' p = name_at K p.
Proof. unfold name_at, name_of. intros -> -> (-> & _). done. Qed.

Lemma tree_like K K' L H C :
  (forall p n, K !! p = Some n -> exists n', K' !! p = Some n' /\ like n n') -> tree K L H C -> tree K' L H C.
Proof.
  intros HK [T1 T2 T3 T4 T5]. split; try done.
  - intros d c Hc. destruct (T3 d c Hc) as (n & nm & Hn & E1 & E2 & E3). destruct (HK c n Hn) as (n' & Hn' & F1 & F2 & F3).
    exists n', nm. split_and!; congruence.
  - intros d Hd. destruct (T4 d Hd) as (n & Hn & E). destruct (HK d n Hn) as (n' & Hn' & F1 & F2 & F3). exists n'. by rewrite F3.
  - intros d. assert (names K' (C d) = names K (C d)) as ->; [|apply T5].
    apply list_fmap_ext. intros i c Hc%list_elem_of_lookup_2.
    destruct (T3 d c Hc) as (n & nm & Hn & _). destruct (HK c n Hn) as (n' & Hn' & HL). by eapply name_at_like.
Qed.

(** A child is on one list only, and is not on its own. *)
Lemma child_dir K L H C d e c : tree K L H C -> c ∈ C d -> c ∈ C e -> d = e.
Proof.
  intros HT H1 H2. destruct (tr_child _ _ _ _ HT d c H1) as (n & nm & Hn & _ & _ & <-).
  destruct (tr_child _ _ _ _ HT e c H2) as (n' & nm' & Hn' & _ & _ & <-). congruence.
Qed.

Lemma tree_fresh K L H C p n k :
  K !! p = None -> tree K L H C -> tree (<[p := n]> K) (<[p := k]> L) (<[p := None]> H) C.
Proof.
  intros Hp HT. assert (C p = []) as Hd.
  { destruct (decide (C p = [])) as [|Hne]; [done|]. destruct (tr_dir _ _ _ _ HT p Hne) as (n0 & Hn0 & _). congruence. }
  assert (forall d, p ∉ C d) as Hc.
  { intros d Hin. destruct (tr_child _ _ _ _ HT d p Hin) as (n0 & nm & Hn0 & _). congruence. }
  apply (tree_like K).
  { intros q m Hm. exists m. rewrite lookup_insert_ne by congruence. done. }
  destruct HT as [T1 T2 T3 T4 T5]. split; try done.
  - intros d. eapply linked_frame; [apply T1|]. intros q Hq. apply lookup_insert_ne. intros ->. by apply (Hc d).
  - intros d h. rewrite lookup_insert_Some. intros [[<- <-]|[_ Hh]]; [by rewrite Hd|by apply T2].
Qed.

Lemma tree_insert K L H C dir dn l1 l2 p n nm :
  tree K L H C -> K !! p = Some n -> rn_name n = Str nm -> len nm < FILE_NAME_LENGTH -> rn_parent n = dir -> (forall d, p ∉ C d) ->
  K !! dir = Some dn -> MY_S_ISDIR (rn_mode dn) = true -> C dir = l1 ++ l2 ->
  (forall q, q ∈ l1 -> before (name_at K q) nm) -> (forall q, q ∈ l2 -> before nm (name_at K q)) ->
  tree K (<[p := VnLink (last l1) (head l2)]> (at_prev (set_prev (Some p)) (head l2) (at_prev (set_next (Some p)) (last l1) L)))
    (match l1 with [] => <[dir := Some p]> H | _ => H end) (upd_dir dir (l1 ++ p :: l2) C).
Proof.
  intros HT Hp Enm Hlen Epar Hfree Hdir Hmode EC H1 H2. pose proof HT as [T1 T2 T3 T4 T5]. split.
  - intros d. destruct (decide (d = dir)) as [->|Hne].
    + rewrite upd_dir_eq. apply link_middle; [rewrite <- EC; apply T1|rewrite <- EC; apply Hfree].
    + rewrite upd_dir_ne by done. eapply linked_frame; [apply T1|]. intros q Hq.
      assert (q ∉ l1 ++ l2) as Hn. { rewrite <- EC. intros Hq'. apply Hne. by apply (child_dir K L H C d dir q). }
      rewrite elem_of_app in Hn. rewrite lookup_insert_ne by (intros ->; by apply (Hfree d)). rewrite !at_prev_ne; [done| |].
      * intros (l & ->)%last_elem. apply Hn. left. rewrite elem_of_app, elem_of_cons. auto.
      * intros (l & ->)%head_elem. apply Hn. right. by left.
  - intros d h Hd. destruct (decide (d = dir)) as [->|Hne].
    + rewrite upd_dir_eq. destruct l1 as [|x l1]; [rewrite lookup_insert_eq in Hd; by injection Hd as <-|].
      apply T2 in Hd as ->. by rewrite EC.
    + rewrite upd_dir_ne by done. apply T2. destruct l1; [by rewrite lookup_insert_ne in Hd|done].
  - intros d c Hc. destruct (decide (d = dir)) as [->|Hne]; [|rewrite upd_dir_ne in Hc by done; by apply T3].
    rewrite upd_dir_eq, elem_of_app, elem_of_cons in Hc. destruct (decide (c = p)) as [->|]; [eauto 8|].
    apply T3. rewrite EC, elem_of_app. naive_solver.
  - intros d Hd. destruct (decide (d = dir)) as [->|Hne]; [by exists dn|]. rewrite upd_dir_ne in Hd by done. by apply T4.
  - intros d. destruct (decide (d = dir)) as [->|Hne]; [|rewrite upd_dir_ne by done; apply T5].
    rewrite upd_dir_eq. specialize (T5 dir). rewrite EC in T5. unfold names in *. rewrite fmap_app in *. cbn [fmap list_fmap].
    apply StronglySorted_app in T5 as (Hab & Ha & Hb).
    assert (name_at K p = nm) as -> by (unfold name_at, name_of; by rewrite Hp, Enm).
    apply StronglySorted_app_2; [|done|].
    + intros x y Hx [->|Hy]%elem_of_cons; [|by apply Hab]. apply list_elem_of_fmap in Hx as (q & -> & Hq). by apply H1.
    + constructor; [done|]. apply Forall_forall. intros y (q & -> & Hq)%list_elem_of_fmap. by apply H2.
Qed.

(** ** Searching a directory *)

Section nodes.
Implicit Types s : rstate.

Lemma get_node_wp p n s (Q : rnode -> rstate -> Prop) : r_nodes s !! p = Some n -> Q n s -> wp (get_node p) Q s.
Proof. intros Hp HQ. unfold get_node. wp_step. wp_step. rewrite Hp. by wp_step. Qed.
Lemma upd_node_wp p f n s (Q : unit -> rstate -> Prop) :
  r_nodes s !! p = Some n -> Q tt (rset_nodes (<[p := f n]> (r_nodes s)) s) -> wp (upd_node p f) Q s.
Proof. intros Hp HQ. unfold upd_node. wp_step. eapply get_node_wp; [done|]. by wp_step. Qed.

Context (N : gmap Z rnode) (C : Z -> list Z) (HT : tree_of N C).

Lemma node_of_child d l1 c l2 : C d = l1 ++ c :: l2 -> exists n nm,
  N !! c = Some n /\ rn_name n = Str nm /\ name_at N c = nm /\ len nm < FILE_NAME_LENGTH /\ rn_next n = head l2 /\ rn_parent n = d.
Proof.
  intros EC. destruct (tr_child _ _ _ _ HT d c) as (n & nm & Hn & E1 & E2 & E3); [rewrite EC, elem_of_app, elem_of_cons; auto|].
  rewrite lookup_fmap in Hn. destruct (N !! c) as [n0|] eqn:Hc; [|done]. injection Hn as <-. exists n0, nm.
  split; [done|]. split; [done|]. split; [unfold name_at, name_of; cbn in E1; by rewrite Hc, E1|]. split; [done|]. split; [|done].
  pose proof (ln_at _ _ (tr_linked _ _ _ _ HT d) l1 c l2 EC) as Hl. rewrite lookup_fmap, Hc in Hl. by injection Hl as _ <-.
Qed.

Lemma head_of_dir d n : N !! d = Some n -> rn_head n = head (C d).
Proof. intros Hd. apply (tr_head _ _ _ _ HT d). by rewrite lookup_fmap, Hd. Qed.

(** The names of a directory are sorted; a later one is larger. *)
Lemma sorted_after d l1 c l2 q : C d = l1 ++ c :: l2 -> q ∈ l2 -> before (name_at N c) (name_at N q).
Proof.
  intros EC Hq. pose proof (tr_sorted _ _ _ _ HT d) as Hs. rewrite names_strip, EC in Hs. unfold names in Hs. rewrite fmap_app in Hs.
  apply StronglySorted_app in Hs as (_ & _ & Hs). apply StronglySorted_inv in Hs as [_ Hall].
  rewrite Forall_forall in Hall. apply Hall. by apply list_elem_of_fmap_2.
Qed.

Lemma names_NoDup d : NoDup (names N (C d)).
Proof.
  pose proof (tr_sorted _ _ _ _ HT d) as Hs. rewrite names_strip in Hs. induction Hs as [|x l Hs IH Hall]; [constructor|].
  constructor; [|done]. intros Hin. rewrite Forall_forall in Hall. specialize (Hall x Hin). unfold before in Hall. rewrite strcmp_refl in Hall. done.
Qed.

Lemma size_fuel d : (length (C d) <= size N)%nat.
Proof.
  pose proof (ln_nodup _ _ (tr_linked _ _ _ _ HT d)) as Hnd.
  change (size N) with (base.size N). rewrite <- size_dom, <- (size_list_to_set (C := gset Z)) by done. apply subseteq_size.
  intros c Hc%elem_of_list_to_set. destruct (list_elem_of_split _ _ Hc) as (l1 & l2 & EC).
  destruct (node_of_child d l1 c l2 EC) as (n & nm & Hn & _). by apply elem_of_dom_2 in Hn.
Qed.

Definition is_name (name : list byte) (p : Z) : bool := strcmp (name_at N p) name =? 0.

Lemma is_name_true name p : is_name name p = true <-> name_at N p = name.
Proof. unfold is_name. rewrite Z.eqb_eq. split; [apply strcmp_eq|intros ->; apply strcmp_refl]. Qed.

Lemma find_name_wp d name fuel l1 l2 s (Q : option Z -> rstate -> Prop) :
  r_nodes s = N -> C d = l1 ++ l2 -> (length l2 <= fuel)%nat -> Q (List.find (is_name name) l2) s -> wp (find_name fuel name (head l2)) Q s.
Proof.
  intros EN. revert fuel l1. induction l2 as [|c l2 IH]; intros fuel l1 EC Hf HQ; [destruct fuel; by apply wp_ret|].
  destruct fuel as [|fuel]; [cbn in Hf; lia|]. destruct (node_of_child d l1 c l2 EC) as (n & nm & Hn & E1 & E2 & _ & E4 & _).
  cbn [find_name head]. wp_step. eapply get_node_wp; [by rewrite EN|]. rewrite E1. cbn [str_of]. wp_step. wp_step.
  cbn [List.find] in HQ. unfold is_name at 1 in HQ. rewrite E2 in HQ. destruct (strcmp nm name =? 0); [by apply wp_ret|].
  rewrite E4. apply (IH fuel (l1 ++ [c])); [by rewrite <- app_assoc|cbn in Hf; lia|done].
Qed.

Lemma lookup_name_wp d dn name s (Q : option Z -> rstate -> Prop) :
  r_nodes s = N -> N !! d = Some dn -> Q (List.find (is_name name) (C d)) s -> wp (lookup_name d name) Q s.
Proof.
  intros EN Hd HQ. unfold lookup_name. wp_step. eapply get_node_wp; [by rewrite EN|]. wp_step. unfold chain_fuel. wp_step.
  rewrite (head_of_dir d dn Hd). eapply (find_name_wp d _ _ []); [done|done|rewrite EN; pose proof (size_fuel d); lia|done].
Qed.

Lemma find_sorted_wp d name fuel l1 l2 s (Q : option Z -> rstate -> Prop) :
  r_nodes s = N -> C d = l1 ++ l2 -> (length l2 <= fuel)%nat ->
  (forall r, (is_Some r <-> name ∈ names N l2) -> Q r s) -> wp (find_sorted fuel name (head l2)) Q s.
Proof.
  intros EN. revert fuel l1. induction l2 as [|c l2 IH]; intros fuel l1 EC Hf HQ.
  { assert (Q None s) by (apply HQ; rewrite elem_of_nil; split; [by intros [? ?]|done]). destruct fuel; by apply wp_ret. }
  destruct fuel as [|fuel]; [cbn in Hf; lia|]. destruct (node_of_child d l1 c l2 EC) as (n & nm & Hn & E1 & E2 & _ & E4 & _).
  cbn [find_sorted head]. wp_step. eapply get_node_wp; [by rewrite EN|]. rewrite E1. cbn [str_of]. wp_step. wp_step.
  assert (name ∈ names N (c :: l2) <-> name = nm \/ name ∈ names N l2) as Hin by (cbn; rewrite elem_of_cons, E2; done).
  destruct (Z.leb_spec (strcmp name nm) 0) as [Hle|Hgt].
  - wp_step. apply HQ. rewrite Hin. destruct (Z.ltb_spec (strcmp name nm) 0) as [Hlt|Hge].
    + split; [by intros [? ?]|]. intros [->|Hq]; [rewrite strcmp_refl in Hlt; lia|]. exfalso.
      apply list_elem_of_fmap in Hq as (q & -> & Hq). pose proof (sorted_after d l1 c l2 q EC Hq) as Hs. rewrite E2 in Hs.
      unfold before in Hs. rewrite strcmp_opp in Hs. lia.
    + split; [intros _; left; apply strcmp_eq; lia|by eauto].
  - rewrite E4. apply (IH fuel (l1 ++ [c])); [by rewrite <- app_assoc|cbn in Hf; lia|]. intros r Hr. apply HQ. rewrite Hr, Hin.
    split; [by right|intros [->|]; [rewrite strcmp_refl in Hgt; lia|done]].
Qed.

Lemma insert_point_wp d name fuel l1 l2 s (Q : option Z * option Z -> rstate -> Prop) :
  r_nodes s = N -> C d = l1 ++ l2 -> (length l2 <= fuel)%nat -> (forall q, q ∈ l1 -> before (name_at N q) name) ->
  (name ∉ names N l2) ->
  (forall a b, C d = a ++ b -> (forall q, q ∈ a -> before (name_at N q) name) -> (forall q, q ∈ b -> before name (name_at N q)) -> Q (last a, head b) s) ->
  wp (insert_point fuel name (last l1) (head l2)) Q s.
Proof.
  intros EN. revert fuel l1. induction l2 as [|c l2 IH]; intros fuel l1 EC Hf H1 Hn HQ.
  { assert (Q (last l1, None) s) by (apply (HQ l1 []); try done; intros q; by rewrite elem_of_nil). destruct fuel; by apply wp_ret. }
  destruct fuel as [|fuel]; [cbn in Hf; lia|]. destruct (node_of_child d l1 c l2 EC) as (n & nm & Hnn & E1 & E2 & _ & E4 & _).
  cbn [insert_point head]. wp_step. eapply get_node_wp; [by rewrite EN|]. rewrite E1. cbn [str_of]. wp_step. wp_step.
  cbn in Hn. rewrite elem_of_cons, E2 in Hn. rewrite Z.gtb_ltb. destruct (Z.ltb_spec 0 (strcmp name nm)) as [Hgt|Hle].
  - rewrite E4. replace (Some c) with (last (l1 ++ [c])) by (by rewrite last_snoc).
    apply (IH fuel (l1 ++ [c])); [by rewrite <- app_assoc|cbn in Hf; lia| |tauto|done].
    intros q [Hq| ->%list_elem_of_singleton]%elem_of_app; [by apply H1|]. rewrite E2. unfold before. rewrite strcmp_opp. lia.
  - wp_step. assert (before name nm) as Hb.
    { unfold before. destruct (decide (strcmp name nm = 0)) as [->%strcmp_eq|]; [tauto|lia]. }
    apply (HQ l1 (c :: l2)); try done. intros q [->|Hq]%elem_of_cons; [by rewrite E2|].
    eapply strcmp_trans; [exact Hb|]. rewrite <- E2. by apply (sorted_after d l1 c l2).
Qed.
End nodes.

(** ** Linking a node in *)

Lemma links_dom (N : gmap Z rnode) (f : rnode -> rnode) p n : N !! p = Some n -> strip (f n) = strip n -> strip <$> <[p := f n]> N = strip <$> N.
Proof. intros Hp E. rewrite fmap_insert, E. apply insert_id. by rewrite lookup_fmap, Hp. Qed.

Lemma upd_link_wp p f g n s (Q : unit -> rstate -> Prop) :
  (strip <$> r_nodes s) !! p = Some n -> (forall n, strip (f n) = strip n /\ lnk (f n) = g (lnk n) /\ rn_head (f n) = rn_head n) ->
  (forall N', strip <$> N' = strip <$> r_nodes s -> lnk <$> N' = alter g p (lnk <$> r_nodes s) -> rn_head <$> N' = rn_head <$> r_nodes s ->
     Q tt (rset_nodes N' s)) -> wp (upd_node p f) Q s.
Proof.
  intros Hp Hf HQ. rewrite lookup_fmap in Hp. destruct (r_nodes s !! p) as [n0|] eqn:E; [|done].
  destruct (Hf n0) as (F1 & F2 & F3). eapply upd_node_wp; [done|]. apply HQ.
  - by apply links_dom.
  - rewrite fmap_insert, F2. apply map_eq. intros q. destruct (decide (q = p)) as [->|Hne].
    + by rewrite lookup_insert_eq, lookup_alter_eq, lookup_fmap, E.
    + by rewrite lookup_insert_ne, lookup_alter_ne.
  - rewrite fmap_insert, F3. apply insert_id. by rewrite lookup_fmap, E.
Qed.

Lemma upd_head_wp p x n s (Q : unit -> rstate -> Prop) :
  (strip <$> r_nodes s) !! p = Some n ->
  (forall N', strip <$> N' = strip <$> r_nodes s -> lnk <$> N' = lnk <$> r_nodes s -> rn_head <$> N' = <[p := x]> (rn_head <$> r_nodes s) ->
     Q tt (rset_nodes N' s)) -> wp (upd_node p (n_set_head x)) Q s.
Proof.
  intros Hp HQ. rewrite lookup_fmap in Hp. destruct (r_nodes s !! p) as [n0|] eqn:E; [|done].
  eapply upd_node_wp; [done|]. apply HQ; [by apply links_dom| |by rewrite fmap_insert].
  rewrite fmap_insert. apply insert_id. by rewrite lookup_fmap, E.
Qed.

(** The four assignments, in the order of the code. *)
Lemma link_order (m : links) (l1 l2 : list Z) p :
  is_Some (m !! p) -> NoDup (l1 ++ l2) -> (p ∉ l1 ++ l2) ->
  at_prev (set_next (Some p)) (last l1) (alter (set_prev (last l1)) p (at_prev (set_prev (Some p)) (head l2) (alter (set_next (head l2)) p m))) =
  <[p := VnLink (last l1) (head l2)]> (at_prev (set_prev (Some p)) (head l2) (at_prev (set_next (Some p)) (last l1) m)).
Proof.
  intros [[a b] Hp] Hnd Hn. rewrite elem_of_app in Hn. apply NoDup_app in Hnd as (_ & Hd & _).
  assert (last l1 <> Some p) as N1 by (intros (l & ->)%last_elem; apply Hn; left; rewrite elem_of_app, elem_of_cons; auto).
  assert (head l2 <> Some p) as N2 by (intros (l & ->)%head_elem; apply Hn; right; by left).
  apply map_eq. intros q. destruct (decide (q = p)) as [->|Hne].
  - by rewrite lookup_insert_eq, at_prev_ne, lookup_alter_eq, at_prev_ne, lookup_alter_eq, Hp by done.
  - rewrite lookup_insert_ne by done. destruct (decide (last l1 = Some q)) as [E1|E1].
    + assert (head l2 <> Some q) as E2.
      { intros (l' & ->)%head_elem. apply last_elem in E1 as (l & ->). apply (Hd q); [rewrite elem_of_app, elem_of_cons; auto|by left]. }
      rewrite E1, at_prev_eq, lookup_alter_ne, at_prev_ne, lookup_alter_ne, at_prev_ne, at_prev_eq by done. done.
    + rewrite at_prev_ne, lookup_alter_ne by done. destruct (decide (head l2 = Some q)) as [E2|E2].
      * by rewrite E2, !at_prev_eq, lookup_alter_ne, at_prev_ne by done.
      * by rewrite !at_prev_ne, lookup_alter_ne by done.
Qed.

Lemma link_sorted_wp N C dir dn vn v nm s (Q : unit -> rstate -> Prop) :
  tree_of N C -> r_nodes s = N -> N !! dir = Some dn -> N !! vn = Some v -> (forall d, vn ∉ C d) -> (nm ∉ names N (C dir)) ->
  (forall l1 l2 N', C dir = l1 ++ l2 -> (forall q, q ∈ l1 -> before (name_at N q) nm) -> (forall q, q ∈ l2 -> before nm (name_at N q)) ->
     strip <$> N' = strip <$> N ->
     lnk <$> N' = <[vn := VnLink (last l1) (head l2)]> (at_prev (set_prev (Some vn)) (head l2) (at_prev (set_next (Some vn)) (last l1) (lnk <$> N))) ->
     rn_head <$> N' = match l1 with [] => <[dir := Some vn]> (rn_head <$> N) | _ => rn_head <$> N end ->
     Q tt (rset_nodes N' s)) ->
  wp (link_sorted dir vn nm) Q s.
Proof.
  intros HT EN Hd Hv Hfree Hnm HQ. unfold link_sorted. wp_step. eapply get_node_wp; [by rewrite EN|]. wp_step. unfold chain_fuel. wp_step.
  rewrite (head_of_dir N C HT dir dn Hd). wp_step. change (@None Z) with (last (@nil Z)) at 1.
  eapply (insert_point_wp N C HT dir nm _ [] (C dir)); [done|done|rewrite EN; pose proof (size_fuel N C HT dir); lia| |done|].
  { intros q. by rewrite elem_of_nil. }
  intros l1 l2 EC H1 H2. cbn beta iota.
  assert (forall q, q ∈ C dir -> is_Some ((strip <$> N) !! q)) as Hin.
  { intros q Hq. destruct (tr_child _ _ _ _ HT dir q Hq) as (n & nm' & Hn & _). by exists n. }
  assert ((strip <$> N) !! vn = Some (strip v)) as Hv' by (by rewrite lookup_fmap, Hv).
  assert ((strip <$> N) !! dir = Some (strip dn)) as Hd' by (by rewrite lookup_fmap, Hd).
  wp_step. eapply (upd_link_wp vn _ (set_next (head l2))); [by rewrite EN|done|]. rewrite EN. intros N1 A1 B1 D1. cbn beta. wp_step.
  assert (forall N2, strip <$> N2 = strip <$> N -> lnk <$> N2 = at_prev (set_prev (Some vn)) (head l2) (lnk <$> N1) ->
    rn_head <$> N2 = rn_head <$> N ->
    wp (_ ← upd_node vn (n_set_prev (last l1));
        match last l1 with Some q => upd_node q (n_set_next (Some vn)) | None => upd_node dir (n_set_head (Some vn)) end) Q (rset_nodes N2 s)) as Hrest.
  { intros N2 A2 B2 D2. wp_step. eapply (upd_link_wp vn _ (set_prev (last l1))); [cbn [r_nodes rset_nodes]; by rewrite A2|done|].
    intros N3 A3 B3 D3. cbn beta. change (r_nodes (rset_nodes N2 s)) with N2 in *.
    assert (forall N4, strip <$> N4 = strip <$> N -> lnk <$> N4 = at_prev (set_next (Some vn)) (last l1) (lnk <$> N3) ->
      rn_head <$> N4 = match l1 with [] => <[dir := Some vn]> (rn_head <$> N) | _ => rn_head <$> N end -> Q tt (rset_nodes N4 s)) as Hend.
    { intros N4 A4 B4 D4. apply (HQ l1 l2); try done. rewrite B4, B3, B2, B1. apply link_order.
      - rewrite lookup_fmap, Hv. by eexists.
      - rewrite <- EC. apply (tr_linked _ _ _ _ HT).
      - rewrite <- EC. apply Hfree. }
    destruct (last l1) as [q|] eqn:El.
    - destruct (Hin q) as [n Hn]. { apply last_elem in El as (l & ->). rewrite EC, !elem_of_app, elem_of_cons. auto. }
      eapply (upd_link_wp q _ (set_next (Some vn))); [cbn [r_nodes rset_nodes] in *; by rewrite A3, A2|done|]. intros N4 A4 B4 D4.
      change (r_nodes (rset_nodes N3 (rset_nodes N2 s))) with N3 in *. apply (Hend N4); [congruence|done|]. destruct l1; [done|congruence].
    - apply last_None in El as ->. eapply upd_head_wp; [cbn [r_nodes rset_nodes] in *; by rewrite A3, A2|]. intros N4 A4 B4 D4.
      change (r_nodes (rset_nodes N3 (rset_nodes N2 s))) with N3 in *. apply (Hend N4); [congruence|done|congruence]. }
  destruct (head l2) as [q|] eqn:El; [|wp_step; by apply (Hrest N1)].
  destruct (Hin q) as [n Hn]. { apply head_elem in El as (l & ->). rewrite EC, elem_of_app, elem_of_cons. auto. }
  eapply (upd_link_wp q _ (set_prev (Some vn))); [cbn [r_nodes rset_nodes] in *; by rewrite A1|done|]. intros N2 A2 B2 D2.
  change (r_nodes (rset_nodes N1 s)) with N1 in *. apply (Hrest N2); [congruence|exact B2|congruence].
Qed.

(** ** The whole file system *)

(** The keys of a space are the numbers of its nodes, the root's aside. *)
Definition keyed (ns : Z) (N : gmap Z rnode) (root : Z) (ks : list rkey) : Prop :=
  forall k, k ∈ ks <-> exists n, N !! rk_vn k = Some n /\ rn_ns n = ns /\ rn_vnid n = rk_vnid k /\ rk_vn k <> root.

Record filesys (ns : Z) (s : rstate) (C : Z -> list Z) (sp : rspace) : Prop := {
  fy_tree : tree_of (r_nodes s) C;
  fy_space : r_spaces s !! ns = Some sp;
  fy_keys : exists ks, holds Rootfs.compare_vnode (rs_skiplist sp) ks /\ keyed ns (r_nodes s) (rs_root sp) ks;
  fy_unique : allows_dup (rs_skiplist sp) = false;
  fy_alloc : allocated (rs_skiplist sp) (r_host s);
  fy_numbers p n : r_nodes s !! p = Some n -> rn_ns n = ns -> rn_vnid n <= rs_nxvnid sp;
  fy_fresh p : p ∈ dom (r_nodes s) -> p < h_brk (r_host s);
  fy_root : rs_root sp ∈ dom (r_nodes s);
  fy_memory : no_oom (r_host s);
}.

Lemma in_space_wp {A} ns sp (m : M rspace A) s (Q : A -> rstate -> Prop) :
  r_spaces s !! ns = Some sp -> wp m (fun a sp' => Q a (rset_spaces (<[ns := sp']> (r_spaces s)) s)) sp -> wp (in_space ns m) Q s.
Proof. apply zoom_at_wp. Qed.

Lemma the_space_wp ns sp s (Q : rspace -> rstate -> Prop) : r_spaces s !! ns = Some sp -> Q sp s -> wp (the_space ns) Q s.
Proof.
  intros Hsp HQ. unfold the_space. eapply in_space_wp; [done|]. wp_step. rewrite insert_id by done. by destruct s.
Qed.

(** The whole keys of a space determine a node. *)
Lemma keyed_find ns N root ks vnid r :
  keyed ns N root ks -> List.find (fun k => Rootfs.compare_vnode k (RKey vnid 0) =? 0) ks = r ->
  match r with
  | Some k => rk_vnid k = vnid /\ exists n, N !! rk_vn k = Some n /\ rn_ns n = ns /\ rn_vnid n = vnid /\ rk_vn k <> root
  | None => forall p n, N !! p = Some n -> rn_ns n = ns -> rn_vnid n = vnid -> p = root
  end.
Proof.
  intros Hks Hr. assert (forall k, Rootfs.compare_vnode k (RKey vnid 0) = 0 <-> rk_vnid k = vnid) as Hc.
  { intros k. unfold Rootfs.compare_vnode. cbn. rewrite Z.gtb_ltb. destruct (Z.ltb_spec vnid (rk_vnid k)), (Z.ltb_spec (rk_vnid k) vnid); lia. }
  destruct r as [k|].
  - apply List.find_some in Hr as [Hin Hk]. apply list_elem_of_In, Hks in Hin as (n & Hn & E1 & E2 & E3).
    apply Z.eqb_eq, Hc in Hk. split; [done|]. exists n. split_and!; congruence.
  - intros p n Hn E1 E2. apply dec_stable. intros Hne. pose proof (List.find_none _ _ Hr (RKey vnid p)) as Hno. cbn beta in Hno.
    rewrite Z.eqb_neq, Hc in Hno. apply Hno; [|done]. apply list_elem_of_In, Hks. exists n. done.
Qed.

(** [InsertSL] of a number that is not there yet. *)
Lemma insert_key_wp ns k sp ks s (Q : Z -> rstate -> Prop) :
  r_spaces s !! ns = Some sp -> holds Rootfs.compare_vnode (rs_skiplist sp) ks -> allocated (rs_skiplist sp) (r_host s) -> no_oom (r_host s) ->
  (forall k', k' ∈ ks -> rk_vnid k' <> rk_vnid k) ->
  (forall sl h ks', holds Rootfs.compare_vnode sl ks' -> (forall k', k' ∈ ks' <-> k' = k \/ k' ∈ ks) -> allocated sl h ->
     allows_dup sl = allows_dup (rs_skiplist sp) -> h_brk (r_host s) <= h_brk h -> no_oom h ->
     Q 1 (rset_host h (rset_spaces (<[ns := s_set_skiplist sl sp]> (r_spaces s)) s))) ->
  wp (insert_key ns k) Q s.
Proof.
  intros Hsp Hh Hal Hmem Hnew HQ. unfold insert_key. wp_step. eapply the_space_wp; [done|]. wp_step. wp_step.
  pose proof (insert_spec Rootfs.compare_vnode _ ks (r_host s) k Hh Hal) as (r & [sl h] & E & Ha & Hf & Hb & Hm & Hr)%wp_done.
  rewrite E. cbn [fst snd] in *. wp_step. eapply in_space_wp; [done|]. wp_step. wp_step. wp_step. wp_step.
  destruct Hr as [(_ & _ & (k' & Hin & Ek) & _)|[(_ & _ & Ho)|(-> & Hh' & _)]].
  - exfalso. apply (Hnew k' Hin). unfold Rootfs.compare_vnode in Ek. rewrite Z.gtb_ltb in Ek.
    destruct (Z.ltb_spec (rk_vnid k) (rk_vnid k')), (Z.ltb_spec (rk_vnid k') (rk_vnid k)); lia.
  - exfalso. unfold no_oom in Hmem. by rewrite Hmem in Ho.
  - eapply HQ; [done| |done|unfold allows_dup; by rewrite Hf|done|by apply Hm].
    intros k'. rewrite elem_of_app, elem_of_cons. unfold below, above. rewrite !list_elem_of_filter.
    destruct (decide (Rootfs.compare_vnode k' k < 0)); tauto.
Qed.

Lemma in_host_malloc_wp n s (Q : option Z -> rstate -> Prop) :
  no_oom (r_host s) ->
  (forall h, no_oom h -> h_time h = h_time (r_host s) -> h_brk (r_host s) < h_brk h -> Q (Some (h_brk (r_host s))) (rset_host h s)) ->
  wp (in_host (malloc n)) Q s.
Proof.
  intros Hm HQ. unfold in_host. wp_step. unfold wp, malloc. unfold no_oom in Hm. rewrite Hm. apply HQ; [done|done|cbn; lia].
Qed.

(** ** Creating *)

Definition made (ns dir : Z) (name : list byte) (mode : Z) (s : rstate) (sp : rspace) : rnode :=
  RNode (Str name) false ns (rs_nxvnid sp + 1) dir (h_time (r_host s)) 0 0 mode None None None Null.

(** [s'] is [s] with a new node [p] of that name in its place in [dir]; the
    other nodes are as they were, the time of [dir] aside. *)
Definition created (ns dir : Z) (name : list byte) (mode : Z) (s : rstate) (C : Z -> list Z) (sp : rspace) (p : Z) (s' : rstate) : Prop :=
  exists l1 l2 sp', C dir = l1 ++ l2 /\ r_nodes s !! p = None /\ filesys ns s' (upd_dir dir (l1 ++ p :: l2) C) sp' /\
    rs_nxvnid sp' = rs_nxvnid sp + 1 /\ rs_lock sp' = rs_lock sp /\ rs_nsid sp' = rs_nsid sp /\ rs_root sp' = rs_root sp /\
    strip <$> r_nodes s' = <[p := made ns dir name mode s sp]> (alter (n_set_mtime (h_time (r_host s))) dir (strip <$> r_nodes s)) /\
    h_brk (r_host s) <= h_brk (r_host s').

Definition create_post (ns dir : Z) (name : list byte) (mode : Z) (s : rstate) (C : Z -> list Z) (sp : rspace)
    (r : Z * option Z) (s' : rstate) : Prop :=
  exists d, r_nodes s !! dir = Some d /\
    if negb (MY_S_ISDIR (rn_mode d)) then r = (ENOTDIR, None) /\ s' = s
    else if rn_removed d then r = (ENOENT, None) /\ s' = s
    else if decide (name ∈ [dot] :: [dot; dot] :: names (r_nodes s) (C dir)) then r = (EEXIST, None) /\ s' = s
    else exists p, r = (0, Some p) /\ created ns dir name mode s C sp p s'.

Lemma strcmp_is a b : (strcmp a b =? 0) = bool_decide (a = b).
Proof.
  apply eq_bool_prop_intro. rewrite bool_decide_spec, Is_true_true, Z.eqb_eq. split; [apply strcmp_eq|intros ->; apply strcmp_refl].
Qed.

(** The nodes after the new one is filled and the time of its directory set. *)
Lemma filled_tree N C dir d p v now :
  tree_of N C -> N !! dir = Some d -> N !! p = None -> rn_prev v = None -> rn_next v = None -> rn_head v = None ->
  let N2 := <[dir := n_set_mtime now d]> (<[p := v]> N) in
  tree_of N2 C /\ strip <$> N2 = <[p := strip v]> (alter (n_set_mtime now) dir (strip <$> N)) /\ (forall e, p ∉ C e) /\
  (forall q, q <> p -> name_at N2 q = name_at N q).
Proof.
  intros HT Hd Hp E1 E2 E3 N2. assert (dir <> p) as Hne by congruence.
  assert (strip <$> N2 = <[p := strip v]> (alter (n_set_mtime now) dir (strip <$> N))) as EK.
  { unfold N2. rewrite !fmap_insert. apply map_eq. intros q. destruct (decide (q = p)) as [->|Hqp].
    - by rewrite lookup_insert_eq, lookup_insert_ne, lookup_insert_eq.
    - rewrite (lookup_insert_ne _ p q) by done. destruct (decide (q = dir)) as [->|Hqd].
      + by rewrite lookup_insert_eq, lookup_alter_eq, lookup_fmap, Hd.
      + by rewrite lookup_alter_ne, !lookup_insert_ne by done. }
  split; [|split; [done|split]].
  - unfold tree_of. rewrite EK. unfold N2. rewrite !fmap_insert.
    replace (lnk (n_set_mtime now d)) with (lnk d) by done. replace (rn_head (n_set_mtime now d)) with (rn_head d) by done.
    rewrite !(insert_id _ dir) by (by rewrite lookup_insert_ne, lookup_fmap, Hd).
    replace (lnk v) with (VnLink None None) by (unfold lnk; by rewrite E1, E2). rewrite E3.
    apply (tree_like (<[p := strip v]> (strip <$> N))).
    + intros q n. rewrite !lookup_insert_Some. intros [[-> ->]|[Hqp Hn]]; [exists n; rewrite lookup_insert_eq; done|].
      destruct (decide (q = dir)) as [->|Hqd]; rewrite lookup_insert_ne by done; [|exists n; by rewrite lookup_alter_ne].
      rewrite lookup_alter_eq, Hn. by eexists.
    + apply tree_fresh; [by rewrite lookup_fmap, Hp|done].
  - intros e Hin. destruct (tr_child _ _ _ _ HT e p Hin) as (n & nm & Hn & _). by rewrite lookup_fmap, Hp in Hn.
  - intros q Hq. rewrite <- name_at_strip, EK, <- (name_at_strip N). unfold name_at. rewrite lookup_insert_ne by done.
    destruct (decide (q = dir)) as [->|Hqd]; [rewrite lookup_alter_eq; by destruct ((strip <$> N) !! dir)|by rewrite lookup_alter_ne].
Qed.

Definition ids (N : gmap Z rnode) (q : Z) : option (Z * Z) := (fun n => (rn_ns n, rn_vnid n)) <$> N !! q.
Lemma ids_spec N q i v : (exists n, N !! q = Some n /\ rn_ns n = i /\ rn_vnid n = v) <-> ids N q = Some (i, v).
Proof.
  unfold ids. split; [intros (n & -> & <- & <-); done|]. destruct (N !! q) as [n|]; [|done]. intros [= <- <-]. by exists n.
Qed.
Lemma ids_strip N q : ids (strip <$> N) q = ids N q.
Proof. unfold ids. rewrite lookup_fmap. by destruct (N !! q). Qed.

Lemma ids_created N N' dir p v now q :
  strip <$> N' = <[p := v]> (alter (n_set_mtime now) dir (strip <$> N)) -> ids N' q = if decide (q = p) then Some (rn_ns v, rn_vnid v) else ids N q.
Proof.
  intros E. rewrite <- ids_strip, E, <- (ids_strip N). unfold ids. destruct (decide (q = p)) as [->|Hne]; [by rewrite lookup_insert_eq|].
  rewrite lookup_insert_ne by done. destruct (decide (q = dir)) as [->|Hd]; [|by rewrite lookup_alter_ne].
  rewrite lookup_alter_eq. by destruct ((strip <$> N) !! dir).
Qed.
Lemma dom_created (N N' : gmap Z rnode) dir p v now q :
  strip <$> N' = <[p := v]> (alter (n_set_mtime now) dir (strip <$> N)) -> q ∈ dom N' <-> q = p \/ q ∈ dom N.
Proof.
  intros E. assert (dom N' = {[p]} ∪ dom N) as ->; [|set_solver].
  rewrite <- (dom_fmap_L strip), E, dom_insert_L, dom_alter_L, dom_fmap_L. done.
Qed.

(** The space and the host that go with a new node. *)
Lemma created_filesys ns s C sp dir name mode p l1 l2 s' sl h ks ks' N' :
  filesys ns s C sp -> p = h_brk (r_host s) -> h_brk (r_host s) < h_brk h -> no_oom h -> rs_root sp <> p ->
  holds Rootfs.compare_vnode (rs_skiplist sp) ks ->
  keyed ns (r_nodes s) (rs_root sp) ks ->
  holds Rootfs.compare_vnode sl ks' -> (forall k, k ∈ ks' <-> k = RKey (rs_nxvnid sp + 1) p \/ k ∈ ks) -> allocated sl h -> allows_dup sl = false ->
  tree_of N' (upd_dir dir (l1 ++ p :: l2) C) ->
  strip <$> N' = <[p := made ns dir name mode s sp]> (alter (n_set_mtime (h_time (r_host s))) dir (strip <$> r_nodes s)) ->
  let sp' := RSpace (rs_nsid sp) (rs_vnnum sp + 1) (rs_root sp) (rs_nxvnid sp + 1) (rs_lock sp) sl in
  r_nodes s' = N' -> r_spaces s' !! ns = Some sp' -> r_host s' = h -> filesys ns s' (upd_dir dir (l1 ++ p :: l2) C) sp'.
Proof.
  intros Hfy -> Hb Hm Hroot Hh Hks Hh' Hks' Ha Hd HT EK sp' EN Esp Eh.
  assert (forall q, ids N' q = if decide (q = h_brk (r_host s)) then Some (ns, rs_nxvnid sp + 1) else ids (r_nodes s) q) as Hids.
  { intros q. rewrite (ids_created _ _ _ _ _ _ q EK). done. }
  assert (r_nodes s !! h_brk (r_host s) = None) as Hp.
  { apply not_elem_of_dom. intros Hin. pose proof (fy_fresh _ _ _ _ Hfy _ Hin). lia. }
  split; rewrite ?EN, ?Eh; try done.
  - exists ks'. split; [done|]. intros k. rewrite Hks', (Hks k). cbn [rs_root sp']. split.
    + intros [->|(n & H1 & H2 & H3 & H4)].
      * destruct (proj2 (ids_spec N' (h_brk (r_host s)) ns (rs_nxvnid sp + 1))) as (n & F1 & F2 & F3); [by rewrite Hids, decide_True|].
        exists n. split_and!; try done.
      * destruct (proj2 (ids_spec N' (rk_vn k) ns (rk_vnid k))) as (n' & F1 & F2 & F3).
        { rewrite Hids, decide_False by congruence. apply ids_spec. by exists n. }
        exists n'. done.
    + intros (n & H1 & H2 & H3 & H4). assert (ids N' (rk_vn k) = Some (ns, rk_vnid k)) as Hi by (apply ids_spec; by exists n).
      rewrite Hids in Hi. destruct (decide (rk_vn k = h_brk (r_host s))) as [E|Hne].
      * left. injection Hi as Hi. destruct k as [kv kn]; cbn in *. congruence.
      * right. apply ids_spec in Hi as (n' & F1 & F2 & F3). by exists n'.
  - intros q n Hn Hns. assert (ids N' q = Some (ns, rn_vnid n)) as Hi by (apply ids_spec; by exists n).
    rewrite Hids in Hi. cbn [rs_nxvnid sp']. destruct (decide (q = h_brk (r_host s))) as [E|Hne]; [injection Hi as <-; lia|].
    apply ids_spec in Hi as (n' & F1 & F2 & F3). pose proof (fy_numbers _ _ _ _ Hfy q n' F1 F2). lia.
  - intros q [->|Hq]%(dom_created _ _ _ _ _ _ q EK); [done|]. pose proof (fy_fresh _ _ _ _ Hfy q Hq). lia.
  - apply (dom_created _ _ _ _ _ _ _ EK). right. apply (fy_root _ _ _ _ Hfy).
Qed.

Lemma do_create_wp ns dir d name mode s C sp :
  filesys ns s C sp -> r_nodes s !! dir = Some d -> in_i64 (rs_nxvnid sp) -> in_i64 (rs_nxvnid sp + 1) -> len name < FILE_NAME_LENGTH ->
  wp (do_create ns dir name mode) (create_post ns dir name mode s C sp) s.
Proof.
  intros Hfy Hd Hi0 Hi Hlen. pose proof (fy_tree _ _ _ _ Hfy) as HT. pose proof (fy_space _ _ _ _ Hfy) as Hsp.
  unfold do_create, create_post. wp_step. eapply get_node_wp; [done|].
  destruct (MY_S_ISDIR (rn_mode d)) eqn:Em; cbn [negb]; [|wp_step; exists d; by rewrite Em].
  destruct (rn_removed d) eqn:Er; [wp_step; exists d; rewrite Em, Er; done|].
  rewrite !strcmp_is. destruct (decide (name ∈ [[dot]; [dot; dot]])) as [Hdot|Hdot].
  { assert (bool_decide (name = [dot]) || bool_decide (name = [dot; dot]) = true) as ->.
    { rewrite orb_true_iff, !bool_decide_eq_true. rewrite !elem_of_cons, elem_of_nil in Hdot. tauto. }
    wp_step. exists d. split; [done|]. rewrite Em, Er. cbn [negb]. rewrite decide_True; [done|].
    rewrite !elem_of_cons, elem_of_nil in *. tauto. }
  assert (bool_decide (name = [dot]) || bool_decide (name = [dot; dot]) = false) as ->.
  { rewrite !elem_of_cons, elem_of_nil in Hdot. rewrite orb_false_iff, !bool_decide_eq_false. tauto. }
  wp_step. unfold chain_fuel. wp_step. wp_step. rewrite (head_of_dir _ C HT dir d Hd).
  eapply (find_sorted_wp _ C HT dir name _ [] (C dir)); [done|done|pose proof (size_fuel _ C HT dir); lia|].
  intros r Hr. destruct (decide (name ∈ names (r_nodes s) (C dir))) as [Hin|Hnin].
  { destruct r as [r|]; [|by apply Hr in Hin as []]. wp_step. exists d. split; [done|]. rewrite Em, Er. cbn [negb].
    rewrite decide_True; [done|]. rewrite !elem_of_cons. tauto. }
  destruct r as [r|]; [exfalso; apply Hnin, Hr; by eexists|].
  wp_step. apply in_host_malloc_wp; [apply Hfy|]. intros h1 Hm1 Ht1 Hb1. cbn beta.
  wp_step. apply in_host_malloc_wp; [done|]. cbn [r_host rset_host]. intros h2 Hm2 Ht2 Hb2. cbn beta iota.
  wp_step. eapply in_space_wp; [exact Hsp|]. wp_step. rewrite i64_id by done.
  set (p := h_brk (r_host s)). set (s2 := rset_host h2 (rset_host h1 s)). set (sp1 := s_set_nxvnid (rs_nxvnid sp + 1) sp).
  wp_step. eapply the_space_wp; [cbn [r_spaces rset_spaces]; by rewrite lookup_insert_eq|]. cbn beta.
  wp_step. unfold in_host. wp_step. unfold time_null. wp_step. cbn [r_host rset_host rset_spaces s2].
  assert (r_nodes s !! p = None) as Hp.
  { apply not_elem_of_dom. intros Hin. pose proof (fy_fresh _ _ _ _ Hfy p Hin). unfold p in *. lia. }
  assert (p <> dir) as Hpd by congruence.
  wp_step. wp_step. set (v := RNode (Str name) false ns (rs_nxvnid sp1) dir (h_time h2) 0 0 mode None None None Null).
  wp_step. eapply (upd_node_wp dir _ d); [cbn; by rewrite lookup_insert_ne|].
  destruct (filled_tree (r_nodes s) C dir d p v (h_time h2) HT Hd Hp eq_refl eq_refl eq_refl) as (HT2 & EK2 & Hfree & Hnm).
  wp_step. cbn [r_nodes rset_nodes rset_host rset_spaces]. fold (s2).
  eapply (link_sorted_wp _ C dir (n_set_mtime (h_time h2) d) p v name); [exact HT2|done|by rewrite lookup_insert_eq|
    by rewrite lookup_insert_ne, lookup_insert_eq|done| |].
  { assert (names (<[dir:=n_set_mtime (h_time h2) d]> (<[p:=v]> (r_nodes s))) (C dir) = names (r_nodes s) (C dir)) as ->; [|done].
    apply list_fmap_ext. intros i q Hq%list_elem_of_lookup_2. apply Hnm. intros ->. by apply (Hfree dir). }
  intros l1 l2 N' EC H1 H2 A1 B1 D1. cbn beta.
  assert (tree_of N' (upd_dir dir (l1 ++ p :: l2) C)) as HT'.
  { unfold tree_of. rewrite A1, B1, D1. eapply (tree_insert _ _ _ _ _ (strip (n_set_mtime (h_time h2) d)) _ _ _ (strip v)); try done.
    - by rewrite lookup_fmap, lookup_insert_ne, lookup_insert_eq.
    - by rewrite lookup_fmap, lookup_insert_eq.
    - intros q Hq. rewrite name_at_strip. by apply H1.
    - intros q Hq. rewrite name_at_strip. by apply H2. }
  rewrite EK2 in A1. assert (h_time h2 = h_time (r_host s)) as Et by (rewrite Ht2; exact Ht1). rewrite Et in A1.
  assert (strip v = made ns dir name mode s sp) as Ev by (unfold v, made, strip; cbn; by rewrite Et). rewrite Ev in A1.
  wp_step. eapply in_space_wp; [cbn; by rewrite lookup_insert_eq|]. wp_step. unfold atomic_add. wp_step. wp_step. wp_step. wp_step. wp_step.
  destruct (fy_keys _ _ _ _ Hfy) as (ks & Hh & Hks).
  wp_step. eapply (insert_key_wp ns _ (s_set_vnnum (rs_vnnum sp1 + 1) sp1) ks); [cbn; by rewrite lookup_insert_eq|done| |done| |].
  { intros q Hq. cbn. cbn in Hb2. pose proof (fy_alloc _ _ _ _ Hfy q Hq). lia. }
  { intros k (n & F1 & F2 & F3 & _)%Hks. cbn. pose proof (fy_numbers _ _ _ _ Hfy _ n F1 F2). lia. }
  intros sl h ks' Hh' Hks' Ha Hdup Hb Hm. cbn beta. wp_step. cbn in Hb, Hb2.
  exists d. split; [done|]. rewrite Em, Er. cbn [negb]. rewrite decide_False.
  2: { rewrite !elem_of_cons, elem_of_nil in *. tauto. }
  exists p. split; [done|].
  exists l1, l2, (RSpace (rs_nsid sp) (rs_vnnum sp + 1) (rs_root sp) (rs_nxvnid sp + 1) (rs_lock sp) sl).
  split; [done|]. split; [done|]. split.
  - eapply (created_filesys ns s C sp dir name mode p l1 l2 _ sl h ks ks' N'); try done.
    + lia.
    + intros E. pose proof (fy_fresh _ _ _ _ Hfy _ (fy_root _ _ _ _ Hfy)). unfold p in E. lia.
    + rewrite Hdup. apply Hfy.
    + cbn. by rewrite lookup_insert_eq.
  - split_and!; try done. cbn. lia.
Qed.

(** ** Changes that leave the tree alone *)

Lemma filesys_host ns s C sp h :
  filesys ns s C sp -> no_oom h -> h_brk (r_host s) <= h_brk h -> filesys ns (rset_host h s) C sp.
Proof.
  intros [F1 F2 F3 F4 F5 F6 F7 F8 F9] Hm Hb. split; try done.
  - intros p Hp. specialize (F5 p Hp). cbn. lia.
  - intros p Hp. specialize (F7 p Hp). cbn. lia.
Qed.

Lemma filesys_lock ns s C sp l :
  filesys ns s C sp -> filesys ns (rset_spaces (<[ns := s_set_lock l sp]> (r_spaces s)) s) C (s_set_lock l sp).
Proof. intros [F1 F2 F3 F4 F5 F6 F7 F8 F9]. split; try done. cbn. by rewrite lookup_insert_eq. Qed.

Lemma filesys_upd ns s C sp p n n' :
  filesys ns s C sp -> r_nodes s !! p = Some n -> like n n' -> lnk n' = lnk n -> rn_head n' = rn_head n -> rn_ns n' = rn_ns n -> rn_vnid n' = rn_vnid n ->
  filesys ns (rset_nodes (<[p := n']> (r_nodes s)) s) C sp.
Proof.
  intros [F1 F2 (ks & K1 & K2) F4 F5 F6 F7 F8 F9] Hp HL E1 E2 E3 E4.
  assert (forall q, ids (<[p := n']> (r_nodes s)) q = ids (r_nodes s) q) as Hids.
  { intros q. unfold ids. destruct (decide (q = p)) as [->|]; [by rewrite lookup_insert_eq, Hp; cbn; rewrite E3, E4|by rewrite lookup_insert_ne]. }
  split; try done; cbn [r_nodes rset_nodes].
  - unfold tree_of. rewrite !fmap_insert, E1, E2, (insert_id (lnk <$> _)), (insert_id (rn_head <$> _)) by (by rewrite lookup_fmap, Hp).
    apply (tree_like (strip <$> r_nodes s)); [|done]. intros q m Hm. destruct (decide (q = p)) as [->|].
    + rewrite lookup_fmap, Hp in Hm. injection Hm as <-. exists (strip n'). by rewrite lookup_insert_eq.
    + exists m. by rewrite lookup_insert_ne.
  - exists ks. split; [done|]. intros k. rewrite (K2 k). split; intros (m & M1 & M2 & M3 & M4).
    + destruct (proj2 (ids_spec (<[p := n']> (r_nodes s)) (rk_vn k) ns (rk_vnid k))) as (m' & N1 & N2 & N3); [|by exists m'].
      rewrite Hids. apply ids_spec. by exists m.
    + destruct (proj2 (ids_spec (r_nodes s) (rk_vn k) ns (rk_vnid k))) as (m' & N1 & N2 & N3); [|by exists m'].
      rewrite <- Hids. apply ids_spec. by exists m.
  - intros q m Hm Hns. assert (ids (r_nodes s) q = Some (ns, rn_vnid m)) as (m' & N1 & N2 & N3)%ids_spec.
    { rewrite <- Hids. apply ids_spec. by exists m. }
    rewrite <- N3. by apply (F6 q).
  - intros q. rewrite dom_insert_lookup_L by done. apply F7.
  - rewrite dom_insert_lookup_L by done. done.
Qed.

Lemma LOCK_ns_wp ns s C sp (Q : unit -> rstate -> Prop) :
  filesys ns s C sp -> l_c (rs_lock sp) = 1 ->
  (forall l, l = Lock 0 (l_s (rs_lock sp)) -> filesys ns (rset_spaces (<[ns := s_set_lock l sp]> (r_spaces s)) s) C (s_set_lock l sp) ->
     Q tt (rset_spaces (<[ns := s_set_lock l sp]> (r_spaces s)) s)) -> wp (LOCK_ns ns) Q s.
Proof.
  intros Hfy Hl HQ. unfold LOCK_ns. eapply in_space_wp; [apply Hfy|]. apply wp_zoom. eapply wp_mono; [by apply LOCK_wp|].
  cbn beta. intros [] l ->. apply HQ; [done|]. by apply filesys_lock.
Qed.
Lemma UNLOCK_ns_wp ns s C sp (Q : unit -> rstate -> Prop) :
  filesys ns s C sp -> l_c (rs_lock sp) = 0 ->
  (forall l, l = Lock 1 (l_s (rs_lock sp)) -> filesys ns (rset_spaces (<[ns := s_set_lock l sp]> (r_spaces s)) s) C (s_set_lock l sp) ->
     Q tt (rset_spaces (<[ns := s_set_lock l sp]> (r_spaces s)) s)) -> wp (UNLOCK_ns ns) Q s.
Proof.
  intros Hfy Hl HQ. unfold UNLOCK_ns. eapply in_space_wp; [apply Hfy|]. apply wp_zoom. eapply wp_mono; [by apply UNLOCK_wp|].
  cbn beta. intros [] l ->. apply HQ; [done|]. by apply filesys_lock.
Qed.

(** Taking the lock and giving it back changes nothing. *)
Lemma relock (sp : rspace) : l_c (rs_lock sp) = 1 -> s_set_lock (Lock 1 (l_s (rs_lock sp))) sp = sp.
Proof. destruct sp as [? ? ? ? [c ls] ?]. cbn. by intros ->. Qed.
Lemma unlocked ns sp s :
  r_spaces s !! ns = Some sp -> l_c (rs_lock sp) = 1 ->
  let locked := s_set_lock (Lock 0 (l_s (rs_lock sp))) sp in
  <[ns := s_set_lock (Lock 1 (l_s (rs_lock sp))) locked]> (<[ns := locked]> (r_spaces s)) = r_spaces s.
Proof.
  intros Hsp Hl locked. rewrite insert_insert_eq. change (s_set_lock (Lock 1 (l_s (rs_lock sp))) locked) with (s_set_lock (Lock 1 (l_s (rs_lock sp))) sp).
  rewrite relock by done. by apply insert_id.
Qed.

(** [rootfs_mkdir] is [do_create] under the lock. *)
Lemma mkdir_wp ns dir d name perms s C sp :
  filesys ns s C sp -> l_c (rs_lock sp) = 1 -> r_nodes s !! dir = Some d -> in_i64 (rs_nxvnid sp) -> in_i64 (rs_nxvnid sp + 1) ->
  len name < FILE_NAME_LENGTH ->
  wp (rootfs_mkdir ns (Some dir) name perms) (fun err s' => exists r,
    create_post ns dir name (u32 (Z.lor (Z.land perms (Z.lnot MY_S_IFMT)) MY_S_IFDIR)) s C sp r s' /\ err = r.1) s.
Proof.
  intros Hfy Hl Hd Hi0 Hi Hlen. unfold rootfs_mkdir. wp_step. wp_step. wp_step. eapply LOCK_ns_wp; [exact Hfy|done|]. intros l -> Hfy0.
  set (mode := u32 _). wp_step. eapply wp_mono; [by apply (do_create_wp ns dir d name mode _ C _ Hfy0)|].
  cbn beta. intros [err vn] s3 (d' & Hd' & Hpost). cbn [r_nodes rset_spaces] in Hd'. assert (d' = d) as -> by congruence.
  assert (forall e, s3 = rset_spaces (<[ns := s_set_lock (Lock 0 (l_s (rs_lock sp))) sp]> (r_spaces s)) s -> err = e -> e <> 0 ->
    wp (_ ← UNLOCK_ns ns; mret err) (fun err s' => s' = s /\ err = e) s3) as Hfail.
  { intros e -> -> _. wp_step. eapply UNLOCK_ns_wp; [exact Hfy0|done|]. intros l -> _. wp_step. split; [|done].
    unfold rset_spaces. cbn. rewrite (unlocked ns sp s (fy_space _ _ _ _ Hfy) Hl). by destruct s. }
  unfold create_post. cbn [r_nodes rset_spaces] in Hpost. destruct (negb (MY_S_ISDIR (rn_mode d))) eqn:E1; [|destruct (rn_removed d) eqn:E2; [|destruct (decide _) as [E3|E3]]].
  - destruct Hpost as [[= -> ->] E]. eapply wp_mono; [by apply (Hfail ENOTDIR)|]. cbn beta. intros a s' [-> ->].
    exists (ENOTDIR, None). split; [|done]. exists d. by rewrite E1.
  - destruct Hpost as [[= -> ->] E]. eapply wp_mono; [by apply (Hfail ENOENT)|]. cbn beta. intros a s' [-> ->].
    exists (ENOENT, None). split; [|done]. exists d. by rewrite E1, E2.
  - destruct Hpost as [[= -> ->] E]. eapply wp_mono; [by apply (Hfail EEXIST)|]. cbn beta. intros a s' [-> ->].
    exists (EEXIST, None). split; [|done]. exists d. by rewrite E1, E2.
  - destruct Hpost as (p & [= -> ->] & l1 & l2 & sp3 & EC & Hp & Hfy3 & En & El & Ei & Er & EK & Hb).
    cbn beta iota. wp_step. eapply UNLOCK_ns_wp; [exact Hfy3|by rewrite El|]. intros l -> Hfy4. wp_step.
    exists (0, Some p). split; [|done]. exists d. rewrite E1, E2. split; [done|]. exists p. split; [done|].
    exists l1, l2. eexists. split; [done|]. split; [done|]. split; [exact Hfy4|]. split_and!; try done.
    cbn. rewrite El. cbn. destruct (rs_lock sp) as [c ls]. cbn in *. congruence.
Qed.

(** ** Reading vnodes *)

Definition found (ns vnid : Z) (s : rstate) (sp : rspace) (r : Z * option Z) : Prop :=
  (exists p n, r = (0, Some p) /\ r_nodes s !! p = Some n /\ rn_ns n = ns /\ rn_vnid n = vnid /\ p <> rs_root sp) \/
  (r = (ENOENT, None) /\ forall p n, r_nodes s !! p = Some n -> rn_ns n = ns -> rn_vnid n = vnid -> p = rs_root sp).

Lemma read_space_wp ns vnid s sp ks :
  r_spaces s !! ns = Some sp -> holds Rootfs.compare_vnode (rs_skiplist sp) ks -> keyed ns (r_nodes s) (rs_root sp) ks ->
  wp (rootfs_read_vnode ns vnid true) (fun r s' => s' = s /\ found ns vnid s sp r) s.
Proof.
  intros Hsp Hh Hks. unfold rootfs_read_vnode. wp_step. wp_step. wp_step.
  eapply in_space_wp; [done|]. apply wp_zoom. eapply wp_mono; [by apply (search_spec Rootfs.compare_vnode _ ks)|].
  cbn beta. intros r sl [-> Hr]. pose proof (keyed_find ns (r_nodes s) (rs_root sp) ks vnid r Hks (eq_sym Hr)) as Hf.
  wp_step. wp_step. wp_step. split.
  - assert (s_set_skiplist (rs_skiplist sp) sp = sp) as -> by (by destruct sp). rewrite insert_id by done. by destruct s.
  - destruct r as [k|]; [left|right; split; [done|exact Hf]]. destruct Hf as (Hk & n & F1 & F2 & F3 & F4). by exists (rk_vn k), n.
Qed.
Lemma read_vnode_wp ns vnid s C sp :
  filesys ns s C sp -> wp (rootfs_read_vnode ns vnid true) (fun r s' => s' = s /\ found ns vnid s sp r) s.
Proof. intros Hfy. destruct (fy_keys _ _ _ _ Hfy) as (ks & Hh & Hks). eapply read_space_wp; [apply Hfy|done|done]. Qed.

(** ** Symbolic links *)

Definition readable (path : list byte) (bufsize : Z) : list byte := take (Z.to_nat bufsize) path.

Lemma readlink_wp ns p n path bufsize s :
  r_nodes s !! p = Some n -> MY_S_ISLNK (rn_mode n) = true -> rn_symlink n = Str path -> 0 <= bufsize ->
  wp (rootfs_readlink ns (Some p) bufsize) (fun r s' => s' = s /\ r = (0, len path, readable path bufsize)) s.
Proof.
  intros Hp Hm Hl Hb. unfold rootfs_readlink. wp_step. wp_step. wp_step. eapply get_node_wp; [done|].
  rewrite Hm, Hl. cbn [negb str_of]. wp_step. wp_step. wp_step. split; [done|]. f_equal. unfold readable.
  rewrite Z.gtb_ltb. destruct (Z.ltb_spec bufsize (len path)); [done|]. rewrite take_ge; [done|]. unfold len in *. lia.
Qed.



Lemma symlink_wp ns dir d name path s C sp :
  filesys ns s C sp -> l_c (rs_lock sp) = 1 -> r_nodes s !! dir = Some d -> MY_S_ISDIR (rn_mode d) = true -> rn_removed d = false ->
  (name ∉ [dot] :: [dot; dot] :: names (r_nodes s) (C dir)) -> len name < FILE_NAME_LENGTH -> in_i64 (rs_nxvnid sp) -> in_i64 (rs_nxvnid sp + 1) ->
  wp (rootfs_symlink ns (Some dir) name (Some path)) (fun err s' => err = 0 /\ exists C' sp' p l1 l2 n, filesys ns s' C' sp' /\ l_c (rs_lock sp') = 1 /\
    C dir = l1 ++ l2 /\ C' = upd_dir dir (l1 ++ p :: l2) C /\ rs_nxvnid sp' = rs_nxvnid sp + 1 /\ rs_root sp' = rs_root sp /\ p <> rs_root sp /\
    r_nodes s' !! p = Some n /\ rn_name n = Str name /\ rn_ns n = ns /\ rn_vnid n = rs_nxvnid sp' /\
    MY_S_ISLNK (rn_mode n) = true /\ rn_symlink n = Str path) s.
Proof.
  intros Hfy Hl Hd Hm Hr Hnm Hlen Hi0 Hi. unfold rootfs_symlink. wp_step. wp_step. wp_step. wp_step. wp_step.
  apply in_host_malloc_wp; [apply Hfy|]. intros h Hmem _ Hb. cbn beta iota.
  assert (filesys ns (rset_host h s) C sp) as Hfy1 by (apply filesys_host; [done|done|lia]).
  wp_step. eapply LOCK_ns_wp; [exact Hfy1|done|]. intros l -> Hfy2. cbn beta.
  wp_step. eapply wp_mono; [by apply (do_create_wp ns dir d name MY_S_IFLNK _ C _ Hfy2)|].
  cbn beta. intros [err vn] s3 (d' & Hd' & Hpost). cbn [r_nodes rset_spaces rset_host] in Hd', Hpost. assert (d' = d) as -> by congruence.
  rewrite Hm, Hr in Hpost. cbn [negb] in Hpost. rewrite decide_False in Hpost by done.
  destruct Hpost as (p & [= -> ->] & l1 & l2 & sp3 & EC & Hp & Hfy3 & En & El & Ei & Er & EK & _). cbn beta iota.
  cbn in En, El, Er. change (negb (0 =? 0)) with false. cbn iota.
  wp_step. wp_step.
  assert (exists n, r_nodes s3 !! p = Some n /\ strip n = made ns dir name MY_S_IFLNK
     (rset_spaces (<[ns := s_set_lock (Lock 0 (l_s (rs_lock sp))) sp]> (r_spaces (rset_host h s))) (rset_host h s)) (s_set_lock (Lock 0 (l_s (rs_lock sp))) sp)) as (n & Hn & Esn).
  { assert ((strip <$> r_nodes s3) !! p = Some (made ns dir name MY_S_IFLNK
     (rset_spaces (<[ns := s_set_lock (Lock 0 (l_s (rs_lock sp))) sp]> (r_spaces (rset_host h s))) (rset_host h s)) (s_set_lock (Lock 0 (l_s (rs_lock sp))) sp))) as Hs
      by (rewrite EK; by rewrite lookup_insert_eq).
    rewrite lookup_fmap in Hs. destruct (r_nodes s3 !! p) as [n|]; [|done]. exists n. split; [done|]. by apply (inj Some) in Hs. }
  injection Esn as S1 S2 S3 S4 S5 S6 S7 S8 S9 S10. cbn in S4.
  wp_step. eapply upd_node_wp; [done|].
  assert (filesys ns (rset_nodes (<[p := n_set_symlink (Str path) n]> (r_nodes s3)) s3) (upd_dir dir (l1 ++ p :: l2) C) sp3) as Hfy4 by (by eapply filesys_upd).
  wp_step. eapply UNLOCK_ns_wp; [exact Hfy4|by rewrite El|]. intros l -> Hfy5. cbn beta. wp_step. split; [done|].
  exists (upd_dir dir (l1 ++ p :: l2) C). eexists. exists p, l1, l2, (n_set_symlink (Str path) n). split; [exact Hfy5|]. cbn.
  rewrite lookup_insert_eq. split_and!; try done; [|congruence|by rewrite S9].
  intros ->. pose proof (fy_root _ _ _ _ Hfy) as Hroot. apply not_elem_of_dom in Hp. done.
Qed.

(** Makes a link, looks its name up, asks for its vnode and reads the link. *)
Definition link_and_read (ns dir : Z) (name path : list byte) (bufsize : Z) : RM (Z * option Z * (Z * option Z) * (Z * Z * list byte)) :=
  err ← rootfs_symlink ns (Some dir) name (Some path);
  p ← lookup_name dir name;
  sp ← the_space ns;
  v ← rootfs_read_vnode ns (rs_nxvnid sp) true;
  l ← rootfs_readlink ns p bufsize;
  mret (err, p, v, l).

Lemma find_unique N C d l1 c l2 name :
  tree_of N C -> C d = l1 ++ c :: l2 -> name_at N c = name -> List.find (is_name N name) (C d) = Some c.
Proof.
  intros HT EC En. pose proof (names_NoDup N C HT d) as Hnd. rewrite EC in *. clear EC. induction l1 as [|x l1 IH]; cbn [app List.find].
  - by rewrite (proj2 (is_name_true N name c)).
  - cbn in Hnd. apply NoDup_cons in Hnd as [Hx Hnd]. destruct (is_name N name x) eqn:E; [|by apply IH].
    apply is_name_true in E. exfalso. apply Hx. rewrite E, <- En. apply list_elem_of_fmap_2. rewrite elem_of_app, elem_of_cons. auto.
Qed.

Lemma link_and_read_wp ns dir d name path bufsize s C sp :
  filesys ns s C sp -> l_c (rs_lock sp) = 1 -> r_nodes s !! dir = Some d -> MY_S_ISDIR (rn_mode d) = true -> rn_removed d = false ->
  (name ∉ [dot] :: [dot; dot] :: names (r_nodes s) (C dir)) -> len name < FILE_NAME_LENGTH -> in_i64 (rs_nxvnid sp) -> in_i64 (rs_nxvnid sp + 1) ->
  0 <= bufsize ->
  wp (link_and_read ns dir name path bufsize)
    (fun r _ => exists p, r = (0, Some p, (0, Some p), (0, len path, readable path bufsize))) s.
Proof.
  intros Hfy Hl Hd Hm Hr Hnm Hlen Hi0 Hi Hb. unfold link_and_read. wp_step.
  eapply wp_mono; [by apply (symlink_wp ns dir d name path s C sp)|]. cbn beta.
  intros err s1 (-> & C' & sp' & p & l1 & l2 & n & Hfy1 & Hl1 & EC & -> & En & Er & Hpr & Hn & N1 & N2 & N3 & N4 & N5).
  pose proof (fy_tree _ _ _ _ Hfy1) as HT. wp_step.
  destruct (tr_dir _ _ _ _ HT dir) as (d' & Hd' & _). { rewrite upd_dir_eq. by destruct l1. }
  rewrite lookup_fmap in Hd'. destruct (r_nodes s1 !! dir) as [d1|] eqn:Hd1; [|done].
  eapply (lookup_name_wp _ _ HT dir d1 name); [done|done|].
  rewrite (find_unique _ _ dir l1 p l2 name HT); [|by rewrite upd_dir_eq|unfold name_at, name_of; by rewrite Hn, N1].
  wp_step. eapply the_space_wp; [apply Hfy1|]. wp_step. eapply wp_mono; [by eapply (read_vnode_wp ns _ s1 _ sp')|].
  cbn beta. intros v s2 [-> Hv]. wp_step. eapply wp_mono; [by eapply readlink_wp|]. cbn beta. intros r s3 [-> ->]. wp_step.
  exists p. destruct Hv as [(q & m & -> & M1 & M2 & M3 & M4)|(_ & Hno)]; [|exfalso; rewrite Er in Hno; by apply Hpr, (Hno p n)].
  destruct (fy_keys _ _ _ _ Hfy1) as (ks & Hh & Hks). destruct Hh as [ps Hok].
  assert (RKey (rn_vnid n) p ∈ ks) as K1 by (apply Hks; exists n; cbn; rewrite Er; done).
  assert (RKey (rn_vnid n) q ∈ ks) as K2 by (apply Hks; exists m; cbn; rewrite M3, N3; done).
  assert (RKey (rn_vnid n) p = RKey (rn_vnid n) q) as [= ->]; [|done].
  pose proof (so_sorted _ _ _ _ Hok) as Hs. rewrite (fy_unique _ _ _ _ Hfy1) in Hs.
  apply (VnodeInv.strict_equal Rootfs.compare_vnode ks _ _ Hs K1 K2). unfold Rootfs.compare_vnode. cbn. rewrite Z.gtb_ltb, Z.ltb_irrefl. done.
Qed.

(** ** Reading a directory *)

Abbreviation item := (list byte * Z)%type.
Definition vnid_at (N : gmap Z rnode) (p : Z) : Z := match N !! p with Some n => rn_vnid n | None => 0 end.
Definition items (N : gmap Z rnode) (ps : list Z) : list item := (fun p => (name_at N p, vnid_at N p)) <$> ps.

(** [.], [..] and the nodes of the directory. *)
Definition listing (N : gmap Z rnode) (d : Z) (n : rnode) (ps : list Z) : list item :=
  ([dot], rn_vnid n) :: ([dot; dot], vnid_at N (rn_parent n)) :: items N ps.

#[export] Instance before_dec a b : Decision (before a b) := decide (strcmp a b < 0).

(** What a cookie has still to show: past the first child, the names after the
    last one shown. *)
Definition pending (N : gmap Z rnode) (d : Z) (n : rnode) (ps : list Z) (c : dirpos) : list item :=
  if dp_pos c >? 2 then filter (fun e => before (dp_name c) e.1) (items N ps) else drop (Z.to_nat (dp_pos c)) (listing N d n ps).

Definition reclen (name : list byte) : Z := Z.land (sizeof_my_dirent + len name + 7) (Z.lnot 7).

(** The entries that are asked for and have room. *)
Fixpoint fitting (bufsize left off : Z) (es : list item) : list item :=
  match es with
  | [] => []
  | e :: es =>
      if (0 <? left) && (off + (sizeof_my_dirent + len e.1) <=? bufsize)
      then e :: fitting bufsize (left - 1) (off + reclen e.1) es else []
  end.

Lemma fitting_prefix bufsize left off es : exists rest, es = fitting bufsize left off es ++ rest.
Proof.
  revert left off. induction es as [|e es IH]; intros left off; [by exists []|]. cbn [fitting].
  destruct (_ && _); [|by exists (e :: es)]. destruct (IH (left - 1) (off + reclen e.1)) as [rest E]. exists rest. cbn. by rewrite <- E.
Qed.

Definition item_of (e : my_dirent) : item := (d_name e, d_ino e).

Section readdir.
Context (N : gmap Z rnode) (C : Z -> list Z) (HT : tree_of N C).
Context (d : Z) (n pn : rnode) (Hd : N !! d = Some n) (Hpn : N !! rn_parent n = Some pn).

(** What is left at a position of the loop. *)
Definition ahead (pos : Z) (l2 : list Z) : list item :=
  drop (Z.to_nat pos) [([dot], rn_vnid n); ([dot; dot], rn_vnid pn)] ++ items N l2.

Lemma ahead_late pos l2 : 2 <= pos -> ahead pos l2 = items N l2.
Proof. intros H. unfold ahead. rewrite drop_ge; [done|cbn; lia]. Qed.

Lemma entry_at_wp pos l1 l2 s (Q : list byte * Z * option Z -> rstate -> Prop) :
  r_nodes s = N -> 0 <= pos -> C d = l1 ++ l2 -> (pos < 2 \/ l2 <> []) ->
  (forall name num l1' l2', C d = l1' ++ l2' -> ahead pos l2 = (name, num) :: ahead (pos + 1) l2' -> Q (name, num, head l2') s) ->
  wp (entry_at d pos (head l2)) Q s.
Proof.
  intros EN Hpos EC Hne HQ. unfold entry_at. destruct (Z.eqb_spec pos 0) as [->|H0].
  { wp_step. eapply get_node_wp; [by rewrite EN|]. wp_step. by apply (HQ _ _ l1 l2). }
  destruct (Z.eqb_spec pos 1) as [->|H1].
  { wp_step. eapply get_node_wp; [by rewrite EN|]. wp_step. eapply get_node_wp; [by rewrite EN|]. wp_step. by apply (HQ _ _ l1 l2). }
  destruct l2 as [|c l2]; [destruct Hne; [lia|done]|]. cbn [head].
  destruct (node_of_child N C HT d l1 c l2 EC) as (v & nm & Hv & E1 & E2 & _ & E4 & _).
  wp_step. wp_step. wp_step. eapply get_node_wp; [by rewrite EN|]. rewrite E1. cbn [str_of]. wp_step. wp_step. wp_step.
  rewrite E4. apply (HQ _ _ (l1 ++ [c]) l2); [by rewrite <- app_assoc|].
  rewrite !ahead_late by lia. cbn. unfold vnid_at. by rewrite Hv, E2.
Qed.

Lemma ahead_nil pos l2 : 0 <= pos -> ahead pos l2 = [] <-> 2 <= pos /\ l2 = [].
Proof.
  intros Hp. destruct (decide (2 <= pos)) as [H2|H2].
  - rewrite ahead_late by done. split; [intros E%fmap_nil_inv; done|intros [_ ->]; done].
  - split; [|lia]. intros E. exfalso. unfold ahead in E. apply app_eq_nil in E as [E _].
    apply (f_equal length) in E. rewrite length_drop in E. cbn in E. lia.
Qed.

Lemma readdir_loop_wp buf bufsize fuel left off pos lst l1 l2 s :
  r_nodes s = N -> 0 <= pos -> C d = l1 ++ l2 -> (length (ahead pos l2) <= fuel)%nat ->
  wp (readdir_loop fuel d buf bufsize left off (head l2) pos lst) (fun r s' => s' = s /\
    let '(pos', lst', es) := r in
    item_of <$> es = fitting bufsize left off (ahead pos l2) /\ pos' = pos + len es /\
    lst' = default lst (fst <$> last (item_of <$> es))) s.
Proof.
  intros EN. revert left off pos lst l1 l2. induction fuel as [|fuel IH]; intros left off pos lst l1 l2 Hp EC Hf.
  - destruct (proj1 (ahead_nil pos l2 Hp)) as [H2 ->]; [by apply nil_length_inv; lia|].
    cbn [readdir_loop head]. rewrite (proj2 (Z.ltb_ge pos 2)) by done. rewrite bool_decide_eq_false_2 by by intros [].
    rewrite andb_false_r. cbn [negb]. wp_step. rewrite ahead_late by done. cbn. rewrite Z.add_0_r. done.
  - cbn [readdir_loop]. destruct (0 <? left) eqn:El; cbn [andb].
    2: { cbn [negb]. wp_step. split; [done|]. split; [|split; [unfold len; cbn; lia|done]]. destruct (ahead pos l2); cbn [fitting]; [done|]. by rewrite El. }
    destruct (decide (ahead pos l2 = [])) as [E0|Hne].
    + apply (ahead_nil pos l2 Hp) in E0 as [H2 ->]. rewrite (proj2 (Z.ltb_ge pos 2)) by done. rewrite bool_decide_eq_false_2 by by intros [].
      cbn [orb negb]. wp_step. rewrite ahead_late by done. cbn. rewrite Z.add_0_r. done.
    + assert ((pos <? 2) || bool_decide (is_Some (head l2)) = true) as ->.
      { rewrite orb_true_iff, Z.ltb_lt, bool_decide_eq_true. rewrite ahead_nil in Hne by done.
        destruct l2; [left; destruct (decide (pos < 2)); [done|]; exfalso; apply Hne; split; [lia|done]|right; by eexists]. }
      cbn [negb]. wp_step. eapply (entry_at_wp pos l1 l2); [done|done|done| |].
      { rewrite ahead_nil in Hne by done. destruct (decide (pos < 2)); [by left|right]. intros ->. apply Hne. split; [lia|done]. }
      intros name num l1' l2' EC' Ea. cbn beta iota. rewrite Ea. cbn [fitting fst]. rewrite El. cbn [andb].
      rewrite Z.gtb_ltb.
      destruct (Z.ltb_spec bufsize (off + (sizeof_my_dirent + len name))) as [Hbig|Hok].
      { wp_step. rewrite (proj2 (Z.leb_gt _ _)) by done. split; [done|]. split; [done|]. split; [unfold len; cbn; lia|done]. }
      rewrite (proj2 (Z.leb_le _ _)) by done.
      wp_step. eapply wp_mono; [eapply (IH _ _ (pos + 1) name l1' l2'); [lia|done|rewrite Ea in Hf; cbn in Hf; lia]|].
      cbn beta. intros [[pos' lst'] es] s' [-> (E1 & E2 & E3)]. wp_step. split; [done|]. split_and!.
      * cbn [fmap list_fmap]. by rewrite E1.
      * rewrite E2. unfold len. cbn [length]. lia.
      * rewrite E3. cbn [fmap list_fmap]. destruct es as [|e es]; [done|]. cbn [fmap list_fmap]. rewrite last_cons_cons.
        by destruct (last_is_Some (item_of e :: (item_of <$> es))) as [_ [x ->]].
Qed.

Lemma skip_names_wp name fuel l1 l2 s (Q : option Z -> rstate -> Prop) :
  r_nodes s = N -> C d = l1 ++ l2 -> (length l2 <= fuel)%nat -> (forall q, q ∈ l1 -> ~ before name (name_at N q)) ->
  (forall a b, C d = a ++ b -> (forall q, q ∈ a -> ~ before name (name_at N q)) -> (forall q, q ∈ b -> before name (name_at N q)) -> Q (head b) s) ->
  wp (skip_names fuel name (head l2)) Q s.
Proof.
  intros EN. revert fuel l1. induction l2 as [|c l2 IH]; intros fuel l1 EC Hf H1 HQ.
  { assert (Q None s) by (apply (HQ l1 []); try done; intros q; by rewrite elem_of_nil). destruct fuel; by apply wp_ret. }
  destruct fuel as [|fuel]; [cbn in Hf; lia|]. destruct (node_of_child N C HT d l1 c l2 EC) as (v & nm & Hv & E1 & E2 & _ & E4 & _).
  cbn [skip_names head]. wp_step. eapply get_node_wp; [by rewrite EN|]. rewrite E1. cbn [str_of]. wp_step. wp_step.
  rewrite Z.geb_leb. destruct (Z.leb_spec 0 (strcmp name nm)) as [Hge|Hlt].
  - rewrite E4. apply (IH fuel (l1 ++ [c])); [by rewrite <- app_assoc|cbn in Hf; lia| |done].
    intros q [Hq| ->%list_elem_of_singleton]%elem_of_app; [by apply H1|]. rewrite E2. unfold before. lia.
  - wp_step. apply (HQ l1 (c :: l2)); try done. intros q [->|Hq]%elem_of_cons; [by rewrite E2|].
    eapply strcmp_trans; [exact Hlt|]. rewrite <- E2. by apply (sorted_after N C HT d l1 c l2).
Qed.

Lemma filter_items name a b :
  (forall q, q ∈ a -> ~ before name (name_at N q)) -> (forall q, q ∈ b -> before name (name_at N q)) ->
  filter (fun e : item => before name e.1) (items N (a ++ b)) = items N b.
Proof.
  intros Ha Hb. induction a as [|q a IH]; cbn [app items fmap list_fmap].
  - clear Ha. induction b as [|q b IH]; [done|]. cbn [items fmap list_fmap]. rewrite filter_cons_True by (apply Hb; by left).
    f_equal. apply IH. intros r Hr. apply Hb. by right.
  - rewrite filter_cons_False by (apply Ha; by left). apply IH. intros r Hr. apply Ha. by right.
Qed.

(** When the loop has gone past the first child its last entry is a child. *)
Lemma last_shown pos l1 l2 E R :
  0 <= pos -> C d = l1 ++ l2 -> ahead pos l2 = E ++ R -> E <> [] -> 2 < pos + len E ->
  exists a c b, C d = a ++ c :: b /\ fst <$> last E = Some (name_at N c) /\ R = items N b.
Proof.
  intros Hp EC EA HE Hl. unfold ahead in EA. set (T := drop (Z.to_nat pos) _) in EA.
  assert (length T < length E)%nat as HT'. { unfold T. rewrite length_drop. unfold len in Hl. destruct E; [done|]. cbn [length] in *. lia. }
  set (j := (length E - length T)%nat).
  assert (E = T ++ items N (take j l2) /\ R = items N (drop j l2)) as [E1 E2].
  { split.
    - rewrite <- (take_app_length E R), <- EA, take_app_ge by lia. unfold items. by rewrite fmap_take.
    - rewrite <- (drop_app_length E R), <- EA, drop_app_ge by lia. unfold items. by rewrite fmap_drop. }
  assert (take j l2 <> []) as Hne. { intros E0. rewrite E0 in E1. cbn in E1. rewrite app_nil_r in E1. rewrite E1 in HT'. lia. }
  destruct (exists_last Hne) as (x & c & Ex). exists (l1 ++ x), c, (drop j l2). split_and!.
  - rewrite EC, <- (take_drop j l2) at 1. rewrite Ex, <- !app_assoc. done.
  - rewrite E1, Ex. unfold items. rewrite fmap_app, list_fmap_singleton, app_assoc, last_snoc. done.
  - done.
Qed.

Lemma pending_after pos l1 l2 E R name lk :
  0 <= pos -> C d = l1 ++ l2 -> ahead pos l2 = E ++ R -> E <> [] -> 2 < pos + len E -> fst <$> last E = Some name ->
  pending N d n (C d) (DirPos lk (pos + len E) name) = R /\ len name < FILE_NAME_LENGTH.
Proof.
  intros Hp EC EA HE Hl Hnm. destruct (last_shown pos l1 l2 E R Hp EC EA HE Hl) as (a & c & b & EC' & En & ->).
  assert (name = name_at N c) as -> by congruence. unfold pending. cbn [dp_pos dp_name]. rewrite Z.gtb_ltb, (proj2 (Z.ltb_lt _ _)) by done.
  destruct (node_of_child N C HT d a c b EC') as (v & nm & Hv & E1 & E2 & E3 & _). split; [|by rewrite E2].
  replace (C d) with ((a ++ [c]) ++ b) by (by rewrite EC', <- app_assoc). apply filter_items.
  - intros q [Hq| ->%list_elem_of_singleton]%elem_of_app; unfold before; [|rewrite strcmp_refl; lia].
    apply list_elem_of_split in Hq as (a1 & a2 & ->). rewrite <- app_assoc in EC'. cbn in EC'.
    pose proof (sorted_after N C HT d a1 q (a2 ++ c :: b) c EC') as Hs. rewrite strcmp_opp. unfold before in Hs.
    specialize (Hs ltac:(rewrite elem_of_app, elem_of_cons; auto)). lia.
  - intros q Hq. by apply (sorted_after N C HT d a c b).
Qed.

Lemma pending_ahead c : dp_pos c <= 2 -> 0 <= dp_pos c -> pending N d n (C d) c = ahead (dp_pos c) (C d).
Proof.
  intros H H0. unfold pending, ahead, listing. rewrite Z.gtb_ltb, (proj2 (Z.ltb_ge _ _)) by done.
  unfold vnid_at at 1. rewrite Hpn. assert (dp_pos c = 0 \/ dp_pos c = 1 \/ dp_pos c = 2) as [-> | [-> | ->]] by lia; done.
Qed.
End readdir.

Lemma in_cookie_wp {A} ck c (m : M dirpos A) s (Q : A -> rstate -> Prop) :
  r_cookies s !! ck = Some c -> wp m (fun a c' => Q a (rset_cookies (<[ck := c']> (r_cookies s)) s)) c -> wp (in_cookie ck m) Q s.
Proof. apply zoom_at_wp. Qed.

(** The result of reading: what is pending and has room; the rest is pending. *)
Definition readdir_post (d : Z) (n : rnode) (ck : Z) (c : dirpos) (num bufsize : Z) (s : rstate) (C : Z -> list Z)
    (r : Z * list my_dirent) (s' : rstate) : Prop :=
  r.1 = 0 /\ item_of <$> r.2 = fitting bufsize num 0 (pending (r_nodes s) d n (C d) c) /\
  exists c', s' = rset_cookies (<[ck := c']> (r_cookies s)) s /\ l_c (dp_lock c') = 1 /\ 0 <= dp_pos c' /\
    pending (r_nodes s) d n (C d) c' = drop (length r.2) (pending (r_nodes s) d n (C d) c).

(** The node the loop starts at. *)
Lemma start_wp N C d n pn c fuel s (Q : option Z -> rstate -> Prop) :
  tree_of N C -> r_nodes s = N -> N !! d = Some n -> N !! rn_parent n = Some pn -> 0 <= dp_pos c -> (length (C d) <= fuel)%nat ->
  (forall l1 l2, C d = l1 ++ l2 -> ahead N n pn (dp_pos c) l2 = pending N d n (C d) c -> Q (head l2) s) ->
  wp (if dp_pos c >? 2 then skip_names fuel (dp_name c) (rn_head n) else mret (rn_head n)) Q s.
Proof.
  intros HT EN Hd Hpn H0 Hf HQ. rewrite (head_of_dir N C HT d n Hd). rewrite Z.gtb_ltb.
  destruct (Z.ltb_spec 2 (dp_pos c)) as [H2|H2].
  - eapply (skip_names_wp N C HT d (dp_name c) fuel [] (C d)); [done|done|done|intros q; by rewrite elem_of_nil|].
    intros a b EC Ha Hb. apply (HQ a b EC). rewrite ahead_late by lia. unfold pending.
    rewrite Z.gtb_ltb, (proj2 (Z.ltb_lt _ _)), EC by done. symmetry. by apply filter_items.
  - wp_step. apply (HQ [] (C d)); [done|]. symmetry. by apply pending_ahead.
Qed.

Lemma filesys_ext ns s s' C sp :
  filesys ns s C sp -> r_nodes s' = r_nodes s -> r_spaces s' = r_spaces s -> r_host s' = r_host s -> filesys ns s' C sp.
Proof. intros [F1 F2 F3 F4 F5 F6 F7 F8 F9] E1 E2 E3. split; rewrite ?E1, ?E2, ?E3; done. Qed.

(** The last step: the position and the name of the cookie. *)
Lemma set_name_wp N C d n pn c es lst' l1 l2 R ck x s (Q : unit -> rstate -> Prop) :
  tree_of N C -> N !! d = Some n -> N !! rn_parent n = Some pn -> 0 <= dp_pos c -> C d = l1 ++ l2 ->
  ahead N n pn (dp_pos c) l2 = pending N d n (C d) c -> pending N d n (C d) c = (item_of <$> es) ++ R ->
  lst' = default [] (fst <$> last (item_of <$> es)) -> r_cookies s !! ck = Some (DirPos x (dp_pos c + len es) (dp_name c)) ->
  (forall nm, (forall lk, pending N d n (C d) (DirPos lk (dp_pos c + len es) nm) = drop (length es) (pending N d n (C d) c)) ->
     Q tt (rset_cookies (<[ck := DirPos x (dp_pos c + len es) nm]> (r_cookies s)) s)) ->
  wp (if (dp_pos c + len es >? 2) && (len es >? 0) then set_cookie_name ck lst' else mret tt) Q s.
Proof.
  intros HT Hd Hpn H0 EC EA ER El Hck HQ. assert (len (item_of <$> es) = len es) as Ele by (unfold len; by rewrite length_fmap).
  assert (drop (length es) (pending N d n (C d) c) = R) as ED.
  { rewrite ER. rewrite <- (length_fmap item_of es). by rewrite drop_app_length. }
  assert ((forall lk, pending N d n (C d) (DirPos lk (dp_pos c + len es) (dp_name c)) = drop (length es) (pending N d n (C d) c)) -> wp (mret tt) Q s) as Hsame.
  { intros Hp. wp_step. specialize (HQ (dp_name c) Hp). rewrite insert_id in HQ by done. by destruct s. }
  rewrite !Z.gtb_ltb. destruct (Z.ltb_spec 0 (len es)) as [Hpos|Hz].
  2: { rewrite andb_false_r. apply Hsame. intros lk. destruct es as [|e es]; [|unfold len in Hz; cbn in Hz; lia].
    unfold len. cbn [length]. rewrite Z.add_0_r. done. }
  assert (item_of <$> es <> []) as Hne by (intros E%fmap_nil_inv; rewrite E in Hpos; done).
  destruct (Z.ltb_spec 2 (dp_pos c + len es)) as [H2|H2]; cbn [andb].
  - destruct (last (item_of <$> es)) as [e|] eqn:Ela; [|by apply last_None in Ela]. cbn in El. subst lst'.
    assert (forall lk, pending N d n (C d) (DirPos lk (dp_pos c + len es) e.1) = R /\ len e.1 < FILE_NAME_LENGTH) as Hpa.
    { intros lk. rewrite <- Ele. apply (pending_after N C HT d n pn (dp_pos c) l1 l2 (item_of <$> es) R e.1 lk); try done; [congruence|lia|by rewrite Ela]. }
    unfold set_cookie_name. destruct (Hpa x) as [_ Hlen]. rewrite (proj2 (Z.ltb_lt _ _) Hlen). eapply in_cookie_wp; [done|]. wp_step. cbn [dp_lock dp_pos].
    apply HQ. intros lk. rewrite ED. apply Hpa.
  - apply Hsame. intros lk. unfold pending. cbn [dp_pos]. rewrite !Z.gtb_ltb, !(proj2 (Z.ltb_ge _ _)) by lia.
    rewrite drop_drop. f_equal. unfold len. lia.
Qed.

Lemma readdir_wp ns d n pn ck c num bufsize s C sp :
  filesys ns s C sp -> l_c (rs_lock sp) = 1 -> r_nodes s !! d = Some n -> r_nodes s !! rn_parent n = Some pn ->
  r_cookies s !! ck = Some c -> l_c (dp_lock c) = 1 -> 0 <= dp_pos c ->
  wp (rootfs_readdir ns (Some d) (Some ck) num bufsize) (readdir_post d n ck c num bufsize s C) s.
Proof.
  intros Hfy Hl Hd Hpn Hc Hlc H0. pose proof (fy_tree _ _ _ _ Hfy) as HT. unfold rootfs_readdir. do 4 wp_step.
  wp_step. eapply LOCK_ns_wp; [exact Hfy|done|]. intros l -> Hfy1. cbn beta.
  wp_step. unfold LOCK_cookie. eapply in_cookie_wp; [exact Hc|]. apply wp_zoom. eapply wp_mono; [by apply LOCK_wp|].
  cbn beta. intros [] lk ->.
  set (s2 := rset_cookies _ _). assert (r_nodes s2 = r_nodes s) as EN by done.
  wp_step. eapply get_node_wp; [by rewrite EN|]. wp_step. eapply in_cookie_wp; [cbn; by rewrite lookup_insert_eq|]. wp_step.
  wp_step. unfold chain_fuel. wp_step. wp_step. cbn [r_nodes rset_cookies rset_spaces s2 r_cookies].
  rewrite insert_insert_eq. eapply (start_wp (r_nodes s) C d n pn (dp_set_lock (Lock 0 (l_s (dp_lock c))) c)); [done..| |].
  { pose proof (size_fuel _ _ HT d). lia. }
  intros l1 l2 EC EA. wp_step. unfold in_host. wp_step. unfold junk. wp_step.
  assert (forall s0 : rstate, rset_host (r_host s0) s0 = s0) as -> by by intros [].
  wp_step. eapply wp_mono; [eapply (readdir_loop_wp (r_nodes s) C HT d n pn Hd Hpn _ bufsize _ num 0 _ [] l1 l2); [done|done|done|]|].
  { pose proof (size_fuel _ _ HT d) as Hs. unfold ahead. rewrite length_app, length_drop. unfold items. rewrite length_fmap.
    rewrite EC, length_app in Hs. cbn [length]. lia. }
  cbn beta. intros [[pos' lst'] es] s' [-> (E1 & -> & E3)]. rewrite EA in E1.
  destruct (fitting_prefix bufsize num 0 (pending (r_nodes s) d n (C d) (dp_set_lock (Lock 0 (l_s (dp_lock c))) c))) as [R ER].
  rewrite <- E1 in ER. change (pending (r_nodes s) d n (C d) (dp_set_lock _ c)) with (pending (r_nodes s) d n (C d) c) in *.
  wp_step. eapply in_cookie_wp; [cbn; by rewrite lookup_insert_eq|]. wp_step. cbn [dp_lock dp_pos dp_name dp_set_lock].
  wp_step. eapply (set_name_wp (r_nodes s) C d n pn c es _ l1 l2 R ck (Lock 0 (l_s (dp_lock c)))); [done..| |].
  { cbn. by rewrite lookup_insert_eq. }
  intros nm Hnm. cbn beta. cbn [r_cookies rset_cookies]. rewrite !insert_insert_eq.
  wp_step. unfold UNLOCK_cookie. eapply in_cookie_wp; [cbn; by rewrite lookup_insert_eq|]. apply wp_zoom. eapply wp_mono; [by apply UNLOCK_wp|].
  cbn beta. intros [] lk ->. cbn [r_cookies rset_cookies]. rewrite insert_insert_eq.
  wp_step. eapply (UNLOCK_ns_wp ns _ C (s_set_lock (Lock 0 (l_s (rs_lock sp))) sp)); [by apply (filesys_ext ns _ _ C _ Hfy1)|done|].
  intros l -> _. cbn beta. wp_step. split; [done|]. split; [done|].
  exists (DirPos (Lock 1 (l_s (dp_lock c))) (dp_pos c + len es) nm). split; [|split; [done|split; [cbn; unfold len; lia|by apply Hnm]]].
  unfold s2. cbn [r_spaces rset_spaces rset_cookies r_nodes r_cookies r_host r_rand]. rewrite insert_insert_eq.
  assert (s_set_lock (Lock 1 (l_s (rs_lock (s_set_lock (Lock 0 (l_s (rs_lock sp))) sp)))) (s_set_lock (Lock 0 (l_s (rs_lock sp))) sp) = sp) as ->.
  { destruct sp as [? ? ? ? [lc ls] ?]. cbn in *. by subst lc. }
  rewrite insert_id by apply Hfy. by destruct s.
Qed.
