(* ===== verification/RootfsSpec.v ===== *)
(** * RootfsSpec: what the root file system promises (rootfs.c)

    Over the trees of RootfsTree.v: creating puts a node in its place and says
    why when it does not; a link is found and read back; reading a directory
    shows every entry once, in order, whatever happens between the reads. *)

From S2P Require Import Prelude Bytes Compat Host SkipList Kernel Links Vnode VnodeOps Descriptors Paths Rootfs RootfsTree.
Local Open Scope Z_scope.

(** C36. [do_create] answers ENOTDIR for a node that is no directory, ENOENT
    for a removed one and EEXIST for [.], [..] and a name that is there, with
    nothing changed; otherwise it returns a new node with the next number, in
    its place in the sorted, doubly linked list of the directory, findable by
    number, and the rest of the tree as it was. *)
Theorem do_create_exact ns dir d name mode s C sp (Hfy : filesys ns s C sp) (Hd : r_nodes s !! dir = Some d)
    (Hname : len name < FILE_NAME_LENGTH) (Hnum : 0 <= rs_nxvnid sp < 2 ^ 63 - 1) :
  wp (do_create ns dir name mode) (create_post ns dir name mode s C sp) s.
Proof. apply (do_create_wp ns dir d name mode s C sp Hfy Hd); unfold in_i64; [lia|lia|done]. Qed.

(** C38. A symbolic link that is made is found under its name, its number gives
    the same node, and reading it gives the path it was made with, cut to the
    buffer, and its full length. *)
Theorem symlink_round_trip ns dir d name path bufsize s C sp (Hfy : filesys ns s C sp) (Hlock : l_c (rs_lock sp) = 1)
    (Hd : r_nodes s !! dir = Some d) (Hdir : MY_S_ISDIR (rn_mode d) = true) (Hrem : rn_removed d = false)
    (Hnew : name ∉ [dot] :: [dot; dot] :: names (r_nodes s) (C dir)) (Hname : len name < FILE_NAME_LENGTH)
    (Hnum : 0 <= rs_nxvnid sp < 2 ^ 63 - 1) (Hbuf : 0 <= bufsize) :
  wp (link_and_read ns dir name path bufsize)
    (fun r _ => exists p, r = (0, Some p, (0, Some p), (0, len path, readable path bufsize))) s.
Proof. apply (link_and_read_wp ns dir d name path bufsize s C sp); unfold in_i64; try done; lia. Qed.

(** C37. [rootfs_readdir] returns the entries its cookie has still to show, in
    order, as many as are asked for and have room, and leaves the cookie with
    the others still to show; nothing else changes.  What a cookie has to show
    is [.], [..] and the names after the last one shown, so that entries made
    or removed between two reads neither hide nor repeat any other. *)
Theorem readdir_exact ns d n pn ck c num bufsize s C sp (Hfy : filesys ns s C sp) (Hlock : l_c (rs_lock sp) = 1)
    (Hd : r_nodes s !! d = Some n) (Hup : r_nodes s !! rn_parent n = Some pn)
    (Hck : r_cookies s !! ck = Some c) (Hclock : l_c (dp_lock c) = 1) (Hpos : 0 <= dp_pos c) :
  wp (rootfs_readdir ns (Some d) (Some ck) num bufsize) (readdir_post d n ck c num bufsize s C) s.
Proof. by apply (readdir_wp ns d n pn ck c num bufsize s C sp). Qed.

(** ** A small file system: its root at 10, its space at 20 *)

Definition no_keys : SkipList rkey * host :=
  match NewSL [] NO_DUPLICATES (Host 7 0 0 1000 [] []) with
  | Done (Some l, h) => (l, h)
  | _ => (SL ∅ 0 0 0 0 [], Host 0 0 0 0 [] [])
  end.
Definition sample_root : rnode := RNode Null false 20 1 10 7 0 0 (Z.lor MY_S_IFDIR 0x1FF) None None None Null.
Definition sample_space : rspace := RSpace 5 0 10 1 (Lock 1 (Sem 0)) no_keys.1.
Definition sample_cookie : dirpos := DirPos (Lock 1 (Sem 0)) 0 [].
Definition sample : rstate := RState {[10 := sample_root]} {[20 := sample_space]} {[30 := sample_cookie]} [] no_keys.2.

Lemma no_keys_ok : holds Rootfs.compare_vnode no_keys.1 [] /\ allocated no_keys.1 no_keys.2 /\ allows_dup no_keys.1 = false /\ no_oom no_keys.2.
Proof.
  pose proof (new_spec Rootfs.compare_vnode [] NO_DUPLICATES (Host 7 0 0 1000 [] []) eq_refl) as H.
  unfold wp in H. unfold no_keys. destruct (NewSL _ _ _) as [[r h0]| |] eqn:E; [|by destruct H|by destruct H].
  destruct H as (l0 & -> & Hl0 & Ha0 & Hf). cbn. split_and!; [done|done|unfold allows_dup; by rewrite Hf|].
  apply (f_equal (fun o => match o with Done (_, h) => h_oom h | _ => [true] end)) in E. by vm_compute in E.
Qed.

Lemma sample_ok : filesys 20 sample (fun _ => []) sample_space.
Proof.
  destruct no_keys_ok as (Hh & Ha & Hd & Hm). split; try done.
  - unfold tree_of, sample. cbn [r_nodes]. rewrite !map_fmap_singleton. split; try done.
    + intros d. apply linked_nil.
    + intros d h [<- <-]%lookup_singleton_Some. done.
    + intros d c Hc. by apply elem_of_nil in Hc.
    + intros d. constructor.
  - exists []. split; [done|]. intros k. rewrite elem_of_nil. split; [done|].
    intros (n & Hn & _ & _ & Hne). cbn in Hn, Hne. apply lookup_singleton_Some in Hn as [Hn _]. done.
  - intros p n Hn _. cbn in Hn. apply lookup_singleton_Some in Hn as [<- <-]. done.
  - intros p Hp. cbn in Hp. rewrite dom_singleton_L in Hp. apply elem_of_singleton in Hp as ->. by vm_compute.
Qed.

(** Two links in the root, made in the wrong order. *)
Definition after {A} (m : RM A) (s : rstate) : rstate := match m s with Done (_, s') => s' | _ => s end.
Definition sample_1 : rstate := after (do_create 20 10 [x62] MY_S_IFLNK) sample.
Definition sample_2 : rstate := after (do_create 20 10 [x61] MY_S_IFLNK) sample_1.

Lemma create_sample name s C sp d :
  filesys 20 s C sp -> r_nodes s !! 10 = Some d -> MY_S_ISDIR (rn_mode d) = true -> rn_removed d = false ->
  (name ∉ [dot] :: [dot; dot] :: names (r_nodes s) (C 10)) -> len name < FILE_NAME_LENGTH -> 0 <= rs_nxvnid sp < 2 ^ 63 - 1 ->
  exists p, created 20 10 name MY_S_IFLNK s C sp p (after (do_create 20 10 name MY_S_IFLNK) s).
Proof.
  intros Hfy Hd Hm Hr Hn Hl Hx. pose proof (do_create_wp 20 10 d name MY_S_IFLNK s C sp Hfy Hd) as H.
  apply wp_done in H as (r & s' & E & d' & Hd' & Hpost); [|unfold in_i64; lia|unfold in_i64; lia|done].
  assert (d' = d) as -> by congruence. rewrite Hm, Hr in Hpost. cbn [negb] in Hpost. rewrite decide_False in Hpost by done.
  destruct Hpost as (p & _ & Hc). exists p. unfold after. by rewrite E.
Qed.

Lemma sample_2_ok : exists C sp, filesys 20 sample_2 C sp /\ l_c (rs_lock sp) = 1 /\ (exists p q, C 10 = [p; q]).
Proof.
  destruct (create_sample [x62] sample (fun _ => []) sample_space sample_root sample_ok) as (p & l1 & l2 & sp1 & E & Hp & Hfy & En & El & _ & _ & EK & _);
    [done|done|done|apply (bool_decide_unpack _); by vm_compute|done|done|].
  fold sample_1 in *. symmetry in E. apply app_eq_nil in E as [-> ->].
  assert (exists d, r_nodes sample_1 !! 10 = Some d /\ MY_S_ISDIR (rn_mode d) = true /\ rn_removed d = false) as (d & Hd & Hm & Hr) by (eexists; by vm_compute).
  assert (p = h_brk (r_host sample)) as ->.
  { assert (dom (r_nodes sample_1) = {[10; h_brk (r_host sample)]}) as Ed by (by vm_compute).
    assert (p ∈ dom (r_nodes sample_1)) as Hin.
    { rewrite <- (dom_fmap_L strip), EK, dom_insert_L. set_solver. }
    rewrite Ed in Hin. apply elem_of_union in Hin as [->%elem_of_singleton| ->%elem_of_singleton]; [by vm_compute in Hp|done]. }
  destruct (create_sample [x61] sample_1 _ sp1 d Hfy Hd Hm Hr) as (q & l1 & l2 & sp2 & E2 & Hq & Hfy2 & En2 & El2 & _ & _ & EK2 & _);
    [rewrite upd_dir_eq; apply (bool_decide_unpack _); by vm_compute|done|rewrite En; done|].
  fold sample_2 in *. eexists _, sp2. split; [exact Hfy2|]. split; [by rewrite El2, El|].
  rewrite upd_dir_eq in E2 |- *. destruct l1 as [|x l1]; cbn in E2; [subst l2; eauto|]. injection E2 as <- E2. symmetry in E2. apply app_eq_nil in E2 as [-> ->]. eauto.
Qed.

Lemma do_create_exact_witness : wp (do_create 20 10 [x62] MY_S_IFLNK) (create_post 20 10 [x62] MY_S_IFLNK sample (fun _ => []) sample_space) sample.
Proof. apply (do_create_exact 20 10 sample_root [x62] MY_S_IFLNK sample (fun _ => []) sample_space sample_ok); [done|done|by vm_compute]. Defined.

Lemma symlink_round_trip_witness :
  wp (link_and_read 20 10 [x61; x62] [x2f; x63] 1) (fun r _ => exists p, r = (0, Some p, (0, Some p), (0, 2, [x2f]))) sample.
Proof.
  apply (symlink_round_trip 20 10 sample_root [x61; x62] [x2f; x63] 1 sample (fun _ => []) sample_space sample_ok); try done.
  apply (bool_decide_unpack _). by vm_compute.
Defined.

Lemma readdir_exact_witness :
  exists n C, C 10 <> [] /\ wp (rootfs_readdir 20 (Some 10) (Some 30) 3 100) (readdir_post 10 n 30 sample_cookie 3 100 sample_2 C) sample_2.
Proof.
  destruct sample_2_ok as (C & sp & Hfy & Hl & p & q & EC). eexists _, C. split; [by rewrite EC|].
  eapply (readdir_exact 20 10 _ _ 30 sample_cookie 3 100 sample_2 C sp Hfy Hl); [by vm_compute|by vm_compute|by vm_compute|done|done].
Defined.
