(* ===== verification/RootfsMount.v ===== *)
(** * RootfsMount: the root file system under the vnode layer (rootfs.c, kernel.c)

    The operations the vnode layer calls keep their side of its contract, so
    what VnodeInit.v proves of any file system holds of this one; and walking
    to a name, which calls the vnode layer back, takes one reference to the
    vnode of the node that the tree has there. *)

From stdpp Require Import sorting.
From S2P Require Import Prelude Bytes Compat Host SkipList Kernel Links Vnode VnodeLists VnodeInv VnodeStep VnodeTable VnodeSpec VnodeOps Descriptors Paths Rootfs RootfsTree RootfsSpec VnodeInit.
Local Open Scope Z_scope.

(** ** The contract *)

(** [ns] has every node under its number. *)
Record space_ok (ns : Z) (s : rstate) (sp : rspace) : Prop := {
  sc_keys : exists ks, holds Rootfs.compare_vnode (rs_skiplist sp) ks /\ keyed ns (r_nodes s) (rs_root sp) ks;
  sc_strict : allows_dup (rs_skiplist sp) = false;
  sc_alloc : allocated (rs_skiplist sp) (r_host s);
  sc_unique p q n m : r_nodes s !! p = Some n -> r_nodes s !! q = Some m -> rn_ns n = ns -> rn_ns m = ns -> rn_vnid n = rn_vnid m -> p = q;
}.

(** [L]: the mounted spaces and the counts of their locks. *)
Record sound (L : gmap Z Z) (s : rstate) : Prop := {
  sd_memory : no_oom (r_host s);
  sd_spaces ns c : L !! ns = Some c -> exists sp, r_spaces s !! ns = Some sp /\ l_c (rs_lock sp) = c /\ space_ok ns s sp;
  sd_strings p n : r_nodes s !! p = Some n -> is_Some (L !! rn_ns n) -> rn_name n <> Freed /\ rn_symlink n <> Freed;
}.

(** Only the host has changed. *)
Definition quiet (s s' : rstate) : Prop := s' = rset_host (r_host s') s /\ h_brk (r_host s) <= h_brk (r_host s').
#[export] Instance quiet_order : PreOrder quiet.
Proof. split; [intros []; by split|]. intros s s' s'' [E1 B1] [E2 B2]. split; [by rewrite E2, E1|lia]. Qed.
Lemma quiet_nodes s s' : quiet s s' -> r_nodes s' = r_nodes s /\ r_spaces s' = r_spaces s /\ r_cookies s' = r_cookies s.
Proof. intros [-> _]. done. Qed.

(** The node of a vnode is in its name space and has its number. *)
Definition node_is (addr : Z) (s : rstate) (o : fsname) (d : option Z) : Prop :=
  o.1.1 = addr /\ exists p n, d = Some p /\ r_nodes s !! p = Some n /\ rn_ns n = o.1.2 /\ rn_vnid n = o.2.

(** The kernel's calls take the lock. *)
Definition callable (L : gmap Z Z) (r : bool) : Prop := r = true \/ forall d c, L !! d = Some c -> c = 1.

(** [addr]: the address of [rootfs] in memory; [ops]: of what each registered
    file system has; [root]: of the vnode of the root. *)
Definition rootfs_contract (addr : Z) (ops : gmap Z Z) (root : option Z) (L : gmap Z Z) : contract rstate :=
  Contract rstate (sound L) (fun a d => a = addr /\ is_Some (L !! d)) (node_is addr) (callable L) quiet quiet_order ops root.

Definition rootfs_table : Z -> fs_ops rstate := fun _ => rootfs_core r_host rset_host (fun s => s) (fun s _ => s).
Abbreviation in_rootfs := (Rootfs.in_rootfs r_host rset_host (fun s : rstate => s) (fun s _ => s)).

Lemma in_rootfs_wp {A} (m : RM A) (Q : A -> rstate -> Prop) s : wp m Q s -> wp (in_rootfs m) Q s.
Proof.
  intros H. apply wp_zoom. assert (rset_host (r_host s) s = s) as -> by (by destruct s). eapply wp_mono; [exact H|].
  cbn beta. intros a s'. by destruct s'.
Qed.

Lemma space_host ns s sp h : space_ok ns s sp -> h_brk (r_host s) <= h_brk h -> space_ok ns (rset_host h s) sp.
Proof. intros [S1 S2 S3 S4] Hb. split; try done. intros p Hp. specialize (S3 p Hp). cbn. lia. Qed.
Lemma sound_host L s h : sound L s -> no_oom h -> h_brk (r_host s) <= h_brk h -> sound L (rset_host h s).
Proof.
  intros [S1 S2 S3] Hm Hb. split; [done| |done]. intros ns c Hc. destruct (S2 ns c Hc) as (sp & H1 & H2 & H3). exists sp. split; [done|].
  split; [done|]. by apply space_host.
Qed.

(** The lock around a call of the kernel. *)
Definition kept_by (r : bool) (sp : rspace) : rspace := if r then sp else s_set_lock (Lock 0 (l_s (rs_lock sp))) sp.

Lemma call_lock_wp r ns sp s (Q : unit -> rstate -> Prop) :
  r_spaces s !! ns = Some sp -> r = true \/ l_c (rs_lock sp) = 1 -> Q tt (rset_spaces (<[ns := kept_by r sp]> (r_spaces s)) s) ->
  wp (if r then mret tt else LOCK_ns ns) Q s.
Proof.
  intros Hsp Hl HQ. destruct r; cbn [kept_by] in HQ.
  - rewrite insert_id in HQ by done. wp_step. by destruct s.
  - unfold LOCK_ns. eapply in_space_wp; [done|]. apply wp_zoom. eapply wp_mono; [apply LOCK_wp; by destruct Hl|]. cbn beta. by intros [] l ->.
Qed.
Lemma call_unlock_wp r ns sp sp' s (Q : unit -> rstate -> Prop) :
  r_spaces s !! ns = Some sp' -> rs_lock sp' = rs_lock (kept_by r sp) -> r = true \/ l_c (rs_lock sp) = 1 ->
  Q tt (rset_spaces (<[ns := s_set_lock (rs_lock sp) sp']> (r_spaces s)) s) -> wp (if r then mret tt else UNLOCK_ns ns) Q s.
Proof.
  intros Hsp El Hl HQ. destruct r; cbn [kept_by] in El.
  - rewrite <- El in HQ. assert (s_set_lock (rs_lock sp') sp' = sp') as E by (by destruct sp'). rewrite E, insert_id in HQ by done.
    wp_step. by destruct s.
  - unfold UNLOCK_ns. eapply in_space_wp; [done|]. apply wp_zoom. destruct Hl as [Hl|Hl]; [done|].
    eapply wp_mono; [apply UNLOCK_wp; by rewrite El|]. cbn beta. intros [] l ->. rewrite El. cbn. rewrite <- Hl. by destruct (rs_lock sp).
Qed.

Lemma read_call_wp r ns vnid s sp ks :
  r_spaces s !! ns = Some sp -> holds Rootfs.compare_vnode (rs_skiplist sp) ks -> keyed ns (r_nodes s) (rs_root sp) ks ->
  r = true \/ l_c (rs_lock sp) = 1 -> wp (rootfs_read_vnode ns vnid r) (fun x s' => s' = s /\ found ns vnid s sp x) s.
Proof.
  intros Hsp Hh Hks Hl. unfold rootfs_read_vnode. wp_step. eapply call_lock_wp; [done|done|]. wp_step.
  eapply in_space_wp; [apply lookup_insert_eq|]. apply wp_zoom.
  assert (rs_skiplist (kept_by r sp) = rs_skiplist sp) as -> by (by destruct r).
  eapply wp_mono; [by apply (search_spec Rootfs.compare_vnode _ ks)|].
  cbn beta. intros x sl [-> Hr]. pose proof (keyed_find ns (r_nodes s) (rs_root sp) ks vnid x Hks (eq_sym Hr)) as Hf.
  wp_step. eapply (call_unlock_wp r ns sp); [apply lookup_insert_eq|done|done|]. wp_step. split.
  - cbn. rewrite !insert_insert_eq. assert (s_set_lock (rs_lock sp) (s_set_skiplist (rs_skiplist sp) (kept_by r sp)) = sp) as ->.
    { destruct r, sp; done. }
    rewrite insert_id by done. by destruct s.
  - destruct x as [k|]; [left|right; split; [done|exact Hf]]. destruct Hf as (Hk & n & F1 & F2 & F3 & F4). by exists (rk_vn k), n.
Qed.

(** Removing a node takes it and its number away. *)
Lemma keyed_delete ns N root sl sl' ks p n :
  holds Rootfs.compare_vnode sl ks -> allows_dup sl = false -> keyed ns N root ks -> N !! p = Some n -> rn_ns n = ns ->
  (forall q m, N !! q = Some m -> rn_ns m = ns -> rn_vnid m = rn_vnid n -> q = p) ->
  (exists r, delete_post Rootfs.compare_vnode sl ks (RKey (rn_vnid n) p) r sl') ->
  exists ks', holds Rootfs.compare_vnode sl' ks' /\ keyed ns (delete p N) root ks'.
Proof.
  intros Hh Hd Hk Hp Hns Hu (r & _ & _ & Hr).
  assert (forall k, Rootfs.compare_vnode k (RKey (rn_vnid n) p) = 0 <-> rk_vnid k = rn_vnid n) as Hc.
  { intros k. unfold Rootfs.compare_vnode. cbn. rewrite Z.gtb_ltb. destruct (Z.ltb_spec (rn_vnid n) (rk_vnid k)), (Z.ltb_spec (rk_vnid k) (rn_vnid n)); lia. }
  assert (forall k, k ∈ ks -> rk_vnid k = rn_vnid n -> k = RKey (rn_vnid n) p) as Hkey.
  { intros k (m & M1 & M2 & M3 & _)%Hk E. assert (rk_vn k = p) by (apply (Hu _ m); congruence). destruct k; cbn in *. congruence. }
  destruct Hr as [(_ & (k & Hin & E) & Hh')|(_ & Hno & ->)].
  - assert (k = RKey (rn_vnid n) p) as -> by (apply Hkey; [done|by apply Hc]). eexists. split; [exact Hh'|]. intros k.
    assert (StronglySorted (key_order Rootfs.compare_vnode false) ks) as Hss.
    { destruct Hh as [ps Hh]. pose proof (so_sorted _ _ _ _ Hh) as Hs. by rewrite Hd in Hs. }
    rewrite (remove_key_in Rootfs.compare_vnode ks _ k Hss Hin), (Hk k). split.
    + intros [(m & M1 & M2 & M3 & M4) Hne]. exists m. split; [|done]. rewrite lookup_delete_ne; [done|]. intros ->.
      apply Hne. apply Hkey; [apply Hk; by exists m|]. congruence.
    + intros (m & [Hpk M1]%lookup_delete_Some & M2 & M3 & M4). split; [by exists m|]. intros ->. done.
  - exists ks. split; [done|]. intros k. rewrite (Hk k). split.
    + intros (m & M1 & M2 & M3 & M4). exists m. split; [|done]. rewrite lookup_delete_ne; [done|]. intros ->.
      apply (Hno k); [apply Hk; by exists m|]. apply Hc. congruence.
    + intros (m & [Hpk M1]%lookup_delete_Some & M2). by exists m.
Qed.

Lemma sound_delete L ns sp p n sl ks x s s' :
  sound L s -> r_spaces s !! ns = Some sp -> r_nodes s !! p = Some n -> rn_ns n = ns ->
  holds Rootfs.compare_vnode sl ks -> keyed ns (delete p (r_nodes s)) (rs_root sp) ks -> allows_dup sl = false ->
  dom (nodes sl) ⊆ dom (nodes (rs_skiplist sp)) ->
  r_nodes s' = delete p (r_nodes s) -> r_spaces s' = <[ns := s_set_vnnum x (s_set_skiplist sl sp)]> (r_spaces s) -> r_host s' = r_host s ->
  sound L s'.
Proof.
  intros [S1 S2 S3] Hsp Hp Hns Hh Hk Hd Hdom EN ES EH. split; [by rewrite EH| |].
  - intros d c Hc. destruct (S2 d c Hc) as (sp' & H1 & H2 & [K1 K2 K3 K4]). rewrite ES. destruct (decide (d = ns)) as [->|Hne].
    + assert (sp' = sp) as -> by congruence. eexists. split; [by rewrite lookup_insert_eq|]. split; [exact H2|].
      split; [by exists ks; rewrite EN|done|intros q Hq%Hdom; rewrite EH; by apply K3|].
      rewrite EN. intros q z m m' [_ Hq]%lookup_delete_Some [_ Hz]%lookup_delete_Some. by apply K4.
    + exists sp'. rewrite lookup_insert_ne by done. split; [done|]. split; [done|]. split; [|done|by rewrite EH|].
      * destruct K1 as (ks0 & B1 & B2). exists ks0. split; [done|]. intros k. rewrite (B2 k), EN.
        split; [intros (m & M1 & M2 & M3); exists m; rewrite lookup_delete_ne by congruence; done|].
        intros (m & [_ M1]%lookup_delete_Some & M2). by exists m.
      * rewrite EN. intros q z m m' [_ Hq]%lookup_delete_Some [_ Hz]%lookup_delete_Some. by apply K4.
  - rewrite EN. intros q m [_ Hq]%lookup_delete_Some. by apply (S3 q).
Qed.

Lemma free_str_wp c s (Q : unit -> rstate -> Prop) : c <> Freed -> Q tt s -> wp (free_str c) Q s.
Proof. intros Hc HQ. destruct c; [by apply wp_ret|done|by apply wp_ret]. Qed.

Lemma remove_vnode_wp L ns p n r s (Q : Z -> rstate -> Prop) :
  callable L r -> sound L s -> is_Some (L !! ns) -> r_nodes s !! p = Some n -> rn_ns n = ns ->
  (forall s', sound L s' -> r_nodes s' = delete p (r_nodes s) -> r_host s' = r_host s -> Q 0 s') ->
  wp (rootfs_remove_vnode ns (Some p) r) Q s.
Proof.
  intros Hcl Hs Hns Hp En HQ. pose proof Hns as [c Hc]. destruct (sd_spaces _ _ Hs ns c Hc) as (sp & Hsp & Hl & Hok).
  destruct (sc_keys _ _ _ Hok) as (ks & Hh & Hk). assert (r = true \/ l_c (rs_lock sp) = 1) as Hlock by (destruct Hcl as [|Hcl]; [by left|right; rewrite Hl; by apply (Hcl ns)]).
  assert (rn_name n <> Freed /\ rn_symlink n <> Freed) as [F1 F2] by (apply (sd_strings _ _ Hs p n); [done|by rewrite En]).
  unfold rootfs_remove_vnode. wp_step. wp_step. wp_step. eapply call_lock_wp; [done|done|]. cbn beta.
  wp_step. eapply get_node_wp; [done|]. wp_step. eapply in_space_wp; [apply lookup_insert_eq|]. apply wp_zoom.
  assert (rs_skiplist (kept_by r sp) = rs_skiplist sp) as -> by (by destruct r).
  eapply wp_mono; [by apply (delete_spec Rootfs.compare_vnode _ ks)|]. cbn beta. intros x sl Hd.
  destruct (keyed_delete ns (r_nodes s) (rs_root sp) (rs_skiplist sp) sl ks p n) as (ks' & Hh' & Hk'); try done.
  { apply Hok. } { intros q m Hq E1 E2. by apply (sc_unique _ _ _ Hok q p m n). } { by exists x. }
  destruct Hd as (Hf & Hdom & _). wp_step. eapply (call_unlock_wp r ns sp); [apply lookup_insert_eq|done|done|]. cbn beta.
  wp_step. eapply in_space_wp; [apply lookup_insert_eq|].
  wp_step. unfold atomic_add. wp_step. wp_step. wp_step. wp_step. wp_step. wp_step. eapply get_node_wp; [done|].
  wp_step. apply free_str_wp; [done|]. wp_step. apply free_str_wp; [done|].
  wp_step. unfold free_node. wp_step. wp_step. apply HQ; [|done..].
  eapply (sound_delete L ns sp p n sl ks'); try done; [unfold allows_dup; rewrite Hf; apply Hok|]. cbn. rewrite !insert_insert_eq.
  f_equal. by destruct r, sp.
Qed.

(** The operations of the root file system keep the contract. *)
#[export] Instance rootfs_keeps addr ops root L : FileSystems r_host rset_host rootfs_table (rootfs_contract addr ops root L).
Proof.
  split.
  - done.
  - intros s Hs. exact (sd_memory L s Hs).
  - intros s h. apply sound_host.
  - done.
  - by intros s h.
  - by left.
  - intros a d num r s Hcl Hs [-> [c Hc]]. apply in_rootfs_wp. destruct (sd_spaces _ _ Hs d c Hc) as (sp & Hsp & Hl & Hok).
    destruct (sc_keys _ _ _ Hok) as (ks & Hh & Hk). eapply wp_mono; [eapply (read_call_wp r d num s sp ks); try done; destruct Hcl as [|Hcl]; [by left|right; rewrite Hl; by apply (Hcl d)]|].
    cbn beta. intros x s' [-> Hr]. split; [split; [done|split; [done|split; [done|intros _; apply quiet_order]]]|].
    intros E. destruct Hr as [(p & n & -> & Hp & H1 & H2 & _)|[-> _]]; [|done]. cbn. split; [done|]. by exists p, n.
  - intros a d num node r s _ Hs _ _. apply (in_rootfs_wp (rootfs_write_vnode d node r)). apply wp_ret.
    split; [done|split; [cbn; lia|split; [done|intros _; apply quiet_order]]].
  - intros a d num node r s Hcl Hs [-> Hd] (_ & p & n & -> & Hp & H1 & H2). cbn in H1, H2. apply in_rootfs_wp. eapply (remove_vnode_wp L d p n); [exact Hcl|exact Hs|exact Hd|exact Hp|exact H1|].
    intros s' Hs' EN EH. split; [done|]. split; [by rewrite EH|]. split; [|done]. intros [[a' d'] num'] x Hne (E & q & m & -> & Hq & M1 & M2).
    cbn in E. split; [done|]. exists q, m. split; [done|]. rewrite EN, lookup_delete_ne; [done|]. intros <-. apply Hne. cbn in *. congruence.
Qed.

(** ** Through the vnode layer *)

Section mounted.
Context (addr : Z) (ops : gmap Z Z) (root : option Z) (NB : gmap Z nspace) (n : nat).
Abbreviation kstate := (Vnode.kstate (X := rstate)).
Abbreviation stands L := (VnodeSpec.stands r_host (rootfs_contract addr ops root L) NB n).
Abbreviation get_vnode := (Vnode.get_vnode r_host rset_host rootfs_table).
Abbreviation in_fs := (Rootfs.in_fs r_host rset_host (fun s : rstate => s) (fun s _ => s)).

Lemma in_fs_wp {A} (m : RM A) (Q : A -> kstate -> Prop) s :
  wp m (fun a x => Q a (KS (k_layer s) x)) (k_ext s) -> wp (in_fs m) Q s.
Proof. intros H. unfold Rootfs.in_fs, in_ext. apply wp_zoom. by apply in_rootfs_wp. Qed.

(** The file system's own work between two calls of the layer. *)
Lemma stands_change L L' s A x :
  stands L s A -> (forall ns, is_Some (L !! ns) -> is_Some (L' !! ns)) -> sound L' x ->
  (forall q i, ids (r_nodes (k_ext s)) q = Some i -> ids (r_nodes x) q = Some i) ->
  h_brk (r_host (k_ext s)) <= h_brk (r_host x) -> stands L' (KS (k_layer s) x) A.
Proof.
  intros (B & [I1 I2 I3 I4 I5 I6 I7 I8 [P1 P2] I10] & Hn) HL Hs EN Hb. exists B. split; [|done]. split; cbn; try done.
  - intros p Hp. specialize (I4 p Hp). cbn in I4. lia.
  - split; [|exact P2]. intros p ns Hns. destruct (P1 p ns Hns) as (a & Ha & -> & Hd). exists addr. split; [done|]. split; [done|]. by apply HL.
  - intros q v o Hq _ Ho. destruct (I10 q v o Hq ltac:(done) Ho) as (E & p & m & H1 & H2). split; [done|].
    destruct (proj2 (ids_spec (r_nodes x) p o.1.2 o.2)) as (m' & H3); [|by exists p, m'].
    apply EN, ids_spec. by exists m.
Qed.

Lemma sound_lock L ns sp l s :
  sound L s -> is_Some (L !! ns) -> r_spaces s !! ns = Some sp ->
  sound (<[ns := l_c l]> L) (rset_spaces (<[ns := s_set_lock l sp]> (r_spaces s)) s).
Proof.
  intros [S1 S2 S3] [c0 Hns] Hsp. split; [done| |].
  - intros d c. cbn. destruct (decide (d = ns)) as [->|Hne].
    + rewrite !lookup_insert_eq. intros [= <-]. destruct (S2 ns c0 Hns) as (sp' & H1 & H2 & [K1 K2 K3 K4]).
      assert (sp' = sp) as -> by congruence. eexists. split; [done|]. split; [done|]. by split.
    + rewrite !lookup_insert_ne by done. intros Hd. destruct (S2 d c Hd) as (sp' & H1 & H2 & [K1 K2 K3 K4]). exists sp'. split; [done|]. by split.
  - intros p m Hp Hm. apply (S3 p m Hp). destruct (decide (ns = rn_ns m)) as [->|Hne]; [by eexists|]. by rewrite lookup_insert_ne in Hm.
Qed.

(** One more reference to the vnode [k], whose node is [t]. *)
Definition taken (k : Z * Z) (t : Z) (A A' : table) : Prop :=
  match A !! k with
  | Some e => e_data e = Some t /\ A' = <[k := Entry (e_refs e + 1) (e_removed e) (e_data e) (e_mounted e) (e_at e)]> A
  | None => exists A0 q, evicted A A0 /\ A' = <[k := Entry 1 false (Some t) None q]> A0
  end.

Lemma node_unique L ns s p q m m' :
  sound L s -> is_Some (L !! ns) -> r_nodes s !! p = Some m -> r_nodes s !! q = Some m' -> rn_ns m = ns -> rn_ns m' = ns -> rn_vnid m = rn_vnid m' -> p = q.
Proof. intros Hs [c Hc] Hp Hq E1 E2 E3. destruct (sd_spaces _ _ Hs ns c Hc) as (sp & _ & _ & Hok). by apply (sc_unique _ _ _ Hok p q m m'). Qed.

Lemma get_node_vnode L id p nsp t v sp s A :
  stands L s A -> mounted_at NB id p nsp -> r_nodes (k_ext s) !! t = Some v -> rn_ns v = ns_data nsp ->
  r_spaces (k_ext s) !! ns_data nsp = Some sp -> (t = rs_root sp -> is_Some (A !! (id, rn_vnid v))) -> (size (VnodeSpec.held A) < n)%nat ->
  wp (get_vnode id (rn_vnid v)) (fun r s' => r = (0, Some t) /\ quiet (k_ext s) (k_ext s') /\
    exists A', taken (id, rn_vnid v) t A A' /\ stands L s' A') s.
Proof.
  intros Hst Hm Ht Hv Hsp Hroot Hsz. pose proof Hst as (B & Hi & _). pose proof (iv_good _ _ _ _ _ _ _ _ _ Hi) as Hs.
  pose proof Hm as (Hns & Eid & _). destruct (sp_mounted _ _ (iv_spaces _ _ _ _ _ _ _ _ _ Hi) p nsp Hns) as (a & Ha & -> & Hd). cbn in Ha, Hs.
  eapply wp_mono; [exact (run_cmd_wp r_host rset_host rootfs_table _ NB n (Get id (rn_vnid v)) s A Hst (fun _ => Hsz))|].
  intros r s' (A' & Hpost & Hst'). cbn [step] in Hpost. unfold load_post in Hpost. unfold taken. destruct (A !! (id, rn_vnid v)) as [e|] eqn:E.
  - destruct Hpost as (E1 & E2 & E3 & ->).
    destruct (proj2 (inv_tended r_host _ NB s B A Hi) (id, rn_vnid v) e (addr, ns_data nsp, rn_vnid v) E) as (_ & q & m & Hq & Hm1 & Hm2 & Hm3).
    { by exists p, nsp, addr. }
    cbn in Hm2, Hm3. assert (q = t) as -> by (apply (node_unique L (ns_data nsp) (k_ext s) q t m v); congruence).
    destruct r as [r1 r2]; cbn in *. split; [congruence|]. split; [rewrite E3; apply quiet_order|]. eexists. split; [split; [congruence|done]|done].
  - destruct Hpost as (Hf & A0 & Hev & [(_ & _ & Hno)|(p' & ns' & a & xr & d' & Hm' & Ha' & Hfr & Hrd & Hr)]); [by destruct (Hno p nsp)|].
    destruct Hm' as (Hns' & Eid' & _). pose proof (co_tab _ _ _ _ (iv_core _ _ _ _ _ _ _ _ _ Hi)) as [_ _ Htab].
    pose proof (Htab p nsp Hns) as G1. pose proof (Htab p' ns' Hns') as G2. rewrite Eid in G1. rewrite Eid', G1 in G2. injection G2 as <-.
    assert (ns' = nsp) as -> by congruence.
    destruct Hfr as (Hsr & _ & _ & Hq). specialize (Hq eq_refl). cbn in Hsr, Hq. destruct (quiet_nodes _ _ Hq) as (EN & ES & _).
    destruct Hd as [c Hc]. destruct (sd_spaces _ _ Hsr _ c Hc) as (sp' & Hsp' & _ & Hok). rewrite ES in Hsp'. assert (sp' = sp) as -> by congruence.
    destruct (sc_keys _ _ _ Hok) as (ks & Hh & Hk).
    assert (wp (op_read_vnode (rootfs_table a) (ns_data nsp) (rn_vnid v) true) (fun r s' => found (ns_data nsp) (rn_vnid v) xr sp r) xr) as Hw.
    { apply in_rootfs_wp. eapply wp_mono; [eapply (read_space_wp _ _ xr sp ks); [by rewrite ES|done|done]|]. cbn beta. by intros ? ? [_ ?]. }
    unfold wp in Hw. rewrite Hrd in Hw. assert ((r.1, d') = (0, Some t)) as [= Er ->].
    { destruct Hw as [(q & m & -> & Hq' & M1 & M2 & _)|[_ Hno]].
      - rewrite EN in Hq'. assert (q = t) as -> by (apply (node_unique L (ns_data nsp) (k_ext s) q t m v); try done; try congruence; by exists c). done.
      - assert (t = rs_root sp) as Et by (apply (Hno t v); [by rewrite EN|done|done]). destruct (Hroot Et). congruence. }
    destruct r as [r1 r2]; cbn [fst snd] in *. destruct Hr as [(_ & -> & z & ->)|(Hne & _)]; [|congruence]. split; [congruence|].
    split; [by apply Hf|]. eexists. split; [by exists A0, z|done].
Qed.

Definition copied_path (path : option (list byte)) : Z * option (list byte) :=
  match path with
  | None => (0, None)
  | Some path =>
      if len path =? 0 then (ENOENT, None)
      else if (len path >=? MAXPATHLEN) || long_name (length path) path then (ENAMETOOLONG, None)
      else (0, Some (if match last path with Some c => is_slash c | None => false end then path ++ [dot] else path))
  end.

Lemma new_path_wp path s (Q : Z * option (list byte) -> kstate -> Prop) :
  no_oom (r_host (k_ext s)) ->
  (forall h, no_oom h -> h_brk (r_host (k_ext s)) <= h_brk h -> Q (copied_path path) (KS (k_layer s) (rset_host h (k_ext s)))) ->
  wp (new_path r_host rset_host path) Q s.
Proof.
  intros Hm HQ. assert (Q (copied_path path) s) as HQ0.
  { specialize (HQ (r_host (k_ext s)) Hm ltac:(lia)). destruct s as [l x]. by destruct x. }
  unfold new_path, copied_path in *. destruct path as [path|]; [|by wp_step].
  destruct (len path =? 0); [by wp_step|]. destruct (len path >=? MAXPATHLEN); [by wp_step|]. cbn [orb] in *.
  destruct (long_name (length path) path); [by wp_step|]. wp_step. unfold k_malloc, in_ext. apply wp_zoom. apply wp_zoom.
  unfold wp, malloc. unfold no_oom in Hm. rewrite Hm. cbn. apply HQ; [done|cbn; lia].
Qed.

(** The node at the end of one step from [base]. *)
Definition walk_target (N : gmap Z rnode) (C : Z -> list Z) (base : Z) (b : rnode) (file : list byte) : option Z :=
  if decide (file = [dot]) then Some base else if decide (file = [dot; dot]) then Some (rn_parent b)
  else List.find (is_name N file) (C base).
Definition is_dots (file : list byte) : bool := bool_decide (file = [dot] \/ file = [dot; dot]).

Definition walk_post (sp : rspace) (C : Z -> list Z) (base : Z) (b : rnode) (file : list byte) (fred : bool)
    (s : rstate) (A : table) (r : Z * option (list byte) * Z) (A' : table) : Prop :=
  if negb (MY_S_ISDIR (rn_mode b)) then r = (ENOTDIR, None, 0) /\ A' = A
  else if rn_removed b then r = (ENOENT, None, 0) /\ A' = A
  else match walk_target (r_nodes s) C base b file with
  | None => r = (ENOENT, None, 0) /\ A' = A
  | Some t => exists v, r_nodes s !! t = Some v /\
      if negb (is_dots file) && MY_S_ISLNK (rn_mode v) && fred
      then r = (copied_path (str_of (rn_symlink v)), 0) /\ A' = A
      else r = (0, None, rn_vnid v) /\ taken (rs_nsid sp, rn_vnid v) t A A'
  end.

Lemma unlock_quiet ns sp s s2 :
  r_spaces s !! ns = Some sp -> l_c (rs_lock sp) = 1 ->
  let locked := rset_spaces (<[ns := s_set_lock (Lock 0 (l_s (rs_lock sp))) sp]> (r_spaces s)) s in
  quiet locked s2 ->
  quiet s (rset_spaces (<[ns := s_set_lock (Lock 1 (l_s (rs_lock sp))) (s_set_lock (Lock 0 (l_s (rs_lock sp))) sp)]> (r_spaces s2)) s2).
Proof.
  intros Hsp Hl locked [-> Hb]. unfold quiet, locked in *. cbn in *. split; [|done].
  unfold rset_spaces, rset_host. cbn. f_equal. by apply (unlocked ns sp s).
Qed.

Lemma filesys_quiet ns s C sp s' : filesys ns s C sp -> quiet s s' -> no_oom (r_host s') -> filesys ns s' C sp.
Proof. intros Hfy [-> Hb] Hm. by apply filesys_host. Qed.

(** What a walk needs: the node it ends at is in the same space, and the root
    is kept in memory, as it is not in the skip list. *)
Definition walkable (s : kstate) (C : Z -> list Z) (sp : rspace) (ns base : Z) (b : rnode) (file : list byte) (A : table) : Prop :=
  forall t, walk_target (r_nodes (k_ext s)) C base b file = Some t ->
    exists v, r_nodes (k_ext s) !! t = Some v /\ rn_ns v = ns /\ (t = rs_root sp -> is_Some (A !! (rs_nsid sp, rn_vnid v))).

(** With the lock held. *)
Section locked.
Context (L : gmap Z Z) (p : Z) (nsp : nspace) (C : Z -> list Z) (sp : rspace) (s : kstate) (A : table).
Context (Hst : stands L s A) (Hm : mounted_at NB (rs_nsid sp) p nsp) (Hfy : filesys (ns_data nsp) (k_ext s) C sp).
Context (Hsz : (size (VnodeSpec.held A) < n)%nat).
Abbreviation get_vnode := (Vnode.get_vnode r_host rset_host rootfs_table).
Abbreviation walk_get := (Rootfs.walk_get r_host rset_host (fun s => s) (fun s _ => s) rootfs_table).
Abbreviation walk_locked := (Rootfs.walk_locked r_host rset_host (fun s => s) (fun s _ => s) rootfs_table).

(** [t] can be got by its number. *)
Definition gettable (t : Z) (v : rnode) : Prop :=
  r_nodes (k_ext s) !! t = Some v /\ rn_ns v = ns_data nsp /\ (t = rs_root sp -> is_Some (A !! (rs_nsid sp, rn_vnid v))).

Definition got (t : Z) (v : rnode) (s' : kstate) : Prop :=
  quiet (k_ext s) (k_ext s') /\ exists A', taken (rs_nsid sp, rn_vnid v) t A A' /\ stands L s' A'.

Lemma node_wp q v s' (Q : rnode -> kstate -> Prop) :
  r_nodes (k_ext s) !! q = Some v -> quiet (k_ext s) (k_ext s') -> Q v s' -> wp (in_fs (get_node q)) Q s'.
Proof.
  intros Hv Hq HQ. apply in_fs_wp. destruct (quiet_nodes _ _ Hq) as (EN & _). eapply get_node_wp; [by rewrite EN|]. by destruct s'.
Qed.

Lemma get_wp t v : gettable t v -> wp (get_vnode (rs_nsid sp) (rn_vnid v)) (fun r s' => r = (0, Some t) /\ got t v s') s.
Proof.
  intros (Ht & Hv & Hr). eapply wp_mono; [apply (get_node_vnode L (rs_nsid sp) p nsp t v sp s A); try done; apply Hfy|].
  cbn beta. by intros r s' (-> & Hq & HA).
Qed.

Lemma walk_get_wp t v :
  gettable t v -> wp (walk_get (rs_nsid sp) (rn_vnid v)) (fun r s' => r = (0, None, rn_vnid v) /\ got t v s') s.
Proof.
  intros Hg. unfold Rootfs.walk_get. wp_step. eapply wp_mono; [by apply (get_wp t v)|]. cbn beta. intros r s' (-> & Hq & HA).
  cbn [negb Z.eqb]. wp_step. wp_step. wp_step. destruct Hg as (Hv & _). eapply node_wp; [exact Hv|exact Hq|]. by wp_step.
Qed.

Lemma copied_path_fails path err np : copied_path path = (err, np) -> (if err =? 0 then np else None) = np.
Proof.
  unfold copied_path. destruct path; [|by intros [= <- <-]]. destruct (_ =? 0); [by intros [= <- <-]|]. destruct (_ || _); by intros [= <- <-].
Qed.

Lemma walk_locked_wp base b file fred :
  r_nodes (k_ext s) !! base = Some b -> walkable s C sp (ns_data nsp) base b file A ->
  wp (walk_locked (rs_nsid sp) base b file fred)
    (fun r s' => quiet (k_ext s) (k_ext s') /\ exists A', walk_post sp C base b file fred (k_ext s) A r A' /\ stands L s' A') s.
Proof.
  intros Hb Hwalk. pose proof Hst as (B & Hi & _). pose proof (iv_good _ _ _ _ _ _ _ _ _ Hi) as Hs. cbn in Hs.
  unfold Rootfs.walk_locked, walk_post, walkable, walk_target in *.
  destruct (MY_S_ISDIR (rn_mode b)); cbn [negb]; [|wp_step; split; [apply quiet_order|by exists A]].
  destruct (rn_removed b); [wp_step; split; [apply quiet_order|by exists A]|]. rewrite !strcmp_is. unfold is_dots.
  destruct (decide (file = [dot])) as [->|N1].
  { destruct (Hwalk base eq_refl) as (v & Hv). assert (v = b) as -> by (destruct Hv; congruence). rewrite !bool_decide_true by auto.
    wp_step. eapply wp_mono; [by apply (get_wp base b)|]. cbn beta. intros r s' (-> & Hq & A' & Ht & Hst'). wp_step.
    eapply node_wp; [exact Hb|exact Hq|]. wp_step. split; [done|]. exists A'. split; [|done]. by exists b. }
  rewrite bool_decide_false by done. destruct (decide (file = [dot; dot])) as [->|N2].
  { destruct (Hwalk (rn_parent b) eq_refl) as (v & Hv). rewrite !bool_decide_true by auto.
    wp_step. eapply node_wp; [apply Hv|apply quiet_order|]. eapply wp_mono; [by apply (walk_get_wp (rn_parent b) v)|].
    cbn beta. intros r s' (-> & Hq & A' & Ht & Hst'). split; [done|]. exists A'. split; [|done]. exists v. by destruct Hv. }
  rewrite !bool_decide_false by tauto. cbn [negb andb].
  wp_step. apply in_fs_wp. eapply (lookup_name_wp (r_nodes (k_ext s)) C (fy_tree _ _ _ _ Hfy) base b); [done|exact Hb|].
  assert (KS (k_layer s) (k_ext s) = s) as -> by (by destruct s). destruct (List.find _ (C base)) as [t|] eqn:Et.
  2: { wp_step. split; [apply quiet_order|by exists A]. }
  destruct (Hwalk t eq_refl) as (v & Hv). wp_step. eapply node_wp; [apply Hv|apply quiet_order|]. cbn beta.
  destruct (MY_S_ISLNK (rn_mode v) && fred) eqn:Elk.
  - wp_step. apply new_path_wp; [exact (sd_memory _ _ Hs)|]. intros h Hmem Hbrk. cbn [k_ext k_layer].
    destruct (copied_path (str_of (rn_symlink v))) as [err np] eqn:Ecp. wp_step. rewrite (copied_path_fails _ _ _ Ecp).
    split; [by split|]. exists A. split; [exists v; destruct Hv; by rewrite Elk, Ecp|].
    apply (stands_change L L s); [done|done| |done|done]. by apply sound_host.
  - eapply wp_mono; [by apply (walk_get_wp t v)|]. cbn beta. intros r s' (-> & Hq & A' & Ht & Hst'). split; [done|]. exists A'.
    split; [|done]. exists v. destruct Hv. by rewrite Elk.
Qed.
End locked.

(** The lock is taken and given back. *)
Lemma stands_lock L ns sp l s A :
  stands L s A -> is_Some (L !! ns) -> r_spaces (k_ext s) !! ns = Some sp ->
  stands (<[ns := l_c l]> L) (KS (k_layer s) (rset_spaces (<[ns := s_set_lock l sp]> (r_spaces (k_ext s))) (k_ext s))) A.
Proof.
  intros Hst HL Hsp. pose proof Hst as (B & Hi & _). pose proof (iv_good _ _ _ _ _ _ _ _ _ Hi) as Hs.
  apply (stands_change L); [done| |by apply sound_lock|done|done]. intros d Hd.
  destruct (decide (d = ns)) as [->|Hne]; [rewrite lookup_insert_eq; by eexists|by rewrite lookup_insert_ne].
Qed.

Lemma walk_wp L p nsp base b file fred C sp s A :
  stands L s A -> L !! ns_data nsp = Some 1 -> mounted_at NB (rs_nsid sp) p nsp -> filesys (ns_data nsp) (k_ext s) C sp ->
  r_nodes (k_ext s) !! base = Some b -> walkable s C sp (ns_data nsp) base b file A -> (size (VnodeSpec.held A) < n)%nat ->
  wp (rootfs_walk r_host rset_host (fun s => s) (fun s _ => s) rootfs_table (ns_data nsp) (Some base) file fred)
    (fun r s' => quiet (k_ext s) (k_ext s') /\ filesys (ns_data nsp) (k_ext s') C sp /\
       exists A', walk_post sp C base b file fred (k_ext s) A r A' /\ stands L s' A') s.
Proof.
  intros Hst HL Hm Hfy Hb Hwalk Hsz. pose proof Hst as (B & Hi & _). pose proof (iv_good _ _ _ _ _ _ _ _ _ Hi) as Hs. cbn in Hs.
  assert (l_c (rs_lock sp) = 1) as Hl1.
  { destruct (sd_spaces _ _ Hs _ 1 HL) as (sp' & H1 & H2 & _). pose proof (fy_space _ _ _ _ Hfy). congruence. }
  set (ns := ns_data nsp) in *. unfold rootfs_walk. wp_step. wp_step. wp_step. apply in_fs_wp.
  eapply LOCK_ns_wp; [exact Hfy|exact Hl1|]. intros l -> Hfy0.
  pose proof (stands_lock L ns sp (Lock 0 (l_s (rs_lock sp))) s A Hst ltac:(by eexists) (fy_space _ _ _ _ Hfy)) as Hst0. cbn [l_c] in Hst0.
  set (sp0 := s_set_lock (Lock 0 (l_s (rs_lock sp))) sp) in *. set (x0 := rset_spaces _ (k_ext s)) in *.
  wp_step. apply in_fs_wp. eapply the_space_wp; [apply Hfy0|]. wp_step. apply in_fs_wp. eapply get_node_wp; [exact Hb|]. wp_step.
  eapply wp_mono; [by apply (walk_locked_wp (<[ns := 0]> L) p nsp C sp0 (KS (k_layer s) x0) A Hst0 Hm Hfy0 Hsz base b)|].
  cbn beta. intros r s2 (Hq & A' & Hpost & Hst2). cbn [k_ext] in Hq. pose proof Hst2 as (B2 & Hi2 & _).
  pose proof (iv_good _ _ _ _ _ _ _ _ _ Hi2) as Hs2. cbn in Hs2. destruct (quiet_nodes _ _ Hq) as (_ & ES & _). wp_step. apply in_fs_wp.
  eapply UNLOCK_ns_wp; [apply (filesys_quiet ns x0 C sp0); [exact Hfy0|exact Hq|apply Hs2]|done|].
  intros l -> Hfy3. pose proof (unlock_quiet ns sp (k_ext s) (k_ext s2) (fy_space _ _ _ _ Hfy) Hl1 Hq) as Hq3.
  wp_step. cbn [k_ext]. split; [exact Hq3|]. split; [apply (filesys_quiet ns (k_ext s)); [done|exact Hq3|apply Hs2]|].
  exists A'. split; [done|].
  pose proof (stands_lock (<[ns := 0]> L) ns sp0 (Lock 1 (l_s (rs_lock sp))) s2 A' Hst2) as Hst3.
  cbn [l_c] in Hst3. rewrite insert_insert_eq, (insert_id L ns 1 HL) in Hst3. apply Hst3; [rewrite lookup_insert_eq; by eexists|rewrite ES; apply Hfy0].
Qed.
End mounted.

(** ** Making a node and walking to it *)

(** The same node, its place and its time aside. *)
Definition alike (m m' : rnode) : Prop :=
  rn_name m' = rn_name m /\ rn_removed m' = rn_removed m /\ rn_ns m' = rn_ns m /\ rn_vnid m' = rn_vnid m /\ rn_parent m' = rn_parent m /\
  rn_mode m' = rn_mode m /\ rn_symlink m' = rn_symlink m.

Lemma strip_alike m m' : strip m' = strip m \/ (exists t, strip m' = n_set_mtime t (strip m)) -> alike m m'.
Proof. unfold strip, n_set_mtime, n_set_next, n_set_prev, n_set_head. cbn. intros [E|[t E]]; injection E; done. Qed.

Section made.
Context (ns dir : Z) (name : list byte) (mode : Z) (s : rstate) (C : Z -> list Z) (sp : rspace) (p : Z) (s' : rstate).
Context (Hfy : filesys ns s C sp) (Hmade : created ns dir name mode s C sp p s').

Lemma made_new : exists m, r_nodes s' !! p = Some m /\ strip m = made ns dir name mode s sp.
Proof.
  destruct Hmade as (l1 & l2 & sp' & _ & _ & _ & _ & _ & _ & _ & EK & _).
  assert ((strip <$> r_nodes s') !! p = Some (made ns dir name mode s sp)) as H by (by rewrite EK, lookup_insert_eq).
  rewrite lookup_fmap in H. destruct (r_nodes s' !! p) as [m|]; [|done]. exists m. split; [done|]. by apply (inj Some) in H.
Qed.

Lemma made_old q : q <> p -> match r_nodes s !! q, r_nodes s' !! q with Some m, Some m' => alike m m' | None, None => True | _, _ => False end.
Proof.
  intros Hne. destruct Hmade as (l1 & l2 & sp' & _ & _ & _ & _ & _ & _ & _ & EK & _).
  pose proof (f_equal (fun M => M !! q) EK) as E. cbn beta in E. rewrite lookup_insert_ne, !lookup_fmap in E by done.
  destruct (decide (q = dir)) as [->|Hd]; [rewrite lookup_alter_eq, lookup_fmap in E|rewrite lookup_alter_ne, lookup_fmap in E by done];
    destruct (r_nodes s !! _) as [m|], (r_nodes s' !! _) as [m'|]; try done; apply strip_alike; apply (inj Some) in E; [right; by eexists|by left].
Qed.

Lemma made_ids q : ids (r_nodes s') q = if decide (q = p) then Some (ns, rs_nxvnid sp + 1) else ids (r_nodes s) q.
Proof. destruct Hmade as (l1 & l2 & sp' & _ & _ & _ & _ & _ & _ & _ & EK & _). by rewrite (ids_created _ _ _ _ _ _ q EK). Qed.

Lemma made_fresh q i : ids (r_nodes s) q = Some i -> ids (r_nodes s') q = Some i.
Proof.
  intros Hi. rewrite made_ids, decide_False; [done|]. intros ->. destruct Hmade as (_ & _ & _ & _ & Hp & _). unfold ids in Hi. by rewrite Hp in Hi.
Qed.

(** Making a node keeps the contract. *)
Lemma made_sound c : sound {[ns := c]} s -> l_c (rs_lock sp) = c -> sound {[ns := c]} s'.
Proof.
  intros Hs Hl. assert (forall z i, ids (r_nodes s') z = Some (ns, i) -> z <> p -> ids (r_nodes s) z = Some (ns, i) /\ i <= rs_nxvnid sp) as Hold.
  { intros z i Hi Hne. rewrite made_ids, decide_False in Hi by done. split; [done|]. apply ids_spec in Hi as (m & M1 & M2 & <-).
    by apply (fy_numbers _ _ _ _ Hfy z). }
  destruct Hmade as (l1 & l2 & sp' & _ & _ & Hfy' & _ & El & _). split; [apply Hfy'| |].
  - intros d x [<- <-]%lookup_singleton_Some. exists sp'. split; [apply Hfy'|]. split; [congruence|]. split; [apply Hfy'..|].
    intros q z m m' Hq Hz E1 E2 E3.
    assert (ids (r_nodes s') q = Some (ns, rn_vnid m)) as Hiq by (apply ids_spec; by exists m).
    assert (ids (r_nodes s') z = Some (ns, rn_vnid m)) as Hiz by (apply ids_spec; by exists m').
    destruct (decide (q = p)) as [->|Nq], (decide (z = p)) as [->|Nz]; [done|..].
    + apply Hold in Hiz as [_ Hi]; [|done]. rewrite made_ids, decide_True in Hiq by done. injection Hiq as E. lia.
    + apply Hold in Hiq as [_ Hi]; [|done]. rewrite made_ids, decide_True in Hiz by done. injection Hiz as E. lia.
    + apply Hold in Hiq as [(a & A1 & A2 & A3)%ids_spec _]; [|done]. apply Hold in Hiz as [(b & B1 & B2 & B3)%ids_spec _]; [|done].
      apply (node_unique {[ns := c]} ns s q z a b); try done; [rewrite lookup_singleton_eq; by eexists|congruence].
  - intros q m Hq Hm. destruct (decide (q = p)) as [->|Nq].
    + destruct made_new as (m' & Hm' & E). assert (m' = m) as -> by congruence. injection E as E1 E2 E3 E4 E5 E6 E7 E8 E9 E10.
      by rewrite E1, E10.
    + pose proof (made_old q Nq) as Ho. rewrite Hq in Ho. destruct (r_nodes s !! q) as [m0|] eqn:Hq0; [|done].
      destruct Ho as (-> & _ & E & _ & _ & _ & ->). apply (sd_strings _ _ Hs q m0 Hq0). by rewrite <- E.
Qed.
End made.

Lemma dir_mode perms (m := u32 (Z.lor (Z.land perms (Z.lnot MY_S_IFMT)) MY_S_IFDIR)) : Z.land m MY_S_IFMT = MY_S_IFDIR.
Proof.
  unfold m, u32, uwrap. rewrite <- Z.land_ones by lia. rewrite <- Z.land_assoc, Z.land_lor_distr_l. change (Z.land (Z.ones 32) MY_S_IFMT) with MY_S_IFMT.
  rewrite <- Z.land_assoc, (Z.land_comm (Z.lnot _)), Z.land_lnot_diag, Z.land_0_r. done.
Qed.

Section use.
Context (addr : Z) (ops : gmap Z Z) (root : option Z) (NB : gmap Z nspace) (n : nat).
Abbreviation kstate := (Vnode.kstate (X := rstate)).
Abbreviation stands L := (VnodeSpec.stands r_host (rootfs_contract addr ops root L) NB n).
Abbreviation in_fs := (Rootfs.in_fs r_host rset_host (fun s : rstate => s) (fun s _ => s)).
Abbreviation rootfs_walk := (Rootfs.rootfs_walk r_host rset_host (fun s => s) (fun s _ => s) rootfs_table).

(** Makes a directory and walks to it, as two calls of the kernel. *)
Definition make_and_walk (ns dir : Z) (name : list byte) (perms : Z) (fred : bool) : M kstate (Z * (Z * option (list byte) * Z)) :=
  err ← in_fs (rootfs_mkdir ns (Some dir) name perms);
  r ← rootfs_walk ns (Some dir) name fred;
  mret (err, r).

(** No vnode in memory has a number the name space has not given out. *)
Lemma number_unused L s A p nsp C sp :
  stands L s A -> mounted_at NB (rs_nsid sp) p nsp -> filesys (ns_data nsp) (k_ext s) C sp -> A !! (rs_nsid sp, rs_nxvnid sp + 1) = None.
Proof.
  intros (B & Hi & _) (Hns & Eid & _) Hfy. destruct (A !! _) as [e|] eqn:E; [exfalso|done].
  destruct (sp_mounted _ _ (iv_spaces _ _ _ _ _ _ _ _ _ Hi) p nsp Hns) as (a & Ha & -> & _).
  destruct (proj2 (inv_tended r_host _ NB s B A Hi) _ e (addr, ns_data nsp, rs_nxvnid sp + 1) E) as (_ & q & z & _ & Hq1 & Hq2 & Hq3);
    [by exists p, nsp, addr|]. cbn in Hq2, Hq3. pose proof (fy_numbers _ _ _ _ Hfy q z Hq1 Hq2). lia.
Qed.

Lemma made_target ns dir d name mode s C sp p s' l1 l2 d' :
  filesys ns s' (upd_dir dir (l1 ++ p :: l2) C) sp -> (name ∉ [[dot]; [dot; dot]]) ->
  (exists m, r_nodes s' !! p = Some m /\ strip m = made ns dir name mode s d) ->
  walk_target (r_nodes s') (upd_dir dir (l1 ++ p :: l2) C) dir d' name = Some p.
Proof.
  intros Hfy Hn (m & Hm & E). rewrite !elem_of_cons in Hn. unfold walk_target. rewrite !decide_False by tauto.
  apply (find_unique _ _ dir l1 p l2); [apply Hfy|apply upd_dir_eq|]. injection E as E1 _ _ _ _ _ _ _ _ _.
  unfold name_at, name_of. by rewrite Hm, E1.
Qed.

Lemma make_and_walk_wp p0 nsp dir d name perms fred C sp s A :
  let ns := ns_data nsp in let num := rs_nxvnid sp + 1 in
  stands {[ns := 1]} s A -> mounted_at NB (rs_nsid sp) p0 nsp -> filesys ns (k_ext s) C sp ->
  r_nodes (k_ext s) !! dir = Some d -> MY_S_ISDIR (rn_mode d) = true -> rn_removed d = false ->
  (name ∉ [dot] :: [dot; dot] :: names (r_nodes (k_ext s)) (C dir)) -> len name < FILE_NAME_LENGTH ->
  0 <= rs_nxvnid sp < 2 ^ 63 - 1 -> (size (VnodeSpec.held A) < n)%nat ->
  wp (make_and_walk ns dir name perms fred) (fun r s' => r = (0, (0, None, num)) /\
    exists l1 l2 p m A0 sp' q, C dir = l1 ++ l2 /\ filesys ns (k_ext s') (upd_dir dir (l1 ++ p :: l2) C) sp' /\
      r_nodes (k_ext s') !! p = Some m /\ rn_name m = Str name /\ rn_vnid m = num /\ rn_parent m = dir /\ MY_S_ISDIR (rn_mode m) = true /\
      evicted A A0 /\ stands {[ns := 1]} s' (<[(rs_nsid sp, num) := Entry 1 false (Some p) None q]> A0)) s.
Proof.
  intros ns num Hst Hm Hfy Hd Hdir Hrem Hname Hlen Hnum Hsz. pose proof Hst as (B & Hi & _).
  pose proof (iv_good _ _ _ _ _ _ _ _ _ Hi) as Hs. cbn in Hs.
  assert (l_c (rs_lock sp) = 1) as Hl1.
  { destruct (sd_spaces _ _ Hs ns 1 (lookup_singleton_eq _ _)) as (sp' & H1 & H2 & _). pose proof (fy_space _ _ _ _ Hfy). congruence. }
  unfold make_and_walk. wp_step. apply in_fs_wp. eapply wp_mono; [apply (mkdir_wp ns dir d name perms (k_ext s) C sp); unfold in_i64; try done; lia|].
  cbn beta. intros err x1 (r & (d0 & Hd0 & Hpost) & ->). assert (d0 = d) as -> by congruence. rewrite Hdir, Hrem, decide_False in Hpost by done.
  cbn [negb] in Hpost. destruct Hpost as (p & -> & Hmade). set (mode := u32 _) in Hmade. pose proof Hmade as (l1 & l2 & sp1 & EC & Hp & Hfy1 & En & El & Ei & Er & _ & Hbrk).
  set (s1 := KS (k_layer s) x1). assert (stands {[ns := 1]} s1 A) as Hst1.
  { apply (stands_change addr ops root NB n {[ns := 1]}); [done|done| | |done].
    - eapply made_sound; [exact Hfy|exact Hmade|exact Hs|exact Hl1].
    - eapply made_fresh. exact Hmade. }
  destruct (made_new _ _ _ _ _ _ _ _ _ Hmade) as (m & Hm1 & Em). pose proof Em as Em'. injection Em' as E1 E2 E3 E4 E5 E6 E7 E8 E9 E10.
  assert (p <> dir) as Hpd by congruence. pose proof (made_old _ _ _ _ _ _ _ _ _ Hmade dir ltac:(done)) as Ho. rewrite Hd in Ho.
  destruct (r_nodes x1 !! dir) as [d1|] eqn:Hd1; [|done]. destruct Ho as (_ & Orem & _ & _ & _ & Omode & _).
  assert (name ∉ [[dot]; [dot; dot]]) as Hdots by (rewrite !elem_of_cons in *; rewrite elem_of_nil; tauto).
  pose proof (made_target ns dir sp name mode (k_ext s) C sp1 p x1 l1 l2 d1 Hfy1 Hdots ltac:(by exists m)) as Ht.
  assert (p <> rs_root sp) as Hproot by (intros ->; apply not_elem_of_dom in Hp; apply Hp, Hfy).
  wp_step. eapply wp_mono.
  { apply (walk_wp addr ops root NB n {[ns := 1]} p0 nsp dir d1 name fred (upd_dir dir (l1 ++ p :: l2) C) sp1 s1 A Hst1); [apply lookup_singleton_eq|by rewrite Ei|exact Hfy1|exact Hd1| |done].
    intros t. cbn [k_ext s1]. rewrite Ht. intros [= <-]. exists m. split; [done|]. split; [done|]. rewrite Er. done. }
  cbn beta. intros r s2 (Hq & Hfy2 & A' & Hpost & Hst2). cbn [k_ext s1] in *. destruct (quiet_nodes _ _ Hq) as (EN & _).
  unfold walk_post in Hpost. rewrite Omode, Orem, Hdir, Hrem, Ht in Hpost. cbn [negb] in Hpost. destruct Hpost as (v & Hv & Hpost).
  assert (v = m) as -> by congruence. assert (rn_mode m = mode) as Emode by done.
  assert (MY_S_ISLNK (rn_mode m) = false) as Elnk by (unfold MY_S_ISLNK; rewrite Emode; unfold mode; by rewrite dir_mode).
  rewrite Elnk, andb_false_r in Hpost. cbn [andb] in Hpost. destruct Hpost as [-> Htk]. wp_step.
  assert (rn_vnid m = num) as Evn by done. split; [by rewrite Evn|].
  pose proof (number_unused {[ns := 1]} s A p0 nsp C sp Hst Hm Hfy) as Hnone.
  fold num in Hnone. unfold taken in Htk. rewrite Ei, Evn, Hnone in Htk. destruct Htk as (A0 & q & Hev & ->).
  exists l1, l2, p, m, A0, sp1, q. split_and!; try done; [by rewrite EN|]. unfold MY_S_ISDIR. rewrite Emode. unfold mode. by rewrite dir_mode.
Qed.
End use.

(** ** Properties *)

Section properties.
Context (addr : Z) (ops : gmap Z Z) (root : option Z) (NB : gmap Z nspace) (n : nat).
Abbreviation kstate := (Vnode.kstate (X := rstate)).
Abbreviation stands L := (VnodeSpec.stands r_host (rootfs_contract addr ops root L) NB n).
Abbreviation rootfs_walk := (Rootfs.rootfs_walk r_host rset_host (fun s => s) (fun s _ => s) rootfs_table).

(** C40. The vnode layer over the root file system implements the table of
    references: the operations of rootfs.c are what the layer asks of a file
    system, so any client that keeps to its side gets the answers of the
    table, and the nodes behind its entries stay those of the file system. *)
Theorem rootfs_refines_table L (p : client rstate) (s : kstate) A :
  stands L s A -> safe r_host rootfs_table (rootfs_contract addr ops root L) NB n A (k_ext s) p ->
  wp (run_client r_host rset_host rootfs_table p) (fun tr s' => exists A',
    steps r_host rootfs_table (rootfs_contract addr ops root L) NB A (k_ext s) tr A' (k_ext s') /\ stands L s' A' /\
    forall k e o, A' !! k = Some e -> fs_name (rootfs_contract addr ops root L) NB k o -> node_is addr (k_ext s') o (e_data e)) s.
Proof.
  intros Hst Hsafe. eapply wp_mono; [by apply (run_client_wp r_host rset_host rootfs_table (rootfs_contract addr ops root L) NB n p s A)|].
  cbn beta. intros tr s' (A' & Htr & Hst'). exists A'. split; [done|]. split; [done|]. destruct Hst' as (B' & Hi' & _).
  apply (inv_tended r_host (rootfs_contract addr ops root L) NB s' B' A' Hi').
Qed.

(** C39. [rootfs_walk] says ENOTDIR for a base that is no directory and ENOENT
    for a removed one or a name that is not there; the path of a link the
    kernel is to follow is copied; otherwise the answer is the number of the
    node at the name - of the base for [.], its parent for [..] - and its
    vnode has one reference more.  The tree and the lock are as before. *)
Theorem walk_exact L p nsp base b file fred C sp (s : kstate) A :
  stands L s A -> L !! ns_data nsp = Some 1 -> mounted_at NB (rs_nsid sp) p nsp -> filesys (ns_data nsp) (k_ext s) C sp ->
  r_nodes (k_ext s) !! base = Some b -> walkable s C sp (ns_data nsp) base b file A -> (size (VnodeSpec.held A) < n)%nat ->
  wp (rootfs_walk (ns_data nsp) (Some base) file fred)
    (fun r s' => quiet (k_ext s) (k_ext s') /\ filesys (ns_data nsp) (k_ext s') C sp /\
       exists A', walk_post sp C base b file fred (k_ext s) A r A' /\ stands L s' A') s.
Proof. apply walk_wp. Qed.

(** A directory that is made can be walked to: [rootfs_mkdir] and then
    [rootfs_walk] succeed with the next number of the name space, the new node
    is in its place in the list of its directory, and its vnode is in memory
    with the one reference of the walk. *)
Theorem mkdir_then_walk p0 nsp dir d name perms fred C sp (s : kstate) A :
  stands {[ns_data nsp := 1]} s A -> mounted_at NB (rs_nsid sp) p0 nsp -> filesys (ns_data nsp) (k_ext s) C sp ->
  r_nodes (k_ext s) !! dir = Some d -> MY_S_ISDIR (rn_mode d) = true -> rn_removed d = false ->
  (name ∉ [dot] :: [dot; dot] :: names (r_nodes (k_ext s)) (C dir)) -> len name < FILE_NAME_LENGTH ->
  0 <= rs_nxvnid sp < 2 ^ 63 - 1 -> (size (VnodeSpec.held A) < n)%nat ->
  wp (make_and_walk (ns_data nsp) dir name perms fred) (fun r s' => r = (0, (0, None, rs_nxvnid sp + 1)) /\
    exists l1 l2 p m A0 sp' q, C dir = l1 ++ l2 /\ filesys (ns_data nsp) (k_ext s') (upd_dir dir (l1 ++ p :: l2) C) sp' /\
      r_nodes (k_ext s') !! p = Some m /\ rn_name m = Str name /\ rn_vnid m = rs_nxvnid sp + 1 /\ rn_parent m = dir /\
      MY_S_ISDIR (rn_mode m) = true /\
      evicted A A0 /\ stands {[ns_data nsp := 1]} s' (<[(rs_nsid sp, rs_nxvnid sp + 1) := Entry 1 false (Some p) None q]> A0)) s.
Proof. apply make_and_walk_wp. Qed.
End properties.

(** ** A layer of three vnodes with the small file system of RootfsSpec.v mounted *)

Definition mount_keys : SkipList vkey * host :=
  match NewSL [] NO_DUPLICATES (r_host sample) with
  | Done (Some l, h) => (l, h)
  | _ => (SL ∅ 0 0 0 0 [], r_host sample)
  end.
Lemma mount_keys_ok : holds Kernel.compare_vnode mount_keys.1 [] /\ allocated mount_keys.1 mount_keys.2 /\ allows_dup mount_keys.1 = false /\
  no_oom mount_keys.2 /\ h_brk (r_host sample) <= h_brk mount_keys.2.
Proof.
  pose proof (new_spec Kernel.compare_vnode [] NO_DUPLICATES (r_host sample) (proj2 (proj2 (proj2 no_keys_ok)))) as H.
  assert (match NewSL (K := vkey) [] NO_DUPLICATES (r_host sample) with
    Done (_, h) => bool_decide (h_oom h = []) && (h_brk (r_host sample) <=? h_brk h) | _ => false end = true) as V by (by vm_compute).
  unfold wp in H. unfold mount_keys. destruct (NewSL _ _ _) as [[r h0]| |] eqn:E; [|by destruct H|by destruct H].
  destruct H as (l0 & -> & Hl0 & Ha0 & Hf). apply andb_true_iff in V as [V1%bool_decide_eq_true V2%Z.leb_le]. cbn.
  split; [done|]. split; [done|]. split; [unfold allows_dup; by rewrite Hf|done].
Qed.

Definition mount_ns : nspace := Nspace 5 60 (VnList None None 0) 20 None None false 0 0 None None.
Definition mount_names : gmap Z nspace := {[50 := nbody mount_ns]}.
Definition mount_ops : gmap Z Z := {[60 := 80]}.
Definition mount_state : kstate (X := rstate) :=
  KS (Layer (init_vns 3 0 3) (init_lists 3) mount_keys.1 {[50 := mount_ns]} [None; Some 50; None; None] (Lock 1 SemNull) 0
       (Statics None (Some 50) 6 [] {[60 := Fsystem 1 true (-1) [] 1 80]} (Lock 1 SemNull) 1 None ∅ ∅ (Ioctx (Lock 0 SemNull) None None)))
     (rset_host mount_keys.2 sample).
Abbreviation mount_contract := (rootfs_contract 80 mount_ops None {[20 := 1]}).
Abbreviation mount_stands := (VnodeSpec.stands r_host mount_contract mount_names 3).

Lemma mount_names_eq : nbody <$> {[50 := mount_ns]} = mount_names.
Proof. apply map_fmap_singleton. Qed.

Lemma sample_node p m : r_nodes sample !! p = Some m -> p = 10 /\ m = sample_root.
Proof. intros H. change (r_nodes sample) with ({[10 := sample_root]} : gmap Z rnode) in H. by apply lookup_singleton_Some in H as [<- <-]. Qed.
Lemma mount_name p ns : mount_names !! p = Some ns -> p = 50 /\ ns = nbody mount_ns.
Proof. intros H. unfold mount_names in H. by apply lookup_singleton_Some in H as [<- <-]. Qed.

Lemma sample_sound : sound {[20 := 1]} sample.
Proof.
  pose proof sample_ok as Hfy. split; [apply Hfy| |].
  - intros d c [<- <-]%lookup_singleton_Some. exists sample_space. split; [done|]. split; [done|]. split; [apply Hfy..|].
    by intros p q m m' [-> _]%sample_node [-> _]%sample_node.
  - by intros p m [-> ->]%sample_node.
Qed.

Lemma mount_starting : starting r_host mount_contract 3 mount_state.
Proof.
  destruct mount_keys_ok as (H1 & H2 & H3 & H4 & H5). split; try done.
  - intros p ns H. cbn in H. by apply lookup_singleton_Some in H as [<- <-].
  - change (nspaces (k_layer mount_state)) with ({[50 := mount_ns]} : gmap Z nspace). rewrite mount_names_eq. split; [done| |].
    + intros i p Hi. do 4 (destruct i as [|i]; [try discriminate; injection Hi as <-; by eexists|]). done.
    + by intros p ns [-> ->]%mount_name.
  - change (nspaces (k_layer mount_state)) with ({[50 := mount_ns]} : gmap Z nspace). rewrite mount_names_eq. split.
    + intros p ns [-> ->]%mount_name. exists 80. split; [apply lookup_singleton_eq|]. split; [done|]. cbn. rewrite lookup_singleton_eq. by eexists.
    + by intros p p' ns ns' [-> _]%mount_name [-> _]%mount_name.
  - apply sound_host; [apply sample_sound|done|done].
Qed.

(** The root is held, as after [rootfs_mount]. *)
Definition root_entry (q : Z) : entry := Entry 1 false (Some 10) None q.
Lemma root_held : exists s q, mount_stands s {[(5, 1) := root_entry q]} /\ quiet (k_ext mount_state) (k_ext s) /\ filesys 20 (k_ext s) (fun _ => []) sample_space.
Proof.
  pose proof (starting_stands r_host mount_contract 3 mount_state ltac:(lia) mount_starting) as Hst.
  change (nspaces (k_layer mount_state)) with ({[50 := mount_ns]} : gmap Z nspace) in Hst. rewrite mount_names_eq in Hst.
  pose proof (run_cmd_wp r_host rset_host rootfs_table mount_contract mount_names 3 (New 5 1 (Some 10)) mount_state ∅ Hst) as H.
  apply wp_done in H as (r & s & _ & A' & (_ & (A0 & z & Hev & ->) & (_ & _ & _ & Hq)) & Hst').
  - exists s, z. destruct Hev as [->|(k & e & He & _)]; [|by rewrite lookup_empty in He]. split; [exact Hst'|]. specialize (Hq eq_refl). split; [exact Hq|].
    destruct mount_keys_ok as (_ & _ & _ & H4 & H5). pose proof Hst' as (B' & Hi' & _).
    apply (filesys_quiet 20 (k_ext mount_state)); [apply filesys_host; [apply sample_ok|done|done]|exact Hq|].
    exact (sd_memory _ _ (iv_good _ _ _ _ _ _ _ _ _ Hi')).
  - split; [apply lookup_empty|]. split; [exists 50, (nbody mount_ns); by split; [apply lookup_singleton_eq|]|].
    split; [rewrite held_none, size_empty; lia|]. intros o (p & ns & a & [-> ->]%mount_name & _ & Ha & ->).
    change (({[60 := 80]} : gmap Z Z) !! 60 = Some a) in Ha. apply lookup_singleton_Some in Ha as [_ <-]. split; [done|]. exists 10, sample_root. split; [done|]. split; [apply lookup_singleton_eq|done].
Qed.

Definition mount_table (q : Z) : table := {[(5, 1) := root_entry q]}.
Abbreviation mount_walk := (Rootfs.rootfs_walk r_host rset_host (fun s => s) (fun s _ => s) rootfs_table).

Lemma held_root q : size (VnodeSpec.held (mount_table q)) = 1%nat.
Proof. unfold VnodeSpec.held, mount_table. rewrite map_filter_singleton_True by reflexivity. by rewrite dom_singleton_L, size_singleton. Qed.

Lemma root_node s : quiet (k_ext mount_state) (k_ext s) -> r_nodes (k_ext s) !! 10 = Some sample_root.
Proof. intros (-> & _)%quiet_nodes. apply lookup_singleton_eq. Qed.

Lemma mount_mounted : mounted_at mount_names 5 50 (nbody mount_ns).
Proof. by split; [apply lookup_singleton_eq|]. Qed.

(** One more reference to the root, and back. *)
Definition root_client : client rstate := Do (Get 5 1) (fun _ => Do (Put 5 1) (fun _ => Stop)).

Lemma rootfs_refines_table_witness : exists s q,
  wp (run_client r_host rset_host rootfs_table root_client) (fun tr s' => exists A',
    steps r_host rootfs_table mount_contract mount_names (mount_table q) (k_ext s) tr A' (k_ext s') /\ mount_stands s' A' /\
    forall k e o, A' !! k = Some e -> fs_name mount_contract mount_names k o -> node_is 80 (k_ext s') o (e_data e)) s.
Proof.
  destruct root_held as (s & q & Hs & _). exists s, q. apply (rootfs_refines_table 80 mount_ops None mount_names 3 {[20 := 1]} root_client s (mount_table q) Hs).
  split; [cbn; unfold mount_table; by rewrite lookup_singleton_eq|]. intros r A' x' Hst _. cbn in Hst. unfold load_post, mount_table in Hst. rewrite lookup_singleton_eq in Hst.
  destruct Hst as (_ & _ & _ & ->). split; [|intros; exact I]. intros e. rewrite lookup_insert_eq. by intros [= <-].
Defined.

Lemma walk_exact_witness : exists s q,
  wp (mount_walk 20 (Some 10) [dot] true) (fun r s' => quiet (k_ext s) (k_ext s') /\ filesys 20 (k_ext s') (fun _ => []) sample_space /\
    exists A', walk_post sample_space (fun _ => []) 10 sample_root [dot] true (k_ext s) (mount_table q) r A' /\ mount_stands s' A') s.
Proof.
  destruct root_held as (s & q & Hs & Hq & Hfy). exists s, q. pose proof (root_node s Hq) as Hroot.
  apply (walk_exact 80 mount_ops None mount_names 3 {[20 := 1]} 50 (nbody mount_ns) 10 sample_root [dot] true (fun _ => []) sample_space s (mount_table q) Hs);
    [apply lookup_singleton_eq|exact mount_mounted|exact Hfy|exact Hroot| |rewrite held_root; lia].
  intros t [= <-]. exists sample_root. split; [exact Hroot|]. split; [done|]. intros _. cbn. unfold mount_table. rewrite lookup_singleton_eq. by eexists.
Defined.

Lemma mkdir_then_walk_witness : exists s q,
  wp (make_and_walk 20 10 [x61] 0 true) (fun r s' => r = (0, (0, None, 2)) /\
    exists l1 l2 p m A0 sp' z, [] = l1 ++ l2 /\ filesys 20 (k_ext s') (upd_dir 10 (l1 ++ p :: l2) (fun _ => [])) sp' /\
      r_nodes (k_ext s') !! p = Some m /\ rn_name m = Str [x61] /\ rn_vnid m = 2 /\ rn_parent m = 10 /\ MY_S_ISDIR (rn_mode m) = true /\
      evicted (mount_table q) A0 /\ mount_stands s' (<[(5, 2) := Entry 1 false (Some p) None z]> A0)) s.
Proof.
  destruct root_held as (s & q & Hs & Hq & Hfy). exists s, q. pose proof (root_node s Hq) as Hroot.
  apply (mkdir_then_walk 80 mount_ops None mount_names 3 50 (nbody mount_ns) 10 sample_root [x61] 0 true (fun _ => []) sample_space s (mount_table q) Hs);
    [exact mount_mounted|exact Hfy|exact Hroot|reflexivity|reflexivity| |reflexivity|cbn; lia|rewrite held_root; lia].
  cbn. apply (bool_decide_unpack _). by vm_compute.
Defined.
