(* ===== verification/RootfsPath.v ===== *)
(** * RootfsPath: where a path ends (kernel.c over rootfs.c)

    [resolves] says where a path leads in the tree of a mounted root file
    system, component by component, through symbolic links and up to their
    limit.  [parse_path] of kernel.c, which walks with the operations of the
    file system and takes and gives back a reference at every component, ends
    there, with a reference to the vnode at the end and none left over. *)

From stdpp Require Import sorting.
From S2P Require Import Prelude Bytes Compat Host SkipList Kernel Links Vnode VnodeLists VnodeInv VnodeStep VnodeTable VnodeSpec VnodeOps Descriptors Paths VnodeRefs Rootfs RootfsTree RootfsSpec VnodeInit RootfsMount.
Local Open Scope Z_scope.

(** ** Paths in a tree *)

Inductive hop :=
  | To (t : Z)
  | Link (text : list byte)
  | Stuck (err : Z).

Section tree.
Context (N : gmap Z rnode) (C : Z -> list Z) (root : Z).

(** One component from [base]; [fred] tells whether a link is followed. *)
Definition hop_of (base : Z) (name : list byte) (fred : bool) : option hop :=
  b ← N !! base;
  if negb (MY_S_ISDIR (rn_mode b)) then Some (Stuck ENOTDIR)
  else if rn_removed b then Some (Stuck ENOENT)
  else match walk_target N C base b name with
  | None => Some (Stuck ENOENT)
  | Some t =>
      v ← N !! t;
      if negb (is_dots name) && MY_S_ISLNK (rn_mode v) && fred
      then match copied_path (str_of (rn_symlink v)) with
           | (0, Some link) => Some (Link link)
           | (0, None) => None
           | (err, _) => Some (Stuck err)
           end
      else Some (To t)
  end.

Lemma hop_link_follows base name fred link : hop_of base name fred = Some (Link link) -> fred = true.
Proof.
  unfold hop_of. destruct (N !! base) as [b|]; [|done]. cbn [mbind option_bind]. destruct (negb _); [done|]. destruct (rn_removed b); [done|].
  destruct (walk_target N C base b name) as [t|]; [|done]. destruct (N !! t); [|done]. cbn [mbind option_bind].
  destruct fred; [done|]. by rewrite andb_false_r.
Qed.

(** The text of a link in front of what is left of the path, and where to go
    on from. *)
Definition spliced (base : Z) (link np : list byte) : Z * list byte :=
  let q := cat_path link np in
  if bool_decide (head q = Some slash) then (root, skip_slashes q) else (base, q).

Inductive answer :=
  | Found (t : Z)
  | Fails (err : Z).

(** The path [p] from [base], through at most [links] symbolic links. *)
Inductive resolves (eat : bool) : nat -> Z -> list byte -> answer -> Prop :=
  | res_end links base : resolves eat links base [] (Found base)
  | res_to links base p name np t r :
      p <> [] -> split_path p = (name, np) -> hop_of base name (eat || negb (bool_decide (np = []))) = Some (To t) ->
      resolves eat links t np r -> resolves eat links base p r
  | res_stuck links base p name np err :
      p <> [] -> split_path p = (name, np) -> hop_of base name (eat || negb (bool_decide (np = []))) = Some (Stuck err) ->
      resolves eat links base p (Fails err)
  | res_link links base p name np link base' p' r :
      p <> [] -> split_path p = (name, np) -> hop_of base name (eat || negb (bool_decide (np = []))) = Some (Link link) ->
      spliced base link np = (base', p') -> resolves eat links base' p' r -> resolves eat (S links) base p r
  | res_loop base p name np link :
      p <> [] -> split_path p = (name, np) -> hop_of base name (eat || negb (bool_decide (np = []))) = Some (Link link) ->
      resolves eat O base p (Fails ELOOP).

(** A path leads to one place. *)
Lemma resolves_unique eat links base p r r' : resolves eat links base p r -> resolves eat links base p r' -> r = r'.
Proof.
  intros H. revert r'. induction H as [links base|links base p name np t r Hp Hs Hh Hr IH|links base p name np err Hp Hs Hh|links base p name np link base' p' r Hp Hs Hh Hsp Hr IH|base p name np link Hp Hs Hh];
    intros r' H'; inversion H' as [|? ? ? name' np' t' ? Hp' Hs' Hh' Hr'|? ? ? name' np' err' Hp' Hs' Hh'|? ? ? name' np' link' b' q' ? Hp' Hs' Hh' Hsp' Hr'|? ? name' np' link' Hp' Hs' Hh']; subst; try done;
    rewrite Hs in Hs'; injection Hs' as <- <-; rewrite Hh in Hh'; try discriminate; injection Hh' as <-; try done.
  - by apply IH.
  - rewrite Hsp in Hsp'. injection Hsp' as <- <-. by apply IH.
Qed.

Lemma hop_stuck base name fred err : hop_of base name fred = Some (Stuck err) -> err <> 0.
Proof.
  unfold hop_of. destruct (N !! base) as [b|]; [|done]. cbn [mbind option_bind]. destruct (negb _); [by intros [= <-]|].
  destruct (rn_removed b); [by intros [= <-]|]. destruct (walk_target N C base b name) as [t|]; [|by intros [= <-]].
  destruct (N !! t) as [v|]; [|done]. cbn [mbind option_bind]. destruct (_ && _); [|done].
  destruct (copied_path _) as [[|z|z] [link|]]; try done; by intros [= <-].
Qed.

(** A path that leads nowhere is an error. *)
Lemma resolves_fails eat links base p err : resolves eat links base p (Fails err) -> err <> 0.
Proof.
  intros H. remember (Fails err) as r eqn:E. revert E. induction H; intros E; try discriminate; auto; injection E as <-; [by eapply hop_stuck|done].
Qed.
End tree.

Lemma skip_slashes_length p : (length (skip_slashes p) <= length p)%nat.
Proof. induction p as [|c q IH]; cbn; [done|]. destruct (is_slash c); cbn; lia. Qed.
Lemma span_slash_length p a b : span_slash p = (a, b) -> (length b <= length p)%nat.
Proof.
  revert a b. induction p as [|c q IH]; intros a b; cbn; [by intros [= <- <-]|]. destruct (is_slash c); [by intros [= <- <-]|].
  destruct (span_slash q) as [x y] eqn:E. intros [= <- <-]. specialize (IH x y eq_refl). lia.
Qed.
Lemma split_path_shorter p name np : p <> [] -> split_path p = (name, np) -> (length np < length p)%nat.
Proof.
  destruct p as [|c q]; [done|]. intros _. cbn. destruct (span_slash q) as [a b] eqn:E. intros [= <- <-].
  pose proof (span_slash_length q a b E). pose proof (skip_slashes_length b). lia.
Qed.

(** ** The kernel's walk *)

Lemma stands_refs {X} (x_host : X -> host) (fc : contract X) NB n s A k : VnodeSpec.stands x_host fc NB n s A -> 0 <= refs A k.
Proof.
  intros (B & Hi & _). unfold refs. destruct (A !! k) as [e|] eqn:E; [|done].
  destruct (shows_find B NB A k e (iv_shows _ _ _ _ _ _ _ _ _ Hi) E) as (q & v & Hq & <- & _).
  destruct (iv_rest _ _ _ _ _ _ _ _ _ Hi q v Hq ltac:(done)) as [_ [(_&_&?&_)|[(_&_&?&_)|(_&_&?)]]]; cbn; lia.
Qed.

Section path.
Context (addr : Z) (ops : gmap Z Z) (r0 : Z) (NB : gmap Z nspace) (n : nat).
Abbreviation kstate := (Vnode.kstate (X := rstate)).
Context (L : gmap Z Z).
Abbreviation rc := (rootfs_contract addr ops (Some r0) L).
Abbreviation stands := (VnodeSpec.stands r_host rc NB n).
Abbreviation rootfs_ops := (fun _ : Z => rootfs r_host rset_host (fun s : rstate => s) (fun s _ => s) rootfs_table).

(** The file system at the start of the path, and the references that others
    have throughout: [H] names what they hold. *)
Context (p0 : Z) (nsp : nspace) (C : Z -> list Z) (sp : rspace) (x0 : rstate) (R : Z * Z -> Z) (H : gset (Z * Z)).
Context (Hcalls : callable L false) (HL : L !! ns_data nsp = Some 1).
Context (Hm : mounted_at NB (rs_nsid sp) p0 nsp) (Hmount : ns_mount nsp = None).
Context (HR : forall k, 0 <= R k) (HRH : forall k, 0 < R k -> k ∈ H) (HH : (size H + 1 < n)%nat).

Abbreviation N := (r_nodes x0).
Definition num_of (t : Z) : Z := match N !! t with Some v => rn_vnid v | None => 0 end.
Definition key (t : Z) : Z * Z := (rs_nsid sp, num_of t).

(** The nodes of the tree stay in their name space, and links have a text. *)
Definition closed : Prop :=
  forall base b file t, N !! base = Some b -> rn_ns b = ns_data nsp -> walk_target N C base b file = Some t ->
    exists v, N !! t = Some v /\ rn_ns v = ns_data nsp /\ (MY_S_ISLNK (rn_mode v) = true -> is_Some (str_of (rn_symlink v))).
Context (Hclosed : closed) (Hroot : 0 < R (key (rs_root sp))).
Context (Hrootns : exists v, N !! rs_root sp = Some v /\ rn_ns v = ns_data nsp).

(** Others' references, and [d] of the walk's own. *)
Record walking (d : Z * Z -> Z) (s : kstate) (A : table) : Prop := {
  wk_stands : stands s A;
  wk_calm : calm A;
  wk_quiet : quiet x0 (k_ext s);
  wk_fs : filesys (ns_data nsp) (k_ext s) C sp;
  wk_refs k : refs A k = R k + d k;
  wk_root : exists e, A !! key (rs_root sp) = Some e /\ e_at e = r0 /\ e_data e = Some (rs_root sp);
}.

(** With one reference to the vnode of [t], at [q]. *)
Definition at_node (t q : Z) (s : kstate) (A : table) : Prop :=
  walking (one (key t)) s A /\ (exists v, N !! t = Some v /\ rn_ns v = ns_data nsp) /\
  exists e, A !! key t = Some e /\ e_at e = q /\ e_data e = Some t.

Definition ended (r : answer) (x : Z * option Z) (s : kstate) : Prop :=
  match r with
  | Found t => exists q A, x = (0, Some q) /\ at_node t q s A
  | Fails err => x = (err, None) /\ exists A, walking (fun _ => 0) s A
  end.

Lemma walking_nodes d s A : walking d s A -> r_nodes (k_ext s) = N.
Proof. intros Hw. by destruct (quiet_nodes _ _ (wk_quiet _ _ _ Hw)) as (-> & _). Qed.

Lemma walking_size d s A t : walking d s A -> (forall k, d k <= one (key t) k) -> (size (VnodeSpec.held A) < n)%nat.
Proof.
  intros Hw Hd. assert (VnodeSpec.held A ⊆ H ∪ {[key t]}) as Hsub.
  { intros k (e & He & Hp)%elem_of_held. pose proof (wk_refs _ _ _ Hw k) as E. rewrite (refs_at A k e He) in E.
    unfold is_held in Hp. specialize (Hd k). unfold one in Hd. destruct (decide (key t = k)) as [->|]; [apply elem_of_union_r; by apply elem_of_singleton|].
    apply elem_of_union_l, HRH. lia. }
  apply subseteq_size in Hsub. pose proof (size_union_alt H {[key t]}) as E. rewrite E in Hsub.
  assert (size ({[key t]} ∖ H) <= 1)%nat; [|lia]. rewrite <- (size_singleton (C := gset (Z * Z)) (key t)). apply subseteq_size. apply subseteq_difference_l. done.
Qed.

(** From one state of the walk to the next. *)
Lemma walking_on d d' s s' A A' :
  walking d s A -> onward d' A A' -> (forall k, 0 <= d k + d' k) -> stands s' A' -> quiet (k_ext s) (k_ext s') -> walking (fun k => d k + d' k) s' A'.
Proof.
  intros [W1 W2 W3 W4 W5 W6] [O1 O2 O3] Hd Hst Hq. pose proof Hst as (B & Hi & _). pose proof (iv_good _ _ _ _ _ _ _ _ _ Hi) as Hs. cbn in Hs.
  split; [done|by apply O2|by transitivity (k_ext s)| |intros k; rewrite O1, W5; lia|].
  - apply (filesys_quiet _ (k_ext s)); [done|done|apply Hs].
  - destruct W6 as (e & He & E1 & E2). destruct (O3 _ e He) as (e' & He' & S1 & S2 & S3).
    + rewrite O1, W5. specialize (Hd (key (rs_root sp))). lia.
    + exists e'. split_and!; congruence.
Qed.

Lemma walking_eq d d' s A : walking d s A -> (forall k, d k = d' k) -> walking d' s A.
Proof. intros [W1 W2 W3 W4 W5 W6] E. split; try done. intros k. by rewrite <- E. Qed.

#[local] Instance ops_keep : FileSystems r_host rset_host (core_table rootfs_ops) rc := rootfs_keeps addr ops (Some r0) L.

(** A reference is given back. *)
Lemma drop_wp t e d s A (Q : unit -> kstate -> Prop) :
  walking (fun k => d k + one (key t) k) s A -> (forall k, 0 <= d k) -> A !! key t = Some e ->
  (forall s' A', walking d s' A' -> onward (fun j => - one (key t) j) A A' -> Q tt s') -> wp (VnodeOps.dec_vnode rootfs_ops (e_at e)) Q s.
Proof.
  intros Hw Hd He HQ. destruct (wk_calm _ _ _ Hw _ _ He) as [Hr _]. unfold VnodeOps.dec_vnode.
  eapply (dec_vnode_at r_host rset_host rootfs_ops rc NB n (key t) e); [exact Hcalls|apply Hw|exact He| |].
  - pose proof (wk_refs _ _ _ Hw (key t)) as E. rewrite (refs_at A _ e He) in E. unfold one in E. rewrite decide_True in E by done.
    specialize (Hd (key t)). specialize (HR (key t)). lia.
  - intros s' A' Hst Hp (_ & _ & _ & Hq). pose proof (onward_given _ e A A' He Hr Hp) as Hon. apply (HQ s' A'); [|done].
    eapply walking_eq; [eapply (walking_on _ _ s s' A A'); [exact Hw|exact Hon| |exact Hst|by apply Hq]|]; cbn beta; intros k; specialize (Hd k); lia.
Qed.

(** An entry that is held stays where it is. *)
Lemma onward_entry d d' s' A A' t q : 
  onward d A A' -> walking d' s' A' -> 0 < d' (key t) -> (exists e, A !! key t = Some e /\ e_at e = q /\ e_data e = Some t) ->
  exists e, A' !! key t = Some e /\ e_at e = q /\ e_data e = Some t.
Proof.
  intros Hon Hw Hd (e & He & E1 & E2). destruct (on_same _ _ _ Hon _ e He) as (e' & He' & S1 & S2 & S3).
  - rewrite (wk_refs _ _ _ Hw). specialize (HR (key t)). lia.
  - exists e'. split_and!; congruence.
Qed.

(** The reference that a walk takes. *)
Lemma taken_onward t A A' k : taken k t A A' -> onward (one k) A A' /\ exists e, A' !! k = Some e /\ e_data e = Some t.
Proof.
  unfold taken. destruct (A !! k) as [e|] eqn:E.
  - intros [Hd ->]. split; [by apply onward_more|]. eexists. by rewrite lookup_insert_eq.
  - intros (A0 & q & Hev & ->). split; [by apply onward_new|]. eexists. by rewrite lookup_insert_eq.
Qed.

(** [..] in a name space that is not mounted on anything. *)
Lemma dotdot_base_wp base q name s A (Q : Z -> kstate -> Prop) :
  at_node base q s A -> Q q s -> wp (dotdot_base rootfs_ops q name) Q s.
Proof.
  intros (Hw & _ & e & He & <- & _) HQ. unfold dotdot_base. destruct (bool_decide _); [|by wp_step]. wp_step.
  eapply (is_root_wp r_host rc NB n (rs_nsid sp) (num_of base) p0 nsp e); [apply Hw|exact He|exact Hm|exact Hmount|]. by wp_step.
Qed.

Lemma at_walkable base q b name s A : at_node base q s A -> N !! base = Some b -> walkable s C sp (ns_data nsp) base b name A.
Proof.
  intros (Hw & (v & Hv & Hns) & _) Hb t. rewrite (walking_nodes _ _ _ Hw). intros Ht. assert (v = b) as -> by congruence.
  destruct (Hclosed base b name t Hb Hns Ht) as (w & Hw1 & Hw2 & _). exists w. split; [done|]. split; [done|]. intros ->.
  destruct (wk_root _ _ _ Hw) as (e & He & _). exists e. by rewrite <- He; unfold key, num_of; rewrite Hw1.
Qed.

(** What the operation of the file system says of a component. *)
Definition walked (base q : Z) (h : hop) (r : Z * option (list byte) * Z) (s : kstate) : Prop :=
  match h with
  | Stuck err => exists A, err <> 0 /\ r.1.1 = err /\ at_node base q s A
  | Link link => exists A vnid, r = (0, Some link, vnid) /\ at_node base q s A
  | To t => exists A q', r = (0, None, num_of t) /\ walking (fun k => one (key base) k + one (key t) k) s A /\
      (exists e, A !! key base = Some e /\ e_at e = q /\ e_data e = Some base) /\
      (exists v, N !! t = Some v /\ rn_ns v = ns_data nsp) /\ exists e, A !! key t = Some e /\ e_at e = q' /\ e_data e = Some t
  end.

Lemma at_node_quiet t q s s' A : at_node t q s A -> stands s' A -> quiet (k_ext s) (k_ext s') -> at_node t q s' A.
Proof.
  intros (Hw & Hv & He) Hst Hq. split; [|done]. eapply walking_eq.
  - apply (walking_on (one (key t)) (fun _ => 0) s s' A A); [done| |intros k; unfold one; destruct (decide _); lia|done|done].
    split; [intros; lia|done|]. intros k e Hk _. by exists e.
  - cbn beta. intros. lia.
Qed.

(** The answer of [hop_of] for a link. *)
Definition link_hop (text : list byte) : hop :=
  match copied_path (Some text) with (0, Some link) => Link link | (err, _) => Stuck err end.

Lemma link_walked base q text vnid s A :
  at_node base q s A -> match copied_path (Some text) with (0, Some link) => Some (Link link) | (0, None) => None | (err, _) => Some (Stuck err) end = Some (link_hop text) /\
    walked base q (link_hop text) (copied_path (Some text), vnid) s.
Proof.
  intros Hat. unfold link_hop, copied_path. destruct (len text =? 0); [split; [done|]; by exists A|]. destruct (_ || _); [split; [done|]; by exists A|].
  split; [done|]. by exists A, vnid.
Qed.

Lemma walk_hop base q name fred s A :
  at_node base q s A -> exists h, hop_of N C base name fred = Some h /\
    wp (rootfs_walk r_host rset_host (fun s => s) (fun s _ => s) rootfs_table (ns_data nsp) (Some base) name fred) (walked base q h) s.
Proof.
  intros Hat. pose proof Hat as (Hw & (b & Hb & Hns) & He). pose proof (walking_nodes _ _ _ Hw) as EN.
  pose proof (walk_wp addr ops (Some r0) NB n L p0 nsp base b name fred C sp s A (wk_stands _ _ _ Hw) HL Hm (wk_fs _ _ _ Hw)
    ltac:(by rewrite EN) (at_walkable base q b name s A Hat Hb) (walking_size _ _ _ base Hw ltac:(done))) as Hwalk.
  unfold walk_post in Hwalk. rewrite EN in Hwalk. unfold hop_of. rewrite Hb. cbn [mbind option_bind].
  assert (forall err, err <> 0 -> wp (rootfs_walk r_host rset_host (fun s => s) (fun s _ => s) rootfs_table (ns_data nsp) (Some base) name fred)
    (fun r s' => quiet (k_ext s) (k_ext s') /\ filesys (ns_data nsp) (k_ext s') C sp /\ exists A', (r = (err, None, 0) /\ A' = A) /\ stands s' A') s ->
    exists h, Some (Stuck err) = Some h /\
      wp (rootfs_walk r_host rset_host (fun s => s) (fun s _ => s) rootfs_table (ns_data nsp) (Some base) name fred) (walked base q h) s) as Hstuck.
  { intros err Herr Hwp. eexists. split; [done|]. eapply wp_mono; [exact Hwp|]. cbn beta. intros r s' (Hq & _ & A' & [-> ->] & Hst).
    exists A. split; [done|]. split; [done|]. by eapply at_node_quiet. }
  destruct (MY_S_ISDIR (rn_mode b)); cbn [negb] in *; [|by apply Hstuck].
  destruct (rn_removed b); [by apply Hstuck|].
  destruct (walk_target N C base b name) as [t|] eqn:Et; [|by apply Hstuck].
  destruct (Hclosed base b name t Hb Hns Et) as (v & Hv & Hvns & Htext). rewrite Hv. cbn [mbind option_bind].
  destruct (negb (is_dots name) && MY_S_ISLNK (rn_mode v) && fred) eqn:Elk.
  - pose proof Elk as [[_ El]%andb_true_iff _]%andb_true_iff. destruct (Htext El) as [text Ex]. rewrite Ex. exists (link_hop text).
    split; [by eapply link_walked|]. eapply wp_mono; [exact Hwalk|]. cbn beta. intros r s' (Hq & _ & A' & (v' & Hv' & Hr) & Hst).
    assert (v' = v) as -> by congruence. rewrite Elk, Ex in Hr. destruct Hr as [-> ->]. eapply link_walked. by eapply at_node_quiet.
  - exists (To t). split; [done|]. eapply wp_mono; [exact Hwalk|]. cbn beta. intros r s' (Hq & _ & A' & (v' & Hv' & Hr) & Hst).
    assert (v' = v) as -> by congruence. rewrite Elk in Hr. destruct Hr as [-> Htk].
    assert ((rs_nsid sp, rn_vnid v) = key t) as Ek by (unfold key, num_of; by rewrite Hv). rewrite Ek in Htk.
    destruct (taken_onward t A A' (key t) Htk) as (Hon & e & He' & Ed).
    assert (walking (fun k => one (key base) k + one (key t) k) s' A') as Hw'.
    { apply (walking_on (one (key base)) (one (key t)) s s' A A'); try done. intros k. unfold one. do 2 destruct (decide _); lia. }
    exists A', (e_at e). split; [unfold num_of; by rewrite Hv|]. split; [exact Hw'|]. split; [|split; [by exists v|by exists e]].
    eapply (onward_entry _ _ s' A A' base q Hon Hw'); [unfold one; rewrite decide_True by done; destruct (decide _); lia|exact He].
Qed.

Abbreviation resolves := (resolves N C (rs_root sp)).
Abbreviation parse_components := (Paths.parse_components rootfs_ops).
Abbreviation parse_links := (Paths.parse_links r_host rset_host rootfs_ops).

(** What becomes of a link found in [base]. *)
Definition follows (eat : bool) (links : nat) (base : Z) (link np : list byte) (r : answer) : Prop :=
  match links with
  | O => r = Fails ELOOP
  | S links => exists base' p', spliced (rs_root sp) base link np = (base', p') /\ resolves eat links base' p' r
  end.

Lemma res_follows eat links base p name np link r :
  p <> [] -> split_path p = (name, np) -> hop_of N C base name (eat || negb (bool_decide (np = []))) = Some (Link link) ->
  follows eat links base link np r -> resolves eat links base p r.
Proof.
  intros Hp Hs Hh. destruct links as [|links]; [intros ->; by eapply res_loop|]. intros (base' & p' & Hsp & Hr). by eapply res_link.
Qed.

(** The walk goes on from [base] to [t]. *)
Lemma move_on base q t s (k : Z -> M kstate (Z * option Z)) Q' :
  walked base q (To t) (0, None, num_of t) s ->
  (forall q' s' A', at_node t q' s' A' -> wp (k q') Q' s') ->
  wp (vn ← lookup_beside q (num_of t);
      _ ← VnodeOps.dec_vnode rootfs_ops q;
      vn ← opt vn;
      '(m, root) ← is_mount_vnode vn;
      if (m : bool) then _ ← VnodeOps.dec_vnode rootfs_ops vn; root ← opt root; k root else k vn) Q' s.
Proof.
  intros (A1 & q' & _ & Hw & (e & He & Eq & Ed) & Hv & Het) Hk. subst q. destruct Het as (et & Hent & Eqt & Edt).
  assert (exists e', A1 !! key t = Some e' /\ e_at e' = q' /\ e_data e' = Some t) as Het by (by exists et).
  wp_step. eapply (lookup_beside_wp r_host rc NB n (rs_nsid sp) (num_of base) (num_of t) e et); [apply Hw|exact He|exact Hent|].
  intros s2 Hst2 Hx2. assert (walking (fun k => one (key base) k + one (key t) k) s2 A1) as Hw2.
  { destruct Hw as [W1 W2 W3 W4 W5 W6]. split; try done; by rewrite Hx2. }
  wp_step. eapply (drop_wp base e (one (key t)) s2 A1); [eapply walking_eq; [exact Hw2|]; cbn beta; lia| |exact He|].
  { intros k0. unfold one. destruct (decide _); lia. }
  intros s3 A3 Hw3 Hon. wp_step. wp_step. wp_step. rewrite Eqt.
  pose proof (onward_entry _ _ s3 A1 A3 t q' Hon Hw3 ltac:(unfold one; rewrite decide_True by done; lia) Het) as (e3 & He3 & Eq3 & Ed3).
  rewrite <- Eq3. destruct (wk_calm _ _ _ Hw3 _ _ He3) as [_ Hmnt].
  eapply (is_mount_vnode_wp r_host rc NB n (key t) e3); [apply Hw3|exact He3|exact Hmnt|]. intros s4 Hst4 Hx4.
  apply (Hk _ s4 A3). split; [|split; [done|by exists e3]]. destruct Hw3 as [W1 W2 W3 W4 W5 W6]. split; try done; by rewrite Hx4.
Qed.

Lemma components_wp eat links follow :
  (forall base q link np s A, at_node base q s A -> wp (follow q link np) (fun x s' => exists r, follows eat links base link np r /\ ended r x s') s) ->
  forall fuel base p q s A, (length p <= fuel)%nat -> at_node base q s A ->
    wp (parse_components eat follow fuel q p) (fun x s' => exists r, resolves eat links base p r /\ ended r x s') s.
Proof.
  intros Hfollow. induction fuel as [|fuel IH]; intros base p q s A Hlen Hat.
  { destruct p; [|cbn in Hlen; lia]. apply wp_ret. exists (Found base). split; [constructor|by exists q, A]. }
  destruct p as [|c p]; [apply wp_ret; exists (Found base); split; [constructor|by exists q, A]|].
  assert (c :: p <> []) as Hne by done. destruct (split_path (c :: p)) as [name np] eqn:Hsplit.
  pose proof (split_path_shorter _ _ _ Hne Hsplit) as Hshort. change (parse_components eat follow (S fuel) q (c :: p)) with
    (let '(name, np) := split_path (c :: p) in
      bvn ← dotdot_base rootfs_ops q name;
      let fred := eat || negb (bool_decide (np = [])) in
      '(ops, data, vd) ← ops_of rootfs_ops bvn;
      op ← opt (vo_walk ops);
      '(err, newpath, vnid) ← op data vd name fred;
      if negb (err =? 0) then _ ← VnodeOps.dec_vnode rootfs_ops bvn; mret (err, None) else
      match (if fred then newpath else None) with
      | Some link => follow bvn link np
      | None =>
          vn ← lookup_beside bvn vnid;
          _ ← VnodeOps.dec_vnode rootfs_ops bvn;
          vn ← opt vn;
          '(m, root) ← is_mount_vnode vn;
          if (m : bool) then
            _ ← VnodeOps.dec_vnode rootfs_ops vn;
            root ← opt root;
            parse_components eat follow fuel root np
          else parse_components eat follow fuel vn np
      end).
  rewrite Hsplit.
  wp_step. eapply dotdot_base_wp; [exact Hat|]. set (fred := eat || negb (bool_decide (np = []))).
  pose proof Hat as (Hw & Hbase & e & He & Eq & Ed). destruct (walk_hop base q name fred s A Hat) as (h & Hh & Hwalk).
  wp_step. rewrite <- Eq. eapply (ops_of_wp r_host rootfs_ops rc NB n (rs_nsid sp) (num_of base) p0 nsp e); [apply Hw|exact He|exact Hm|].
  intros a _ _. rewrite Eq, Ed. cbn [rootfs vo_walk]. wp_step. wp_step. wp_step. eapply wp_mono; [exact Hwalk|]. cbn beta.
  intros [[err newpath] vnid] s' Hr. destruct h as [t|link|err'].
  - assert (err = 0 /\ newpath = None /\ vnid = num_of t) as (-> & -> & ->) by (destruct Hr as (? & ? & [= -> -> ->] & _); done).
    cbn [Z.eqb negb]. assert ((if fred then None else None) = @None (list byte)) as -> by (by destruct fred).
    eapply (move_on base q t s'); [exact Hr|]. intros q' s2 A2 Hat2. eapply wp_mono; [apply (IH t np q' s2 A2); [lia|exact Hat2]|].
    cbn beta. intros x s3 (r & Hres & Hend). exists r. split; [by eapply res_to|done].
  - destruct Hr as (A' & vnid' & [= -> -> ->] & Hat'). cbn [Z.eqb negb].
    rewrite (hop_link_follows _ _ _ _ _ _ Hh).
    eapply wp_mono; [eapply (Hfollow base); exact Hat'|]. cbn beta. intros x s3 (r & Hres & Hend). exists r. split; [by eapply res_follows|done].
  - destruct Hr as (A' & Herr & E & Hat'). cbn in E. subst err'. rewrite (proj2 (Z.eqb_neq err 0)) by done. cbn [negb].
    pose proof Hat' as (Hw' & _ & e' & He' & Eq' & _). wp_step. rewrite <- Eq'. eapply (drop_wp base e' (fun _ => 0)); [exact Hw'|lia|exact He'|].
    intros s3 A3 Hw3 _. wp_step. exists (Fails err). split; [by eapply res_stuck|]. split; [done|]. by exists A3.
Qed.

Lemma cat_paths_wp base q a b s A (Q : option (list byte) -> kstate -> Prop) :
  at_node base q s A -> (forall s', at_node base q s' A -> Q (Some (cat_path a b)) s') -> wp (cat_paths r_host rset_host a b) Q s.
Proof.
  intros Hat HQ. pose proof Hat as (Hw & _). pose proof (wk_stands _ _ _ Hw) as Hst. pose proof Hst as (B & Hi & _).
  pose proof (iv_good _ _ _ _ _ _ _ _ _ Hi) as Hs. cbn in Hs. pose proof (sd_memory _ _ Hs) as Hmem.
  unfold cat_paths. wp_step. unfold k_malloc, in_ext. apply wp_zoom. apply wp_zoom. unfold wp, malloc.
  pose proof Hmem as Hm'. unfold no_oom in Hm'. rewrite Hm'. cbn. apply HQ. eapply at_node_quiet; [exact Hat| |split; [done|cbn; lia]].
  apply (stands_change addr ops (Some r0) NB n L L s); [done|done|apply sound_host; [done|done|cbn; lia]|done|cbn; lia].
Qed.

(** On to the root, with a reference to it in place of the one to [base]. *)
Lemma to_root_wp base q s A (Q : Z * option Z -> kstate -> Prop) (k : Z -> M kstate (Z * option Z)) :
  at_node base q s A -> (forall s' A', at_node (rs_root sp) r0 s' A' -> wp (k r0) Q s') ->
  wp (_ ← VnodeOps.dec_vnode rootfs_ops q; root ← the_root; _ ← inc_vnode root; k root) Q s.
Proof.
  intros (Hw & _ & e & He & <- & _) Hk. wp_step. eapply (drop_wp base e (fun _ => 0)); [exact Hw|lia|exact He|].
  intros s1 A1 Hw1 _. wp_step. eapply (the_root_wp r_host rc NB n r0); [apply Hw1|done|]. destruct (wk_root _ _ _ Hw1) as (er & Her & Er & Edr).
  wp_step. rewrite <- Er. assert (0 < e_refs er) as Hpos by (rewrite <- (refs_at A1 _ er Her), (wk_refs _ _ _ Hw1); lia).
  eapply (inc_vnode_wp r_host rc NB n (key (rs_root sp)) er); [apply Hw1|exact Her|exact Hpos|]. intros s2 Hst2 Hx2. rewrite Er.
  pose proof (onward_more _ er A1 Her) as Hon. apply (Hk s2 (<[key (rs_root sp) := more er]> A1)). split; [|split; [exact Hrootns|]].
  - eapply walking_eq; [eapply (walking_on _ _ s1 s2 A1); [exact Hw1|exact Hon| |exact Hst2|rewrite Hx2; apply quiet_order]|]; cbn beta.
    + intros k0. unfold one. destruct (decide _); lia.
    + intros. lia.
  - exists (more er). by rewrite lookup_insert_eq.
Qed.

Lemma links_wp eat links base p q s A :
  at_node base q s A -> wp (parse_links links eat q p) (fun x s' => exists r, resolves eat links base p r /\ ended r x s') s.
Proof.
  revert base p q s A. induction links as [|links IH]; intros base p q s A Hat; cbn [Paths.parse_links].
  - apply (components_wp eat 0) with A; [clear base p q s A Hat|done|done]. intros base q link np s A (Hw & _ & e & He & <- & _).
    wp_step. eapply (drop_wp base e (fun _ => 0)); [exact Hw|lia|exact He|]. intros s1 A1 Hw1 _. wp_step. exists (Fails ELOOP).
    split; [done|]. split; [done|]. by exists A1.
  - apply (components_wp eat (S links)) with A; [clear base p q s A Hat|done|done]. intros base q link np s A Hat. wp_step.
    eapply cat_paths_wp; [exact Hat|]. intros s1 Hat1. cbn [follows]. unfold spliced.
    destruct (bool_decide (head (cat_path link np) = Some slash)).
    + eapply to_root_wp; [exact Hat1|]. intros s2 A2 Hat2. eapply wp_mono; [by apply (IH (rs_root sp) _ _ s2 A2)|].
      cbn beta. intros x s3 (r & Hres & Hend). exists r. split; [|done]. by eexists _, _.
    + eapply wp_mono; [by apply (IH base _ _ s1 A)|]. cbn beta. intros x s3 (r & Hres & Hend). exists r. split; [|done]. by eexists _, _.
Qed.
End path.

(** ** A path from a vnode that is held *)

Section paths.
Context (addr : Z) (ops : gmap Z Z) (r0 : Z) (NB : gmap Z nspace) (n : nat).
Abbreviation kstate := (Vnode.kstate (X := rstate)).
Abbreviation stands L := (VnodeSpec.stands r_host (rootfs_contract addr ops (Some r0) L) NB n).
Abbreviation rootfs_ops := (fun _ : Z => rootfs r_host rset_host (fun s : rstate => s) (fun s _ => s) rootfs_table).

(** The root file system is mounted at the top and nothing is mounted on it;
    its root is the root of the kernel. *)
Record at_top (L : gmap Z Z) (p0 : Z) (nsp : nspace) (C : Z -> list Z) (sp : rspace) (s : kstate) (A : table) : Prop := {
  tp_stands : stands L s A;
  tp_calm : calm A;
  tp_calls : callable L false;
  tp_lock : L !! ns_data nsp = Some 1;
  tp_mounted : mounted_at NB (rs_nsid sp) p0 nsp;
  tp_top : ns_mount nsp = None;
  tp_fs : filesys (ns_data nsp) (k_ext s) C sp;
  tp_closed : closed nsp C (k_ext s);
  tp_root : exists e, A !! key sp (k_ext s) (rs_root sp) = Some e /\ e_at e = r0 /\ e_data e = Some (rs_root sp) /\ 0 < e_refs e;
  tp_room : (size (VnodeSpec.held A) + 1 < n)%nat;
}.

(** The node of an entry is in the name space. *)
Lemma entry_node L p0 nsp sp s A t e :
  stands L s A -> mounted_at NB (rs_nsid sp) p0 nsp -> A !! key sp (k_ext s) t = Some e -> e_data e = Some t ->
  exists v, r_nodes (k_ext s) !! t = Some v /\ rn_ns v = ns_data nsp.
Proof.
  intros (B & Hi & _) (Hns & Eid & _) He Hd.
  destruct (sp_mounted _ _ (iv_spaces _ _ _ _ _ _ _ _ _ Hi) p0 nsp Hns) as (a & Ha & -> & _).
  destruct (proj2 (inv_tended r_host _ NB s B A Hi) _ e (addr, ns_data nsp, num_of (k_ext s) t) He) as (_ & q & v & Hq & Hq1 & Hq2 & _);
    [by exists p0, nsp, addr|]. rewrite Hd in Hq. injection Hq as <-. by exists v.
Qed.

(** Nothing is mounted on a vnode or about to go, and the root is in place. *)
Definition settled (sp : rspace) (x : rstate) (A : table) : Prop :=
  calm A /\ exists e, A !! key sp x (rs_root sp) = Some e /\ e_at e = r0 /\ e_data e = Some (rs_root sp).

(** What a call that found [r] gives back, with the references [d] of its own
    gone or at the end. *)
Definition path_post (L : gmap Z Z) (nsp : nspace) (C : Z -> list Z) (sp : rspace) (s : kstate) (A : table) (d : Z * Z -> Z)
    (r : answer) (x : Z * option Z) (s' : kstate) : Prop :=
  quiet (k_ext s) (k_ext s') /\ filesys (ns_data nsp) (k_ext s') C sp /\ exists A', stands L s' A' /\ settled sp (k_ext s) A' /\
  match r with
  | Found t => (exists e, A' !! key sp (k_ext s) t = Some e /\ e_data e = Some t /\ x = (0, Some (e_at e))) /\
      forall k, refs A' k = refs A k - d k + one (key sp (k_ext s) t) k
  | Fails err => x = (err, None) /\ forall k, refs A' k = refs A k - d k
  end.

Lemma parse_path_wp L p0 nsp C sp base e p eat s A :
  at_top L p0 nsp C sp s A -> A !! key sp (k_ext s) base = Some e -> e_data e = Some base -> 0 < e_refs e ->
  (base = rs_root sp -> 1 < e_refs e) ->
  wp (parse_path r_host rset_host rootfs_ops (e_at e) (Some p) eat)
    (fun x s' => exists r, resolves (r_nodes (k_ext s)) C (rs_root sp) eat (Z.to_nat MAX_SYM_LINKS) base p r /\
       path_post L nsp C sp s A (one (key sp (k_ext s) base)) r x s') s.
Proof.
  intros Ht He Hd Hpos Hbase. pose proof (entry_node _ _ _ _ _ _ _ _ (tp_stands _ _ _ _ _ _ _ Ht) (tp_mounted _ _ _ _ _ _ _ Ht) He Hd) as Hv. destruct Ht as [T1 T2 T3 T4 T5 T6 T7 T8 (er & T9 & Er & Edr & Hrpos) T10].
  pose proof (entry_node L p0 nsp sp s A (rs_root sp) er T1 T5 T9 Edr) as Hrv.
  set (kb := key sp (k_ext s) base) in *. set (R := fun k => refs A k - one kb k).
  assert (forall k, 0 <= R k) as HR.
  { intros k. unfold R, one. pose proof (stands_refs r_host _ NB n s A k T1). destruct (decide (kb = k)) as [<-|]; [|lia].
    rewrite (refs_at A kb e He). lia. }
  assert (0 < R (key sp (k_ext s) (rs_root sp))) as Hroot.
  { unfold R, one. rewrite (refs_at A _ er T9). destruct (decide _) as [E|]; [|lia]. rewrite <- E, He in T9. injection T9 as <-.
    assert (base = rs_root sp) by congruence. specialize (Hbase ltac:(done)). lia. }
  unfold parse_path. eapply wp_mono.
  - apply (links_wp addr ops r0 NB n L p0 nsp C sp (k_ext s) R (VnodeSpec.held A)) with A; try done.
    + intros k Hk. apply elem_of_held. unfold R, one in Hk. destruct (held_at A k) as (x & Hx & Ex); [destruct (decide _); lia|].
      exists x. split; [done|]. unfold is_held. rewrite Ex. destruct (decide _); lia.
    + split; [|split; [exact Hv|by exists e]]. split; try done; [intros k; unfold R, kb; lia|by exists er].
  - cbn beta. intros x s' (r & Hres & Hend). exists r. split; [exact Hres|]. destruct r as [t|err].
    + destruct Hend as (q & A' & -> & Hw & _ & e' & He' & <- & Hd'). split; [apply Hw|]. split; [apply Hw|]. exists A'.
      split; [apply Hw|]. split; [by split; apply Hw|]. split; [by exists e'|]. intros k. rewrite (wk_refs _ _ _ _ _ _ _ _ _ _ _ _ _ _ Hw). unfold R. lia.
    + destruct Hend as (-> & A' & Hw). split; [apply Hw|]. split; [apply Hw|]. exists A'.
      split; [apply Hw|]. split; [by split; apply Hw|]. split; [done|]. intros k. rewrite (wk_refs _ _ _ _ _ _ _ _ _ _ _ _ _ _ Hw). unfold R. lia.
Qed.
End paths.
