(* ===== verification/RootfsCalls.v ===== *)
(** * RootfsCalls: system calls on absolute paths (kernel.c over rootfs.c)

    From the path as the caller gives it: the copy and its checks, the
    directory it names and the name in it, and [sys_mkdir] as a whole. *)

From stdpp Require Import sorting.
From S2P Require Import Prelude Bytes Compat Host SkipList Kernel Links Vnode VnodeLists VnodeInv VnodeStep VnodeTable VnodeSpec VnodeOps Descriptors Paths VnodeRefs Syscalls Rootfs RootfsTree RootfsSpec VnodeInit RootfsMount RootfsPath.
Local Open Scope Z_scope.

(** ** The last name of a path *)

Lemma is_slash_slash : is_slash slash = true.
Proof. done. Qed.

Lemma last_slash_none b : slash ∉ b -> last_slash b = None.
Proof.
  induction b as [|c b IH]; [done|]. rewrite not_elem_of_cons. intros [Hc Hb]. cbn. rewrite (IH Hb). unfold is_slash.
  by rewrite bool_decide_false.
Qed.
Lemma last_slash_app a b : slash ∉ b -> last_slash (a ++ slash :: b) = Some (a, b).
Proof. intros Hb. induction a as [|c a IH]; cbn; [by rewrite last_slash_none|by rewrite IH]. Qed.
Lemma last_slash_inv q a b : last_slash q = Some (a, b) -> q = a ++ slash :: b /\ (slash ∉ b).
Proof.
  revert a. induction q as [|c q IH]; intros a; cbn; [done|]. destruct (last_slash q) as [[x y]|] eqn:E.
  - intros [= <- ->]. destruct (IH x eq_refl) as [-> Hb]. done.
  - destruct (is_slash c) eqn:Ec; [|done]. intros [= <- ->]. apply bool_decide_eq_true in Ec as ->. split; [done|].
    clear IH. intros Hin. revert E. induction b as [|d b IHb]; [by apply elem_of_nil in Hin|]. cbn. destruct (last_slash b) as [[]|]; [done|].
    apply elem_of_cons in Hin as [<-|Hin]; [by rewrite is_slash_slash|]. destruct (is_slash d); [done|]. intros _. by apply IHb.
Qed.

Lemma skip_slashes_noslash b : slash ∉ b -> skip_slashes b = b.
Proof. destruct b as [|c b]; [done|]. rewrite not_elem_of_cons. intros [Hc _]. cbn. unfold is_slash. by rewrite bool_decide_false. Qed.
Lemma span_slash_noslash b : slash ∉ b -> span_slash b = (b, []).
Proof.
  induction b as [|c b IH]; [done|]. rewrite not_elem_of_cons. intros [Hc Hb]. cbn. unfold is_slash. rewrite bool_decide_false by done. by rewrite IH.
Qed.
Lemma skip_slashes_app a b :
  skip_slashes (a ++ slash :: b) = skip_slashes b \/
  exists c a1, is_slash c = false /\ skip_slashes (a ++ slash :: b) = c :: a1 ++ slash :: b /\ (length a1 < length a)%nat.
Proof.
  induction a as [|c a IH]; [by left|]. cbn. destruct (is_slash c) eqn:Ec.
  - destruct IH as [->|(d & a1 & H1 & H2 & H3)]; [by left|right; exists d, a1; split_and!; [done|done|lia]].
  - right. exists c, a. split_and!; [done|done|lia].
Qed.
Lemma span_slash_app a b : exists nm a2, span_slash (a ++ slash :: b) = (nm, a2 ++ slash :: b) /\ (length a2 <= length a)%nat.
Proof.
  induction a as [|c a IH]; [by exists [], []|]. cbn. destruct (is_slash c); [by exists [], (c :: a)|].
  destruct IH as (nm & a2 & -> & Hl). exists (c :: nm), a2. split; [done|]. cbn. lia.
Qed.

(** A path that [new_path] accepts ends in a name that is not too long. *)
Lemma long_name_last fuel a b :
  (length (a ++ slash :: b) <= fuel)%nat -> (slash ∉ b) -> long_name fuel (a ++ slash :: b) = false -> len b < FILE_NAME_LENGTH.
Proof.
  revert a. induction fuel as [|fuel IH]; intros a Hl Hb; [rewrite length_app in Hl; cbn in Hl; lia|].
  assert (long_name (S fuel) (a ++ slash :: b) = let '(name, rest) := span_slash (skip_slashes (a ++ slash :: b)) in
    if len name >=? FILE_NAME_LENGTH then true else long_name fuel rest) as -> by (by destruct a).
  destruct (skip_slashes_app a b) as [->|(c & a1 & Hc & -> & Ha)].
  - rewrite skip_slashes_noslash, span_slash_noslash by done. rewrite Z.geb_leb. by destruct (Z.leb_spec FILE_NAME_LENGTH (len b)).
  - cbn. rewrite Hc. destruct (span_slash_app a1 b) as (nm & a2 & -> & Ha2). destruct (_ >=? _); [done|]. apply IH; [|done].
    rewrite length_app in *. cbn in *. lia.
Qed.

(** The directory and the name in it, as [get_dir_fd] cuts them. *)
Definition cut_path (q : list byte) : list byte * list byte :=
  match last_slash q with
  | None => (q, [dot])
  | Some (a, b) => (b, a ++ [slash; dot])
  end.

Lemma cut_absolute q p : head p = Some slash -> copied_path (Some p) = (0, Some q) ->
  head (cut_path q).2 = Some slash /\ len (cut_path q).1 < FILE_NAME_LENGTH.
Proof.
  intros Hp. unfold copied_path. destruct (len p =? 0); [done|]. destruct (_ || _) eqn:E; [done|]. apply orb_false_iff in E as [_ Hlong]. intros [= <-].
  destruct p as [|c p]; [done|]. injection Hp as ->. set (path := slash :: p) in *.
  assert (exists a b, path = a ++ slash :: b /\ (slash ∉ b)) as (a & b & Eab & Hb).
  { destruct (last_slash path) as [[a b]|] eqn:E; [exists a, b; by apply last_slash_inv|]. unfold path in E. cbn in E. by destruct (last_slash p) as [[]|]. }
  assert (head (a ++ [slash; dot]) = Some slash) as Hhead.
  { unfold path in Eab. destruct a as [|d a]; [done|]. injection Eab as <- _. done. }
  destruct (match last path with Some c => is_slash c | None => false end) eqn:Elast.
  - assert (b = []) as ->.
    { destruct b as [|d b _] using rev_ind; [done|]. assert (path = (a ++ slash :: b) ++ [d]) as E by (by rewrite Eab, <- app_assoc).
      rewrite E, last_snoc in Elast. apply bool_decide_eq_true in Elast as ->. exfalso. apply Hb. set_solver. }
    unfold cut_path. rewrite Eab, <- app_assoc. cbn [app]. rewrite last_slash_app by (apply not_elem_of_cons; split; [done|apply not_elem_of_nil]).
    cbn. done.
  - unfold cut_path. rewrite Eab, last_slash_app by done. split; [exact Hhead|]. rewrite Eab in Hlong. eapply long_name_last; done.
Qed.

Lemma copied_cases p : (exists q, copied_path (Some p) = (0, Some q)) \/ exists err, copied_path (Some p) = (err, None) /\ err <> 0.
Proof. unfold copied_path. destruct (len p =? 0); [right; by eexists|]. destruct (_ || _); [right|left]; by eexists. Qed.

(** ** A tree that grows *)

Lemma find_insert {T} (f g : T -> bool) l1 x l2 t :
  (forall y, y ∈ l1 ++ l2 -> f y = g y) -> List.find g (l1 ++ x :: l2) = Some t -> t = x \/ List.find f (l1 ++ l2) = Some t.
Proof.
  induction l1 as [|y l1 IH]; cbn; intros Hf.
  - destruct (g x); [intros [= <-]; by left|]. intros H. right. rewrite <- H. clear H. induction l2 as [|z l2 IH]; [done|]. cbn.
    rewrite (Hf z) by (by left). destruct (g z); [done|]. apply IH. intros w Hw. apply Hf. by right.
  - rewrite (Hf y) by (by left). destruct (g y); [by right|]. apply IH. intros w Hw. apply Hf. by right.
Qed.

Lemma find_same {T} (f g : T -> bool) l : (forall y, y ∈ l -> f y = g y) -> List.find f l = List.find g l.
Proof. induction l as [|x l IH]; intros H; [done|]. cbn. rewrite (H x) by (by left). destruct (g x); [done|]. apply IH. intros y Hy. apply H. by right. Qed.

Section grown.
Context (nsp : nspace) (dir : Z) (d : rnode) (name : list byte) (mode : Z) (s : rstate) (C : Z -> list Z) (sp : rspace) (p : Z) (s' : rstate).
Abbreviation ns := (ns_data nsp).
Context (Hfy : filesys ns s C sp) (Hd : r_nodes s !! dir = Some d) (Hdns : rn_ns d = ns) (Hmode : MY_S_ISLNK mode = false).
Context (Hmade : created ns dir name mode s C sp p s') (Hclosed : closed nsp C s).

(** A node that was there is there, and in the same place. *)
Lemma grown_old q m : r_nodes s !! q = Some m -> exists m', r_nodes s' !! q = Some m' /\ alike m m'.
Proof.
  intros Hq. assert (q <> p) as Hne by (intros ->; destruct Hmade as (? & ? & ? & _ & Hp & _); congruence).
  pose proof (made_old _ _ _ _ _ _ _ _ _ Hmade q Hne) as Ho. rewrite Hq in Ho. destruct (r_nodes s' !! q) as [m'|]; [by exists m'|done].
Qed.
Lemma grown_name q m file : r_nodes s !! q = Some m -> is_name (r_nodes s) file q = is_name (r_nodes s') file q.
Proof.
  intros Hq. destruct (grown_old q m Hq) as (m' & Hq' & En & _). unfold is_name, name_at. rewrite Hq, Hq'. unfold name_of. by rewrite En.
Qed.

Definition fine (N : gmap Z rnode) (t : Z) : Prop :=
  exists v, N !! t = Some v /\ rn_ns v = ns /\ (MY_S_ISLNK (rn_mode v) = true -> is_Some (str_of (rn_symlink v))).
Lemma grown_fine t : fine (r_nodes s) t -> fine (r_nodes s') t.
Proof.
  intros (v & Hv & Hns & Hl). destruct (grown_old t v Hv) as (v' & Hv' & (_ & _ & E1 & _ & _ & E2 & E3)). exists v'. split; [done|].
  rewrite E1, E2, E3. done.
Qed.
Lemma made_fine : fine (r_nodes s') p.
Proof.
  destruct (made_new _ _ _ _ _ _ _ _ _ Hmade) as (m & Hm & E). exists m. injection E as E1 E2 E3 E4 E5 E6 E7 E8 E9 E10. split; [done|]. split; [done|].
  rewrite E9 in *. congruence.
Qed.

Lemma grown_closed l1 l2 sp' : C dir = l1 ++ l2 -> filesys ns s' (upd_dir dir (l1 ++ p :: l2) C) sp' -> closed nsp (upd_dir dir (l1 ++ p :: l2) C) s'.
Proof.
  intros EC Hfy' base b file t Hb Hns. unfold walk_target.
  assert (forall q, q ∈ C base -> exists m, r_nodes s !! q = Some m) as Hin.
  { intros q Hq. destruct (tr_child _ _ _ _ (fy_tree _ _ _ _ Hfy) base q Hq) as (m & _ & Hm & _). rewrite lookup_fmap in Hm.
    destruct (r_nodes s !! q) as [z|]; [by exists z|done]. }
  assert (base = p \/ exists b0, r_nodes s !! base = Some b0 /\ alike b0 b) as [->|(b0 & Hb0 & Hal)].
  { destruct (decide (base = p)) as [->|Hne]; [by left|right]. pose proof (made_old _ _ _ _ _ _ _ _ _ Hmade base Hne) as Ho. rewrite Hb in Ho.
    destruct (r_nodes s !! base) as [b0|]; [by exists b0|done]. }
  - destruct (made_new _ _ _ _ _ _ _ _ _ Hmade) as (m & Hm & E). assert (b = m) as -> by congruence. injection E as E1 E2 E3 E4 E5 E6 E7 E8 E9 E10.
    destruct (decide _); [intros [= <-]; apply made_fine|]. destruct (decide _).
    + intros [= <-]. rewrite E5. destruct (grown_old dir d Hd) as (d' & Hd' & Hal). exists d'. split; [done|]. destruct Hal as (_ & _ & -> & _ & _ & -> & ->).
      split; [done|]. destruct (Hclosed dir d [dot] dir Hd Hdns eq_refl) as (x & Hx & _ & Hl). assert (x = d) as -> by congruence. done.
    + assert (p <> dir) as Hne by (intros ->; destruct Hmade as (? & ? & ? & _ & Hp & _); congruence). rewrite upd_dir_ne by done. intros Hf.
      apply List.find_some in Hf as [Hf _]. apply list_elem_of_In in Hf. apply grown_fine.
      assert (C p = []) as E; [|rewrite E in Hf; by apply elem_of_nil in Hf].
      destruct (C p) as [|z zs] eqn:E; [done|]. destruct (tr_dir _ _ _ _ (fy_tree _ _ _ _ Hfy) p ltac:(by rewrite E)) as (x & Hx & _).
      rewrite lookup_fmap in Hx. destruct Hmade as (? & ? & ? & _ & Hp & _). by rewrite Hp in Hx.
  - pose proof Hal as (_ & _ & A1 & _ & A2 & _ & _). assert (rn_ns b0 = ns) as Hns0 by congruence.
    assert (forall t0, walk_target (r_nodes s) C base b0 file = Some t0 -> fine (r_nodes s') t0) as Hold.
    { intros t0 Ht0. apply grown_fine. exact (Hclosed base b0 file t0 Hb0 Hns0 Ht0). }
    unfold walk_target in Hold. rewrite A2. destruct (decide _); [intros Ht; by apply Hold|]. destruct (decide _); [intros Ht; by apply Hold|].
    destruct (decide (base = dir)) as [->|Hne].
    + rewrite upd_dir_eq. intros Hf. apply (find_insert (is_name (r_nodes s) file)) in Hf as [->|Hf]; [apply made_fine|apply Hold; by rewrite EC|].
      intros y Hy. rewrite <- EC in Hy. destruct (Hin y Hy) as [m Hm]. by eapply grown_name.
    + rewrite upd_dir_ne by done. intros Hf. apply Hold. rewrite <- Hf. apply find_same. intros y Hy. destruct (Hin y Hy) as [m Hm]. by eapply grown_name.
Qed.

Lemma grown_num t m : r_nodes s !! t = Some m -> num_of s' t = num_of s t.
Proof. intros Hm. destruct (grown_old t m Hm) as (m' & Hm' & (_ & _ & _ & E & _)). unfold num_of. by rewrite Hm, Hm', E. Qed.
End grown.

Lemma copied_head p q : head p = Some slash -> copied_path (Some p) = (0, Some q) -> head q = Some slash.
Proof.
  unfold copied_path. destruct (len p =? 0); [done|]. destruct (_ || _); [done|]. destruct p as [|c p]; [done|]. intros Hp [= <-].
  destruct (match last (c :: p) with Some c => is_slash c | None => false end); exact Hp.
Qed.

Section calls.
Context (addr : Z) (ops : gmap Z Z) (r0 : Z) (NB : gmap Z nspace) (n : nat).
Abbreviation kstate := (Vnode.kstate (X := rstate)).
Abbreviation stands L := (VnodeSpec.stands r_host (rootfs_contract addr ops (Some r0) L) NB n).
Abbreviation rootfs_ops := (fun _ : Z => rootfs r_host rset_host (fun s : rstate => s) (fun s _ => s) rootfs_table).
Abbreviation at_top := (at_top addr ops r0 NB n).
Abbreviation path_post := (path_post addr ops r0 NB n).

Section top.
Context (L : gmap Z Z) (p0 : Z) (nsp : nspace) (C : Z -> list Z) (sp : rspace).
Abbreviation at_top := (at_top L p0 nsp C sp).
Abbreviation path_post := (path_post L nsp C sp).
Abbreviation resolves s := (resolves (r_nodes (k_ext s)) C (rs_root sp)).

(** One more reference to a vnode that is held. *)
Lemma at_top_more s s' A k e :
  at_top s A -> A !! k = Some e -> 0 < e_refs e -> stands L s' (<[k := more e]> A) -> k_ext s' = k_ext s -> at_top s' (<[k := more e]> A).
Proof.
  intros [T1 T2 T3 T4 T5 T6 T7 T8 (er & T9 & Er & Edr & Hr) T10] Hk He Hst Hx. split; try done; try by rewrite Hx.
  - by apply (on_calm _ _ _ (onward_more k e A Hk)).
  - rewrite Hx. destruct (decide (key sp (k_ext s) (rs_root sp) = k)) as [E|Hne]; [|exists er; by rewrite lookup_insert_ne].
    rewrite E in *. assert (er = e) as -> by congruence. exists (more e). rewrite lookup_insert_eq. split_and!; [done..|]. cbn. lia.
  - assert (VnodeSpec.held (<[k := more e]> A) = VnodeSpec.held A) as ->; [|done]. apply set_eq. intros j. rewrite !elem_of_held.
    destruct (decide (k = j)) as [<-|Hne]; [rewrite lookup_insert_eq|by rewrite lookup_insert_ne]. split.
    + intros _. by exists e.
    + intros _. exists (more e). split; [done|]. unfold is_held, more in *. cbn. lia.
Qed.

(** [from_root]: the path without its leading slashes, from the root. *)
Lemma from_root_wp p eat s A :
  at_top s A -> wp (from_root r_host rset_host rootfs_ops p eat)
    (fun x s' => exists r, resolves s eat (Z.to_nat MAX_SYM_LINKS) (rs_root sp) (skip_slashes p) r /\ path_post s A (fun _ => 0) r x s') s.
Proof.
  intros Ht. pose proof Ht as [T1 _ _ _ _ _ _ _ (er & T9 & Er & Edr & Hr) _]. unfold from_root. wp_step.
  eapply (the_root_wp r_host (rootfs_contract addr ops (Some r0) L) NB n r0); [exact T1|done|]. wp_step. rewrite <- Er.
  eapply (inc_vnode_wp r_host (rootfs_contract addr ops (Some r0) L) NB n _ er); [exact T1|exact T9|exact Hr|]. intros s1 Hst1 Hx1.
  pose proof (at_top_more s s1 A _ er Ht T9 Hr Hst1 Hx1) as Ht1. set (k := key sp (k_ext s) (rs_root sp)) in *. eapply wp_mono.
  - apply (parse_path_wp addr ops r0 NB n L p0 nsp C sp (rs_root sp) (more er)) with (A := <[k := more er]> A); [exact Ht1| |exact Edr|cbn; lia|cbn; lia].
    rewrite Hx1. apply lookup_insert_eq.
  - cbn beta. unfold RootfsPath.path_post. rewrite Hx1. intros x s' (r & Hres & Hq & Hfy & A' & Hst' & Hc & Hrefs). exists r. rewrite Er in *. split; [exact Hres|].
    split; [done|]. split; [done|]. exists A'. split; [done|]. split; [done|]. fold k in Hrefs.
    assert (forall j, refs (<[k := more er]> A) j - one k j = refs A j - 0) as E by (intros j; rewrite (on_refs _ _ _ (onward_more k er A T9)); lia).
    destruct r as [t|err]; (destruct Hrefs as [Hx Hrefs]; split; [done|]; intros j; rewrite Hrefs; specialize (E j); lia).
Qed.

(** The directory of an absolute path. *)
Definition dir_post (p : list byte) (s : kstate) (A : table) (x : Z * list byte * option Z) (s' : kstate) : Prop :=
  match copied_path (Some p) with
  | (0, Some q) => exists r, resolves s true (Z.to_nat MAX_SYM_LINKS) (rs_root sp) (skip_slashes (cut_path q).2) r /\
      x.1.2 = (cut_path q).1 /\ path_post s A (fun _ => 0) r (x.1.1, x.2) s'
  | (err, _) => x.1.1 = err /\ err <> 0 /\ path_post s A (fun _ => 0) (Fails err) (err, None) s'
  end.

Lemma path_post_quiet s s1 A r x s' :
  k_ext s1 = rset_host (r_host (k_ext s1)) (k_ext s) -> quiet (k_ext s) (k_ext s1) -> path_post s1 A (fun _ => 0) r x s' -> path_post s A (fun _ => 0) r x s'.
Proof.
  intros E Hq (H1 & H2 & A' & H3 & H4 & H5). split; [by etrans|]. split; [done|]. exists A'. split; [done|].
  unfold settled, key, num_of in *. rewrite E in H4, H5. by split.
Qed.

Lemma at_top_host h s A :
  at_top s A -> no_oom h -> h_brk (r_host (k_ext s)) <= h_brk h -> at_top (KS (k_layer s) (rset_host h (k_ext s))) A.
Proof.
  intros [T1 T2 T3 T4 T5 T6 T7 T8 T9 T10] Hm Hb. split; try done; [|by apply filesys_host].
  pose proof T1 as (B & Hi & _). apply (stands_change addr ops (Some r0) NB n L L s); [done|done| |done|done].
  apply sound_host; [exact (iv_good _ _ _ _ _ _ _ _ _ Hi)|done|done].
Qed.

(** The error of the copy. *)
Lemma failed_post err h s A (s1 := KS (k_layer s) (rset_host h (k_ext s))) :
  at_top s A -> at_top s1 A -> h_brk (r_host (k_ext s)) <= h_brk h -> path_post s A (fun _ => 0) (Fails err) (err, None) s1.
Proof.
  intros Ht Ht1 Hb. split; [by split|]. split; [apply Ht1|]. exists A. split; [apply Ht1|]. split.
  - split; [apply Ht|]. destruct (tp_root _ _ _ _ _ _ _ _ _ _ _ _ Ht) as (er & ? & ? & ? & _). by exists er.
  - split; [done|]. intros. lia.
Qed.

Lemma get_dir_wp kernel fd p s A :
  at_top s A -> head p = Some slash -> wp (get_dir_fd r_host rset_host rootfs_ops kernel fd (Some p)) (dir_post p s A) s.
Proof.
  intros Ht Hp. pose proof Ht as [T1 T2 _ _ _ _ T7 _ _ _]. pose proof T1 as (B & Hi & _). pose proof (iv_good _ _ _ _ _ _ _ _ _ Hi) as Hs.
  unfold get_dir_fd, dir_post. wp_step. apply new_path_wp; [exact (sd_memory _ _ Hs)|]. intros h Hmem Hbrk.
  pose proof (at_top_host h s A Ht Hmem Hbrk) as Ht1. set (s1 := KS (k_layer s) (rset_host h (k_ext s))) in *.
  assert (quiet (k_ext s) (k_ext s1)) as Hq by (by split).
  destruct (copied_cases p) as [(q & Ecp)|(err & Ecp & Herr)]; rewrite Ecp; cbn [negb Z.eqb].
  - destruct (cut_absolute q p Hp Ecp) as [Hdir _]. wp_step. wp_step. unfold cut_path in *.
    assert (forall nm dir, head dir = Some slash -> wp ('(err, dvn) ← parse_path_fd r_host rset_host rootfs_ops kernel fd (Some dir) true; mret (err, nm, dvn))
      (fun (x : Z * list byte * option Z) s' => exists r, resolves s true (Z.to_nat MAX_SYM_LINKS) (rs_root sp) (skip_slashes dir) r /\ x.1.2 = nm /\ path_post s A (fun _ => 0) r (x.1.1, x.2) s') s1) as Hgo.
    { intros nm dir Hhead. wp_step. unfold parse_path_fd, is_absolute. cbn [mbind option_bind]. rewrite bool_decide_true by done.
      eapply wp_mono; [by apply from_root_wp|]. cbn beta. intros [err dvn] s' (r & Hres & Hpost). wp_step. exists r. split; [exact Hres|]. split; [done|].
      by apply (path_post_quiet s s1). }
    destruct (last_slash q) as [[a b]|]; [by apply (Hgo b (a ++ [slash; dot]))|by apply (Hgo q [dot])].
  - rewrite (proj2 (Z.eqb_neq err 0)) by done. cbn [negb]. wp_step. cbn [fst snd]. destruct err; [done|..]; (split; [done|]; split; [done|]; by apply failed_post).
Qed.
End top.

(** The vnode of an absolute path. *)
Definition file_post (L : gmap Z Z) (nsp : nspace) (C : Z -> list Z) (sp : rspace) (p : list byte) (eat : bool) (s : kstate) (A : table) (x : Z * option Z) (s' : kstate) : Prop :=
  match copied_path (Some p) with
  | (0, Some q) => exists r,
      resolves (r_nodes (k_ext s)) C (rs_root sp) eat (Z.to_nat MAX_SYM_LINKS) (rs_root sp) (skip_slashes q) r /\
      path_post L nsp C sp s A (fun _ => 0) r x s'
  | (err, _) => path_post L nsp C sp s A (fun _ => 0) (Fails err) x s'
  end.

Lemma get_file_wp L p0 nsp C sp kernel fd p eat s A :
  at_top L p0 nsp C sp s A -> head p = Some slash -> wp (get_file_fd r_host rset_host rootfs_ops kernel fd (Some p) eat) (file_post L nsp C sp p eat s A) s.
Proof.
  intros Ht Hp. pose proof (tp_stands _ _ _ _ _ _ _ _ _ _ _ _ Ht) as (B & Hi & _). pose proof (iv_good _ _ _ _ _ _ _ _ _ Hi) as Hs.
  unfold get_file_fd, file_post. wp_step. apply new_path_wp; [exact (sd_memory _ _ Hs)|]. intros h Hmem Hbrk.
  pose proof (at_top_host L p0 nsp C sp h s A Ht Hmem Hbrk) as Ht1. set (s1 := KS (k_layer s) (rset_host h (k_ext s))) in *.
  assert (quiet (k_ext s) (k_ext s1)) as Hq by (by split).
  destruct (copied_cases p) as [(q & Ecp)|(err & Ecp & Herr)]; rewrite Ecp; cbn [negb Z.eqb].
  - unfold parse_path_fd, is_absolute. cbn [mbind option_bind]. rewrite bool_decide_true by (by apply (copied_head p)).
    eapply wp_mono; [by apply (from_root_wp L p0 nsp C sp)|]. cbn beta. intros x s' (r & Hres & Hpost). exists r. split; [exact Hres|].
    by apply (path_post_quiet L nsp C sp s s1).
  - rewrite (proj2 (Z.eqb_neq err 0)) by done. cbn [negb]. wp_step.
    pose proof (failed_post L p0 nsp C sp err h s A Ht Ht1 Hbrk). by destruct err.
Qed.

(** ** [sys_mkdir] *)

Definition dir_bits (perms : Z) : Z := u32 (Z.lor (Z.land perms (Z.lnot MY_S_IFMT)) MY_S_IFDIR).
Lemma dir_bits_dir perms : MY_S_ISLNK (dir_bits perms) = false.
Proof. unfold MY_S_ISLNK, dir_bits. by rewrite dir_mode. Qed.

(** Creating a node keeps the table and the tree. *)
Lemma create_grows t d name mode nsp C sp r s A x :
  stands {[ns_data nsp := 1]} s A -> filesys (ns_data nsp) (k_ext s) C sp -> closed nsp C (k_ext s) -> l_c (rs_lock sp) = 1 ->
  r_nodes (k_ext s) !! t = Some d -> rn_ns d = ns_data nsp -> MY_S_ISLNK mode = false ->
  create_post (ns_data nsp) t name mode (k_ext s) C sp r x ->
  stands {[ns_data nsp := 1]} (KS (k_layer s) x) A /\ exists C' sp', filesys (ns_data nsp) x C' sp' /\ closed nsp C' x /\
    rs_nsid sp' = rs_nsid sp /\ rs_root sp' = rs_root sp /\ num_of x (rs_root sp) = num_of (k_ext s) (rs_root sp).
Proof.
  intros Hst Hfy Hcl Hl Hd Hdns Hmode (d0 & Hd0 & Hpost). assert (d0 = d) as -> by congruence.
  assert (x = k_ext s -> stands {[ns_data nsp := 1]} (KS (k_layer s) x) A /\ exists C' sp', filesys (ns_data nsp) x C' sp' /\ closed nsp C' x /\
    rs_nsid sp' = rs_nsid sp /\ rs_root sp' = rs_root sp /\ num_of x (rs_root sp) = num_of (k_ext s) (rs_root sp)) as Hsame.
  { intros ->. split; [by destruct s|]. by exists C, sp. }
  destruct (negb _); [destruct Hpost; by apply Hsame|]. destruct (rn_removed d); [destruct Hpost; by apply Hsame|].
  destruct (decide _); [destruct Hpost; by apply Hsame|]. clear Hsame.
  destruct Hpost as (p & _ & Hmade). pose proof Hst as (B & Hi & _). pose proof (iv_good _ _ _ _ _ _ _ _ _ Hi) as Hs. cbn in Hs.
  pose proof Hmade as (l1 & l2 & sp' & EC & _ & Hfy' & _ & _ & Ei & Er & _ & Hb). split.
  - apply (stands_change addr ops (Some r0) NB n {[ns_data nsp := 1]}); [done|done| | |done].
    + eapply made_sound; [exact Hfy|exact Hmade|exact Hs|exact Hl].
    + eapply made_fresh. exact Hmade.
  - exists (upd_dir t (l1 ++ p :: l2) C), sp'. split; [done|]. split; [eapply (grown_closed nsp t d); try done|]. split; [done|]. split; [done|].
    pose proof (fy_root _ _ _ _ Hfy) as [m Hm]%elem_of_dom. eapply (grown_num nsp); done.
Qed.

Lemma held_refs A A' : (forall k, refs A' k = refs A k) -> VnodeSpec.held A' = VnodeSpec.held A.
Proof.
  assert (forall T k, k ∈ VnodeSpec.held T <-> 0 < refs T k) as Hh.
  { intros T k. rewrite elem_of_held. split.
    - intros (e & He & Hp). by rewrite (refs_at T k e He).
    - intros Hp. destruct (held_at T k Hp) as (e & He & E). exists e. unfold is_held. by rewrite E. }
  intros H. apply set_eq. intros k. by rewrite !Hh, H.
Qed.

(** The tree has changed and the counts are the same. *)
Lemma at_top_again L p0 nsp C sp s A C' sp' s' A' :
  at_top L p0 nsp C sp s A -> stands L s' A' -> settled r0 sp' (k_ext s') A' -> filesys (ns_data nsp) (k_ext s') C' sp' -> closed nsp C' (k_ext s') ->
  rs_nsid sp' = rs_nsid sp -> key sp' (k_ext s') (rs_root sp') = key sp (k_ext s) (rs_root sp) -> (forall k, refs A' k = refs A k) ->
  at_top L p0 nsp C' sp' s' A'.
Proof.
  intros [T1 T2 T3 T4 T5 T6 T7 T8 (er & T9 & Er & Edr & Hr) T10] Hst [Hc (e & He & E1 & E2)] Hfy Hcl Ei Ek Hrefs. split; try done.
  - by rewrite Ei.
  - exists e. split_and!; [done..|]. rewrite <- (refs_at A' _ e He), Hrefs, Ek, (refs_at A _ er T9). done.
  - by rewrite (held_refs A A' Hrefs).
Qed.

(** What [sys_mkdir] makes of the path [p] in the tree. *)
Definition mkdir_post (ns : Z) (C : Z -> list Z) (sp : rspace) (p : list byte) (perms : Z) (x : rstate) (err : Z) (x' : rstate) : Prop :=
  match copied_path (Some p) with
  | (0, Some q) => exists r,
      resolves (r_nodes x) C (rs_root sp) true (Z.to_nat MAX_SYM_LINKS) (rs_root sp) (skip_slashes (cut_path q).2) r /\
      match r with
      | Found t => exists x1 x2 vn, quiet x x1 /\ create_post ns t (cut_path q).1 (dir_bits perms) x1 C sp (err, vn) x2 /\ quiet x2 x'
      | Fails e => err = e /\ quiet x x'
      end
  | (e, _) => err = e /\ quiet x x'
  end.

Lemma closed_same nsp C x x' : r_nodes x' = r_nodes x -> closed nsp C x -> closed nsp C x'.
Proof. unfold closed. by intros ->. Qed.
Lemma key_same sp x x' t : r_nodes x' = r_nodes x -> key sp x' t = key sp x t.
Proof. unfold key, num_of. by intros ->. Qed.

(** In the directory that was found. *)
Lemma mkdir_at t e name perms p0 nsp C sp s s1 A A1 (L := {[ns_data nsp := 1]} : gmap Z Z) :
  at_top L p0 nsp C sp s A -> quiet (k_ext s) (k_ext s1) -> filesys (ns_data nsp) (k_ext s1) C sp -> stands L s1 A1 -> settled r0 sp (k_ext s) A1 ->
  A1 !! key sp (k_ext s) t = Some e -> e_data e = Some t -> (forall k, refs A1 k = refs A k - 0 + one (key sp (k_ext s) t) k) ->
  len name < FILE_NAME_LENGTH -> 0 <= rs_nxvnid sp < 2 ^ 63 - 1 ->
  wp ('(ops, data, vd) ← ops_of rootfs_ops (e_at e);
      match (op ← vo_mkdir ops; Some (fun data vd name => op data vd name perms)) with
      | None => _ ← VnodeOps.dec_vnode rootfs_ops (e_at e); mret EINVAL
      | Some f => r ← f data vd name; _ ← VnodeOps.dec_vnode rootfs_ops (e_at e); mret r
      end)
    (fun err s' => (exists x2 vn, create_post (ns_data nsp) t name (dir_bits perms) (k_ext s1) C sp (err, vn) x2 /\ quiet x2 (k_ext s')) /\
       exists C' sp' A', at_top L p0 nsp C' sp' s' A' /\ forall k, refs A' k = refs A k) s1.
Proof.
  intros Ht Hq Hfy Hst [Hcalm Hroot] He Ed Hrefs Hlen Hnum. destruct (quiet_nodes _ _ Hq) as (EN & _).
  pose proof Ht as [T1 _ T3 T4 T5 _ _ T8 _ _]. destruct (entry_node addr ops r0 NB n L p0 nsp sp s1 A1 t e) as (d & Hd & Hdns);
    [done|done|by rewrite (key_same sp _ _ t EN)|done|].
  assert (l_c (rs_lock sp) = 1) as Hl1.
  { destruct Hst as (B & Hi & _). destruct (sd_spaces _ _ (iv_good _ _ _ _ _ _ _ _ _ Hi) _ 1 T4) as (sp' & H1 & H2 & _). pose proof (fy_space _ _ _ _ Hfy). congruence. }
  wp_step. eapply (ops_of_wp r_host rootfs_ops (rootfs_contract addr ops (Some r0) L) NB n (rs_nsid sp) (num_of (k_ext s) t) p0 nsp e); [exact Hst|exact He|exact T5|].
  intros a _ _. rewrite Ed. cbn [rootfs vo_mkdir mbind option_bind]. wp_step. apply in_fs_wp.
  eapply wp_mono; [apply (mkdir_wp (ns_data nsp) t d name perms (k_ext s1) C sp); unfold in_i64; try done; lia|].
  cbn beta. intros err x2 (r & Hmk & ->).
  destruct (create_grows t d _ _ nsp C sp r s1 A1 x2 Hst Hfy (closed_same _ _ _ _ EN T8) Hl1 Hd Hdns (dir_bits_dir perms) Hmk) as (Hst2 & C' & sp' & Hfy2 & Hcl2 & Ei & Er & En).
  wp_step. unfold VnodeOps.dec_vnode. pose proof (refs_at A1 _ e He) as Ere. rewrite Hrefs in Ere. pose proof (stands_refs r_host _ NB n s A (key sp (k_ext s) t) T1) as Hpos.
  unfold one in Ere. rewrite decide_True in Ere by done. destruct (Hcalm _ e He) as [Hrm _].
  eapply (dec_vnode_at r_host rset_host rootfs_ops (rootfs_contract addr ops (Some r0) L) NB n _ e); [exact T3|exact Hst2|exact He|lia|].
  intros s3 A3 Hst3 Hp3 (_ & _ & _ & Hq3). specialize (Hq3 Hrm). cbn [k_ext] in Hq3. destruct (quiet_nodes _ _ Hq3) as (EN3 & _).
  wp_step. split; [exists x2, r.2; by destruct r|]. pose proof (onward_given _ e A1 A3 He Hrm Hp3) as Hon.
  assert (forall k, refs A3 k = refs A k) as Hrefs3 by (intros k; rewrite (on_refs _ _ _ Hon), Hrefs; lia).
  assert (key sp' (k_ext s3) (rs_root sp') = key sp (k_ext s) (rs_root sp)) as Ek.
  { rewrite (key_same sp' _ _ _ EN3), Er. unfold key. rewrite Ei, En. unfold num_of. by rewrite EN. }
  exists C', sp', A3. split; [|done]. apply (at_top_again L p0 nsp C sp s A); try done.
  - split; [by apply (on_calm _ _ _ Hon)|]. rewrite Ek, Er. destruct Hroot as (er & Her & E1 & E2).
    destruct (on_same _ _ _ Hon _ er Her) as (er' & Her' & S1 & S2 & S3); [|exists er'; split_and!; congruence].
    rewrite Hrefs3. destruct (tp_root _ _ _ _ _ _ _ _ _ _ _ _ Ht) as (e0 & He0 & _ & _ & Hp0). by rewrite (refs_at A _ e0 He0).
  - destruct Hst3 as (B3 & Hi3 & _). eapply filesys_quiet; [exact Hfy2|exact Hq3|exact (sd_memory _ _ (iv_good _ _ _ _ _ _ _ _ _ Hi3))].
  - by apply (closed_same nsp C' x2).
Qed.

Lemma sys_mkdir_wp kernel fd p perms p0 nsp C sp s A :
  at_top {[ns_data nsp := 1]} p0 nsp C sp s A -> head p = Some slash -> 0 <= rs_nxvnid sp < 2 ^ 63 - 1 ->
  wp (sys_mkdir r_host rset_host rootfs_ops kernel fd (Some p) perms)
    (fun err s' => mkdir_post (ns_data nsp) C sp p perms (k_ext s) err (k_ext s') /\
       exists C' sp' A', at_top {[ns_data nsp := 1]} p0 nsp C' sp' s' A' /\ forall k, refs A' k = refs A k) s.
Proof.
  intros Ht Hp Hnum. set (L := {[ns_data nsp := 1]} : gmap Z Z) in *. unfold sys_mkdir, with_dir. wp_step.
  eapply wp_mono; [by apply (get_dir_wp L p0 nsp C sp kernel fd p s A Ht)|]. cbn beta. intros [[err name] dvn] s1 Hdir.
  unfold dir_post, mkdir_post in *. cbn [fst snd] in Hdir.
  assert (forall e o, path_post L nsp C sp s A (fun _ => 0) (Fails e) (err, o) s1 -> forall P : Prop, (quiet (k_ext s) (k_ext s1) -> P) ->
    P /\ exists C' sp' A', at_top L p0 nsp C' sp' s1 A' /\ forall k, refs A' k = refs A k) as Hfail.
  { intros e o (Hq & Hfy & A' & Hst & Hset & _ & Hrefs) P HP. split; [by apply HP|]. exists C, sp, A'. assert (forall k, refs A' k = refs A k) as Hr by (intros k; rewrite Hrefs; lia).
    split; [|done]. destruct (quiet_nodes _ _ Hq) as (EN & _). pose proof Ht as [_ _ _ _ _ _ _ T8 _ _]. apply (at_top_again L p0 nsp C sp s A); try done.
    - unfold settled. by rewrite (key_same sp _ _ _ EN).
    - by apply (closed_same nsp C (k_ext s)).
    - by apply key_same. }
  destruct (copied_cases p) as [(q & Ecp)|(e & Ecp & He)]; rewrite Ecp in *.
  2: { destruct e as [|e|e]; [done|..]; destruct Hdir as (-> & _ & Hpost); cbn [Z.eqb negb]; wp_step; eapply Hfail; try done. }
  destruct (cut_absolute q p Hp Ecp) as [_ Hlen]. destruct Hdir as (r & Hres & -> & Hpost). destruct r as [t|e].
  2: { pose proof Hpost as (Hq & _ & A' & Hst & _ & [= -> ->] & Hrefs). rewrite (proj2 (Z.eqb_neq e 0)) by (by eapply resolves_fails). cbn [negb].
       wp_step. eapply Hfail; [exact Hpost|]. intros _. by exists (Fails e). }
  destruct Hpost as (Hq & Hfy & A1 & Hst & Hset & (e & He & Ed & [= -> ->]) & Hrefs). cbn [Z.eqb negb]. wp_step. wp_step.
  eapply wp_mono; [by apply (mkdir_at t e (cut_path q).1 perms p0 nsp C sp s s1 A A1)|]. cbn beta.
  intros err s' [(x2 & vn & Hmk & Hq2) Hagain]. split; [|exact Hagain]. exists (Found t). split; [exact Hres|]. by exists (k_ext s1), x2, vn.
Qed.
End calls.

(** ** Properties *)

Section properties.
Context (addr : Z) (ops : gmap Z Z) (r0 : Z) (NB : gmap Z nspace) (n : nat).
Abbreviation kstate := (Vnode.kstate (X := rstate)).
Abbreviation at_top := (at_top addr ops r0 NB n).
Abbreviation rootfs_ops := (fun _ : Z => rootfs r_host rset_host (fun s : rstate => s) (fun s _ => s) rootfs_table).

(** C10. An absolute path leads the kernel where it leads in the tree: through
    at most sixteen symbolic links, each spliced into the path, [..] at the root
    staying there, with ENOTDIR, ENOENT, ELOOP and ENAMETOOLONG where they are
    due.  The vnode at the end has one reference more, no other vnode has lost
    or gained any, also after an error, and the tree is as before. *)
Theorem absolute_path_resolves L p0 nsp C sp kernel fd p eat (s : kstate) A :
  at_top L p0 nsp C sp s A -> head p = Some slash ->
  wp (get_file_fd r_host rset_host rootfs_ops kernel fd (Some p) eat) (file_post addr ops r0 NB n L nsp C sp p eat s A) s.
Proof. apply get_file_wp. Qed.

(** C11. [sys_mkdir] of an absolute path makes the directory, or says which
    error of the path or of [rootfs_mkdir] stopped it; every reference it took
    is given back, whatever happens, and the system is ready for the next
    call. *)
Theorem sys_mkdir_exact kernel fd p perms p0 nsp C sp (s : kstate) A :
  at_top {[ns_data nsp := 1]} p0 nsp C sp s A -> head p = Some slash -> 0 <= rs_nxvnid sp < 2 ^ 63 - 1 ->
  wp (sys_mkdir r_host rset_host rootfs_ops kernel fd (Some p) perms)
    (fun err s' => mkdir_post (ns_data nsp) C sp p perms (k_ext s) err (k_ext s') /\
       exists C' sp' A', at_top {[ns_data nsp := 1]} p0 nsp C' sp' s' A' /\ forall k, refs A' k = refs A k) s.
Proof. apply sys_mkdir_wp. Qed.
End properties.

(** ** The small file system as the root of the kernel *)

Definition with_root (r : option Z) (l : layer) : layer :=
  Layer (vns l) (lists l) (skiplist l) (nspaces l) (nstab l) (vnlock l) (usdvnnum l) (set_rootvn r (kern l)).

Lemma stands_root addr ops r r' L NB n l x A :
  VnodeSpec.stands r_host (rootfs_contract addr ops r L) NB n (KS l x) A ->
  VnodeSpec.stands r_host (rootfs_contract addr ops r' L) NB n (KS (with_root r' l) x) A.
Proof.
  intros (B & Hi & Hn). exists B. split; [|done]. pose proof (iv_fs _ _ _ _ _ _ _ _ _ Hi) as Hf.
  destruct Hi as [[C1 C2 C3 C4 C5 C6 C7] I2 I3 I4 I5 I6 I7 I8 [P1 P2] I10]. cbn in *. split; try done.
  unfold fixed_of. cbn. by rewrite <- Hf.
Qed.

Lemma sample_closed s : quiet (k_ext mount_state) (k_ext s) -> closed (nbody mount_ns) (fun _ => []) (k_ext s).
Proof.
  intros Hq base b file t Hb _. destruct (quiet_nodes _ _ Hq) as (EN & _). rewrite EN in *. apply sample_node in Hb as [-> ->].
  unfold walk_target. destruct (decide _); [intros [= <-]; exists sample_root; split; [apply lookup_singleton_eq|done]|].
  destruct (decide _); [intros [= <-]; exists sample_root; split; [apply lookup_singleton_eq|done]|done].
Qed.

Lemma root_at_top : exists s A q, at_top 80 mount_ops q mount_names 3 {[20 := 1]} 50 (nbody mount_ns) (fun _ => []) sample_space s A.
Proof.
  destruct root_held as ([l x] & q & Hs & Hq & Hfy). exists (KS (with_root (Some q) l) x), (mount_table q), q. cbn [k_ext] in *.
  pose proof (root_node (KS l x) Hq) as Hroot. split.
  - by apply (stands_root 80 mount_ops None).
  - intros k e. unfold mount_table. intros [<- <-]%lookup_singleton_Some. done.
  - right. by intros d c [<- <-]%lookup_singleton_Some.
  - apply lookup_singleton_eq.
  - exact mount_mounted.
  - done.
  - exact Hfy.
  - by apply (sample_closed (KS l x)).
  - exists (root_entry q). unfold key, num_of, mount_table. cbn [k_ext rs_root rs_nsid sample_space]. cbn [k_ext] in Hroot. rewrite Hroot.
    split; [apply lookup_singleton_eq|done].
  - rewrite held_root. lia.
Qed.

Lemma absolute_path_resolves_witness : exists s A q,
  wp (get_file_fd r_host rset_host (fun _ : Z => rootfs r_host rset_host (fun s : rstate => s) (fun s _ => s) rootfs_table) true (-1) (Some [slash; dot; dot]) true)
    (file_post 80 mount_ops q mount_names 3 {[20 := 1]} (nbody mount_ns) (fun _ => []) sample_space [slash; dot; dot] true s A) s.
Proof.
  destruct root_at_top as (s & A & q & Ht). exists s, A, q.
  apply (absolute_path_resolves 80 mount_ops q mount_names 3 {[20 := 1]} 50 (nbody mount_ns)); [exact Ht|reflexivity].
Defined.

Lemma sys_mkdir_exact_witness : exists s A q,
  wp (sys_mkdir r_host rset_host (fun _ : Z => rootfs r_host rset_host (fun s : rstate => s) (fun s _ => s) rootfs_table) true (-1) (Some [slash; x61]) 0)
    (fun err s' => mkdir_post 20 (fun _ => []) sample_space [slash; x61] 0 (k_ext s) err (k_ext s') /\
       exists C' sp' A', at_top 80 mount_ops q mount_names 3 {[20 := 1]} 50 (nbody mount_ns) C' sp' s' A' /\ forall k, refs A' k = refs A k) s.
Proof.
  destruct root_at_top as (s & A & q & Ht). exists s, A, q.
  apply (sys_mkdir_exact 80 mount_ops q mount_names 3 true (-1) [slash; x61] 0 50 (nbody mount_ns) (fun _ => []) sample_space s A); [exact Ht|reflexivity|cbn; lia].
Defined.
