(* ===== verification/File.v ===== *)
(** * File: vnode operations of myfs (file.c and the rest of dir.c)

    The operations the vnode layer calls.  In-memory inodes live in a heap,
    shared by the vnode layer (whose [data] pointers are addresses in it) and
    by these operations. *)

From S2P Require Import Prelude Bytes Compat Host SkipList Vnode.
From S2P Require Import BlockCache RamDisk BitVector Myfs Io Sample TmpBlocks Bitmap Inode DStream Dir.
Local Open Scope Z_scope.

(** Everything below the vnode layer: the file system and its inodes. *)
Record fsx (C : Type) := FX { x_fs : fs_state C; x_heap : gmap Z myfs_inode }.
Arguments FX {C} x_fs x_heap.
Arguments x_fs {C}.
Arguments x_heap {C}.

Definition mask_has (mask bit : Z) : bool := negb (Z.land mask bit =? 0).

Section below.
Context {C : Type} `{BlockCache C}.
Abbreviation X := (fsx C).

Definition fsx_host (x : X) : host := fs_host (x_fs x).
Definition fsx_set_host (h : host) (x : X) : X := FX (upd_host h (x_fs x)) (x_heap x).

Definition in_fs {A} (m : M (fs_state C) A) : M X A := zoom x_fs (fun s x => FX s (x_heap x)) m.

(** Access to an inode by address: a fault when it is freed or NULL. *)
Definition inode_at (p : Z) : M X myfs_inode := x ← get; opt (x_heap x !! p).
Definition put_inode (p : Z) (mi : myfs_inode) : M X unit :=
  modify (fun x => FX (x_fs x) (<[p := mi]> (x_heap x))).
Definition free_mi (p : Z) : M X unit := modify (fun x => FX (x_fs x) (delete p (x_heap x))).

(** Runs a routine on the inode at [p] and stores the inode it leaves. *)
Definition with_inode {A} (p : Z) (f : myfs_inode -> M (fs_state C) (A * myfs_inode)) : M X A :=
  mi ← inode_at p;
  '(a, mi) ← in_fs (f mi);
  _ ← put_inode p mi;
  mret a.

Definition check_inode (p : Z) : M X unit := mi ← inode_at p; in_fs (CHECK_INODE mi).

(** The result and [*node]. *)
Definition myfs_read_vnode (vnid : Z) : M X (Z * option Z) :=
  '(r, mi) ← in_fs (
    bsize ← bsize_of;
    mi ← in_host (malloc sizeof_myfs_inode);
    match mi with
    | None => mret (ENOMEM, None)
    | Some p =>
        metc ← in_host (malloc 40);
        match metc with
        | None => mret (ENOMEM, None)
        | Some e =>
            i ← myfs;
            '(addr, offset) ← opt (inode_slot i bsize vnid);
            block ← in_cache (get_block (fd i) addr bsize);
            match block with
            | None => mret (EINVAL, None)
            | Some b =>
                d ← in_cache (load b);
                d ← opt (read_at offset sizeof_myfs_inode d);
                _ ← in_cache (release_block (fd i) addr);
                let mi := mi_set_etc (Some (e, Etc None 0)) (decode_inode d) in
                _ ← CHECK_INODE mi;
                _ ← in_host new_lock;
                mret (0, Some (p, mi))
            end
        end
    end);
  match mi with
  | Some (p, mi) => _ ← put_inode p mi; mret (r, Some p)
  | None => mret (r, None)
  end.

Definition myfs_release_vnode (node : option Z) : M X Z :=
  p ← opt node;
  _ ← check_inode p;
  _ ← free_mi p;
  mret 0.

Definition myfs_remove_vnode (node : option Z) : M X Z :=
  p ← opt node;
  _ ← check_inode p;
  mi ← inode_at p;
  _ ← in_fs (
    '(_, mi) ← myfs_free_data_stream mi;
    myfs_free_inode (inode_num mi));
  _ ← free_mi p;
  mret 0.

(** The vnode layer's view of myfs. *)
Definition myfs_ops : Vnode.fs_ops X :=
  Vnode.FsOps X (fun _ vnid _ => myfs_read_vnode vnid) (fun _ d _ => myfs_release_vnode d)
    (fun _ d _ => myfs_remove_vnode d).

Definition myfs_access (p mode : Z) : M X Z := _ ← check_inode p; mret 0.

(** The result and [*newfile]. *)
Definition make_file (mode : Z) : M X (Z * option Z) :=
  r ← in_fs (myfs_allocate_inode mode);
  match r with
  | None => mret (ENOSPC, None)
  | Some (p, mi) =>
      let mi := mi_set_mode (Z.lor (i_mode mi) MY_S_IFREG) mi in
      _ ← put_inode p mi;
      _ ← in_fs (update_inode mi);
      mret (0, Some p)
  end.

Definition myfs_symlink (p : Z) : M X Z := mret EINVAL.
Definition myfs_readlink (p : Z) : M X Z := _ ← check_inode p; mret EINVAL.
Definition myfs_link (p : Z) : M X Z := mret EINVAL.
Definition myfs_rename (p q : Z) : M X Z := mret EINVAL.
Definition myfs_open (p omode : Z) : M X Z := _ ← check_inode p; mret 0.
Definition myfs_close (p : Z) : M X Z := _ ← check_inode p; mret 0.
Definition myfs_free_cookie (p : Z) : M X Z := _ ← check_inode p; mret 0.
Definition myfs_ioctl (p cmd : Z) : M X Z := _ ← check_inode p; mret EINVAL.
Definition myfs_fsync (p : Z) : M X Z := _ ← check_inode p; mret 0.

Definition myfs_read (p pos len : Z) : M X (Z * Z * list byte) :=
  _ ← check_inode p;
  mi ← inode_at p;
  in_fs (myfs_read_data_stream mi pos len).

Definition myfs_write (p pos : Z) (buf : list byte) (len : Z) : M X (Z * Z) :=
  _ ← check_inode p;
  with_inode p (fun mi => myfs_write_data_stream mi pos buf len).

Definition myfs_rstat (p : Z) : M X (Z * my_stat) :=
  _ ← check_inode p;
  mi ← inode_at p;
  now ← in_fs (in_host time_null);
  i ← in_fs myfs;
  mret (0, Stat (fd i) (inode_num mi) (i_mode mi) 1 (i_uid mi) (i_gid mi) (size (data mi)) 1024
             now (last_modified_time mi) (last_modified_time mi) (create_time mi)).

Definition myfs_wstat (p : Z) (st : my_stat) (mask : Z) : M X Z :=
  _ ← check_inode p;
  if mask =? 0 then mret 0 else
  with_inode p (fun mi =>
    let mi := if mask_has mask WSTAT_MODE
              then mi_set_mode (Z.lor (Z.land (i_mode mi) MY_S_IFMT) (Z.land (st_mode st) MY_S_IUMSK)) mi
              else mi in
    let mi := if mask_has mask WSTAT_UID then mi_set_uid (st_uid st) mi else mi in
    let mi := if mask_has mask WSTAT_GID then mi_set_gid (st_gid st) mi else mi in
    '(err, mi) ←
      (if mask_has mask WSTAT_SIZE then
         if MY_S_ISDIR (i_mode mi) then mret (EISDIR, mi) else
         '(err, mi) ← myfs_set_file_size mi (st_size st);
         now ← in_host time_null;
         mret (err, mi_set_mtime now mi)
       else mret (0, mi));
    if negb (err =? 0) then mret (err, mi) else
    let mi := if mask_has mask WSTAT_CRTIME then mi_set_crtime (st_crtime st) mi else mi in
    let mi := if mask_has mask WSTAT_MTIME then mi_set_mtime (st_mtime st) mi else mi in
    _ ← update_inode mi;
    mret (0, mi)).

(** [free_lock], [free(mi->etc)] and [free(mi)] leave nothing behind: the new
    directory's inode is only on disk. *)
Definition myfs_mkdir (parent_dir : Z) (name : list byte) (mode : Z) : M X Z :=
  _ ← check_inode parent_dir;
  if is_dot name || is_dotdot name then mret EINVAL else
  if len name >=? FILE_NAME_LENGTH - 1 then mret ENAMETOOLONG else
  '(found, _) ← with_inode parent_dir (fun d => dir_lookup d name);
  if found =? 0 then mret EEXIST else
  parent ← inode_at parent_dir;
  '(ret, mi) ← in_fs (make_dir (Some parent) mode);
  if ret <? 0 then mret ret else
  '(_, mi) ← opt mi;
  ret ← with_inode parent_dir (fun parent => dir_insert parent name (inode_num mi));
  _ ← (if negb (ret =? 0) then in_fs (myfs_free_inode (inode_num mi)) else mret 0);
  mret ret.
End below.

(** ** Operations that go through the vnode layer *)
Section above.
Context {C : Type} `{BlockCache C}.
Abbreviation X := (fsx C).
Abbreviation KS := (Vnode.kstate (X:=X)).
(** The operations of every installed file system, myfs among them. *)
Context (fs_table : Z -> Vnode.fs_ops X).

Abbreviation get_vnode := (Vnode.get_vnode fsx_host fsx_set_host fs_table).
Abbreviation put_vnode := (Vnode.put_vnode fs_table).
Abbreviation new_vnode := (Vnode.new_vnode fsx_host fsx_set_host fs_table).
Abbreviation remove_vnode := Vnode.remove_vnode.

Definition my_nsid : M KS Z := i ← Vnode.in_ext (in_fs myfs); mret (nsid i).

(** The result and [*vnid]. *)
Definition myfs_walk (base : Z) (file : list byte) : M KS (Z * option Z) :=
  '(ret, vnid) ← Vnode.in_ext (with_inode base (fun d => dir_lookup d file));
  if negb (ret =? 0) then mret (ret, None) else
  v ← opt vnid;
  ns ← my_nsid;
  '(err, _) ← get_vnode ns v;
  if negb (err =? 0) then mret (ENOENT, vnid) else mret (0, vnid).

(** [make_file] reports its error as a positive number, which [ret < 0]
    does not see: the inode is then used uninitialised, a fault. *)
Definition myfs_create (dir : Z) (name : list byte) (omode mode : Z) : M KS (Z * option Z) :=
  _ ← Vnode.in_ext (check_inode dir);
  if is_dot name || is_dotdot name then mret (EINVAL, None) else
  if len name >=? FILE_NAME_LENGTH - 1 then mret (ENAMETOOLONG, None) else
  '(found, vnid) ← Vnode.in_ext (with_inode dir (fun d => dir_lookup d name));
  if found =? 0 then mret (EEXIST, vnid) else
  '(ret, mi) ← Vnode.in_ext (make_file mode);
  if ret <? 0 then mret (ret, None) else
  p ← opt mi;
  mi ← Vnode.in_ext (inode_at p);
  ret ← Vnode.in_ext (with_inode dir (fun parent => dir_insert parent name (inode_num mi)));
  if negb (ret =? 0) then
    _ ← Vnode.in_ext (in_fs (myfs_free_inode (inode_num mi)));
    _ ← Vnode.in_ext (free_mi p);
    mret (ret, None)
  else
    ns ← my_nsid;
    err ← new_vnode ns (inode_num mi) (Some p);
    if negb (err =? 0) then hang else mret (0, Some (inode_num mi)).

Definition myfs_unlink (dir : Z) (name : list byte) : M KS Z :=
  _ ← Vnode.in_ext (check_inode dir);
  '(ret, vnid) ← Vnode.in_ext (with_inode dir (fun d => dir_lookup d name));
  if negb (ret =? 0) then mret ret else
  vnid ← opt vnid;
  ns ← my_nsid;
  '(ret, p) ← get_vnode ns vnid;
  if negb (ret =? 0) then mret ret else
  p ← opt p;
  mi ← Vnode.in_ext (inode_at p);
  if MY_S_ISDIR (i_mode mi) then _ ← put_vnode ns vnid; mret EISDIR else
  ret ← Vnode.in_ext (with_inode dir (fun d => dir_delete d name));
  if negb (ret =? 0) then mret ret else
  _ ← remove_vnode ns vnid;
  _ ← put_vnode ns vnid;
  mret 0.

Definition myfs_rmdir (dir : Z) (name : list byte) : M KS Z :=
  _ ← Vnode.in_ext (check_inode dir);
  '(ret, vnid) ← Vnode.in_ext (with_inode dir (fun d => dir_lookup d name));
  if negb (ret =? 0) then mret ret else
  vnid ← opt vnid;
  ns ← my_nsid;
  '(ret, p) ← get_vnode ns vnid;
  if negb (ret =? 0) then mret ret else
  p ← opt p;
  mi ← Vnode.in_ext (inode_at p);
  if negb (MY_S_ISDIR (i_mode mi)) then _ ← put_vnode ns vnid; mret ENOTDIR else
  if size (data mi) >? MKDIR_BUFSIZE then _ ← put_vnode ns vnid; mret ENOTEMPTY else
  ret ← Vnode.in_ext (with_inode dir (fun d => dir_delete d name));
  if negb (ret =? 0) then mret ret else
  _ ← remove_vnode ns vnid;
  _ ← put_vnode ns vnid;
  mret 0.
End above.

(** ** Reading an inode back *)

Section file_specs.
Context {C : Type} {HC : BlockCache C} {HL : BlockCacheLaws C}.
Abbreviation X := (fsx C).

Lemma wp_in_fs {A} (m : M (fs_state C) A) (Q : A -> X -> Prop) x :
  wp m (fun a s => Q a (FX s (x_heap x))) (x_fs x) -> wp (in_fs m) Q x.
Proof. intros. unfold in_fs. by apply wp_zoom. Qed.

Lemma disk_ok_host h (s : fs_state C) : disk_ok s -> disk_ok (upd_host h s).
Proof. intros []. by split. Qed.

Lemma malloc_host_wp {A} n (k : option Z -> M (fs_state C) A) Q s :
  no_oom (fs_host s) ->
  (forall h, no_oom h -> wp (k (Some (h_brk (fs_host s)))) Q (upd_host h s)) ->
  wp (p ← in_host (malloc n); k p) Q s.
Proof.
  intros Ho Hk. apply wp_bind, wp_in_host. eapply wp_mono; [by apply malloc_wp|].
  cbn beta. intros p h' (-> & Hn & _). by apply Hk.
Qed.

(** An inode that may be in use: what [CHECK_INODE] accepts. *)
Record live_inode (mi : myfs_inode) : Prop := {
  li_fits : inode_fits mi;
  li_magic : i_magic1 mi = INODE_MAGIC1;
  li_size : 0 <= size (data mi);
}.

(** What reading an inode leaves: a copy at a new address with an empty
    [etc], and nothing else changed but the host. *)
Definition vnode_read (x : X) (mi : myfs_inode) (r : Z * option Z) (x' : X) : Prop :=
  exists p e, r = (0, Some p) /\
    x_heap x' = <[p := mi_set_etc (Some (e, Etc None 0)) mi]> (x_heap x) /\
    disk_ok (x_fs x') /\ fs_info (x_fs x') = fs_info (x_fs x) /\
    dat (x_fs x') = dat (x_fs x) /\ pins (x_fs x') = pins (x_fs x).

Lemma read_vnode_spec (x : X) ia mi :
  let s := x_fs x in
  has_slot s ia -> no_oom (fs_host s) -> live_inode mi ->
  inode_image (dat s) (fs_info s) (bs s) ia = Some (encode_inode mi) ->
  wp (myfs_read_vnode ia) (vnode_read x mi) x.
Proof.
  intros s Hs Ho [Hfit Hmag Hsz] Himg. pose proof (hs_disk _ _ Hs) as Hok. pose proof (hs_quiet _ _ Hs) as Hq.
  pose proof (has_slot_block _ _ Hs) as Hb. pose proof (hs_room _ _ Hs) as Hroom.
  unfold inode_image in Himg. destruct (dat s !! slot_block (fs_info s) (bs s) ia) as [d|] eqn:Hd; [|done].
  cbn in Himg.
  unfold myfs_read_vnode. wp_step. apply wp_in_fs. fold s. wp_step. apply wp_bsize_of; [done|].
  apply malloc_host_wp; [done|]. intros h1 Ho1. cbn beta iota.
  apply malloc_host_wp; [done|]. intros h2 Ho2. cbn beta iota. unfold myfs at 1. wp_step. wp_step. wp_step.
  change (fs_info (upd_host h2 (upd_host h1 s))) with (fs_info s).
  rewrite inode_slot_eq by done. wp_step.
  set (s2 := upd_host h2 (upd_host h1 s)). assert (disk_ok s2) as Hok2 by (by repeat apply disk_ok_host).
  apply (get_block_wp s2 _ _ _ Hok2); [done..|exact Hb|exact Hroom|]. intros s3 Hd3 [Hi3 Hh3 Hdat3 Hp3 Hu3].
  cbn beta iota. change (dat s2) with (dat s) in Hdat3. change (pins s2) with (pins s) in Hp3.
  change (fs_info s2) with (fs_info s) in Hi3. change (vw s2) with (vw s) in Hu3.
  apply (load_wp s3 _ _ Hd3) with d; [congruence|multiset_solver|congruence|].
  change sizeof_myfs_inode with 128. rewrite Himg. wp_step. wp_step.
  apply (release_block_wp s3); [done|congruence|multiset_solver|set_solver|].
  intros s4 Hd4 [Hi4 Hh4 Hdat4 Hp4 Hu4]. cbn beta iota zeta.
  replace (decode_inode (encode_inode mi)) with (mi_set_etc None mi)
    by (rewrite <- (app_nil_r (encode_inode mi)); symmetry; by apply decode_encode_inode).
  unfold CHECK_INODE. cbn [i_magic1 etc data mi_set_etc]. rewrite Hmag, Z.eqb_refl. cbn [negb].
  rewrite (proj2 (Z.ltb_ge _ _)) by done. wp_step. wp_step.
  unfold new_lock, create_sem. wp_step. apply wp_in_host. wp_step. wp_step.
  assert (fs_host s4 = h2) as Eh by (rewrite Hh4, Hh3; done). rewrite Eh.
  eapply wp_mono; [by apply malloc_wp|]. cbn beta. intros p h5 (-> & _). wp_step. wp_step. wp_step.
  wp_step. unfold put_inode. wp_step. wp_step. unfold vnode_read. eexists _, _. split; [done|].
  split; [cbn; f_equal; by destruct mi|]. cbn [x_fs]. split_and!.
  - by apply disk_ok_host.
  - cbn. by rewrite Hi4, Hi3.
  - change (dat (upd_host h5 s4)) with (dat s4). by rewrite Hdat4, Hdat3.
  - change (pins (upd_host h5 s4)) with (pins s4). rewrite Hp4, Hp3. fold s. multiset_solver.
Qed.

(** C17. An inode written by [update_inode] is what [myfs_read_vnode] brings
    back: for a live inode with a slot in the table, the two in sequence
    succeed and the new copy in memory has every field of the inode that is
    stored (only the pointer to the in-memory part is new). *)
Theorem read_vnode_after_update (x : X) (mi : myfs_inode)
  (Hslot : has_slot (x_fs x) (inode_num mi)) (Ho : no_oom (fs_host (x_fs x))) (Hlive : live_inode mi) :
  wp (_ ← in_fs (update_inode mi); myfs_read_vnode (inode_num mi))
     (fun r x' => exists p e, r = (0, Some p) /\
        x_heap x' = <[p := mi_set_etc (Some (e, Etc None 0)) mi]> (x_heap x) /\
        disk_ok (x_fs x') /\ fs_info (x_fs x') = fs_info (x_fs x) /\ pins (x_fs x') = pins (x_fs x)) x.
Proof.
  pose proof (hs_disk _ _ Hslot) as Hok. pose proof (has_slot_block _ _ Hslot) as Hb.
  destruct (do_blocks _ Hok (slot_block (fs_info (x_fs x)) (bs (x_fs x)) (inode_num mi)) ltac:(lia)) as [d Hd].
  pose proof (fit_ndirect _ (li_fits _ Hlive)) as Hdir.
  destruct (image_after_update (x_fs x) mi d Hslot Hdir Hd) as [H1 _].
  wp_step. apply wp_in_fs. eapply wp_mono; [by apply update_inode_spec|]. cbn beta.
  intros _ s' (_ & Hok' & [Hi Hh Hdat Hp Hu]).
  eapply wp_mono.
  { apply (read_vnode_spec (FX s' (x_heap x)) (inode_num mi) mi); [|cbn; congruence|done|].
    - destruct Hslot. split; cbn; rewrite ?(bs_info _ _ Hi), ?(nblk_info _ _ Hi), ?Hi, ?Hp; try done. set_solver.
    - cbn. rewrite Hdat, Hi, (bs_info _ _ Hi). exact H1. }
  cbn beta. intros r x' (p & e & -> & Hh' & Hd' & Hi' & _ & Hp'). exists p, e. cbn in *.
  split_and!; congruence.
Qed.
End file_specs.

Lemma read_vnode_after_update_witness :
  live_inode (mi_set_mtime 9 sample_inode) /\
  wp (_ ← in_fs (update_inode (mi_set_mtime 9 sample_inode)); myfs_read_vnode 1)
     (fun r x' => exists p e, r = (0, Some p) /\
        x_heap x' = <[p := mi_set_etc (Some (e, Etc None 0)) (mi_set_mtime 9 sample_inode)]> ∅ /\
        disk_ok (x_fs x') /\ fs_info (x_fs x') = sample_info /\ pins (x_fs x') = pins sample)
     (FX sample ∅).
Proof.
  assert (live_inode (mi_set_mtime 9 sample_inode)) as H.
  { split; [|reflexivity|vm_compute; discriminate].
    split; try (unfold in_i32, in_i64; cbn; unfold INODE_MAGIC1; lia); try reflexivity.
    cbn. repeat (apply Forall_cons_2; [unfold in_i64; lia|]). apply Forall_nil_2. }
  split; [exact H|].
  apply (read_vnode_after_update (FX sample ∅) (mi_set_mtime 9 sample_inode)).
  - exact sample_slot.
  - reflexivity.
  - exact H.
Defined.
