(* ===== verification/Mount.v ===== *)
(** * Mount: making, mounting and unmounting a file system (mount.c, journal.c) *)

From S2P Require Import Prelude Bytes Host SkipList Vnode File.
From S2P Require Import BlockCache BitVector Myfs Io TmpBlocks Bitmap Inode DStream Dir.
Local Open Scope Z_scope.

Definition MAX_READERS : Z := 1000000.
Definition ALLOW_WRITES : Z := 1.
Definition NO_WRITES : Z := 0.

(** A structure of zeros, as [calloc] returns it. *)
Definition zero_sb : myfs_super_block :=
  SB (replicate 32 x00) 0 0 0 0 0 0 0 0 0 0 0 0 0 0 0 0 0 0 0.
Definition zero_info : myfs_info :=
  Info 0 zero_sb (BBM None 0) SemNull (MkBV 0 0 0 []) SemNull 0 0 0 0 None SemNull [].

(** The index of the first [i < 32] with [1 << i] equal to [z], or 32. *)
Fixpoint find_shift (n : nat) (i z : Z) : Z :=
  match n with
  | O => i
  | Datatypes.S n => if i32 (Z.shiftl 1 i) =? z then i else find_shift n (i + 1) z
  end.

(** Slashes of the volume name become dashes. *)
Definition clean_name (name : list byte) : list byte :=
  (fun b => if decide (b = x2f) then x2d else b) <$> name.

Section mount.
Context {C : Type} `{BlockCache C}.
Abbreviation St := (fs_state C).

(** The journal is not implemented. *)
Definition myfs_create_journal : M St Z := mret 0.
Definition myfs_init_journal : M St Z := mret 0.
Definition myfs_shutdown_journal : M St Z := mret 0.
Definition sync_journal : M St unit := mret tt.

(** The exit taken when any step of [myfs_create_fs] fails. *)
Definition create_cleanup : M St bool :=
  i ← myfs;
  bsize ← bsize_of;
  _ ← (if fd i >=? 0
       then write_blocks 0 (read_at 0 bsize (replicate 4096 xff)) 1
       else mret 0);
  _ ← myfs_shutdown_storage_map;
  _ ← myfs_shutdown_inodes;
  _ ← myfs_shutdown_journal;
  _ ← shutdown_tmp_blocks;
  i ← myfs;
  _ ← in_cache (dev_close (fd i));
  _ ← in_host (delete_sem (info_sem i));
  mret false.

(** The steps from the cache set-up on, on an open device. *)
Definition create_steps (name : list byte) (nblocks : Z) : M St bool :=
  i ← myfs;
  _ ← in_cache (init_cache_for_device (fd i) nblocks);
  err ← init_tmp_blocks;
  if negb (err =? 0) then create_cleanup else
  err ← myfs_create_storage_map;
  if negb (err =? 0) then create_cleanup else
  err ← myfs_create_inodes;
  if negb (err =? 0) then create_cleanup else
  err ← myfs_create_journal;
  if negb (err =? 0) then create_cleanup else
  err ← myfs_create_root_dir;
  if negb (err =? 0) then create_cleanup else
  _ ← set_sb (fun d => sb_set_name
        (splice 0 (take (Z.to_nat (Z.min (IDENT_NAME_LENGTH - 1) (len name))) name) (sb_name d)) d);
  err ← write_super_block;
  if negb (err =? 0) then create_cleanup else
  mret true.

(** Whether a file system was made; [None] for the name is NULL. *)
Definition myfs_create_fs (device : list byte) (name : option (list byte)) (block_size : Z) : M St bool :=
  if negb (u64 block_size mod sizeof_myfs_inode =? 0) then mret false else
  let name := clean_name (default [x75; x6e; x74; x69; x74; x6c; x65; x64] name) in
  let block_size := if block_size <? 512 then 512 else block_size in
  let bshift := find_shift 32 0 block_size in
  if bshift >=? 32 then mret false else
  p ← in_host (malloc 640);
  match p with
  | None => mret false
  | Some addr =>
      _ ← set_info (fun _ => zero_info);
      _ ← set_info (set_fd (-1));
      _ ← set_info (fun i => Info addr (dsb i) (bbm i) (bbm_sem i) (inode_map i) (info_sem i) (fd i)
             (info_flags i) (dev_block_size i) (dev_block_conversion i) (root_dir i)
             (tmp_blocks_sem i) (tmp_blocks i));
      _ ← set_sb (sb_set_magics SUPER_BLOCK_MAGIC1 SUPER_BLOCK_MAGIC2 SUPER_BLOCK_MAGIC3 MYFS_BIG_ENDIAN);
      sem ← in_host (create_sem MAX_READERS);
      _ ← set_info (set_info_sem sem);
      fd ← in_cache (dev_open device);
      _ ← set_info (set_fd fd);
      if fd <? 0 then create_cleanup else
      dev_block_size ← get_device_block_size fd;
      num_dev_blocks ← get_num_device_blocks fd;
      let block_size := if block_size <? dev_block_size then dev_block_size else block_size in
      if negb (Z.rem block_size dev_block_size =? 0) then create_cleanup else
      let conversion := Z.quot block_size dev_block_size in
      let nblocks := Z.quot num_dev_blocks conversion in
      _ ← set_sb (sb_set_geometry (u32 block_size) bshift nblocks);
      _ ← set_info (set_dev_block dev_block_size conversion);
      create_steps name nblocks
  end.

Definition super_block_is_sane : M St Z :=
  i ← myfs;
  let d := dsb i in
  if negb (sb_magic1 d =? SUPER_BLOCK_MAGIC1) || negb (sb_magic2 d =? SUPER_BLOCK_MAGIC2)
     || negb (sb_magic3 d =? SUPER_BLOCK_MAGIC3) then mret 0 else
  if negb (block_size d mod dev_block_size i =? 0) then mret 0 else
  dev_bs ← get_device_block_size (fd i);
  if dev_bs =? 0 then mret 0 else
  num_dev_blocks ← get_num_device_blocks (fd i);
  if i64 (num_blocks d * block_size d) >? i64 (num_dev_blocks * dev_bs) then mret 0 else
  if block_shift d >=? 32 then fault else
  if negb (block_size d =? u32 (i32 (Z.shiftl 1 (block_shift d)))) then
    if (block_shift d >? 8) && (block_shift d <? 16) then
      _ ← set_sb (sb_set_geometry (Z.shiftl 1 (block_shift d)) (block_shift d) (num_blocks d));
      mret 1
    else
      let i := find_shift 32 0 (i32 (block_size d)) in
      if (i >=? 32) || (i >? 16) then mret 0 else
      _ ← set_sb (sb_set_geometry (block_size d) i (num_blocks d));
      mret 1
  else mret 1.

End mount.

Section vnodes.
Context {C : Type} `{BlockCache C}.
Abbreviation X := (File.fsx C).
Abbreviation KS := (Vnode.kstate (X:=X)).
Context (fs_table : Z -> Vnode.fs_ops X).
Abbreviation fsM m := (Vnode.in_ext (File.in_fs m)).

(** The chain of error exits of [myfs_mount], entered at one of its labels. *)
Definition mount_error (label ret : Z) : M KS Z :=
  fsM (
    _ ← (if 7 <=? label then myfs_shutdown_storage_map else mret tt);
    _ ← (if 6 <=? label then myfs_shutdown_inodes else mret tt);
    _ ← (if 5 <=? label then myfs_shutdown_journal else mret 0);
    _ ← (if 3 <=? label then shutdown_tmp_blocks else mret tt);
    i ← myfs;
    _ ← (if 2 <=? label then
           _ ← in_cache (remove_cached_device_blocks (fd i) NO_WRITES);
           in_cache (dev_close (fd i))
         else mret 0);
    _ ← (if 1 <=? label then in_host (delete_sem (info_sem i)) else mret 0);
    mret ret).

(** The steps of [myfs_mount] after the super block is accepted. *)
Definition mount_steps (nsid : Z) : M KS (Z * option Z) :=
  let fail label ret := r ← mount_error label ret; mret (r, None) in
  i ← fsM myfs;
  err ← fsM (in_cache (init_cache_for_device (fd i) (num_blocks (dsb i))));
  if negb (err =? 0) then fail 2 EBADF else
  err ← fsM init_tmp_blocks;
  if negb (err =? 0) then fail 2 ENOMEM else
  err ← fsM myfs_init_journal;
  if negb (err =? 0) then fail 3 EBADF else
  err ← fsM myfs_init_inodes;
  if negb (err =? 0) then fail 5 ENOMEM else
  err ← fsM myfs_init_storage_map;
  if negb (err =? 0) then fail 6 EBADF else
  i ← fsM myfs;
  let vnid := root_inum (dsb i) in
  '(err, root) ← Vnode.in_ext (File.myfs_read_vnode vnid);
  if negb (err =? 0) then fail 7 EBADF else
  p ← opt root;
  mi ← Vnode.in_ext (File.inode_at p);
  _ ← fsM (set_info (set_root_dir (Some mi)));
  err ← Vnode.new_vnode File.fsx_host File.fsx_set_host fs_table nsid vnid root;
  if negb (err =? 0) then fail 7 ENOMEM else
  mret (0, Some vnid).

(** The result, [*data] and [*vnid]. *)
Definition myfs_mount (nsid : Z) (device : list byte) : M KS (Z * option (Z * Z)) :=
  let fail label ret := r ← mount_error label ret; mret (r, None) in
  p ← fsM (in_host (malloc 640));
  match p with
  | None => mret (ENOMEM, None)
  | Some p =>
      _ ← fsM (set_info (fun _ => zero_info));
      _ ← fsM (set_info (fun i => Info nsid (dsb i) (bbm i) (bbm_sem i) (inode_map i) (info_sem i)
             (fd i) (info_flags i) (dev_block_size i) (dev_block_conversion i) (root_dir i)
             (tmp_blocks_sem i) (tmp_blocks i)));
      sem ← fsM (in_host (create_sem MAX_READERS));
      _ ← fsM (set_info (set_info_sem sem));
      fd ← fsM (in_cache (dev_open device));
      _ ← fsM (set_info (set_fd fd));
      if fd <? 0 then fail 1 ENODEV else
      err ← fsM read_super_block;
      if negb (err =? 0) then fail 2 EBADF else
      sane ← fsM super_block_is_sane;
      if sane =? 0 then fail 2 EBADF else
      i ← fsM myfs;
      if negb (block_size (dsb i) mod sizeof_myfs_inode =? 0) then fail 2 EINVAL else
      '(err, vnid) ← mount_steps nsid;
      mret (err, (fun v => (p, v)) <$> vnid)
  end.

(** [NULL] is answered by [EINVAL]; the argument says whether it is. *)
Definition myfs_unmount (ns : option unit) : M (fs_state C) Z :=
  match ns with
  | None => mret EINVAL
  | Some _ =>
      _ ← sync_journal;
      _ ← myfs_shutdown_storage_map;
      _ ← myfs_shutdown_inodes;
      _ ← sync_journal;
      i ← myfs;
      _ ← in_cache (remove_cached_device_blocks (fd i) ALLOW_WRITES);
      _ ← myfs_shutdown_journal;
      _ ← write_super_block;
      _ ← shutdown_tmp_blocks;
      i ← myfs;
      _ ← in_cache (dev_close (fd i));
      _ ← (if sem_positive (info_sem i) then in_host (delete_sem (info_sem i)) else mret 0);
      mret 0
  end.
End vnodes.
