(* ===== verification/System.v ===== *)
(** * System: the file systems under one kernel (myfs_vnops.h, initfs.c)

    The state of the whole program below the vnode layer, the table of the
    operations of myfs, and the start: the block cache, the vnode layer with
    the root file system, a directory in it and myfs mounted there. *)

From S2P Require Import Prelude Bytes Compat BlockCache Host SkipList Myfs Dir Kernel Vnode VnodeOps Descriptors Paths Syscalls Mounts Rootfs File Mount.
Local Open Scope Z_scope.

(** What myfs's own state does not have: the root file system, and the
    cookies of open directories of myfs. *)
Record below (C : Type) := Below { b_cache : C; b_root : rstate; b_cookies : gmap Z dir_cookie }.
Arguments Below {C}.
Arguments b_cache {C}.
Arguments b_root {C}.
Arguments b_cookies {C}.

Section lift.
Context {C : Type} {HC : BlockCache C}.
Definition in_b {A} (m : M C A) : M (below C) A := zoom b_cache (fun c b => Below c (b_root b) (b_cookies b)) m.

#[export] Instance below_cache : BlockCache (below C) := {
  get_block dev b n := in_b (get_block dev b n);
  get_empty_block dev b n := in_b (get_empty_block dev b n);
  release_block dev b := in_b (release_block dev b);
  mark_blocks_dirty dev b n := in_b (mark_blocks_dirty dev b n);
  cached_read dev b n bs := in_b (cached_read dev b n bs);
  cached_write dev b d n bs := in_b (cached_write dev b d n bs);
  load p := in_b (load p);
  store p d := in_b (store p d);
  init_cache_for_device dev n := in_b (init_cache_for_device dev n);
  remove_cached_device_blocks dev f := in_b (remove_cached_device_blocks dev f);
  read_pos dev p n := in_b (read_pos dev p n);
  write_pos dev p d := in_b (write_pos dev p d);
  dev_open p := in_b (dev_open p);
  dev_close d := in_b (dev_close d);
  dev_size d := in_b (dev_size d);
}.
End lift.

(** Where the two tables of operations are in memory. *)
Definition rootfs_addr : Z := 1.
Definition myfs_addr : Z := 2.

Section system.
Context {C : Type} {HC : BlockCache C}.
Abbreviation X := (fsx (below C)).
Abbreviation KS := (M (Vnode.kstate (X := X))).

Definition x_rootfs (x : X) : rstate := b_root (fs_cache (x_fs x)).
Definition upd_below (f : below C -> below C) (x : X) : X := FX (upd_cache (f (fs_cache (x_fs x))) (x_fs x)) (x_heap x).
Definition x_set_rootfs (r : rstate) : X -> X := upd_below (fun b => Below (b_cache b) r (b_cookies b)).

(** A directory cookie by address. *)
Definition cookie_at (p : Z) : M X dir_cookie := x ← get; opt (b_cookies (fs_cache (x_fs x)) !! p).
Definition set_cookies (f : gmap Z dir_cookie -> gmap Z dir_cookie) : M X unit :=
  modify (upd_below (fun b => Below (b_cache b) (b_root b) (f (b_cookies b)))).

(** A routine of dir.c on the inode at [p]. *)
Definition on_inode {A} (p : Z) (f : myfs_inode -> M (fs_state (below C)) A) : M X A := mi ← inode_at p; File.in_fs (f mi).

Definition dir_open (dir : option Z) : M X (Z * option Z) :=
  p ← opt dir;
  r ← with_inode p (fun mi => '(ret, dc, mi) ← Dir.myfs_opendir mi; mret ((ret, dc), mi));
  match r with
  | (ret, Some (a, dc)) => _ ← set_cookies (<[a := dc]>); mret (ret, Some a)
  | (ret, None) => mret (ret, None)
  end.
Definition dir_close (dir cookie : option Z) : M X Z := p ← opt dir; on_inode p Dir.myfs_closedir.
Definition dir_free (dir cookie : option Z) : M X Z :=
  p ← opt dir; ret ← on_inode p Dir.myfs_free_dircookie;
  c ← opt cookie; _ ← cookie_at c; _ ← set_cookies (delete c); mret ret.
Definition dir_rewind (dir cookie : option Z) : M X Z :=
  p ← opt dir; c ← opt cookie; dc ← cookie_at c;
  '(ret, dc) ← on_inode p (fun mi => Dir.myfs_rewinddir mi dc);
  _ ← set_cookies (<[c := dc]>); mret ret.
Definition dir_read (dir cookie : option Z) : M X (Z * list my_dirent) :=
  p ← opt dir; c ← opt cookie; dc ← cookie_at c;
  '(ret, n, e, dc) ← on_inode p (fun mi => Dir.myfs_readdir mi dc);
  _ ← set_cookies (<[c := dc]>);
  mret (ret, if n =? 0 then [] else option_list e).

Section tables.
Context (fs_table : Z -> Vnode.fs_ops X).

(** The table of myfs_vnops.h.  [open] sets no cookie, and none is ever
    looked at. *)
Definition myfs_vnode_ops : vnode_ops X := {|
  vo_core := File.myfs_ops;
  vo_walk := Some (fun ns base file fred => b ← opt base; '(err, vnid) ← myfs_walk fs_table b file; mret (err, None, default 0 vnid));
  vo_access := Some (fun ns node mode => p ← opt node; in_ext (myfs_access p mode));
  vo_create := Some (fun ns dir name omode mode => d ← opt dir; '(err, vnid) ← myfs_create fs_table d name omode mode; mret (err, default 0 vnid, None));
  vo_mkdir := Some (fun ns dir name mode => d ← opt dir; in_ext (myfs_mkdir d name mode));
  vo_symlink := Some (fun ns dir name path => d ← opt dir; in_ext (myfs_symlink d));
  vo_link := None;
  vo_rename := Some (fun ns d1 n1 d2 n2 => p ← opt d1; q ← opt d2; in_ext (myfs_rename p q));
  vo_unlink := Some (fun ns dir name => d ← opt dir; myfs_unlink fs_table d name);
  vo_rmdir := Some (fun ns dir name => d ← opt dir; myfs_rmdir fs_table d name);
  vo_readlink := Some (fun ns node bufsize => p ← opt node; r ← in_ext (myfs_readlink p); mret (r, bufsize, []));
  vo_opendir := Some (fun ns dir => in_ext (dir_open dir));
  vo_closedir := Some (fun ns dir c => in_ext (dir_close dir c));
  vo_free_dircookie := Some (fun ns dir c => in_ext (dir_free dir c));
  vo_rewinddir := Some (fun ns dir c => in_ext (dir_rewind dir c));
  vo_readdir := Some (fun ns dir c num bufsize => in_ext (dir_read dir c));
  vo_open := Some (fun ns node omode => p ← opt node; r ← in_ext (myfs_open p omode); mret (r, None));
  vo_close := Some (fun ns node c => p ← opt node; in_ext (myfs_close p));
  vo_free_cookie := Some (fun ns node c => p ← opt node; in_ext (myfs_free_cookie p));
  vo_read := Some (fun ns node c pos l => p ← opt node; in_ext (myfs_read p pos l));
  vo_write := Some (fun ns node c pos buf l => p ← opt node; in_ext (myfs_write p pos buf l));
  vo_ioctl := Some (fun ns node c cmd buf l => p ← opt node; in_ext (myfs_ioctl p cmd));
  vo_rstat := Some (fun ns node => p ← opt node; in_ext (myfs_rstat p));
  vo_wstat := Some (fun ns node st mask => p ← opt node; in_ext (myfs_wstat p st mask));
  vo_fsync := Some (fun ns node => p ← opt node; in_ext (myfs_fsync p));
  vo_mount := Some (fun nsid device flags parms l =>
    d ← opt device; '(err, r) ← myfs_mount fs_table nsid d;
    mret (match r with Some (data, vnid) => (err, data, vnid) | None => (err, 0, 0) end));
  vo_unmount := Some (fun ns => in_ext (File.in_fs (myfs_unmount (if ns =? 0 then None else Some tt))));
  vo_sync := None;
|}.

Definition rootfs_ops : vnode_ops X := rootfs fsx_host fsx_set_host x_rootfs x_set_rootfs fs_table.
End tables.

(** The operations at an address, as the vnode layer and as the kernel call
    them. *)
Definition core_ops (a : Z) : Vnode.fs_ops X :=
  if a =? rootfs_addr then rootfs_core fsx_host fsx_set_host x_rootfs x_set_rootfs else File.myfs_ops.
Definition all_ops (a : Z) : vnode_ops X := if a =? rootfs_addr then rootfs_ops core_ops else myfs_vnode_ops core_ops.

(** ** The start *)

Context (init_block_cache : Z -> Z -> M C Z) (stat : list byte -> Z + Z * Z) (memsize : Z) (rand : list Z).
Definition in_block_cache {A} (m : M C A) : KS A := in_ext (File.in_fs (in_cache (in_b m))).

Definition myfs_name : list byte := [x6d; x79; x66; x73].
Definition rootfs_name : list byte := [x72; x6f; x6f; x74; x66; x73].
Definition mount_point : list byte := slash :: myfs_name.

(** NULL stands for the exit after a message; the results of the first three
    calls are not looked at. *)
Definition init_fs (disk_name : list byte) : KS (option Z) :=
  _ ← in_block_cache (init_block_cache 1024 0);
  _ ← init_vnode_layer fsx_host fsx_set_host all_ops memsize rand rootfs_addr rootfs_name;
  _ ← sys_mkdir fsx_host fsx_set_host all_ops true (-1) (Some mount_point) 0;
  fs ← install_file_system fsx_host fsx_set_host myfs_addr myfs_name true (-1);
  match fs with
  | None => mret None
  | Some _ =>
      '(data, _) ← sys_mount fsx_host fsx_set_host all_ops stat true myfs_name (-1) (Some mount_point) (Some disk_name) 0 None 0;
      mret (if data =? 0 then None else Some data)
  end.
End system.
