(* ===== verification/Argv.v ===== *)
(** * Argv: splitting a command line (argv.c)

    [build_argv] cuts a string in place into words and gives an array of
    pointers to them.  A pointer is an offset in the buffer of the string.
    To take a backslash out the code copies the rest of the string onto itself
    with [strcpy], one byte down.  C leaves that undefined when there is a rest,
    so it is a [Fault]; only a backslash at the end of the string is all right. *)

From S2P Require Import Prelude Bytes Host.
Local Open Scope Z_scope.

Definition DOUBLE_QUOTE : byte := x22.
Definition SINGLE_QUOTE : byte := x27.
Definition BACK_SLASH : byte := x5c.

Definition same (c d : byte) : bool := bool_decide (c = d).
Definition is_space (c : byte) : bool := same c x20 || same c x09 || same c x0a.

(** The buffer of the string, and the C library. *)
Record argv_state := AV { av_str : list byte; av_host : host }.
Abbreviation AVM := (M argv_state).

Definition in_str {A} (m : M (list byte) A) : AVM A := zoom av_str (fun b s => AV b (av_host s)) m.

Definition peek (p : Z) : AVM byte := in_str (b ← get; opt (b !! Z.to_nat p)).
Definition poke (p : Z) (c : byte) : AVM unit :=
  in_str (b ← get; b ← opt (write_at p [c] b); modify (fun _ => b)).

(** The string at the start of a buffer. *)
Fixpoint c_str (b : list byte) : option (list byte) :=
  match b with
  | [] => None
  | c :: b => if same c x00 then Some [] else s ← c_str b; Some (c :: s)
  end.

(** [strcpy(p, p+1)]: the bytes that are read and those that are written must
    not overlap, so only the NUL may be copied. *)
Definition strcpy_down (p : Z) : AVM unit :=
  in_str (
    b ← get;
    src ← opt (c_str (drop (Z.to_nat (p + 1)) b));
    match src with
    | [] => b ← opt (write_at p [x00] b); modify (fun _ => b)
    | _ :: _ => fault
    end).

Fixpoint skip_space (fuel : nat) (str : Z) : AVM Z :=
  match fuel with
  | O => hang
  | S fuel =>
      c ← peek str;
      if negb (same c x00) && is_space c then skip_space fuel (str + 1) else mret str
  end.

(** The loops over a word differ in what ends it. *)
Fixpoint scan_word (fuel : nat) (stop : byte -> bool) (str : Z) : AVM Z :=
  match fuel with
  | O => hang
  | S fuel =>
      c ← peek str;
      if negb (same c x00) && negb (stop c) then
        _ ← (if same c BACK_SLASH then strcpy_down str else mret tt);
        scan_word fuel stop (str + 1)
      else mret str
  end.

(** [calloc] of [n] pointers. *)
Definition new_table (n : Z) : AVM (option (list (option Z))) :=
  p ← zoom av_host (fun h s => AV (av_str s) h) (malloc (n * 8));
  mret (match p with Some _ => Some (replicate (Z.to_nat n) None) | None => None end).

Definition set_slot (i : Z) (p : Z) (t : list (option Z)) : option (list (option Z)) := write_at i [Some p] t.

(** The array and [*argc]; [n] bounds the length of the string. *)
Fixpoint argv_loop (fuel n : nat) (str argc : Z) (argv : list (option Z)) : AVM (option (list (option Z)) * Z) :=
  match fuel with
  | O => hang
  | S fuel =>
      c ← peek str;
      if same c x00 then mret (Some argv, argc) else
      str ← skip_space n str;
      c ← peek str;
      if same c x00 then mret (Some argv, argc) else
      '(argv, str) ←
        (if same c DOUBLE_QUOTE then
           argv ← opt (set_slot argc (str + 1) argv);
           str ← scan_word n (fun c => same c DOUBLE_QUOTE) (str + 1);
           mret (argv, str)
         else if same c SINGLE_QUOTE then
           argv ← opt (set_slot argc (str + 1) argv);
           str ← scan_word n (fun c => same c SINGLE_QUOTE) (str + 1);
           mret (argv, str)
         else
           argv ← opt (set_slot argc str argv);
           str ← scan_word n is_space str;
           mret (argv, str));
      c ← peek str;
      str ← (if negb (same c x00) then _ ← poke str x00; mret (str + 1) else mret str);
      let argc := argc + 1 in
      if argc >=? len argv - 1 then
        nargv ← new_table (len argv * 2);
        match nargv with
        | None => mret (None, argc)
        | Some nargv => argv ← opt (t ← read_at 0 argc argv; write_at 0 t nargv); argv_loop fuel n str argc argv
        end
      else argv_loop fuel n str argc argv
  end.

Definition build_argv (str : Z) : AVM (option (list (option Z)) * Z) :=
  argv ← new_table 16;
  match argv with
  | None => mret (None, 0)
  | Some argv =>
      b ← in_str get;
      argv_loop (S (length b)) (S (length b)) str 0 argv
  end.

(** ** What the words of a string are *)

Inductive quote := Plain | Double | Single.
Definition ends (q : quote) (c : byte) : bool :=
  match q with Plain => is_space c | Double => same c DOUBLE_QUOTE | Single => same c SINGLE_QUOTE end.

(** A word up to what ends it, and the rest after that; a backslash at the end
    of the string is not part of it. *)
Fixpoint word (q : quote) (s : list byte) : list byte * list byte :=
  match s with
  | [] => ([], [])
  | c :: s =>
      if ends q c then ([], s) else
      if same c BACK_SLASH && bool_decide (s = []) then ([], []) else
      let '(w, r) := word q s in (c :: w, r)
  end.

(** No backslash but at the end. *)
Fixpoint plain (s : list byte) : bool :=
  match s with
  | [] => true
  | c :: s => (negb (same c BACK_SLASH) || bool_decide (s = [])) && plain s
  end.

Fixpoint spaces_off (s : list byte) : list byte :=
  match s with
  | c :: s' => if is_space c then spaces_off s' else s
  | [] => []
  end.

(** The next word and the rest of a string that starts with one. *)
Definition next_word (c : byte) (s : list byte) : list byte * list byte :=
  if same c DOUBLE_QUOTE then word Double s else if same c SINGLE_QUOTE then word Single s else word Plain (c :: s).

Fixpoint words_within (n : nat) (s : list byte) : list (list byte) :=
  match n with
  | O => []
  | S n =>
      match spaces_off s with
      | [] => []
      | c :: s => let '(w, r) := next_word c s in w :: words_within n r
      end
  end.
Definition words (s : list byte) : list (list byte) := words_within (length s) s.

(** ** Reading and writing the buffer *)

Definition text (s : list byte) : Prop := Forall (fun c => c <> x00) s.

Lemma same_true c d : same c d = true <-> c = d.
Proof. apply bool_decide_eq_true. Qed.
Lemma same_refl c : same c c = true.
Proof. by apply same_true. Qed.
Lemma same_ne c d : c <> d -> same c d = false.
Proof. apply bool_decide_eq_false. Qed.

Lemma char_at_wp P c t h (Q : byte -> argv_state -> Prop) : Q c (AV (P ++ c :: t) h) -> wp (peek (len P)) Q (AV (P ++ c :: t) h).
Proof.
  intros HQ. unfold peek, in_str. wp_step. wp_step. wp_step. unfold len. rewrite Nat2Z.id. cbn [av_str]. rewrite list_lookup_middle by done.
  by wp_step.
Qed.

Lemma write_mid {A} P (x t u : list A) : length x = length t -> write_at (len P) x (P ++ t ++ u) = Some (P ++ x ++ u).
Proof.
  intros E. unfold write_at, len, splice. rewrite !length_app.
  replace ((0 <=? _) && _) with true by (symmetry; apply andb_true_iff; split; apply Z.leb_le; lia).
  f_equal. rewrite Nat2Z.id, take_app_length. f_equal. f_equal. rewrite E, drop_app_add. by apply drop_app_length.
Qed.

Lemma poke_wp P c d t h (Q : unit -> argv_state -> Prop) : Q tt (AV (P ++ d :: t) h) -> wp (poke (len P) d) Q (AV (P ++ c :: t) h).
Proof.
  intros HQ. unfold poke, in_str. wp_step. wp_step. wp_step. cbn [av_str].
  rewrite (write_mid P [d] [c] t eq_refl : write_at (len P) [d] (P ++ c :: t) = Some (P ++ d :: t)). wp_step. by wp_step.
Qed.

Lemma c_str_text s t : text s -> c_str (s ++ x00 :: t) = Some s.
Proof. induction 1 as [|c s Hc Hs IH]; cbn; [by rewrite same_refl|]. by rewrite same_ne, IH. Qed.

Lemma strcpy_down_wpf F P c s post h (Q : unit -> argv_state -> Prop) :
  text s -> (s <> [] -> F) -> (s = [] -> Q tt (AV (P ++ x00 :: x00 :: post) h)) -> wpf F (strcpy_down (len P)) Q (AV (P ++ c :: s ++ x00 :: post) h).
Proof.
  intros Hs HF HQ. unfold strcpy_down, in_str. wpf_step. wpf_step. wpf_step. cbn [av_str].
  replace (drop (Z.to_nat (len P + 1)) (P ++ c :: s ++ x00 :: post)) with (s ++ x00 :: post).
  2: { unfold len. replace (Z.to_nat (Z.of_nat (length P) + 1)) with (length P + 1)%nat by lia. by rewrite drop_app_add. }
  rewrite c_str_text by done. wpf_step. wpf_step. destruct s as [|d s]; [|wpf_step; by apply HF].
  cbn [app]. rewrite (write_mid P [x00] [c] (x00 :: post) eq_refl : write_at (len P) [x00] (P ++ c :: x00 :: post) = Some (P ++ x00 :: x00 :: post)).
  wpf_step. wpf_step. wpf_step. by apply HQ.
Qed.

Lemma len_snoc {A} (P : list A) c : len (P ++ [c]) = len P + 1.
Proof. unfold len. rewrite length_app. cbn. lia. Qed.

Lemma snoc_cons {A} (P : list A) c t : P ++ c :: t = (P ++ [c]) ++ t.
Proof. by rewrite <- app_assoc. Qed.

(** ** Words *)

Lemma ends_plain q c : ends q c = true -> same c BACK_SLASH = false.
Proof. intros H. apply same_ne. intros ->. by destruct q. Qed.

Lemma plain_cons c s : same c BACK_SLASH = false -> plain (c :: s) = plain s.
Proof. intros H. cbn [plain]. by rewrite H. Qed.

Lemma plain_spaces s : plain (spaces_off s) = plain s.
Proof.
  induction s as [|c s IH]; [done|]. cbn [spaces_off]. destruct (is_space c) eqn:E; [|done].
  by rewrite IH, (plain_cons c s) by (by apply (ends_plain Plain)).
Qed.

Lemma word_rest q s w r : word q s = (w, r) -> text s -> text w /\ text r /\ (length r <= length s)%nat.
Proof.
  revert w r. induction s as [|c s IH]; intros w r E Ht; cbn [word] in E.
  { injection E as <- <-. split_and!; [constructor|constructor|done]. }
  inversion Ht as [|? ? Hc Hs]; subst. destruct (ends q c); [injection E as <- <-; split_and!; [constructor|done|cbn; lia]|].
  destruct (same c BACK_SLASH && _); [injection E as <- <-; split_and!; [constructor|constructor|cbn; lia]|].
  destruct (word q s) as [w' r'] eqn:E'. injection E as <- <-. destruct (IH w' r' eq_refl Hs) as (H1 & H2 & H3).
  split_and!; [by constructor|done|cbn; lia].
Qed.

(** Where a scan of [s] at the end of [P] stops, and what is there then. *)
Inductive scanned (P w : list byte) : list byte -> Z -> list byte -> Prop :=
  | at_end t r post : t <> x00 -> scanned P w r (len P + len w) (P ++ w ++ t :: r ++ x00 :: post)
  | at_nul post : scanned P w [] (len P + len w) (P ++ w ++ x00 :: post)
  | past_nul post : scanned P w [] (len P + len w + 1) (P ++ w ++ x00 :: x00 :: post).

Lemma scanned_snoc P c w r j b : scanned (P ++ [c]) w r j b -> scanned P (c :: w) r j b.
Proof.
  assert (len (P ++ [c]) + len w = len P + len (c :: w)) as E by (rewrite len_snoc, len_cons; lia).
  intros [t r' post Ht|post|post]; rewrite E, <- app_assoc; [by apply (at_end P (c :: w))|apply (at_nul P (c :: w))|apply (past_nul P (c :: w))].
Qed.

Lemma scan_word_wpf F fuel q P s post h w r (Q : Z -> argv_state -> Prop) :
  text s -> (length s < fuel)%nat -> word q s = (w, r) -> (plain s = false -> F) ->
  (forall j b, scanned P w r j b -> plain s = plain r -> Q j (AV b h)) -> wpf F (scan_word fuel (ends q) (len P)) Q (AV (P ++ s ++ x00 :: post) h).
Proof.
  revert P s post w r. induction fuel as [|fuel IH]; intros P s post w r Ht Hf E HF HQ; [lia|]. cbn [scan_word]. wpf_step.
  destruct s as [|c s]; cbn [app] in *.
  { apply wpf_wp, char_at_wp. rewrite same_refl. cbn [negb andb]. wpf_step. injection E as <- <-. apply HQ; [|done]. replace (len P) with (len P + len (@nil byte)) by (rewrite len_nil; lia).
    apply (at_nul P []). }
  cbn [word] in E. inversion Ht as [|? ? Hc Hs]; subst. apply wpf_wp, char_at_wp. rewrite (same_ne c x00) by done. cbn [negb andb]. cbn in Hf.
  destruct (ends q c) eqn:Eq; cbn [negb].
  { wpf_step. injection E as <- <-. apply HQ; [|by apply plain_cons, (ends_plain q)]. replace (len P) with (len P + len (@nil byte)) by (rewrite len_nil; lia). by apply (at_end P []). }
  wpf_step. destruct (same c BACK_SLASH) eqn:Eb; cbn [andb] in E.
  - apply strcpy_down_wpf; [done| |].
    { intros Hne. apply HF. cbn [plain]. rewrite Eb, bool_decide_false by done. done. }
    intros ->. rewrite bool_decide_true in E by done. injection E as <- <-. rewrite snoc_cons, <- (len_snoc P x00). destruct fuel as [|fuel]; [lia|]. cbn [scan_word].
    wpf_step. apply wpf_wp, char_at_wp. rewrite same_refl. cbn [negb andb]. wpf_step. rewrite <- snoc_cons, len_snoc.
    apply HQ; [|cbn [plain]; by rewrite bool_decide_true, orb_true_r].
    replace (len P + 1) with (len P + len (@nil byte) + 1) by (rewrite len_nil; lia). apply (past_nul P []).
  - destruct (word q s) as [w' r'] eqn:E'. injection E as <- <-. wpf_step. rewrite snoc_cons, <- (len_snoc P c). rewrite (plain_cons c s Eb) in *.
    eapply (IH (P ++ [c]) s post w' r'); [done|lia|done|done|]. intros j b Hsc. by apply HQ, scanned_snoc.
Qed.

(** A word that starts at the end of [P] is cut off there, and stays while
    only what follows [P'] changes. *)
Record cut_off (P w r : list byte) (str : Z) (b : list byte) (P' post : list byte) : Prop := {
  co_str : str = len P';
  co_buf : b = P' ++ r ++ x00 :: post;
  co_pre : take (length P) P' = P /\ (length P <= length P')%nat;
  co_word : forall b', take (length P') b' = P' -> (r = [] -> b' = b) -> c_str (drop (length P) b') = Some w;
}.

Lemma kept_word P w b' : text w -> take (length (P ++ w ++ [x00])) b' = P ++ w ++ [x00] -> c_str (drop (length P) b') = Some w.
Proof.
  intros Hw E. rewrite <- (take_drop (length (P ++ w ++ [x00])) b'), E, <- app_assoc, drop_app_length, <- app_assoc. by apply c_str_text.
Qed.

Lemma chop_wpf {R} F P w r j b h (k : Z -> AVM R) (Q : R -> argv_state -> Prop) :
  scanned P w r j b -> text w ->
  (forall str b' P' post, cut_off P w r str b' P' post -> wpf F (k str) Q (AV b' h)) ->
  wpf F (c ← peek j; str ← (if negb (same c x00) then _ ← poke j x00; mret (j + 1) else mret j); k str) Q (AV b h).
Proof.
  intros Hsc Hw HQ. wpf_step. assert (len P + len w = len (P ++ w)) as E by (by rewrite len_app).
  assert (forall z, take (length P) (P ++ z) = P /\ (length P <= length (P ++ z))%nat) as Hpre.
  { intros z. split; [apply take_app_length|rewrite length_app; lia]. }
  destruct Hsc as [t r post Ht|post|post].
  - rewrite E, app_assoc. apply wpf_wp, char_at_wp. rewrite same_ne by done. cbn [negb]. wpf_step. wpf_step. apply wpf_wp, poke_wp. wpf_step.
    eapply (HQ _ _ ((P ++ w) ++ [x00]) post). split; [by rewrite len_snoc|by rewrite snoc_cons, <- !app_assoc|rewrite <- app_assoc; apply Hpre|].
    intros b'. rewrite <- app_assoc. intros Hb _. by apply (kept_word P w b').
  - rewrite E, app_assoc. apply wpf_wp, char_at_wp. rewrite same_refl. cbn [negb]. wpf_step. wpf_step.
    eapply (HQ _ _ (P ++ w) post). split; [done|done|apply Hpre|]. intros b' _ Hb. rewrite (Hb eq_refl), <- app_assoc, drop_app_length.
    by apply c_str_text.
  - rewrite E, app_assoc, snoc_cons, <- len_snoc with (c := x00). apply wpf_wp, char_at_wp. rewrite same_refl. cbn [negb]. wpf_step. wpf_step.
    eapply (HQ _ _ ((P ++ w) ++ [x00]) post). split; [done|done|rewrite <- app_assoc; apply Hpre|].
    intros b'. rewrite <- app_assoc. intros Hb _. by apply (kept_word P w b').
Qed.

Lemma skip_space_wp n P s post h (Q : Z -> argv_state -> Prop) :
  text s -> (length s < n)%nat -> (forall sp, s = sp ++ spaces_off s -> Q (len (P ++ sp)) (AV (P ++ s ++ x00 :: post) h)) ->
  wp (skip_space n (len P)) Q (AV (P ++ s ++ x00 :: post) h).
Proof.
  revert P s. induction n as [|n IH]; intros P s Ht Hn HQ; [lia|]. cbn [skip_space]. wp_step. destruct s as [|c s]; cbn [app spaces_off] in *.
  - apply char_at_wp. rewrite same_refl. cbn [negb andb]. wp_step. specialize (HQ [] eq_refl). by rewrite app_nil_r in HQ.
  - inversion Ht as [|? ? Hc Hs]; subst. apply char_at_wp. rewrite (same_ne c x00) by done. cbn [negb andb]. destruct (is_space c).
    + rewrite snoc_cons, <- (len_snoc P c). apply IH; [done|cbn in Hn; lia|]. intros sp Esp. rewrite <- snoc_cons, <- app_assoc.
      apply (HQ (c :: sp)). cbn. by f_equal.
    + wp_step. specialize (HQ [] eq_refl). by rewrite app_nil_r in HQ.
Qed.

Lemma spaces_off_word s c t : spaces_off s = c :: t -> is_space c = false.
Proof. induction s as [|d s IH]; cbn; [done|]. destruct (is_space d) eqn:E; [done|]. by intros [= <- <-]. Qed.

Lemma next_word_rest c s w r : c <> x00 -> text s -> next_word c s = (w, r) -> is_space c = false -> text w /\ text r /\ (length r <= length s)%nat.
Proof.
  intros Hc Hs. unfold next_word. destruct (same c DOUBLE_QUOTE); [by intros E _; apply (word_rest _ _ _ _ E)|].
  destruct (same c SINGLE_QUOTE); [by intros E _; apply (word_rest _ _ _ _ E)|]. cbn [word ends]. intros E Hsp. rewrite Hsp in E.
  destruct (same c BACK_SLASH && _); [injection E as <- <-; split_and!; [constructor|constructor|cbn; lia]|].
  destruct (word Plain s) as [w' r'] eqn:E'. injection E as <- <-. destruct (word_rest _ _ _ _ E' Hs) as (H1 & H2 & H3).
  split_and!; [by constructor|done|done].
Qed.

(** ** The array *)

(** The pointers so far and the empty slots. *)
Definition slots (ps : list Z) (m : nat) : list (option Z) := (Some <$> ps) ++ replicate m None.

Lemma len_slots ps m : len (slots ps m) = len ps + Z.of_nat m.
Proof. unfold slots. by rewrite len_app, len_fmap, len_replicate. Qed.

Lemma set_slot_next ps m p : set_slot (len ps) p (slots ps (S m)) = Some (slots (ps ++ [p]) m).
Proof.
  unfold set_slot, slots. rewrite <- (len_fmap Some ps), fmap_app, <- app_assoc. apply (write_mid (Some <$> ps) [Some p] [None]). done.
Qed.

Lemma grow_slots ps m n : (length ps <= n)%nat ->
  (t ← read_at 0 (len ps) (slots ps m); write_at 0 t (replicate n None)) = Some (slots ps (n - length ps)).
Proof.
  intros Hn. unfold read_at. rewrite len_slots. unfold len. replace ((0 <=? 0) && _ && _) with true.
  2: { symmetry. rewrite !andb_true_iff, !Z.leb_le. lia. }
  cbn [mbind option_bind]. unfold slice, slots. rewrite drop_0, Nat2Z.id. rewrite <- (length_fmap Some ps) at 1. rewrite take_app_length.
  replace n with (length ps + (n - length ps))%nat at 1 by lia. rewrite replicate_add.
  apply (write_mid [] (Some <$> ps) (replicate (length ps) None)). by rewrite length_fmap, length_replicate.
Qed.

Lemma new_table_wp n (Q : option (list (option Z)) -> argv_state -> Prop) b h :
  (forall h', (forall x, x ∈ h_oom h' -> x ∈ h_oom h) -> Q (Some (slots [] (Z.to_nat n))) (AV b h')) ->
  (forall h', true ∈ h_oom h -> Q None (AV b h')) -> wp (new_table n) Q (AV b h).
Proof.
  intros H1 H2. unfold new_table. wp_step. wp_step. unfold wp at 1, malloc. cbn [av_host].
  destruct (h_oom h) as [|[] oom] eqn:Eo; cbn beta iota; wp_step.
  - apply H1. cbn. done.
  - apply H2. by left.
  - apply H1. cbn. intros x Hx. by right.
Qed.

(** The first word after the spaces. *)
Lemma scan_next {R} F n P c s post h ps m (k : list (option Z) * Z -> AVM R) (Q : R -> argv_state -> Prop) :
  is_space c = false -> text s -> c <> x00 -> (S (length s) < n)%nat -> (plain (c :: s) = false -> F) ->
  (forall P1 w r j b, next_word c s = (w, r) -> scanned P1 w r j b -> take (length P) P1 = P -> (length P <= length P1)%nat -> plain (c :: s) = plain r ->
    wpf F (k (slots (ps ++ [len P1]) m, j)) Q (AV b h)) ->
  wpf F ('(argv, str) ←
        (if same c DOUBLE_QUOTE then
           argv ← opt (set_slot (len ps) (len P + 1) (slots ps (S m)));
           str ← scan_word n (fun c => same c DOUBLE_QUOTE) (len P + 1);
           mret (argv, str)
         else if same c SINGLE_QUOTE then
           argv ← opt (set_slot (len ps) (len P + 1) (slots ps (S m)));
           str ← scan_word n (fun c => same c SINGLE_QUOTE) (len P + 1);
           mret (argv, str)
         else
           argv ← opt (set_slot (len ps) (len P) (slots ps (S m)));
           str ← scan_word n is_space (len P);
           mret (argv, str));
      k (argv, str)) Q (AV (P ++ c :: s ++ x00 :: post) h).
Proof.
  intros Hsp Ht Hc Hn HF HQ. assert (forall z, take (length P) (P ++ z) = P /\ (length P <= length (P ++ z))%nat) as Hpre.
  { intros z. split; [apply take_app_length|rewrite length_app; lia]. }
  assert (forall q, ends q c = true -> (plain s = false -> F) /\ forall r, plain s = plain r -> plain (c :: s) = plain r) as Hplain.
  { intros q Hq. rewrite (plain_cons c s) in * by (by apply (ends_plain q)). done. }
  unfold next_word in HQ. wpf_step. rewrite !set_slot_next. destruct (same c DOUBLE_QUOTE) eqn:E2; [|destruct (same c SINGLE_QUOTE) eqn:E1].
  - destruct (Hplain Double E2) as [HFs Hpl]. wpf_step. wpf_step. wpf_step. rewrite (snoc_cons P c), <- (len_snoc P c). destruct (word Double s) as [w r] eqn:E.
    eapply (scan_word_wpf F n Double _ s); [done|lia|done|done|]. intros j b Hsc Hp. wpf_step. apply (HQ (P ++ [c]) w r j b); [done|done|apply Hpre|apply Hpre|by apply Hpl].
  - destruct (Hplain Single E1) as [HFs Hpl]. wpf_step. wpf_step. wpf_step. rewrite (snoc_cons P c), <- (len_snoc P c). destruct (word Single s) as [w r] eqn:E.
    eapply (scan_word_wpf F n Single _ s); [done|lia|done|done|]. intros j b Hsc Hp. wpf_step. apply (HQ (P ++ [c]) w r j b); [done|done|apply Hpre|apply Hpre|by apply Hpl].
  - wpf_step. wpf_step. wpf_step. destruct (word Plain (c :: s)) as [w r] eqn:E.
    eapply (scan_word_wpf F n Plain P (c :: s)); [by constructor|cbn; lia|done|done|]. intros j b Hsc Hp. wpf_step.
    apply (HQ P w r j b); [done|done| |done|done]. by rewrite firstn_all.
Qed.

(** What the loop leaves behind, from [P] on. *)
Record split_up (P s : list byte) (ws : list (list byte)) (ps : list Z) (b : list byte) (b0 : list byte) : Prop := {
  sp_words : Forall2 (fun p w => 0 <= p /\ c_str (drop (Z.to_nat p) b) = Some w) ps ws;
  sp_pre : take (length P) b = P;
  sp_none : s = [] -> b = b0;
}.

Lemma argv_loop_wpf F fuel n m0 P s post h ps m (Q : option (list (option Z)) * Z -> argv_state -> Prop) :
  text s -> (length s < fuel)%nat -> (length s < n)%nat -> (length s <= m0)%nat -> (plain s = false -> F) ->
  (forall ps' m' b h', plain s = true -> split_up P s (words_within m0 s) ps' b (P ++ s ++ x00 :: post) ->
     Q (Some (slots (ps ++ ps') (S m')), len (ps ++ ps')) (AV b h')) ->
  (forall k b h', true ∈ h_oom h -> Q (None, k) (AV b h')) ->
  wpf F (argv_loop fuel n (len P) (len ps) (slots ps (S (S m)))) Q (AV (P ++ s ++ x00 :: post) h).
Proof.
  revert P s post h ps m m0. induction fuel as [|fuel IH]; intros P s post h ps m m0 Ht Hf Hn Hm HF HQ Hoom; [lia|]. cbn [argv_loop]. wpf_step.
  assert (forall ws, plain s = true -> words_within m0 s = ws -> ws = [] -> Q (Some (slots ps (S (S m))), len ps) (AV (P ++ s ++ x00 :: post) h)) as Hdone.
  { intros ws Hp Ew ->. rewrite <- (app_nil_r ps). apply HQ; [done|]. rewrite Ew. split; [constructor|by rewrite take_app_length|done]. }
  destruct s as [|c0 s0]; cbn [app].
  { apply wpf_wp, char_at_wp. rewrite same_refl. wpf_step. apply (Hdone _ eq_refl eq_refl). by destruct m0. }
  pose proof Ht as Ht'. inversion Ht' as [|? ? Hc0 Hs0]; subst. apply wpf_wp, char_at_wp. rewrite same_ne by done. wpf_step.
  change (c0 :: s0 ++ x00 :: post) with ((c0 :: s0) ++ x00 :: post). set (s1 := c0 :: s0) in *.
  apply wpf_wp, skip_space_wp; [done|lia|]. intros sp Esp. wpf_step. destruct m0 as [|m0]; [cbn in Hm; lia|]. cbn [words_within] in HQ, Hdone.
  rewrite Esp, <- app_assoc, app_assoc. pose proof (plain_spaces s1) as Hpl. symmetry in Hpl. destruct (spaces_off s1) as [|c s] eqn:Eso; cbn [app].
  { apply wpf_wp, char_at_wp. rewrite same_refl. wpf_step. specialize (Hdone _ Hpl eq_refl eq_refl). rewrite Esp, app_nil_r in Hdone. by rewrite <- app_assoc. }
  pose proof (spaces_off_word _ _ _ Eso) as Hsp. rewrite Esp in Ht. apply Forall_app in Ht as [_ Ht]. inversion Ht as [|? ? Hc Hs]; subst.
  apply wpf_wp, char_at_wp. rewrite (same_ne c x00) by done. pose proof (f_equal length Esp) as El. rewrite length_app in El. cbn [length] in El.
  cbv beta iota. rewrite Hpl in HF, HQ. eapply (scan_next F n (P ++ sp) c s post h ps (S m) (fun x => let '(argv, str) := x in _)); [done|done|done|lia|done|].
  intros P1 w r j b Enw Hsc Hp1 Hl1 Hpr. rewrite Hpr in HF, HQ. cbv beta iota. rewrite Enw in HQ.
  destruct (next_word_rest c s w r Hc Hs Enw Hsp) as (Hw & Hr & Hlr).
  eapply chop_wpf; [done|done|]. intros str b' P' post' [-> -> [Hpre Hle] Hword].
  assert (take (length P) P' = P) as HPP'.
  { assert (take (length P) (P ++ sp) = P) as Hps by apply take_app_length. rewrite <- Hps at 2. rewrite <- Hp1, <- Hpre.
    rewrite !take_take. f_equal. rewrite length_app in Hl1. rewrite !length_app. lia. }
  assert (forall ps' m' b h', plain r = true -> split_up P' r (words_within m0 r) ps' b (P' ++ r ++ x00 :: post') ->
     Q (Some (slots ((ps ++ [len P1]) ++ ps') (S m')), len ((ps ++ [len P1]) ++ ps')) (AV b h')) as HQ'.
  { intros ps' m' bf h' Hp [H1 H2 H3]. rewrite <- app_assoc. apply HQ; [done|]. split; [|rewrite <- HPP' at 2; rewrite <- H2, take_take; f_equal; apply (f_equal length) in HPP'; rewrite length_take in HPP'; lia|done].
    constructor; [|exact H1]. split; [unfold len; lia|]. unfold len. rewrite Nat2Z.id. by apply Hword. }
  rewrite len_slots. replace (len ps + 1) with (len (ps ++ [len P1])) by apply len_snoc.
  destruct (Z.geb_spec (len (ps ++ [len P1])) (len (ps ++ [len P1]) + Z.of_nat (S m) - 1)) as [Hge|Hlt].
  - wpf_step. apply wpf_wp, new_table_wp.
    + intros h' Hoo. wpf_step. set (ps1 := ps ++ [len P1]) in *. set (n1 := Z.to_nat _).
      assert (2 + length ps1 <= n1)%nat as Hn1.
      { assert (1 <= length ps1)%nat by (unfold ps1; rewrite length_app; cbn; lia). unfold n1, len in *. lia. }
      rewrite (grow_slots ps1 (S m) n1 ltac:(lia) : (t ← read_at 0 (len ps1) (slots ps1 (S m)); write_at 0 t (slots [] n1)) = _).
      wpf_step. replace (n1 - length ps1)%nat with (S (S (n1 - length ps1 - 2))) by lia.
      apply (IH P' r post' h' ps1 _ m0); [done|lia|lia|lia|done|done|]. intros k bf h2 Hin. by apply Hoom, Hoo.
    + intros h' Hin. wpf_step. by apply Hoom.
  - destruct m as [|m]; [lia|]. apply (IH P' r post' h _ m m0); [done|lia|lia|lia|done|done|done].
Qed.

(** ** Properties *)

(** What [build_argv] gives: as many pointers as words, each to its word in
    the buffer, and NULL after them. *)
Definition argv_of (s : list byte) (r : option (list (option Z)) * Z) (b : list byte) : Prop :=
  exists argv, r = (Some argv, len (words s)) /\ len (words s) < len argv /\
    (forall i, (len (words s) <= Z.of_nat i < len argv) -> argv !! i = Some None) /\
    (forall i w, words s !! i = Some w -> exists p, argv !! i = Some (Some p) /\ 0 <= p /\ c_str (drop (Z.to_nat p) b) = Some w).

(** A string with a backslash that is not at its end faults. *)
Lemma build_argv_wpf F s post h (Q : option (list (option Z)) * Z -> argv_state -> Prop) :
  text s -> (plain s = false -> F) ->
  (forall r b h', plain s = true -> argv_of s r b -> Q r (AV b h')) ->
  (forall k b h', true ∈ h_oom h -> Q (None, k) (AV b h')) ->
  wpf F (build_argv 0) Q (AV (s ++ x00 :: post) h).
Proof.
  intros Ht HF HQ Hoom. unfold build_argv. wpf_step. apply wpf_wp, new_table_wp; [|intros h' Hin; wpf_step; by apply Hoom].
  intros h' Hoo. wpf_step. unfold in_str. wpf_step. wpf_step. cbn [av_str av_host].
  change 0 with (len (@nil byte)) at 1. change 0 with (len (@nil Z)). change (Z.to_nat 16) with (S (S 14)).
  change (s ++ x00 :: post) with ([] ++ s ++ x00 :: post) at 3. set (n := S (length (s ++ x00 :: post))).
  assert (length s < n)%nat as Hn by (unfold n; rewrite length_app; lia).
  apply (argv_loop_wpf F n n (length s)); [done|done|done|lia|done| |intros k b h2 Hin; by apply Hoom, Hoo].
  intros ps m b h2 Hp [Hws _ _]. apply HQ; [done|]. cbn [app]. pose proof (Forall2_length _ _ _ Hws) as El. fold (words s) in *.
  exists (slots ps (S m)). assert (len ps = len (words s)) as El' by (unfold len; lia). rewrite El', len_slots. split_and!; [done|lia| |].
  - intros i Hi. unfold slots. unfold len in *. rewrite lookup_app_r by (rewrite length_fmap; lia). apply lookup_replicate_2. rewrite length_fmap. lia.
  - intros i w Hi. destruct (Forall2_lookup_r _ _ _ _ _ Hws Hi) as (p & Hp' & Hp0 & Hc). exists p. split; [|done].
    unfold slots. rewrite lookup_app_l by (rewrite length_fmap; by eapply lookup_lt_Some). by rewrite list_lookup_fmap, Hp'.
Qed.

(** C33. [build_argv] ends for every string.  When it returns, the string has
    no backslash but perhaps its last character, and is split as the grammar
    of words says: blanks separate words, quotes keep blanks, a backslash at
    the end is dropped; [*argc] is the number of words, each pointer is to its
    word in the buffer of the string, and the array ends in NULL.  The array
    is NULL only when memory runs out.  A string with a backslash before its
    last character leads to the [strcpy] onto itself, which is undefined, and
    nothing else does. *)
Theorem build_argv_splits s post h :
  text s ->
  match build_argv 0 (AV (s ++ x00 :: post) h) with
  | Done (r, st) => (plain s = true /\ argv_of s r (av_str st)) \/ (r.1 = None /\ true ∈ h_oom h)
  | Fault => plain s = false
  | Hang => False
  end.
Proof.
  intros Ht. apply (build_argv_wpf (plain s = false) s post h (fun r st => (plain s = true /\ argv_of s r (av_str st)) \/ (r.1 = None /\ true ∈ h_oom h))); [done|done| |].
  - intros r b h' Hp Hr. by left.
  - intros k b h' Hin. by right.
Qed.

(** The line [ab "c d" 'x y'\ ], which ends in a backslash, and [a\ b]. *)
Definition sample_line : list byte := [x61; x62; x20; x22; x63; x20; x64; x22; x20; x27; x78; x20; x79; x27; x5c].
Definition escaped_line : list byte := [x61; x5c; x20; x62].

Lemma build_argv_splits_witness :
  words sample_line = [[x61; x62]; [x63; x20; x64]; [x78; x20; x79]; []] /\
  wp (build_argv 0) (fun r st => argv_of sample_line r (av_str st)) (AV (sample_line ++ x00 :: []) (Host 0 0 0 0 [] [])) /\
  build_argv 0 (AV (escaped_line ++ x00 :: []) (Host 0 0 0 0 [] [])) = Fault.
Proof.
  split; [vm_compute; reflexivity|]. split; [|vm_compute; reflexivity].
  assert (text sample_line) as Ht by (repeat (constructor; [discriminate|]); constructor).
  pose proof (build_argv_splits sample_line [] (Host 0 0 0 0 [] []) Ht) as H. unfold wp. destruct (build_argv 0 _) as [[r st]| |].
  - destruct H as [[_ H]|[_ H]]; [exact H|]. by apply elem_of_nil in H.
  - done.
  - discriminate H.
Defined.
