(* ===== verification/Libc.v ===== *)
(** * Libc: strings and numbers of the C library

    What the programs on top (fsh.c, tstfs.c, makefs.c, mkfile.c) use of it:
    [strtoul], [isdigit], [strncmp], [%.5d], and [rand], a list of
    the results to come. *)

From S2P Require Import Prelude Bytes.
Local Open Scope Z_scope.

Definition isdigit (c : byte) : bool := (48 <=? bZ c) && (bZ c <? 58).
Definition isspace (c : byte) : bool := ((9 <=? bZ c) && (bZ c <? 14)) || (bZ c =? 32).

(** The string in a buffer, up to its NUL. *)
Fixpoint c_string (b : list byte) : list byte :=
  match b with
  | [] => []
  | c :: b => if bool_decide (c = x00) then [] else c :: c_string b
  end.

(** The value of a digit in bases up to 16. *)
Definition digit_value (c : byte) : option Z :=
  let z := bZ c in
  if (48 <=? z) && (z <? 58) then Some (z - 48)
  else if (97 <=? z) && (z <? 103) then Some (z - 87)
  else if (65 <=? z) && (z <? 71) then Some (z - 55)
  else None.

Fixpoint digits (base acc : Z) (s : list byte) : Z :=
  match s with
  | [] => acc
  | c :: s => match digit_value c with Some d => if d <? base then digits base (acc * base + d) s else acc | None => acc end
  end.

(** The base is that of the prefix: [0x] before a digit, [0], or none. *)
Definition unsigned_value (s : list byte) : Z :=
  match s with
  | x30 :: (x78 | x58) :: c :: s' =>
      match digit_value c with Some _ => digits 16 0 (c :: s') | None => 0 end
  | x30 :: _ => digits 8 0 s
  | _ => digits 10 0 s
  end.

Fixpoint skip_isspace (s : list byte) : list byte :=
  match s with
  | [] => []
  | c :: s' => if isspace c then skip_isspace s' else s
  end.

(** [strtoul(s, NULL, 0)]: ULONG_MAX when the value does not fit. *)
Definition strtoul (s : list byte) : Z :=
  let '(neg, s) := match skip_isspace s with x2d :: s => (true, s) | x2b :: s => (false, s) | s => (false, s) end in
  let v := unsigned_value s in
  if 2 ^ 64 <=? v then 2 ^ 64 - 1 else if (neg : bool) then u64 (- v) else v.

(** [strtol(s, NULL, 0)]: cut to the range of a long. *)
Definition strtol (s : list byte) : Z :=
  let '(neg, s) := match skip_isspace s with x2d :: s => (true, s) | x2b :: s => (false, s) | s => (false, s) end in
  let v := unsigned_value s in
  Z.max (- 2 ^ 63) (Z.min (2 ^ 63 - 1) (if (neg : bool) then - v else v)).

(** [strncmp(a, b, n) == 0] *)
Definition strncmp_eq (a b : list byte) (n : Z) : bool := bool_decide (take (Z.to_nat n) a = take (Z.to_nat n) b).

(** The decimal digits of a number that is not negative, none for 0; the fuel
    is the number of its bits. *)
Fixpoint decimal_digits (fuel : nat) (z : Z) : list byte :=
  match fuel with
  | O => []
  | S fuel => if z =? 0 then [] else decimal_digits fuel (z / 10) ++ [Zb (48 + z mod 10)]
  end.
Definition decimal (z : Z) : list byte := decimal_digits (S (Z.to_nat (Z.log2 z))) z.
(** [%.nd], for n from 1 on *)
Definition decimal_pad (n : nat) (z : Z) : list byte := let d := decimal z in replicate (n - length d) x30 ++ d.

(** [rand]: the next result. *)
Definition rand_next (l : list Z) : Z * list Z := match l with [] => (0, []) | r :: l => (r, l) end.

(** ** Numbers read back *)

Lemma digit_of_decimal d : 0 <= d < 10 -> digit_value (Zb (48 + d)) = Some d.
Proof.
  intros Hd. unfold digit_value. rewrite bZ_Zb, Z.mod_small by lia. rewrite (proj2 (Z.leb_le 48 (48 + d))), (proj2 (Z.ltb_lt (48 + d) 58)) by lia.
  cbn [andb]. f_equal. lia.
Qed.

Lemma digits_app base acc a d s :
  digit_value d = Some s -> s < base -> (forall c, c ∈ a -> exists x, digit_value c = Some x /\ x < base) ->
  digits base acc (a ++ [d]) = digits base acc a * base + s.
Proof.
  intros Hd Hs. revert acc. induction a as [|c a IH]; intros acc Ha; cbn.
  - rewrite Hd. by rewrite (proj2 (Z.ltb_lt s base)).
  - destruct (Ha c) as (x & -> & Hx); [by left|]. rewrite (proj2 (Z.ltb_lt x base)) by done. apply IH. intros y Hy. apply Ha. by right.
Qed.

Lemma decimal_digits_ok fuel z : forall c, c ∈ decimal_digits fuel z -> exists x, digit_value c = Some x /\ x < 10.
Proof.
  revert z. induction fuel as [|fuel IH]; intros z c; cbn; [by intros ?%elem_of_nil|].
  destruct (z =? 0); [by intros ?%elem_of_nil|]. rewrite elem_of_app, list_elem_of_singleton. intros [Hc| ->]; [by apply (IH (z / 10))|].
  pose proof (Z.mod_pos_bound z 10 ltac:(lia)). exists (z mod 10). split; [by apply digit_of_decimal|lia].
Qed.

Lemma decimal_digits_value fuel z : 0 <= z < 2 ^ Z.of_nat fuel -> digits 10 0 (decimal_digits fuel z) = z.
Proof.
  revert z. induction fuel as [|fuel IH]; intros z Hz; cbn [decimal_digits]; [cbn in *; lia|].
  destruct (Z.eqb_spec z 0) as [->|Hne]; [done|]. pose proof (Z.mod_pos_bound z 10 ltac:(lia)) as Hm.
  rewrite (digits_app 10 0 _ _ (z mod 10)); [|by apply digit_of_decimal|lia|apply decimal_digits_ok].
  rewrite IH; [pose proof (Z.div_mod z 10 ltac:(lia)); lia|]. rewrite Nat2Z.inj_succ, Z.pow_succ_r in Hz by lia.
  split; [apply Z.div_pos; lia|]. apply Z.div_lt_upper_bound; lia.
Qed.

Lemma decimal_value z : 0 <= z -> digits 10 0 (decimal z) = z.
Proof.
  intros Hz. apply decimal_digits_value. split; [done|]. rewrite Nat2Z.inj_succ, Z2Nat.id by apply Z.log2_nonneg.
  destruct (decide (z = 0)) as [->|]; [done|]. apply Z.log2_spec. lia.
Qed.
