(* ===== verification/Hexdump.v ===== *)
(** * Hexdump: the memory dumper (hexdump.c)

    What [hexdump] prints, as the text that goes to the standard output. *)

From S2P Require Import Prelude Bytes.
Local Open Scope Z_scope.

Definition BYTES_PER_LINE : nat := 16.
Definition blank : byte := x20.
Definition newline : byte := x0a.

(** [printf] of [%.2x] and [%.8x]. *)
Definition hex_digit (d : Z) : byte := Zb (if d <? 10 then 48 + d else 87 + d).
Fixpoint hex (w : nat) (z : Z) : list byte :=
  match w with
  | O => []
  | S w => hex w (z / 16) ++ [hex_digit (z mod 16)]
  end.

(** In the C locale. *)
Definition isprint (b : byte) : bool := (32 <=? bZ b) && (bZ b <? 127).

(** The loop over the bytes of a line, from the [i]th on. *)
Fixpoint columns (i : Z) (l : list byte) : list byte :=
  match l with
  | [] => []
  | b :: l => hex 2 (bZ b) ++ (if (i + 1) mod 4 =? 0 then [blank] else []) ++ columns (i + 1) l
  end.

Definition num_spaces (i : Z) : Z := 58 - (12 + i * 2 + i / 4).
Definition shown (b : byte) : byte := if isprint b then b else x2e.

Definition dump_line (offset : Z) (l : list byte) : list byte :=
  hex 8 offset ++ [x3a; blank] ++ columns 0 l ++ replicate (Z.to_nat (num_spaces (len l))) blank ++ (shown <$> l) ++ [newline].

(** The lines of the [fuel] first multiples of [BYTES_PER_LINE]. *)
Fixpoint dump_lines (fuel : nat) (offset : Z) (mem : list byte) : list byte :=
  match fuel, mem with
  | O, _ | _, [] => []
  | S fuel, _ => dump_line offset (take BYTES_PER_LINE mem) ++ dump_lines fuel (offset + Z.of_nat BYTES_PER_LINE) (drop BYTES_PER_LINE mem)
  end.

(** [mem] is what lies at the address; reading past it is a fault. *)
Definition hexdump (mem : list byte) (size : Z) : option (list byte) :=
  if len mem <? size then None
  else let mem := take (Z.to_nat size) mem in Some (dump_lines (length mem) 0 mem).

(** ** Reading a dump back *)

Definition digit_of (c : byte) : option Z :=
  let z := bZ c in
  if (48 <=? z) && (z <? 58) then Some (z - 48) else if (97 <=? z) && (z <? 103) then Some (z - 87) else None.

(** The bytes from the start of the columns to the gap before the text. *)
Fixpoint read_columns (l : list byte) : list byte :=
  match l with
  | a :: b :: r =>
      match digit_of a, digit_of b with
      | Some x, Some y =>
          Zb (16 * x + y) :: match r with c :: r' => if bool_decide (c = blank) then read_columns r' else read_columns r | [] => [] end
      | _, _ => []
      end
  | _ => []
  end.

Fixpoint lines_of (l : list byte) (line : list byte) : list (list byte) :=
  match l with
  | [] => []
  | c :: l => if bool_decide (c = newline) then rev line :: lines_of l [] else lines_of l (c :: line)
  end.

Definition undump (text : list byte) : list byte := mjoin ((fun l => read_columns (drop 10 l)) <$> lines_of text []).

Lemma hex_length w z : length (hex w z) = w.
Proof. revert z. induction w as [|w IH]; intros z; cbn; [done|]. rewrite length_app, IH. cbn. lia. Qed.

(** A byte has 256 values. *)
Lemma byte_all (P : byte -> bool) : forallb P (Zb <$> seqZ 0 256) = true -> forall b, P b = true.
Proof.
  intros H b. rewrite forallb_forall in H. apply H, list_elem_of_In, list_elem_of_fmap. exists (bZ b). split; [by rewrite Zb_bZ|].
  apply elem_of_seqZ. pose proof (bZ_range b). lia.
Qed.

Definition no_newline (c : byte) : bool := negb (bool_decide (c = newline)).
Definition reads (b : byte) : bool :=
  match hex 2 (bZ b) with
  | [x; y] => match digit_of x, digit_of y with Some u, Some v => bool_decide (Zb (16 * u + v) = b) && negb (bool_decide (x = blank)) && no_newline x && no_newline y | _, _ => false end
  | _ => false
  end.
Lemma reads_all b : reads b = true.
Proof. apply (byte_all reads). by vm_compute. Qed.
Lemma shown_all b : no_newline (shown b) = true.
Proof. apply (byte_all (fun b => no_newline (shown b))). by vm_compute. Qed.

Lemma hex_byte b : exists x y u v, hex 2 (bZ b) = [x; y] /\ digit_of x = Some u /\ digit_of y = Some v /\ Zb (16 * u + v) = b /\ x <> blank /\ no_newline x = true /\ no_newline y = true.
Proof.
  pose proof (reads_all b) as H. unfold reads in H. destruct (hex 2 (bZ b)) as [|x [|y [|]]]; try done.
  destruct (digit_of x) as [u|] eqn:Eu; [|done]. destruct (digit_of y) as [v|] eqn:Ev; [|done].
  apply andb_true_iff in H as [[[H1%bool_decide_eq_true H2%negb_true_iff]%andb_true_iff H3]%andb_true_iff H4].
  exists x, y, u, v. split_and!; try done. by apply bool_decide_eq_false in H2.
Qed.

Lemma columns_length i l : 0 <= i -> len (columns i l) = 2 * len l + (i + len l) / 4 - i / 4.
Proof.
  revert i. induction l as [|b l IH]; intros i Hi; [unfold len; cbn [columns length]; rewrite Z.add_0_r; lia|].
  cbn [columns]. unfold len in *. rewrite !length_app, !Nat2Z.inj_add, hex_length, IH by lia. cbn [length].
  replace (i + Z.of_nat (S (length l))) with (i + 1 + Z.of_nat (length l)) by lia.
  assert ((i + 1) / 4 = i / 4 + (if (i + 1) mod 4 =? 0 then 1 else 0)) as E.
  { destruct (Z.eqb_spec ((i + 1) mod 4) 0); Z.to_euclidean_division_equations; lia. }
  rewrite E. destruct ((i + 1) mod 4 =? 0); cbn; lia.
Qed.

Lemma read_columns_exact i l t : read_columns (columns i l ++ blank :: blank :: blank :: t) = l.
Proof.
  revert i. induction l as [|b l IH]; intros i; [done|]. cbn [columns]. destruct (hex_byte b) as (x & y & u & v & -> & Hu & Hv & Hb & _).
  rewrite <- app_assoc. cbn [app read_columns]. rewrite Hu, Hv, Hb. f_equal. rewrite <- app_assoc. destruct ((i + 1) mod 4 =? 0); cbn [app].
  - rewrite bool_decide_true by done. apply IH.
  - specialize (IH (i + 1)). destruct l as [|b' l]; [cbn; by rewrite bool_decide_true|]. cbn [columns] in *.
    destruct (hex_byte b') as (x' & y' & u' & v' & E & _ & _ & _ & Hne & _). rewrite E in *. cbn [app] in *. by rewrite bool_decide_false.
Qed.

Lemma columns_newline i l : forallb no_newline (columns i l) = true.
Proof.
  revert i. induction l as [|b l IH]; intros i; [done|]. cbn [columns]. rewrite !forallb_app, IH. destruct (hex_byte b) as (x & y & u & v & -> & _ & _ & _ & _ & Hx & Hy).
  cbn. rewrite Hx, Hy. by destruct ((i + 1) mod 4 =? 0).
Qed.
Lemma hex_newline w z : forallb no_newline (hex w z) = true.
Proof.
  revert z. induction w as [|w IH]; intros z; [done|]. cbn [hex]. rewrite forallb_app, IH. cbn. rewrite andb_true_r.
  pose proof (Z.mod_pos_bound z 16 ltac:(lia)) as Hb. revert Hb. generalize (z mod 16). intros d Hd.
  assert (forallb (fun d => no_newline (hex_digit d)) (seqZ 0 16) = true) as Hall by (by vm_compute). rewrite forallb_forall in Hall.
  apply Hall, list_elem_of_In, elem_of_seqZ. lia.
Qed.

(** A line without its end. *)
Definition line_text (offset : Z) (l : list byte) : list byte :=
  hex 8 offset ++ [x3a; blank] ++ columns 0 l ++ replicate (Z.to_nat (num_spaces (len l))) blank ++ (shown <$> l).
Lemma dump_line_text offset l : dump_line offset l = line_text offset l ++ [newline].
Proof. unfold dump_line, line_text. by rewrite <- !app_assoc. Qed.

Lemma line_newline offset l : forallb no_newline (line_text offset l) = true.
Proof.
  unfold line_text. rewrite !forallb_app, hex_newline, columns_newline. cbn [andb]. apply andb_true_iff. split; [done|].
  apply andb_true_iff. split.
  - induction (Z.to_nat (num_spaces (len l))) as [|n IH]; [done|]. cbn. exact IH.
  - induction l as [|b l IH]; [done|]. cbn. by rewrite shown_all.
Qed.

Lemma lines_of_app a line t : forallb no_newline a = true -> lines_of (a ++ newline :: t) line = (rev line ++ a) :: lines_of t [].
Proof.
  revert line. induction a as [|c a IH]; intros line H; cbn.
  - rewrite bool_decide_true by done. by rewrite app_nil_r.
  - cbn in H. apply andb_true_iff in H as [Hc Ha]. unfold no_newline in Hc. apply negb_true_iff in Hc. rewrite Hc, IH by done. cbn. by rewrite <- app_assoc.
Qed.

Lemma num_spaces_many (l : list byte) : (length l <= BYTES_PER_LINE)%nat -> exists n, Z.to_nat (num_spaces (len l)) = S (S (S n)).
Proof.
  intros Hl. exists (Z.to_nat (num_spaces (len l)) - 3)%nat. unfold num_spaces, len, BYTES_PER_LINE in *.
  assert (Z.of_nat (length l) / 4 <= 4) by (Z.to_euclidean_division_equations; lia). lia.
Qed.

Lemma read_line offset l : (length l <= BYTES_PER_LINE)%nat -> read_columns (drop 10 (line_text offset l)) = l.
Proof.
  intros Hl. unfold line_text. rewrite app_assoc, drop_app_length' by (rewrite length_app, hex_length; done).
  destruct (num_spaces_many l Hl) as [n ->]. cbn [replicate app]. apply read_columns_exact.
Qed.

Lemma undump_lines fuel offset mem : (length mem <= fuel)%nat -> undump (dump_lines fuel offset mem) = mem.
Proof.
  revert offset mem. induction fuel as [|fuel IH]; intros offset mem Hl; [by destruct mem; [|cbn in Hl; lia]|].
  destruct mem as [|b mem]; [done|]. cbn [dump_lines]. set (m := b :: mem) in *.
  rewrite dump_line_text, <- app_assoc. cbn [app]. unfold undump. rewrite lines_of_app by apply line_newline. cbn [rev app fmap list_fmap mjoin list_join concat].
  rewrite read_line by (rewrite length_take; lia). transitivity (take BYTES_PER_LINE m ++ drop BYTES_PER_LINE m); [|by rewrite take_drop]. f_equal.
  apply (IH (offset + Z.of_nat BYTES_PER_LINE) (drop BYTES_PER_LINE m)). rewrite length_drop. unfold m, BYTES_PER_LINE in *. cbn [length] in *. lia.
Qed.

(** The text starts in the same column whatever the number of bytes. *)
Lemma text_column offset l : (length l <= BYTES_PER_LINE)%nat -> drop 56 (line_text offset l) = shown <$> l.
Proof.
  intros Hl. unfold line_text. rewrite !app_assoc. apply drop_app_length'. rewrite !length_app, hex_length, length_replicate.
  pose proof (columns_length 0 l ltac:(lia)) as E. unfold len, num_spaces, BYTES_PER_LINE in *. cbn [length]. rewrite Z.add_0_l in E.
  change (0 / 4) with 0 in E. assert (Z.of_nat (length l) / 4 <= 4) by (Z.to_euclidean_division_equations; lia). lia.
Qed.

(** ** Properties *)

(** A dump shows everything: every byte can be read back from the columns
    of its line, and a dump of more than there is is a fault. *)
Theorem hexdump_round_trip mem size :
  match hexdump mem size with Some text => undump text = take (Z.to_nat size) mem | None => len mem < size end.
Proof.
  unfold hexdump. destruct (Z.ltb_spec (len mem) size); [done|]. by apply undump_lines.
Qed.
