(* ===== verification/Shell.v ===== *)
(** * Shell: the file system shell (fsh.c)

    The commands of [fsh] over the system calls, the table of commands and the
    loop that reads and runs them.  Messages are left out; what [ls] lists and
    what [rdtest] dumps is recorded ([event]). *)

From S2P Require Import Prelude Bytes Compat Host SkipList Kernel Vnode VnodeOps Descriptors Paths Syscalls Mounts Argv Hexdump Libc.
Local Open Scope Z_scope.

Definition MY_S_IFBLK : Z := 0x6000.
Definition MY_S_IFCHR : Z := 0x2000.
Definition MY_S_ISBLK (m : Z) : bool := Z.land m MY_S_IFMT =? MY_S_IFBLK.
Definition MY_S_ISCHR (m : Z) : bool := Z.land m MY_S_IFMT =? MY_S_IFCHR.
Definition MY_S_IRWXU : Z := 0x1C0.
Definition MY_S_IROTH : Z := 4.
Definition MY_S_IWOTH : Z := 2.
Definition MY_S_IXOTH : Z := 1.

Definition dash : byte := x2d.

(** One group of three permissions at [i], those of others first. *)
Definition put_triple (i : nat) (mode : Z) (str : list byte) : list byte :=
  let str := if negb (Z.land mode MY_S_IROTH =? 0) then <[i := x72]> str else str in
  let str := if negb (Z.land mode MY_S_IWOTH =? 0) then <[S i := x77]> str else str in
  if negb (Z.land mode MY_S_IXOTH =? 0) then <[S (S i) := x78]> str else str.

Definition mode_bits_to_str (mode : Z) : list byte :=
  let str := replicate 10 dash in
  let str := if MY_S_ISDIR mode then <[O := x64]> str
             else if MY_S_ISLNK mode then <[O := x6c]> str
             else if MY_S_ISBLK mode then <[O := x62]> str
             else if MY_S_ISCHR mode then <[O := x63]> str
             else str in
  let str := put_triple 7 mode str in
  let str := put_triple 4 (Z.shiftr mode 3) str in
  put_triple 1 (Z.shiftr (Z.shiftr mode 3) 3) str.

Inductive event :=
  | Listed (st : my_stat) (mode name : list byte)   (** a line of [ls] *)
  | Dumped (text : list byte).                       (** what [hexdump] printed *)

(** The functions the table of commands points to. *)
Inductive command :=
  | C_dir | C_open | C_make | C_close | C_mkdir | C_read_test | C_write_test | C_rm | C_rmall | C_rmdir
  | C_copy | C_trunc | C_seek | C_rename | C_sync | C_lat_fs | C_create | C_delete | C_help.

Definition fsh_cmds : list (list byte * command) := [
  ([x6c; x73], C_dir);                                  (* ls *)
  ([x64; x69; x72], C_dir);                             (* dir *)
  ([x6f; x70; x65; x6e], C_open);                       (* open *)
  ([x6d; x61; x6b; x65], C_make);                       (* make *)
  ([x63; x6c; x6f; x73; x65], C_close);                 (* close *)
  ([x6d; x6b; x64; x69; x72], C_mkdir);                 (* mkdir *)
  ([x72; x64; x74; x65; x73; x74], C_read_test);        (* rdtest *)
  ([x77; x72; x74; x65; x73; x74], C_write_test);       (* wrtest *)
  ([x72; x6d], C_rm);                                   (* rm *)
  ([x72; x6d; x61; x6c; x6c], C_rmall);                 (* rmall *)
  ([x72; x6d; x64; x69; x72], C_rmdir);                 (* rmdir *)
  ([x63; x70], C_copy);                                 (* cp *)
  ([x63; x6f; x70; x79], C_copy);                       (* copy *)
  ([x74; x72; x75; x6e; x63], C_trunc);                 (* trunc *)
  ([x73; x65; x65; x6b], C_seek);                       (* seek *)
  ([x6d; x76], C_rename);                               (* mv *)
  ([x73; x79; x6e; x63], C_sync);                       (* sync *)
  ([x6c; x61; x74; x5f; x66; x73], C_lat_fs);           (* lat_fs *)
  ([x63; x72; x65; x61; x74; x65], C_create);           (* create *)
  ([x64; x65; x6c; x65; x74; x65], C_delete);           (* delete *)
  ([x68; x65; x6c; x70], C_help);                       (* help *)
  ([x3f], C_help)].                                     (* ? *)

Definition quit_word : list byte := [x71; x75; x69; x74].

(** The first command whose name begins with the word. *)
Definition find_cmd (w : list byte) : option command :=
  snd <$> List.find (fun e => strncmp_eq e.1 w (len w)) fsh_cmds.

Definition my_prefix : list byte := [x2f; x6d; x79; x66; x73; x2f].
Definition READ_SIZE : Z := 4096.
Definition LAT_FS_ITER : Z := 1000.
Definition MAX_ITER : nat := 512.
Definition NUM_READS : nat := 16.

(** [fgets] into [n] bytes: up to a newline or [n - 1] bytes. *)
Fixpoint fgets (n : nat) (s : list byte) : list byte * list byte :=
  match n, s with
  | S (S _ as n), c :: s => if bool_decide (c = newline) then ([c], s) else let '(l, r) := fgets n s in (c :: l, r)
  | _, _ => ([], s)
  end.

Section shell.
Context {X : Type} (x_host : X -> host) (x_set_host : host -> X -> X) (ops_table : Z -> vnode_ops X).

(** [sh_in]: what is left of the standard input; [sh_files]: the files of the
    host; [sh_copy]: the static buffer of [do_copy_from_myfs]. *)
Record shell := Sh {
  sh_kernel : kstate (X := X);
  cur_fd : Z;
  sh_in : list byte;
  sh_rand : list Z;
  sh_files : list (list byte * list byte);
  sh_copy : list byte;
  sh_out : list event;
}.
Abbreviation SM := (M shell).
Definition set_kernel k s := Sh k (cur_fd s) (sh_in s) (sh_rand s) (sh_files s) (sh_copy s) (sh_out s).
Definition set_fd fd s := Sh (sh_kernel s) fd (sh_in s) (sh_rand s) (sh_files s) (sh_copy s) (sh_out s).
Definition set_in l s := Sh (sh_kernel s) (cur_fd s) l (sh_rand s) (sh_files s) (sh_copy s) (sh_out s).
Definition set_rand l s := Sh (sh_kernel s) (cur_fd s) (sh_in s) l (sh_files s) (sh_copy s) (sh_out s).
Definition set_files l s := Sh (sh_kernel s) (cur_fd s) (sh_in s) (sh_rand s) l (sh_copy s) (sh_out s).
Definition set_copy b s := Sh (sh_kernel s) (cur_fd s) (sh_in s) (sh_rand s) (sh_files s) b (sh_out s).
Definition say (e : event) : SM unit :=
  modify (fun s => Sh (sh_kernel s) (cur_fd s) (sh_in s) (sh_rand s) (sh_files s) (sh_copy s) (sh_out s ++ [e])).

Definition sys {A} (m : M (kstate (X := X)) A) : SM A := zoom sh_kernel set_kernel m.
Definition sh_malloc (n : Z) : SM (option Z) := sys (Descriptors.k_malloc x_host x_set_host n).
Definition rand : SM Z := l ← gets sh_rand; let '(r, l) := rand_next l in _ ← modify (set_rand l); mret r.

(** The words of the command: the array of pointers, with what they point at. *)
Abbreviation args := (list (option (list byte))).
Definition argv_at (argv : args) (i : nat) : SM (list byte) := a ← opt (argv !! i); opt a.

(** A string built in a buffer of [size] bytes; one that does not fit is
    written past its end. *)
Definition fits (size : Z) (s : list byte) : SM (list byte) := if len s <? size then mret s else fault.

Fixpoint letters (n : nat) : SM (list byte) :=
  match n with
  | O => mret []
  | S n => r ← rand; l ← letters n; mret (Zb (97 + Z.rem r 26) :: l)
  end.

(** The NUL goes to index [max], six bytes before the end of the letters. *)
Definition make_random_name (size : Z) : SM (list byte) :=
  r ← rand;
  let max := Z.rem r (size - 5 - 3) + 2 in
  l ← letters (Z.to_nat max);
  mret (take (Z.to_nat max) (my_prefix ++ l)).

Definition do_close : SM unit :=
  fd ← gets cur_fd;
  _ ← sys (sys_close ops_table true fd);
  modify (set_fd (-1)).
Definition close_current : SM unit := fd ← gets cur_fd; if fd >=? 0 then do_close else mret tt.

Definition open_file (name : list byte) (omode perms : Z) : SM Z :=
  sys (sys_open x_host x_set_host ops_table true (-1) (Some name) omode perms 0).

Definition do_open (argc : Z) (argv : args) : SM unit :=
  _ ← close_current;
  name ← (if argc <? 2 then make_random_name 64 else a ← argv_at argv 1; fits 64 (my_prefix ++ a));
  fd ← open_file name O_RDWR MY_S_IFREG;
  modify (set_fd fd).

Definition do_make (argc : Z) (argv : args) : SM unit :=
  _ ← close_current;
  name ← (if argc <? 2 then make_random_name 64 else
          a ← argv_at argv 1;
          if negb (bool_decide (head a = Some slash)) then fits 64 (my_prefix ++ a) else fits 64 a);
  fd ← open_file name (Z.lor O_RDWR O_CREAT) 438;
  modify (set_fd fd).

Definition do_mkdir (argc : Z) (argv : args) : SM unit :=
  name ← (if argc <? 2 then make_random_name 64 else a ← argv_at argv 1; fits 64 (my_prefix ++ a));
  _ ← sys (sys_mkdir x_host x_set_host ops_table true (-1) (Some name) MY_S_IRWXU);
  mret tt.

(** The length for [rdtest] and [wrtest]; the loop over it counts in an int. *)
Definition test_length (argv : args) : SM Z :=
  a ← argv_at argv 1;
  let n := match head a with Some c => if isdigit c then strtoul a else 256 | None => 256 end in
  mret n.
Definition int_loop (n : Z) : SM unit := if n >=? 2 ^ 31 then fault else mret tt.

Definition do_read_test (argc : Z) (argv : args) : SM unit :=
  fd ← gets cur_fd;
  if fd <? 0 then mret tt else
  n ← test_length argv;
  buff ← sh_malloc n;
  match buff with
  | None => mret tt
  | Some _ =>
      _ ← int_loop n;
      '(err, d) ← sys (sys_read ops_table true fd n);
      let buff := d ++ drop (length d) (replicate (Z.to_nat n) xff) in
      text ← opt (hexdump buff (if n <? 512 then n else 512));
      say (Dumped text)
  end.

Definition do_write_test (argc : Z) (argv : args) : SM unit :=
  fd ← gets cur_fd;
  if fd <? 0 then mret tt else
  n ← test_length argv;
  buff ← sh_malloc n;
  match buff with
  | None => mret tt
  | Some _ =>
      _ ← int_loop n;
      _ ← sys (sys_write ops_table true fd (Zb <$> seqZ 0 n) n);
      mret tt
  end.

(** The directory of [ls] and [rmall]. *)
Definition dir_arg (argc : Z) (argv : args) : SM (list byte) :=
  if argc >? 1 then a ← argv_at argv 1; fits 128 (my_prefix ++ a) else mret my_prefix.

(** The loop over the entries of a directory, one at a time; it goes on after
    an error at most [max_err] times.  [f] is told each entry, and says
    whether it is an error.  [fuel] bounds the number of rounds. *)
Fixpoint each_entry (fuel : nat) (dirfd max_err : Z) (f : list byte -> SM bool) : SM unit :=
  match fuel with
  | O => hang
  | S fuel =>
      let failed := if max_err <=? 0 then mret tt else each_entry fuel dirfd (max_err - 1) f in
      '(err, l) ← sys (sys_readdir x_host x_set_host ops_table true dirfd 512 1);
      if err <? 0 then failed else
      if err =? 0 then mret tt else
      e ← opt (head l);
      bad ← f (c_string (d_name e));
      if (bad : bool) then failed else each_entry fuel dirfd max_err f
  end.

Definition with_dirfd (dirname : list byte) (k : Z -> SM unit) : SM unit :=
  dirfd ← sys (sys_opendir x_host x_set_host ops_table true (-1) (Some dirname) 0);
  if dirfd <? 0 then mret tt else
  _ ← k dirfd;
  _ ← sys (sys_closedir ops_table true dirfd);
  mret tt.

Definition do_dir (fuel : nat) (argc : Z) (argv : args) : SM unit :=
  dirname ← dir_arg argc argv;
  with_dirfd dirname (fun dirfd => each_entry fuel dirfd 10 (fun name =>
    '(err, st) ← sys (sys_rstat x_host x_set_host ops_table true dirfd (Some name) true);
    if negb (err =? 0) then mret true else
    st ← opt st;
    _ ← say (Listed st (mode_bits_to_str (st_mode st)) name);
    mret false)).

Definition is_dot_name (name : list byte) : bool := bool_decide (name = [dot; dot]) || bool_decide (name = [dot]).

Definition do_rmall (fuel : nat) (argc : Z) (argv : args) : SM unit :=
  dirname ← dir_arg argc argv;
  with_dirfd dirname (fun dirfd => each_entry fuel dirfd 10 (fun name =>
    if is_dot_name name then mret false else
    fname ← fits 512 (dirname ++ slash :: name);
    _ ← sys (sys_unlink x_host x_set_host ops_table true (-1) (Some fname));
    mret false)).

(** Only the size of the [my_stat] is set. *)
Definition do_trunc (argc : Z) (argv : args) : SM unit :=
  if argc <? 2 then mret tt else
  a ← argv_at argv 1;
  fname ← fits 256 (my_prefix ++ a);
  b ← argv_at argv 2;
  _ ← sys (sys_wstat x_host x_set_host ops_table true (-1) (Some fname) (Stat 0 0 0 0 0 0 (i32 (strtoul b)) 0 0 0 0 0) WSTAT_SIZE false);
  mret tt.

Definition do_seek (argc : Z) (argv : args) : SM unit :=
  fd ← gets cur_fd;
  if fd <? 0 then mret tt else
  if argc <? 2 then mret tt else
  a ← argv_at argv 1;
  _ ← sys (sys_lseek ops_table true fd (i64 (strtoul a)) SEEK_SET);
  mret tt.

Definition remove_with (call : list byte -> M (kstate (X := X)) Z) (argc : Z) (argv : args) : SM unit :=
  _ ← close_current;
  if argc <? 2 then mret tt else
  a ← argv_at argv 1;
  name ← fits 256 (my_prefix ++ a);
  _ ← sys (call name);
  mret tt.
Definition do_rm : Z -> args -> SM unit := remove_with (fun name => sys_unlink x_host x_set_host ops_table true (-1) (Some name)).
Definition do_rmdir : Z -> args -> SM unit := remove_with (fun name => sys_rmdir x_host x_set_host ops_table true (-1) (Some name)).

(** ** Copying *)

Definition host_file (name : list byte) : SM (option (list byte)) :=
  l ← gets sh_files; mret (snd <$> List.find (fun f => bool_decide (f.1 = name)) l).
(** [fopen] for writing makes an empty file; [fwrite] appends to it. *)
Definition host_create (name : list byte) : SM unit :=
  modify (fun s => set_files ((name, []) :: List.filter (fun f => negb (bool_decide (f.1 = name))) (sh_files s)) s).
Definition host_append (name d : list byte) : SM unit :=
  modify (fun s => set_files ((fun f => if bool_decide (f.1 = name) then (f.1, f.2 ++ d) else f) <$> sh_files s) s).

(** The chunks of [fread]: full ones while there are, then the rest. *)
Fixpoint copy_chunks (fuel : nat) (bfd : Z) (d : list byte) : SM unit :=
  match fuel with
  | O => hang
  | S fuel =>
      let chunk := take (Z.to_nat READ_SIZE) d in
      if len chunk =? READ_SIZE then
        err ← sys (sys_write ops_table true bfd chunk READ_SIZE);
        if err <? 0 then mret tt else copy_chunks fuel bfd (drop (Z.to_nat READ_SIZE) d)
      else if len chunk =? 0 then mret tt
      else _ ← sys (sys_write ops_table true bfd chunk (len chunk)); mret tt
  end.

Definition do_copy_to_myfs (hname bfile : list byte) : SM unit :=
  myfs_name ← fits 128 (my_prefix ++ bfile);
  d ← host_file hname;
  match d with
  | None => mret tt
  | Some d =>
      bfd ← open_file myfs_name (Z.lor O_RDWR O_CREAT) (Z.lor MY_S_IFREG MY_S_IRWXU);
      if bfd <? 0 then mret tt else
      _ ← copy_chunks (S (length d)) bfd d;
      _ ← sys (sys_close ops_table true bfd);
      mret tt
  end.

(** An error that is a positive number counts as a number of bytes, which are
    then what the buffer has from before. *)
Fixpoint copy_out (fuel : nat) (bfd : Z) (hname : list byte) : SM unit :=
  match fuel with
  | O => hang
  | S fuel =>
      '(err, d) ← sys (sys_read ops_table true bfd READ_SIZE);
      _ ← modify (fun s => set_copy (splice 0 d (sh_copy s)) s);
      if err <? 0 then mret tt else
      buff ← gets sh_copy;
      d ← opt (read_at 0 err buff);
      _ ← host_append hname d;
      if negb (err =? READ_SIZE) then mret tt else copy_out fuel bfd hname
  end.

Definition do_copy_from_myfs (fuel : nat) (bfile hname : list byte) : SM unit :=
  myfs_name ← fits 128 (my_prefix ++ bfile);
  _ ← host_create hname;
  bfd ← open_file myfs_name O_RDONLY MY_S_IFREG;
  if bfd <? 0 then mret tt else
  _ ← copy_out fuel bfd hname;
  _ ← sys (sys_close ops_table true bfd);
  mret tt.

Definition colon : byte := x3a.
Definition do_copy (fuel : nat) (argc : Z) (argv : args) : SM unit :=
  _ ← close_current;
  if argc <? 3 then mret tt else
  a ← argv_at argv 1;
  b ← argv_at argv 2;
  let ca := bool_decide (head a = Some colon) in
  let cb := bool_decide (head b = Some colon) in
  if ca && negb cb then do_copy_to_myfs (tail a) b
  else if cb && negb ca then do_copy_from_myfs fuel a (tail b)
  else mret tt.

Definition do_rename (argc : Z) (argv : args) : SM unit :=
  _ ← close_current;
  if argc <? 3 then mret tt else
  a ← argv_at argv 1;
  b ← argv_at argv 2;
  oldname ← fits 128 (my_prefix ++ a);
  newname ← fits 128 (my_prefix ++ b);
  _ ← sys (sys_rename x_host x_set_host ops_table true (-1) (Some oldname) (-1) (Some newname));
  mret tt.

Definition do_sync : SM unit := _ ← sys (sys_sync ops_table); mret tt.

(** ** Tests *)

(** Reads until one is short. *)
Fixpoint read_many (n : nat) (fd : Z) : SM unit :=
  match n with
  | O => mret tt
  | S n =>
      '(r, _) ← sys (sys_read ops_table true fd READ_SIZE);
      if negb (r =? READ_SIZE) then mret tt else read_many n fd
  end.
Fixpoint cio_loop (n : nat) (fd : Z) : SM unit :=
  match n with
  | O => mret tt
  | S n =>
      _ ← read_many NUM_READS fd;
      r ← sys (sys_lseek ops_table true fd 0 SEEK_SET);
      if negb (r =? 0) then mret tt else cio_loop n fd
  end.
Definition do_cio (argc : Z) (argv : args) : SM unit :=
  fname ← (if argc =? 1 then mret (my_prefix ++ [x66; x73; x68]) else a ← argv_at argv 1; fits 64 (my_prefix ++ a));
  fd ← open_file fname O_RDONLY MY_S_IFREG;
  if fd <? 0 then mret tt else
  _ ← cio_loop MAX_ITER fd;
  _ ← sys (sys_close ops_table true fd);
  mret tt.

(** The buffer of 16 KB on the stack is never set; a size that is larger, or
    negative, goes past it. *)
Definition mkfile (s : list byte) (sz : Z) : SM unit :=
  fd ← open_file s (Z.lor O_RDWR O_CREAT) (Z.lor MY_S_IFREG MY_S_IRWXU);
  if fd <? 0 then mret tt else
  _ ← (if negb (sz =? 0) then
         if (sz <? 0) || (16384 <? sz) then fault else
         buf ← sys (in_ext (zoom x_host x_set_host (junk 16384)));
         sys (sys_write ops_table true fd buf sz)
       else mret 0);
  _ ← sys (sys_close ops_table true fd);
  mret tt.

(** [f] of the numbers from [j] to [iter]. *)
Definition count_up (iter : Z) (f : Z -> SM unit) : SM unit :=
  fold_right (fun j rest => _ ← f j; rest) (mret tt) (seqZ 0 iter).
Definition unlink_name (name : list byte) : SM unit :=
  _ ← sys (sys_unlink x_host x_set_host ops_table true (-1) (Some name)); mret tt.

Definition lat_name (j : Z) : list byte := my_prefix ++ decimal_pad 5 j.
Definition do_lat_fs (argc : Z) (argv : args) : SM unit :=
  iter ← (if argc >? 1 then a ← argv_at argv 1; mret (i32 (strtoul a)) else mret LAT_FS_ITER);
  let pass size := (_ ← count_up iter (fun j => mkfile (lat_name j) size); count_up iter (fun j => unlink_name (lat_name j))) in
  _ ← pass 0;
  pass 1024.

Definition test_dir : list byte := my_prefix ++ [x74; x65; x73; x74].
Definition test_name (j : Z) : list byte := test_dir ++ slash :: decimal_pad 5 j.
Definition do_create (argc : Z) (argv : args) : SM unit :=
  _ ← sys (sys_mkdir x_host x_set_host ops_table true (-1) (Some test_dir) MY_S_IRWXU);
  iter ← (if argc >? 1 then a ← argv_at argv 1; mret (i32 (strtoul a)) else mret 100);
  size ← (if argc >? 2 then a ← argv_at argv 2; mret (i32 (strtoul a)) else mret 0);
  count_up iter (fun j => mkfile (test_name j) size).
Definition do_delete (argc : Z) (argv : args) : SM unit :=
  iter ← (if argc >? 1 then a ← argv_at argv 1; mret (i32 (strtoul a)) else mret 100);
  count_up iter (fun j => unlink_name (test_name j)).

(** ** The loop *)

Definition run_command (fuel : nat) (c : command) (argc : Z) (argv : args) : SM unit :=
  match c with
  | C_dir => do_dir fuel argc argv
  | C_open => do_open argc argv
  | C_make => do_make argc argv
  | C_close => do_close
  | C_mkdir => do_mkdir argc argv
  | C_read_test => do_read_test argc argv
  | C_write_test => do_write_test argc argv
  | C_rm => do_rm argc argv
  | C_rmall => do_rmall fuel argc argv
  | C_rmdir => do_rmdir argc argv
  | C_copy => do_copy fuel argc argv
  | C_trunc => do_trunc argc argv
  | C_seek => do_seek argc argv
  | C_rename => do_rename argc argv
  | C_sync => do_sync
  | C_lat_fs => do_lat_fs argc argv
  | C_create => do_create argc argv
  | C_delete => do_delete argc argv
  | C_help => mret tt
  end.

(** What an array of pointers points at. *)
Definition words_at (buf : list byte) (t : list (option Z)) : args :=
  (fun p : option Z => match p with Some o => c_str (drop (Z.to_nat o) buf) | None => None end) <$> t.

(** [build_argv] on the line in [input], which is 512 bytes long. *)
Definition split_line (line : list byte) : SM (option args * Z) :=
  h ← sys (in_ext (gets x_host));
  match build_argv 0 (AV (line ++ replicate (512 - length line) x00) h) with
  | Done ((argv, argc), s) =>
      _ ← sys (in_ext (modify (x_set_host (av_host s))));
      mret (option_map (words_at (av_str s)) argv, argc)
  | Hang => hang
  | Fault => fault
  end.

Definition get_line : SM (option (list byte)) :=
  l ← gets sh_in;
  match l with
  | [] => mret None
  | _ => let '(line, rest) := fgets 512 l in _ ← modify (set_in rest); mret (Some line)
  end.

Fixpoint fsh_loop (rounds fuel : nat) : SM unit :=
  match rounds with
  | O => hang
  | S rounds =>
      line ← get_line;
      match line with
      | None => mret tt
      | Some line =>
          '(argv, argc) ← split_line line;
          match argv with
          | None => fsh_loop rounds fuel
          | Some argv =>
              if argc =? 0 then fsh_loop rounds fuel else
              w ← argv_at argv 0;
              _ ← (match find_cmd w with Some c => run_command fuel c argc argv | None => mret tt end);
              if strncmp_eq w quit_word 4 then mret tt else fsh_loop rounds fuel
          end
      end
  end.

(** A round eats at least a byte of the input. *)
Definition do_fsh (fuel : nat) : SM unit :=
  l ← gets sh_in;
  _ ← fsh_loop (S (length l)) fuel;
  fd ← gets cur_fd;
  if negb (fd =? -1) then do_close else mret tt.
End shell.
