(* ===== verification/ShellSpec.v ===== *)
(** * ShellSpec: the loop of the shell

    A session as a sequence of rounds, told by what a line, its words and the
    command of a word are.  A line that is read takes bytes off the input and
    no command touches the input, so that the rounds [do_fsh] is given are
    enough. *)

From S2P Require Import Prelude Bytes Compat Host SkipList Kernel Vnode VnodeOps Descriptors Paths Syscalls Mounts Argv Hexdump Libc Shell.
Local Open Scope Z_scope.

(** ** Lines *)

Lemma fgets_step n c s :
  fgets (S (S n)) (c :: s) = if bool_decide (c = newline) then ([c], s) else let '(l, r) := fgets (S n) s in (c :: l, r).
Proof. done. Qed.

(** The first line of an input: all of it up to a newline, or as much of it as
    the buffer of 512 bytes holds with a NUL after it. *)
Record first_line (size : nat) (input l rest : list byte) : Prop := {
  fl_split : input = l ++ rest;
  fl_some : l <> [];
  fl_newline : forall i, l !! i = Some newline -> S i = length l;
  fl_short : (length l <= size)%nat;
  fl_end : rest = [] \/ length l = size \/ last l = Some newline;
}.

Lemma fgets_line n c s l r : fgets (S (S n)) (c :: s) = (l, r) -> first_line (S n) (c :: s) l r.
Proof.
  revert c s l r. induction n as [|n IH]; intros c s l r; rewrite fgets_step; case_bool_decide as Hc.
  1, 3: intros [= <- <-]; split; [done|done|by intros [|i]|cbn; lia|right; right; by rewrite Hc].
  - assert (fgets 1 s = ([], s)) as -> by (by destruct s). intros [= <- <-]. split; [done|done|intros [|i]; [by intros [= ?]|done]|done|by right; left].
  - destruct s as [|d s].
    { intros [= <- <-]. split; [done|done|intros [|i]; [by intros [= ?]|done]|cbn; lia|by left]. }
    destruct (fgets (S (S n)) (d :: s)) as [l' r'] eqn:E. intros [= <- <-]. destruct (IH _ _ _ _ E) as [H1 H2 H3 H4 H5].
    split; [cbn [app]; by f_equal|done| |cbn; lia|].
    + intros [|i]; [by intros [= ?]|]. intros Hi. cbn. f_equal. by apply H3.
    + destruct H5 as [H5|[H5|H5]]; [by left|right; left; cbn; by rewrite H5|right; right]. destruct l'; [done|]. exact H5.
Qed.

(** ** What the commands leave alone *)

Section keeps.
Context {X : Type} (x_host : X -> host) (x_set_host : host -> X -> X) (ops_table : Z -> vnode_ops X).
Abbreviation shell := (Shell.shell (X := X)).

(** A computation that does not touch the input. *)
Definition keeps {A} (m : M shell A) : Prop := forall s a s', m s = Done (a, s') -> sh_in s' = sh_in s.

Lemma keeps_ret {A} (a : A) : keeps (mret a).
Proof. by intros s a' s' [= <- <-]. Qed.
Lemma keeps_bind {A B} (m : M shell A) (f : A -> M shell B) : keeps m -> (forall a, keeps (f a)) -> keeps (m ≫= f).
Proof.
  intros Hm Hf s b s' H. cbv [mbind M_bind] in H. destruct (m s) as [[a s1]| |] eqn:E; try done. cbn in H.
  rewrite (Hf a _ _ _ H). by apply (Hm _ a).
Qed.
Lemma keeps_hang {A} : keeps (hang (A := A)).
Proof. by intros s a s'. Qed.
Lemma keeps_fault {A} : keeps (fault (A := A)).
Proof. by intros s a s'. Qed.
Lemma keeps_opt {A} (o : option A) : keeps (opt o).
Proof. destruct o; [apply keeps_ret|apply keeps_fault]. Qed.
Lemma keeps_gets {A} (f : shell -> A) : keeps (gets f).
Proof. by intros s a s' [= <- <-]. Qed.
Lemma keeps_modify f : (forall s, sh_in (f s) = sh_in s) -> keeps (modify f).
Proof. intros Hf s a s' [= <- <-]. apply Hf. Qed.
Lemma keeps_sys {A} (m : M (kstate (X := X)) A) : keeps (sys m).
Proof. intros s a s' H. cbv [sys zoom] in H. by destruct (m (sh_kernel s)) as [[b k]| |]; inv H. Qed.

Create HintDb keeps.
#[local] Hint Resolve keeps_ret keeps_hang keeps_fault keeps_opt keeps_gets keeps_sys : keeps.
#[local] Hint Extern 1 (keeps (modify _)) => (apply keeps_modify; done) : keeps.

(** Goes through a command: the calls are left alone, its branches are split. *)
Ltac keeps :=
  repeat (intros; cbv beta zeta; match goal with
  | |- keeps (_ ≫= _) => apply keeps_bind
  | |- keeps (match ?x with _ => _ end) => destruct x
  | |- keeps (if ?x then _ else _) => destruct x
  | |- keeps _ => solve [eauto with keeps nocore]
  end).

Lemma keeps_rand : keeps (rand (X := X)).
Proof. unfold rand. keeps. Qed.
Lemma keeps_malloc n : keeps (sh_malloc x_host x_set_host n).
Proof. apply keeps_sys. Qed.
Lemma keeps_argv_at argv i : keeps (argv_at (X := X) argv i).
Proof. unfold argv_at. keeps. Qed.
Lemma keeps_fits size s : keeps (fits (X := X) size s).
Proof. unfold fits. keeps. Qed.
#[local] Hint Resolve keeps_rand keeps_malloc keeps_argv_at keeps_fits : keeps.
Lemma keeps_letters n : keeps (letters (X := X) n).
Proof. induction n; cbn; keeps. Qed.
#[local] Hint Resolve keeps_letters : keeps.
Lemma keeps_random_name size : keeps (make_random_name (X := X) size).
Proof. unfold make_random_name. keeps. Qed.
Lemma keeps_do_close : keeps (do_close ops_table).
Proof. unfold do_close. keeps. Qed.
#[local] Hint Resolve keeps_random_name keeps_do_close : keeps.
Lemma keeps_close_current : keeps (close_current ops_table).
Proof. unfold close_current. keeps. Qed.
Lemma keeps_open_file name omode perms : keeps (open_file x_host x_set_host ops_table name omode perms).
Proof. apply keeps_sys. Qed.
#[local] Hint Resolve keeps_close_current keeps_open_file : keeps.
Lemma keeps_dir_arg argc argv : keeps (dir_arg (X := X) argc argv).
Proof. unfold dir_arg. keeps. Qed.
#[local] Hint Resolve keeps_dir_arg : keeps.
Lemma keeps_each_entry fuel dirfd max_err f :
  (forall name, keeps (f name)) -> keeps (each_entry x_host x_set_host ops_table fuel dirfd max_err f).
Proof. intros Hf. revert max_err. induction fuel as [|fuel IH]; intros max_err; cbn [each_entry]; keeps. Qed.
Lemma keeps_with_dirfd name k : (forall d, keeps (k d)) -> keeps (with_dirfd x_host x_set_host ops_table name k).
Proof. intros Hk. unfold with_dirfd. keeps. Qed.
#[local] Hint Extern 2 (keeps (each_entry _ _ _ _ _ _ _)) => (apply keeps_each_entry; keeps) : keeps.
#[local] Hint Extern 2 (keeps (with_dirfd _ _ _ _ _)) => (apply keeps_with_dirfd; keeps) : keeps.

Lemma keeps_copy_chunks fuel bfd d : keeps (copy_chunks ops_table fuel bfd d).
Proof. revert d. induction fuel as [|fuel IH]; intros d; cbn [copy_chunks]; keeps. Qed.
Lemma keeps_host_file name : keeps (host_file (X := X) name).
Proof. unfold host_file. keeps. Qed.
Lemma keeps_host_create name : keeps (host_create (X := X) name).
Proof. unfold host_create. keeps. Qed.
Lemma keeps_host_append name d : keeps (host_append (X := X) name d).
Proof. unfold host_append. keeps. Qed.
#[local] Hint Resolve keeps_copy_chunks keeps_host_file keeps_host_create keeps_host_append : keeps.
Lemma keeps_copy_out fuel bfd name : keeps (copy_out ops_table fuel bfd name).
Proof. induction fuel as [|fuel IH]; cbn [copy_out]; keeps. Qed.
#[local] Hint Resolve keeps_copy_out : keeps.
Lemma keeps_mkfile name sz : keeps (mkfile x_host x_set_host ops_table name sz).
Proof. unfold mkfile. keeps. Qed.
Lemma keeps_unlink_name name : keeps (unlink_name x_host x_set_host ops_table name).
Proof. unfold unlink_name. keeps. Qed.
Lemma keeps_count_up iter f : (forall j, keeps (f j)) -> keeps (count_up (X := X) iter f).
Proof. intros Hf. unfold count_up. induction (seqZ 0 iter) as [|j l IH]; cbn [foldr]; keeps. Qed.
#[local] Hint Resolve keeps_mkfile keeps_unlink_name keeps_count_up : keeps.

(** Whatever the command, with whatever arguments. *)
Lemma keeps_command fuel c argc argv : keeps (run_command x_host x_set_host ops_table fuel c argc argv).
Proof.
  destruct c; cbn [run_command];
    unfold do_dir, do_open, do_make, do_mkdir, do_read_test, do_write_test, test_length, int_loop, say, do_rm, do_rmall, do_rmdir, remove_with,
      do_copy, do_copy_to_myfs, do_copy_from_myfs, do_trunc, do_seek, do_rename, do_sync, do_lat_fs, do_create, do_delete; keeps.
Qed.

(** ** Words *)

Lemma c_string_text b : text (c_string b).
Proof. induction b as [|c b IH]; cbn; [constructor|]. case_bool_decide; [constructor|by constructor]. Qed.

(** The buffer of the line is a string, and something after its NUL. *)
Lemma line_buffer line n : exists post, line ++ replicate (S n) x00 = c_string line ++ x00 :: post.
Proof.
  induction line as [|c line [post IH]]; [by exists (replicate n x00)|]. cbn [c_string app].
  case_bool_decide as Hc; [subst c; by eexists|]. exists post. cbn [app]. by rewrite IH.
Qed.

(** What [main] of a C program gets: the words, and NULL after them. *)
Definition holds_words (ws : list (list byte)) (argv : list (option (list byte))) (argc : Z) : Prop :=
  exists m, argc = len ws /\ argv = (Some <$> ws) ++ replicate (S m) None.

Lemma words_at_argv s argv k b : argv_of s (Some argv, k) b -> holds_words (words s) (words_at b argv) k.
Proof.
  intros (argv' & [= <- ->] & Hlen & Hnull & Hws). exists (length argv - S (length (words s)))%nat. split; [done|].
  assert (length (words s) < length argv)%nat as Hlt by (unfold len in Hlen; lia).
  apply list_eq_same_length with (n := length argv); [|unfold words_at; by rewrite length_fmap|].
  - rewrite length_app, length_fmap, length_replicate. lia.
  - intros i x y Hi. unfold words_at. rewrite list_lookup_fmap. destruct (decide (i < length (words s))%nat) as [Hl|Hl].
    + rewrite lookup_app_l by (by rewrite length_fmap). rewrite list_lookup_fmap. destruct (lookup_lt_is_Some_2 _ _ Hl) as [w Hw].
      destruct (Hws _ _ Hw) as (q & Hq & _ & Hc). rewrite Hw, Hq. cbn. rewrite Hc. congruence.
    + rewrite lookup_app_r by (rewrite length_fmap; lia). rewrite length_fmap, Hnull by (unfold len; lia). intros Hx [-> _]%lookup_replicate_1. by inv Hx.
Qed.

(** The state when the input is [rest] and the host's memory is as in [h]. *)
Definition took_line (rest : list byte) (h : host) (s : shell) : shell :=
  set_in rest (set_kernel (KS (k_layer (sh_kernel s)) (x_set_host h (k_ext (sh_kernel s)))) s).

Lemma split_line_wpf line (s : shell) : (length line < 512)%nat ->
  wpf (plain (c_string line) = false) (split_line x_host x_set_host line) (fun r s' => exists h, s' = took_line (sh_in s) h s /\
    match r.1 with
    | Some argv => plain (c_string line) = true /\ holds_words (words (c_string line)) argv r.2
    | None => true ∈ h_oom (x_host (k_ext (sh_kernel s)))
    end) s.
Proof.
  intros Hl. unfold split_line. wpf_step. apply wpf_zoom. unfold in_ext. apply wpf_zoom. wpf_step. cbn [k_ext].
  destruct (line_buffer line (511 - length line)) as [post E]. replace (S (511 - length line)) with (512 - length line)%nat in E by lia.
  rewrite E. set (h := x_host _).
  set (Q := fun (r : option (list (option Z)) * Z) (st : argv_state) => match r.1 with
    | Some argv => plain (c_string line) = true /\ holds_words (words (c_string line)) (words_at (av_str st) argv) r.2
    | None => true ∈ h_oom h end).
  assert (wpf (plain (c_string line) = false) (build_argv 0) Q (AV (c_string line ++ x00 :: post) h)) as Hb.
  { apply (build_argv_wpf _ (c_string line) post h Q); [apply c_string_text|done| |done]. intros [[argv|] k] b h' Hp Hr.
    - split; [done|]. by eapply words_at_argv.
    - destruct Hr as (argv & [=] & _). }
  unfold wpf in Hb. destruct (build_argv 0 _) as [[[argv k] st]| |]; [|done|by wpf_step].
  wpf_step. apply wpf_zoom. unfold in_ext. apply wpf_zoom. wpf_step. wpf_step. exists (av_host st). split; [by destruct s|].
  by destruct argv.
Qed.

(** ** Sessions *)

(** The first line of the input is taken and holds the words [ws]; nothing
    else changes but the host's memory.  A line with a backslash before its
    end cannot be split; one for which there is no memory counts as blank. *)
Inductive reads : shell -> list (list byte) -> shell -> Prop :=
  | Reads_words s l rest h : first_line 511 (sh_in s) l rest -> plain (c_string l) = true -> reads s (words (c_string l)) (took_line rest h s)
  | Reads_nothing s l rest h : first_line 511 (sh_in s) l rest -> true ∈ h_oom (x_host (k_ext (sh_kernel s))) -> reads s [] (took_line rest h s).

(** The command of a word: the first of the table whose name begins with it. *)
Inductive picks (w : list byte) : command -> Prop :=
  | Picks i name c : fsh_cmds !! i = Some (name, c) -> w `prefix_of` name ->
      (forall j e, (j < i)%nat -> fsh_cmds !! j = Some e -> ~ w `prefix_of` e.1) -> picks w c.

Definition quits (w : list byte) : Prop := quit_word `prefix_of` w.

(** A round of a session that goes on; [m] empty slots are left in the array. *)
Inductive round (fuel : nat) : shell -> shell -> Prop :=
  | Round_blank s s' : reads s [] s' -> round fuel s s'
  | Round_unknown s w ws s' : reads s (w :: ws) s' -> (forall c, ~ picks w c) -> ~ quits w -> round fuel s s'
  | Round_command s w ws s1 m c s' :
      reads s (w :: ws) s1 -> picks w c ->
      run_command x_host x_set_host ops_table fuel c (len (w :: ws)) ((Some <$> w :: ws) ++ replicate (S m) None) s1 = Done (tt, s') -> round fuel s s'.

(** The last round: the end of the input, or [quit]. *)
Inductive stops : shell -> shell -> Prop :=
  | Stops_eof s : sh_in s = [] -> stops s s
  | Stops_quit s w ws s' : reads s (w :: ws) s' -> quits w -> stops s s'.

(** A round that does not come to an end. *)
Inductive breaks (fuel : nat) : outcome (unit * shell) -> shell -> Prop :=
  | Breaks_command s w ws s1 m c o :
      reads s (w :: ws) s1 -> picks w c ->
      run_command x_host x_set_host ops_table fuel c (len (w :: ws)) ((Some <$> w :: ws) ++ replicate (S m) None) s1 = o -> breaks fuel o s
  | Breaks_escape s l rest : first_line 511 (sh_in s) l rest -> plain (c_string l) = false -> breaks fuel Fault s.

Lemma strncmp_prefix name w : strncmp_eq name w (len w) = true <-> w `prefix_of` name.
Proof.
  unfold strncmp_eq, len. rewrite Nat2Z.id, bool_decide_eq_true, firstn_all. split.
  - intros E. exists (drop (length w) name). by rewrite <- E at 1; rewrite take_drop.
  - intros [t ->]. apply take_app_length.
Qed.

Lemma strncmp_quit w : strncmp_eq w quit_word 4 = true <-> quits w.
Proof.
  unfold quits. rewrite <- strncmp_prefix. done.
Qed.

Lemma find_picks w : match find_cmd w with Some c => picks w c | None => forall c, ~ picks w c end.
Proof.
  unfold find_cmd.
  assert (forall l pre, pre ++ l = fsh_cmds -> (forall j e, (j < length pre)%nat -> fsh_cmds !! j = Some e -> ~ w `prefix_of` e.1) ->
    match snd <$> List.find (fun e => strncmp_eq e.1 w (len w)) l with Some c => picks w c | None => forall c, ~ picks w c end) as H.
  2: { apply (H fsh_cmds []); [done|]. intros j e Hj. cbn in Hj. lia. }
  induction l as [|[name c] l IH]; intros pre E Hpre; cbn [List.find fst].
  - cbn. rewrite app_nil_r in E. subst pre. intros c [i name c' Hi Hw _]. by apply (Hpre i (name, c')); [by eapply lookup_lt_Some|..].
  - assert (fsh_cmds !! length pre = Some (name, c)) as Hi by (rewrite <- E; by apply list_lookup_middle).
    destruct (strncmp_eq name w (len w)) eqn:Es.
    + cbn. apply (Picks w _ name c Hi); [by apply strncmp_prefix|done].
    + apply (IH (pre ++ [(name, c)])); [by rewrite <- app_assoc|]. intros j e Hj He. rewrite length_app in Hj. cbn in Hj.
      destruct (decide (j = length pre)) as [->|]; [|apply (Hpre j); [lia|done]]. rewrite Hi in He. injection He as <-.
      intros Hw%strncmp_prefix. cbn [fst] in Hw. congruence.
Qed.

Lemma quit_no_command w : quits w -> find_cmd w = None.
Proof.
  intros [t ->]. unfold find_cmd. assert (forall e, e ∈ fsh_cmds -> strncmp_eq e.1 (quit_word ++ t) (len (quit_word ++ t)) = false) as H.
  { intros e He. destruct (strncmp_eq _ _ _) eqn:E; [|done]. apply strncmp_prefix in E as [u E]. exfalso. revert e u He E.
    assert (Forall (fun e => match e.1 with x71 :: _ => False | _ => True end) fsh_cmds) as Hall by (repeat constructor).
    intros e u He E. rewrite Forall_forall in Hall. specialize (Hall e He). by rewrite E in Hall. }
  destruct (List.find _ fsh_cmds) as [e|] eqn:E; [|done]. apply List.find_some in E as [Hin E]. rewrite H in E; [done|]. by apply list_elem_of_In.
Qed.

Lemma get_line_takes (s : shell) :
  match get_line s with
  | Done (Some l, s') => exists rest, first_line 511 (sh_in s) l rest /\ s' = set_in rest s
  | Done (None, s') => s' = s /\ sh_in s = []
  | _ => False
  end.
Proof.
  unfold get_line. cbv [mbind M_bind gets]. destruct (sh_in s) as [|c l] eqn:E; [done|].
  destruct (fgets 512 (c :: l)) as [t r] eqn:Ef. cbv [modify mret M_ret]. exists r. split; [|done]. by apply (fgets_line 510).
Qed.

(** With input left a line is read and split, or cannot be. *)
Lemma reads_some (s : shell) : sh_in s <> [] ->
  exists l s1, get_line s = Done (Some l, s1) /\
    match split_line x_host x_set_host l s1 with
    | Done ((argv, argc), s2) => (length (sh_in s2) < length (sh_in s))%nat /\
        match argv with
        | Some argv => exists ws m, argc = len ws /\ reads s ws s2 /\ argv = (Some <$> ws) ++ replicate (S m) None
        | None => reads s [] s2
        end
    | Fault => forall fuel, breaks fuel Fault s
    | Hang => False
    end.
Proof.
  intros Hne. pose proof (get_line_takes s) as Hg. destruct (get_line s) as [[[l|] s1]| |]; [|by destruct Hg|done..]. destruct Hg as (rest & Hl & ->).
  exists l, (set_in rest s). split; [done|]. pose proof Hl as [Es Hsome _ Hshort _].
  pose proof (split_line_wpf l (set_in rest s) ltac:(lia)) as Hs. unfold wpf in Hs.
  destruct (split_line x_host x_set_host l (set_in rest s)) as [[[argv argc] s2]| |]; [|done|intros fuel; by eapply Breaks_escape].
  destruct Hs as (h & -> & Hs). split.
  { change (sh_in (took_line (sh_in (set_in rest s)) h (set_in rest s))) with rest. rewrite Es, length_app. destruct l; [done|]. cbn. lia. }
  destruct argv as [argv|]; [|by apply (Reads_nothing s l rest h)]. destruct Hs as [Hp (m & Ec & ->)].
  exists (words (c_string l)), m. split_and!; [done|by apply (Reads_words s l rest h)|done].
Qed.

(** ** The loop *)

Definition ends_as (fuel : nat) (s : shell) (o : outcome (unit * shell)) (stopped : shell -> outcome (unit * shell)) : Prop :=
  exists s1, rtc (round fuel) s s1 /\
    match o with
    | Done _ => exists s2, stops s1 s2 /\ stopped s2 = o
    | _ => breaks fuel o s1 \/ exists s2, stops s1 s2 /\ stopped s2 = o
    end.

Lemma ends_after fuel s s' o k : round fuel s s' -> ends_as fuel s' o k -> ends_as fuel s o k.
Proof. intros Hr (s1 & Hs & Ho). exists s1. split; [by eapply rtc_l|done]. Qed.

Lemma loop_outcome fuel n (s : shell) : (length (sh_in s) < n)%nat ->
  ends_as fuel s (fsh_loop x_host x_set_host ops_table n fuel s) (fun s => Done (tt, s)).
Proof.
  revert s. induction n as [|n IH]; intros s Hn; [lia|]. cbn [fsh_loop]. cbv [mbind M_bind].
  destruct (decide (sh_in s = [])) as [He|Hne].
  { pose proof (get_line_takes s) as Hg. destruct (get_line s) as [[[line|] s1]| |]; [|destruct Hg as [-> _]|done..].
    - destruct Hg as (rest & [E Hl _ _ _] & _). rewrite He in E. destruct line; done.
    - exists s. split; [done|]. exists s. split; [by apply Stops_eof|done]. }
  destruct (reads_some s Hne) as (line & s1 & -> & Hr).
  destruct (split_line x_host x_set_host line s1) as [[[argv argc] s2]| |]; [|done|exists s; split; [done|by left]].
  destruct Hr as [Hlt Hr]. destruct argv as [argv|]; [|eapply ends_after; [by eapply Round_blank|apply IH; lia]].
  destruct Hr as (ws & m & -> & Hr & ->). destruct ws as [|w ws]; [eapply ends_after; [by eapply Round_blank|apply IH; lia]|].
  rewrite (proj2 (Z.eqb_neq (len (w :: ws)) 0)) by (unfold len; cbn; lia). unfold argv_at. cbv [opt mbind M_bind]. cbn [fmap list_fmap app lookup list_lookup].
  change (Some w :: (Some <$> ws) ++ replicate (S m) None) with ((Some <$> w :: ws) ++ replicate (S m) None).
  pose proof (find_picks w) as Hpick. destruct (strncmp_eq w quit_word 4) eqn:Eq.
  - apply strncmp_quit in Eq. rewrite (quit_no_command w Eq). exists s. split; [done|]. exists s2. split; [by eapply Stops_quit|done].
  - assert (~ quits w) as Hnq by (intros Hq%strncmp_quit; congruence).
    destruct (find_cmd w) as [c|]; [|eapply ends_after; [by eapply Round_unknown|apply IH; lia]].
    destruct (run_command x_host x_set_host ops_table fuel c (len (w :: ws)) _ s2) as [[[] s3]| |] eqn:E3.
    + eapply ends_after; [by eapply Round_command|]. apply IH. rewrite (keeps_command _ _ _ _ _ _ _ E3). lia.
    + exists s. split; [done|]. left. by eapply Breaks_command.
    + exists s. split; [done|]. left. by eapply Breaks_command.
Qed.

(** What is done after the loop. *)
Definition leave (s : shell) : outcome (unit * shell) := if bool_decide (cur_fd s = -1) then Done (tt, s) else do_close ops_table s.

Lemma do_fsh_outcome fuel (s : shell) : ends_as fuel s (do_fsh x_host x_set_host ops_table fuel s) leave.
Proof.
  unfold do_fsh. cbv [mbind M_bind gets]. destruct (loop_outcome fuel (S (length (sh_in s))) s ltac:(lia)) as (s1 & Hs & Ho).
  exists s1. split; [done|]. destruct (fsh_loop _ _ _ _ fuel s) as [[[] s2]| |].
  - destruct Ho as (s' & Hst & [= ->]).
    assert ((if negb (cur_fd s2 =? -1) then do_close ops_table else mret tt) s2 = leave s2) as ->.
    { unfold leave. destruct (Z.eqb_spec (cur_fd s2) (-1)); [by rewrite bool_decide_true|by rewrite bool_decide_false]. }
    destruct (leave s2) as [[[] s3]| |] eqn:E; [|right|right]; by exists s2.
  - destruct Ho as [Hb|(s' & _ & Hd)]; [by left|done].
  - destruct Ho as [Hb|(s' & _ & Hd)]; [by left|done].
Qed.

Lemma leave_closed s s' : leave s = Done (tt, s') -> cur_fd s' = -1.
Proof.
  unfold leave. case_bool_decide as H; [by intros [= <-]|]. unfold do_close. cbv [mbind M_bind gets modify]. destruct (sys _ s) as [[? ?]| |]; by intros [= <-].
Qed.
End keeps.

(** ** Properties *)

(** C12. A session of the shell is rounds.  Each takes the first line of the
    input, up to a newline or 511 bytes, and splits it into words; a blank line
    does nothing; else the command runs that is the first of the table whose
    name begins with the first word, with the words and a NULL after them, and
    a word that no name begins with does nothing.  The session ends with the
    input or with a first word that begins with [quit]; then the current file
    is closed.  It hangs or crashes only in a command it reached, in that
    close, or on a line with a backslash before its end, which [build_argv]
    cannot split. *)
Theorem session_exact {X : Type} (x_host : X -> host) x_set_host (ops_table : Z -> vnode_ops X) fuel (s : shell (X := X)) :
  ends_as x_host x_set_host ops_table fuel s (do_fsh x_host x_set_host ops_table fuel s) (leave ops_table) /\
  match do_fsh x_host x_set_host ops_table fuel s with Done (_, s') => cur_fd s' = -1 | _ => True end.
Proof.
  pose proof (do_fsh_outcome x_host x_set_host ops_table fuel s) as H. split; [done|].
  destruct (do_fsh x_host x_set_host ops_table fuel s) as [[[] s']| |]; [|done..]. destruct H as (s1 & _ & s2 & _ & Hl). by eapply leave_closed.
Qed.
