(* ===== verification/Programs.v ===== *)
(** * Programs: the programs of the kit (fsh.c, makefs.c, mkfile.c, tstfs.c)

    The [main] functions: the shell on a mounted file system, the making of a
    file system, the making of the file it lies in, and the stress test.  What
    they print is left out, except for what the shell records and the files
    the stress test complains about. *)

From S2P Require Import Prelude Bytes Compat BlockCache Host SkipList Myfs Kernel Vnode VnodeOps Syscalls Mounts Rootfs File Mount System Libc Hexdump Shell.
Local Open Scope Z_scope.

Definition big_file : list byte := [x62; x69; x67; x5f; x66; x69; x6c; x65].
Definition untitled : list byte := [x75; x6e; x74; x69; x74; x6c; x65; x64].
Definition starts_digit (a : list byte) : bool := match head a with Some c => isdigit c | None => false end.

(** The name of the disk, unless the argument is a seed. *)
Definition disk_arg (arg : option (list byte)) : list byte :=
  match arg with Some a => if starts_digit a then big_file else a | None => big_file end.

(** ** mkfile *)

(** The options; one without its value is a fault. *)
Fixpoint mkfile_args (l : list (list byte)) (block_size file_size : Z) (fname : list byte) : option (Z * Z * list byte) :=
  match l with
  | [] => Some (block_size, file_size, fname)
  | a :: l =>
      if bool_decide (a = [x2d; x62]) then
        match l with [] => None | v :: l => mkfile_args l (i32 (strtol v * 1024)) file_size fname end
      else if bool_decide (a = [x2d; x6d]) then
        match l with [] => None | v :: l => mkfile_args l block_size (i32 (strtol v * 1024 * 1024)) fname end
      else mkfile_args l block_size file_size a
  end.

(** The state: the contents of the file, and which of the next writes fail.
    After a write that failed the loop goes on with memory and a file it has
    given back; a counter past the range of an int is a fault. *)
Fixpoint mkfile_loop (fuel : nat) (i block_size file_size : Z) : M (list byte * list bool) unit :=
  match fuel with
  | O => hang
  | S fuel =>
      if i <? file_size then
        '(d, fails) ← get;
        if head fails is Some true then fault else
        _ ← modify (fun _ => (d ++ replicate (Z.to_nat block_size) x00, tail fails));
        if i + block_size >=? 2 ^ 31 then fault else mkfile_loop fuel (i + block_size) block_size file_size
      else mret tt
  end.

(** [calloc] of a negative size fails; with no size the loop does not end. *)
Definition mkfile_main (args : list (list byte)) : M (list byte * list bool) (Z * list byte) :=
  '(block_size, file_size, fname) ← opt (mkfile_args args (128 * 1024) (8 * 1024 * 1024) big_file);
  if block_size <? 0 then mret (5, fname) else
  _ ← mkfile_loop (S (Z.to_nat file_size)) 0 block_size file_size;
  mret (0, fname).

Section programs.
Context {C : Type} {HC : BlockCache C}.
Context (init_block_cache : Z -> Z -> M C Z) (shutdown_block_cache : M C unit).

(** ** makefs *)

(** Only the block size and the volume name: [disk_name] is never NULL. *)
Fixpoint makefs_args (l : list (list byte)) (block_size : Z) (volume_name : list byte) : Z * list byte :=
  match l with
  | [] => (block_size, volume_name)
  | a :: l => if starts_digit a then makefs_args l (i32 (strtoul a)) volume_name else makefs_args l block_size a
  end.

Definition makefs_main (args : list (list byte)) : M (fs_state C) Z :=
  let '(block_size, volume_name) := makefs_args args 1024 untitled in
  _ ← in_cache (init_block_cache 256 0);
  made ← myfs_create_fs big_file (Some volume_name) block_size;
  if negb made then mret 5 else
  _ ← myfs_unmount (Some tt);
  _ ← in_cache shutdown_block_cache;
  mret 0.

(** ** fsh and tstfs *)

Context (stat : list byte -> Z + Z * Z) (memsize : Z) (sl_rand : list Z).
Abbreviation X := (fsx (below C)).
Abbreviation shell := (Shell.shell (X := X)).
Abbreviation SM := (M shell).
Abbreviation sys := (Shell.sys (X := X)).
Abbreviation start_fs := (init_fs init_block_cache stat memsize sl_rand).

Definition finish : SM Z :=
  err ← sys (sys_unmount fsx_host fsx_set_host all_ops true (-1) (Some mount_point));
  if negb (err =? 0) then mret 5 else
  _ ← sys (in_block_cache shutdown_block_cache);
  mret 0.

Definition fsh_main (fuel : nat) (arg : option (list byte)) : SM Z :=
  myfs ← sys (start_fs (disk_arg arg));
  match myfs with
  | None => mret 0
  | Some _ => _ ← do_fsh fsx_host fsx_set_host all_ops fuel; finish
  end.

Definition MAX_LOOPS : nat := 1024.
Definition MAX_FILES : nat := 512.
Definition MAX_NAME : Z := 24.

Definition tst_random_name (size : Z) : SM (list byte) := r ← rand; letters (Z.to_nat (Z.rem r (size - 7) + 6)).

(** Pieces of random length until all is written; any error but ENOSPC is
    waited on for ever.  A piece may be empty, so that the number of rounds is
    not bounded by the size. *)
Fixpoint write_rand_data (fuel : nat) (fd max_data : Z) : SM unit :=
  match fuel with
  | O => hang
  | S fuel =>
      if max_data <=? 0 then mret tt else
      r ← rand;
      let j := Z.rem r 4096 in
      let j := if max_data - j <? 0 then max_data else j in
      c ← rand;
      err ← sys (Syscalls.sys_write all_ops true fd (replicate (Z.to_nat j) (Zb (Z.shiftr c 8))) j);
      if negb (err =? j) then (if err =? ENOSPC then mret tt else hang)
      else write_rand_data fuel fd (max_data - j)
  end.

(** The names and sizes of the files there should be. *)
Definition files := (list (list byte) * list Z)%type.

(** Creates the file of a random slot, or removes it. *)
Definition tst_round (fuel : nat) (t : files) : SM (bool * files) :=
  let '(names, sizes) := t in
  r ← rand;
  let j := Z.to_nat (Z.rem r (Z.of_nat MAX_FILES)) in
  r ← rand;
  let size := Z.rem r 65536 + 1 in
  name ← opt (names !! j);
  if bool_decide (name = []) then
    l ← tst_random_name (MAX_NAME - 6);
    let name := my_prefix ++ l in
    let t := (<[j := name]> names, <[j := size]> sizes) in
    fd ← sys (sys_open fsx_host fsx_set_host all_ops true (-1) (Some name) (Z.lor O_CREAT O_RDWR) (Z.lor MY_S_IFREG MY_S_IRWXU) 0);
    if fd <? 0 then mret (false, t) else
    _ ← write_rand_data fuel fd size;
    _ ← sys (sys_close all_ops true fd);
    mret (true, t)
  else
    err ← sys (sys_unlink fsx_host fsx_set_host all_ops true (-1) (Some name));
    if negb (err =? 0) then mret (false, t) else mret (true, (<[j := []]> names, sizes)).

Fixpoint tst_rounds (n fuel : nat) (t : files) : SM files :=
  match n with
  | O => mret t
  | S n => '(ok, t) ← tst_round fuel t; if (ok : bool) then tst_rounds n fuel t else mret t
  end.

(** The files whose size is wrong, or [None] when one is missing: its
    descriptor must be 0.  A file that cannot be asked is left open. *)
Fixpoint tst_verify (l : list (list byte * Z)) : SM (option (list (list byte))) :=
  match l with
  | [] => mret (Some [])
  | (name, size) :: l =>
      if bool_decide (name = []) then tst_verify l else
      fd ← sys (sys_open fsx_host fsx_set_host all_ops true (-1) (Some name) O_RDWR 0 0);
      if negb (fd =? 0) then mret None else
      '(err, st) ← sys (sys_rstat fsx_host fsx_set_host all_ops true (-1) (Some name) true);
      if negb (err =? 0) then tst_verify l else
      st ← opt st;
      _ ← sys (sys_close all_ops true fd);
      rest ← tst_verify l;
      mret (if st_size st =? size then rest else (fun r => name :: r) <$> rest)
  end.

(** The exit code, and the files with a wrong size. *)
Definition tstfs_main (fuel : nat) (arg : option (list byte)) : SM (Z * list (list byte)) :=
  myfs ← sys (start_fs (disk_arg arg));
  match myfs with
  | None => mret (0, [])
  | Some _ =>
      t ← tst_rounds MAX_LOOPS fuel (replicate MAX_FILES [], replicate MAX_FILES 0);
      bad ← tst_verify (zip t.1 t.2);
      match bad with
      | None => _ ← sys (sys_unmount fsx_host fsx_set_host all_ops true (-1) (Some mount_point)); mret (0, [])
      | Some bad => code ← finish; mret (code, bad)
      end
  end.
End programs.

(** ** The file mkfile makes *)

(** The bytes written from [i] on: whole blocks. *)
Definition blocks_from (i block_size file_size : Z) : list byte :=
  replicate (Z.to_nat (block_size * ((file_size - i + block_size - 1) / block_size))) x00.

Lemma blocks_from_step i bs fs : 0 < bs -> i < fs -> blocks_from i bs fs = replicate (Z.to_nat bs) x00 ++ blocks_from (i + bs) bs fs.
Proof.
  intros Hb Hi. unfold blocks_from. rewrite <- replicate_add. f_equal.
  replace (fs - i + bs - 1) with (fs - (i + bs) + bs - 1 + 1 * bs) by lia. rewrite Z.div_add by lia.
  assert (0 <= (fs - (i + bs) + bs - 1) / bs) by (apply Z.div_pos; lia). nia.
Qed.
Lemma blocks_from_end i bs fs : 0 < bs -> fs <= i -> blocks_from i bs fs = [].
Proof.
  intros Hb Hi. unfold blocks_from. assert ((fs - i + bs - 1) / bs < 1) by (apply Z.div_lt_upper_bound; lia).
  by replace (Z.to_nat _) with O by nia.
Qed.

(** A round for each block, as long as no write fails. *)
Lemma mkfile_loop_exact fuel i bs fs d fails : 0 < bs -> fs + bs <= 2 ^ 31 -> Z.max 0 (fs - i) < Z.of_nat fuel -> true ∉ fails ->
  exists fails', mkfile_loop fuel i bs fs (d, fails) = Done (tt, (d ++ blocks_from i bs fs, fails')).
Proof.
  intros Hb Hr. revert i d fails. induction fuel as [|fuel IH]; intros i d fails Hf Hok; [lia|]. cbn [mkfile_loop].
  destruct (Z.ltb_spec i fs) as [Hi|Hi]; [|rewrite blocks_from_end, app_nil_r by lia; by exists fails].
  rewrite blocks_from_step by done. cbv [mbind M_bind get modify]. cbn [fst snd].
  assert (true ∉ tail fails) as Ht by (destruct fails; [done|set_solver]).
  assert ((i + bs >=? 2 ^ 31) = false) as Hs by (rewrite Z.geb_leb; apply Z.leb_gt; lia).
  destruct (IH (i + bs) (d ++ replicate (Z.to_nat bs) x00) (tail fails) ltac:(lia) Ht) as [fails' E]. exists fails'. rewrite <- app_assoc in E.
  destruct fails as [|[] fails]; [|set_solver|]; cbn [list.head list.tail] in *; rewrite Hs; exact E.
Qed.

(** ** Properties *)

(** [mkfile] with positive sizes ends, and the file holds zero bytes only,
    as many as make whole blocks: the size asked for, rounded up to the block
    size, or none when the size is not positive. *)
Theorem mkfile_main_exact args fails bs fs name :
  mkfile_args args (128 * 1024) (8 * 1024 * 1024) big_file = Some (bs, fs, name) ->
  0 < bs -> fs + bs <= 2 ^ 31 -> true ∉ fails ->
  exists fails', mkfile_main args ([], fails) = Done (0, name, (replicate (Z.to_nat (bs * ((fs + bs - 1) / bs))) x00, fails')).
Proof.
  intros Ha Hb Hr Hok. unfold mkfile_main. rewrite Ha. cbv [opt mbind M_bind]. rewrite (proj2 (Z.ltb_ge bs 0)) by lia.
  destruct (mkfile_loop_exact (S (Z.to_nat fs)) 0 bs fs [] fails Hb Hr ltac:(lia) Hok) as [fails' ->]. exists fails'.
  unfold blocks_from. rewrite Z.sub_0_r. done.
Qed.

(** [mkfile -b 3 -m 1 f]: 342 blocks of 3 KB for 1 MB. *)
Lemma mkfile_main_exact_witness :
  (exists fails', mkfile_main [[x2d; x62]; [x33]; [x2d; x6d]; [x31]; [x66]] ([], [false]) =
    Done (0, [x66], (replicate (Z.to_nat (3072 * ((1048576 + 3072 - 1) / 3072))) x00, fails'))) /\
  3072 * ((1048576 + 3072 - 1) / 3072) = 342 * 3072.
Proof.
  split; [|reflexivity]. apply (mkfile_main_exact [[x2d; x62]; [x33]; [x2d; x6d]; [x31]; [x66]] [false] 3072 1048576 [x66]); [reflexivity|lia|lia|].
  apply (bool_decide_unpack _). vm_compute. exact I.
Defined.
