(* ===== verification/Session.v ===== *)
(** * Session: the whole kit, run

    The programs on a disk in memory, with the block cache as it is: makefs,
    then the shell twice, as two processes that share nothing but the disk.
    The starting states are those of a process: all static data zero.  What is
    shown is an evaluation of these runs for three sizes of a file. *)

From S2P Require Import Prelude Bytes Compat BlockCache Device HashTable CacheList Cache CacheIo CacheLaws Host SkipList Myfs Dir Kernel Vnode VnodeOps Descriptors Paths Syscalls Mounts Rootfs File Mount System Libc Hexdump Shell Programs.
Local Open Scope Z_scope.

(** The file of the disk is open on this descriptor of the host. *)
Definition disk_fd : Z := 3.
#[local] Instance real_cache : BlockCache cst := cache_ops (fun _ => disk_fd).

(** ** Processes *)

Definition process_heap : host := Host 4096 0 0 1000 [] [].
Definition process_cache (disk : list byte) : cst :=
  CS zero_bc (Lock 0 SemNull) [] [] [] 0 ∅ ∅ (OS {[disk_fd := OFile 0 disk]} [] 0) process_heap [].
Definition disk_of (c : cst) : list byte := match os_files (cs_os c) !! disk_fd with Some f => f_data f | None => [] end.

(** The exit code of makefs, and the disk after it. *)
Definition run_makefs (args : list (list byte)) (disk : list byte) : option (Z * list byte) :=
  match makefs_main init_block_cache shutdown_block_cache args (FS zero_info (process_cache disk) process_heap) with
  | Done (code, s) => Some (code, disk_of (fs_cache s))
  | _ => None
  end.

Definition process_layer : layer := Layer ∅ [] (SL ∅ 0 0 0 0 []) ∅ [] (Lock 0 SemNull) 0 (Statics None None 0 [] ∅ (Lock 0 SemNull) 0 None ∅ ∅ zero_io).
Definition process_rootfs : rstate := RState ∅ ∅ ∅ [] (Host 0 0 0 0 [] []).
Definition fsh_process (input : list byte) (files : list (list byte * list byte)) (disk : list byte) : shell (X := fsx (below cst)) :=
  Sh (KS process_layer (FX (FS zero_info (Below (process_cache disk) process_rootfs ∅) process_heap) ∅)) (-1) input [] files (replicate 4096 x00) [].

Record result := Result { exit_code : Z; printed : list event; host_files : list (list byte * list byte); disk_after : list byte }.

(** The memory of the machine, and what the host says of any path. *)
Definition memory : Z := 2 ^ 20.
Definition one_device (path : list byte) : Z + Z * Z := inr (5, 9).

Definition run_fsh (input : list byte) (files : list (list byte * list byte)) (disk : list byte) : option result :=
  match fsh_main init_block_cache shutdown_block_cache one_device memory [] 20 None (fsh_process input files disk) with
  | Done (code, s) => Some (Result code (sh_out s) (sh_files s) (disk_of (b_cache (fs_cache (x_fs (k_ext (sh_kernel s)))))))
  | _ => None
  end.

(** ** Two runs on one disk *)

Definition line (words : list (list byte)) : list byte := mjoin ((fun w => w ++ [blank]) <$> words) ++ [newline].
Definition file_f : list byte := [x66].
Definition dir_d : list byte := [x64].
Definition host_out : list byte := [x6f; x75; x74].

(** [make f], [wrtest n], [mkdir d] *)
Definition first_input (n : Z) : list byte :=
  line [[x6d; x61; x6b; x65]; file_f] ++ line [[x77; x72; x74; x65; x73; x74]; decimal_pad 1 n] ++ line [[x6d; x6b; x64; x69; x72]; dir_d].
(** [ls], [cp f :out], [rm f], [rmdir d], [ls], [quit] *)
Definition second_input : list byte :=
  line [[x6c; x73]] ++ line [[x63; x70]; file_f; colon :: host_out] ++ line [[x72; x6d]; file_f] ++ line [[x72; x6d; x64; x69; x72]; dir_d] ++
  line [[x6c; x73]] ++ line [quit_word].

Definition listed (e : event) : option (list byte * Z) := match e with Listed st _ name => Some (name, if MY_S_ISDIR (st_mode st) then -1 else st_size st) | Dumped _ => None end.

(** The exit codes, what the second run lists (a name with the size of the
    file, or -1) and the files it leaves on the host. *)
Definition two_runs (n : Z) : option (list Z * list (option (list byte * Z)) * list (list byte * list byte)) :=
  '(c0, disk) ← run_makefs [] (replicate (32 * 1024)%nat x00);
  r1 ← run_fsh (first_input n) [] disk;
  r2 ← run_fsh second_input [] (disk_after r1);
  Some ([c0; exit_code r1; exit_code r2], listed <$> printed r2, host_files r2).

(** Nothing, a byte and more than a block; [contents n] is what [wrtest n]
    writes. *)
Definition sizes : list Z := [0; 1; 1025].
Definition contents (n : Z) : list byte := Zb <$> seqZ 0 n.
Definition empty_listing : list (option (list byte * Z)) := [Some ([dot], -1); Some ([dot; dot], -1)].

Definition survives (n : Z) : Prop :=
  two_runs n = Some ([0; 0; 0], empty_listing ++ [Some (file_f, n); Some (dir_d, -1)] ++ empty_listing, [(host_out, contents n)]).

#[local] Instance survives_dec n : Decision (survives n).
Proof. unfold survives. apply _. Defined.

(** Evaluated for these sizes, on a disk of 32 KB: the second run lists the file
    and the directory of the first with their sizes, copies the file out with
    the bytes that were written, removes the two and lists an empty directory;
    every program exits with 0. *)
Example sizes_survive : Forall survives sizes.
Proof. apply (bool_decide_unpack _). vm_cast_no_check I. Qed.
